(* ===== verification/_CoqProject ===== *)
-Q . S2P
Prelude.v
HashTable.v
HashTableCorrect.v
HashTableTheorems.v
SetTable.v
SetCorrect.v
Bitset.v
Bytes.v
Crc32.v
Float32.v
HalfFloat.v
HalfFloatTheorems.v
RingVector.v
RingVectorCorrect.v
RingVectorTheorems.v
Blob.v
BlobCorrect.v
BlobItems.v
BlobTheorems.v
Ralloc.v
RallocString.v
RallocForest.v
RallocCorrect.v
RallocMove.v
RallocFree.v
RallocSpec.v
RallocSteps.v
RallocTheorems.v
LinearAlloc.v
LinearMem.v
LinearSpec.v
LinearSteps.v
LinearOps.v
LinearTheorems.v
Slab.v
SlabCorrect.v
SlabThreads.v
SlabTheorems.v
RegAlloc.v
RegAllocCorrect.v
RegAllocSelect.v
RegAllocBuild.v
RegAllocGraph.v
RegAllocTheorems.v
QpuInstr.v
QpuPack.v
QpuFields.v
QpuCorrect.v
QpuMul.v
QpuWord.v
QpuTheorems.v
Vc4Defines.v
Vc4Shader.v
Vc4ShaderFrame.v
Vc4ShaderSafe.v
Vc4ShaderRun.v
Vc4ShaderUniforms.v
Vc4ShaderOffsets.v
Vc4ShaderTotal.v
Vc4ShaderRest.v
Vc4ShaderTheorems.v
Vc4Packet.v
Vc4Validate.v
Vc4ShaderRec.v
Vc4BinSteps.v
Vc4BinRun.v
Vc4BinTotal.v
Vc4Texture.v
Vc4JobCorrect.v
Vc4JobTheorems.v
Vc4Render.v
Vc4RenderList.v
Vc4RenderCorrect.v
Vc4RenderSurfaces.v
Vc4RenderTheorems.v
MemManager.v
MemManagerRings.v
MemManagerRep.v
MemManagerAlloc.v
MemManagerTheorems.v
