(* ===== verification/Prelude.v ===== *)
(** * Verification of core components of Mesa

    Mesa implements OpenGL and related interfaces on many kinds of hardware.  This
    development models, from the C sources under [src/src/], components that other parts of
    Mesa rely on, and proves what makes them correct.  Paths below are relative to
    [src/src/].

    ** The components and their files

    - Hash table, [util/hash_table.c].  [HashTable] has the data ([struct hash_entry], [struct
      hash_table]) and one definition per function; [HashTableCorrect] the invariant and its
      preservation; [HashTableTheorems] the claims.
    - Hash set, [util/set.c]: [SetTable], [SetCorrect].
    - Bit sets, [util/bitset.h]: [Bitset], used by the register allocator.
    - Circular buffers, [util/u_vector.c] and [u_vector.h]: [RingVector] is the model,
      [RingVectorCorrect] relates a buffer to the elements it holds, [RingVectorTheorems] to a queue.
    - Serialization buffers, [compiler/blob.c]: [Blob] is the model of the writer and the reader,
      [BlobCorrect] what each operation does to the bytes, [BlobItems] a client that writes values,
      [BlobTheorems] reading them back.
    - Memory contexts, [util/ralloc.c].  [Ralloc] is the model of the blocks, as headers in a store, and
      [RallocString] of the string functions; [RallocForest] has forests of blocks and the headers that
      a forest has in memory; [RallocCorrect] shows what linking, unlinking and adopting are on forests,
      [RallocMove] moving a block, [RallocFree] freeing; [RallocSpec] has the calls of a client and what they do
      to a forest, [RallocSteps] that every call does this, [RallocTheorems] the claim.
    - The linear allocator, at the end of [util/ralloc.c].  [LinearAlloc] is the model: its buffers are blocks of a memory context
      and all its pointers and lengths are bytes of these blocks; [LinearMem] has blocks
      attached to a forest and accesses by address, [LinearSpec] arenas and the calls of a client, [LinearSteps] the
      bytes of a buffer and allocation, [LinearOps] accesses to chunks, resizing and
      strings, [LinearTheorems] freeing, moving and the claim.
    - Slab allocator, [util/slab.c].  [Slab] is the model: the headers of elements and pages, the pools, every function, its steps as other
      threads see them, and threads that call the functions; [SlabCorrect] says where each element is and what the parts of
      the functions do to that, [SlabThreads] has the invariant of calls in progress, [SlabTheorems] the claims.
    - Checksums, [util/crc32.c]: [Crc32].
    - Half floats, [util/half_float.c]: [HalfFloat] is the model, on single precision as [Float32] has
      it, and [HalfFloatTheorems] the claim.
    - [Bytes] holds memory as a list of bytes with little-endian words, shared by the circular
      buffers, the serialization buffers, the memory contexts and the VC4 command lists.
    - Graph-colouring register allocator, [util/register_allocate.c].  [RegAlloc] is the
      model; [RegAllocCorrect], [RegAllocSelect], [RegAllocBuild] and [RegAllocGraph] hold the lemmas on
      simplification, selection, register sets and the interference graph;
      [RegAllocTheorems] the claims.
    - V3D QPU instructions, [broadcom/qpu/qpu_instr.c], [qpu_instr.h] and [qpu_pack.c].
      [QpuInstr] and [QpuPack] are the models; [QpuFields], [QpuCorrect], [QpuMul], [QpuWord] the
      lemmas; [QpuTheorems] the claims.
    - Validation of VC4 shaders, [gallium/drivers/vc4/kernel/vc4_validate_shaders.c].
      [Vc4Defines] has the instruction fields, [Vc4Shader] the model; [Vc4ShaderFrame],
      [Vc4ShaderSafe], [Vc4ShaderRun], [Vc4ShaderUniforms], [Vc4ShaderOffsets],
      [Vc4ShaderTotal] and [Vc4ShaderRest] the lemmas; [Vc4ShaderTheorems] the claims.
    - Validation of VC4 jobs, [gallium/drivers/vc4/kernel/vc4_validate.c] and [vc4_gem.c].
      [Vc4Packet] has packets and error results, [Vc4Validate] the binning command list,
      [Vc4ShaderRec] shader records, textures and [vc4_get_bcl];
      [Vc4BinSteps], [Vc4BinRun], [Vc4BinTotal], [Vc4Texture] and
      [Vc4JobCorrect] the lemmas; [Vc4JobTheorems] the claims.
    - Generation of the VC4 rendering command list, [gallium/drivers/vc4/kernel/vc4_render_cl.c], and
      [vc4_cl_validate] of [vc4_gem.c].  [Vc4Render] is the model; [Vc4RenderList] the packets
      each function emits, [Vc4RenderCorrect] their sizes and the rules of the hardware,
      [Vc4RenderSurfaces] the surfaces that are accepted; [Vc4RenderTheorems] the claims.
    - Memory manager, [gallium/auxiliary/util/u_mm.c].  [MemManager] is the model: the nodes of a heap in
      a store from addresses to [struct mem_block], linked in two rings; [MemManagerRings] has the
      lemmas on rings, [MemManagerRep] what a heap represents and the effect of splitting, taking,
      giving back and joining blocks, [MemManagerAlloc] allocation and freeing;
      [MemManagerTheorems] the claims.

    How they interact: the register allocator uses bit sets; the validators of VC4 use the
    field macros that are the same as those of the QPU encoder; job validation consumes the
    information (uniforms, texture samples, threads) that shader validation collects; the
    rendering list is generated after the binning list was validated, from the tile memory
    that validation made, and both check surfaces with the same function.

    ** How C is modelled

    A w-bit integer is a [Z], and operations that can leave the range are followed by their
    wrap ([u8], [u16], [u32], [u64], [i32]).  Arrays are lists; an access outside an array gives
    [None] (or [Undefined] in [Vc4Packet]), as do failed assertions, so that a theorem that a
    function returns a value includes that all its accesses are in bounds.  Loops
    that are not structural have fuel computed from the size of their data; running
    out of fuel is [None] too, so the same theorems show termination.  Whether an
    allocation succeeds, the memory a buffer gets, the functions of a hash table's user and
    other things outside the sources are arguments.

    ** What the theorems show

    - C1, C2 and C23: the hash table implements a finite map for every sequence of operations, as long as memory
      is available; insertion is right on every branch, with rehashing and failing
      allocations; removal removes one key.  [hash_table_search_correct] and [hash_table_foreach_correct] are about
      search and iteration.  [next_address_wrap_never_returns] shows that
      in the largest table size the probe address wraps in 32 bits.
    - C3: a circular buffer behaves as a queue for every sequence of operations that adds less than
      2^32 bytes; [vector_wraparound] shows what happens past that.
    - C4, C5 and C21: however threads that use and destroy slab pools and free each other's objects interleave, no step touches freed
      memory or hands out an object in use, nothing is leaked, and the functions return; [slab_page_size_wraps] shows sizes that wrap.
    - C6: for every sequence of calls, the linear allocator does what an arena of separate chunks does,
      and leaves the blocks around it alone; [linear_size_wraps] shows a size for which the sums of the code wrap.
    - C7: for every sequence of calls, the headers of memory contexts in memory are those of a forest:
      freeing a block frees exactly what is below it, children first, and blocks that are moved,
      stolen or adopted keep their contents and what is below.
    - C8 and C9: adding to a set is inserting into a hash table, field by field, except for the key NULL, and the set
      implements a finite set of keys other than NULL and the tombstone; [null_added_not_found] shows what NULL does.
    - C10 to C13, C15, C16 and C37: allocation ends, and a colouring it finds gives interfering nodes, unless both
      were forced, registers that do
      not conflict; it succeeds when every node passes the pq test; simplification
      puts every free node on the stack; register sets and the graph are what their construction asked
      for; the best node to spill; transitive conflicts.
      [forced_node_without_class_breaks_pq] is about a forced node without class, [member_added_twice] about a register
      that a class is given twice.
    - C14: the checksum computed with the table is the remainder of the message polynomial, and detects
      every change within four consecutive bytes.
    - C17: conversion to half precision rounds to the nearest number, and is exact the other way.
    - C18 to C20 and C22: instructions whose encoding keeps everything ([alu_lossless]) survive packing and unpacking, and
      so do all branches; packing never fails an assertion
      for members in range; what flags decode to.  [qpu_round_low_is_high] and [qpu_sig_roundtrip] have
      encodings that lose something.
    - C24 to C28 and C30: up to the delay slots of its end an accepted shader only has allowed signals, writes and
      branches, and a threaded shader
      stays in its half of the registers; the sizes reported equal a reference
      count; offsets recorded for textures lie in the uniforms, if no immediate looks like a uniform; validation stays in
      bounds, on shaders with the operands and program ends it expects; it does not read what follows the end.
      [shader_checks_escape] has accepted shaders that escape the checks.
    - C31 to C36: an accepted command list has the right packets in the right order, what the
      hardware gets is a packet-wise relocation of it, validation is total, accepted textures and
      vertex fetches stay in their buffers (unless the offset of a cube map wraps), records cannot change the command list.
      [job_checks_escape] has jobs that escape the checks.
    - C29 and C38: the rendering list is the encoding of the right packets for every tile once and
      fills its buffer exactly; its packets access checked surfaces and the binner's memory only.  Both have conditions
      under which the checks of the code suffice, stated with them; [render_checks_escape] has the jobs for which they do not.
    - C39: for every sequence of allocations and frees in a heap, the blocks held have the size
      that was asked for and never overlap; destroying the heap gives the store from before, and, if
      memory for the nodes never ran out, a heap with everything freed is one free block again; [failed_split_not_joined] shows
      the other case.
    - C40: values written to a serialization buffer, blocks of bytes not being empty, are read back, running out of memory is
      reported, and nothing is accessed outside the buffer; [empty_block_overruns] shows why empty blocks are left out.

    ** Bounds

    The fuel of a loop is computed from its data (slots of a table, nodes and registers of
    the allocator), and the theorems show that it never runs out.  The loops of shader
    validation have up to three more than the shader has instructions, because the end of
    the program may move the limit two instructions past the end; the loop over the command list has one
    more than the list has bytes, since every packet has at least one byte.  The theorems on shaders
    assume fewer than 2^27 to 2^31 instructions, those on jobs command lists shorter
    than 2^30 bytes, so that the offsets the code keeps in 32 bits do not wrap.  The
    theorems on the memory manager assume requests whose end, rounded up, is an [int], those on
    serialization buffers values of at most 2^62 bytes together.  The loop over the elements of a circular
    buffer has one step more than the buffer has bytes.  Freeing a memory context takes at most two steps
    per block; its sizes, with the header, are below 2^64.  Sizes of the linear allocator are at most 2^31 - 64 bytes,
    and a page of the slab allocator has less than 2^32 bytes.

    ** Not modelled

    Freeing of memory outside the memory manager and the memory contexts; destructors that use the allocator; error messages and other
    printing ([u_mmDumpMemInfo]); concurrency outside the slab allocator, and
    weaker memory models than sequential consistency; floating point beyond single precision.  The compilers (GLSL, NIR, the back ends),
    the OpenGL state, hardware drivers and window-system bindings are not part of this
    development: they are far larger than what can be translated
    faithfully here, and much of their behaviour is in the hardware or in external
    libraries.  Of the shared code, the work queue ([u_queue.c]), string buffers
    ([string_buffer.c]), intrusive lists ([list.h]), the name table of [mesa/main/hash.c] and the
    other containers of [gallium/auxiliary] are not modelled either. *)
From Stdlib Require Export ZArith Lia Bool List.
From stdpp Require Export base tactics option list numbers sets.
#[global] Open Scope Z_scope.

(** ** Machine integers: a w-bit unsigned integer is a [Z]; every operation of
    the source that can leave the range is followed by its wrap. *)
Definition u8 (x : Z) : Z := x mod 2 ^ 8.
Definition u16 (x : Z) : Z := x mod 2 ^ 16.
Definition u32 (x : Z) : Z := x mod 2 ^ 32.
Definition u64 (x : Z) : Z := x mod 2 ^ 64.
(** Two's complement reading of a 32-bit pattern (a C [int32_t]). *)
Definition i32 (x : Z) : Z := (x + 2 ^ 31) mod 2 ^ 32 - 2 ^ 31.

(** [~0U] / [UINT_MAX]. *)
Definition UINT_MAX : Z := 4294967295.

(** ** C arrays.  [None] is an access outside the array, which the source has
    no defined behaviour for; theorems that a function returns [Some] thus
    include that all its accesses are in bounds. *)
Definition array_get {A} (l : list A) (i : Z) : option A :=
  if 0 <=? i then l !! Z.to_nat i else None.
Definition array_set {A} (l : list A) (i : Z) (x : A) : option (list A) :=
  if (0 <=? i) && (i <? Z.of_nat (length l))
  then Some (<[Z.to_nat i := x]> l) else None.

(** Monadic left fold: a [for] loop whose body may be undefined. *)
Fixpoint foldM {S A} (f : S -> A -> option S) (s : S) (l : list A) : option S :=
  match l with
  | [] => Some s
  | x :: l' => s' ← f s x; foldM f s' l'
  end.

(** The integers [a], [a+1], ..., [a+n-1], for counted loops. *)
Definition zrange (a : Z) (n : nat) : list Z := (fun i => a + Z.of_nat i) <$> seq 0 n.

(** ** Shared lemmas. *)
Create HintDb mesa.

(** Run the binds whose first computation is known, and nothing else. *)
Ltac obind := cbn [mbind option_bind].

Lemma u32_small x : 0 <= x < 2 ^ 32 -> u32 x = x.
Proof. apply Z.mod_small. Qed.

Lemma u32_range x : 0 <= u32 x < 2 ^ 32.
Proof. apply Z.mod_pos_bound. lia. Qed.

Lemma u64_small x : 0 <= x < 2 ^ 64 -> u64 x = x.
Proof. apply Z.mod_small. Qed.

Lemma u64_range x : 0 <= u64 x < 2 ^ 64.
Proof. apply Z.mod_pos_bound. lia. Qed.

Lemma array_get_Some {A} (l : list A) i x :
  array_get l i = Some x <-> 0 <= i /\ l !! Z.to_nat i = Some x.
Proof. unfold array_get. destruct (Z.leb_spec 0 i); naive_solver lia. Qed.

Lemma array_get_nat {A} (l : list A) (i : nat) : array_get l (Z.of_nat i) = l !! i.
Proof. unfold array_get. rewrite Nat2Z.id. destruct (Z.leb_spec 0 (Z.of_nat i)); [done|lia]. Qed.

Lemma array_get_lt {A} (l : list A) i x :
  array_get l i = Some x -> 0 <= i < Z.of_nat (length l).
Proof. intros [? H]%array_get_Some. apply lookup_lt_Some in H. lia. Qed.

Lemma array_get_is_Some {A} (l : list A) i :
  0 <= i < Z.of_nat (length l) -> exists x, array_get l i = Some x.
Proof.
  intros H. destruct (lookup_lt_is_Some_2 l (Z.to_nat i)) as [x Hx]; [lia|].
  exists x. apply array_get_Some. naive_solver lia.
Qed.

Lemma array_set_Some {A} (l : list A) i (x : A) :
  0 <= i < Z.of_nat (length l) -> array_set l i x = Some (<[Z.to_nat i := x]> l).
Proof.
  intros H. unfold array_set.
  destruct (Z.leb_spec 0 i), (Z.ltb_spec i (Z.of_nat (length l))); try lia. done.
Qed.

Lemma array_set_inv {A} (l l' : list A) i (x : A) :
  array_set l i x = Some l' ->
  0 <= i < Z.of_nat (length l) /\ l' = <[Z.to_nat i := x]> l.
Proof.
  unfold array_set.
  destruct (Z.leb_spec 0 i), (Z.ltb_spec i (Z.of_nat (length l))); naive_solver lia.
Qed.

Lemma array_set_length {A} (l l' : list A) i (x : A) :
  array_set l i x = Some l' -> length l' = length l.
Proof. intros [_ ->]%array_set_inv. apply length_insert. Qed.

Lemma array_get_set_eq {A} (l l' : list A) i (x : A) :
  array_set l i x = Some l' -> array_get l' i = Some x.
Proof.
  intros [? ->]%array_set_inv. apply array_get_Some. split; [lia|].
  apply list_lookup_insert_eq. lia.
Qed.

Lemma array_get_set_ne {A} (l l' : list A) i j (x : A) :
  array_set l i x = Some l' -> i <> j -> array_get l' j = array_get l j.
Proof.
  intros [? ->]%array_set_inv Hne. unfold array_get.
  destruct (Z.leb_spec 0 j); [|done]. apply list_lookup_insert_ne. lia.
Qed.

Lemma array_get_set {A} (l l' : list A) i j (x : A) :
  array_set l i x = Some l' ->
  array_get l' j = if i =? j then Some x else array_get l j.
Proof.
  intros H. destruct (Z.eqb_spec i j) as [->|Hne].
  - by eapply array_get_set_eq.
  - by eapply array_get_set_ne.
Qed.

Lemma zrange_length a n : length (zrange a n) = n.
Proof. unfold zrange. rewrite length_fmap. apply length_seq. Qed.

Lemma zrange_S a n : zrange a (S n) = a :: zrange (a + 1) n.
Proof.
  unfold zrange. cbn [seq]. rewrite fmap_cons, <- seq_shift, <- list_fmap_compose.
  f_equal; [lia|]. apply list_fmap_ext. intros i y _. cbn. lia.
Qed.

Lemma elem_of_zrange a n x : x ∈ zrange a n <-> a <= x < a + Z.of_nat n.
Proof.
  unfold zrange. rewrite list_elem_of_fmap. setoid_rewrite elem_of_seq.
  split; [naive_solver lia|]. intros H. exists (Z.to_nat (x - a)). lia.
Qed.

Lemma NoDup_zrange a n : NoDup (zrange a n).
Proof. apply NoDup_fmap; [intros ???; lia | apply NoDup_seq]. Qed.

Lemma foldM_app {S A} (f : S -> A -> option S) s l1 l2 :
  foldM f s (l1 ++ l2) = s' ← foldM f s l1; foldM f s' l2.
Proof.
  revert s. induction l1 as [|x l1 IH]; intros s; [done|]. cbn.
  destruct (f s x); cbn; [apply IH | done].
Qed.

(** Invariant rule for [foldM]: the invariant is indexed by the elements
    processed so far and those still to come. *)
Lemma foldM_ind {S A} (P : list A -> S -> Prop) (f : S -> A -> option S) l s :
  P [] s ->
  (forall l1 x l2 s1, l = l1 ++ x :: l2 -> P l1 s1 ->
     exists s2, f s1 x = Some s2 /\ P (l1 ++ [x]) s2) ->
  exists s', foldM f s l = Some s' /\ P l s'.
Proof.
  intros H0 Hstep.
  enough (forall l2 l1 s1, l = l1 ++ l2 -> P l1 s1 ->
    exists s', foldM f s1 l2 = Some s' /\ P l s') as Hgen by exact (Hgen l [] s eq_refl H0).
  induction l2 as [|x l2 IH]; intros l1 s1 -> HP.
  - rewrite app_nil_r in *. by exists s1.
  - destruct (Hstep l1 x l2 s1 eq_refl HP) as (s2 & Hf & HP2).
    cbn. rewrite Hf. cbn. apply (IH (l1 ++ [x])); [by rewrite <- app_assoc | done].
Qed.

(** Number of elements of a list that satisfy a boolean predicate. *)
Definition count_if {A} (f : A -> bool) (l : list A) : Z :=
  Z.of_nat (length (List.filter f l)).

Lemma count_if_cons {A} (f : A -> bool) x l :
  count_if f (x :: l) = Z.b2z (f x) + count_if f l.
Proof. unfold count_if. cbn. destruct (f x); cbn [length Z.b2z]; lia. Qed.

Lemma count_if_bounds {A} (f : A -> bool) l :
  0 <= count_if f l <= Z.of_nat (length l).
Proof. unfold count_if. pose proof (List.filter_length_le f l). lia. Qed.

Lemma count_if_insert {A} (f : A -> bool) (l : list A) i x y :
  l !! i = Some y ->
  count_if f (<[i := x]> l) = count_if f l - Z.b2z (f y) + Z.b2z (f x).
Proof.
  revert i. induction l as [|z l IH]; intros [|i] H; simplify_eq/=.
  - rewrite !count_if_cons. lia.
  - rewrite !count_if_cons, IH by done. lia.
Qed.

Lemma count_if_ext {A} (f g : A -> bool) l :
  (forall x, f x = g x) -> count_if f l = count_if g l.
Proof.
  intros H. induction l as [|x l IH]; [done|]. rewrite !count_if_cons, H, IH. done.
Qed.

Lemma count_if_replicate_false {A} (f : A -> bool) n x :
  f x = false -> count_if f (replicate n x) = 0.
Proof.
  intros H. induction n as [|n IH]; [done|].
  cbn [replicate]. rewrite count_if_cons, H, IH. done.
Qed.

(** A predicate that holds nowhere, or everywhere, in counted form. *)
Lemma count_if_lt_exists {A} (f : A -> bool) (l : list A) :
  count_if f l < Z.of_nat (length l) -> exists i x, l !! i = Some x /\ f x = false.
Proof.
  induction l as [|x l IH]; [unfold count_if; cbn; lia|]. rewrite count_if_cons. cbn [length].
  destruct (f x) eqn:E; cbn [Z.b2z]; intros H.
  - destruct IH as (i & y & Hi & Hy); [unfold count_if in *; lia|]. by exists (S i), y.
  - by exists 0%nat, x.
Qed.

Lemma count_if_add_disjoint {A} (f g : A -> bool) (l : list A) :
  (forall x, f x = true -> g x = false) ->
  count_if f l + count_if g l = count_if (fun x => f x || g x) l.
Proof.
  intros H. induction l as [|x l IH]; [done|]. rewrite !count_if_cons, <- IH.
  pose proof (H x) as Hx. destruct (f x), (g x); cbn [orb Z.b2z]; naive_solver lia.
Qed.
