(* ===== verification/HashTable.v ===== *)
(** * The open-addressing hash table of [src/util/hash_table.c]

    A table is a fixed array of entries probed by double hashing; deleted
    entries keep a tombstone key.  Keys and data are [void *] values, here the
    integers [Z] they are as [uintptr_t]; [NULL] is 0.  A pointer to an entry of
    the table is the entry's index.  [None] is undefined behaviour of the
    source (an access outside the table, a failed [assert], a null pointer
    dereference) or a loop that used up its fuel. *)
From S2P Require Import Prelude.

(** ** Data *)

Record hash_entry := HashEntry { he_hash : Z; he_key : Z; he_data : Z }.

Record hash_table := HashTable {
  ht_table : list hash_entry;
  ht_key_hash_function : option (Z -> Z);
  ht_key_equals_function : Z -> Z -> bool;
  ht_deleted_key : Z;
  ht_size : Z;
  ht_rehash : Z;
  ht_max_entries : Z;
  ht_size_index : Z;
  ht_entries : Z;
  ht_deleted_entries : Z }.

(** [hash_sizes]: [max_entries], [size], [rehash]. *)
Definition hash_sizes : list (Z * Z * Z) :=
  [ (2, 5, 3); (4, 7, 5); (8, 13, 11); (16, 19, 17); (32, 43, 41); (64, 73, 71);
    (128, 151, 149); (256, 283, 281); (512, 571, 569); (1024, 1153, 1151);
    (2048, 2269, 2267); (4096, 4519, 4517); (8192, 9013, 9011);
    (16384, 18043, 18041); (32768, 36109, 36107); (65536, 72091, 72089);
    (131072, 144409, 144407); (262144, 288361, 288359); (524288, 576883, 576881);
    (1048576, 1153459, 1153457); (2097152, 2307163, 2307161);
    (4194304, 4613893, 4613891); (8388608, 9227641, 9227639);
    (16777216, 18455029, 18455027); (33554432, 36911011, 36911009);
    (67108864, 73819861, 73819859); (134217728, 147639589, 147639587);
    (268435456, 295279081, 295279079); (536870912, 590559793, 590559791);
    (1073741824, 1181116273, 1181116271); (2147483648, 2362232233, 2362232231) ].

Definition entry_is_free (entry : hash_entry) : bool := he_key entry =? 0.

Definition entry_is_deleted (ht : hash_table) (entry : hash_entry) : bool :=
  he_key entry =? ht_deleted_key ht.

Definition entry_is_present (ht : hash_table) (entry : hash_entry) : bool :=
  negb (he_key entry =? 0) && negb (he_key entry =? ht_deleted_key ht).

(** The zeroed entry [rzalloc_array] fills a new table with. *)
Definition zero_entry : hash_entry := HashEntry 0 0 0.

(** Whether [ralloc]/[rzalloc_array] succeeds is an argument: [alloc n] tells
    whether an array of [n] entries can be allocated.  [deleted_key_value] is
    the address of the library's static variable. *)
Definition _mesa_hash_table_create (alloc : Z -> bool) (deleted_key_value : Z)
    (key_hash_function : option (Z -> Z)) (key_equals_function : Z -> Z -> bool)
    : option (option hash_table) :=
  '(max_entries, size, rehash) ← array_get hash_sizes 0;
  Some (if alloc size then
    Some {| ht_table := replicate (Z.to_nat size) zero_entry;
            ht_key_hash_function := key_hash_function;
            ht_key_equals_function := key_equals_function;
            ht_deleted_key := deleted_key_value;
            ht_size := size; ht_rehash := rehash; ht_max_entries := max_entries;
            ht_size_index := 0; ht_entries := 0; ht_deleted_entries := 0 |}
  else None).

Definition set_table (ht : hash_table) (t : list hash_entry) : hash_table :=
  {| ht_table := t;
     ht_key_hash_function := ht_key_hash_function ht;
     ht_key_equals_function := ht_key_equals_function ht;
     ht_deleted_key := ht_deleted_key ht;
     ht_size := ht_size ht; ht_rehash := ht_rehash ht;
     ht_max_entries := ht_max_entries ht; ht_size_index := ht_size_index ht;
     ht_entries := ht_entries ht; ht_deleted_entries := ht_deleted_entries ht |}.

Definition set_counts (ht : hash_table) (entries deleted : Z) : hash_table :=
  {| ht_table := ht_table ht;
     ht_key_hash_function := ht_key_hash_function ht;
     ht_key_equals_function := ht_key_equals_function ht;
     ht_deleted_key := ht_deleted_key ht;
     ht_size := ht_size ht; ht_rehash := ht_rehash ht;
     ht_max_entries := ht_max_entries ht; ht_size_index := ht_size_index ht;
     ht_entries := entries; ht_deleted_entries := deleted |}.

(** ** Iteration *)

(** The scanning loop of [_mesa_hash_table_next_entry]. *)
Fixpoint next_entry_loop (fuel : nat) (ht : hash_table) (entry : Z) : option (option Z) :=
  match fuel with
  | O => None
  | S fuel' =>
    if entry =? ht_size ht then Some None else
    e ← array_get (ht_table ht) entry;
    if entry_is_present ht e then Some (Some entry)
    else next_entry_loop fuel' ht (entry + 1)
  end.

Definition _mesa_hash_table_next_entry (ht : hash_table) (entry : option Z)
    : option (option Z) :=
  let entry := match entry with None => 0 | Some i => i + 1 end in
  next_entry_loop (S (Z.to_nat (ht_size ht))) ht entry.

(** [hash_table_foreach]: the entries its body is run on, in order. *)
Fixpoint foreach_loop (fuel : nat) (ht : hash_table) (entry : option Z)
    : option (list Z) :=
  match fuel with
  | O => None
  | S fuel' =>
    next ← _mesa_hash_table_next_entry ht entry;
    match next with
    | None => Some []
    | Some i => rest ← foreach_loop fuel' ht (Some i); Some (i :: rest)
    end
  end.

Definition hash_table_foreach (ht : hash_table) : option (list Z) :=
  foreach_loop (S (Z.to_nat (ht_size ht))) ht None.

(** ** Destruction and clearing.  The result lists the entries the delete
    callback is run on. *)

Definition _mesa_hash_table_destroy (ht : option hash_table) (delete_function : bool)
    : option (list hash_entry) :=
  match ht with
  | None => Some []
  | Some ht =>
    if delete_function then
      idxs ← hash_table_foreach ht; mapM (array_get (ht_table ht)) idxs
    else Some []
  end.

(** The loop of [_mesa_hash_table_clear] over the whole array. *)
Fixpoint clear_loop (ht : hash_table) (delete_function : bool) (t : list hash_entry)
    : list hash_entry * list hash_entry :=
  match t with
  | [] => ([], [])
  | entry :: t' =>
    let '(t'', calls) := clear_loop ht delete_function t' in
    if he_key entry =? 0 then (entry :: t'', calls)
    else (HashEntry (he_hash entry) 0 (he_data entry) :: t'',
          if delete_function && negb (he_key entry =? ht_deleted_key ht)
          then entry :: calls else calls)
  end.

Definition _mesa_hash_table_clear (ht : hash_table) (delete_function : bool)
    : hash_table * list hash_entry :=
  let '(t, calls) := clear_loop ht delete_function (ht_table ht) in
  (set_counts (set_table ht t) 0 0, calls).

Definition _mesa_hash_table_set_deleted_key (ht : hash_table) (deleted_key : Z)
    : hash_table :=
  {| ht_table := ht_table ht;
     ht_key_hash_function := ht_key_hash_function ht;
     ht_key_equals_function := ht_key_equals_function ht;
     ht_deleted_key := deleted_key;
     ht_size := ht_size ht; ht_rehash := ht_rehash ht;
     ht_max_entries := ht_max_entries ht; ht_size_index := ht_size_index ht;
     ht_entries := ht_entries ht; ht_deleted_entries := ht_deleted_entries ht |}.

(** ** Search *)

(** One step of the probe sequence, with the [uint32_t] additions of the
    source. *)
Definition next_address (size rehash hash hash_address : Z) : Z :=
  let double_hash := u32 (1 + hash mod rehash) in
  u32 (hash_address + double_hash) mod size.

Fixpoint hash_table_search_loop (fuel : nat) (ht : hash_table)
    (hash key start_hash_address hash_address : Z) : option (option Z) :=
  match fuel with
  | O => None
  | S fuel' =>
    entry ← array_get (ht_table ht) hash_address;
    if entry_is_free entry then Some None
    else if entry_is_present ht entry && (he_hash entry =? hash)
            && ht_key_equals_function ht key (he_key entry)
    then Some (Some hash_address)
    else
      let hash_address := next_address (ht_size ht) (ht_rehash ht) hash hash_address in
      if hash_address =? start_hash_address then Some None
      else hash_table_search_loop fuel' ht hash key start_hash_address hash_address
  end.

Definition hash_table_search (ht : hash_table) (hash key : Z) : option (option Z) :=
  let start_hash_address := hash mod ht_size ht in
  hash_table_search_loop (Z.to_nat (ht_size ht)) ht hash key
    start_hash_address start_hash_address.

Definition _mesa_hash_table_search (ht : hash_table) (key : Z) : option (option Z) :=
  f ← ht_key_hash_function ht; hash_table_search ht (f key) key.

Definition _mesa_hash_table_search_pre_hashed (ht : hash_table) (hash key : Z)
    : option (option Z) :=
  match ht_key_hash_function ht with
  | Some f => if hash =? f key then hash_table_search ht hash key else None
  | None => hash_table_search ht hash key
  end.

(** ** Insertion *)

(** The probing loop of [hash_table_insert]: [inl a] is a present entry with the
    same key, [inr avail] the first available entry seen before the loop ended. *)
Fixpoint hash_table_insert_loop (fuel : nat) (ht : hash_table)
    (hash key start_hash_address hash_address : Z) (available_entry : option Z)
    : option (Z + option Z) :=
  match fuel with
  | O => None
  | S fuel' =>
    entry ← array_get (ht_table ht) hash_address;
    let available_entry :=
      if negb (entry_is_present ht entry) then
        match available_entry with None => Some hash_address | a => a end
      else available_entry in
    if negb (entry_is_present ht entry) && entry_is_free entry
    then Some (inr available_entry)
    else if negb (entry_is_deleted ht entry) && (he_hash entry =? hash)
            && ht_key_equals_function ht key (he_key entry)
    then Some (inl hash_address)
    else
      let hash_address := next_address (ht_size ht) (ht_rehash ht) hash hash_address in
      if hash_address =? start_hash_address then Some (inr available_entry)
      else hash_table_insert_loop fuel' ht hash key start_hash_address hash_address
             available_entry
  end.

(** [_mesa_hash_table_rehash] and [hash_table_insert] call each other; the
    former takes the latter as an argument. *)
Definition _mesa_hash_table_rehash
    (insert : hash_table -> Z -> Z -> Z -> option (hash_table * option Z))
    (alloc : Z -> bool) (ht : hash_table) (new_size_index : Z) : option hash_table :=
  if Z.of_nat (length hash_sizes) <=? new_size_index then Some ht else
  '(max_entries, size, rehash) ← array_get hash_sizes new_size_index;
  if negb (alloc size) then Some ht else
  let old_ht := ht in
  let ht :=
    {| ht_table := replicate (Z.to_nat size) zero_entry;
       ht_key_hash_function := ht_key_hash_function ht;
       ht_key_equals_function := ht_key_equals_function ht;
       ht_deleted_key := ht_deleted_key ht;
       ht_size := size; ht_rehash := rehash; ht_max_entries := max_entries;
       ht_size_index := new_size_index; ht_entries := 0; ht_deleted_entries := 0 |} in
  idxs ← hash_table_foreach old_ht;
  foldM (fun ht i =>
    entry ← array_get (ht_table old_ht) i;
    '(ht, _) ← insert ht (he_hash entry) (he_key entry) (he_data entry);
    Some ht) ht idxs.

(** What [hash_table_insert] does once the table has room. *)
Definition hash_table_insert_here (ht : hash_table) (hash key data : Z)
    : option (hash_table * option Z) :=
  let start_hash_address := hash mod ht_size ht in
  r ← hash_table_insert_loop (Z.to_nat (ht_size ht)) ht hash key
        start_hash_address start_hash_address None;
  match r with
  | inl a =>
    entry ← array_get (ht_table ht) a;
    t ← array_set (ht_table ht) a (HashEntry (he_hash entry) key data);
    Some (set_table ht t, Some a)
  | inr (Some a) =>
    entry ← array_get (ht_table ht) a;
    let deleted_entries :=
      if entry_is_deleted ht entry then u32 (ht_deleted_entries ht - 1)
      else ht_deleted_entries ht in
    t ← array_set (ht_table ht) a (HashEntry hash key data);
    Some (set_counts (set_table ht t) (u32 (ht_entries ht + 1)) deleted_entries, Some a)
  | inr None => Some (ht, None)
  end.

(** [hash_table_insert]; [depth] bounds the nesting of rehashes. *)
Fixpoint hash_table_insert_depth (depth : nat) (alloc : Z -> bool)
    (ht : hash_table) (hash key data : Z) : option (hash_table * option Z) :=
  match depth with
  | O => None
  | S depth' =>
    if key =? 0 then None (* assert(key != NULL) *) else
    ht ← (if ht_max_entries ht <=? ht_entries ht then
            _mesa_hash_table_rehash (hash_table_insert_depth depth' alloc) alloc ht
              (u32 (ht_size_index ht + 1))
          else if ht_max_entries ht <=? u32 (ht_deleted_entries ht + ht_entries ht) then
            _mesa_hash_table_rehash (hash_table_insert_depth depth' alloc) alloc ht
              (ht_size_index ht)
          else Some ht);
    hash_table_insert_here ht hash key data
  end.

(** Each nested rehash moves to a larger table, so the length of [hash_sizes]
    plus one level bounds the nesting. *)
Definition insert_depth : nat := 33.

Definition hash_table_insert (alloc : Z -> bool) (ht : hash_table) (hash key data : Z)
    : option (hash_table * option Z) :=
  hash_table_insert_depth insert_depth alloc ht hash key data.

Definition _mesa_hash_table_insert (alloc : Z -> bool) (ht : hash_table) (key data : Z)
    : option (hash_table * option Z) :=
  f ← ht_key_hash_function ht; hash_table_insert alloc ht (f key) key data.

Definition _mesa_hash_table_insert_pre_hashed (alloc : Z -> bool) (ht : hash_table)
    (hash key data : Z) : option (hash_table * option Z) :=
  match ht_key_hash_function ht with
  | Some f => if hash =? f key then hash_table_insert alloc ht hash key data else None
  | None => hash_table_insert alloc ht hash key data
  end.

(** ** Removal *)

Definition _mesa_hash_table_remove (ht : hash_table) (entry : option Z)
    : option hash_table :=
  match entry with
  | None => Some ht
  | Some i =>
    e ← array_get (ht_table ht) i;
    t ← array_set (ht_table ht) i (HashEntry (he_hash e) (ht_deleted_key ht) (he_data e));
    Some (set_counts (set_table ht t) (u32 (ht_entries ht - 1))
            (u32 (ht_deleted_entries ht + 1)))
  end.

(** ** Random entry: the value of [rand()] and the optional predicate are
    arguments. *)

(** [for (entry = from; entry != to; entry++)] looking for a present entry the
    predicate accepts. *)
Fixpoint random_entry_loop (fuel : nat) (ht : hash_table)
    (predicate : option (hash_entry -> bool)) (entry stop : Z) : option (option Z) :=
  match fuel with
  | O => None
  | S fuel' =>
    if entry =? stop then Some None else
    e ← array_get (ht_table ht) entry;
    if entry_is_present ht e && (match predicate with None => true | Some p => p e end)
    then Some (Some entry)
    else random_entry_loop fuel' ht predicate (entry + 1) stop
  end.

Definition _mesa_hash_table_random_entry (rand : Z) (ht : hash_table)
    (predicate : option (hash_entry -> bool)) : option (option Z) :=
  let i := rand mod ht_size ht in
  if ht_entries ht =? 0 then Some None else
  r ← random_entry_loop (S (Z.to_nat (ht_size ht))) ht predicate i (ht_size ht);
  match r with
  | Some e => Some (Some e)
  | None => random_entry_loop (S (Z.to_nat (ht_size ht))) ht predicate 0 i
  end.

(** ** FNV-1a hashing *)

Definition _mesa_fnv32_1a_offset_bias : Z := 2166136261.

Definition _mesa_fnv32_1a_accumulate_block (hash : Z) (bytes : list Z) : Z :=
  fold_left (fun hash byte => u32 (Z.lxor hash byte * 0x01000193)) bytes hash.

Definition _mesa_hash_data (data : list Z) : Z :=
  _mesa_fnv32_1a_accumulate_block _mesa_fnv32_1a_offset_bias data.

(** [key] is the memory the [char] pointer points to, as bytes. *)
Fixpoint hash_string_loop (hash : Z) (key : list Z) : option Z :=
  match key with
  | [] => None
  | c :: key' =>
    if c =? 0 then Some hash
    else hash_string_loop (_mesa_fnv32_1a_accumulate_block hash [c]) key'
  end.

Definition _mesa_hash_string (key : list Z) : option Z :=
  hash_string_loop _mesa_fnv32_1a_offset_bias key.

(** [_mesa_hash_pointer] (hash_table.h). *)
Definition _mesa_hash_pointer (num : Z) : Z :=
  u32 (Z.lxor (Z.lxor (Z.lxor (Z.shiftr num 2) (Z.shiftr num 6)) (Z.shiftr num 10))
         (Z.shiftr num 14)).

Definition _mesa_key_pointer_equal (a b : Z) : bool := a =? b.

(** ** The 64-bit-key wrapper, on a platform with 8-byte pointers (the
    [sizeof(void * ) == 8] branches). *)

Record hash_table_u64 := HashTableU64 {
  hu_table : option hash_table;
  hu_deleted_key_data : Z }.

Definition DELETED_KEY_VALUE : Z := 1.

(** [calloc] tells whether the wrapper itself could be allocated. *)
Definition _mesa_hash_table_u64_create (calloc : bool) (alloc : Z -> bool)
    (deleted_key_value : Z) : option (option hash_table_u64) :=
  if negb calloc then Some None else
  table ← _mesa_hash_table_create alloc deleted_key_value
            (Some _mesa_hash_pointer) _mesa_key_pointer_equal;
  Some (Some {| hu_table :=
                  (fun t => _mesa_hash_table_set_deleted_key t DELETED_KEY_VALUE) <$> table;
                hu_deleted_key_data := 0 |}).

(** The entries the delete callback is run on. *)
Definition _mesa_hash_table_u64_destroy (ht : option hash_table_u64)
    (delete_function : bool) : option (list hash_entry) :=
  match ht with
  | None => Some []
  | Some ht =>
    fake ← (if negb (hu_deleted_key_data ht =? 0) && delete_function then
              table ← hu_table ht;
              f ← ht_key_hash_function table;
              Some [HashEntry (f (ht_deleted_key table)) (ht_deleted_key table)
                      (hu_deleted_key_data ht)]
            else Some []);
    rest ← _mesa_hash_table_destroy (hu_table ht) delete_function;
    Some (fake ++ rest)
  end.

Definition _mesa_hash_table_u64_insert (alloc : Z -> bool) (ht : hash_table_u64)
    (key data : Z) : option hash_table_u64 :=
  if key =? DELETED_KEY_VALUE then
    Some {| hu_table := hu_table ht; hu_deleted_key_data := data |}
  else
    table ← hu_table ht;
    '(table, _) ← _mesa_hash_table_insert alloc table key data;
    Some {| hu_table := Some table; hu_deleted_key_data := hu_deleted_key_data ht |}.

Definition hash_table_u64_search (ht : hash_table_u64) (key : Z) : option (option Z) :=
  table ← hu_table ht; _mesa_hash_table_search table key.

Definition _mesa_hash_table_u64_search (ht : hash_table_u64) (key : Z) : option Z :=
  if key =? DELETED_KEY_VALUE then Some (hu_deleted_key_data ht) else
  entry ← hash_table_u64_search ht key;
  match entry with
  | None => Some 0
  | Some i =>
    table ← hu_table ht; e ← array_get (ht_table table) i; Some (he_data e)
  end.

Definition _mesa_hash_table_u64_remove (ht : hash_table_u64) (key : Z)
    : option hash_table_u64 :=
  if key =? DELETED_KEY_VALUE then
    Some {| hu_table := hu_table ht; hu_deleted_key_data := 0 |}
  else
    entry ← hash_table_u64_search ht key;
    match entry with
    | None => Some ht
    | Some i =>
      table ← hu_table ht;
      table ← _mesa_hash_table_remove table (Some i);
      Some {| hu_table := Some table; hu_deleted_key_data := hu_deleted_key_data ht |}
    end.
