(* ===== verification/HashTableCorrect.v ===== *)
(** * Correctness of the hash table of [src/util/hash_table.c]

    The probe sequence of double hashing visits every slot exactly once because
    the table sizes are primes; the chain invariant then makes a search find a
    key iff some entry holds it, and every operation refines a finite map. *)
From Stdlib Require Import Znumtheory.
From S2P Require Import Prelude HashTable.

#[local] Arguments hash_table_foreach : simpl never.
#[local] Arguments hash_sizes : simpl never.
#[local] Arguments array_get : simpl never.

(** ** Primality of the table sizes *)

Fixpoint no_odd_divisor (n : nat) (p d : Z) : bool :=
  match n with
  | O => true
  | S n' => if p mod d =? 0 then false else no_odd_divisor n' p (d + 2)
  end.

Definition prime_check (p : Z) : bool :=
  Z.odd p && (1 <? p) && no_odd_divisor (Z.to_nat (Z.sqrt p / 2)) p 3.

Lemma no_odd_divisor_spec n p d :
  no_odd_divisor n p d = true ->
  forall j, 0 <= j < Z.of_nat n -> p mod (d + 2 * j) <> 0.
Proof.
  revert d. induction n as [|n IH]; intros d H j Hj; [lia|]. cbn in H.
  destruct (Z.eqb_spec (p mod d) 0) as [|Hd]; [done|].
  destruct (Z.eq_dec j 0) as [->|Hj0]; [by rewrite Z.add_0_r|].
  replace (d + 2 * j) with (d + 2 + 2 * (j - 1)) by lia. apply IH; [done|lia].
Qed.

Lemma prime_check_small_divisor p d :
  prime_check p = true -> 1 < d -> d * d <= p -> ~ (d | p).
Proof.
  unfold prime_check. intros [[Hodd Hp]%andb_prop Hno]%andb_prop H1 Hsq Hdiv.
  apply Z.ltb_lt in Hp. assert (0 <= Z.sqrt p) by apply Z.sqrt_nonneg.
  assert (d <= Z.sqrt p) by (apply Z.sqrt_le_square; lia).
  destruct (Zodd_dec d) as [Hd|Hd].
  - apply Zodd_ex in Hd as [m Hm].
    apply (no_odd_divisor_spec _ _ _ Hno (m - 1)).
    + rewrite Z2Nat.id by (apply Z.div_pos; lia).
      assert (m <= Z.sqrt p / 2) by (apply Z.div_le_lower_bound; lia). lia.
    + replace (3 + 2 * (m - 1)) with d by lia. apply Z.mod_divide; [lia|done].
  - apply Zodd_bool_iff in Hodd. apply (Zodd_not_Zeven _ Hodd).
    destruct Hdiv as [c ->]. destruct (Zeven_odd_dec d) as [He|Ho]; [|by destruct (Hd Ho)].
    by apply Zeven_mult_Zeven_r.
Qed.

Lemma prime_check_prime p : prime_check p = true -> prime p.
Proof.
  intros H. assert (1 < p) as Hp.
  { unfold prime_check in H. apply andb_prop in H as [[_ H]%andb_prop _]. lia. }
  apply prime_alt. split; [done|]. intros n Hn Hdiv.
  destruct (Z.le_gt_cases (n * n) p) as [Hle|Hgt].
  - apply (prime_check_small_divisor p n); (done || lia).
  - destruct Hdiv as [c Hc]. assert (1 < c) by nia.
    apply (prime_check_small_divisor p c); [done|lia|nia|].
    exists n. lia.
Qed.

(** What the first thirty rows of [hash_sizes] guarantee: the size is prime,
    the rehash value is two less, and no probe addition wraps. *)
Record row_ok (row : Z * Z * Z) : Prop := {
  row_prime : prime row.1.2;
  row_rehash : row.2 = row.1.2 - 2;
  row_size : 5 <= row.1.2 < 2 ^ 31;
  row_max : 2 <= row.1.1 < row.1.2 }.

Definition row_check (row : Z * Z * Z) : bool :=
  let '(max_entries, size, rehash) := row in
  prime_check size && (rehash =? size - 2) && (5 <=? size) && (size <? 2 ^ 31)
  && (2 <=? max_entries) && (max_entries <? size).

Lemma hash_sizes_checked : forallb row_check (take 30 hash_sizes) = true.
Proof. vm_compute. reflexivity. Qed.

Lemma row_check_ok row : row_check row = true -> row_ok row.
Proof.
  destruct row as [[m s] r]. cbn.
  intros [[[[[?%prime_check_prime ?]%andb_prop ?]%andb_prop ?]%andb_prop ?]%andb_prop ?]%andb_prop.
  split; cbn; (done || lia).
Qed.

Lemma hash_sizes_ok i row :
  0 <= i < 30 -> array_get hash_sizes i = Some row -> row_ok row.
Proof.
  intros Hi [_ Hrow]%array_get_Some. apply row_check_ok.
  pose proof hash_sizes_checked as H. rewrite forallb_forall in H. apply H.
  apply list_elem_of_In, list_elem_of_lookup. exists (Z.to_nat i).
  rewrite lookup_take_lt by lia. done.
Qed.

(** ** The probe sequence *)

(** The [k]-th slot probed for a hash value. *)
Definition probe (size rehash hash k : Z) : Z :=
  (hash + k * (1 + hash mod rehash)) mod size.

Section Probe.
Context (max_entries size rehash : Z) (Hrow : row_ok (max_entries, size, rehash)).
Context (hash : Z).

Lemma row_facts : prime size /\ rehash = size - 2 /\ 5 <= size < 2 ^ 31.
Proof. destruct Hrow; cbn in *. done. Qed.

Lemma step_range : 1 <= 1 + hash mod rehash < size.
Proof.
  destruct row_facts as (_ & Hr & Hs).
  pose proof (Z.mod_pos_bound hash rehash). lia.
Qed.

Lemma probe_0 : probe size rehash hash 0 = hash mod size.
Proof. unfold probe. f_equal. lia. Qed.

Lemma probe_range k : 0 <= probe size rehash hash k < size.
Proof. apply Z.mod_pos_bound. pose proof row_facts. lia. Qed.

Lemma next_address_probe k :
  next_address size rehash hash (probe size rehash hash k) = probe size rehash hash (k + 1).
Proof.
  pose proof step_range as Hst. pose proof (probe_range k) as Hp.
  destruct row_facts as (_ & _ & Hs).
  unfold next_address. rewrite (u32_small (1 + _)) by lia.
  rewrite u32_small by lia. unfold probe.
  rewrite Zplus_mod_idemp_l. f_equal. lia.
Qed.

Lemma step_multiple_zero k :
  0 <= k < size -> (k * (1 + hash mod rehash)) mod size = 0 -> k = 0.
Proof.
  intros Hk Hz. destruct row_facts as (Hp & _ & Hs).
  apply Z.mod_divide in Hz; [|lia]. apply prime_mult in Hz; [|done].
  destruct Hz as [Hz|Hz]; pose proof step_range.
  - destruct (Z.eq_dec k 0) as [|Hne]; [done|].
    apply Z.divide_pos_le in Hz; lia.
  - apply Z.divide_pos_le in Hz; lia.
Qed.

Lemma probe_inj j k :
  0 <= j < size -> 0 <= k < size ->
  probe size rehash hash j = probe size rehash hash k -> j = k.
Proof.
  enough (forall a b, 0 <= a <= b -> b < size ->
    probe size rehash hash a = probe size rehash hash b -> a = b) as Hw.
  { intros Hj Hk Heq. destruct (Z.le_ge_cases j k).
    - apply Hw; (done || lia).
    - symmetry. apply Hw; (done || lia). }
  intros a b Ha Hb Heq. enough (b - a = 0) by lia.
  apply step_multiple_zero; [lia|]. unfold probe in Heq.
  replace ((b - a) * (1 + hash mod rehash)) with
    ((hash + b * (1 + hash mod rehash)) - (hash + a * (1 + hash mod rehash))) by lia.
  rewrite Zminus_mod, Heq, Z.sub_diag. apply Z.mod_0_l. pose proof row_facts; lia.
Qed.

(** The sequence first comes back to its start after [size] probes. *)
Lemma probe_return k :
  0 <= k < size ->
  probe size rehash hash (k + 1) = probe size rehash hash 0 <-> k + 1 = size.
Proof.
  intros Hk. pose proof row_facts as (_ & _ & Hs). split.
  - intros Heq. destruct (Z.eq_dec (k + 1) size) as [|Hne]; [done|].
    apply probe_inj in Heq; lia.
  - intros ->. unfold probe. rewrite Z.mul_0_l, Z.add_0_r.
    rewrite Z.mul_comm. apply Z_mod_plus_full.
Qed.

(** Double hashing reaches every slot within [size] probes. *)
Lemma probe_surj a :
  0 <= a < size -> exists k, 0 <= k < size /\ probe size rehash hash k = a.
Proof.
  intros Ha. destruct row_facts as (Hp & _ & Hs). pose proof step_range as Hst.
  assert (rel_prime (1 + hash mod rehash) size) as Hrel
    by (apply rel_prime_le_prime; [done|lia]).
  apply rel_prime_bezout in Hrel as [u v Huv].
  exists ((u * (a - hash)) mod size). split; [apply Z.mod_pos_bound; lia|].
  unfold probe. rewrite <- Zplus_mod_idemp_r, Zmult_mod_idemp_l, Zplus_mod_idemp_r.
  replace (hash + u * (a - hash) * (1 + hash mod rehash))
    with (a + (- v * (a - hash)) * size).
  - rewrite Z_mod_plus_full. apply Z.mod_small. lia.
  - replace (u * (a - hash) * (1 + hash mod rehash))
      with ((u * (1 + hash mod rehash)) * (a - hash)) by ring.
    replace (u * (1 + hash mod rehash)) with (1 - v * size) by lia. ring.
Qed.
End Probe.

(** ** Invariant *)

(** What the client's hash and equality callbacks must satisfy. *)
Class KeyOps (hf : Z -> Z) (keq : Z -> Z -> bool) : Prop := {
  hf_range : forall k, 0 <= hf k < 2 ^ 32;
  keq_hf : forall a b, keq a b = true -> hf a = hf b;
  keq_refl : forall a, keq a a = true;
  keq_sym : forall a b, keq a b = keq b a;
  keq_trans : forall a b c, keq a b = true -> keq b c = true -> keq a c = true }.

Definition entry_at (ht : hash_table) (i : Z) (e : hash_entry) : Prop :=
  array_get (ht_table ht) i = Some e.

Definition present_at (ht : hash_table) (i : Z) (e : hash_entry) : Prop :=
  entry_at ht i e /\ entry_is_present ht e = true.

Definition ht_probe (ht : hash_table) (hash k : Z) : Z :=
  probe (ht_size ht) (ht_rehash ht) hash k.

(** The slots probed for [hash] before the [k]-th are all in use. *)
Definition chain (ht : hash_table) (hash k : Z) : Prop :=
  forall j, 0 <= j < k -> exists e, entry_at ht (ht_probe ht hash j) e
                                    /\ entry_is_free e = false.

(** The shape of a table: its sizes are a row of [hash_sizes] (not the last,
    see [next_address_wrap_never_returns]), its counters count. *)
Record ht_shape (ht : hash_table) : Prop := {
  sh_index : 0 <= ht_size_index ht < 30;
  sh_row : array_get hash_sizes (ht_size_index ht)
           = Some (ht_max_entries ht, ht_size ht, ht_rehash ht);
  sh_length : Z.of_nat (length (ht_table ht)) = ht_size ht;
  sh_deleted_key : ht_deleted_key ht <> 0;
  sh_entries : ht_entries ht = count_if (entry_is_present ht) (ht_table ht);
  sh_deleted : ht_deleted_entries ht = count_if (entry_is_deleted ht) (ht_table ht) }.

Record ht_wf (hf : Z -> Z) (keq : Z -> Z -> bool) (ht : hash_table) : Prop := {
  wf_shape : ht_shape ht;
  wf_keq : ht_key_equals_function ht = keq;
  wf_chain : forall i e, present_at ht i e ->
    he_hash e = hf (he_key e) /\
    exists k, 0 <= k < ht_size ht /\ i = ht_probe ht (he_hash e) k
              /\ chain ht (he_hash e) k;
  wf_unique : forall i1 e1 i2 e2, present_at ht i1 e1 -> present_at ht i2 e2 ->
    keq (he_key e1) (he_key e2) = true -> i1 = i2 }.

(** The finite map a table stands for: [ht_maps ht k d] when some entry holds a
    key equal to [k] with data [d]. *)
Definition ht_maps (keq : Z -> Z -> bool) (ht : hash_table) (k d : Z) : Prop :=
  exists i e, present_at ht i e /\ keq k (he_key e) = true /\ he_data e = d.

(** ** Generic facts *)

Lemma shape_row ht : ht_shape ht -> row_ok (ht_max_entries ht, ht_size ht, ht_rehash ht).
Proof. intros []. by eapply hash_sizes_ok. Qed.

Lemma entry_is_free_not_present ht e :
  entry_is_free e = true -> entry_is_present ht e = false.
Proof. unfold entry_is_free, entry_is_present. by intros ->. Qed.

Lemma entry_is_present_not_deleted ht e :
  entry_is_present ht e = true -> entry_is_deleted ht e = false.
Proof.
  unfold entry_is_present, entry_is_deleted. by intros [_ ?%negb_true_iff]%andb_prop.
Qed.

Lemma entry_not_free ht e :
  entry_is_free e = false -> entry_is_present ht e = negb (entry_is_deleted ht e).
Proof. unfold entry_is_free, entry_is_present, entry_is_deleted. by intros ->. Qed.

Lemma present_not_free ht e :
  entry_is_present ht e = true -> entry_is_free e = false.
Proof.
  intros H. destruct (entry_is_free e) eqn:E; [|done].
  by rewrite entry_is_free_not_present in H.
Qed.

Lemma entry_at_ex ht i :
  ht_shape ht -> 0 <= i < ht_size ht -> exists e, entry_at ht i e.
Proof. intros [] Hi. apply array_get_is_Some. lia. Qed.

Lemma entry_at_lt ht i e :
  ht_shape ht -> entry_at ht i e -> 0 <= i < ht_size ht.
Proof. intros [] H%array_get_lt. lia. Qed.

Lemma entry_at_fun ht i e1 e2 : entry_at ht i e1 -> entry_at ht i e2 -> e1 = e2.
Proof. unfold entry_at. intros. congruence. Qed.

(** The entry a search for [key] with hash [hash] stops at. *)
Definition entry_matches (ht : hash_table) (hash key : Z) (e : hash_entry) : bool :=
  entry_is_present ht e && (he_hash e =? hash)
  && ht_key_equals_function ht key (he_key e).

(** The [k]-th probe neither ends the search nor finds the key. *)
Definition passes (ht : hash_table) (hash key k : Z) : Prop :=
  exists e, entry_at ht (ht_probe ht hash k) e
            /\ entry_is_free e = false /\ entry_matches ht hash key e = false.

Section Loops.
Context (ht : hash_table) (Hsh : ht_shape ht) (hash key : Z).

Lemma ht_probe_0 : ht_probe ht hash 0 = hash mod ht_size ht.
Proof. apply probe_0. Qed.

Lemma ht_probe_next k :
  next_address (ht_size ht) (ht_rehash ht) hash (ht_probe ht hash k)
  = ht_probe ht hash (k + 1).
Proof. by eapply next_address_probe, shape_row. Qed.

Lemma ht_probe_range k : 0 <= ht_probe ht hash k < ht_size ht.
Proof. eapply probe_range, shape_row, Hsh. Qed.

Lemma ht_probe_inj j k :
  0 <= j < ht_size ht -> 0 <= k < ht_size ht ->
  ht_probe ht hash j = ht_probe ht hash k -> j = k.
Proof. by eapply probe_inj, shape_row. Qed.

Lemma ht_probe_stop k :
  0 <= k < ht_size ht ->
  (ht_probe ht hash (k + 1) =? hash mod ht_size ht) = (k + 1 =? ht_size ht).
Proof.
  intros Hk. rewrite <- ht_probe_0. apply eq_true_iff_eq. rewrite !Z.eqb_eq.
  by eapply probe_return; [apply shape_row|].
Qed.

(** How a search that has reached the [k]-th probe ends. *)
Definition search_ends (k : Z) (r : option Z) : Prop :=
  exists j, k <= j <= ht_size ht /\ (forall i, k <= i < j -> passes ht hash key i) /\
  match r with
  | Some a => j < ht_size ht /\ a = ht_probe ht hash j /\
              exists e, entry_at ht a e /\ entry_matches ht hash key e = true
  | None => j = ht_size ht \/
            exists e, entry_at ht (ht_probe ht hash j) e /\ entry_is_free e = true
  end.

Lemma search_loop_ends n k :
  0 <= k < ht_size ht -> Z.of_nat n = ht_size ht - k ->
  exists r, hash_table_search_loop n ht hash key (hash mod ht_size ht)
              (ht_probe ht hash k) = Some r /\ search_ends k r.
Proof.
  revert k. induction n as [|n IH]; intros k Hk Hn; [lia|].
  destruct (entry_at_ex ht (ht_probe ht hash k) Hsh (ht_probe_range k)) as [e He].
  cbn. unfold entry_at in He. rewrite He. cbn.
  destruct (entry_is_free e) eqn:Hf.
  { exists None. split; [done|]. exists k. repeat split; try lia. eauto. }
  fold (entry_matches ht hash key e). destruct (entry_matches ht hash key e) eqn:Hm.
  { eexists. split; [done|]. exists k. repeat split; try lia. eauto. }
  assert (passes ht hash key k) as Hpass by (exists e; eauto).
  rewrite ht_probe_next, ht_probe_stop by done.
  destruct (Z.eqb_spec (k + 1) (ht_size ht)) as [Hend|Hend].
  - exists None. split; [done|]. exists (ht_size ht). repeat split; try lia.
    intros i Hi. by replace i with k by lia.
  - destruct (IH (k + 1)) as (r & Hr & j & Hj & Hpre & Hres); [lia..|].
    exists r. split; [done|]. exists j. repeat split; [lia..| |done].
    intros i Hi. destruct (Z.eq_dec i k) as [->|]; [done|]. apply Hpre. lia.
Qed.

Lemma hash_table_search_ends :
  exists r, hash_table_search ht hash key = Some r /\ search_ends 0 r.
Proof.
  pose proof (shape_row ht Hsh) as [_ _ Hs _]. cbn in Hs.
  destruct (search_loop_ends (Z.to_nat (ht_size ht)) 0) as (r & Hr & He); [lia..|].
  rewrite ht_probe_0 in Hr. by exists r.
Qed.

(** How an insertion that has reached the [k]-th probe ends; [av0] is the
    available entry stashed so far. *)
Definition insert_ends (k : Z) (av0 : option Z) (r : Z + option Z) : Prop :=
  match r with
  | inl a => search_ends k (Some a)
  | inr av => search_ends k None /\
    match av with
    | Some a => av0 = Some a \/
        exists m e, k <= m < ht_size ht /\ a = ht_probe ht hash m /\ entry_at ht a e
          /\ entry_is_present ht e = false
          /\ (forall i, k <= i < m -> passes ht hash key i)
    | None => av0 = None /\ forall i e, k <= i < ht_size ht ->
                entry_at ht (ht_probe ht hash i) e -> entry_is_present ht e = true
    end
  end.

Lemma search_ends_step k r :
  0 <= k -> passes ht hash key k -> search_ends (k + 1) r -> search_ends k r.
Proof.
  intros Hk Hpass (j & Hj & Hpre & Hres). exists j. repeat split; [lia..| |done].
  intros i Hi. destruct (Z.eq_dec i k) as [->|]; [done|]. apply Hpre. lia.
Qed.

Lemma insert_loop_match e :
  entry_is_free e = false ->
  negb (entry_is_deleted ht e) && (he_hash e =? hash)
    && ht_key_equals_function ht key (he_key e) = entry_matches ht hash key e.
Proof. intros H. unfold entry_matches. by rewrite (entry_not_free ht e H). Qed.

Lemma insert_loop_ends n k av0 :
  0 <= k < ht_size ht -> Z.of_nat n = ht_size ht - k ->
  exists r, hash_table_insert_loop n ht hash key (hash mod ht_size ht)
              (ht_probe ht hash k) av0 = Some r /\ insert_ends k av0 r.
Proof.
  revert k av0. induction n as [|n IH]; intros k av0 Hk Hn; [lia|].
  destruct (entry_at_ex ht (ht_probe ht hash k) Hsh (ht_probe_range k)) as [e He].
  cbn. unfold entry_at in He. rewrite He. cbn.
  set (av := if negb (entry_is_present ht e) then _ else _).
  destruct (entry_is_free e) eqn:Hf.
  { subst av. rewrite entry_is_free_not_present by done. cbn.
    eexists. split; [done|]. split.
    - exists k. repeat split; try lia. eauto.
    - destruct av0; cbn; [by left|]. right. exists k, e. repeat split; try lia; [done|].
      by apply entry_is_free_not_present. }
  rewrite andb_false_r, insert_loop_match by done.
  destruct (entry_matches ht hash key e) eqn:Hm.
  { eexists. split; [done|]. exists k. repeat split; try lia. eauto. }
  assert (passes ht hash key k) as Hpass by (exists e; eauto).
  rewrite ht_probe_next, ht_probe_stop by done.
  assert (entry_is_present ht e = false /\ av0 = None /\ av = Some (ht_probe ht hash k)
          \/ av = av0 /\ (entry_is_present ht e = true \/ is_Some av0)) as Hav.
  { subst av. destruct (entry_is_present ht e) eqn:Hpr, av0; cbn; eauto. }
  clearbody av.
  destruct (Z.eqb_spec (k + 1) (ht_size ht)) as [Hend|Hend].
  - eexists. split; [done|]. split.
    + exists (ht_size ht). repeat split; try lia.
      intros i Hi. by replace i with k by lia.
    + destruct Hav as [(Hpr & -> & ->)|(-> & Hpr)].
      { right. exists k, e. repeat split; (done || lia). }
      destruct av0 as [a|]; [by left|]. split; [done|]. intros i e' Hi He'.
      replace i with k in He' by lia. assert (e' = e) as -> by exact (entry_at_fun _ _ _ _ He' He).
      destruct Hpr as [|[? ?]]; done.
  - destruct (IH (k + 1) av) as (r & Hr & Hres); [lia..|].
    exists r. split; [done|]. destruct r as [a|av']; [apply search_ends_step; (done || lia)|].
    destruct Hres as [Hse Hav']. split; [apply search_ends_step; (done || lia)|].
    destruct av' as [a|].
    + destruct Hav' as [Hava|(m & e' & Hm' & -> & He' & Hp' & Hpre)].
      * destruct Hav as [(Hpr & -> & ->)|(-> & _)]; [|by left]. simplify_eq.
        right. exists k, e. repeat split; (done || lia).
      * right. exists m, e'. repeat split; try (done || lia).
        intros i Hi. destruct (Z.eq_dec i k) as [->|]; [done|]. apply Hpre. lia.
    + destruct Hav' as [-> Hall]. destruct Hav as [(_ & _ & ?)|(<- & Hpr)]; [done|].
      split; [done|]. intros i e' Hi He'. destruct (Z.eq_dec i k) as [->|].
      * assert (e' = e) as -> by exact (entry_at_fun _ _ _ _ He' He).
        destruct Hpr as [|[? ?]]; done.
      * apply (Hall i); [lia|done].
Qed.
End Loops.

(** The parts of a table that an insertion into a slot leaves alone. *)
Record same_frame (ht ht' : hash_table) : Prop := {
  sf_hash_fun : ht_key_hash_function ht' = ht_key_hash_function ht;
  sf_deleted_key : ht_deleted_key ht' = ht_deleted_key ht }.

Section Correct.
Context (hf : Z -> Z) (keq : Z -> Z -> bool) {HK : KeyOps hf keq}.

Lemma present_matches ht k i e :
  ht_wf hf keq ht -> present_at ht i e ->
  entry_matches ht (hf k) k e = keq k (he_key e).
Proof.
  intros Hwf Hp. pose proof (wf_chain _ _ _ Hwf _ _ Hp) as [Hh _].
  unfold entry_matches. rewrite (wf_keq _ _ _ Hwf), (proj2 Hp), Hh. cbn.
  destruct (keq k (he_key e)) eqn:E; [|apply andb_false_r].
  apply keq_hf in E. rewrite E. by rewrite Z.eqb_refl.
Qed.

Lemma search_ends_none ht k :
  ht_wf hf keq ht -> search_ends ht (hf k) k 0 None ->
  forall i e, present_at ht i e -> keq k (he_key e) = false.
Proof.
  intros Hwf (j & Hj & Hpre & Hend) i e Hp. apply not_true_iff_false. intros Hk.
  destruct (wf_chain _ _ _ Hwf _ _ Hp) as (Hh & m & Hm & -> & Hch).
  pose proof (keq_hf _ _ Hk) as Heq. rewrite Hh, <- Heq in *.
  destruct (Z.lt_ge_cases m j) as [Hlt|Hge].
  - destruct (Hpre m) as (e' & He' & _ & Hm'); [lia|].
    rewrite (entry_at_fun _ _ _ _ He' (proj1 Hp)) in Hm'.
    by rewrite (present_matches ht k _ _ Hwf Hp), Hk in Hm'.
  - destruct Hend as [->|(e' & He' & Hfree)]; [lia|].
    destruct (Z.eq_dec m j) as [->|Hne].
    + rewrite (entry_at_fun _ _ _ _ He' (proj1 Hp)) in Hfree.
      by rewrite (present_not_free ht e (proj2 Hp)) in Hfree.
    + destruct (Hch j) as (e'' & He'' & Hnf); [lia|].
      rewrite (entry_at_fun _ _ _ _ He'' He') in Hnf. congruence.
Qed.

Lemma search_ends_some ht k a :
  ht_wf hf keq ht -> search_ends ht (hf k) k 0 (Some a) ->
  exists e, present_at ht a e /\ keq k (he_key e) = true.
Proof.
  intros Hwf (j & _ & _ & _ & -> & e & He & Hm). exists e.
  assert (present_at ht (ht_probe ht (hf k) j) e) as Hp.
  { split; [done|]. unfold entry_matches in Hm. by apply andb_prop in Hm as [[? _]%andb_prop _]. }
  split; [done|]. by rewrite <- (present_matches ht k _ _ Hwf Hp).
Qed.

(** A search finds an entry iff one holds the key. *)
Lemma hash_table_search_spec ht k :
  ht_wf hf keq ht ->
  exists r, hash_table_search ht (hf k) k = Some r /\
  match r with
  | Some i => exists e, present_at ht i e /\ keq k (he_key e) = true
  | None => forall i e, present_at ht i e -> keq k (he_key e) = false
  end.
Proof.
  intros Hwf. destruct (hash_table_search_ends ht (wf_shape _ _ _ Hwf) (hf k) k)
    as (r & Hr & Hends). exists r. split; [done|]. destruct r as [a|].
  - by apply search_ends_some.
  - by apply search_ends_none.
Qed.

(** Storing an entry in slot [a]. *)
Definition put (ht : hash_table) (a : Z) (e e' : hash_entry) : hash_table :=
  set_counts (set_table ht (<[Z.to_nat a := e']> (ht_table ht)))
    (ht_entries ht - Z.b2z (entry_is_present ht e) + Z.b2z (entry_is_present ht e'))
    (ht_deleted_entries ht - Z.b2z (entry_is_deleted ht e)
       + Z.b2z (entry_is_deleted ht e')).

Lemma put_entry_at ht a e e' i x :
  entry_at ht a e ->
  entry_at (put ht a e e') i x <-> (i = a /\ x = e') \/ (i <> a /\ entry_at ht i x).
Proof.
  intros He. unfold entry_at, put; cbn.
  pose proof (array_get_lt _ _ _ He) as Hlt.
  pose proof (array_get_set (ht_table ht) _ a i e' (array_set_Some _ _ _ Hlt)) as ->.
  destruct (Z.eqb_spec a i) as [->|Hne]; naive_solver.
Qed.

Lemma put_present_at ht a e e' i x :
  entry_at ht a e -> entry_is_present ht e' = true ->
  present_at (put ht a e e') i x <-> (i = a /\ x = e') \/ (i <> a /\ present_at ht i x).
Proof.
  intros He Hp. unfold present_at. rewrite (put_entry_at ht a e e') by done.
  change (entry_is_present (put ht a e e')) with (entry_is_present ht).
  naive_solver.
Qed.

Lemma put_shape ht a e e' :
  ht_shape ht -> entry_at ht a e -> ht_shape (put ht a e e').
Proof.
  intros [] [? He]%array_get_Some. split; try done; cbn.
  - by rewrite length_insert.
  - change (entry_is_present (put ht a e e')) with (entry_is_present ht).
    by rewrite (count_if_insert _ _ _ _ e), sh_entries0.
  - change (entry_is_deleted (put ht a e e')) with (entry_is_deleted ht).
    by rewrite (count_if_insert _ _ _ _ e), sh_deleted0.
Qed.

Lemma put_chain ht a e e' hash k :
  entry_at ht a e -> entry_is_free e' = false -> chain ht hash k ->
  chain (put ht a e e') hash k.
Proof.
  intros He Hnf Hch j Hj. destruct (Hch j Hj) as (x & Hx & Hxf).
  change (ht_probe (put ht a e e')) with (ht_probe ht).
  destruct (Z.eq_dec (ht_probe ht hash j) a) as [Heq|Hne].
  - exists e'. split; [|done]. rewrite put_entry_at by done. by left.
  - exists x. split; [|done]. rewrite put_entry_at by done. by right.
Qed.

Lemma key_entry_not_free h key d : key <> 0 -> entry_is_free (HashEntry h key d) = false.
Proof. unfold entry_is_free. cbn. lia. Qed.

Lemma key_entry_present ht h key d :
  key <> 0 -> key <> ht_deleted_key ht -> entry_is_present ht (HashEntry h key d) = true.
Proof. unfold entry_is_present. cbn. lia. Qed.

(** Storing [key] in a slot of its probe sequence keeps the invariant, provided
    no other entry holds the key and the chain to the slot is unbroken. *)
Lemma put_wf ht a e key data :
  ht_wf hf keq ht -> entry_at ht a e -> key <> 0 -> key <> ht_deleted_key ht ->
  (exists m, 0 <= m < ht_size ht /\ a = ht_probe ht (hf key) m /\ chain ht (hf key) m) ->
  (forall i x, present_at ht i x -> i <> a -> keq key (he_key x) = false) ->
  ht_wf hf keq (put ht a e (HashEntry (hf key) key data)).
Proof.
  intros Hwf He Hk0 Hkd (m & Hm & Ha & Hch) Huniq.
  set (e' := HashEntry (hf key) key data).
  assert (entry_is_free e' = false) as Hnf by by apply key_entry_not_free.
  assert (entry_is_present ht e' = true) as Hp' by by apply key_entry_present.
  destruct Hwf as [Hsh Hkeq Hchain Hun]. split; try done.
  - by apply put_shape.
  - intros i x Hx. apply (put_present_at ht a e e') in Hx; [|done..].
    change (ht_probe (put ht a e e')) with (ht_probe ht).
    destruct Hx as [[-> ->]|[Hne Hx]].
    + split; [done|]. exists m. split; [done|]. split; [done|]. by apply put_chain.
    + destruct (Hchain _ _ Hx) as (Hh & k & Hk & Hi & Hc).
      split; [done|]. exists k. split; [done|]. split; [done|]. by apply put_chain.
  - intros i1 e1 i2 e2 H1 H2 Heq.
    apply (put_present_at ht a e e') in H1; [|done..].
    apply (put_present_at ht a e e') in H2; [|done..].
    destruct H1 as [[-> ->]|[Hn1 H1]], H2 as [[-> ->]|[Hn2 H2]].
    + done.
    + cbn in Heq. by rewrite (Huniq _ _ H2 Hn2) in Heq.
    + cbn in Heq. rewrite keq_sym in Heq. by rewrite (Huniq _ _ H1 Hn1) in Heq.
    + by eapply Hun.
Qed.

(** ... and updates the map the table stands for at [key] only. *)
Lemma put_maps ht a e key data k d :
  ht_wf hf keq ht -> entry_at ht a e -> key <> 0 -> key <> ht_deleted_key ht ->
  (entry_is_present ht e = true -> keq key (he_key e) = true) ->
  (forall i x, present_at ht i x -> i <> a -> keq key (he_key x) = false) ->
  ht_maps keq (put ht a e (HashEntry (hf key) key data)) k d <->
  if keq key k then d = data else ht_maps keq ht k d.
Proof.
  intros Hwf He Hk0 Hkd Hold Huniq. set (e' := HashEntry (hf key) key data).
  assert (entry_is_present ht e' = true) as Hp' by by apply key_entry_present.
  unfold ht_maps.
  assert (forall i x, present_at (put ht a e e') i x <->
    (i = a /\ x = e') \/ (i <> a /\ present_at ht i x)) as Hput
    by (intros; by apply put_present_at).
  setoid_rewrite Hput. destruct (keq key k) eqn:Hkk.
  - split.
    + intros (i & x & [[-> ->]|[Hne Hx]] & Hkx & Hd); [done|].
      pose proof (keq_trans _ _ _ Hkk Hkx) as Ht. by rewrite (Huniq _ _ Hx Hne) in Ht.
    + intros ->. exists a, e'. split; [by left|]. cbn. by rewrite keq_sym.
  - split.
    + intros (i & x & [[-> ->]|[Hne Hx]] & Hkx & Hd); [|by exists i, x].
      cbn in Hkx. by rewrite keq_sym, Hkk in Hkx.
    + intros (i & x & Hx & Hkx & Hd). exists i, x. split; [|done].
      right. split; [|done]. intros ->. destruct Hx as [Hat Hpx].
      rewrite (entry_at_fun _ _ _ _ Hat He) in *.
      rewrite keq_sym in Hkx. pose proof (keq_trans _ _ _ (Hold Hpx) Hkx). congruence.
Qed.

Lemma count_le_size ht : ht_shape ht ->
  0 <= ht_entries ht /\ 0 <= ht_deleted_entries ht /\
  ht_entries ht + ht_deleted_entries ht <= ht_size ht.
Proof.
  intros []. rewrite sh_entries0, sh_deleted0, <- sh_length0.
  pose proof (count_if_bounds (entry_is_present ht) (ht_table ht)).
  pose proof (count_if_bounds (entry_is_deleted ht) (ht_table ht)).
  rewrite count_if_add_disjoint.
  - pose proof (count_if_bounds
      (fun x => entry_is_present ht x || entry_is_deleted ht x) (ht_table ht)). lia.
  - apply entry_is_present_not_deleted.
Qed.

Lemma size_lt_2_31 ht : ht_shape ht -> 5 <= ht_size ht < 2 ^ 31.
Proof. intros H. by destruct (shape_row ht H). Qed.

(** Counting entries again: a slot of a present (deleted) entry is counted. *)
Lemma count_present_pos ht i e :
  ht_shape ht -> entry_at ht i e -> entry_is_present ht e = true -> 1 <= ht_entries ht.
Proof.
  intros [] [_ He]%array_get_Some Hp. rewrite sh_entries0.
  pose proof (count_if_insert (entry_is_present ht) (ht_table ht) (Z.to_nat i)
    zero_entry e He) as Hc.
  pose proof (count_if_bounds (entry_is_present ht) (<[Z.to_nat i:=zero_entry]> (ht_table ht))).
  rewrite Hp in Hc. cbn in Hc. lia.
Qed.

Lemma count_deleted_pos ht i e :
  ht_shape ht -> entry_at ht i e -> entry_is_deleted ht e = true ->
  1 <= ht_deleted_entries ht.
Proof.
  intros [] [_ He]%array_get_Some Hp. rewrite sh_deleted0.
  pose proof (count_if_insert (entry_is_deleted ht) (ht_table ht) (Z.to_nat i)
    zero_entry e He) as Hc.
  pose proof (count_if_bounds (entry_is_deleted ht) (<[Z.to_nat i:=zero_entry]> (ht_table ht))).
  assert (entry_is_deleted ht zero_entry = false) as Hz
    by (apply Z.eqb_neq; cbn; lia).
  rewrite Hp, Hz in Hc. cbn in Hc. lia.
Qed.

(** What an insertion that needs no rehash does. *)
Record inserted (ht : hash_table) (key data : Z) (ht' : hash_table) (r : option Z)
    : Prop := {
  ins_wf : ht_wf hf keq ht';
  ins_frame : same_frame ht ht';
  ins_some : forall a, r = Some a ->
    present_at ht' a (HashEntry (hf key) key data) /\
    forall k d, ht_maps keq ht' k d <-> if keq key k then d = data else ht_maps keq ht k d;
  ins_none : r = None ->
    (forall k d, ht_maps keq ht' k d <-> ht_maps keq ht k d) /\
    ht_entries ht' = ht_size ht' }.

Lemma set_table_put ht a e e' :
  entry_is_present ht e = entry_is_present ht e' ->
  entry_is_deleted ht e = entry_is_deleted ht e' ->
  set_table ht (<[Z.to_nat a := e']> (ht_table ht)) = put ht a e e'.
Proof.
  intros Hp Hd. unfold put. rewrite Hp, Hd.
  replace (ht_entries ht - _ + _) with (ht_entries ht) by lia.
  replace (ht_deleted_entries ht - _ + _) with (ht_deleted_entries ht) by lia.
  by destruct ht.
Qed.

(** The effect of [hash_table_insert_here], its counters included. *)
Definition inserted_here (ht : hash_table) (key data : Z) (ht' : hash_table) (r : option Z)
    : Prop :=
  inserted ht key data ht' r /\ ht_size_index ht' = ht_size_index ht /\
  ht_entries ht' <= ht_entries ht + (if r then 1 else 0) /\
  ht_deleted_entries ht' <= ht_deleted_entries ht /\
  ht_entries ht' + ht_deleted_entries ht' <= ht_entries ht + ht_deleted_entries ht + 1.

Lemma put_inserted ht a e key data :
  ht_wf hf keq ht -> entry_at ht a e -> key <> 0 -> key <> ht_deleted_key ht ->
  (exists m, 0 <= m < ht_size ht /\ a = ht_probe ht (hf key) m /\ chain ht (hf key) m) ->
  (entry_is_present ht e = true -> keq key (he_key e) = true) ->
  (forall i x, present_at ht i x -> i <> a -> keq key (he_key x) = false) ->
  inserted_here ht key data (put ht a e (HashEntry (hf key) key data)) (Some a).
Proof.
  intros Hwf He Hk0 Hkd Hch Hold Hun.
  assert (entry_is_present ht (HashEntry (hf key) key data) = true) as Hp'
    by by apply key_entry_present.
  split; [split|].
  - by apply put_wf.
  - done.
  - intros ? [= <-]. split; [by rewrite put_present_at; auto|].
    intros k d. by apply put_maps.
  - done.
  - cbn. rewrite Hp', (entry_is_present_not_deleted _ _ Hp').
    destruct (entry_is_present ht e), (entry_is_deleted ht e); cbn; lia.
Qed.

Lemma insert_here_replace ht key data a :
  ht_wf hf keq ht -> key <> 0 -> key <> ht_deleted_key ht ->
  search_ends ht (hf key) key 0 (Some a) ->
  exists e, entry_at ht a e /\
  let e' := HashEntry (he_hash e) key data in
  inserted_here ht key data (set_table ht (<[Z.to_nat a := e']> (ht_table ht))) (Some a).
Proof.
  intros Hwf Hk0 Hkd Hends.
  destruct (search_ends_some ht key a Hwf Hends) as (e & [He Hp] & Hke).
  exists e. split; [done|]. cbn.
  destruct (wf_chain _ _ _ Hwf a e (conj He Hp)) as (Hh & m & Hm & Ha & Hch).
  rewrite Hh in *. rewrite <- (keq_hf _ _ Hke) in *.
  set (e' := HashEntry (hf key) key data).
  assert (entry_is_present ht e' = true) as Hp' by by apply key_entry_present.
  rewrite (set_table_put ht a e e') by
    (rewrite ?Hp, ?Hp', ?(entry_is_present_not_deleted ht _ Hp),
       ?(entry_is_present_not_deleted ht _ Hp'); done).
  apply put_inserted; eauto.
  intros i x Hx Hne. apply not_true_iff_false. intros Hkx. apply Hne.
  eapply (wf_unique _ _ _ Hwf i x a e); [done|done|]. rewrite keq_sym in Hkx.
  by eapply keq_trans.
Qed.

Lemma insert_here_fresh ht key data a m e :
  ht_wf hf keq ht -> key <> 0 -> key <> ht_deleted_key ht ->
  search_ends ht (hf key) key 0 None ->
  0 <= m < ht_size ht -> a = ht_probe ht (hf key) m -> entry_at ht a e ->
  entry_is_present ht e = false -> (forall i, 0 <= i < m -> passes ht (hf key) key i) ->
  inserted_here ht key data
    (set_counts (set_table ht (<[Z.to_nat a := HashEntry (hf key) key data]> (ht_table ht)))
      (u32 (ht_entries ht + 1))
      (if entry_is_deleted ht e then u32 (ht_deleted_entries ht - 1)
       else ht_deleted_entries ht)) (Some a).
Proof.
  intros Hwf Hk0 Hkd Hnone Hm Ha He Hpe Hpre. pose proof (wf_shape _ _ _ Hwf) as Hsh.
  pose proof (size_lt_2_31 ht Hsh) as Hs. pose proof (count_le_size ht Hsh) as Hc.
  set (e' := HashEntry (hf key) key data).
  assert (entry_is_present ht e' = true) as Hp' by by apply key_entry_present.
  match goal with |- inserted_here _ _ _ ?h _ => replace h with (put ht a e e') end.
  - apply put_inserted; eauto.
    + exists m. split; [done|]. split; [done|].
      intros j Hj. destruct (Hpre j Hj) as (x & Hx & Hxf & _). eauto.
    + congruence.
    + intros i x Hx _. by apply (search_ends_none ht key Hwf Hnone i x).
  - unfold put. rewrite Hpe, Hp', (entry_is_present_not_deleted ht _ Hp').
    rewrite (u32_small (_ + 1)) by lia.
    destruct (entry_is_deleted ht e) eqn:Hde; cbn [Z.b2z].
    + pose proof (count_deleted_pos ht a e Hsh He Hde). rewrite u32_small by lia.
      f_equal; lia.
    + f_equal; lia.
Qed.

Lemma insert_here_full ht key :
  ht_shape ht ->
  (forall i e, 0 <= i < ht_size ht -> entry_at ht (ht_probe ht (hf key) i) e ->
     entry_is_present ht e = true) ->
  ht_entries ht = ht_size ht.
Proof.
  intros Hsh Hall. rewrite (sh_entries _ Hsh), <- (sh_length _ Hsh).
  pose proof (count_if_bounds (entry_is_present ht) (ht_table ht)).
  destruct (Z.eq_dec (count_if (entry_is_present ht) (ht_table ht))
    (Z.of_nat (length (ht_table ht)))) as [|Hne]; [done|]. exfalso.
  destruct (count_if_lt_exists (entry_is_present ht) (ht_table ht))
    as (i & e & Hi & He); [lia|].
  pose proof (lookup_lt_Some _ _ _ Hi). pose proof (sh_length _ Hsh).
  destruct (probe_surj _ _ _ (shape_row ht Hsh) (hf key) (Z.of_nat i))
    as (k & Hk & Hpk); [lia|].
  rewrite (Hall k e Hk) in He; [done|].
  unfold ht_probe. rewrite Hpk. apply array_get_Some. rewrite Nat2Z.id. split; [lia|done].
Qed.

Lemma insert_here_spec ht key data :
  ht_wf hf keq ht -> key <> 0 -> key <> ht_deleted_key ht ->
  exists ht' r, hash_table_insert_here ht (hf key) key data = Some (ht', r) /\
    inserted_here ht key data ht' r.
Proof.
  intros Hwf Hk0 Hkd. pose proof (wf_shape _ _ _ Hwf) as Hsh.
  pose proof (size_lt_2_31 ht Hsh) as Hs.
  destruct (insert_loop_ends ht Hsh (hf key) key (Z.to_nat (ht_size ht)) 0 None)
    as (r & Hr & Hends); [lia..|].
  unfold hash_table_insert_here. rewrite ht_probe_0 in Hr. rewrite Hr. cbn.
  destruct r as [a|[a|]].
  - destruct (insert_here_replace ht key data a) as (e & He & Hins); [done..|].
    pose proof (array_get_lt _ _ _ He). unfold entry_at in He. rewrite He. cbn.
    rewrite array_set_Some by done. cbn. eauto.
  - destruct Hends as [Hnone [?|(m & e & Hm & Ha & He & Hpe & Hpre)]]; [done|].
    pose proof (array_get_lt _ _ _ He). pose proof He as Hge. unfold entry_at in Hge.
    rewrite Hge. cbn. rewrite array_set_Some by done. cbn.
    do 2 eexists. split; [done|]. by eapply insert_here_fresh.
  - destruct Hends as [_ [_ Hall]]. exists ht, None. split; [done|].
    split; [|split; [done|lia]]. split; try done. intros _.
    split; [done|]. by eapply insert_here_full.
Qed.
End Correct.

(** ** Iteration *)

Section Iteration.
Context (ht : hash_table) (Hlen : Z.of_nat (length (ht_table ht)) = ht_size ht).

Definition present_ix (i : Z) : bool :=
  match array_get (ht_table ht) i with
  | Some e => entry_is_present ht e
  | None => false
  end.

(** The present entries at index [i] or above, in order. *)
Definition present_from (i : Z) : list Z :=
  List.filter present_ix (zrange i (Z.to_nat (ht_size ht - i))).

Lemma present_from_end : present_from (ht_size ht) = [].
Proof. unfold present_from. by rewrite Z.sub_diag. Qed.

Lemma present_from_step i :
  0 <= i < ht_size ht ->
  present_from i = if present_ix i then i :: present_from (i + 1) else present_from (i + 1).
Proof.
  intros Hi. unfold present_from.
  replace (Z.to_nat (ht_size ht - i)) with (S (Z.to_nat (ht_size ht - (i + 1)))) by lia.
  rewrite zrange_S. done.
Qed.

Lemma next_entry_loop_spec n i :
  0 <= i <= ht_size ht -> ht_size ht - i < Z.of_nat n ->
  next_entry_loop n ht i = Some (head (present_from i)).
Proof.
  revert i. induction n as [|n IH]; intros i Hi Hn; [lia|]. cbn.
  destruct (Z.eqb_spec i (ht_size ht)) as [->|Hne]; [by rewrite present_from_end|].
  destruct (array_get_is_Some (ht_table ht) i) as [e He]; [lia|].
  rewrite He, present_from_step by lia. unfold present_ix. rewrite He. cbn.
  destruct (entry_is_present ht e); [done|]. apply IH; lia.
Qed.

Lemma next_entry_spec entry :
  let start := match entry with None => 0 | Some i => i + 1 end in
  0 <= start <= ht_size ht ->
  _mesa_hash_table_next_entry ht entry = Some (head (present_from start)).
Proof. intros start Hs. apply next_entry_loop_spec; lia. Qed.

Lemma present_from_head i j :
  0 <= i <= ht_size ht -> head (present_from i) = Some j ->
  i <= j < ht_size ht /\ present_from i = j :: present_from (j + 1).
Proof.
  intros Hi. remember (Z.to_nat (ht_size ht - i)) as n eqn:Hn.
  revert i Hi Hn. induction n as [|n IH]; intros i Hi Hn Hh.
  - replace i with (ht_size ht) in Hh by lia. by rewrite present_from_end in Hh.
  - rewrite present_from_step in * by lia.
    destruct (present_ix i); [simplify_eq/=; split; [lia|done]|].
    destruct (IH (i + 1)) as [? ?]; [lia|lia|done|]. split; [lia|done].
Qed.

Lemma foreach_loop_spec n entry :
  let start := match entry with None => 0 | Some i => i + 1 end in
  0 <= start <= ht_size ht -> ht_size ht - start < Z.of_nat n ->
  foreach_loop n ht entry = Some (present_from start).
Proof.
  revert entry. induction n as [|n IH]; intros entry start Hs Hn; [lia|].
  cbn [foreach_loop]. rewrite next_entry_spec by done. cbn. fold start.
  destruct (head (present_from start)) as [j|] eqn:Hh.
  - apply present_from_head in Hh as [Hj ->]; [|lia].
    rewrite (IH (Some j)) by lia. done.
  - by destruct (present_from start).
Qed.

Lemma hash_table_foreach_spec : hash_table_foreach ht = Some (present_from 0).
Proof. apply foreach_loop_spec; lia. Qed.

Lemma elem_of_present_from i :
  i ∈ present_from 0 <-> exists e, present_at ht i e.
Proof.
  unfold present_from. rewrite list_elem_of_In, filter_In, <- list_elem_of_In, elem_of_zrange.
  unfold present_ix, present_at, entry_at. split.
  - intros [_ H]. destruct (array_get _ _) as [e|]; [eauto|done].
  - intros (e & He & Hp). pose proof (array_get_lt _ _ _ He).
    rewrite He. split; [lia|done].
Qed.

Lemma NoDup_present_from : NoDup (present_from 0).
Proof. apply NoDup_ListNoDup, List.NoDup_filter, NoDup_ListNoDup, NoDup_zrange. Qed.

Lemma filter_index_count (t t1 t2 : list hash_entry) :
  t = t1 ++ t2 ->
  Z.of_nat (length (List.filter (fun i => match array_get t i with
      | Some e => entry_is_present ht e | None => false end)
    (zrange (Z.of_nat (length t1)) (length t2)))) = count_if (entry_is_present ht) t2.
Proof.
  revert t1. induction t2 as [|e t2 IH]; intros t1 Ht; [done|].
  cbn [length]. rewrite zrange_S, count_if_cons.
  specialize (IH (t1 ++ [e])). rewrite length_app in IH. cbn [length] in IH.
  replace (Z.of_nat (length t1) + 1) with (Z.of_nat (length t1 + 1)) by lia.
  rewrite <- IH by (by rewrite <- app_assoc). cbn [List.filter].
  assert (array_get t (Z.of_nat (length t1)) = Some e) as ->.
  { apply array_get_Some. split; [lia|]. rewrite Nat2Z.id, Ht.
    by rewrite list_lookup_middle. }
  destruct (entry_is_present ht e); cbn [length Z.b2z]; lia.
Qed.

Lemma length_present_from :
  Z.of_nat (length (present_from 0)) = count_if (entry_is_present ht) (ht_table ht).
Proof.
  rewrite <- (filter_index_count (ht_table ht) []) by done.
  unfold present_from, present_ix. rewrite Z.sub_0_r, <- Hlen, Nat2Z.id. done.
Qed.
End Iteration.

(** ** Fresh tables, rehashing, insertion *)

(** Sizes and entry limits grow with the index. *)
Definition row_le (r1 r2 : Z * Z * Z) : bool := (r1.1.2 <=? r2.1.2) && (r1.1.1 <=? r2.1.1).

Lemma hash_sizes_sorted :
  forallb (fun i => match array_get hash_sizes i, array_get hash_sizes (i + 1) with
                    | Some r1, Some r2 => row_le r1 r2 && (r1.1.1 <? r2.1.1)
                    | _, _ => false end) (zrange 0 30) = true.
Proof. vm_compute. reflexivity. Qed.

Lemma hash_sizes_step i r1 r2 :
  0 <= i < 30 -> array_get hash_sizes i = Some r1 -> array_get hash_sizes (i + 1) = Some r2 ->
  r1.1.2 <= r2.1.2 /\ r1.1.1 < r2.1.1.
Proof.
  intros Hi H1 H2. pose proof hash_sizes_sorted as H. rewrite forallb_forall in H.
  specialize (H i). rewrite H1, H2 in H. unfold row_le in H.
  assert (In i (zrange 0 30)) as Hin by (apply list_elem_of_In, elem_of_zrange; lia).
  specialize (H Hin). lia.
Qed.

Lemma hash_sizes_mono i j r1 r2 :
  0 <= i <= j -> j <= 30 ->
  array_get hash_sizes i = Some r1 -> array_get hash_sizes j = Some r2 ->
  r1.1.2 <= r2.1.2 /\ r1.1.1 <= r2.1.1.
Proof.
  intros Hij Hj H1. remember (Z.to_nat (j - i)) as n eqn:Hn.
  revert j r2 Hij Hj Hn. induction n as [|n IH]; intros j r2 Hij Hj Hn H2.
  - replace j with i in H2 by lia. simplify_eq. lia.
  - destruct (array_get_is_Some hash_sizes (j - 1)) as [r Hr];
      [change (Z.of_nat (length hash_sizes)) with 31; lia|].
    pose proof (IH (j - 1) r) as Hpre. replace j with (j - 1 + 1) in H2 by lia.
    pose proof (hash_sizes_step (j - 1) r r2) as Hst.
    destruct Hpre; [lia..|done|]. destruct Hst; [lia|done|done|]. lia.
Qed.

Section Rehash.
Context (hf : Z -> Z) (keq : Z -> Z -> bool) {HK : KeyOps hf keq}.

(** An empty table of the [idx]-th size, as creation and rehashing make it. *)
Definition is_fresh (idx : Z) (ht : hash_table) : Prop :=
  ht_size_index ht = idx /\
  array_get hash_sizes idx = Some (ht_max_entries ht, ht_size ht, ht_rehash ht) /\
  ht_table ht = replicate (Z.to_nat (ht_size ht)) zero_entry /\
  ht_entries ht = 0 /\ ht_deleted_entries ht = 0.

Lemma fresh_no_present idx ht i e : is_fresh idx ht -> ~ present_at ht i e.
Proof.
  intros (_ & _ & Ht & _) [[_ He]%array_get_Some Hp]. rewrite Ht in He.
  apply lookup_replicate in He as [-> _]. done.
Qed.

Lemma fresh_shape idx ht :
  0 <= idx < 30 -> ht_deleted_key ht <> 0 -> is_fresh idx ht -> ht_shape ht.
Proof.
  intros Hidx Hdk (Hi & Hrow & Ht & He & Hd).
  pose proof (hash_sizes_ok _ _ Hidx Hrow) as [_ _ Hs _]. cbn in Hs.
  split; try done.
  - lia.
  - by rewrite Hi.
  - rewrite Ht, length_replicate. lia.
  - rewrite He, Ht, count_if_replicate_false; done.
  - rewrite Hd, Ht, count_if_replicate_false; [done|]. apply Z.eqb_neq. cbn. lia.
Qed.

Lemma fresh_wf idx ht :
  0 <= idx < 30 -> ht_deleted_key ht <> 0 -> ht_key_equals_function ht = keq ->
  is_fresh idx ht -> ht_wf hf keq ht.
Proof.
  intros Hidx Hdk Hkeq Hfr. split; [by eapply fresh_shape|done|..].
  - intros i e Hp. by apply (fresh_no_present idx) in Hp.
  - intros i1 e1 i2 e2 Hp. by apply (fresh_no_present idx) in Hp.
Qed.

(** [re] holds the entries of [ht] whose index is in [done]. *)
Record rehashing (ht : hash_table) (processed : list Z) (h : hash_table) : Prop := {
  rh_wf : ht_wf hf keq h;
  rh_frame : same_frame ht h;
  rh_size : ht_size ht <= ht_size h;
  rh_entries : ht_entries h <= Z.of_nat (length processed);
  rh_maps : forall k d, ht_maps keq h k d <->
    exists i e, i ∈ processed /\ present_at ht i e /\ keq k (he_key e) = true
                /\ he_data e = d }.

Lemma frame_trans h1 h2 h3 : same_frame h1 h2 -> same_frame h2 h3 -> same_frame h1 h3.
Proof. intros [] []. split; congruence. Qed.

(** Adding one more entry of the old table. *)
Lemma rehashing_step ht processed i e h h' r :
  ht_wf hf keq ht -> present_at ht i e -> i ∉ processed ->
  Z.of_nat (length processed) < ht_entries ht ->
  rehashing ht processed h -> ht_size h <= ht_size h' ->
  inserted hf keq h (he_key e) (he_data e) h' r ->
  ht_entries h' <= ht_entries h + (if r then 1 else 0) ->
  rehashing ht (processed ++ [i]) h'.
Proof.
  intros Hwf Hp Hni Hlen [Hw Hf Hs He Hm] Hs' [Iw If Is In] He'.
  pose proof (count_le_size ht (wf_shape _ _ _ Hwf)) as Hcs.
  destruct r as [a|]; [|exfalso; destruct (In eq_refl) as [_ Hfull]; lia].
  destruct (Is a eq_refl) as [_ Hmaps]. split.
  - done.
  - by eapply frame_trans.
  - lia.
  - rewrite length_app. cbn. lia.
  - intros k d. rewrite Hmaps.
    setoid_rewrite elem_of_app. setoid_rewrite list_elem_of_singleton.
    destruct (keq (he_key e) k) eqn:Hk.
    + split.
      * intros ->. exists i, e. rewrite keq_sym. auto.
      * intros (i' & e' & _ & Hp' & Hk' & <-).
        pose proof (keq_trans _ _ _ Hk Hk') as Hee.
        pose proof (wf_unique _ _ _ Hwf _ _ _ _ Hp Hp' Hee) as <-.
        f_equal. eapply entry_at_fun; [apply Hp'|apply Hp].
    + rewrite Hm. split.
      * intros (i' & e' & ? & ?). eauto 6.
      * intros (i' & e' & [Hin| ->] & Hp' & Hk' & Hd'); [eauto 6|].
        rewrite (entry_at_fun _ _ _ _ (proj1 Hp') (proj1 Hp)) in Hk'.
        rewrite keq_sym in Hk'. congruence.
Qed.

(** [ht1] stands for the same map as [ht]. *)
Record same_map (ht ht1 : hash_table) : Prop := {
  sm_wf : ht_wf hf keq ht1;
  sm_frame : same_frame ht ht1;
  sm_entries : ht_entries ht1 <= ht_entries ht;
  sm_maps : forall k d, ht_maps keq ht1 k d <-> ht_maps keq ht k d }.

Lemma rehashing_done ht h :
  ht_wf hf keq ht -> rehashing ht (present_from ht 0) h -> same_map ht h.
Proof.
  intros Hwf [Hw Hf Hs He Hm]. pose proof (wf_shape _ _ _ Hwf) as Hsh.
  split; [done..|by rewrite (sh_entries ht), <- (length_present_from ht (sh_length _ Hsh))|].
  intros k d. rewrite Hm. split.
  - intros (i & e & _ & ?). by exists i, e.
  - intros (i & e & Hp & ?). exists i, e. split; [|done].
    apply elem_of_present_from; [apply Hsh|eauto].
Qed.

Lemma size_index_mono h h' :
  ht_shape h -> ht_shape h' -> ht_size_index h <= ht_size_index h' ->
  ht_size h <= ht_size h' /\ ht_max_entries h <= ht_max_entries h'.
Proof.
  intros [] [] Hle. apply (hash_sizes_mono _ _ _ _ (conj (proj1 sh_index0) Hle)
    ltac:(lia) sh_row0 sh_row1).
Qed.

(** [insert] is correct on the tables [J] holds of, and keeps [J]. *)
Definition insert_keeps (bound : Z) (J : hash_table -> Prop)
    (insert : hash_table -> Z -> Z -> Z -> option (hash_table * option Z)) : Prop :=
  forall h key data, ht_wf hf keq h -> key <> 0 -> key <> ht_deleted_key h ->
    J h -> ht_entries h < bound ->
    exists h' r, insert h (hf key) key data = Some (h', r) /\
      inserted hf keq h key data h' r /\ ht_size_index h <= ht_size_index h' /\
      ht_entries h' <= ht_entries h + (if r then 1 else 0) /\ J h'.

(** Rehashing with a correct insertion keeps the map. *)
Lemma rehash_spec insert alloc ht idx J :
  ht_wf hf keq ht -> ht_size_index ht <= idx < 30 ->
  insert_keeps (ht_entries ht) J insert ->
  (forall h, ht_deleted_key h = ht_deleted_key ht -> is_fresh idx h -> J h) ->
  exists ht1, _mesa_hash_table_rehash insert alloc ht idx = Some ht1 /\ same_map ht ht1 /\
    (ht1 = ht /\ (exists n, alloc n = false) \/ J ht1).
Proof.
  intros Hwf Hidx Hins HJ0. pose proof (wf_shape _ _ _ Hwf) as Hsh.
  pose proof (sh_index _ Hsh) as Hi0. unfold _mesa_hash_table_rehash.
  change (Z.of_nat (length hash_sizes)) with 31.
  replace (31 <=? idx) with false by lia.
  destruct (array_get_is_Some hash_sizes idx) as [[[mx sz] rh] Hrow];
    [change (Z.of_nat (length hash_sizes)) with 31; lia|].
  rewrite Hrow. cbn. destruct (alloc sz) eqn:Hal; cbn.
  2: { exists ht. split; [done|]. split; [by split|]. eauto. }
  set (h0 := HashTable _ _ _ _ _ _ _ _ _ _).
  rewrite hash_table_foreach_spec by apply Hsh. cbn.
  assert (is_fresh idx h0) as Hfr by (repeat split; done).
  assert (ht_wf hf keq h0) as Hw0.
  { apply (fresh_wf idx); [lia|apply (sh_deleted_key _ Hsh)|apply (wf_keq _ _ _ Hwf)|done]. }
  match goal with |- context [foldM ?f _ _] => set (body := f) end.
  destruct (foldM_ind (fun l h => rehashing ht l h /\ J h) body (present_from ht 0) h0)
    as (ht1 & Hf & Hre & HJ).
  - split; [|by apply HJ0]. split; try done.
    + apply (size_index_mono ht h0); [done|apply Hw0|cbn; lia].
    + intros k d. split.
      * intros (i & e & Hp & _). by apply (fresh_no_present idx) in Hp.
      * intros (i & e & Hin & _). by apply elem_of_nil in Hin.
  - intros l1 i l2 h Hl [Hre HJ]. pose proof Hre as [Hw Hfm Hs He Hm].
    assert (i ∈ present_from ht 0) as Hin by (rewrite Hl; set_solver).
    apply elem_of_present_from in Hin as [e Hp]; [|apply Hsh].
    pose proof (NoDup_present_from ht) as Hnd. rewrite Hl in Hnd.
    pose proof (length_present_from ht (sh_length _ Hsh)) as Hlen.
    rewrite <- (sh_entries _ Hsh), Hl, length_app in Hlen.
    cbn [length] in Hlen. apply NoDup_app in Hnd as (_ & Hd & _).
    assert (he_key e <> 0 /\ he_key e <> ht_deleted_key h) as [Hk0 Hkd].
    { destruct Hp as [_ Hp]. unfold entry_is_present in Hp.
      rewrite (sf_deleted_key _ _ Hfm). lia. }
    destruct (Hins h (he_key e) (he_data e)) as (h' & r & Hr & Hi & Hix & Hen & HJ');
      [done..|lia|].
    exists h'. unfold body. destruct Hp as [Hat Hpr]. unfold entry_at in Hat. rewrite Hat.
    cbn. rewrite (proj1 (wf_chain _ _ _ Hwf i e (conj Hat Hpr))), Hr. cbn.
    split; [done|]. split; [|done]. eapply rehashing_step; try done.
    + intros Hin. apply (Hd i Hin). set_solver.
    + lia.
    + by apply size_index_mono; [apply Hw|apply Hi|].
  - exists ht1. split; [done|]. split; [by apply rehashing_done|]. by right.
Qed.

(** No rehash is due before the next insertion. *)
Definition has_room (ht : hash_table) : Prop :=
  ht_entries ht + ht_deleted_entries ht < ht_max_entries ht.

(** The first part of [hash_table_insert]: make room. *)
Definition make_room (depth : nat) (alloc : Z -> bool) (ht : hash_table)
    : option hash_table :=
  if ht_max_entries ht <=? ht_entries ht then
    _mesa_hash_table_rehash (hash_table_insert_depth depth alloc) alloc ht
      (u32 (ht_size_index ht + 1))
  else if ht_max_entries ht <=? u32 (ht_deleted_entries ht + ht_entries ht) then
    _mesa_hash_table_rehash (hash_table_insert_depth depth alloc) alloc ht
      (ht_size_index ht)
  else Some ht.

Lemma make_room_has_room depth alloc ht :
  ht_shape ht -> has_room ht -> make_room depth alloc ht = Some ht.
Proof.
  intros Hsh Hroom. unfold make_room, has_room in *.
  pose proof (count_le_size ht Hsh). pose proof (size_lt_2_31 ht Hsh). pose proof (sh_index _ Hsh).
  rewrite !u32_small by lia.
  destruct (Z.leb_spec (ht_max_entries ht) (ht_entries ht)); [lia|].
  destruct (Z.leb_spec (ht_max_entries ht) (ht_deleted_entries ht + ht_entries ht)); [lia|].
  done.
Qed.

Lemma same_map_refl ht : ht_wf hf keq ht -> same_map ht ht.
Proof. by split. Qed.

Lemma inserted_same_map ht ht1 key data ht' r :
  same_map ht ht1 -> inserted hf keq ht1 key data ht' r -> inserted hf keq ht key data ht' r.
Proof.
  intros [Hw Hf He Hm] [Iw If Is In]. split; [done|by eapply frame_trans| |].
  - intros a Ha. destruct (Is a Ha) as [Hp Hmaps]. split; [done|].
    intros k d. rewrite Hmaps. destruct (keq key k); [done|]. apply Hm.
  - intros Hr. destruct (In Hr) as [Hmaps Hfull]. split; [|done].
    intros k d. rewrite Hmaps. apply Hm.
Qed.

(** Insertion is making room followed by storing the entry. *)
Lemma insert_depth_spec depth alloc ht ht1 key data :
  ht_wf hf keq ht -> key <> 0 -> key <> ht_deleted_key ht ->
  make_room depth alloc ht = Some ht1 -> same_map ht ht1 ->
  exists ht' r, hash_table_insert_depth (S depth) alloc ht (hf key) key data = Some (ht', r)
    /\ inserted hf keq ht key data ht' r /\ inserted_here hf keq ht1 key data ht' r.
Proof.
  intros Hwf Hk0 Hkd Hmr Hsm. cbn [hash_table_insert_depth].
  replace (key =? 0) with false by lia. fold (make_room depth alloc ht). rewrite Hmr. cbn.
  pose proof (sm_frame _ _ Hsm) as [_ Hdk].
  destruct (insert_here_spec hf keq ht1 key data) as (ht' & r & Hr & Hin);
    [apply Hsm|done|congruence|].
  exists ht', r. split; [done|]. split; [|done]. by eapply inserted_same_map, Hin.
Qed.

Lemma insert_depth_keeps_room depth alloc bound idx :
  (1 <= depth)%nat ->
  (forall h, ht_shape h -> ht_size_index h = idx -> bound <= ht_max_entries h) ->
  insert_keeps bound (fun h => ht_size_index h = idx /\ ht_deleted_entries h = 0)
    (hash_table_insert_depth depth alloc).
Proof.
  intros Hd Hb h key data Hw Hk0 Hkd [Hix Hdel] Hlt. destruct depth as [|depth]; [lia|].
  pose proof (wf_shape _ _ _ Hw) as Hsh. specialize (Hb h Hsh Hix).
  assert (has_room h) as Hroom by (unfold has_room; lia).
  destruct (insert_depth_spec depth alloc h h key data) as (h' & r & Hr & Hi & Hh);
    [done..|by apply make_room_has_room|by apply same_map_refl|].
  destruct Hh as (_ & Hix' & He & Hd' & _).
  pose proof (count_le_size h' (wf_shape _ _ _ (ins_wf _ _ _ _ _ _ _ Hi))).
  exists h', r. split_and!; (done || lia).
Qed.

(** Rows of [hash_sizes] by index. *)
Lemma shape_same_index h1 h2 :
  ht_shape h1 -> ht_shape h2 -> ht_size_index h1 = ht_size_index h2 ->
  ht_max_entries h1 = ht_max_entries h2 /\ ht_size h1 = ht_size h2.
Proof. intros [] [] Heq. rewrite Heq in *. simplify_eq. split; congruence. Qed.

Lemma max_entries_29 ht :
  ht_shape ht -> ht_size_index ht = 29 -> ht_max_entries ht = 2 ^ 30.
Proof. intros [] Heq. rewrite Heq in *. vm_compute in sh_row0. by simplify_eq. Qed.

(** Every insertion below the last table size returns: [depth] levels of
    nesting are enough when they cover the sizes above the current one. *)
Lemma insert_depth_total depth alloc :
  forall ht key data, ht_wf hf keq ht -> key <> 0 -> key <> ht_deleted_key ht ->
  ht_entries ht < 2 ^ 30 -> 32 - ht_size_index ht <= Z.of_nat depth ->
  exists ht' r, hash_table_insert_depth depth alloc ht (hf key) key data = Some (ht', r) /\
    inserted hf keq ht key data ht' r /\ ht_size_index ht <= ht_size_index ht' /\
    ht_entries ht' <= ht_entries ht + (if r then 1 else 0).
Proof.
  induction depth as [|depth IH]; intros ht key data Hwf Hk0 Hkd Hlim Hdep;
    pose proof (wf_shape _ _ _ Hwf) as Hsh; pose proof (sh_index _ Hsh) as Hidx; [lia|].
  assert (exists ht1, make_room depth alloc ht = Some ht1 /\ same_map ht ht1 /\
    ht_size_index ht <= ht_size_index ht1) as (ht1 & Hmr & Hsm & Hix1).
  { unfold make_room. pose proof (count_le_size ht Hsh). pose proof (size_lt_2_31 ht Hsh).
    rewrite !u32_small by lia.
    destruct (Z.leb_spec (ht_max_entries ht) (ht_entries ht)) as [Hge|Hlt].
    - assert (ht_size_index ht < 29).
      { destruct (Z.eq_dec (ht_size_index ht) 29) as [H29|]; [|lia].
        rewrite (max_entries_29 ht Hsh H29) in Hge. lia. }
      destruct (rehash_spec (hash_table_insert_depth depth alloc) alloc ht
        (ht_size_index ht + 1) (fun h => ht_size_index ht + 1 <= ht_size_index h))
        as (ht1 & Hr & Hsm & HJ); [done|lia| |intros h _ (-> & _); lia|].
      + intros h k d Hw Hk Hkd' HJ Hlt'.
        destruct (IH h k d) as (h' & r & ? & ? & ? & ?); [done..|lia|lia|].
        exists h', r. split_and!; (done || lia).
      + exists ht1. split; [done|]. split; [done|]. destruct HJ as [[-> _]|]; lia.
    - destruct (Z.leb_spec (ht_max_entries ht) (ht_deleted_entries ht + ht_entries ht)).
      + destruct (rehash_spec (hash_table_insert_depth depth alloc) alloc ht
          (ht_size_index ht)
          (fun h => ht_size_index h = ht_size_index ht /\ ht_deleted_entries h = 0))
          as (ht1 & Hr & Hsm & HJ); [done|lia| |by intros h _ (-> & _ & _ & _ & ->)|].
        * apply insert_depth_keeps_room; [lia|]. intros h Hh Hi.
          destruct (shape_same_index h ht) as [-> _]; [done..|lia].
        * exists ht1. split; [done|]. split; [done|]. destruct HJ as [[-> _]|[-> _]]; lia.
      + exists ht. split; [done|]. split; [by apply same_map_refl|lia]. }
  destruct (insert_depth_spec depth alloc ht ht1 key data) as (ht' & r & Hr & Hi & Hh);
    [done..|]. destruct Hh as (_ & Hix & He & _).
  pose proof (sm_entries _ _ Hsm). exists ht', r. split; [done|]. split; [done|]. lia.
Qed.

(** The load invariant: with the load below the limit and memory available,
    making room always leaves room. *)
Lemma make_room_load depth alloc ht :
  (1 <= depth)%nat -> (forall n, alloc n = true) ->
  ht_wf hf keq ht -> ht_entries ht < 2 ^ 30 ->
  ht_entries ht + ht_deleted_entries ht <= ht_max_entries ht ->
  exists ht1, make_room depth alloc ht = Some ht1 /\ same_map ht ht1 /\ has_room ht1.
Proof.
  intros Hdep Hal Hwf Hlim Hload. pose proof (wf_shape _ _ _ Hwf) as Hsh.
  pose proof (count_le_size ht Hsh). pose proof (size_lt_2_31 ht Hsh).
  pose proof (sh_index _ Hsh).
  assert (forall idx, ht_size_index ht <= idx < 30 ->
    (forall h, ht_shape h -> ht_size_index h = idx -> ht_entries ht < ht_max_entries h) ->
    exists ht1, _mesa_hash_table_rehash (hash_table_insert_depth depth alloc) alloc ht idx
      = Some ht1 /\ same_map ht ht1 /\ has_room ht1) as Hre.
  { intros idx Hidx Hmax.
    destruct (rehash_spec (hash_table_insert_depth depth alloc) alloc ht idx
      (fun h => ht_size_index h = idx /\ ht_deleted_entries h = 0))
      as (ht1 & Hr & Hsm & HJ); [done|done| |by intros h _ (-> & _ & _ & _ & ->)|].
    - apply insert_depth_keeps_room; [lia|]. intros h Hh Hi. specialize (Hmax h Hh Hi). lia.
    - destruct HJ as [[_ [n Hn]]|[Hi Hd]]; [by rewrite Hal in Hn|].
      exists ht1. split; [done|]. split; [done|]. unfold has_room.
      pose proof (Hmax ht1 (wf_shape _ _ _ (sm_wf _ _ Hsm)) Hi).
      pose proof (sm_entries _ _ Hsm). lia. }
  unfold make_room. rewrite !u32_small by lia.
  destruct (Z.leb_spec (ht_max_entries ht) (ht_entries ht)) as [Hge|Hlt].
  - assert (ht_size_index ht < 29).
    { destruct (Z.eq_dec (ht_size_index ht) 29) as [H29|]; [|lia].
      rewrite (max_entries_29 ht Hsh H29) in Hge. lia. }
    apply Hre; [lia|]. intros h [] Hi. rewrite Hi in *.
    destruct (hash_sizes_step (ht_size_index ht) _ _ ltac:(lia) (sh_row _ Hsh) sh_row0) as [_ Hm]. cbn in Hm. lia.
  - destruct (Z.leb_spec (ht_max_entries ht) (ht_deleted_entries ht + ht_entries ht)).
    + apply Hre; [lia|]. intros h Hh Hi.
      destruct (shape_same_index h ht) as [-> _]; [done..|lia].
    + exists ht. split; [done|]. split; [by apply same_map_refl|]. unfold has_room. lia.
Qed.

Definition ht_load_ok (ht : hash_table) : Prop :=
  ht_entries ht + ht_deleted_entries ht <= ht_max_entries ht.

Lemma insert_load depth alloc ht key data :
  (1 <= depth)%nat -> (forall n, alloc n = true) ->
  ht_wf hf keq ht -> ht_load_ok ht -> ht_entries ht < 2 ^ 30 ->
  key <> 0 -> key <> ht_deleted_key ht ->
  exists ht' a, hash_table_insert_depth (S depth) alloc ht (hf key) key data
      = Some (ht', Some a) /\
    inserted hf keq ht key data ht' (Some a) /\ ht_load_ok ht' /\
    ht_entries ht' <= ht_entries ht + 1.
Proof.
  intros Hdep Hal Hwf Hload Hlim Hk0 Hkd.
  destruct (make_room_load depth alloc ht) as (ht1 & Hmr & Hsm & Hroom); [done..|].
  destruct (insert_depth_spec depth alloc ht ht1 key data) as (ht' & r & Hr & Hi & Hh);
    [done..|].
  destruct Hh as (Hh & Hix & He & Hd & Hsum). unfold has_room, ht_load_ok in *.
  pose proof (sm_entries _ _ Hsm).
  pose proof (wf_shape _ _ _ (ins_wf _ _ _ _ _ _ _ Hi)) as Hsh'.
  destruct (shape_same_index ht' ht1) as [Hmx Hsz]; [done|apply Hsm|done|].
  destruct r as [a|].
  - exists ht', a. split_and!; (done || lia).
  - destruct (ins_none _ _ _ _ _ _ _ Hi eq_refl) as [_ Hfull].
    pose proof (count_le_size ht' Hsh'). destruct (shape_row ht' Hsh') as [_ _ _ Hrm].
    cbn in Hrm. lia.
Qed.

(** Removal leaves a tombstone, which keeps the chains through the slot. *)
Lemma remove_spec ht i e :
  ht_wf hf keq ht -> present_at ht i e ->
  exists ht', _mesa_hash_table_remove ht (Some i) = Some ht' /\ ht_wf hf keq ht' /\
    same_frame ht ht' /\ ht_size_index ht' = ht_size_index ht /\
    ht_entries ht' = ht_entries ht - 1 /\
    ht_deleted_entries ht' = ht_deleted_entries ht + 1 /\
    (forall k d, ht_maps keq ht' k d <-> ht_maps keq ht k d /\ keq k (he_key e) = false).
Proof.
  intros Hwf [He Hp]. pose proof (wf_shape _ _ _ Hwf) as Hsh.
  pose proof (count_present_pos ht i e Hsh He Hp). pose proof (count_le_size ht Hsh).
  pose proof (size_lt_2_31 ht Hsh). pose proof (sh_deleted_key _ Hsh) as Hdk.
  pose proof (array_get_lt _ _ _ He) as Hlt.
  set (e' := HashEntry (he_hash e) (ht_deleted_key ht) (he_data e)).
  assert (entry_is_free e' = false) as Hnf by by apply key_entry_not_free.
  assert (entry_is_deleted ht e' = true) as Hd' by (apply Z.eqb_refl).
  assert (entry_is_present ht e' = false) as Hp' by (by rewrite (entry_not_free ht e' Hnf), Hd').
  assert (forall j x, present_at (put ht i e e') j x <-> j <> i /\ present_at ht j x) as Hput.
  { intros j x. unfold present_at. rewrite (put_entry_at ht i e e') by done.
    change (entry_is_present (put ht i e e')) with (entry_is_present ht). naive_solver congruence. }
  exists (put ht i e e'). split_and!; try done.
  - cbn. unfold entry_at in He. rewrite He. cbn. rewrite array_set_Some by done. cbn.
    do 2 f_equal. unfold put. rewrite Hp, Hp', Hd', (entry_is_present_not_deleted ht e Hp).
    cbn. rewrite !u32_small by lia. f_equal; lia.
  - destruct Hwf as [_ Hkeq Hchain Hun]. split; [by apply put_shape|done|..].
    + intros j x [Hne Hx]%Hput. destruct (Hchain _ _ Hx) as (Hh & m & Hm & -> & Hch).
      split; [done|]. exists m. split; [done|]. split; [done|]. by apply put_chain.
    + intros i1 e1 i2 e2 [_ Hp1]%Hput [_ Hp2]%Hput. by apply Hun.
  - cbn. rewrite Hp, Hp'. cbn. lia.
  - cbn. rewrite Hd', (entry_is_present_not_deleted ht e Hp). cbn. lia.
  - intros k d. unfold ht_maps. setoid_rewrite Hput. split.
    + intros (j & x & [Hne Hx] & Hk & Hd). split; [eauto|].
      apply not_true_iff_false. intros Hke. apply Hne.
      eapply (wf_unique _ _ _ Hwf j x i e); [done|by split|].
      rewrite keq_sym in Hk. by eapply keq_trans.
    + intros [(j & x & Hx & Hk & Hd) Hke]. exists j, x. split; [|done]. split; [|done].
      intros ->. rewrite (entry_at_fun _ _ _ _ (proj1 Hx) He) in Hk. congruence.
Qed.

Lemma create_spec alloc dkv hfun :
  dkv <> 0 -> alloc 5 = true ->
  exists ht, _mesa_hash_table_create alloc dkv hfun keq = Some (Some ht) /\
    ht_wf hf keq ht /\ ht_load_ok ht /\ ht_entries ht = 0 /\
    ht_key_hash_function ht = hfun /\ ht_deleted_key ht = dkv /\
    (forall k d, ~ ht_maps keq ht k d).
Proof.
  intros Hd Hal. unfold _mesa_hash_table_create.
  change (array_get hash_sizes 0) with (Some (2, 5, 3)). cbn. rewrite Hal.
  eexists. split; [done|]. match goal with |- ht_wf _ _ ?h /\ _ => set (ht := h) end.
  assert (is_fresh 0 ht) as Hfr by (repeat split; done).
  split_and!; try done.
  - by apply (fresh_wf 0).
  - intros k d (i & e & Hp & _). by apply (fresh_no_present 0) in Hp.
Qed.
End Rehash.
