(* ===== verification/HashTableTheorems.v ===== *)
(** * What [src/util/hash_table.c] promises

    The contract of each operation against the finite map [ht_maps], the
    refinement of [hash_table_u64] to a [gmap], and the probe sequence of the
    largest table size. *)
From stdpp Require Import gmap.
From S2P Require Import Prelude HashTable HashTableCorrect.

(** ** The 64-bit wrapper against a finite map *)

#[export] Instance pointer_key_ops : KeyOps _mesa_hash_pointer _mesa_key_pointer_equal.
Proof.
  unfold _mesa_key_pointer_equal. split; intros.
  - apply u32_range.
  - by apply Z.eqb_eq in H as ->.
  - apply Z.eqb_refl.
  - apply Z.eqb_sym.
  - apply Z.eqb_eq in H as ->. done.
Qed.

(** The client's view: a call and what it returns. *)
Inductive u64_op :=
  | U64Insert (key data : Z)
  | U64Search (key : Z)
  | U64Remove (key : Z).

Definition op_key (op : u64_op) : Z :=
  match op with U64Insert k _ | U64Search k | U64Remove k => k end.

Definition run_op (alloc : Z -> bool) (ht : hash_table_u64) (op : u64_op)
    : option (hash_table_u64 * Z) :=
  match op with
  | U64Insert k d => ht ← _mesa_hash_table_u64_insert alloc ht k d; Some (ht, 0)
  | U64Search k => r ← _mesa_hash_table_u64_search ht k; Some (ht, r)
  | U64Remove k => ht ← _mesa_hash_table_u64_remove ht k; Some (ht, 0)
  end.

Fixpoint run_ops (alloc : Z -> bool) (ht : hash_table_u64) (ops : list u64_op)
    : option (list Z) :=
  match ops with
  | [] => Some []
  | op :: ops => '(ht, r) ← run_op alloc ht op; rs ← run_ops alloc ht ops; Some (r :: rs)
  end.

(** The specification: a finite map in which absent keys read as [NULL]. *)
Definition spec_op (m : gmap Z Z) (op : u64_op) : gmap Z Z * Z :=
  match op with
  | U64Insert k d => (<[k := d]> m, 0)
  | U64Search k => (m, default 0 (m !! k))
  | U64Remove k => (delete k m, 0)
  end.

Fixpoint spec_ops (m : gmap Z Z) (ops : list u64_op) : list Z :=
  match ops with
  | [] => []
  | op :: ops => let '(m, r) := spec_op m op in r :: spec_ops m ops
  end.

Notation ptr_wf := (ht_wf _mesa_hash_pointer _mesa_key_pointer_equal).
Notation ptr_maps := (ht_maps _mesa_key_pointer_equal).

(** The wrapper represents [m] and has inserted at most [n] entries. *)
Definition u64_rep (n : Z) (m : gmap Z Z) (ht : hash_table_u64) : Prop :=
  exists t, hu_table ht = Some t /\ ptr_wf t /\ ht_load_ok t /\ ht_entries t <= n /\
  ht_deleted_key t = DELETED_KEY_VALUE /\
  ht_key_hash_function t = Some _mesa_hash_pointer /\
  hu_deleted_key_data ht = default 0 (m !! DELETED_KEY_VALUE) /\
  forall k d, k <> DELETED_KEY_VALUE -> ptr_maps t k d <-> m !! k = Some d.

Lemma u64_create_rep alloc dkv :
  (forall n, alloc n = true) -> dkv <> 0 ->
  exists ht, _mesa_hash_table_u64_create true alloc dkv = Some (Some ht)
             /\ u64_rep 0 ∅ ht.
Proof.
  intros Hal Hd. unfold _mesa_hash_table_u64_create. cbn [negb].
  destruct (create_spec _mesa_hash_pointer _mesa_key_pointer_equal alloc DELETED_KEY_VALUE
    (Some _mesa_hash_pointer)) as (t & Ht & Hwf & Hload & He & Hhf & Hdk & Hm); [done|done|].
  unfold _mesa_hash_table_create in *.
  change (array_get hash_sizes 0) with (Some (2, 5, 3)) in *. cbn in *.
  rewrite Hal in *. simplify_eq/=. eexists. split; [done|].
  eexists. split_and!; try done.
  intros k d _. rewrite lookup_empty. split; [|done]. intros Hk. by apply Hm in Hk.
Qed.

Lemma ptr_maps_ne t k k' d : ptr_maps t k d -> _mesa_key_pointer_equal k k' = (k =? k').
Proof. done. Qed.

Lemma u64_insert_rep alloc n m ht k d :
  (forall n, alloc n = true) -> k <> 0 -> n < 2 ^ 30 -> u64_rep n m ht ->
  exists ht', _mesa_hash_table_u64_insert alloc ht k d = Some ht'
              /\ u64_rep (n + 1) (<[k := d]> m) ht'.
Proof.
  intros Hal Hk0 Hn (t & Ht & Hwf & Hload & He & Hdk & Hhf & Hdd & Hm).
  unfold _mesa_hash_table_u64_insert.
  destruct (Z.eqb_spec k DELETED_KEY_VALUE) as [->|Hne].
  - eexists. split; [done|]. exists t. cbn. rewrite lookup_insert_eq.
    split_and!; try (done || lia). intros k d' Hk. rewrite lookup_insert_ne by done. auto.
  - rewrite Ht. obind. unfold _mesa_hash_table_insert. rewrite Hhf. obind.
    destruct (insert_load _mesa_hash_pointer _mesa_key_pointer_equal 32 alloc t k d)
      as (t' & a & Hins & [Iw [Ihf Idk] Is _] & Hload' & He'); [lia|done|done|done|lia|done|congruence|].
    unfold hash_table_insert, insert_depth. rewrite Hins. clear Hins. cbn. eexists. split; [done|].
    exists t'. cbn. destruct (Is a eq_refl) as [_ Hmaps].
    rewrite lookup_insert_ne by done. split_and!; try (done || lia || congruence).
    intros k' d' Hk'. rewrite Hmaps. unfold _mesa_key_pointer_equal.
    destruct (Z.eqb_spec k k') as [<-|Hkk].
    + rewrite lookup_insert_eq. split; [by intros -> | by intros [= ->]].
    + rewrite lookup_insert_ne by done. auto.
Qed.

(** What the wrapper's lookup finds. *)
Lemma u64_find n m ht k :
  k <> DELETED_KEY_VALUE -> u64_rep n m ht ->
  exists t r, hu_table ht = Some t /\ hash_table_u64_search ht k = Some r /\
  match r with
  | Some i => exists e, present_at t i e /\ he_key e = k /\ m !! k = Some (he_data e)
  | None => m !! k = None
  end.
Proof.
  intros Hne (t & Ht & Hwf & Hload & He & Hdk & Hhf & Hdd & Hm).
  unfold hash_table_u64_search. rewrite Ht. cbn. unfold _mesa_hash_table_search.
  rewrite Hhf. cbn. destruct (hash_table_search_spec _ _ t k Hwf) as (r & Hr & Hres).
  exists t, r. split_and!; [done..|]. destruct r as [i|].
  - destruct Hres as (e & Hp & Hk%Z.eqb_eq). exists e. split_and!; [done..|].
    apply Hm; [done|]. exists i, e. by rewrite Hk, keq_refl.
  - destruct (m !! k) as [d|] eqn:Hmk; [|done]. apply Hm in Hmk as (i & e & Hp & Hk & _); [|done].
    by rewrite (Hres i e Hp) in Hk.
Qed.

Lemma u64_search_rep n m ht k :
  u64_rep n m ht -> _mesa_hash_table_u64_search ht k = Some (default 0 (m !! k)).
Proof.
  intros Hrep. unfold _mesa_hash_table_u64_search.
  destruct (Z.eqb_spec k DELETED_KEY_VALUE) as [->|Hne].
  { destruct Hrep as (t & _ & _ & _ & _ & _ & _ & -> & _). done. }
  destruct (u64_find n m ht k Hne Hrep) as (t & r & Ht & -> & Hr). cbn.
  destruct r as [i|]; [|by rewrite Hr].
  destruct Hr as (e & [He _] & _ & ->). rewrite Ht. cbn. unfold entry_at in He. by rewrite He.
Qed.

Lemma u64_remove_rep n m ht k :
  u64_rep n m ht ->
  exists ht', _mesa_hash_table_u64_remove ht k = Some ht' /\ u64_rep n (delete k m) ht'.
Proof.
  intros Hrep. unfold _mesa_hash_table_u64_remove.
  destruct (Z.eqb_spec k DELETED_KEY_VALUE) as [->|Hne].
  { destruct Hrep as (t & Ht & Hwf & Hload & He & Hdk & Hhf & Hdd & Hm).
    eexists. split; [done|]. exists t. cbn. rewrite lookup_delete_eq.
    split_and!; try done. intros k d Hk. rewrite lookup_delete_ne by done. auto. }
  destruct (u64_find n m ht k Hne Hrep) as (t0 & r & Ht0 & Hs & Hr). rewrite Hs. obind.
  destruct Hrep as (t & Ht & Hwf & Hload & He & Hdk & Hhf & Hdd & Hm).
  rewrite Ht in Ht0. injection Ht0 as <-. destruct r as [i|].
  - destruct Hr as (e & Hp & Hk & Hmk). rewrite Ht. obind.
    destruct (remove_spec _mesa_hash_pointer _mesa_key_pointer_equal t i e Hwf Hp)
      as (t' & -> & Hwf' & [Fh Fd] & Hix & Hen & Hde & Hmaps). cbn.
    eexists. split; [done|]. exists t'. cbn. rewrite lookup_delete_ne by done.
    destruct (shape_same_index t' t) as [Hmx _]; [apply Hwf'|apply Hwf|done|].
    unfold ht_load_ok in *. split_and!; try (done || lia || congruence).
    intros k' d' Hk'. rewrite Hmaps. unfold _mesa_key_pointer_equal. rewrite Hk.
    destruct (Z.eqb_spec k' k) as [->|Hkk].
    + rewrite lookup_delete_eq. naive_solver.
    + rewrite lookup_delete_ne by done. rewrite Hm by done. naive_solver.
  - eexists. split; [done|]. exists t. rewrite lookup_delete_ne by done.
    split_and!; try done. intros k' d' Hk'. rewrite delete_id by done. auto.
Qed.

Lemma u64_run_ops alloc ops : forall n m ht,
  (forall n, alloc n = true) -> Forall (fun op => op_key op <> 0) ops ->
  0 <= n -> n + Z.of_nat (length ops) < 2 ^ 30 -> u64_rep n m ht ->
  run_ops alloc ht ops = Some (spec_ops m ops).
Proof.
  induction ops as [|op ops IH]; intros n m ht Hal Hkeys Hn0 Hn Hrep; [done|].
  inversion_clear Hkeys as [|? ? Hk Hks]. cbn [length] in Hn.
  destruct op as [k d|k|k]; cbn [run_ops spec_ops run_op spec_op] in *.
  - destruct (u64_insert_rep alloc n m ht k d) as (ht' & -> & Hrep'); [done..|lia|done|].
    cbn. rewrite (IH (n + 1) _ ht' Hal Hks ltac:(lia) ltac:(lia) Hrep'). done.
  - rewrite (u64_search_rep n m ht k Hrep). cbn.
    rewrite (IH n _ ht Hal Hks ltac:(lia) ltac:(lia) Hrep). done.
  - destruct (u64_remove_rep n m ht k Hrep) as (ht' & -> & Hrep'). cbn.
    rewrite (IH n _ ht' Hal Hks ltac:(lia) ltac:(lia) Hrep'). done.
Qed.

(** ** A concrete table for the witnesses: empty, of the first size. *)
Definition table0 : hash_table :=
  {| ht_table := replicate 5 zero_entry;
     ht_key_hash_function := Some _mesa_hash_pointer;
     ht_key_equals_function := _mesa_key_pointer_equal;
     ht_deleted_key := 1; ht_size := 5; ht_rehash := 3; ht_max_entries := 2;
     ht_size_index := 0; ht_entries := 0; ht_deleted_entries := 0 |}.

Lemma table0_wf : ptr_wf table0.
Proof. apply (fresh_wf _ _ 0); [lia|done..|]. repeat split. Qed.

(** [table0] after inserting key 64 with data 7. *)
Definition table1 : hash_table :=
  {| ht_table := [zero_entry; zero_entry; HashEntry 17 64 7; zero_entry; zero_entry];
     ht_key_hash_function := Some _mesa_hash_pointer;
     ht_key_equals_function := _mesa_key_pointer_equal;
     ht_deleted_key := 1; ht_size := 5; ht_rehash := 3; ht_max_entries := 2;
     ht_size_index := 0; ht_entries := 1; ht_deleted_entries := 0 |}.

Lemma table1_eq :
  hash_table_insert_depth 33 (fun _ => true) table0 (_mesa_hash_pointer 64) 64 7
  = Some (table1, Some 2).
Proof. reflexivity. Qed.

Lemma table1_wf : ptr_wf table1.
Proof.
  destruct (insert_load _mesa_hash_pointer _mesa_key_pointer_equal 32 (fun _ => true)
    table0 64 7) as (ht & a & H & [Hw _ _ _] & _); [lia|done|apply table0_wf|done|done|done|done|].
  rewrite table1_eq in H. by injection H as <- <-.
Qed.

(** C1: starting from a fresh [hash_table_u64], every sequence of inserts,
    searches and removes of nonzero keys (fewer than 2^30 of them, with memory
    available) returns exactly what a finite map from keys to data returns,
    absent keys reading as NULL; in particular all operations terminate, stay
    inside the table and never trip an assertion, and the reserved key
    DELETED_KEY_VALUE behaves like any other. *)
Theorem hash_table_u64_refines_map alloc deleted_key_value ops :
  (forall n, alloc n = true) -> deleted_key_value <> 0 ->
  Forall (fun op => op_key op <> 0) ops -> Z.of_nat (length ops) < 2 ^ 30 ->
  exists ht, _mesa_hash_table_u64_create true alloc deleted_key_value = Some (Some ht)
             /\ run_ops alloc ht ops = Some (spec_ops ∅ ops).
Proof.
  intros Hal Hd Hks Hlen. destruct (u64_create_rep alloc deleted_key_value Hal Hd) as (ht & Hc & Hrep).
  exists ht. split; [done|]. eapply (u64_run_ops alloc ops 0); (done || lia).
Qed.

Lemma hash_table_u64_refines_map_witness :
  exists ht, _mesa_hash_table_u64_create true (fun _ => true) 8 = Some (Some ht) /\
    run_ops (fun _ => true) ht
      [U64Insert 64 7; U64Insert 1 9; U64Search 64; U64Remove 64; U64Search 64; U64Search 1]
    = Some (spec_ops ∅
      [U64Insert 64 7; U64Insert 1 9; U64Search 64; U64Remove 64; U64Search 64; U64Search 1]).
Proof.
  apply (hash_table_u64_refines_map (fun _ => true) 8); [done|lia| |cbn; lia].
  repeat constructor; cbn; lia.
Defined.

(** C2: inserting a key into a well-formed table, whatever the allocator does,
    returns; the table stays well formed (chains unbroken, keys unique, counters
    exact) and either the returned entry holds the key and the map is updated at
    that key only, or NULL is returned, the map is unchanged and every slot of
    the table is in use.  With memory available an insertion into a table whose load
    respects its limit never fails, and the load limit (present plus deleted entries at
    most max_entries, so that a free slot ends every probe) holds again. *)
Theorem hash_table_insert_correct hf keq (HK : KeyOps hf keq) alloc ht key data :
  ht_wf hf keq ht -> key <> 0 -> key <> ht_deleted_key ht -> ht_entries ht < 2 ^ 30 ->
  exists ht' r, hash_table_insert alloc ht (hf key) key data = Some (ht', r) /\
    ht_wf hf keq ht' /\
    match r with
    | Some a => present_at ht' a (HashEntry (hf key) key data) /\
        forall k d, ht_maps keq ht' k d <-> if keq key k then d = data else ht_maps keq ht k d
    | None => (forall k d, ht_maps keq ht' k d <-> ht_maps keq ht k d) /\
        ht_entries ht' = ht_size ht'
    end /\
    ((forall n, alloc n = true) -> ht_load_ok ht ->
     is_Some r /\ ht_load_ok ht' /\ ht_entries ht' <= ht_entries ht + 1).
Proof.
  intros Hwf Hk0 Hkd Hlim. pose proof (sh_index _ (wf_shape _ _ _ Hwf)).
  destruct (insert_depth_total hf keq insert_depth alloc ht key data)
    as (ht' & r & Hr & [Hw _ Hs Hn] & _); [done..|unfold insert_depth; lia|].
  exists ht', r. split; [done|]. split; [done|]. split; [destruct r as [a|]; auto|].
  intros Hal Hload. destruct (insert_load hf keq 32 alloc ht key data) as (ht1 & a & Hr1 & _ & Hl & He); [lia|done..|].
  unfold hash_table_insert in Hr. unfold insert_depth in Hr. rewrite Hr1 in Hr. injection Hr as <- <-. eauto.
Qed.

Lemma hash_table_insert_correct_witness :
  exists ht' r, hash_table_insert (fun _ => true) table1 (_mesa_hash_pointer 128) 128 5
    = Some (ht', r) /\ ptr_wf ht' /\
    match r with
    | Some a => present_at ht' a (HashEntry (_mesa_hash_pointer 128) 128 5) /\
        forall k d, ptr_maps ht' k d <->
          if _mesa_key_pointer_equal 128 k then d = 5 else ptr_maps table1 k d
    | None => (forall k d, ptr_maps ht' k d <-> ptr_maps table1 k d) /\
        ht_entries ht' = ht_size ht'
    end /\
    ((forall n : Z, true = true) -> ht_load_ok table1 ->
     is_Some r /\ ht_load_ok ht' /\ ht_entries ht' <= ht_entries table1 + 1).
Proof.
  apply (hash_table_insert_correct _ _ pointer_key_ops); [apply table1_wf|lia|..].
  - cbn. lia.
  - cbn. lia.
Defined.

(** a search returns, and it returns an entry holding an equal key exactly
    when the table has one (tombstones left by deletions notwithstanding). *)
Theorem hash_table_search_correct hf keq (HK : KeyOps hf keq) ht key :
  ht_wf hf keq ht ->
  exists r, hash_table_search ht (hf key) key = Some r /\
  match r with
  | Some i => exists e, present_at ht i e /\ keq key (he_key e) = true
                        /\ ht_maps keq ht key (he_data e)
  | None => forall d, ~ ht_maps keq ht key d
  end.
Proof.
  intros Hwf. destruct (hash_table_search_spec hf keq ht key Hwf) as (r & Hr & Hres).
  exists r. split; [done|]. destruct r as [i|].
  - destruct Hres as (e & Hp & Hk). exists e. split; [done|]. split; [done|]. by exists i, e.
  - intros d (i & e & Hp & Hk & _). by rewrite (Hres i e Hp) in Hk.
Qed.

Lemma hash_table_search_correct_witness :
  exists r, hash_table_search table1 (_mesa_hash_pointer 64) 64 = Some r /\
  match r with
  | Some i => exists e, present_at table1 i e /\ _mesa_key_pointer_equal 64 (he_key e) = true
                        /\ ptr_maps table1 64 (he_data e)
  | None => forall d, ~ ptr_maps table1 64 d
  end.
Proof. apply (hash_table_search_correct _ _ pointer_key_ops). apply table1_wf. Defined.

(** C23: removing a present entry leaves a well-formed table from which exactly
    the keys equal to the entry's key are gone, and turns one present entry into
    one deleted entry. *)
Theorem hash_table_remove_correct hf keq (HK : KeyOps hf keq) ht i e :
  ht_wf hf keq ht -> present_at ht i e ->
  exists ht', _mesa_hash_table_remove ht (Some i) = Some ht' /\ ht_wf hf keq ht' /\
    ht_entries ht' = ht_entries ht - 1 /\
    ht_deleted_entries ht' = ht_deleted_entries ht + 1 /\
    forall k d, ht_maps keq ht' k d <-> ht_maps keq ht k d /\ keq k (he_key e) = false.
Proof.
  intros Hwf Hp. destruct (remove_spec hf keq ht i e Hwf Hp)
    as (ht' & Hr & Hw & _ & _ & He & Hd & Hm). by exists ht'.
Qed.

Lemma hash_table_remove_correct_witness :
  exists ht', _mesa_hash_table_remove table1 (Some 2) = Some ht' /\ ptr_wf ht' /\
    ht_entries ht' = ht_entries table1 - 1 /\
    ht_deleted_entries ht' = ht_deleted_entries table1 + 1 /\
    forall k d, ptr_maps ht' k d <-> ptr_maps table1 k d /\ _mesa_key_pointer_equal k 64 = false.
Proof.
  apply (hash_table_remove_correct _ _ pointer_key_ops table1 2 (HashEntry 17 64 7)).
  - apply table1_wf.
  - split; reflexivity.
Defined.

(** hash_table_foreach runs its body on every present entry exactly once
    and on nothing else, in increasing order of slots, and visits as many
    entries as the entries counter says. *)
Theorem hash_table_foreach_correct ht :
  ht_shape ht ->
  exists idxs, hash_table_foreach ht = Some idxs /\ NoDup idxs /\
    Z.of_nat (length idxs) = ht_entries ht /\
    forall i, i ∈ idxs <-> exists e, present_at ht i e.
Proof.
  intros Hsh. exists (present_from ht 0). split_and!.
  - apply hash_table_foreach_spec, Hsh.
  - apply NoDup_present_from.
  - rewrite (sh_entries ht Hsh). apply length_present_from, Hsh.
  - intros i. apply elem_of_present_from, Hsh.
Qed.

Lemma hash_table_foreach_correct_witness :
  exists idxs, hash_table_foreach table1 = Some idxs /\ NoDup idxs /\
    Z.of_nat (length idxs) = ht_entries table1 /\
    forall i, i ∈ idxs <-> exists e, present_at table1 i e.
Proof. apply (hash_table_foreach_correct table1). apply (wf_shape _ _ _ table1_wf). Defined.

(** The slots probed after the start for hash value 2147483647 in the largest
    table: a tail that runs into a cycle of two slots. *)
Definition wrap_orbit : list Z :=
  [1932735062; 1717986477; 1503237892; 1288489307; 1073740722; 858992137; 644243552;
   429494967; 214746382; 2362230030].

(** For the last row of hash_sizes the 32-bit sum hash_address + double_hash
    wraps, and the probe sequence is no longer a cycle through all slots: for
    hash value 2147483647 it never comes back to its start, so the loops of
    hash_table_search and hash_table_insert, which stop at the start address,
    never leave a full set of ten probed slots. *)
Theorem next_address_wrap_never_returns :
  exists max_entries size rehash,
    array_get hash_sizes 30 = Some (max_entries, size, rehash) /\
    forall n, Nat.iter (S n) (next_address size rehash 2147483647) (2147483647 mod size)
              ∈ wrap_orbit /\ ~ 2147483647 mod size ∈ wrap_orbit.
Proof.
  exists 2147483648, 2362232233, 2362232231. split; [done|].
  set (f := next_address 2362232233 2362232231 2147483647).
  assert (forallb (fun a => bool_decide (f a ∈ wrap_orbit)) wrap_orbit = true) as Hstep
    by (vm_compute; reflexivity).
  rewrite forallb_forall in Hstep.
  intros n. split.
  - induction n as [|n IH].
    + apply (bool_decide_unpack _). vm_compute. exact I.
    + change (Nat.iter (S (S n)) f (2147483647 mod 2362232233))
        with (f (Nat.iter (S n) f (2147483647 mod 2362232233))).
      by apply list_elem_of_In, Hstep, bool_decide_eq_true_1 in IH.
  - apply (bool_decide_unpack _). vm_compute. exact I.
Qed.
