(* ===== verification/SetTable.v ===== *)
(** * The hash set of [src/util/set.c]

    The set has its own copy of the open-addressing code, with entries that
    hold a hash and a key only and one library-wide tombstone key.  Conventions
    are those of [HashTable]. *)
From S2P Require Import Prelude.

Record set_entry := SetEntry { se_hash : Z; se_key : Z }.

Record mesa_set := MesaSet {
  st_table : list set_entry;
  st_key_hash_function : option (Z -> Z);
  st_key_equals_function : Z -> Z -> bool;
  st_size : Z;
  st_rehash : Z;
  st_max_entries : Z;
  st_size_index : Z;
  st_entries : Z;
  st_deleted_entries : Z }.

(** [hash_sizes]: [max_entries], [size], [rehash]. *)
Definition hash_sizes : list (Z * Z * Z) :=
  [ (2, 5, 3); (4, 7, 5); (8, 13, 11); (16, 19, 17); (32, 43, 41); (64, 73, 71);
    (128, 151, 149); (256, 283, 281); (512, 571, 569); (1024, 1153, 1151);
    (2048, 2269, 2267); (4096, 4519, 4517); (8192, 9013, 9011);
    (16384, 18043, 18041); (32768, 36109, 36107); (65536, 72091, 72089);
    (131072, 144409, 144407); (262144, 288361, 288359); (524288, 576883, 576881);
    (1048576, 1153459, 1153457); (2097152, 2307163, 2307161);
    (4194304, 4613893, 4613891); (8388608, 9227641, 9227639);
    (16777216, 18455029, 18455027); (33554432, 36911011, 36911009);
    (67108864, 73819861, 73819859); (134217728, 147639589, 147639587);
    (268435456, 295279081, 295279079); (536870912, 590559793, 590559791);
    (1073741824, 1181116273, 1181116271); (2147483648, 2362232233, 2362232231) ].

Section Set_.
(** [deleted_key]: the address of the static variable [deleted_key_value]. *)
Context (deleted_key : Z).

Definition entry_is_free (entry : set_entry) : bool := se_key entry =? 0.

Definition entry_is_deleted (entry : set_entry) : bool := se_key entry =? deleted_key.

Definition entry_is_present (entry : set_entry) : bool :=
  negb (se_key entry =? 0) && negb (se_key entry =? deleted_key).

Definition zero_entry : set_entry := SetEntry 0 0.

Definition _mesa_set_create (alloc : Z -> bool)
    (key_hash_function : option (Z -> Z)) (key_equals_function : Z -> Z -> bool)
    : option (option mesa_set) :=
  '(max_entries, size, rehash) ← array_get hash_sizes 0;
  Some (if alloc size then
    Some {| st_table := replicate (Z.to_nat size) zero_entry;
            st_key_hash_function := key_hash_function;
            st_key_equals_function := key_equals_function;
            st_size := size; st_rehash := rehash; st_max_entries := max_entries;
            st_size_index := 0; st_entries := 0; st_deleted_entries := 0 |}
  else None).

Definition set_table (s : mesa_set) (t : list set_entry) : mesa_set :=
  {| st_table := t;
     st_key_hash_function := st_key_hash_function s;
     st_key_equals_function := st_key_equals_function s;
     st_size := st_size s; st_rehash := st_rehash s;
     st_max_entries := st_max_entries s; st_size_index := st_size_index s;
     st_entries := st_entries s; st_deleted_entries := st_deleted_entries s |}.

Definition set_counts (s : mesa_set) (entries deleted : Z) : mesa_set :=
  {| st_table := st_table s;
     st_key_hash_function := st_key_hash_function s;
     st_key_equals_function := st_key_equals_function s;
     st_size := st_size s; st_rehash := st_rehash s;
     st_max_entries := st_max_entries s; st_size_index := st_size_index s;
     st_entries := entries; st_deleted_entries := deleted |}.

(** ** Iteration and destruction *)

(** The scanning loop of [_mesa_set_next_entry]. *)
Fixpoint next_entry_loop (fuel : nat) (s : mesa_set) (entry : Z) : option (option Z) :=
  match fuel with
  | O => None
  | S fuel' =>
    if entry =? st_size s then Some None else
    e ← array_get (st_table s) entry;
    if entry_is_present e then Some (Some entry)
    else next_entry_loop fuel' s (entry + 1)
  end.

Definition _mesa_set_next_entry (s : mesa_set) (entry : option Z) : option (option Z) :=
  let entry := match entry with None => 0 | Some i => i + 1 end in
  next_entry_loop (S (Z.to_nat (st_size s))) s entry.

(** [set_foreach]: the entries its body is run on, in order. *)
Fixpoint foreach_loop (fuel : nat) (s : mesa_set) (entry : option Z)
    : option (list Z) :=
  match fuel with
  | O => None
  | S fuel' =>
    next ← _mesa_set_next_entry s entry;
    match next with
    | None => Some []
    | Some i => rest ← foreach_loop fuel' s (Some i); Some (i :: rest)
    end
  end.

Definition set_foreach (s : mesa_set) : option (list Z) :=
  foreach_loop (S (Z.to_nat (st_size s))) s None.

(** The entries the delete callback is run on. *)
Definition _mesa_set_destroy (s : option mesa_set) (delete_function : bool)
    : option (list set_entry) :=
  match s with
  | None => Some []
  | Some s =>
    if delete_function then
      idxs ← set_foreach s; mapM (array_get (st_table s)) idxs
    else Some []
  end.

(** ** Search *)

Fixpoint set_search_loop (fuel : nat) (ht : mesa_set) (hash key hash_address : Z)
    : option (option Z) :=
  match fuel with
  | O => None
  | S fuel' =>
    entry ← array_get (st_table ht) hash_address;
    if entry_is_free entry then Some None
    else if entry_is_present entry && (se_hash entry =? hash)
            && st_key_equals_function ht key (se_key entry)
    then Some (Some hash_address)
    else
      let double_hash := u32 (1 + hash mod st_rehash ht) in
      let hash_address := u32 (hash_address + double_hash) mod st_size ht in
      if hash_address =? hash mod st_size ht then Some None
      else set_search_loop fuel' ht hash key hash_address
  end.

Definition set_search (ht : mesa_set) (hash key : Z) : option (option Z) :=
  set_search_loop (Z.to_nat (st_size ht)) ht hash key (hash mod st_size ht).

Definition _mesa_set_search (s : mesa_set) (key : Z) : option (option Z) :=
  f ← st_key_hash_function s; set_search s (f key) key.

Definition _mesa_set_search_pre_hashed (s : mesa_set) (hash key : Z) : option (option Z) :=
  match st_key_hash_function s with
  | Some f => if hash =? f key then set_search s hash key else None
  | None => set_search s hash key
  end.

(** ** Adding *)

Fixpoint set_add_loop (fuel : nat) (ht : mesa_set) (hash key hash_address : Z)
    (available_entry : option Z) : option (Z + option Z) :=
  match fuel with
  | O => None
  | S fuel' =>
    entry ← array_get (st_table ht) hash_address;
    let available_entry :=
      if negb (entry_is_present entry) then
        match available_entry with None => Some hash_address | a => a end
      else available_entry in
    if negb (entry_is_present entry) && entry_is_free entry
    then Some (inr available_entry)
    else if negb (entry_is_deleted entry) && (se_hash entry =? hash)
            && st_key_equals_function ht key (se_key entry)
    then Some (inl hash_address)
    else
      let double_hash := u32 (1 + hash mod st_rehash ht) in
      let hash_address := u32 (hash_address + double_hash) mod st_size ht in
      if hash_address =? hash mod st_size ht then Some (inr available_entry)
      else set_add_loop fuel' ht hash key hash_address available_entry
  end.

Definition set_rehash (add : mesa_set -> Z -> Z -> option (mesa_set * option Z))
    (alloc : Z -> bool) (ht : mesa_set) (new_size_index : Z) : option mesa_set :=
  if Z.of_nat (length hash_sizes) <=? new_size_index then Some ht else
  '(max_entries, size, rehash) ← array_get hash_sizes new_size_index;
  if negb (alloc size) then Some ht else
  let old_ht := ht in
  let ht :=
    {| st_table := replicate (Z.to_nat size) zero_entry;
       st_key_hash_function := st_key_hash_function ht;
       st_key_equals_function := st_key_equals_function ht;
       st_size := size; st_rehash := rehash; st_max_entries := max_entries;
       st_size_index := new_size_index; st_entries := 0; st_deleted_entries := 0 |} in
  foldM (fun ht entry =>
    if entry_is_present entry then
      '(ht, _) ← add ht (se_hash entry) (se_key entry); Some ht
    else Some ht) ht (st_table old_ht).

Definition set_add_here (ht : mesa_set) (hash key : Z) : option (mesa_set * option Z) :=
  r ← set_add_loop (Z.to_nat (st_size ht)) ht hash key (hash mod st_size ht) None;
  match r with
  | inl a =>
    entry ← array_get (st_table ht) a;
    t ← array_set (st_table ht) a (SetEntry (se_hash entry) key);
    Some (set_table ht t, Some a)
  | inr (Some a) =>
    entry ← array_get (st_table ht) a;
    let deleted_entries :=
      if entry_is_deleted entry then u32 (st_deleted_entries ht - 1)
      else st_deleted_entries ht in
    t ← array_set (st_table ht) a (SetEntry hash key);
    Some (set_counts (set_table ht t) (u32 (st_entries ht + 1)) deleted_entries, Some a)
  | inr None => Some (ht, None)
  end.

Fixpoint set_add_depth (depth : nat) (alloc : Z -> bool) (ht : mesa_set) (hash key : Z)
    : option (mesa_set * option Z) :=
  match depth with
  | O => None
  | S depth' =>
    ht ← (if st_max_entries ht <=? st_entries ht then
            set_rehash (set_add_depth depth' alloc) alloc ht (u32 (st_size_index ht + 1))
          else if st_max_entries ht <=? u32 (st_deleted_entries ht + st_entries ht) then
            set_rehash (set_add_depth depth' alloc) alloc ht (st_size_index ht)
          else Some ht);
    set_add_here ht hash key
  end.

(** As for the hash table, each nested rehash moves to a larger size. *)
Definition add_depth : nat := 33.

Definition set_add (alloc : Z -> bool) (ht : mesa_set) (hash key : Z)
    : option (mesa_set * option Z) :=
  set_add_depth add_depth alloc ht hash key.

Definition _mesa_set_add (alloc : Z -> bool) (s : mesa_set) (key : Z)
    : option (mesa_set * option Z) :=
  f ← st_key_hash_function s; set_add alloc s (f key) key.

Definition _mesa_set_add_pre_hashed (alloc : Z -> bool) (s : mesa_set) (hash key : Z)
    : option (mesa_set * option Z) :=
  match st_key_hash_function s with
  | Some f => if hash =? f key then set_add alloc s hash key else None
  | None => set_add alloc s hash key
  end.

(** ** Removal and random choice *)

Definition _mesa_set_remove (ht : mesa_set) (entry : option Z) : option mesa_set :=
  match entry with
  | None => Some ht
  | Some i =>
    e ← array_get (st_table ht) i;
    t ← array_set (st_table ht) i (SetEntry (se_hash e) deleted_key);
    Some (set_counts (set_table ht t) (u32 (st_entries ht - 1))
            (u32 (st_deleted_entries ht + 1)))
  end.

Fixpoint random_entry_loop (fuel : nat) (ht : mesa_set)
    (predicate : option (set_entry -> bool)) (entry stop : Z) : option (option Z) :=
  match fuel with
  | O => None
  | S fuel' =>
    if entry =? stop then Some None else
    e ← array_get (st_table ht) entry;
    if entry_is_present e && (match predicate with None => true | Some p => p e end)
    then Some (Some entry)
    else random_entry_loop fuel' ht predicate (entry + 1) stop
  end.

Definition _mesa_set_random_entry (rand : Z) (ht : mesa_set)
    (predicate : option (set_entry -> bool)) : option (option Z) :=
  let i := rand mod st_size ht in
  if st_entries ht =? 0 then Some None else
  r ← random_entry_loop (S (Z.to_nat (st_size ht))) ht predicate i (st_size ht);
  match r with
  | Some e => Some (Some e)
  | None => random_entry_loop (S (Z.to_nat (st_size ht))) ht predicate 0 i
  end.
End Set_.
