(* ===== verification/SetCorrect.v ===== *)
(** * Correctness of [src/util/set.c]

    A set is the hash table that stores NULL data under its keys: every
    operation of the set commutes with the embedding [to_ht], so the theorems on
    the hash table carry over, and a set refines a [gset]. *)
From stdpp Require Import gmap.
From S2P Require Import Prelude HashTable HashTableCorrect HashTableTheorems SetTable.

Lemma hash_sizes_same : SetTable.hash_sizes = HashTable.hash_sizes.
Proof. reflexivity. Qed.

Section Embedding.
Context (deleted_key : Z).

Definition to_entry (e : set_entry) : hash_entry := HashEntry (se_hash e) (se_key e) 0.

Definition to_ht (s : mesa_set) : hash_table :=
  {| ht_table := to_entry <$> st_table s;
     ht_key_hash_function := st_key_hash_function s;
     ht_key_equals_function := st_key_equals_function s;
     ht_deleted_key := deleted_key;
     ht_size := st_size s; ht_rehash := st_rehash s;
     ht_max_entries := st_max_entries s; ht_size_index := st_size_index s;
     ht_entries := st_entries s; ht_deleted_entries := st_deleted_entries s |}.

Lemma array_get_fmap {A B} (f : A -> B) (l : list A) i :
  array_get (f <$> l) i = f <$> array_get l i.
Proof. unfold array_get. destruct (0 <=? i); [apply list_lookup_fmap|done]. Qed.

Lemma array_set_fmap {A B} (f : A -> B) (l : list A) i x :
  array_set (f <$> l) i (f x) = fmap (M := list) f <$> array_set l i x.
Proof.
  unfold array_set. rewrite length_fmap. destruct (_ && _); [|done]. cbn.
  by rewrite list_fmap_insert.
Qed.

Lemma set_search_loop_ht n s hash key addr :
  set_search_loop deleted_key n s hash key addr
  = hash_table_search_loop n (to_ht s) hash key (hash mod st_size s) addr.
Proof.
  revert addr. induction n as [|n IH]; intros addr; [done|]. cbn.
  rewrite array_get_fmap. destruct (array_get (st_table s) addr) as [e|]; [|done]. cbn.
  rewrite IH. done.
Qed.

Lemma set_search_ht s hash key :
  set_search deleted_key s hash key = hash_table_search (to_ht s) hash key.
Proof. apply set_search_loop_ht. Qed.

Lemma set_add_loop_ht n s hash key addr av :
  set_add_loop deleted_key n s hash key addr av
  = hash_table_insert_loop n (to_ht s) hash key (hash mod st_size s) addr av.
Proof.
  revert addr av. induction n as [|n IH]; intros addr av; [done|]. cbn.
  rewrite array_get_fmap. destruct (array_get (st_table s) addr) as [e|]; [|done]. cbn.
  rewrite IH. done.
Qed.

Definition to_result (r : mesa_set * option Z) : hash_table * option Z := (to_ht r.1, r.2).

Lemma set_add_here_ht s hash key :
  hash_table_insert_here (to_ht s) hash key 0 = to_result <$> set_add_here deleted_key s hash key.
Proof.
  unfold hash_table_insert_here, set_add_here. rewrite set_add_loop_ht. cbn [ht_size to_ht].
  destruct (hash_table_insert_loop _ _ _ _ _ _ _) as [[a|[a|]]|]; cbn; [| |done|done].
  - rewrite array_get_fmap. destruct (array_get (st_table s) a) as [e|]; [|done]. cbn.
    change (HashEntry (se_hash e) key 0) with (to_entry (SetEntry (se_hash e) key)).
    rewrite array_set_fmap. destruct (array_set _ _ _); done.
  - rewrite array_get_fmap. destruct (array_get (st_table s) a) as [e|]; [|done]. cbn.
    change (HashEntry hash key 0) with (to_entry (SetEntry hash key)).
    rewrite array_set_fmap. destruct (array_set _ _ _); done.
Qed.

Definition len_ok (s : mesa_set) : Prop := Z.of_nat (length (st_table s)) = st_size s.

Lemma set_add_here_len s hash key s' r :
  len_ok s -> set_add_here deleted_key s hash key = Some (s', r) -> len_ok s'.
Proof.
  unfold len_ok, set_add_here. intros Hlen H.
  destruct (set_add_loop _ _ _ _ _ _ _) as [[a|[a|]]|]; cbn in H; try done;
    [..|by simplify_eq]; destruct (array_get _ _) as [e|]; try done; cbn in H;
    destruct (array_set _ _ _) as [t|] eqn:Ht; try done; cbn in H; simplify_eq/=;
    by rewrite (array_set_length _ _ _ _ Ht).
Qed.

(** Folding over the indices of the present entries is folding over the array
    and skipping the others. *)
Lemma foldM_present {S} (F : S -> hash_entry -> option S) (p : hash_entry -> bool)
    (t t1 t2 : list hash_entry) (h : S) :
  t = t1 ++ t2 ->
  foldM (fun h i => e ← array_get t i; F h e) h
    (List.filter (fun i => match array_get t i with Some e => p e | None => false end)
      (zrange (Z.of_nat (length t1)) (length t2)))
  = foldM (fun h e => if p e then F h e else Some h) h t2.
Proof.
  revert t1 h. induction t2 as [|e t2 IH]; intros t1 h Ht; [done|].
  cbn [length]. rewrite zrange_S. cbn [List.filter foldM].
  assert (array_get t (Z.of_nat (length t1)) = Some e) as He.
  { apply array_get_Some. split; [lia|]. rewrite Nat2Z.id, Ht. by rewrite list_lookup_middle. }
  specialize (IH (t1 ++ [e])). rewrite length_app in IH. cbn [length] in IH.
  replace (Z.of_nat (length t1 + 1)) with (Z.of_nat (length t1) + 1) in IH by lia.
  rewrite He. destruct (p e).
  - cbn [foldM]. rewrite He. obind. destruct (F h e); [|done]. obind.
    apply IH. by rewrite <- app_assoc.
  - apply IH. by rewrite <- app_assoc.
Qed.

(** What the recursive call of [set_rehash] is known to do. *)
Definition add_ht (add : mesa_set -> Z -> Z -> option (mesa_set * option Z))
    (insert : hash_table -> Z -> Z -> Z -> option (hash_table * option Z)) : Prop :=
  forall s hash key, len_ok s -> key <> 0 ->
    insert (to_ht s) hash key 0 = to_result <$> add s hash key /\
    forall s' r, add s hash key = Some (s', r) -> len_ok s'.

Lemma set_rehash_ht add insert alloc s idx :
  add_ht add insert -> len_ok s ->
  _mesa_hash_table_rehash insert alloc (to_ht s) idx
    = to_ht <$> set_rehash deleted_key add alloc s idx /\
  forall s', set_rehash deleted_key add alloc s idx = Some s' -> len_ok s'.
Proof.
  intros Hadd Hlen. unfold _mesa_hash_table_rehash, set_rehash. rewrite hash_sizes_same.
  destruct (Z.leb_spec (Z.of_nat (length HashTable.hash_sizes)) idx) as [Hge|Hlt];
    [split; [done|by intros s' [= <-]]|].
  destruct (array_get HashTable.hash_sizes idx) as [[[mx sz] rh]|] eqn:Hrow; [|done]. obind.
  pose proof (array_get_lt _ _ _ Hrow) as Hidx.
  destruct (alloc sz); [cbn [negb]|split; [done|by intros s' [= <-]]].
  set (s0 := MesaSet (replicate _ _) _ _ _ _ _ _ _ _).
  assert (len_ok s0) as Hlen0.
  { assert (0 <= sz). { destruct (Z.eq_dec idx 30) as [->|].
      - vm_compute in Hrow. simplify_eq. lia.
      - change (Z.of_nat (length HashTable.hash_sizes)) with 31 in Hlt.
        destruct (hash_sizes_ok idx (mx, sz, rh)) as [_ _ Hs _]; [lia|done|]. cbn in Hs. lia. }
    unfold len_ok, s0. cbn. rewrite length_replicate. lia. }
  rewrite hash_table_foreach_spec by (cbn; rewrite length_fmap; apply Hlen). obind.
  unfold present_from, present_ix. rewrite Z.sub_0_r.
  replace (Z.to_nat (ht_size (to_ht s))) with (length (ht_table (to_ht s)))
    by (cbn; rewrite length_fmap; unfold len_ok in Hlen; lia).
  rewrite (foldM_present (fun h e => '(h, _) ← insert h (he_hash e) (he_key e) (he_data e);
    Some h) (HashTable.entry_is_present (to_ht s)) _ []) by done.
  replace (HashTable _ _ _ _ _ _ _ _ _ _) with (to_ht s0)
    by (unfold to_ht; cbn; by rewrite fmap_replicate).
  cbn [ht_table to_ht]. clearbody s0. revert s0 Hlen0.
  induction (st_table s) as [|e t IH]; intros s0 Hlen0; [by split; [|intros s' [= <-]]|].
  cbn [fmap list_fmap foldM].
  change (HashTable.entry_is_present (to_ht s) (to_entry e))
    with (entry_is_present deleted_key e).
  destruct (entry_is_present deleted_key e) eqn:Hp; [|obind; by apply IH].
  destruct (Hadd s0 (se_hash e) (se_key e)) as [Heq Hl]; [done| |].
  { unfold entry_is_present in Hp. lia. }
  cbn [to_entry he_hash he_key he_data]. rewrite Heq.
  destruct (add s0 (se_hash e) (se_key e)) as [[s1 r]|]; [|done]. cbn.
  apply IH. by eapply Hl.
Qed.

(** The two insertions agree, level of nesting by level of nesting. *)
Lemma set_add_depth_ht depth alloc :
  add_ht (set_add_depth deleted_key depth alloc) (hash_table_insert_depth depth alloc).
Proof.
  induction depth as [|depth IH]; intros s hash key Hlen Hk; [done|].
  cbn [set_add_depth hash_table_insert_depth].
  replace (key =? 0) with false by lia.
  change (ht_max_entries (to_ht s)) with (st_max_entries s).
  change (ht_entries (to_ht s)) with (st_entries s).
  change (ht_deleted_entries (to_ht s)) with (st_deleted_entries s).
  change (ht_size_index (to_ht s)) with (st_size_index s).
  assert (forall idx,
    _mesa_hash_table_rehash (hash_table_insert_depth depth alloc) alloc (to_ht s) idx
      = to_ht <$> set_rehash deleted_key (set_add_depth deleted_key depth alloc) alloc s idx /\
    forall s', set_rehash deleted_key (set_add_depth deleted_key depth alloc) alloc s idx
      = Some s' -> len_ok s') as Hre by (intros; by apply set_rehash_ht).
  set (re := if st_max_entries s <=? st_entries s then
      set_rehash deleted_key (set_add_depth deleted_key depth alloc) alloc s
        (u32 (st_size_index s + 1))
    else if st_max_entries s <=? u32 (st_deleted_entries s + st_entries s) then
      set_rehash deleted_key (set_add_depth deleted_key depth alloc) alloc s (st_size_index s)
    else Some s).
  assert (forall s', re = Some s' -> len_ok s') as Hl.
  { subst re. intros s'. repeat case_match; [apply Hre..|by intros [= <-]]. }
  assert ((if st_max_entries s <=? st_entries s then
      _mesa_hash_table_rehash (hash_table_insert_depth depth alloc) alloc (to_ht s)
        (u32 (st_size_index s + 1))
    else if st_max_entries s <=? u32 (st_deleted_entries s + st_entries s) then
      _mesa_hash_table_rehash (hash_table_insert_depth depth alloc) alloc (to_ht s)
        (st_size_index s)
    else Some (to_ht s)) = to_ht <$> re) as ->.
  { subst re. repeat case_match; [apply Hre..|done]. }
  clear Hre. clearbody re. destruct re as [s1|]; [|done]. cbn [fmap option_fmap option_map]. obind.
  split; [apply set_add_here_ht|]. intros s' r. by apply set_add_here_len, Hl.
Qed.
End Embedding.

(** ** Refinement to a finite set of pointers *)

Inductive set_op := SetAdd (key : Z) | SetSearch (key : Z) | SetRemove (key : Z).

Definition set_op_key (op : set_op) : Z :=
  match op with SetAdd k | SetSearch k | SetRemove k => k end.

(** A client's call; the result is whether a non-NULL entry came back.  A
    removal removes the entry that a search for the key returns. *)
Definition set_run_op (dk : Z) (alloc : Z -> bool) (s : mesa_set) (op : set_op)
    : option (mesa_set * bool) :=
  match op with
  | SetAdd k => '(s, r) ← _mesa_set_add dk alloc s k; Some (s, bool_decide (is_Some r))
  | SetSearch k => r ← _mesa_set_search dk s k; Some (s, bool_decide (is_Some r))
  | SetRemove k =>
    r ← _mesa_set_search dk s k; s ← _mesa_set_remove dk s r;
    Some (s, bool_decide (is_Some r))
  end.

Fixpoint set_run_ops (dk : Z) (alloc : Z -> bool) (s : mesa_set) (ops : list set_op)
    : option (list bool) :=
  match ops with
  | [] => Some []
  | op :: ops =>
    '(s, r) ← set_run_op dk alloc s op; rs ← set_run_ops dk alloc s ops; Some (r :: rs)
  end.

Definition set_spec_op (X : gset Z) (op : set_op) : gset Z * bool :=
  match op with
  | SetAdd k => ({[k]} ∪ X, true)
  | SetSearch k => (X, bool_decide (k ∈ X))
  | SetRemove k => (X ∖ {[k]}, bool_decide (k ∈ X))
  end.

Fixpoint set_spec_ops (X : gset Z) (ops : list set_op) : list bool :=
  match ops with
  | [] => []
  | op :: ops => let '(X, r) := set_spec_op X op in r :: set_spec_ops X ops
  end.

Section Refinement.
Context (dk : Z) (Hdk : dk <> 0).

Record set_rep (n : Z) (X : gset Z) (s : mesa_set) : Prop := {
  sr_wf : ptr_wf (to_ht dk s);
  sr_load : ht_load_ok (to_ht dk s);
  sr_entries : st_entries s <= n;
  sr_hash : st_key_hash_function s = Some _mesa_hash_pointer;
  sr_maps : forall k, (exists d, ptr_maps (to_ht dk s) k d) <-> k ∈ X }.

Lemma set_rep_len n X s : set_rep n X s -> len_ok s.
Proof.
  intros H. pose proof (sh_length _ (wf_shape _ _ _ (sr_wf _ _ _ H))) as Hl. cbn in Hl.
  by rewrite length_fmap in Hl.
Qed.

Lemma set_create_rep alloc :
  (forall n, alloc n = true) ->
  exists s, _mesa_set_create alloc (Some _mesa_hash_pointer) _mesa_key_pointer_equal
              = Some (Some s) /\ set_rep 0 ∅ s.
Proof.
  intros Hal. unfold _mesa_set_create. rewrite hash_sizes_same.
  change (array_get HashTable.hash_sizes 0) with (Some (2, 5, 3)). cbn. rewrite Hal.
  eexists. split; [done|].
  match goal with |- set_rep _ _ ?s => assert (ptr_wf (to_ht dk s)) as Hwf by
    (apply (fresh_wf _ _ 0); [lia|done..|]; repeat split) end.
  split; [done|unfold ht_load_ok; cbn; lia|cbn; lia|done|].
  intros k. split; [|set_solver]. intros (d & i & e & [He Hp] & _).
  unfold entry_at, array_get in He. cbn in He. destruct (0 <=? i); [|done].
  destruct (Z.to_nat i) as [|[|[|[|[|?]]]]]; cbn in He; simplify_eq/=; done.
Qed.

Lemma set_add_rep alloc n X s k :
  (forall n, alloc n = true) -> k <> 0 -> k <> dk -> n < 2 ^ 30 -> set_rep n X s ->
  exists s' a, _mesa_set_add dk alloc s k = Some (s', Some a)
               /\ set_rep (n + 1) ({[k]} ∪ X) s'.
Proof.
  intros Hal Hk0 Hkd Hn Hr. pose proof (set_rep_len _ _ _ Hr) as Hlen.
  destruct Hr as [Hwf Hload He Hhf Hm]. unfold _mesa_set_add. rewrite Hhf. obind.
  destruct (set_add_depth_ht dk add_depth alloc s (_mesa_hash_pointer k) k Hlen Hk0) as [Heq _].
  destruct (insert_load _mesa_hash_pointer _mesa_key_pointer_equal 32 alloc (to_ht dk s) k 0)
    as (t' & a & Hins & [Iw [Ihf Idk] Is _] & Hload' & He'); [lia|done..|cbn;lia|done|done|].
  change (S 32) with add_depth in Hins. rewrite Hins in Heq. clear Hins.
  unfold set_add. destruct (set_add_depth _ _ _ _ _ _) as [[s' r]|]; [|done].
  cbn [fmap option_fmap option_map to_result fst snd] in Heq. injection Heq as -> <-.
  exists s', a. split; [done|]. destruct (Is a eq_refl) as [_ Hmaps]. cbn in He', Ihf.
  split; [done|done|cbn; lia|by rewrite Ihf|].
  intros k'. setoid_rewrite Hmaps. unfold _mesa_key_pointer_equal.
  rewrite elem_of_union, elem_of_singleton.
  destruct (Z.eqb_spec k k') as [<-|Hne]; [naive_solver|].
  rewrite Hm. naive_solver.
Qed.

Lemma set_search_rep n X s k :
  set_rep n X s ->
  exists r, _mesa_set_search dk s k = Some r /\
  match r with
  | Some i => (exists e, present_at (to_ht dk s) i e /\ he_key e = k) /\ k ∈ X
  | None => ~ k ∈ X
  end.
Proof.
  intros [Hwf Hload He Hhf Hm]. unfold _mesa_set_search. rewrite Hhf. obind.
  rewrite set_search_ht.
  destruct (hash_table_search_spec _ _ _ k Hwf) as (r & Hr & Hres).
  exists r. split; [done|]. destruct r as [i|].
  - destruct Hres as (e & Hp & Hk%Z.eqb_eq). split; [by exists e|].
    apply Hm. exists (he_data e), i, e. by rewrite Hk, keq_refl.
  - intros [d (i & e & Hp & Hk & _)]%Hm. by rewrite (Hres i e Hp) in Hk.
Qed.

Lemma set_remove_ht s i :
  _mesa_hash_table_remove (to_ht dk s) (Some i) = to_ht dk <$> _mesa_set_remove dk s (Some i).
Proof.
  cbn. rewrite array_get_fmap. destruct (array_get (st_table s) i) as [e|]; [|done]. cbn.
  change (HashEntry (se_hash e) dk 0) with (to_entry (SetEntry (se_hash e) dk)).
  rewrite array_set_fmap. destruct (array_set _ _ _); done.
Qed.

Lemma set_remove_rep n X s i e :
  present_at (to_ht dk s) i e -> set_rep n X s ->
  exists s', _mesa_set_remove dk s (Some i) = Some s' /\ set_rep n (X ∖ {[he_key e]}) s'.
Proof.
  intros Hp [Hwf Hload He Hhf Hm].
  destruct (remove_spec _mesa_hash_pointer _mesa_key_pointer_equal _ i e Hwf Hp)
    as (t' & Hrem & Hwf' & [Fh Fd] & Hix & Hen & Hde & Hmaps).
  rewrite set_remove_ht in Hrem.
  destruct (_mesa_set_remove dk s (Some i)) as [s'|]; [|done].
  cbn [fmap option_fmap option_map] in Hrem. injection Hrem as <-.
  exists s'. split; [done|]. cbn in Hen, Hde, Fh.
  destruct (shape_same_index (to_ht dk s') (to_ht dk s)) as [Hmx _];
    [apply Hwf'|apply Hwf|done|]. cbn in Hmx.
  unfold ht_load_ok in Hload. cbn in Hload.
  split; [done|unfold ht_load_ok; cbn; lia|lia|congruence|].
  intros k. setoid_rewrite Hmaps. rewrite elem_of_difference, elem_of_singleton, <- Hm.
  unfold _mesa_key_pointer_equal. destruct (Z.eqb_spec k (he_key e)); naive_solver.
Qed.

Lemma set_run_ops_spec alloc ops : forall n X s,
  (forall n, alloc n = true) ->
  Forall (fun op => set_op_key op <> 0 /\ set_op_key op <> dk) ops ->
  0 <= n -> n + Z.of_nat (length ops) < 2 ^ 30 -> set_rep n X s ->
  set_run_ops dk alloc s ops = Some (set_spec_ops X ops).
Proof.
  induction ops as [|op ops IH]; intros n X s Hal Hkeys Hn0 Hn Hrep; [done|].
  inversion_clear Hkeys as [|? ? [Hk Hk'] Hks]. cbn [length] in Hn.
  destruct op as [k|k|k]; cbn [set_run_ops set_spec_ops set_run_op set_spec_op set_op_key] in *.
  - destruct (set_add_rep alloc n X s k) as (s' & a & -> & Hrep'); [done..|lia|done|].
    cbn. rewrite (IH (n + 1) _ s' Hal Hks ltac:(lia) ltac:(lia) Hrep'). done.
  - destruct (set_search_rep n X s k Hrep) as (r & -> & Hr). cbn.
    rewrite (IH n _ s Hal Hks ltac:(lia) ltac:(lia) Hrep). cbn. do 2 f_equal.
    destruct r; [destruct Hr|]; rewrite ?bool_decide_true, ?bool_decide_false by
      (done || apply is_Some_None); done.
  - destruct (set_search_rep n X s k Hrep) as (r & -> & Hr). obind. destruct r as [i|].
    + destruct Hr as [(e & Hp & <-) HX].
      destruct (set_remove_rep n X s i e Hp Hrep) as (s' & -> & Hrep'). cbn.
      rewrite (IH n _ s' Hal Hks ltac:(lia) ltac:(lia) Hrep'). cbn.
      by rewrite !bool_decide_true by done.
    + cbn. assert (X ∖ {[k]} = X) as -> by set_solver.
      rewrite (IH n _ s Hal Hks ltac:(lia) ltac:(lia) Hrep). cbn.
      by rewrite (bool_decide_false (k ∈ X)) by done.
Qed.
End Refinement.

(** C8: set_add is hash_table_insert with NULL data except for the key NULL: on every set whose array
    has the recorded size, whatever the allocator does, for a key other than NULL the two functions
    return the same slot (or fail alike) and leave the same table, field by
    field; for NULL hash_table_insert fails its assertion, which set_add does not have.  This is the only
    difference between the two copies of the insertion code. *)
Theorem set_add_is_hash_table_insert deleted_key alloc s hash key :
  Z.of_nat (length (st_table s)) = st_size s ->
  hash_table_insert alloc (to_ht deleted_key s) hash key 0
  = if key =? 0 then None
    else (fun r => (to_ht deleted_key r.1, r.2)) <$> set_add deleted_key alloc s hash key.
Proof.
  intros Hlen. destruct (Z.eqb_spec key 0) as [->|Hk]; [done|].
  by apply (set_add_depth_ht deleted_key add_depth alloc s hash key).
Qed.

Definition set0 : mesa_set :=
  {| st_table := [SetEntry 17 64; SetTable.zero_entry; SetTable.zero_entry;
                  SetTable.zero_entry; SetTable.zero_entry];
     st_key_hash_function := None; st_key_equals_function := _mesa_key_pointer_equal;
     st_size := 5; st_rehash := 3; st_max_entries := 2; st_size_index := 0;
     st_entries := 1; st_deleted_entries := 0 |}.

Lemma set_add_is_hash_table_insert_witness :
  hash_table_insert (fun _ => true) (to_ht 8 set0) 17 128 0
  = if 128 =? 0 then None else (fun r => (to_ht 8 r.1, r.2)) <$> set_add 8 (fun _ => true) set0 17 128.
Proof.
  apply (set_add_is_hash_table_insert 8 (fun _ => true) set0 17 128). reflexivity.
Defined.

(** Without the assertion, NULL is added to a slot that stays free: the set counts it and does not find it. *)
Example null_added_not_found :
  (s ← _mesa_set_create (fun _ => true) (Some _mesa_hash_pointer) _mesa_key_pointer_equal; s ← s;
   '(s, added) ← _mesa_set_add 8 (fun _ => true) s 0; found ← _mesa_set_search 8 s 0;
   Some (added, st_entries s, found)) = Some (Some 0, 1, None).
Proof. vm_compute. reflexivity. Qed.

(** C9: starting from a fresh set keyed by pointers, every sequence of adds,
    searches and removals (fewer than 2^30 of them, with memory available, of
    keys other than NULL and the tombstone, which set.c neither checks nor can store) returns a non-NULL entry exactly
    when a finite set says the key is there; every operation terminates and
    stays inside the table. *)
Theorem set_refines_gset deleted_key alloc ops :
  deleted_key <> 0 -> (forall n, alloc n = true) ->
  Forall (fun op => set_op_key op <> 0 /\ set_op_key op <> deleted_key) ops ->
  Z.of_nat (length ops) < 2 ^ 30 ->
  exists s, _mesa_set_create alloc (Some _mesa_hash_pointer) _mesa_key_pointer_equal
              = Some (Some s) /\
    set_run_ops deleted_key alloc s ops = Some (set_spec_ops ∅ ops).
Proof.
  intros Hd Hal Hks Hlen. destruct (set_create_rep deleted_key Hd alloc Hal) as (s & Hs & Hrep).
  exists s. split; [done|]. eapply (set_run_ops_spec deleted_key Hd alloc ops 0); (done || lia).
Qed.

Lemma set_refines_gset_witness :
  exists s, _mesa_set_create (fun _ => true) (Some _mesa_hash_pointer) _mesa_key_pointer_equal
              = Some (Some s) /\
    set_run_ops 8 (fun _ => true) s [SetAdd 64; SetAdd 128; SetRemove 64; SetSearch 64; SetSearch 128]
    = Some (set_spec_ops ∅ [SetAdd 64; SetAdd 128; SetRemove 64; SetSearch 64; SetSearch 128]).
Proof.
  apply (set_refines_gset 8 (fun _ => true)); [lia|done| |cbn; lia].
  repeat constructor; cbn; lia.
Defined.
