(* ===== verification/Bitset.v ===== *)
(** * The bit sets of [src/util/bitset.h]

    A bit set is an array of 32-bit words.  The macros are modelled on the
    words; [bmem] is the set a word array stands for, and the lemmas describe
    every macro through it. *)
From S2P Require Import Prelude.

Definition BITSET_WORDBITS : Z := 32.
Definition BITSET_WORDS (bits : Z) : Z := u32 (bits + BITSET_WORDBITS - 1) / BITSET_WORDBITS.
Definition BITSET_BITWORD (b : Z) : Z := b / BITSET_WORDBITS.
Definition BITSET_BIT (b : Z) : Z := Z.shiftl 1 (b mod BITSET_WORDBITS).

Definition BITSET_TEST (x : list Z) (b : Z) : option bool :=
  w ← array_get x (BITSET_BITWORD b); Some (negb (Z.land w (BITSET_BIT b) =? 0)).

Definition BITSET_SET (x : list Z) (b : Z) : option (list Z) :=
  w ← array_get x (BITSET_BITWORD b); array_set x (BITSET_BITWORD b) (Z.lor w (BITSET_BIT b)).

Definition BITSET_CLEAR (x : list Z) (b : Z) : option (list Z) :=
  w ← array_get x (BITSET_BITWORD b);
  array_set x (BITSET_BITWORD b) (Z.land w (u32 (Z.lnot (BITSET_BIT b)))).

(** [ffs]: one plus the number of the lowest bit set, 0 if there is none. *)
Fixpoint ffs_from (fuel : nat) (w i : Z) : Z :=
  match fuel with
  | O => 0
  | S fuel' => if Z.testbit w i then i + 1 else ffs_from fuel' w (i + 1)
  end.
Definition ffs (w : Z) : Z := ffs_from 32 w 0.

Fixpoint bitset_ffs_loop (fuel : nat) (x : list Z) (n i : Z) : option Z :=
  match fuel with
  | O => None
  | S fuel' =>
    if i <? n then
      w ← array_get x i;
      if negb (w =? 0) then Some (ffs w + BITSET_WORDBITS * i)
      else bitset_ffs_loop fuel' x n (i + 1)
    else Some 0
  end.
Definition bitset_ffs (x : list Z) (n : Z) : option Z :=
  bitset_ffs_loop (S (Z.to_nat n)) x n 0.

(** The word-skipping loop of [__bitset_next_set]: the new word number and the
    new [tmp], or nothing when the words are used up. *)
Fixpoint next_set_words (fuel : nat) (word tmp : Z) (set : list Z) (size : Z)
    : option (option (Z * Z)) :=
  match fuel with
  | O => None
  | S fuel' =>
    if tmp =? 0 then
      let word := u32 (word + 1) in
      if BITSET_WORDS size <=? word then Some None else
      tmp ← array_get set word;
      next_set_words fuel' word tmp set size
    else Some (Some (word, tmp))
  end.

(** [__bitset_next_set]: the next member and the new value of [tmp]. *)
Definition bitset_next_set (i tmp : Z) (set : list Z) (size : Z) : option (Z * Z) :=
  r ← next_set_words (S (Z.to_nat (BITSET_WORDS size))) (BITSET_BITWORD i) tmp set size;
  match r with
  | None => Some (size, 0)
  | Some (word, tmp) =>
    let bit := ffs tmp - 1 in
    Some (u32 (word * BITSET_WORDBITS + bit), Z.land tmp (u64 (Z.lnot (Z.shiftl 1 bit))))
  end.

(** [BITSET_FOREACH_SET] with a body that may change the set it iterates over:
    [get] reads the words of the set out of the loop's state. *)
Fixpoint bitset_foreach_loop {St} (fuel : nat) (get : St -> option (list Z))
    (body : St -> Z -> option St) (size i tmp : Z) (st : St) : option St :=
  match fuel with
  | O => None
  | S fuel' =>
    set ← get st;
    '(i, tmp) ← bitset_next_set i tmp set size;
    if i <? size then
      st ← body st i; bitset_foreach_loop fuel' get body size i tmp st
    else Some st
  end.
Definition BITSET_FOREACH_SET {St} (get : St -> option (list Z))
    (body : St -> Z -> option St) (size : Z) (st : St) : option St :=
  set ← get st;
  tmp ← array_get set 0;
  bitset_foreach_loop (S (Z.to_nat (BITSET_WORDBITS * BITSET_WORDS size))) get body size 0 tmp st.

(** ** The set of a word array *)

Definition bmem (x : list Z) (b : Z) : bool :=
  match array_get x (BITSET_BITWORD b) with
  | Some w => Z.testbit w (b mod BITSET_WORDBITS)
  | None => false
  end.

(** An array for [n] bits: the right number of words, all of them 32 bits wide. *)
Definition bs_ok (n : Z) (x : list Z) : Prop :=
  Z.of_nat (length x) = BITSET_WORDS n /\ Forall (fun w => 0 <= w < 2 ^ 32) x.

Lemma words_bounds n : 0 <= n < 2 ^ 31 -> n <= 32 * BITSET_WORDS n < n + 32.
Proof.
  intros H. unfold BITSET_WORDS, BITSET_WORDBITS. rewrite u32_small by lia.
  pose proof (Z.div_mod (n + 32 - 1) 32). pose proof (Z.mod_pos_bound (n + 32 - 1) 32). lia.
Qed.

Lemma bs_word n x b : 0 <= n < 2 ^ 31 -> bs_ok n x -> 0 <= b < n ->
  exists w, array_get x (BITSET_BITWORD b) = Some w /\ 0 <= w < 2 ^ 32.
Proof.
  intros Hn [Hl Hw] Hb. destruct (array_get_is_Some x (BITSET_BITWORD b)) as [w Hget].
  - pose proof (words_bounds n Hn). rewrite Hl. unfold BITSET_BITWORD, BITSET_WORDBITS.
    split; [apply Z.div_pos; lia|]. apply Z.div_lt_upper_bound; lia.
  - exists w. split; [done|]. apply array_get_Some in Hget as [_ Hget].
    by eapply Forall_lookup_1 in Hw.
Qed.

Lemma land_bit w k : 0 <= k -> negb (Z.land w (Z.shiftl 1 k) =? 0) = Z.testbit w k.
Proof.
  intros Hk. rewrite Z.shiftl_1_l.
  destruct (Z.testbit w k) eqn:E.
  - destruct (Z.eqb_spec (Z.land w (2 ^ k)) 0) as [H|H]; [|done]. exfalso.
    assert (Z.testbit (Z.land w (2 ^ k)) k = true) as Ht
      by (rewrite Z.land_spec, E, Z.pow2_bits_true by lia; done).
    by rewrite H, Z.bits_0 in Ht.
  - replace (Z.land w (2 ^ k)) with 0; [done|]. symmetry. apply Z.bits_inj'. intros i Hi.
    rewrite Z.land_spec, Z.bits_0. destruct (Z.eqb_spec i k) as [->|Hne].
    + by rewrite E.
    + rewrite Z.pow2_bits_false by lia. apply andb_false_r.
Qed.

Lemma testbit_set w k i : 0 <= k -> 0 <= i ->
  Z.testbit (Z.lor w (Z.shiftl 1 k)) i = (i =? k) || Z.testbit w i.
Proof.
  intros Hk Hi. rewrite Z.lor_spec, Z.shiftl_1_l. destruct (Z.eqb_spec i k) as [->|Hne].
  - rewrite Z.pow2_bits_true by lia. apply orb_true_r.
  - rewrite Z.pow2_bits_false by lia. apply orb_false_r.
Qed.

Lemma lor_bound n a b : 0 <= n -> 0 <= a < 2 ^ n -> 0 <= b < 2 ^ n -> 0 <= Z.lor a b < 2 ^ n.
Proof.
  intros Hn Ha Hb. assert (Z.lor a b = Z.lor a b mod 2 ^ n) as ->.
  - rewrite <- Z.land_ones, Z.land_lor_distr_l, !Z.land_ones, !Z.mod_small by done. done.
  - apply Z.mod_pos_bound. apply Z.pow_pos_nonneg; lia.
Qed.

Lemma land_bound n a b : 0 <= n -> 0 <= a < 2 ^ n -> 0 <= Z.land a b < 2 ^ n.
Proof.
  intros Hn Ha. assert (Z.land a b = Z.land a b mod 2 ^ n) as ->.
  - rewrite <- Z.land_ones, <- Z.land_assoc, (Z.land_comm b), Z.land_assoc, Z.land_ones,
      Z.mod_small by done. done.
  - apply Z.mod_pos_bound. apply Z.pow_pos_nonneg; lia.
Qed.

Lemma BITSET_TEST_spec n x b : 0 <= n < 2 ^ 31 -> bs_ok n x -> 0 <= b < n ->
  BITSET_TEST x b = Some (bmem x b).
Proof.
  intros Hn Hx Hb. destruct (bs_word n x b Hn Hx Hb) as (w & Hw & _).
  unfold BITSET_TEST, bmem. rewrite Hw. cbn. unfold BITSET_BIT.
  rewrite land_bit; [done|]. apply Z.mod_pos_bound. done.
Qed.

Lemma bitword_eq b b' : 0 <= b -> 0 <= b' ->
  (BITSET_BITWORD b =? BITSET_BITWORD b')
    && (b' mod BITSET_WORDBITS =? b mod BITSET_WORDBITS) = (b =? b').
Proof.
  intros Hb Hb'. unfold BITSET_BITWORD, BITSET_WORDBITS.
  pose proof (Z.div_mod b 32). pose proof (Z.div_mod b' 32).
  destruct (Z.eqb_spec b b') as [->|Hne]; [by rewrite !Z.eqb_refl|]. lia.
Qed.

Lemma BITSET_SET_spec n x b : 0 <= n < 2 ^ 31 -> bs_ok n x -> 0 <= b < n ->
  exists x', BITSET_SET x b = Some x' /\ bs_ok n x' /\
    forall b', 0 <= b' -> bmem x' b' = (b =? b') || bmem x b'.
Proof.
  intros Hn Hx Hb. destruct (bs_word n x b Hn Hx Hb) as (w & Hw & Hrange).
  unfold BITSET_SET. rewrite Hw. obind.
  assert (0 <= b mod 32 < 32) by (apply Z.mod_pos_bound; lia).
  set (v := Z.lor _ _). pose proof (array_get_lt _ _ _ Hw) as Hlt.
  rewrite array_set_Some by done. eexists. split; [done|].
  assert (array_set x (BITSET_BITWORD b) v = Some (<[Z.to_nat (BITSET_BITWORD b) := v]> x)) as Hset
    by by apply array_set_Some.
  destruct Hx as [Hl HF]. split.
  - split; [by rewrite length_insert|]. apply Forall_insert; [done|].
    apply lor_bound; [lia|done|]. unfold BITSET_BIT. rewrite Z.shiftl_1_l.
    split; [apply Z.pow_nonneg; lia|apply Z.pow_lt_mono_r; unfold BITSET_WORDBITS; lia].
  - intros b' Hb'. unfold bmem. rewrite (array_get_set _ _ _ (BITSET_BITWORD b') _ Hset).
    rewrite <- (bitword_eq b b') by lia.
    destruct (Z.eqb_spec (BITSET_BITWORD b) (BITSET_BITWORD b')) as [Heq|Hne]; [|done].
    rewrite <- Heq, Hw. cbn [andb]. apply testbit_set; apply Z.mod_pos_bound; done.
Qed.

Lemma bs_ok_zero n : 0 <= n < 2 ^ 31 ->
  bs_ok n (replicate (Z.to_nat (BITSET_WORDS n)) 0).
Proof.
  intros Hn. pose proof (words_bounds n Hn). split.
  - rewrite length_replicate. lia.
  - apply Forall_replicate. lia.
Qed.

Lemma bmem_zero k b : bmem (replicate k 0) b = false.
Proof.
  unfold bmem, array_get. destruct (0 <=? _); [|done].
  destruct (replicate k 0 !! _) as [w|] eqn:E; [|done].
  apply lookup_replicate in E as [-> _]. apply Z.bits_0.
Qed.
