(* ===== verification/Bytes.v ===== *)
(** * Memory as bytes

    A buffer is a list of bytes with little-endian words; an access outside it gives [None]. *)
From S2P Require Import Prelude.

(** ** Accesses *)

Definition read8 (m : list Z) (o : Z) : option Z := array_get m o.

Definition read16 (m : list Z) (o : Z) : option Z :=
  a ← array_get m o; b ← array_get m (o + 1); Some (a + 256 * b).

Definition read32 (m : list Z) (o : Z) : option Z :=
  a ← read16 m o; b ← read16 m (o + 2); Some (a + 65536 * b).

(** The four bytes of a word. *)
Definition le32 (x : Z) : list Z := (fun i => (x / 2 ^ (8 * i)) mod 256) <$> [0; 1; 2; 3].

(** Words of 64 bits. *)
Definition le64 (x : Z) : list Z := le32 x ++ le32 (x / 2 ^ 32).

Definition read64 (m : list Z) (o : Z) : option Z :=
  a ← read32 m o; b ← read32 m (o + 4); Some (a + 2 ^ 32 * b).

(** [n] bytes from [o] on. *)
Definition read_bytes (m : list Z) (o n : Z) : option (list Z) :=
  if (0 <=? o) && (0 <=? n) && (o + n <=? Z.of_nat (length m))
  then Some (take (Z.to_nat n) (drop (Z.to_nat o) m)) else None.

Definition write_bytes (m : list Z) (o : Z) (bs : list Z) : option (list Z) :=
  if (0 <=? o) && (o + Z.of_nat (length bs) <=? Z.of_nat (length m))
  then Some (take (Z.to_nat o) m ++ bs ++ drop (Z.to_nat o + length bs) m) else None.

Definition write8 (m : list Z) (o x : Z) : option (list Z) := write_bytes m o [x].
Definition write32 (m : list Z) (o x : Z) : option (list Z) := write_bytes m o (le32 x).

Definition memcpy (dst : list Z) (d : Z) (src : list Z) (s n : Z) : option (list Z) :=
  bs ← read_bytes src s n; write_bytes dst d bs.

(** ** Lemmas *)

Lemma array_get_app_r {A} (l1 l2 : list A) o :
  0 <= o -> array_get (l1 ++ l2) (Z.of_nat (length l1) + o) = array_get l2 o.
Proof.
  intros Ho. unfold array_get. destruct (Z.leb_spec 0 (Z.of_nat (length l1) + o)); [|lia].
  destruct (Z.leb_spec 0 o); [|lia]. rewrite lookup_app_r by lia. f_equal. lia.
Qed.

Lemma array_get_app_l {A} (l1 l2 : list A) o :
  o < Z.of_nat (length l1) -> array_get (l1 ++ l2) o = array_get l1 o.
Proof.
  intros Ho. unfold array_get. destruct (Z.leb_spec 0 o); [|done]. apply lookup_app_l. lia.
Qed.

(** Reading in the middle part. *)
Lemma read8_mid (l1 p l2 : list Z) o :
  0 <= o < Z.of_nat (length p) -> read8 (l1 ++ p ++ l2) (Z.of_nat (length l1) + o) = read8 p o.
Proof. intros Ho. unfold read8. rewrite array_get_app_r, array_get_app_l; [done|lia|lia]. Qed.

Lemma read16_mid (l1 p l2 : list Z) o :
  0 <= o -> o + 2 <= Z.of_nat (length p) ->
  read16 (l1 ++ p ++ l2) (Z.of_nat (length l1) + o) = read16 p o.
Proof.
  intros H1 H2. unfold read16. rewrite <- Z.add_assoc.
  rewrite !array_get_app_r, !array_get_app_l; [done|lia..].
Qed.

Lemma read32_mid (l1 p l2 : list Z) o :
  0 <= o -> o + 4 <= Z.of_nat (length p) ->
  read32 (l1 ++ p ++ l2) (Z.of_nat (length l1) + o) = read32 p o.
Proof.
  intros H1 H2. unfold read32. rewrite <- Z.add_assoc, !read16_mid; [done|lia..].
Qed.

Lemma read8_is_Some m o : 0 <= o < Z.of_nat (length m) -> exists x, read8 m o = Some x.
Proof. apply array_get_is_Some. Qed.

Lemma read16_is_Some m o : 0 <= o -> o + 2 <= Z.of_nat (length m) -> exists x, read16 m o = Some x.
Proof.
  intros H1 H2. unfold read16. destruct (array_get_is_Some m o) as [a ->]; [lia|].
  destruct (array_get_is_Some m (o + 1)) as [b ->]; [lia|]. cbn. eauto.
Qed.

Lemma read32_is_Some m o : 0 <= o -> o + 4 <= Z.of_nat (length m) -> exists x, read32 m o = Some x.
Proof.
  intros H1 H2. unfold read32. destruct (read16_is_Some m o) as [a ->]; [lia|lia|].
  destruct (read16_is_Some m (o + 2)) as [b ->]; [lia|lia|]. cbn. eauto.
Qed.

(** Bytes are in range. *)
Definition is_byte (x : Z) : Prop := 0 <= x < 256.

Lemma read8_byte m o x : Forall is_byte m -> read8 m o = Some x -> is_byte x.
Proof. intros H [_ Hx]%array_get_Some. by eapply Forall_lookup_1. Qed.

Lemma read16_range m o x : Forall is_byte m -> read16 m o = Some x -> 0 <= x < 2 ^ 16.
Proof.
  unfold read16. intros H Hr.
  destruct (array_get m o) as [a|] eqn:Ea; [|discriminate Hr]. cbn in Hr.
  destruct (array_get m (o + 1)) as [b|] eqn:Eb; [|discriminate Hr]. cbn in Hr. injection Hr as <-.
  pose proof (read8_byte _ _ _ H Ea). pose proof (read8_byte _ _ _ H Eb). unfold is_byte in *. lia.
Qed.

Lemma read32_range m o x : Forall is_byte m -> read32 m o = Some x -> 0 <= x < 2 ^ 32.
Proof.
  unfold read32. intros H Hr.
  destruct (read16 m o) as [a|] eqn:Ea; [|discriminate Hr]. cbn in Hr.
  destruct (read16 m (o + 2)) as [b|] eqn:Eb; [|discriminate Hr]. cbn in Hr. injection Hr as <-.
  apply read16_range in Ea, Eb; [lia|done|done].
Qed.

(** ** Stores *)

Lemma write_bytes_Some m o bs :
  0 <= o -> o + Z.of_nat (length bs) <= Z.of_nat (length m) ->
  write_bytes m o bs = Some (take (Z.to_nat o) m ++ bs ++ drop (Z.to_nat o + length bs) m).
Proof.
  intros H1 H2. unfold write_bytes. destruct (Z.leb_spec 0 o); [|lia].
  destruct (Z.leb_spec (o + Z.of_nat (length bs)) (Z.of_nat (length m))); [done|lia].
Qed.

Lemma write_bytes_inv m o bs m' :
  write_bytes m o bs = Some m' ->
  0 <= o /\ o + Z.of_nat (length bs) <= Z.of_nat (length m) /\
  m' = take (Z.to_nat o) m ++ bs ++ drop (Z.to_nat o + length bs) m.
Proof.
  unfold write_bytes. destruct (Z.leb_spec 0 o); [|discriminate].
  destruct (Z.leb_spec (o + Z.of_nat (length bs)) (Z.of_nat (length m))); [|discriminate].
  intros H'. by injection H' as <-.
Qed.

Lemma write_bytes_length m o bs m' : write_bytes m o bs = Some m' -> length m' = length m.
Proof.
  intros (H1 & H2 & ->)%write_bytes_inv. rewrite !length_app, length_take, length_drop. lia.
Qed.

(** A store inside the middle part. *)
Lemma write_bytes_mid l1 p l2 o bs p' :
  write_bytes p o bs = Some p' ->
  write_bytes (l1 ++ p ++ l2) (Z.of_nat (length l1) + o) bs = Some (l1 ++ p' ++ l2).
Proof.
  intros (H1 & H2 & ->)%write_bytes_inv. rewrite write_bytes_Some.
  - f_equal. replace (Z.to_nat (Z.of_nat (length l1) + o)) with (length l1 + Z.to_nat o)%nat by lia.
    rewrite <- Nat.add_assoc, take_app_add, drop_app_add, take_app_le, drop_app_le by lia.
    by rewrite <- !app_assoc.
  - lia.
  - rewrite !length_app. lia.
Qed.

(** What a store before or after leaves. *)
Lemma write_bytes_take m o bs m' n :
  write_bytes m o bs = Some m' -> Z.of_nat n <= o -> take n m' = take n m.
Proof.
  intros (H1 & H2 & ->)%write_bytes_inv Hn. rewrite take_app_le.
  - rewrite take_take. f_equal. lia.
  - rewrite length_take. lia.
Qed.

Lemma write_bytes_frame m o bs m' i :
  write_bytes m o bs = Some m' -> (i < o \/ o + Z.of_nat (length bs) <= i) ->
  array_get m' i = array_get m i.
Proof.
  intros (H1 & H2 & ->)%write_bytes_inv Hi. unfold array_get.
  destruct (Z.leb_spec 0 i); [|done]. destruct Hi as [Hi|Hi].
  - rewrite lookup_app_l by (rewrite length_take; lia). apply lookup_take_lt. lia.
  - rewrite lookup_app_r by (rewrite length_take; lia). rewrite length_take.
    rewrite lookup_app_r by lia. rewrite lookup_drop. f_equal. lia.
Qed.

Lemma le32_length x : length (le32 x) = 4%nat.
Proof. done. Qed.

Lemma write32_length m o x m' : write32 m o x = Some m' -> length m' = length m.
Proof. apply write_bytes_length. Qed.

Lemma write32_is_Some m o x :
  0 <= o -> o + 4 <= Z.of_nat (length m) -> exists m', write32 m o x = Some m'.
Proof. intros H1 H2. unfold write32. rewrite write_bytes_Some; [eauto|lia|]. rewrite le32_length. lia. Qed.

Lemma write8_is_Some m o x :
  0 <= o < Z.of_nat (length m) -> exists m', write8 m o x = Some m'.
Proof. intros H. unfold write8. rewrite write_bytes_Some; [eauto|lia|]. cbn [length]. lia. Qed.

Lemma write32_mid l1 p l2 o x p' :
  write32 p o x = Some p' ->
  write32 (l1 ++ p ++ l2) (Z.of_nat (length l1) + o) x = Some (l1 ++ p' ++ l2).
Proof. apply write_bytes_mid. Qed.

Lemma write8_mid l1 p l2 o x p' :
  write8 p o x = Some p' ->
  write8 (l1 ++ p ++ l2) (Z.of_nat (length l1) + o) x = Some (l1 ++ p' ++ l2).
Proof. apply write_bytes_mid. Qed.

(** A word that was stored is read back. *)
Lemma read32_write32 m o x m' :
  0 <= x < 2 ^ 32 -> write32 m o x = Some m' -> read32 m' o = Some x.
Proof.
  intros Hx (H1 & H2 & ->)%write_bytes_inv.
  assert (Z.of_nat (length (take (Z.to_nat o) m)) = o) as Hl by (rewrite length_take; lia).
  rewrite <- Hl at 3. replace (Z.of_nat (length (take (Z.to_nat o) m))) with
    (Z.of_nat (length (take (Z.to_nat o) m)) + 0) by lia.
  rewrite read32_mid by (rewrite ?le32_length; lia). clear -Hx.
  change (Some (x / 1 mod 256 + 256 * (x / 256 mod 256)
    + 65536 * (x / 65536 mod 256 + 256 * (x / 16777216 mod 256))) = Some x).
  f_equal. change 65536 with (256 * 256) at 2. change 16777216 with (256 * 256 * 256).
  rewrite <- !Z.div_div, Z.div_1_r by lia.
  assert (x / 256 / 256 / 256 < 256) by (rewrite !Z.div_div by lia; apply Z.div_lt_upper_bound; lia).
  assert (0 <= x / 256 / 256 / 256) by (repeat apply Z.div_pos; lia).
  rewrite (Z.mod_small (x / 256 / 256 / 256)) by lia.
  pose proof (Z_div_mod_eq_full x 256). pose proof (Z_div_mod_eq_full (x / 256) 256).
  pose proof (Z_div_mod_eq_full (x / 256 / 256) 256).
  generalize dependent (x / 256 / 256 / 256). generalize dependent ((x / 256 / 256) mod 256).
  generalize dependent (x / 256 / 256). generalize dependent ((x / 256) mod 256).
  generalize dependent (x / 256). generalize dependent (x mod 256). intros. lia.
Qed.

Lemma read32_le32 l1 l2 x :
  0 <= x < 2 ^ 32 -> read32 (l1 ++ le32 x ++ l2) (Z.of_nat (length l1)) = Some x.
Proof.
  intros Hx. apply (read32_write32 (l1 ++ le32 0 ++ l2) _ x); [done|].
  replace (Z.of_nat (length l1)) with (Z.of_nat (length l1) + 0) by lia. by apply write_bytes_mid.
Qed.

Lemma le32_mod x : le32 (x mod 2 ^ 32) = le32 x.
Proof.
  unfold le32. apply list_fmap_ext. intros i y Hy.
  assert (0 <= y <= 3) by (destruct i as [|[|[|[|i]]]]; try discriminate Hy; injection Hy as <-; lia).
  rewrite (Z.mod_eq x (2 ^ 32)) by done.
  replace (2 ^ 32) with (2 ^ (8 * y) * (2 ^ (8 * (3 - y)) * 256))
    by (change 256 with (2 ^ 8); rewrite <- !Z.pow_add_r by lia; f_equal; lia).
  set (a := 2 ^ (8 * y)). set (c := 2 ^ (8 * (3 - y))). set (q := x / _).
  assert (0 < a) by (apply Z.pow_pos_nonneg; lia).
  replace (x - a * (c * 256) * q) with (x + (- (c * q) * 256) * a) by lia.
  rewrite Z.div_add by lia. by rewrite Z_mod_plus_full.
Qed.

Lemma read64_le64 l1 l2 x :
  0 <= x < 2 ^ 64 -> read64 (l1 ++ le64 x ++ l2) (Z.of_nat (length l1)) = Some x.
Proof.
  intros Hx. unfold read64, le64. rewrite <- app_assoc, <- le32_mod.
  rewrite read32_le32 by (apply Z.mod_pos_bound; lia). cbn [mbind option_bind].
  replace (Z.of_nat (length l1) + 4) with (Z.of_nat (length (l1 ++ le32 (x mod 2 ^ 32))))
    by (rewrite length_app, le32_length; lia).
  rewrite app_assoc, read32_le32.
  - cbn. f_equal. pose proof (Z_div_mod_eq_full x (2 ^ 32)). lia.
  - split; [apply Z.div_pos; lia|]. apply Z.div_lt_upper_bound; lia.
Qed.

(** ** Copies *)

Lemma read_bytes_inv m o n bs :
  read_bytes m o n = Some bs ->
  0 <= o /\ Z.of_nat (length bs) = n /\ exists l1 l2, m = l1 ++ bs ++ l2 /\ Z.of_nat (length l1) = o.
Proof.
  unfold read_bytes. destruct (Z.leb_spec 0 o), (Z.leb_spec 0 n); try discriminate.
  destruct (Z.leb_spec (o + n) (Z.of_nat (length m))); [|discriminate]. intros H'. injection H' as <-.
  split; [done|]. rewrite length_take, length_drop. split; [lia|].
  exists (take (Z.to_nat o) m), (drop (Z.to_nat n) (drop (Z.to_nat o) m)).
  rewrite take_drop, take_drop, length_take. split; [done|lia].
Qed.

Lemma read_bytes_is_Some m o n :
  0 <= o -> 0 <= n -> o + n <= Z.of_nat (length m) -> exists bs, read_bytes m o n = Some bs.
Proof.
  intros H1 H2 H3. unfold read_bytes. destruct (Z.leb_spec 0 o), (Z.leb_spec 0 n); try lia.
  destruct (Z.leb_spec (o + n) (Z.of_nat (length m))); [eauto|lia].
Qed.

Lemma memcpy_is_Some dst d src s n :
  0 <= d -> 0 <= s -> 0 <= n -> d + n <= Z.of_nat (length dst) -> s + n <= Z.of_nat (length src) ->
  exists m, memcpy dst d src s n = Some m.
Proof.
  intros. unfold memcpy. destruct (read_bytes_is_Some src s n) as [bs Hbs]; [lia..|].
  rewrite Hbs. cbn. apply read_bytes_inv in Hbs as (_ & Hl & _). rewrite write_bytes_Some; [eauto|lia..].
Qed.

(** A copy puts the bytes between what was before and after. *)
Lemma memcpy_inv dst d src s n m :
  memcpy dst d src s n = Some m ->
  exists p, read_bytes src s n = Some p /\ 0 <= d /\ d + n <= Z.of_nat (length dst) /\
    m = take (Z.to_nat d) dst ++ p ++ drop (Z.to_nat (d + n)) dst.
Proof.
  unfold memcpy. destruct (read_bytes src s n) as [p|] eqn:Ep; [|discriminate]. cbn. intros H.
  pose proof (read_bytes_inv _ _ _ _ Ep) as (_ & Hl & _).
  apply write_bytes_inv in H as (H1 & H2 & ->). exists p. split; [done|]. split; [done|].
  split; [lia|]. do 2 f_equal. f_equal. lia.
Qed.

Lemma memcpy_length dst d src s n m : memcpy dst d src s n = Some m -> length m = length dst.
Proof.
  unfold memcpy. destruct (read_bytes src s n); [|discriminate]. cbn. apply write_bytes_length.
Qed.

(** ** Byte by byte *)

Lemma read_bytes_get m o n bs i :
  read_bytes m o n = Some bs -> 0 <= i < n -> array_get m (o + i) = array_get bs i.
Proof.
  intros (H & Hl & l1 & l2 & -> & Ho)%read_bytes_inv Hi. subst.
  rewrite array_get_app_r by lia. apply array_get_app_l. lia.
Qed.

Lemma read_bytes_ext m o bs :
  0 <= o -> o + Z.of_nat (length bs) <= Z.of_nat (length m) ->
  (forall i, 0 <= i < Z.of_nat (length bs) -> array_get m (o + i) = array_get bs i) ->
  read_bytes m o (Z.of_nat (length bs)) = Some bs.
Proof.
  intros Ho Hl H. destruct (read_bytes_is_Some m o (Z.of_nat (length bs))) as [bs' E]; [lia..|].
  rewrite E. f_equal. pose proof (read_bytes_inv _ _ _ _ E) as (_ & Hl' & _).
  apply list_eq_same_length with (length bs); [lia|lia|]. intros i x y Hi Hx Hy.
  rewrite <- array_get_nat in Hx, Hy. rewrite <- (H (Z.of_nat i)) in Hy by lia.
  rewrite <- (read_bytes_get _ _ _ _ (Z.of_nat i) E) in Hx by lia. congruence.
Qed.

Lemma write_bytes_get m o bs m' i :
  write_bytes m o bs = Some m' -> 0 <= i < Z.of_nat (length bs) ->
  array_get m' (o + i) = array_get bs i.
Proof.
  intros (H1 & H2 & ->)%write_bytes_inv Hi.
  assert (Z.of_nat (length (take (Z.to_nat o) m)) = o) as Hl by (rewrite length_take; lia).
  rewrite <- Hl at 3. rewrite array_get_app_r by lia. apply array_get_app_l. lia.
Qed.

Lemma memcpy_get dst d src s n m i :
  memcpy dst d src s n = Some m ->
  (0 <= i < n -> array_get m (d + i) = array_get src (s + i)) /\
  (i < d \/ d + n <= i -> array_get m i = array_get dst i).
Proof.
  unfold memcpy. destruct (read_bytes src s n) as [p|] eqn:Ep; [|discriminate]. cbn. intros H.
  pose proof (read_bytes_inv _ _ _ _ Ep) as (_ & Hl & _). split; intros Hi.
  - rewrite (read_bytes_get _ _ _ _ i Ep) by done. apply (write_bytes_get _ _ _ _ _ H). lia.
  - apply (write_bytes_frame _ _ _ _ _ H). lia.
Qed.
