(* ===== verification/Crc32.v ===== *)
(** * Checksums ([src/util/crc32.c])

    The checksum of bytes by table, and the same bit by bit. *)
From S2P Require Import Prelude Bytes.

Definition util_crc32_table : list Z :=
  [
   0x00000000; 0x77073096; 0xee0e612c; 0x990951ba; 0x076dc419; 0x706af48f; 0xe963a535; 0x9e6495a3;
   0x0edb8832; 0x79dcb8a4; 0xe0d5e91e; 0x97d2d988; 0x09b64c2b; 0x7eb17cbd; 0xe7b82d07; 0x90bf1d91;
   0x1db71064; 0x6ab020f2; 0xf3b97148; 0x84be41de; 0x1adad47d; 0x6ddde4eb; 0xf4d4b551; 0x83d385c7;
   0x136c9856; 0x646ba8c0; 0xfd62f97a; 0x8a65c9ec; 0x14015c4f; 0x63066cd9; 0xfa0f3d63; 0x8d080df5;
   0x3b6e20c8; 0x4c69105e; 0xd56041e4; 0xa2677172; 0x3c03e4d1; 0x4b04d447; 0xd20d85fd; 0xa50ab56b;
   0x35b5a8fa; 0x42b2986c; 0xdbbbc9d6; 0xacbcf940; 0x32d86ce3; 0x45df5c75; 0xdcd60dcf; 0xabd13d59;
   0x26d930ac; 0x51de003a; 0xc8d75180; 0xbfd06116; 0x21b4f4b5; 0x56b3c423; 0xcfba9599; 0xb8bda50f;
   0x2802b89e; 0x5f058808; 0xc60cd9b2; 0xb10be924; 0x2f6f7c87; 0x58684c11; 0xc1611dab; 0xb6662d3d;
   0x76dc4190; 0x01db7106; 0x98d220bc; 0xefd5102a; 0x71b18589; 0x06b6b51f; 0x9fbfe4a5; 0xe8b8d433;
   0x7807c9a2; 0x0f00f934; 0x9609a88e; 0xe10e9818; 0x7f6a0dbb; 0x086d3d2d; 0x91646c97; 0xe6635c01;
   0x6b6b51f4; 0x1c6c6162; 0x856530d8; 0xf262004e; 0x6c0695ed; 0x1b01a57b; 0x8208f4c1; 0xf50fc457;
   0x65b0d9c6; 0x12b7e950; 0x8bbeb8ea; 0xfcb9887c; 0x62dd1ddf; 0x15da2d49; 0x8cd37cf3; 0xfbd44c65;
   0x4db26158; 0x3ab551ce; 0xa3bc0074; 0xd4bb30e2; 0x4adfa541; 0x3dd895d7; 0xa4d1c46d; 0xd3d6f4fb;
   0x4369e96a; 0x346ed9fc; 0xad678846; 0xda60b8d0; 0x44042d73; 0x33031de5; 0xaa0a4c5f; 0xdd0d7cc9;
   0x5005713c; 0x270241aa; 0xbe0b1010; 0xc90c2086; 0x5768b525; 0x206f85b3; 0xb966d409; 0xce61e49f;
   0x5edef90e; 0x29d9c998; 0xb0d09822; 0xc7d7a8b4; 0x59b33d17; 0x2eb40d81; 0xb7bd5c3b; 0xc0ba6cad;
   0xedb88320; 0x9abfb3b6; 0x03b6e20c; 0x74b1d29a; 0xead54739; 0x9dd277af; 0x04db2615; 0x73dc1683;
   0xe3630b12; 0x94643b84; 0x0d6d6a3e; 0x7a6a5aa8; 0xe40ecf0b; 0x9309ff9d; 0x0a00ae27; 0x7d079eb1;
   0xf00f9344; 0x8708a3d2; 0x1e01f268; 0x6906c2fe; 0xf762575d; 0x806567cb; 0x196c3671; 0x6e6b06e7;
   0xfed41b76; 0x89d32be0; 0x10da7a5a; 0x67dd4acc; 0xf9b9df6f; 0x8ebeeff9; 0x17b7be43; 0x60b08ed5;
   0xd6d6a3e8; 0xa1d1937e; 0x38d8c2c4; 0x4fdff252; 0xd1bb67f1; 0xa6bc5767; 0x3fb506dd; 0x48b2364b;
   0xd80d2bda; 0xaf0a1b4c; 0x36034af6; 0x41047a60; 0xdf60efc3; 0xa867df55; 0x316e8eef; 0x4669be79;
   0xcb61b38c; 0xbc66831a; 0x256fd2a0; 0x5268e236; 0xcc0c7795; 0xbb0b4703; 0x220216b9; 0x5505262f;
   0xc5ba3bbe; 0xb2bd0b28; 0x2bb45a92; 0x5cb36a04; 0xc2d7ffa7; 0xb5d0cf31; 0x2cd99e8b; 0x5bdeae1d;
   0x9b64c2b0; 0xec63f226; 0x756aa39c; 0x026d930a; 0x9c0906a9; 0xeb0e363f; 0x72076785; 0x05005713;
   0x95bf4a82; 0xe2b87a14; 0x7bb12bae; 0x0cb61b38; 0x92d28e9b; 0xe5d5be0d; 0x7cdcefb7; 0x0bdbdf21;
   0x86d3d2d4; 0xf1d4e242; 0x68ddb3f8; 0x1fda836e; 0x81be16cd; 0xf6b9265b; 0x6fb077e1; 0x18b74777;
   0x88085ae6; 0xff0f6a70; 0x66063bca; 0x11010b5c; 0x8f659eff; 0xf862ae69; 0x616bffd3; 0x166ccf45;
   0xa00ae278; 0xd70dd2ee; 0x4e048354; 0x3903b3c2; 0xa7672661; 0xd06016f7; 0x4969474d; 0x3e6e77db;
   0xaed16a4a; 0xd9d65adc; 0x40df0b66; 0x37d83bf0; 0xa9bcae53; 0xdebb9ec5; 0x47b2cf7f; 0x30b5ffe9;
   0xbdbdf21c; 0xcabac28a; 0x53b39330; 0x24b4a3a6; 0xbad03605; 0xcdd70693; 0x54de5729; 0x23d967bf;
   0xb3667a2e; 0xc4614ab8; 0x5d681b02; 0x2a6f2b94; 0xb40bbe37; 0xc30c8ea1; 0x5a05df1b; 0x2d02ef8d ].

(** The loop over the bytes; [None] reads outside the table. *)
Definition util_hash_crc32 (data : list Z) : option Z :=
  foldM (fun crc b =>
    t ← array_get util_crc32_table (Z.land (Z.lxor crc b) 0xff);
    Some (Z.lxor t (Z.shiftr crc 8))) 0xffffffff data.

(** ** Reference *)

(** The polynomial of CRC-32, from the lowest power on. *)
Definition crc_poly : Z := 0xedb88320.

(** Division by the polynomial, one digit. *)
Definition crc_bit (crc : Z) : Z := Z.lxor (Z.shiftr crc 1) (if Z.testbit crc 0 then crc_poly else 0).

Fixpoint crc_bits (n : nat) (crc : Z) : Z :=
  match n with O => crc | S n => crc_bit (crc_bits n crc) end.

(** The bytes as one number, the first byte lowest. *)
Fixpoint message (data : list Z) : Z :=
  match data with [] => 0 | b :: data => Z.lxor b (Z.shiftl (message data) 8) end.

(** The remainder of the message, its first 32 digits inverted. *)
Definition crc_spec (data : list Z) : Z :=
  crc_bits (8 * length data) (Z.lxor 0xffffffff (message data)).

(** One byte at a time. *)
Definition crc_byte (crc b : Z) : Z := crc_bits 8 (Z.lxor crc b).

(** ** Words *)

Definition word (x : Z) : Prop := 0 <= x < 2 ^ 32.

Lemma word_bit x k : word x -> 32 <= k -> Z.testbit x k = false.
Proof.
  intros Hx Hk. destruct (Z.eq_dec x 0) as [->|]; [apply Z.bits_0|]. unfold word in Hx. apply Z.bits_above_log2; [lia|].
  apply Z.log2_lt_pow2; [lia|]. apply (Z.lt_le_trans _ (2 ^ 32)); [lia|apply Z.pow_le_mono_r; lia].
Qed.

Lemma word_lxor x y : word x -> word y -> word (Z.lxor x y).
Proof.
  intros Hx Hy. assert (0 <= Z.lxor x y) as H0 by (apply Z.lxor_nonneg; unfold word in *; lia). split; [done|].
  destruct (Z_lt_ge_dec (Z.lxor x y) (2 ^ 32)) as [|H]; [done|exfalso]. assert (0 < Z.lxor x y) as Hp by lia.
  pose proof (Z.bit_log2 _ Hp) as Hb. assert (32 <= Z.log2 (Z.lxor x y)) by (apply Z.log2_le_pow2; lia).
  by rewrite Z.lxor_spec, !word_bit in Hb.
Qed.

Lemma word_shiftr x k : 0 <= k -> word x -> word (Z.shiftr x k).
Proof.
  intros Hk [H1 H2]. rewrite Z.shiftr_div_pow2 by done. assert (0 < 2 ^ k) by (apply Z.pow_pos_nonneg; lia).
  split; [apply Z.div_pos; lia|]. apply Z.div_lt_upper_bound; nia.
Qed.

(** ** The step is linear and loses nothing *)

Lemma crc_bit_word x : word x -> word (crc_bit x).
Proof. intros Hx. apply word_lxor; [by apply word_shiftr|]. by destruct (Z.testbit x 0). Qed.

Lemma crc_bit_lxor x y : crc_bit (Z.lxor x y) = Z.lxor (crc_bit x) (crc_bit y).
Proof.
  unfold crc_bit. rewrite Z.shiftr_lxor, Z.lxor_spec. apply Z.bits_inj'. intros n _. rewrite !Z.lxor_spec.
  destruct (Z.testbit x 0), (Z.testbit y 0); cbn [xorb]; rewrite ?Z.bits_0;
    destruct (Z.testbit (Z.shiftr x 1) n), (Z.testbit (Z.shiftr y 1) n), (Z.testbit crc_poly n); done.
Qed.

Lemma crc_bit_nonzero x : word x -> x <> 0 -> crc_bit x <> 0.
Proof.
  intros Hx H0 E. unfold crc_bit in E. destruct (Z.testbit x 0) eqn:Eb.
  - apply (f_equal (fun z => Z.testbit z 31)) in E. rewrite Z.lxor_spec, Z.shiftr_spec, word_bit, Z.bits_0 in E by (done || lia).
    discriminate E.
  - rewrite Z.lxor_0_r in E. apply H0. apply Z.bits_inj'. intros n Hn. rewrite Z.bits_0.
    destruct (Z.eq_dec n 0) as [->|]; [done|]. apply (f_equal (fun z => Z.testbit z (n - 1))) in E.
    rewrite Z.shiftr_spec, Z.bits_0 in E by lia. by replace (n - 1 + 1) with n in E by lia.
Qed.

Lemma crc_bits_word n x : word x -> word (crc_bits n x).
Proof. intros Hx. induction n; [done|]. by apply crc_bit_word. Qed.

Lemma crc_bits_lxor n x y : crc_bits n (Z.lxor x y) = Z.lxor (crc_bits n x) (crc_bits n y).
Proof. induction n as [|n IH]; [done|]. cbn [crc_bits]. by rewrite IH, crc_bit_lxor. Qed.

Lemma crc_bits_nonzero n x : word x -> x <> 0 -> crc_bits n x <> 0.
Proof.
  intros Hx H0. induction n as [|n IH]; [done|]. cbn [crc_bits]. apply crc_bit_nonzero; [|done].
  by apply (crc_bits_word n).
Qed.

(** Digits that are zero are only shifted out. *)
Lemma crc_bits_shift n x : (forall i, 0 <= i < Z.of_nat n -> Z.testbit x i = false) -> crc_bits n x = Z.shiftr x (Z.of_nat n).
Proof.
  induction n as [|n IH]; intros Hx; [by rewrite Z.shiftr_0_r|]. cbn [crc_bits]. rewrite IH by (intros; apply Hx; lia).
  unfold crc_bit. rewrite Z.shiftr_spec, Hx, Z.lxor_0_r, Z.shiftr_shiftr by lia. f_equal. lia.
Qed.

Lemma crc_bits_add n k x : crc_bits (n + k) x = crc_bits n (crc_bits k x).
Proof. induction n as [|n IH]; [done|]. cbn [Nat.add crc_bits]. by rewrite IH. Qed.

(** ** The table *)

Lemma table_rows : forallb (fun i => bool_decide (array_get util_crc32_table i = Some (crc_bits 8 i))) (zrange 0 256) = true.
Proof. vm_compute. reflexivity. Qed.

Lemma table_row i : 0 <= i < 256 -> array_get util_crc32_table i = Some (crc_bits 8 i).
Proof.
  intros Hi. pose proof (proj1 (forallb_forall _ _) table_rows i) as H. apply bool_decide_eq_true in H; [done|].
  apply list_elem_of_In, elem_of_zrange. lia.
Qed.

Lemma is_byte_shift b : is_byte b -> Z.shiftr b 8 = 0.
Proof. unfold is_byte. intros Hb. rewrite Z.shiftr_div_pow2 by lia. by apply Z.div_small. Qed.

Lemma is_byte_word b : is_byte b -> word b.
Proof. unfold is_byte, word. lia. Qed.

Lemma crc_byte_table crc b :
  is_byte b ->
  (t ← array_get util_crc32_table (Z.land (Z.lxor crc b) 0xff); Some (Z.lxor t (Z.shiftr crc 8))) = Some (crc_byte crc b).
Proof.
  intros Hb. set (y := Z.lxor crc b). change 0xff with (Z.ones 8). rewrite table_row.
  2: { rewrite Z.land_ones by lia. by apply Z.mod_pos_bound. }
  cbn [mbind option_bind]. f_equal. unfold crc_byte. fold y.
  assert (y = Z.lxor (Z.ldiff y (Z.ones 8)) (Z.land y (Z.ones 8))) as Ey.
  { apply Z.bits_inj'. intros n _. rewrite Z.lxor_spec, Z.ldiff_spec, Z.land_spec.
    by destruct (Z.testbit y n), (Z.testbit (Z.ones 8) n). }
  rewrite Ey at 2. rewrite crc_bits_lxor, Z.lxor_comm. f_equal. rewrite crc_bits_shift.
  - change (Z.of_nat 8) with 8. rewrite Z.shiftr_ldiff. change (Z.shiftr (Z.ones 8) 8) with 0. rewrite Z.ldiff_0_r.
    unfold y. by rewrite Z.shiftr_lxor, (is_byte_shift b), Z.lxor_0_r.
  - intros i Hi. rewrite Z.ldiff_spec, Z.ones_spec_low, andb_false_r; [done|cbn in Hi; lia].
Qed.

Lemma crc_byte_word crc b : word crc -> is_byte b -> word (crc_byte crc b).
Proof. intros Hc Hb. apply crc_bits_word, word_lxor; [done|by apply is_byte_word]. Qed.

Lemma crc_bytes_fold data crc :
  Forall is_byte data ->
  foldM (fun crc b => t ← array_get util_crc32_table (Z.land (Z.lxor crc b) 0xff); Some (Z.lxor t (Z.shiftr crc 8))) crc data =
    Some (foldl crc_byte crc data).
Proof.
  revert crc. induction data as [|b data IH]; intros crc Hd; [done|]. apply Forall_cons in Hd as [Hb Hd].
  cbn [foldM foldl]. rewrite crc_byte_table by done. cbn [mbind option_bind]. by apply IH.
Qed.

(** Bytes, one after the other, are the message at once. *)
Lemma crc_bytes_message data crc : foldl crc_byte crc data = crc_bits (8 * length data) (Z.lxor crc (message data)).
Proof.
  revert crc. induction data as [|b data IH]; intros crc; cbn [foldl length message]; [by rewrite Z.lxor_0_r|].
  rewrite IH. replace (8 * S (length data))%nat with (8 * length data + 8)%nat by lia. rewrite crc_bits_add. f_equal.
  unfold crc_byte. rewrite <- Z.lxor_assoc, (crc_bits_lxor 8 (Z.lxor crc b)). f_equal. symmetry.
  rewrite crc_bits_shift; [|intros i Hi; rewrite Z.shiftl_spec_low; [done|cbn in Hi; lia]].
  change (Z.of_nat 8) with 8. by rewrite Z.shiftr_shiftl_l, Z.sub_diag, Z.shiftl_0_r by lia.
Qed.

(** ** Differences *)

Lemma crc_byte_lxor c1 c2 b1 b2 : Z.lxor (crc_byte c1 b1) (crc_byte c2 b2) = crc_byte (Z.lxor c1 c2) (Z.lxor b1 b2).
Proof.
  unfold crc_byte. rewrite <- crc_bits_lxor. f_equal. apply Z.bits_inj'. intros n _. rewrite !Z.lxor_spec.
  by destruct (Z.testbit c1 n), (Z.testbit c2 n), (Z.testbit b1 n), (Z.testbit b2 n).
Qed.

Lemma crc_bytes_lxor d1 : forall d2 c1 c2,
  length d1 = length d2 ->
  Z.lxor (foldl crc_byte c1 d1) (foldl crc_byte c2 d2) = foldl crc_byte (Z.lxor c1 c2) (zip_with Z.lxor d1 d2).
Proof.
  induction d1 as [|b1 d1 IH]; intros [|b2 d2] c1 c2 Hl; try done. cbn [foldl zip_with]. injection Hl as Hl.
  by rewrite IH, crc_byte_lxor.
Qed.

(** Up to four bytes are a word, which is zero only if they are. *)
Lemma message_word x : Forall is_byte x -> (length x <= 4)%nat -> word (message x).
Proof.
  intros Hx Hl. assert (0 <= message x < 2 ^ (8 * Z.of_nat (length x))) as H.
  { clear Hl. induction Hx as [|b x Hb Hx IH]; [done|]. cbn [message length]. unfold is_byte in Hb.
    assert (Z.lxor b (Z.shiftl (message x) 8) = message x * 2 ^ 8 + b) as ->.
    { rewrite <- Z.shiftl_mul_pow2, Z.add_comm by lia. symmetry. apply Z.add_nocarry_lxor. apply Z.bits_inj'. intros n Hn.
      rewrite Z.land_spec, Z.bits_0. destruct (Z.ltb_spec n 8); [by rewrite Z.shiftl_spec_low, andb_false_r|].
      destruct (Z.eq_dec b 0) as [->|]; [by rewrite Z.bits_0|]. rewrite Z.bits_above_log2; [done|lia|].
      apply Z.log2_lt_pow2; [lia|]. apply (Z.lt_le_trans _ (2 ^ 8)); [lia|]. apply Z.pow_le_mono_r; lia. }
    replace (8 * Z.of_nat (S (length x))) with (8 * Z.of_nat (length x) + 8) by lia. rewrite Z.pow_add_r by lia. lia. }
  unfold word. split; [lia|]. apply (Z.lt_le_trans _ (2 ^ (8 * Z.of_nat (length x)))); [lia|]. apply Z.pow_le_mono_r; lia.
Qed.

Lemma message_zero x : Forall is_byte x -> message x = 0 -> Forall (fun b => b = 0) x.
Proof.
  induction 1 as [|b x Hb Hx IH]; [by constructor|]. cbn [message]. intros E. apply Z.lxor_eq in E.
  assert (message x = 0) as E0.
  { apply (f_equal (fun z => Z.shiftr z 8)) in E. rewrite is_byte_shift, Z.shiftr_shiftl_l, Z.sub_diag, Z.shiftl_0_r in E by (done || lia). done. }
  constructor; [by rewrite E, E0|by apply IH].
Qed.

Lemma zip_lxor_byte x : forall y, Forall is_byte x -> Forall is_byte y -> Forall is_byte (zip_with Z.lxor x y).
Proof.
  induction x as [|a x IH]; intros [|b y] Hx Hy; try by constructor. apply Forall_cons in Hx as [Ha Hx]. apply Forall_cons in Hy as [Hb Hy].
  constructor; [|by apply IH]. unfold is_byte. assert (0 <= Z.lxor a b) by (apply Z.lxor_nonneg; unfold is_byte in *; lia).
  split; [done|]. assert (Z.shiftr (Z.lxor a b) 8 = 0) as E by (by rewrite Z.shiftr_lxor, !is_byte_shift).
  rewrite Z.shiftr_div_pow2 in E by lia. change (2 ^ 8) with 256 in E. pose proof (Z.div_mod (Z.lxor a b) 256). pose proof (Z.mod_pos_bound (Z.lxor a b) 256). lia.
Qed.

Lemma zip_lxor_eq x : forall y, length x = length y -> Forall (fun b => b = 0) (zip_with Z.lxor x y) -> x = y.
Proof.
  induction x as [|a x IH]; intros [|b y] Hl Hz; try done. cbn in *. apply Forall_cons in Hz as [H1 H2].
  apply Z.lxor_eq in H1 as ->. f_equal. apply IH; [lia|done].
Qed.

(** A difference that is there stays. *)
Lemma crc_byte_same c1 c2 b : word c1 -> word c2 -> c1 <> c2 -> crc_byte c1 b <> crc_byte c2 b.
Proof.
  intros H1 H2 Hne E. assert (crc_bits 8 (Z.lxor c1 c2) = 0) as E0.
  { transitivity (crc_byte (Z.lxor c1 c2) (Z.lxor b b)).
    - rewrite Z.lxor_nilpotent. unfold crc_byte. by rewrite Z.lxor_0_r.
    - rewrite <- crc_byte_lxor, E. apply Z.lxor_nilpotent. }
  revert E0. apply crc_bits_nonzero; [by apply word_lxor|]. by rewrite Z.lxor_eq_0_iff.
Qed.

Lemma crc_bytes_same c1 c2 data : word c1 -> word c2 -> Forall is_byte data -> c1 <> c2 -> foldl crc_byte c1 data <> foldl crc_byte c2 data.
Proof.
  revert c1 c2. induction data as [|b data IH]; intros c1 c2 H1 H2 Hd Hne; [done|]. apply Forall_cons in Hd as [Hb Hd].
  cbn [foldl]. apply IH; [by apply crc_byte_word..|done|by apply crc_byte_same].
Qed.

Lemma crc_bytes_word data crc : word crc -> Forall is_byte data -> word (foldl crc_byte crc data).
Proof.
  revert crc. induction data as [|b data IH]; intros crc Hc Hd; [done|]. apply Forall_cons in Hd as [Hb Hd].
  apply IH; [by apply crc_byte_word|done].
Qed.

(** C14: The checksum of any bytes, computed with the table, is the remainder of the message, as a polynomial with
    coefficients modulo 2 and its first 32 digits inverted, divided by the polynomial of CRC-32 one digit at a
    time; it is a 32-bit number, the table is never read out of bounds, and two messages that only differ within four
    consecutive bytes have different checksums. *)
Theorem crc32_correct data :
  Forall is_byte data ->
  util_hash_crc32 data = Some (crc_spec data) /\ 0 <= crc_spec data < 2 ^ 32 /\
  forall pre x y post, data = pre ++ x ++ post -> Forall is_byte y -> length x = length y -> (length x <= 4)%nat -> x <> y ->
    util_hash_crc32 (pre ++ y ++ post) <> util_hash_crc32 data.
Proof.
  intros Hd. assert (forall d, Forall is_byte d -> util_hash_crc32 d = Some (foldl crc_byte 0xffffffff d)) as Hf
    by (intros d; apply crc_bytes_fold).
  split_and!.
  - rewrite Hf by done. by rewrite crc_bytes_message.
  - unfold crc_spec. rewrite <- crc_bytes_message. by apply crc_bytes_word.
  - unfold crc_spec. rewrite <- crc_bytes_message. by apply crc_bytes_word.
  - intros pre x y post E Hy Hl H4 Hne. subst data. apply Forall_app in Hd as [Hp Hd]. apply Forall_app in Hd as [Hx Hq].
    rewrite !Hf by (by repeat (apply Forall_app; split)). rewrite !foldl_app. intros [= E]. revert E.
    set (c := foldl crc_byte 0xffffffff pre). assert (word c) as Hc by (by apply crc_bytes_word).
    apply crc_bytes_same; [by apply crc_bytes_word..|done|]. intros E. symmetry in E. apply Z.lxor_eq_0_iff in E.
    rewrite crc_bytes_lxor, Z.lxor_nilpotent, crc_bytes_message, Z.lxor_0_l in E by done. revert E.
    pose proof (zip_lxor_byte x y Hx Hy) as Hz. apply crc_bits_nonzero.
    + apply message_word; [done|]. rewrite length_zip_with. lia.
    + intros E. apply Hne, zip_lxor_eq; [done|]. by apply message_zero.
Qed.

(** The bytes of the string "123456789"; the result is the complement of the usual checksum CBF43926. *)
Lemma crc32_correct_witness :
  util_hash_crc32 [49; 50; 51; 52; 53; 54; 55; 56; 57] = Some 0x340bc6d9 /\
  util_hash_crc32 [49; 50; 51; 52; 0; 54; 55; 1; 57] <> util_hash_crc32 [49; 50; 51; 52; 53; 54; 55; 56; 57].
Proof.
  assert (Forall is_byte [49; 50; 51; 52; 53; 54; 55; 56; 57]) as Hd by (repeat constructor; unfold is_byte; lia).
  destruct (crc32_correct _ Hd) as (H1 & _ & H2). split; [rewrite H1; vm_compute; reflexivity|].
  apply (H2 [49; 50; 51; 52] [53; 54; 55; 56] [0; 54; 55; 1] [57]); [reflexivity| |reflexivity|cbn; lia|congruence].
  repeat constructor; unfold is_byte; lia.
Defined.
