(* ===== verification/Float32.v ===== *)
(** * Single precision

    Single-precision numbers are the 24-bit binary floating-point numbers of [SpecFloat]; their bits in
    memory; and operations with powers of two, which are exact. *)
From Stdlib Require Import SpecFloat.
From S2P Require Import Prelude.

(** ** Operations *)

Definition f32_of_int (n : Z) : spec_float := binary_normalize 24 128 n 0 false.
Definition f32_add : spec_float -> spec_float -> spec_float := SFadd 24 128.
Definition f32_mul : spec_float -> spec_float -> spec_float := SFmul 24 128.
Definition f32_div : spec_float -> spec_float -> spec_float := SFdiv 24 128.

(** The number with given bits: a sign, 8 bits of exponent and 23 bits of mantissa. *)
Definition f32_of_bits (u : Z) : spec_float :=
  let m := Z.land u 0x7fffff in
  let e := Z.land (Z.shiftr u 23) 0xff in
  let s := Z.testbit u 31 in
  if e =? 0xff then (if m =? 0 then S754_infinity s else S754_nan)
  else if e =? 0 then (if m =? 0 then S754_zero s else S754_finite s (Z.to_pos m) (-149))
  else S754_finite s (Z.to_pos (m + 2 ^ 23)) (e - 150).

(** The bits of a number; those of one of the NaNs. *)
Definition bits_of_f32 (x : spec_float) : Z :=
  match x with
  | S754_zero s => Z.b2z s * 2 ^ 31
  | S754_infinity s => Z.b2z s * 2 ^ 31 + 0xff * 2 ^ 23
  | S754_nan => 0x7fc00000
  | S754_finite s m e =>
    Z.b2z s * 2 ^ 31 + (if Zpos m <? 2 ^ 23 then Zpos m else (e + 150) * 2 ^ 23 + (Zpos m - 2 ^ 23))
  end.

(** The integer nearest to [n / d], the even one of two. *)
Definition round_even (n d : Z) : Z :=
  let q := n / d in let r := n mod d in
  if 2 * r <? d then q else if d <? 2 * r then q + 1 else if Z.even q then q else q + 1.

(** Rounding to an integer; [None] if the number has none. *)
Definition f32_round_even (x : spec_float) : option Z :=
  match x with
  | S754_zero _ => Some 0
  | S754_finite s m e =>
    Some (cond_Zopp s (if 0 <=? e then Zpos m * 2 ^ e else round_even (Zpos m) (2 ^ (- e))))
  | _ => None
  end.

(** ** Rounding to integers *)

Lemma round_even_bracket n d :
  0 < d -> exists q, q * d <= n < (q + 1) * d /\
    ((round_even n d = q /\ 2 * (n - q * d) <= d /\ (2 * (n - q * d) = d -> Z.even q = true)) \/
     (round_even n d = q + 1 /\ d <= 2 * (n - q * d) /\ (2 * (n - q * d) = d -> Z.even (q + 1) = true))).
Proof.
  intros Hd. exists (n / d). pose proof (Z.div_mod n d) as E. pose proof (Z.mod_pos_bound n d Hd) as Hr.
  assert (n - n / d * d = n mod d) as -> by lia. split; [lia|]. unfold round_even.
  destruct (Z.ltb_spec (2 * (n mod d)) d); [left; lia|].
  destruct (Z.ltb_spec d (2 * (n mod d))); [right; lia|].
  destruct (Z.even (n / d)) eqn:Ev; [by left; lia|right]. split_and!; [done|lia|].
  intros _. by rewrite Z.even_add, Ev.
Qed.

Lemma round_even_scale n d k : 0 < d -> 0 < k -> round_even (n * k) (d * k) = round_even n d.
Proof.
  intros Hd Hk. unfold round_even. rewrite Z.div_mul_cancel_r, Zmult_mod_distr_r by lia.
  replace (2 * (n mod d * k)) with (2 * (n mod d) * k) by ring.
  assert (forall a b, (a * k <? b * k) = (a <? b)) as E.
  { intros a b. destruct (Z.ltb_spec (a * k) (b * k)), (Z.ltb_spec a b); nia || done. }
  by rewrite !E.
Qed.

(** ** Exact results *)

(** The digits of a mantissa. *)
Lemma digits2_pos_iff m k : 0 < k -> Zpos (digits2_pos m) = k <-> 2 ^ (k - 1) <= Zpos m < 2 ^ k.
Proof.
  assert (forall m, 2 ^ (Zpos (digits2_pos m) - 1) <= Zpos m < 2 ^ Zpos (digits2_pos m)) as H.
  { clear. induction m as [m IH|m IH|]; cbn [digits2_pos]; [..|done].
    all: rewrite Pos2Z.inj_succ; set (d := Zpos (digits2_pos m)) in *; assert (0 < d) by (unfold d; lia).
    all: replace (Z.succ d - 1) with (Z.succ (d - 1)) by lia; rewrite !Z.pow_succ_r by lia; lia. }
  intros Hk. split; [intros <-; apply H|]. intros [H1 H2]. pose proof (H m) as [H3 H4].
  set (d := Zpos (digits2_pos m)) in *. assert (0 < d) by (unfold d; lia).
  destruct (Z.lt_trichotomy d k) as [Hl|[Hl|Hl]]; [|done|]; exfalso.
  - assert (2 ^ d <= 2 ^ (k - 1)) by (apply Z.pow_le_mono_r; lia). lia.
  - assert (2 ^ k <= 2 ^ (d - 1)) by (apply Z.pow_le_mono_r; lia). lia.
Qed.

Lemma iter_pos_shr_exact n m :
  SpecFloat.iter_pos shr_1 n (Build_shr_record (Zpos m * 2 ^ Zpos n) false false) = Build_shr_record (Zpos m) false false.
Proof.
  assert (forall n m k, 0 <= k -> SpecFloat.iter_pos shr_1 n (Build_shr_record (Zpos m * 2 ^ (Zpos n + k)) false false) =
    Build_shr_record (Zpos m * 2 ^ k) false false) as H.
  { clear. induction n as [n IH|n IH|]; intros m k Hk; cbn [SpecFloat.iter_pos].
    - rewrite (Pos2Z.inj_xI n). assert (forall a, 0 <= a -> shr_1 (Build_shr_record (Zpos m * 2 ^ (1 + a)) false false) =
        Build_shr_record (Zpos m * 2 ^ a) false false) as H1.
      { intros a Ha. rewrite Z.pow_add_r by lia. replace (Zpos m * (2 ^ 1 * 2 ^ a)) with (2 * (Zpos m * 2 ^ a)) by lia.
        assert (0 < Zpos m * 2 ^ a) by (apply Z.mul_pos_pos; [lia|by apply Z.pow_pos_nonneg]).
        by destruct (Zpos m * 2 ^ a). }
      replace (2 * Zpos n + 1 + k) with (1 + (Zpos n + (Zpos n + k))) by lia. rewrite H1, !IH by lia. done.
    - rewrite (Pos2Z.inj_xO n). replace (2 * Zpos n + k) with (Zpos n + (Zpos n + k)) by lia. by rewrite !IH by lia.
    - rewrite Z.pow_add_r by lia. replace (Zpos m * (2 ^ 1 * 2 ^ k)) with (2 * (Zpos m * 2 ^ k)) by lia.
      assert (0 < Zpos m * 2 ^ k) by (apply Z.mul_pos_pos; [lia|by apply Z.pow_pos_nonneg]).
      by destruct (Zpos m * 2 ^ k). }
  specialize (H n m 0). rewrite Z.add_0_r, Z.pow_0_r, Z.mul_1_r in H. by apply H.
Qed.

(** A mantissa of 24 bits that is shifted does not need rounding. *)
Lemma binary_round_exact s m k e :
  2 ^ 23 <= Zpos m < 2 ^ 24 -> 0 <= k -> -149 <= e + k <= 104 ->
  binary_round_aux 24 128 s (Zpos m * 2 ^ k) e loc_Exact = S754_finite s m (e + k).
Proof.
  intros Hm Hk He.
  assert (forall k e, 0 <= k -> -149 <= e + k -> shr_fexp 24 128 (Zpos m * 2 ^ k) e loc_Exact =
    (Build_shr_record (Zpos m) false false, e + k)) as Hs.
  { clear Hk He k e. intros k e Hk He. unfold shr_fexp. cbn [shr_record_of_loc].
    assert (Zdigits2 (Zpos m * 2 ^ k) = 24 + k) as ->.
    { assert (0 < 2 ^ k) by (by apply Z.pow_pos_nonneg). destruct (Zpos m * 2 ^ k) as [|p|p] eqn:E; try lia.
      cbn [Zdigits2]. apply digits2_pos_iff; [lia|]. rewrite <- E.
      replace (24 + k - 1) with (23 + k) by lia. rewrite !Z.pow_add_r by lia. nia. }
    unfold fexp, emin. replace (Z.max (24 + k + e - 24) (3 - 128 - 24) - e) with k by lia.
    destruct k as [|k|k]; [|by cbn [shr]; rewrite iter_pos_shr_exact|lia]. cbn [shr]. by rewrite Z.mul_1_r, Z.add_0_r. }
  unfold binary_round_aux. rewrite Hs by lia. cbn [shr_m loc_of_shr_record round_nearest_even].
  pose proof (Hs 0 (e + k)) as H0. rewrite Z.mul_1_r, Z.add_0_r in H0. rewrite H0 by lia. cbn [shr_m].
  by rewrite (proj2 (Z.leb_le _ _)) by lia.
Qed.

Lemma pos_iter_xO m d : Zpos (Pos.iter xO m d) = Zpos m * 2 ^ Zpos d.
Proof.
  revert d. apply Pos.peano_ind.
  - cbn. lia.
  - intros d IH. rewrite Pos.iter_succ, Pos2Z.inj_xO, IH, Pos2Z.inj_succ, Z.pow_succ_r by lia. lia.
Qed.

(** Integers of at most 24 bits are exact. *)
Lemma f32_of_int_exact n :
  0 < n < 2 ^ 24 -> exists m k, f32_of_int n = S754_finite false m (- k) /\ 2 ^ 23 <= Zpos m < 2 ^ 24 /\
    0 <= k <= 23 /\ Zpos m = n * 2 ^ k.
Proof.
  intros Hn. destruct n as [|p|p]; [lia| |lia]. unfold f32_of_int, binary_normalize, binary_round.
  set (d := Zpos (digits2_pos p)). pose proof (proj1 (digits2_pos_iff p d ltac:(unfold d; lia)) eq_refl) as Hd.
  assert (1 <= d) by (unfold d; lia).
  assert (d <= 24). { destruct (Z_le_gt_dec d 24); [done|]. assert (2 ^ 24 <= 2 ^ (d - 1)) by (apply Z.pow_le_mono_r; lia). lia. }
  rewrite Z.add_0_r. unfold fexp, emin. replace (Z.max (d - 24) (3 - 128 - 24)) with (d - 24) by lia.
  unfold shl_align. rewrite Z.sub_0_r.
  assert (exists m, (match d - 24 with Zneg d0 => (Pos.iter xO p d0, d - 24) | _ => (p, 0) end) = (m, d - 24) /\
    Zpos m = Zpos p * 2 ^ (24 - d)) as (m & -> & Em).
  { destruct (d - 24) as [|q|q] eqn:E; [|lia|].
    - exists p. replace (24 - d) with 0 by lia. rewrite Z.mul_1_r. done.
    - exists (Pos.iter xO p q). split; [done|]. rewrite pos_iter_xO. do 2 f_equal. lia. }
  assert (2 ^ 23 <= Zpos m < 2 ^ 24) as Hm.
  { rewrite Em. replace (2 ^ 23) with (2 ^ (d - 1) * 2 ^ (24 - d)) by (rewrite <- Z.pow_add_r by lia; f_equal; lia).
    replace (2 ^ 24) with (2 ^ d * 2 ^ (24 - d)) by (rewrite <- Z.pow_add_r by lia; f_equal; lia).
    assert (0 < 2 ^ (24 - d)) by (apply Z.pow_pos_nonneg; lia). nia. }
  exists m, (24 - d). split_and!; try lia.
  pose proof (binary_round_exact false m 0 (d - 24) Hm) as E. rewrite Z.mul_1_r, Z.add_0_r in E.
  rewrite E by lia. f_equal. lia.
Qed.

(** Multiplying by the integer 2^24, dividing by 2^13. *)
Lemma f32_mul_pow24 m e :
  2 ^ 23 <= Zpos m < 2 ^ 24 -> -173 <= e <= 80 ->
  f32_mul (f32_of_int (2 ^ 24)) (S754_finite false m e) = S754_finite false m (e + 24).
Proof.
  intros Hm He. change (f32_of_int (2 ^ 24)) with (S754_finite false 8388608 1). cbn [f32_mul SFmul xorb].
  unfold f32_mul, SFmul. cbn [xorb]. rewrite Pos.mul_comm, Pos2Z.inj_mul.
  change (Zpos 8388608) with (2 ^ 23). rewrite binary_round_exact by lia. f_equal. lia.
Qed.

Lemma f32_div_pow13 m e :
  2 ^ 23 <= Zpos m < 2 ^ 24 -> -100 <= e <= 80 ->
  f32_div (S754_finite false m e) (f32_of_int (2 ^ 13)) = S754_finite false m (e - 13).
Proof.
  intros Hm He. change (f32_of_int (2 ^ 13)) with (S754_finite false 8388608 (-10)).
  unfold f32_div, SFdiv, SFdiv_core_binary. cbn [Zdigits2 xorb].
  rewrite (proj2 (digits2_pos_iff m 24 ltac:(lia))) by lia. change (Zpos (digits2_pos 8388608)) with 24.
  assert (fexp 24 128 (24 + e - (24 + -10)) = e - 14) as -> by (unfold fexp, emin; lia).
  replace (Z.min (e - 14) (e - -10)) with (e - 14) by lia. replace (e - -10 - (e - 14)) with 24 by lia. cbv beta iota.
  rewrite Z.shiftl_mul_pow2 by lia.
  assert (IntDef.Z.div_eucl (Zpos m * 2 ^ 24) (Zpos 8388608) = (Zpos m * 2 ^ 1, 0)) as ->.
  { pose proof (Z.div_eucl_eq (Zpos m * 2 ^ 24) (Zpos 8388608)) as E1.
    pose proof (Z.mod_pos_bound (Zpos m * 2 ^ 24) (Zpos 8388608)) as E2. unfold Z.modulo in E2.
    change IntDef.Z.div_eucl with Z.div_eucl. destruct (Z.div_eucl _ _) as [q r]. f_equal; lia. }
  cbn [new_location]. unfold new_location, new_location_even. cbn [Z.even Z.eqb].
  rewrite binary_round_exact by lia. f_equal. lia.
Qed.
