(* ===== verification/HalfFloat.v ===== *)
(** * Half floats ([src/util/half_float.c])

    Single-precision numbers are their 32 bits, half-precision numbers their 16 bits.  [None] is a failed
    assertion or a rounding without result. *)
From Stdlib Require Import SpecFloat.
From S2P Require Import Prelude Float32.

(** The current rounding mode is to nearest, ties to even. *)
Definition _mesa_lroundevenf (x : spec_float) : option Z := f32_round_even x.

Definition _mesa_float_to_half (val : Z) : option Z :=
  let fi := i32 val in
  let flt_m := Z.land fi 0x7fffff in
  let flt_e := Z.land (Z.shiftr fi 23) 0xff in
  let flt_s := Z.land (Z.shiftr fi 31) 0x1 in
  let s := flt_s in
  '(e, m) ←
    (if (flt_e =? 0) && (flt_m =? 0) then Some (0, 0)
     else if (flt_e =? 0) && negb (flt_m =? 0) then Some (0, 0)
     else if (flt_e =? 0xff) && (flt_m =? 0) then Some (31, 0)
     else if (flt_e =? 0xff) && negb (flt_m =? 0) then Some (31, 1)
     else
       let new_exp := flt_e - 127 in
       if new_exp <? -14 then
         m ← _mesa_lroundevenf (f32_mul (f32_of_int (Z.shiftl 1 24)) (SFabs (f32_of_bits val)));
         Some (0, m)
       else if 15 <? new_exp then Some (31, 0)
       else
         m ← _mesa_lroundevenf (f32_div (f32_of_int flt_m) (f32_of_int (Z.shiftl 1 13)));
         Some (new_exp + 15, m));
  if negb ((0 <=? m) && (m <=? 1024)) then None else
  let '(e, m) := if m =? 1024 then (e + 1, 0) else (e, m) in
  Some (u16 (Z.lor (Z.lor (Z.shiftl s 15) (Z.shiftl e 10)) m)).

Definition _mesa_half_to_float (val : Z) : Z :=
  let m := Z.land val 0x3ff in
  let e := Z.land (Z.shiftr val 10) 0x1f in
  let s := Z.land (Z.shiftr val 15) 0x1 in
  let flt_s := s in
  let pack flt_e flt_m := u32 (Z.lor (Z.lor (Z.shiftl flt_s 31) (Z.shiftl flt_e 23)) flt_m) in
  if (e =? 0) && (m =? 0) then pack 0 0
  else if (e =? 0) && negb (m =? 0) then
    let half_denorm := f32_div (f32_of_int 1) (f32_of_int 16384) in
    let mantissa := f32_div (f32_of_int m) (f32_of_int 1024) in
    let sign := if s =? 0 then f32_of_int 1 else SFopp (f32_of_int 1) in
    bits_of_f32 (f32_mul (f32_mul sign mantissa) half_denorm)
  else if (e =? 31) && (m =? 0) then pack 0xff 0
  else if (e =? 31) && negb (m =? 0) then pack 0xff 1
  else pack (e + 112) (Z.shiftl m 13).

Definition _mesa_half_is_negative (h : Z) : bool := negb (Z.land h 0x8000 =? 0).
