(* ===== verification/HalfFloatTheorems.v ===== *)
(** * Half floats are rounded correctly

    The values of single- and half-precision numbers as integers, in units of 2^-149, the smallest
    positive single-precision number; infinity of half precision as 2^16, the number that would come
    after the largest finite one. *)
From Stdlib Require Import SpecFloat.
From S2P Require Import Prelude Float32 HalfFloat.

(** ** Formats *)




(** ** Magnitudes *)









(** ** Fields *)




(** ** The mantissa *)




(** ** From single to half precision *)







(** ** From half to single precision *)









(** ** The conversions *)





