(* ===== verification/RingVector.v ===== *)
(** * Growable circular buffers ([src/util/u_vector.c] and [u_vector.h])

    A vector is a queue of elements of one size in a buffer whose size is a power of
    two.  Its indices count bytes and are only reduced modulo the size when the buffer is
    accessed.  Pointers into the buffer are offsets.  [None] is a failed assertion or an
    access outside the buffer; [malloc] is a parameter. *)
From S2P Require Import Prelude Bytes.

Record u_vector := UVector {
  uv_head : Z; uv_tail : Z; uv_element_size : Z; uv_size : Z; uv_data : list Z }.

Definition util_is_power_of_two (v : Z) : bool := Z.land v (u32 (v - 1)) =? 0.

Definition u_align_u32 (v a : Z) : option Z :=
  if negb (negb (a =? 0) && (a =? Z.land a (u32 (- a)))) then None
  else Some (Z.land (u32 (v + a - 1)) (u32 (Z.lnot (a - 1)))).

Section Vector.

(** The new memory, or nothing. *)
Context (malloc : Z -> option (list Z)).

(** The vector, if there is memory for it. *)
Definition u_vector_init (element_size size : Z) : option (option u_vector) :=
  if negb (util_is_power_of_two size) then None
  else if negb ((element_size <? size) && util_is_power_of_two element_size) then None
  else Some (UVector 0 0 element_size size <$> malloc size).

(** The elements copied to a buffer of twice the size. *)
Definition vector_copy (v : u_vector) (data : list Z) : option (list Z) :=
  let size := u32 (uv_size v * 2) in
  let src_tail := Z.land (uv_tail v) (u32 (uv_size v - 1)) in
  let dst_tail := Z.land (uv_tail v) (u32 (size - 1)) in
  if src_tail =? 0 then memcpy data dst_tail (uv_data v) 0 (uv_size v)
  else
    split ← u_align_u32 (uv_tail v) (uv_size v);
    if negb ((uv_tail v <=? split) && (split <? uv_head v)) then None else
    data ← memcpy data dst_tail (uv_data v) src_tail (u32 (split - uv_tail v));
    memcpy data (Z.land split (u32 (size - 1))) (uv_data v) 0 (u32 (uv_head v - split)).

(** Doubles the buffer of a full vector; [Some None]: no memory. *)
Definition vector_grow (v : u_vector) : option (option u_vector) :=
  if u32 (uv_head v - uv_tail v) =? uv_size v then
    let size := u32 (uv_size v * 2) in
    match malloc size with
    | None => Some None
    | Some data =>
      data ← vector_copy v data;
      Some (Some (UVector (uv_head v) (uv_tail v) (uv_element_size v) size data))
    end
  else Some (Some v).

(** The offset of the new element, if there is memory for it. *)
Definition u_vector_add (v : u_vector) : option (u_vector * option Z) :=
  r ← vector_grow v;
  match r with
  | None => Some (v, None)
  | Some v =>
    if negb (u32 (uv_head v - uv_tail v) <? uv_size v) then None else
    let offset := Z.land (uv_head v) (u32 (uv_size v - 1)) in
    Some (UVector (u32 (uv_head v + uv_element_size v)) (uv_tail v) (uv_element_size v) (uv_size v) (uv_data v),
          Some offset)
  end.

(** The offset of the element that was first; nothing if the vector is empty. *)
Definition u_vector_remove (v : u_vector) : option (u_vector * option Z) :=
  if uv_head v =? uv_tail v then Some (v, None) else
  if negb (u32 (uv_head v - uv_tail v) <=? uv_size v) then None else
  let offset := Z.land (uv_tail v) (u32 (uv_size v - 1)) in
  Some (UVector (uv_head v) (u32 (uv_tail v + uv_element_size v)) (uv_element_size v) (uv_size v) (uv_data v),
        Some offset).

Definition u_vector_length (v : u_vector) : Z := i32 (u32 (uv_head v - uv_tail v) / uv_element_size v).

Definition u_vector_head (v : u_vector) : option Z :=
  if negb (uv_tail v <? uv_head v) then None
  else Some (Z.land (u32 (uv_head v - uv_element_size v)) (u32 (uv_size v - 1))).

Definition u_vector_tail (v : u_vector) : Z := Z.land (uv_tail v) (u32 (uv_size v - 1)).

(** The offsets of the elements from [offset] on. *)
Fixpoint vector_foreach (fuel : nat) (v : u_vector) (offset : Z) : option (list Z) :=
  match fuel with
  | O => None
  | S fuel =>
    if offset <? uv_head v then
      rest ← vector_foreach fuel v (u32 (offset + uv_element_size v));
      Some (Z.land offset (u32 (uv_size v - 1)) :: rest)
    else Some []
  end.

(** A vector holds at most as many elements as its buffer has bytes. *)
Definition u_vector_foreach (v : u_vector) : option (list Z) :=
  vector_foreach (S (length (uv_data v))) v (uv_tail v).

End Vector.
