(* ===== verification/RingVectorCorrect.v ===== *)
(** * The elements of a circular buffer

    What a vector holds ([v_rep]) and what each operation of [RingVector] makes of it. *)
From S2P Require Import Prelude Bytes RingVector.

(** ** Powers of two *)

Lemma land_pred_pow2 k x : 0 <= k <= 32 -> Z.land x (u32 (2 ^ k - 1)) = x mod 2 ^ k.
Proof.
  intros Hk. pose proof (Z.pow_le_mono_r 2 k 32). assert (0 < 2 ^ k) by (apply Z.pow_pos_nonneg; lia).
  rewrite u32_small by lia. rewrite <- Z.land_ones by lia. f_equal. rewrite Z.ones_equiv. lia.
Qed.

(** The test of the code, but for zero. *)
Lemma power_of_two_spec v :
  0 < v < 2 ^ 32 -> util_is_power_of_two v = true <-> exists k, 0 <= k < 32 /\ v = 2 ^ k.
Proof.
  intros Hv. unfold util_is_power_of_two. rewrite u32_small by lia. rewrite Z.eqb_eq. split.
  - intros E. exists (Z.log2 v). assert (0 <= Z.log2 v < 32) as Hl.
    { split; [apply Z.log2_nonneg|]. apply Z.log2_lt_pow2; lia. }
    split; [done|]. destruct (Z.eq_dec v (2 ^ Z.log2 v)) as [|Hne]; [done|exfalso].
    pose proof (Z.log2_spec v) as [H1 H2]; [lia|].
    assert (Z.log2 (v - 1) = Z.log2 v) as Hp by (apply Z.log2_unique; lia).
    assert (Z.testbit (Z.land v (v - 1)) (Z.log2 v) = true) as Ht; [|by rewrite E, Z.testbit_0_l in Ht].
    assert (0 < 2 ^ Z.log2 v) by (apply Z.pow_pos_nonneg; lia).
    rewrite Z.land_spec, Z.bit_log2 by lia. rewrite <- Hp. apply Z.bit_log2. lia.
  - intros (k & Hk & ->). rewrite <- (u32_small (2 ^ k - 1)) by lia.
    rewrite land_pred_pow2 by lia. apply Z.mod_same. lia.
Qed.

(** Rounding up to a power of two. *)
Lemma u_align_u32_spec v k :
  0 <= k < 32 -> 0 <= v -> v + 2 ^ k <= 2 ^ 32 -> v mod 2 ^ k <> 0 ->
  u_align_u32 v (2 ^ k) = Some (v + 2 ^ k - v mod 2 ^ k).
Proof.
  intros Hk Hv Hr Hm. unfold u_align_u32.
  assert (0 < 2 ^ k) by (apply Z.pow_pos_nonneg; lia).
  assert (2 ^ k < 2 ^ 32) by (apply Z.pow_lt_mono_r; lia).
  assert (2 ^ k =? Z.land (2 ^ k) (u32 (- 2 ^ k)) = true) as Ha.
  { apply Z.eqb_eq. unfold u32. rewrite <- Z.land_ones, (Z.land_comm (- 2 ^ k)), Z.land_assoc by lia.
    rewrite Z.land_ones, Z.mod_small by lia. apply Z.bits_inj'. intros n Hn.
    rewrite Z.land_spec. replace (- 2 ^ k) with (Z.lnot (Z.ones k)) by (rewrite Z.ones_equiv; unfold Z.lnot; lia).
    rewrite Z.lnot_spec, Z.testbit_ones_nonneg by lia. rewrite Z.pow2_bits_eqb by lia.
    destruct (Z.eqb_spec k n), (Z.ltb_spec n k); subst; try lia; done. }
  destruct (Z.eqb_spec (2 ^ k) 0); [lia|]. rewrite Ha. cbn [negb andb]. f_equal.
  pose proof (Z.mod_pos_bound v (2 ^ k)).
  rewrite u32_small by lia.
  replace (u32 (Z.lnot (2 ^ k - 1))) with (Z.land (Z.lnot (Z.ones k)) (Z.ones 32))
    by (rewrite Z.land_ones, Z.ones_equiv by lia; unfold u32; do 2 f_equal; lia).
  rewrite Z.land_assoc, Z.land_ones by lia. rewrite <- Z.ldiff_land, Z.ldiff_ones_r by lia.
  rewrite Z.shiftr_div_pow2, Z.shiftl_mul_pow2 by lia.
  pose proof (Z_div_mod_eq_full v (2 ^ k)) as Hd.
  replace (v + 2 ^ k - 1) with (v mod 2 ^ k - 1 + (v / 2 ^ k + 1) * 2 ^ k) at 1 by lia.
  rewrite Z.div_add, Z.div_small by lia. rewrite Z.mod_small; nia.
Qed.

(** ** Growing *)

(** A position in a buffer of size [s] and in one of twice the size. *)
Lemma mod_halves t s :
  0 < s -> 0 <= t -> exists r b d, 0 <= r < s /\ (b = 0 \/ b = 1) /\ 0 <= d /\ t = r + s * b + 2 * s * d.
Proof.
  intros Hs Ht. exists (t mod s), ((t / s) mod 2), (t / s / 2).
  pose proof (Z.mod_pos_bound t s Hs). pose proof (Z.mod_pos_bound (t / s) 2).
  pose proof (Z_div_mod_eq_full t s). pose proof (Z_div_mod_eq_full (t / s) 2).
  assert (0 <= t / s / 2) by (apply Z.div_pos; [apply Z.div_pos|]; lia). repeat split; try lia; nia.
Qed.

Lemma mod_is x m q r : 0 <= r < m -> x = m * q + r -> x mod m = r.
Proof. intros Hr Hx. symmetry. by apply (Z.mod_unique_pos _ _ q). Qed.

(** The bytes that were in use are in the new buffer, each at its own place. *)
Lemma vector_copy_spec v k data :
  0 <= k < 31 -> uv_size v = 2 ^ k -> 0 <= uv_tail v -> uv_head v = uv_tail v + 2 ^ k ->
  uv_head v < 2 ^ 32 -> Z.of_nat (length (uv_data v)) = 2 ^ k -> Z.of_nat (length data) = 2 * 2 ^ k ->
  exists data', vector_copy v data = Some data' /\ length data' = length data /\
    forall p, 0 <= p < 2 ^ k ->
      array_get data' ((uv_tail v + p) mod (2 * 2 ^ k)) = array_get (uv_data v) ((uv_tail v + p) mod 2 ^ k).
Proof.
  destruct v as [h t es sz old]. cbn [uv_size uv_tail uv_head uv_data]. intros Hk -> Ht -> Hh Ho Hd.
  assert (0 < 2 ^ k) as Hs by (apply Z.pow_pos_nonneg; lia).
  assert (2 ^ k <= 2 ^ 30) as Hs' by (apply Z.pow_le_mono_r; lia).
  unfold vector_copy. cbn [uv_size uv_tail uv_head uv_data].
  rewrite (u32_small (2 ^ k * 2)) by lia. replace (2 ^ k * 2) with (2 ^ (k + 1)) by (rewrite Z.pow_add_r; lia).
  rewrite !land_pred_pow2 by lia. replace (2 ^ (k + 1)) with (2 * 2 ^ k) by (rewrite Z.pow_add_r; lia).
  pose proof (u_align_u32_spec t k ltac:(lia) Ht ltac:(lia)) as Hal.
  assert (forall x, Z.land x (u32 (2 * 2 ^ k - 1)) = x mod (2 * 2 ^ k)) as Hland.
  { intros x. replace (2 * 2 ^ k) with (2 ^ (k + 1)) by (rewrite Z.pow_add_r; lia). apply land_pred_pow2. lia. }
  set (s := 2 ^ k) in *. clearbody s.
  destruct (mod_halves t s Hs Ht) as (r & b & d & Hr & Hb & Hd0 & Et).
  assert (t mod s = r) as Er by (apply mod_is with (b + 2 * d); lia).
  assert (0 <= s * b <= s) as Hsb by (destruct Hb as [-> | ->]; lia).
  assert (t mod (2 * s) = r + s * b) as Er2 by (apply mod_is with d; lia). rewrite Er, Er2.
  destruct (Z.eqb_spec r 0) as [->|Hr0].
  - destruct (memcpy_is_Some data (0 + s * b) old 0 s) as [m Em]; [lia..|].
    exists m. split; [done|]. split; [by eapply memcpy_length|]. intros p Hp.
    destruct (memcpy_get _ _ _ _ _ _ p Em) as [Hg _]. rewrite (mod_is (t + p) s (b + 2 * d) p) by lia.
    rewrite (mod_is (t + p) (2 * s) d (0 + s * b + p)) by lia. by apply Hg.
  - rewrite Hal by lia. cbn. rewrite Er, Hland.
    rewrite (proj2 (Z.leb_le t (t + s - r))), (proj2 (Z.ltb_lt (t + s - r) (t + s))) by lia.
    cbn [negb andb]. rewrite (u32_small (t + s - r - t)), (u32_small (t + s - (t + s - r))) by lia.
    replace (t + s - r - t) with (s - r) by lia. replace (t + s - (t + s - r)) with r by lia.
    assert ((t + s - r) mod (2 * s) = s - s * b) as Esp.
    { destruct Hb as [-> | ->]; [apply mod_is with d|apply mod_is with (d + 1)]; lia. }
    rewrite Esp. destruct (memcpy_is_Some data (r + s * b) old r (s - r)) as [m Em]; [lia..|].
    rewrite Em. cbn. pose proof (memcpy_length _ _ _ _ _ _ Em) as Hlm.
    destruct (memcpy_is_Some m (s - s * b) old 0 r) as [m2 Em2]; [lia..|].
    exists m2. split; [done|]. split; [rewrite (memcpy_length _ _ _ _ _ _ Em2); done|]. intros p Hp.
    destruct (Z.lt_ge_cases p (s - r)).
    + rewrite (mod_is (t + p) s (b + 2 * d) (r + p)), (mod_is (t + p) (2 * s) d (r + s * b + p)) by lia.
      destruct (memcpy_get _ _ _ _ _ _ p Em) as [Hg _]. rewrite <- Hg by lia.
      apply (memcpy_get _ _ _ _ _ _ (r + s * b + p) Em2). destruct Hb as [-> | ->]; lia.
    + rewrite (mod_is (t + p) s (b + 2 * d + 1) (p - (s - r))) by lia.
      rewrite (mod_is (t + p) (2 * s) (d + b) (s - s * b + (p - (s - r)))) by (destruct Hb as [-> | ->]; lia).
      apply (memcpy_get _ _ _ _ _ _ (p - (s - r)) Em2). lia.
Qed.

(** ** Elements *)

(** A vector and the elements it holds, first to last. *)
Record v_rep (v : u_vector) (items : list (list Z)) : Prop := VRep {
  vr_element : exists j, 0 <= j /\ uv_element_size v = 2 ^ j /\ (2 ^ j | uv_size v);
  vr_size : exists k, 0 <= k <= 31 /\ uv_size v = 2 ^ k;
  vr_tail : 0 <= uv_tail v /\ (uv_element_size v | uv_tail v);
  vr_head : uv_head v = uv_tail v + uv_element_size v * Z.of_nat (length items);
  vr_range : uv_head v < 2 ^ 32;
  vr_fits : uv_head v - uv_tail v <= uv_size v;
  vr_data : Z.of_nat (length (uv_data v)) = uv_size v;
  vr_items : Forall (fun x => Z.of_nat (length x) = uv_element_size v) items;
  vr_bytes : forall p, 0 <= p < uv_head v - uv_tail v ->
    array_get (uv_data v) ((uv_tail v + p) mod uv_size v) = array_get (concat items) p }.

Lemma concat_length_same (items : list (list Z)) n :
  Forall (fun x => Z.of_nat (length x) = n) items ->
  Z.of_nat (length (concat items)) = n * Z.of_nat (length items).
Proof. induction 1 as [|x l Hx _ IH]; cbn; [lia|]. rewrite length_app. lia. Qed.

Lemma concat_element (items : list (list Z)) n i x q :
  Forall (fun x => Z.of_nat (length x) = n) items -> items !! i = Some x -> 0 <= q < n ->
  array_get (concat items) (n * Z.of_nat i + q) = array_get x q.
Proof.
  intros H. revert i. induction H as [|y l Hy _ IH]; intros [|i] Hi Hq; [discriminate Hi..| |]; cbn in *.
  - injection Hi as ->. rewrite array_get_app_l by lia. f_equal. lia.
  - replace (n * Z.of_nat (S i) + q) with (Z.of_nat (length y) + (n * Z.of_nat i + q)) by lia.
    rewrite array_get_app_r by nia. by apply IH.
Qed.

(** The offset of an element. *)
Definition element_offset (v : u_vector) (i : nat) : Z :=
  (uv_tail v + uv_element_size v * Z.of_nat i) mod uv_size v.

(** Elements do not straddle the end of the buffer. *)
Lemma aligned_mod x n s q :
  0 < n -> 0 < s -> (n | x) -> (n | s) -> 0 <= q < n ->
  (x + q) mod s = x mod s + q /\ 0 <= x mod s /\ x mod s + n <= s.
Proof.
  intros Hn Hs [a ->] [b ->] Hq.
  assert (0 < b) by nia. rewrite Z.mul_mod_distr_r by lia. pose proof (Z.mod_pos_bound a b).
  assert (0 <= (a mod b) * n /\ (a mod b) * n + n <= b * n) as [? ?] by nia.
  split; [|done]. apply mod_is with (a / b); [lia|]. pose proof (Z_div_mod_eq_full a b). nia.
Qed.

(** A position that comes less than a buffer before the block is outside the block. *)
Lemma mod_apart x y n s :
  0 < s -> y < x -> x + n - y <= s -> 0 <= n -> x mod s + n <= s ->
  y mod s < x mod s \/ x mod s + n <= y mod s.
Proof.
  intros Hs Hy Hx Hn Hb. destruct (Z.lt_ge_cases (y mod s) (x mod s)) as [|H1]; [by left|].
  destruct (Z.lt_ge_cases (y mod s) (x mod s + n)) as [H2|]; [exfalso|by right].
  pose proof (Z_div_mod_eq_full x s). pose proof (Z_div_mod_eq_full y s).
  pose proof (Z.mod_pos_bound x s Hs). pose proof (Z.mod_pos_bound y s Hs).
  destruct (Z.lt_trichotomy (x / s) (y / s)) as [|[|]]; nia.
Qed.

Section Rep.

Context (v : u_vector) (items : list (list Z)) (H : v_rep v items).

Lemma rep_element_pos : 0 < uv_element_size v.
Proof. destruct H.(vr_element _ _) as (j & Hj & -> & _). lia. Qed.

Lemma rep_size_pos : 0 < uv_size v.
Proof. destruct H.(vr_size _ _) as (j & Hj & ->). lia. Qed.

Lemma rep_divides : (uv_element_size v | uv_size v).
Proof. by destruct H.(vr_element _ _) as (j & Hj & -> & ?). Qed.

Lemma rep_mask x : Z.land x (u32 (uv_size v - 1)) = x mod uv_size v.
Proof. destruct H.(vr_size _ _) as (j & Hj & ->). apply land_pred_pow2. lia. Qed.

Lemma rep_aligned i q :
  0 <= q < uv_element_size v ->
  (uv_tail v + uv_element_size v * i + q) mod uv_size v =
    (uv_tail v + uv_element_size v * i) mod uv_size v + q /\
  0 <= (uv_tail v + uv_element_size v * i) mod uv_size v /\
  (uv_tail v + uv_element_size v * i) mod uv_size v + uv_element_size v <= uv_size v.
Proof.
  intros Hq. apply aligned_mod; [apply rep_element_pos|apply rep_size_pos| |apply rep_divides|done].
  apply Z.divide_add_r; [apply H.(vr_tail _ _)|apply Z.divide_factor_l].
Qed.

(** Each element is whole at its offset. *)
Lemma rep_element i x :
  items !! i = Some x -> read_bytes (uv_data v) (element_offset v i) (uv_element_size v) = Some x.
Proof.
  intros Hi. pose proof rep_element_pos as He.
  pose proof (Forall_lookup_1 _ _ _ _ H.(vr_items _ _) Hi) as Hx. cbn in Hx.
  apply lookup_lt_Some in Hi as Hl. pose proof H.(vr_data _ _) as Hd. pose proof H.(vr_head _ _) as Hh.
  unfold element_offset. destruct (rep_aligned (Z.of_nat i) 0) as (_ & H1 & H2); [lia|].
  rewrite <- Hx. apply read_bytes_ext; [rewrite Hx; lia..|]. rewrite Hx. intros q Hq.
  destruct (rep_aligned (Z.of_nat i) q) as (<- & _); [done|].
  rewrite <- Z.add_assoc, H.(vr_bytes _ _) by nia. by apply concat_element; [apply H|..].
Qed.

End Rep.

(** ** Operations *)

(** [malloc] gives a block of the size it is asked for. *)
Definition malloc_ok (malloc : Z -> option (list Z)) : Prop :=
  forall n data, 0 <= n -> malloc n = Some data -> Z.of_nat (length data) = n.

Lemma init_rep malloc es size v :
  malloc_ok malloc -> 0 < es -> 0 < size < 2 ^ 32 -> u_vector_init malloc es size = Some (Some v) ->
  v_rep v [] /\ uv_element_size v = es /\ uv_size v = size /\ uv_head v = 0.
Proof.
  intros Hm He Hs. unfold u_vector_init.
  destruct (util_is_power_of_two size) eqn:Es; cbn [negb]; [|discriminate].
  destruct (Z.ltb_spec es size); cbn [negb andb]; [|discriminate].
  destruct (util_is_power_of_two es) eqn:Ee; cbn [negb]; [|discriminate].
  destruct (malloc size) as [data|] eqn:Ed; [|discriminate]. cbn. intros E. injection E as <-.
  apply power_of_two_spec in Es as (k & Hk & ->); [|lia].
  apply power_of_two_spec in Ee as (j & Hj & ->); [|lia]. apply Z.pow_lt_mono_r_iff in H; [|lia..].
  split; [|done]. constructor; cbn; try lia.
  - exists j. split; [lia|]. split; [done|]. exists (2 ^ (k - j)). rewrite <- Z.pow_add_r by lia. f_equal. lia.
  - exists k. split; [lia|done].
  - split; [done|apply Z.divide_0_r].
  - apply Hm; [lia|done].
  - constructor.
Qed.

(** Growing keeps the elements and makes room. *)
Lemma grow_rep malloc v items data :
  malloc_ok malloc -> v_rep v items -> uv_head v - uv_tail v = uv_size v -> uv_size v < 2 ^ 31 ->
  malloc (2 * uv_size v) = Some data ->
  exists d, vector_grow malloc v =
      Some (Some (UVector (uv_head v) (uv_tail v) (uv_element_size v) (2 * uv_size v) d)) /\
    v_rep (UVector (uv_head v) (uv_tail v) (uv_element_size v) (2 * uv_size v) d) items.
Proof.
  intros Hm H Hf Hs Hd. pose proof (rep_size_pos _ _ H) as Hsp. pose proof H.(vr_range _ _) as Hr.
  unfold vector_grow. rewrite (u32_small (uv_head v - uv_tail v)), (u32_small (uv_size v * 2)) by lia.
  rewrite Z.mul_comm, Hd, Hf, Z.eqb_refl.
  destruct H.(vr_size _ _) as (k & Hk & Ek).
  assert (k < 31) by (apply (Z.pow_lt_mono_r_iff 2); lia). pose proof H.(vr_tail _ _) as [Ht _].
  destruct (vector_copy_spec v k data) as (d & Ec & Hl & Hg); [lia|done|lia|lia|lia|..].
  { rewrite <- Ek. apply H. } { rewrite <- Ek. apply Hm; [lia|done]. }
  rewrite Ec. cbn. exists d. split; [done|]. constructor; cbn; try apply H.
  - destruct H.(vr_element _ _) as (j & Hj & E1 & E2). exists j. split; [done|]. split; [done|].
    by apply Z.divide_mul_r.
  - exists (k + 1). split; [lia|]. rewrite Ek, Z.pow_add_r by lia. lia.
  - lia.
  - rewrite Hl. apply Hm; [lia|done].
  - intros p Hp. rewrite Ek, Hg by lia. rewrite <- Ek. by apply H.
Qed.

(** The new element is at the offset that is returned; the client fills it. *)
Lemma room_rep v items e :
  v_rep v items -> uv_head v - uv_tail v < uv_size v -> Z.of_nat (length e) = uv_element_size v ->
  uv_head v + uv_element_size v < 2 ^ 32 ->
  exists d, write_bytes (uv_data v) (uv_head v mod uv_size v) e = Some d /\
    v_rep (UVector (uv_head v + uv_element_size v) (uv_tail v) (uv_element_size v) (uv_size v) d) (items ++ [e]).
Proof.
  intros H Hroom He Hr. pose proof (rep_element_pos _ _ H) as Hep. pose proof (rep_size_pos _ _ H) as Hsp.
  pose proof H.(vr_head _ _) as Hh. pose proof (rep_divides _ _ H) as Hdv. pose proof H.(vr_data _ _) as Hd.
  destruct (rep_aligned _ _ H (Z.of_nat (length items)) 0) as (_ & H1 & H2); [lia|]. rewrite <- Hh in H1, H2.
  assert (uv_head v + uv_element_size v - uv_tail v <= uv_size v) as Hfit.
  { destruct Hdv as [b Hb]. assert (Z.of_nat (length items) < b) by nia. nia. }
  rewrite write_bytes_Some by lia. eexists. split; [done|].
  pose proof (write_bytes_Some (uv_data v) (uv_head v mod uv_size v) e ltac:(lia) ltac:(lia)) as Ew.
  set (d := take _ _ ++ _) in *. clearbody d. pose proof (write_bytes_length _ _ _ _ Ew) as Hl.
  pose proof H.(vr_items _ _) as Hi. pose proof (concat_length_same _ _ Hi) as Hc.
  constructor; cbn; try apply H; try lia.
  - rewrite length_app. cbn [length]. lia.
  - apply Forall_app_2; [done|]. by constructor.
  - intros p Hp. rewrite concat_app. cbn [concat]. rewrite app_nil_r.
    destruct (Z.lt_ge_cases p (uv_head v - uv_tail v)) as [Hlt|Hge].
    + rewrite array_get_app_l by nia. rewrite <- H.(vr_bytes _ _) by lia.
      apply (write_bytes_frame _ _ _ _ _ Ew). rewrite He. apply (mod_apart _ (uv_tail v + p)); lia.
    + replace p with (Z.of_nat (length (concat items)) + (p - (uv_head v - uv_tail v))) at 2 by nia.
      rewrite array_get_app_r by lia. rewrite <- (write_bytes_get _ _ _ _ _ Ew) by lia. f_equal.
      destruct (rep_aligned _ _ H (Z.of_nat (length items)) (p - (uv_head v - uv_tail v))) as (E & _); [lia|].
      rewrite <- Hh in E. rewrite <- E. f_equal. lia.
Qed.

(** Adding an element: the vector, grown when it is full, with the place the client fills. *)
Lemma add_rep malloc v items e :
  malloc_ok malloc -> v_rep v items -> Z.of_nat (length e) = uv_element_size v ->
  uv_head v + uv_element_size v < 2 ^ 32 ->
  let full := uv_head v - uv_tail v =? uv_size v in
  let size := if full then 2 * uv_size v else uv_size v in
  (full = true -> uv_size v < 2 ^ 31 /\ exists data, malloc (2 * uv_size v) = Some data) ->
  exists m off d,
    u_vector_add malloc v =
      Some (UVector (uv_head v + uv_element_size v) (uv_tail v) (uv_element_size v) size m, Some off) /\
    write_bytes m off e = Some d /\
    v_rep (UVector (uv_head v + uv_element_size v) (uv_tail v) (uv_element_size v) size d) (items ++ [e]).
Proof.
  intros Hm H He Hr full size Hmal.
  pose proof H.(vr_head _ _) as Hh. pose proof H.(vr_fits _ _) as Hfit. pose proof H.(vr_range _ _) as Hrg.
  pose proof (rep_element_pos _ _ H) as Hep. pose proof (rep_size_pos _ _ H) as Hsp. pose proof H.(vr_tail _ _) as [Ht _].
  assert (exists w, vector_grow malloc v = Some (Some w) /\ v_rep w items /\ uv_head w - uv_tail w < uv_size w /\
    w = UVector (uv_head v) (uv_tail v) (uv_element_size v) size (uv_data w)) as (w & Eg & Hw & Hlt & Ew).
  { subst full size. destruct (Z.eqb_spec (uv_head v - uv_tail v) (uv_size v)) as [Ef|Ef].
    - destruct Hmal as (Hs & data & Hd); [done|].
      destruct (grow_rep malloc v items data) as (d & Eg & Hg); [done..|]. eexists. split; [done|].
      split; [done|]. cbn. split; [lia|done].
    - exists v. unfold vector_grow. rewrite u32_small by lia. destruct (Z.eqb_spec (uv_head v - uv_tail v) (uv_size v)); [done|].
      split; [done|]. split; [done|]. split; [lia|]. by destruct v. }
  unfold u_vector_add. rewrite Eg. cbn. rewrite (u32_small (uv_head w - uv_tail w)) by (rewrite Ew; cbn; lia).
  rewrite (proj2 (Z.ltb_lt _ _) Hlt). cbn. rewrite (rep_mask _ _ Hw).
  rewrite Ew in Hw, Hlt |- *. cbn in *.
  destruct (room_rep _ _ e Hw) as (d & Ed & Hd); [done..|]. cbn in Ed, Hd.
  rewrite u32_small by lia. by exists (uv_data w), (uv_head v mod size), d.
Qed.

(** A full vector that cannot grow is left as it is. *)
Lemma add_no_memory malloc v items :
  v_rep v items -> uv_head v - uv_tail v = uv_size v -> uv_size v < 2 ^ 31 ->
  malloc (2 * uv_size v) = None -> u_vector_add malloc v = Some (v, None).
Proof.
  intros H Hf Hs Hm. pose proof H.(vr_range _ _). pose proof H.(vr_tail _ _). pose proof (rep_size_pos _ _ H).
  unfold u_vector_add, vector_grow. rewrite !u32_small by lia. by rewrite Hf, Z.eqb_refl, Z.mul_comm, Hm.
Qed.

Lemma remove_rep v x items :
  v_rep v (x :: items) ->
  let v' := UVector (uv_head v) (uv_tail v + uv_element_size v) (uv_element_size v) (uv_size v) (uv_data v) in
  u_vector_remove v = Some (v', Some (element_offset v 0)) /\ v_rep v' items.
Proof.
  intros H v'. pose proof H.(vr_head _ _) as Hh. pose proof H.(vr_fits _ _). pose proof H.(vr_range _ _).
  pose proof (rep_element_pos _ _ H) as He. destruct H.(vr_tail _ _) as [Ht Hdt]. cbn [length] in Hh.
  unfold u_vector_remove. destruct (Z.eqb_spec (uv_head v) (uv_tail v)); [lia|].
  rewrite (u32_small (uv_head v - _)), (u32_small (_ + _)), (proj2 (Z.leb_le _ _)) by lia. cbn [negb].
  rewrite (rep_mask _ _ H). unfold element_offset. rewrite Z.mul_0_r, Z.add_0_r. split; [done|].
  pose proof H.(vr_items _ _) as Hi. apply Forall_cons_1 in Hi as [Hx Hi].
  constructor; cbn; try apply H; try lia; try done.
  - split; [lia|]. by apply Z.divide_add_r, Z.divide_refl.
  - intros p Hp. rewrite <- Z.add_assoc, H.(vr_bytes _ _) by lia. cbn [concat].
    rewrite <- Hx. apply array_get_app_r. lia.
Qed.

Lemma remove_empty v : v_rep v [] -> u_vector_remove v = Some (v, None).
Proof.
  intros H. pose proof H.(vr_head _ _) as Hh. cbn in Hh. unfold u_vector_remove.
  by rewrite (proj2 (Z.eqb_eq (uv_head v) (uv_tail v))) by lia.
Qed.

Lemma length_rep v items :
  v_rep v items -> Z.of_nat (length items) < 2 ^ 31 -> u_vector_length v = Z.of_nat (length items).
Proof.
  intros H Hl. pose proof H.(vr_head _ _) as Hh. pose proof H.(vr_range _ _). pose proof H.(vr_tail _ _).
  pose proof (rep_element_pos _ _ H). unfold u_vector_length. rewrite u32_small by nia.
  replace (uv_head v - uv_tail v) with (Z.of_nat (length items) * uv_element_size v) by lia.
  rewrite Z.div_mul by lia. unfold i32. rewrite Z.mod_small; lia.
Qed.

(** The head is the element added last, the tail the one that comes out next. *)
Lemma head_rep v items x :
  v_rep v (items ++ [x]) -> u_vector_head v = Some (element_offset v (length items)).
Proof.
  intros H. pose proof H.(vr_head _ _) as Hh. rewrite length_app in Hh. cbn in Hh. pose proof H.(vr_range _ _).
  pose proof (rep_element_pos _ _ H). pose proof H.(vr_tail _ _). unfold u_vector_head.
  rewrite (proj2 (Z.ltb_lt _ _)) by nia. cbn [negb]. rewrite (rep_mask _ _ H), u32_small by nia.
  unfold element_offset. do 2 f_equal. lia.
Qed.

Lemma tail_rep v items : v_rep v items -> u_vector_tail v = element_offset v 0.
Proof.
  intros H. unfold u_vector_tail, element_offset. rewrite (rep_mask _ _ H). f_equal. lia.
Qed.

Lemma foreach_rep v items :
  v_rep v items -> u_vector_foreach v = Some (element_offset v <$> seq 0 (length items)).
Proof.
  intros H. pose proof H.(vr_head _ _) as Hh. pose proof H.(vr_range _ _) as Hr. pose proof H.(vr_tail _ _) as [Ht _].
  pose proof (rep_element_pos _ _ H) as He. pose proof H.(vr_fits _ _) as Hf. pose proof H.(vr_data _ _) as Hd.
  unfold u_vector_foreach. cut (forall n i fuel, length items = (i + n)%nat -> (n < fuel)%nat ->
    vector_foreach fuel v (uv_tail v + uv_element_size v * Z.of_nat i) = Some (element_offset v <$> seq i n)).
  { intros Hc. replace (uv_tail v) with (uv_tail v + uv_element_size v * Z.of_nat 0) by lia. apply Hc; nia. }
  induction n as [|n IH]; intros i [|fuel] Hi Hn; [lia| |lia|]; cbn [vector_foreach].
  - by rewrite (proj2 (Z.ltb_ge _ _)) by nia.
  - rewrite (proj2 (Z.ltb_lt _ _)), (rep_mask _ _ H), u32_small by nia.
    replace (_ + _ + uv_element_size v) with (uv_tail v + uv_element_size v * Z.of_nat (S i)) by lia.
    by rewrite IH by lia.
Qed.
