(* ===== verification/RingVectorTheorems.v ===== *)
(** * A circular buffer is a queue

    The client of a vector fills the place [u_vector_add] gives and reads the places the
    other operations give ([v_step]).  Against the queue [q_step] the results are the same,
    as long as less than 2^32 bytes are added in all; past that the vector fails. *)
From S2P Require Import Prelude Bytes RingVector RingVectorCorrect.

(** ** Clients *)

Inductive v_op :=
| VAdd (malloc : Z -> option (list Z)) (e : list Z)
| VRemove | VLength | VForeach | VHead | VTail.

Inductive v_result :=
| RNull | RStored | RElement (e : list Z) | RLength (n : Z) | RElements (l : list (list Z)).

(** The element at an offset. *)
Definition v_element (v : u_vector) (offset : Z) : option (list Z) :=
  read_bytes (uv_data v) offset (uv_element_size v).

Definition v_fill (v : u_vector) (offset : Z) (e : list Z) : option u_vector :=
  data ← write_bytes (uv_data v) offset e;
  Some (UVector (uv_head v) (uv_tail v) (uv_element_size v) (uv_size v) data).

Definition v_step (v : u_vector) (op : v_op) : option (u_vector * v_result) :=
  match op with
  | VAdd malloc e =>
    r ← u_vector_add malloc v;
    match r with
    | (v, None) => Some (v, RNull)
    | (v, Some offset) => v ← v_fill v offset e; Some (v, RStored)
    end
  | VRemove =>
    r ← u_vector_remove v;
    match r with
    | (v, None) => Some (v, RNull)
    | (v, Some offset) => e ← v_element v offset; Some (v, RElement e)
    end
  | VLength => Some (v, RLength (u_vector_length v))
  | VForeach =>
    offsets ← u_vector_foreach v; es ← mapM (v_element v) offsets; Some (v, RElements es)
  | VHead => offset ← u_vector_head v; e ← v_element v offset; Some (v, RElement e)
  | VTail => e ← v_element v (u_vector_tail v); Some (v, RElement e)
  end.

(** ** The queue *)

(** The elements, the room there is for them and the bytes that were added in all. *)
Record queue := Queue { q_items : list (list Z); q_size : Z; q_added : Z }.

(** [None]: a use the vector has no answer to. *)
Definition q_step (es : Z) (q : queue) (op : v_op) : option (queue * v_result) :=
  match op with
  | VAdd malloc e =>
    let add size := Some (Queue (q_items q ++ [e]) size (q_added q + es), RStored) in
    if negb ((Z.of_nat (length e) =? es) && (q_added q + es <? 2 ^ 32)) then None
    else if es * Z.of_nat (length (q_items q)) =? q_size q then
      if 2 ^ 31 <=? q_size q then None
      else if malloc (2 * q_size q) then add (2 * q_size q) else Some (q, RNull)
    else add (q_size q)
  | VRemove =>
    match q_items q with
    | [] => Some (q, RNull)
    | e :: rest => Some (Queue rest (q_size q) (q_added q), RElement e)
    end
  | VLength =>
    if Z.of_nat (length (q_items q)) <? 2 ^ 31 then Some (q, RLength (Z.of_nat (length (q_items q)))) else None
  | VForeach => Some (q, RElements (q_items q))
  | VHead => e ← last (q_items q); Some (q, RElement e)
  | VTail => e ← head (q_items q); Some (q, RElement e)
  end.

(** The results of a sequence of operations. *)
Fixpoint v_run_ops {S} (step : S -> v_op -> option (S * v_result)) (s : S) (ops : list v_op) :
    option (S * list v_result) :=
  match ops with
  | [] => Some (s, [])
  | op :: ops => '(s, r) ← step s op; '(s, rs) ← v_run_ops step s ops; Some (s, r :: rs)
  end.

(** ** Refinement *)

Definition v_op_ok (op : v_op) : Prop :=
  match op with VAdd malloc _ => malloc_ok malloc | _ => True end.

Definition q_rep (es : Z) (v : u_vector) (q : queue) : Prop :=
  v_rep v (q_items q) /\ uv_element_size v = es /\ uv_size v = q_size q /\ uv_head v = q_added q.

Lemma v_element_lookup v items i x :
  v_rep v items -> items !! i = Some x -> v_element v (element_offset v i) = Some x.
Proof. intros H. by apply rep_element. Qed.

Lemma q_step_add es v q malloc e q' r :
  malloc_ok malloc -> q_rep es v q -> q_step es q (VAdd malloc e) = Some (q', r) ->
  exists v', v_step v (VAdd malloc e) = Some (v', r) /\ q_rep es v' q'.
Proof.
  intros Hm (H & Ees & Es & Eh) Hq. cbn [q_step] in Hq.
  destruct (Z.eqb_spec (Z.of_nat (length e)) es) as [He|]; [|discriminate Hq].
  destruct (Z.ltb_spec (q_added q + es) (2 ^ 32)) as [Hr|]; [|discriminate Hq]. cbn [negb andb] in Hq.
  pose proof H.(vr_head _ _) as Hh. pose proof (add_rep malloc v (q_items q) e Hm H) as Ha.
  cbn zeta in Ha. replace (uv_head v - uv_tail v) with (es * Z.of_nat (length (q_items q))) in Ha by lia.
  rewrite Es, Ees, Eh in Ha. cbn [v_step].
  destruct (Z.eqb_spec (es * Z.of_nat (length (q_items q))) (q_size q)) as [Ef|Ef];
    [destruct (Z.leb_spec (2 ^ 31) (q_size q)) as [|Hs]; [discriminate Hq|];
     destruct (malloc (2 * q_size q)) as [data|] eqn:Ed|]; injection Hq as <- <-.
  - destruct Ha as (m & off & d & -> & Ew & Hrep); [done|done|by eauto|]. cbn. unfold v_fill. cbn.
    rewrite Ew. cbn. eexists. split; [done|]. by split.
  - rewrite (add_no_memory malloc v (q_items q)) by (done || lia || by rewrite Es). cbn. by exists v.
  - destruct Ha as (m & off & d & -> & Ew & Hrep); [done|done|by intros|]. cbn. unfold v_fill. cbn.
    rewrite Ew. cbn. eexists. split; [done|]. by split.
Qed.

Lemma q_step_refines es v q op q' r :
  v_op_ok op -> q_rep es v q -> q_step es q op = Some (q', r) ->
  exists v', v_step v op = Some (v', r) /\ q_rep es v' q'.
Proof.
  intros Hop Hrep Hq. destruct op as [malloc e| | | | |]; [by eapply q_step_add|..];
    destruct Hrep as (H & Ees & Es & Eh); cbn [q_step v_step] in *.
  - destruct q as [[|x items] size added]; cbn in *; injection Hq as <- <-.
    + rewrite remove_empty by done. cbn. by exists v.
    + destruct (remove_rep _ _ _ H) as [-> H']. cbn. pose proof (v_element_lookup _ _ 0 x H eq_refl) as Hx.
      unfold v_element in *. cbn. rewrite Hx. cbn. eexists. split; [done|]. by split.
  - destruct (Z.ltb_spec (Z.of_nat (length (q_items q))) (2 ^ 31)); [|discriminate]. injection Hq as <- <-.
    rewrite (length_rep _ _ H) by done. by exists v.
  - injection Hq as <- <-. rewrite (foreach_rep _ _ H). cbn.
    rewrite (proj2 (mapM_Some _ _ (q_items q))); [by exists v|].
    apply Forall2_same_length_lookup_2; [by rewrite length_fmap, length_seq|].
    intros i o x Ho Hx. apply list_lookup_fmap_Some in Ho as (n & -> & Hn).
    apply lookup_seq in Hn as [-> _]. by apply (v_element_lookup _ (q_items q)).
  - destruct (last (q_items q)) as [x|] eqn:El; [|discriminate]. injection Hq as <- <-.
    apply last_Some in El as [items E]. rewrite E in H. rewrite (head_rep _ _ _ H). cbn.
    rewrite (v_element_lookup _ _ _ x H) by (by rewrite lookup_app_r, Nat.sub_diag).
    cbn. exists v. split; [done|]. split; [by rewrite E|done].
  - destruct (head (q_items q)) as [x|] eqn:El; [|discriminate]. injection Hq as <- <-.
    rewrite (tail_rep _ _ H), (v_element_lookup _ _ 0 x H) by (by rewrite <- head_lookup). cbn. by exists v.
Qed.

Lemma q_run_refines es ops : forall v q q' rs,
  Forall v_op_ok ops -> q_rep es v q -> v_run_ops (q_step es) q ops = Some (q', rs) ->
  exists v', v_run_ops v_step v ops = Some (v', rs) /\ q_rep es v' q'.
Proof.
  induction ops as [|op ops IH]; intros v q q' rs Hok Hrep Hq; cbn [v_run_ops] in *.
  - injection Hq as <- <-. by exists v.
  - apply Forall_cons in Hok as [Hop Hok].
    destruct (q_step es q op) as [[q1 r]|] eqn:E1; [|discriminate Hq]. cbn in Hq.
    destruct (v_run_ops (q_step es) q1 ops) as [[q2 rs']|] eqn:E2; [|discriminate Hq]. cbn in Hq.
    injection Hq as <- <-. destruct (q_step_refines _ _ _ _ _ _ Hop Hrep E1) as (v1 & -> & H1). cbn.
    destruct (IH _ _ _ _ Hok H1 E2) as (v2 & -> & H2). cbn. by exists v2.
Qed.

(** (C3) Every sequence of operations of a vector that [u_vector_init] made runs without a
    failed assertion or an access outside the buffer and gives the results of a first-in
    first-out queue: [u_vector_remove] the element that was added first or nothing when
    there is none, [u_vector_length] their number, [u_vector_foreach] all of them in order,
    [u_vector_head] and [u_vector_tail] the last and the first.  The elements survive every
    growth, also when they wrap around the end of the old buffer, and an addition that finds
    no memory leaves them as they were.  The queue asks for elements of the given size, for
    less than 2^32 bytes to be added in all and at most 2^31 to be held at a time, and for
    a head and a tail to exist when they are asked for. *)
Theorem vector_refines_queue malloc es size v ops q rs :
  malloc_ok malloc -> 0 < es -> 0 < size < 2 ^ 32 ->
  u_vector_init malloc es size = Some (Some v) ->
  Forall v_op_ok ops -> v_run_ops (q_step es) (Queue [] size 0) ops = Some (q, rs) ->
  exists v', v_run_ops v_step v ops = Some (v', rs) /\ v_rep v' (q_items q) /\
    uv_size v' = q_size q /\ uv_head v' = q_added q.
Proof.
  intros Hm He Hs Hi Hok Hq. destruct (init_rep _ _ _ _ Hm He Hs Hi) as (H & E1 & E2 & E3).
  destruct (q_run_refines es ops v (Queue [] size 0) q rs Hok) as (v' & Hv & H' & _ & ? & ?); [|done|by exists v'].
  by split.
Qed.

(** Blocks of zeros, and no memory at all. *)
Definition demo_malloc (n : Z) : option (list Z) := Some (replicate (Z.to_nat n) 0).
Definition demo_no_memory (_ : Z) : option (list Z) := None.

Lemma demo_malloc_ok n data : 0 <= n -> demo_malloc n = Some data -> Z.of_nat (length data) = n.
Proof. unfold demo_malloc. intros Hn E. injection E as <-. rewrite length_replicate. lia. Qed.

(** Two-byte elements in a buffer of four bytes, which grows with its elements wrapped around. *)
Definition demo_vector_ops : list v_op :=
  [VRemove; VAdd demo_malloc [1; 2]; VAdd demo_malloc [3; 4]; VRemove; VAdd demo_malloc [5; 6];
   VAdd demo_no_memory [9; 9]; VAdd demo_malloc [7; 8]; VForeach; VLength; VHead; VTail; VRemove].

Definition demo_vector : u_vector := UVector 0 0 2 4 [0; 0; 0; 0].

Lemma vector_refines_queue_witness :
  exists v', v_run_ops v_step demo_vector demo_vector_ops =
    Some (v', [RNull; RStored; RStored; RElement [1; 2]; RStored; RNull; RStored;
               RElements [[3; 4]; [5; 6]; [7; 8]]; RLength 3; RElement [7; 8]; RElement [3; 4]; RElement [3; 4]]).
Proof.
  destruct (vector_refines_queue demo_malloc 2 4 demo_vector demo_vector_ops
    (Queue [[5; 6]; [7; 8]] 8 8)
    [RNull; RStored; RStored; RElement [1; 2]; RStored; RNull; RStored;
     RElements [[3; 4]; [5; 6]; [7; 8]]; RLength 3; RElement [7; 8]; RElement [3; 4]; RElement [3; 4]])
    as (v' & H & _).
  - exact demo_malloc_ok.
  - lia.
  - lia.
  - reflexivity.
  - assert (malloc_ok demo_no_memory) by (intros n data _ E; discriminate E).
    repeat constructor; try exact demo_malloc_ok; assumption.
  - vm_compute. reflexivity.
  - exists v'. exact H.
Defined.

(** ** Indices that wrap around *)

(** An element that is added and removed, [n] times. *)
Definition add_remove (n : nat) : list v_op := concat (replicate n [VAdd demo_malloc [7]; VRemove]).

Lemma run_ops_app {S} (step : S -> v_op -> option (S * v_result)) s s1 s2 ops1 ops2 rs1 rs2 :
  v_run_ops step s ops1 = Some (s1, rs1) -> v_run_ops step s1 ops2 = Some (s2, rs2) ->
  v_run_ops step s (ops1 ++ ops2) = Some (s2, rs1 ++ rs2).
Proof.
  revert s rs1. induction ops1 as [|op ops IH]; intros s rs1 H1 H2; cbn [v_run_ops app] in *.
  - by injection H1 as <- <-.
  - destruct (step s op) as [[s' r]|]; [|discriminate H1]. cbn in *.
    destruct (v_run_ops step s' ops) as [[s3 rs3]|] eqn:E; [|discriminate H1]. cbn in H1.
    injection H1 as <- <-. by rewrite (IH s' rs3 E H2).
Qed.

(** Evaluates the steps but not the buffer. *)
Local Ltac vector_cbn :=
  cbn -[Z.land u32 write_bytes read_bytes u_vector_add u_vector_remove Z.modulo Z.sub Z.add demo_malloc take drop app].

(** Wherever the indices are. *)
Lemma add_remove_once h d :
  length d = 2%nat -> exists d' rs, length d' = 2%nat /\
    v_run_ops v_step (UVector (u32 h) (u32 h) 1 2 d) [VAdd demo_malloc [7]; VRemove] =
      Some (UVector (u32 (h + 1)) (u32 (h + 1)) 1 2 d', rs).
Proof.
  intros Hd. vector_cbn.
  unfold u_vector_add, vector_grow. vector_cbn.
  rewrite Z.sub_diag. change (u32 0) with 0. vector_cbn.
  rewrite (land_pred_pow2 1) by lia. change (2 ^ 1) with 2. pose proof (Z.mod_pos_bound (u32 h) 2).
  rewrite Z.sub_diag. change (u32 0) with 0. vector_cbn.
  unfold v_fill. vector_cbn.
  rewrite write_bytes_Some by (cbn [length]; lia). vector_cbn.
  set (d' := take _ d ++ _). assert (length d' = 2%nat) as Hd'.
  { rewrite <- Hd. apply (write_bytes_length d (u32 h mod 2) [7]). apply write_bytes_Some; cbn [length]; lia. }
  unfold u_vector_remove. cbn [uv_head uv_tail uv_size uv_data uv_element_size].
  assert (u32 (u32 h + 1) = u32 (h + 1)) as E1 by (unfold u32; by rewrite Zplus_mod_idemp_l).
  assert (u32 (u32 (h + 1) - u32 h) = 1) as E2.
  { unfold u32. rewrite <- Zminus_mod. replace (h + 1 - h) with 1 by lia. done. }
  rewrite E1. destruct (Z.eqb_spec (u32 (h + 1)) (u32 h)) as [E|_].
  { rewrite E, Z.sub_diag in E2. discriminate E2. }
  rewrite E2. vector_cbn.
  rewrite (land_pred_pow2 1) by lia. change (2 ^ 1) with 2.
  unfold v_element. cbn [uv_data uv_element_size].
  destruct (read_bytes_is_Some d' (u32 h mod 2) 1) as [e ->]; [lia..|]. cbn. exists d'. by eauto.
Qed.

Lemma add_remove_run n : forall h d,
  length d = 2%nat -> exists d' rs, length d' = 2%nat /\
    v_run_ops v_step (UVector (u32 h) (u32 h) 1 2 d) (add_remove n) =
      Some (UVector (u32 (h + Z.of_nat n)) (u32 (h + Z.of_nat n)) 1 2 d', rs).
Proof.
  induction n as [|n IH]; intros h d Hd.
  - exists d, []. split; [done|]. by rewrite Z.add_0_r.
  - destruct (add_remove_once h d Hd) as (d1 & rs1 & Hd1 & E1).
    destruct (IH (h + 1) d1 Hd1) as (d2 & rs2 & Hd2 & E2). exists d2, (rs1 ++ rs2). split; [done|].
    change (add_remove (S n)) with ([VAdd demo_malloc [7]; VRemove] ++ add_remove n).
    rewrite (run_ops_app _ _ _ _ [_; _] (add_remove n) _ _ E1 E2).
    replace (h + 1 + Z.of_nat n) with (h + Z.of_nat (S n)) by lia. done.
Qed.

(** After 2^32 - 1 elements of one byte went through a buffer of two bytes, two more make the
    head wrap around to 1, below the tail.  The length is right, as the comment of the file
    says, but [u_vector_foreach] visits nothing and the assertions of [u_vector_head] and of
    the growth in [u_vector_add] fail. *)
Theorem vector_wraparound :
  exists v ops v' rs, u_vector_init demo_malloc 1 2 = Some (Some v) /\
    v_run_ops v_step v ops = Some (v', rs) /\
    v_step v' VLength = Some (v', RLength 2) /\ v_step v' VForeach = Some (v', RElements []) /\
    v_step v' VHead = None /\ v_step v' (VAdd demo_malloc [7]) = None.
Proof.
  destruct (add_remove_run (Z.to_nat (2 ^ 32 - 1)) 0 [0; 0] eq_refl) as (d & rs & Hd & E).
  rewrite Z2Nat.id in E by lia. destruct d as [|a [|b [|? ?]]]; [discriminate Hd..| |discriminate Hd].
  exists (UVector 0 0 1 2 [0; 0]), (add_remove (Z.to_nat (2 ^ 32 - 1)) ++ [VAdd demo_malloc [7]; VAdd demo_malloc [8]]).
  exists (UVector 1 (2 ^ 32 - 1) 1 2 [8; 7]), (rs ++ [RStored; RStored]).
  split; [done|]. split; [|split_and!; vm_compute; reflexivity].
  eapply run_ops_app; [exact E|]. vm_compute. reflexivity.
Qed.
