(* ===== verification/Blob.v ===== *)
(** * Serialization buffers ([src/compiler/blob.c] and [blob.h])

    A blob is a buffer that values are appended to; a reader takes them out again.  Pointers
    are offsets from the start of the data, [size_t] and [intptr_t] have 64 bits.  [None] is a
    failed assertion or an access outside the buffer; [realloc] is a parameter. *)
From S2P Require Import Prelude Bytes.

(** Signed words of 64 bits. *)
Definition i64 (x : Z) : Z := (x + 2 ^ 63) mod 2 ^ 64 - 2 ^ 63.

(** [memset] on a part of a buffer. *)
Definition memset (m : list Z) (o x n : Z) : option (list Z) := write_bytes m o (replicate (Z.to_nat n) x).

(** The alignments are constants, powers of two below 2^31. *)
Definition ALIGN (value alignment : Z) : option Z :=
  if negb ((0 <? alignment) && (Z.land alignment (alignment - 1) =? 0)) then None
  else Some (Z.land (u64 (value + alignment - 1)) (Z.lnot (alignment - 1))).

Definition sizeof_uint32 : Z := 4.
Definition sizeof_uint64 : Z := 8.
Definition sizeof_intptr : Z := 8.

(** ** Writing *)

Record blob := Blob {
  bl_data : option (list Z); bl_allocated : Z; bl_size : Z;
  bl_fixed_allocation : bool; bl_out_of_memory : bool }.

Definition BLOB_INITIAL_SIZE : Z := 4096.

Definition blob_set_size (b : blob) (size : Z) : blob :=
  Blob (bl_data b) (bl_allocated b) size (bl_fixed_allocation b) (bl_out_of_memory b).
Definition blob_set_data (b : blob) (data : option (list Z)) (allocated : Z) : blob :=
  Blob data allocated (bl_size b) (bl_fixed_allocation b) (bl_out_of_memory b).
Definition blob_set_out_of_memory (b : blob) : blob :=
  Blob (bl_data b) (bl_allocated b) (bl_size b) (bl_fixed_allocation b) true.

Section Writer.

(** The new memory, or nothing. *)
Context (realloc : option (list Z) -> Z -> option (list Z)).

Definition grow_to_fit (b : blob) (additional : Z) : blob * bool :=
  if bl_out_of_memory b then (b, false)
  else if u64 (bl_size b + additional) <=? bl_allocated b then (b, true)
  else if bl_fixed_allocation b then (blob_set_out_of_memory b, false)
  else
    let to_allocate := if bl_allocated b =? 0 then BLOB_INITIAL_SIZE else u64 (bl_allocated b * 2) in
    let to_allocate := Z.max to_allocate (u64 (bl_allocated b + additional)) in
    match realloc (bl_data b) to_allocate with
    | None => (blob_set_out_of_memory b, false)
    | Some new_data => (blob_set_data b (Some new_data) to_allocate, true)
    end.

(** What is stored into the data, when there is any. *)
Definition blob_store (b : blob) (f : list Z -> option (list Z)) : option blob :=
  match bl_data b with
  | None => Some b
  | Some d => d ← f d; Some (blob_set_data b (Some d) (bl_allocated b))
  end.

Definition align_blob (b : blob) (alignment : Z) : option (blob * bool) :=
  new_size ← ALIGN (bl_size b) alignment;
  if bl_size b <? new_size then
    match grow_to_fit b (new_size - bl_size b) with
    | (b, false) => Some (b, false)
    | (b, true) =>
      b ← blob_store b (fun d => memset d (bl_size b) 0 (new_size - bl_size b));
      Some (blob_set_size b new_size, true)
    end
  else Some (b, true).

Definition blob_init : blob := Blob None 0 0 false false.
Definition blob_init_fixed (data : option (list Z)) (size : Z) : blob := Blob data size 0 true false.

Definition blob_overwrite_bytes (b : blob) (offset : Z) (bytes : list Z) : option (blob * bool) :=
  let to_write := Z.of_nat (length bytes) in
  if (u64 (offset + to_write) <? offset) || (bl_size b <? u64 (offset + to_write)) then Some (b, false)
  else b ← blob_store b (fun d => write_bytes d offset bytes); Some (b, true).

Definition blob_write_bytes (b : blob) (bytes : list Z) : option (blob * bool) :=
  let to_write := Z.of_nat (length bytes) in
  match grow_to_fit b to_write with
  | (b, false) => Some (b, false)
  | (b, true) =>
    b ← blob_store b (fun d => write_bytes d (bl_size b) bytes);
    Some (blob_set_size b (u64 (bl_size b + to_write)), true)
  end.

(** The offset of the reserved bytes, or -1. *)
Definition blob_reserve_bytes (b : blob) (to_write : Z) : blob * Z :=
  match grow_to_fit b to_write with
  | (b, false) => (b, -1)
  | (b, true) => (blob_set_size b (u64 (bl_size b + to_write)), i64 (bl_size b))
  end.

Definition blob_reserve_uint32 (b : blob) : option (blob * Z) :=
  '(b, _) ← align_blob b sizeof_uint32; Some (blob_reserve_bytes b sizeof_uint32).

Definition blob_reserve_intptr (b : blob) : option (blob * Z) :=
  '(b, _) ← align_blob b sizeof_intptr; Some (blob_reserve_bytes b sizeof_intptr).

Definition blob_write_uint32 (b : blob) (value : Z) : option (blob * bool) :=
  '(b, _) ← align_blob b sizeof_uint32; blob_write_bytes b (le32 value).

Definition ASSERT_ALIGNED (offset align : Z) : option unit :=
  a ← ALIGN offset align; if a =? offset then Some () else None.

Definition blob_overwrite_uint32 (b : blob) (offset value : Z) : option (blob * bool) :=
  _ ← ASSERT_ALIGNED offset sizeof_uint32; blob_overwrite_bytes b offset (le32 value).

Definition blob_write_uint64 (b : blob) (value : Z) : option (blob * bool) :=
  '(b, _) ← align_blob b sizeof_uint64; blob_write_bytes b (le64 value).

(** A signed value is stored in two's complement. *)
Definition blob_write_intptr (b : blob) (value : Z) : option (blob * bool) :=
  '(b, _) ← align_blob b sizeof_intptr; blob_write_bytes b (le64 (u64 value)).

Definition blob_overwrite_intptr (b : blob) (offset value : Z) : option (blob * bool) :=
  _ ← ASSERT_ALIGNED offset sizeof_intptr; blob_overwrite_bytes b offset (le64 (u64 value)).

(** The characters of [str] come before its terminator. *)
Definition blob_write_string (b : blob) (str : list Z) : option (blob * bool) :=
  blob_write_bytes b (str ++ [0]).

End Writer.

(** ** Reading *)

Record blob_reader := BlobReader {
  br_data : list Z; br_end : Z; br_current : Z; br_overrun : bool }.

Definition set_current (r : blob_reader) (current : Z) : blob_reader :=
  BlobReader (br_data r) (br_end r) current (br_overrun r).
Definition set_overrun (r : blob_reader) : blob_reader :=
  BlobReader (br_data r) (br_end r) (br_current r) true.

Definition align_blob_reader (r : blob_reader) (alignment : Z) : option blob_reader :=
  current ← ALIGN (br_current r) alignment; Some (set_current r current).

Definition blob_reader_init (data : list Z) (size : Z) : blob_reader := BlobReader data size 0 false.

Definition ensure_can_read (r : blob_reader) (size : Z) : blob_reader * bool :=
  if br_overrun r then (r, false)
  else if (br_current r <? br_end r) && (size <=? br_end r - br_current r) then (r, true)
  else (set_overrun r, false).

(** Where the bytes are, or nothing. *)
Definition blob_read_bytes (r : blob_reader) (size : Z) : blob_reader * option Z :=
  match ensure_can_read r size with
  | (r, false) => (r, None)
  | (r, true) => (set_current r (br_current r + size), Some (br_current r))
  end.

(** The reader and the destination. *)
Definition blob_copy_bytes (r : blob_reader) (dest : list Z) (size : Z) : option (blob_reader * list Z) :=
  match blob_read_bytes r size with
  | (r, None) => Some (r, dest)
  | (r, Some bytes) => dest ← memcpy dest 0 (br_data r) bytes size; Some (r, dest)
  end.

Definition blob_read_uint32 (r : blob_reader) : option (blob_reader * Z) :=
  r ← align_blob_reader r sizeof_uint32;
  match ensure_can_read r sizeof_uint32 with
  | (r, false) => Some (r, 0)
  | (r, true) =>
    ret ← read32 (br_data r) (br_current r);
    Some (set_current r (br_current r + sizeof_uint32), ret)
  end.

Definition blob_read_uint64 (r : blob_reader) : option (blob_reader * Z) :=
  r ← align_blob_reader r sizeof_uint64;
  match ensure_can_read r sizeof_uint64 with
  | (r, false) => Some (r, 0)
  | (r, true) =>
    ret ← read64 (br_data r) (br_current r);
    Some (set_current r (br_current r + sizeof_uint64), ret)
  end.

Definition blob_read_intptr (r : blob_reader) : option (blob_reader * Z) :=
  r ← align_blob_reader r sizeof_intptr;
  match ensure_can_read r sizeof_intptr with
  | (r, false) => Some (r, 0)
  | (r, true) =>
    ret ← read64 (br_data r) (br_current r);
    Some (set_current r (br_current r + sizeof_intptr), i64 ret)
  end.

(** The distance to the first zero byte among [n] from [o] on. *)
Definition memchr0 (m : list Z) (o n : Z) : option (option Z) :=
  bs ← read_bytes m o n;
  Some ((fun p => Z.of_nat p.1) <$> list_find (fun x => x = 0) bs).

(** Where the string is, or nothing. *)
Definition blob_read_string (r : blob_reader) : option (blob_reader * option Z) :=
  if br_end r <=? br_current r then Some (set_overrun r, None)
  else
    nul ← memchr0 (br_data r) (br_current r) (br_end r - br_current r);
    match nul with
    | None => Some (set_overrun r, None)
    | Some n =>
      let size := i32 (n + 1) in
      match ensure_can_read r (u64 size) with
      | (_, false) => None
      | (r, true) => Some (set_current r (br_current r + size), Some (br_current r))
      end
    end.
