(* ===== verification/BlobCorrect.v ===== *)
(** * What a blob holds

    The bytes of a blob as a list in which reserved bytes are not known yet ([blob_rep]), and
    what each operation of [Blob] makes of it, with memory running out included. *)
From S2P Require Import Prelude Bytes Blob.

(** ** Words and alignment *)

Lemma i64_u64 x : - 2 ^ 63 <= x < 2 ^ 63 -> i64 (u64 x) = x.
Proof. intros Hx. unfold i64, u64. rewrite Zplus_mod_idemp_l, Z.mod_small; lia. Qed.

(** The bytes that are skipped up to the next multiple of [a]. *)
Definition pad (a s : Z) : Z := (- s) mod a.

Lemma pad_pos a s : 0 < a -> 0 <= pad a s < a.
Proof. apply Z.mod_pos_bound. Qed.

Lemma ALIGN_spec v k :
  0 <= k -> 0 <= v -> v + 2 ^ k <= 2 ^ 64 -> ALIGN v (2 ^ k) = Some (v + pad (2 ^ k) v).
Proof.
  intros Hk Hv Hr. unfold ALIGN, pad. assert (0 < 2 ^ k) by (apply Z.pow_pos_nonneg; lia).
  destruct (Z.ltb_spec 0 (2 ^ k)); [|lia].
  replace (2 ^ k - 1) with (Z.ones k) by (rewrite Z.ones_equiv; lia).
  rewrite (Z.land_ones (2 ^ k)), Z.mod_same by lia. cbn [negb andb Z.eqb]. f_equal.
  rewrite u64_small by lia. rewrite <- Z.ldiff_land, Z.ldiff_ones_r by lia.
  rewrite Z.shiftr_div_pow2, Z.shiftl_mul_pow2 by lia.
  pose proof (Z_div_mod_eq_full (- v) (2 ^ k)) as Hd. pose proof (Z.mod_pos_bound (- v) (2 ^ k)).
  replace (v + 2 ^ k - 1) with (2 ^ k - 1 - (- v) mod 2 ^ k + (- (- v / 2 ^ k)) * 2 ^ k) by lia.
  rewrite Z.div_add, Z.div_small by lia. lia.
Qed.

(** The alignments of the code. *)
Definition alignment_ok (a : Z) : Prop := a = 1 \/ a = 4 \/ a = 8.

Lemma ALIGN_ok v a :
  alignment_ok a -> 0 <= v <= 2 ^ 62 -> ALIGN v a = Some (v + pad a v).
Proof.
  intros Ha Hv. destruct Ha as [-> | [-> | ->]];
    [apply (ALIGN_spec v 0)|apply (ALIGN_spec v 2)|apply (ALIGN_spec v 3)]; lia.
Qed.

Lemma pad_aligned a v : 0 < a -> pad a (v + pad a v) = 0.
Proof.
  intros Ha. unfold pad. replace (- (v + (- v) mod a)) with (- v - (- v) mod a) by lia.
  by rewrite Zminus_mod_idemp_r, Z.sub_diag.
Qed.

(** ** Blobs *)

(** The known bytes are in the buffer. *)
Definition known (l : list (option Z)) (d : list Z) : Prop :=
  forall i x, l !! i = Some (Some x) -> d !! i = Some x.

Record blob_rep (b : blob) (l : list (option Z)) : Prop := BlobRep {
  rp_memory : bl_out_of_memory b = false;
  rp_size : bl_size b = Z.of_nat (length l);
  rp_fits : bl_size b <= bl_allocated b < 2 ^ 64;
  rp_growable : bl_fixed_allocation b = false -> bl_allocated b <= 2 ^ 63;
  rp_data :
    match bl_data b with
    | Some d => Z.of_nat (length d) = bl_allocated b /\ known l d
    | None => bl_fixed_allocation b = true \/ bl_allocated b = 0
    end }.

(** [realloc] gives a block of the size it is asked for that keeps the bytes of the old one. *)
Definition realloc_ok (realloc : option (list Z) -> Z -> option (list Z)) : Prop :=
  forall old n new, 0 <= n -> realloc old n = Some new -> Z.of_nat (length new) = n /\
    forall d, old = Some d -> forall i x, Z.of_nat i < n -> d !! i = Some x -> new !! i = Some x.

(** A fixed buffer stays as large as it is, and data that is there stays there. *)
Definition blob_kept (b b' : blob) : Prop :=
  bl_fixed_allocation b' = bl_fixed_allocation b /\
  (bl_fixed_allocation b = true -> bl_allocated b' = bl_allocated b) /\
  (is_Some (bl_data b) -> is_Some (bl_data b')).

Lemma blob_kept_refl b : blob_kept b b.
Proof. by split_and!. Qed.

Lemma blob_kept_trans b b1 b2 : blob_kept b b1 -> blob_kept b1 b2 -> blob_kept b b2.
Proof.
  intros (E1 & E2 & E3) (F1 & F2 & F3). split; [congruence|]. split; [|by auto].
  intros Ef. rewrite F2, E2; congruence.
Qed.

Section Writer.

Context (realloc : option (list Z) -> Z -> option (list Z)) (Hrealloc : realloc_ok realloc).

(** There is memory for [n] more bytes. *)
Definition can_grow (b : blob) (n : Z) : Prop :=
  if bl_fixed_allocation b then bl_size b + n <= bl_allocated b
  else forall old n, is_Some (realloc old n).

(** The blob that an operation leaves, which may have found no memory. *)
Definition grown (b : blob) (n : Z) (b' : blob) (ok : bool) (l : list (option Z)) : Prop :=
  blob_kept b b' /\ if ok then blob_rep b' l else bl_out_of_memory b' = true /\ ~ can_grow b n.

Lemma grow_to_fit_rep b l n :
  blob_rep b l -> 0 <= n -> bl_size b + n <= 2 ^ 62 ->
  exists b' ok, grow_to_fit realloc b n = (b', ok) /\ grown b n b' ok l /\
    bl_size b' = bl_size b /\ (ok = true -> bl_size b + n <= bl_allocated b').
Proof.
  intros H Hn Hr. pose proof H.(rp_size _ _) as Hs. pose proof H.(rp_fits _ _) as Hf.
  unfold grow_to_fit. rewrite H.(rp_memory _ _), u64_small by lia.
  destruct (Z.leb_spec (bl_size b + n) (bl_allocated b)) as [Hle|Hgt]; [by exists b, true; repeat split; try apply H; auto|].
  unfold grown, can_grow. destruct (bl_fixed_allocation b) eqn:Ef.
  { eexists _, false. split; [done|]. split; [|done]. split; [by split; [|split]|]. cbn. split; [done|lia]. }
  pose proof (H.(rp_growable _ _) Ef) as Hg.
  set (m := Z.max _ _). assert (bl_size b + n <= m <= 2 ^ 63) as Hm.
  { subst m. rewrite !u64_small by lia. unfold BLOB_INITIAL_SIZE.
    destruct (Z.eqb_spec (bl_allocated b) 0); lia. }
  clearbody m. assert (0 <= m) as Hm0 by lia.
  destruct (realloc (bl_data b) m) as [new|] eqn:En.
  - eexists _, true. split; [done|]. split; [|split; [done|intros _; cbn; lia]].
    split; [by split_and!; [|cbn; congruence|eauto]|].
    destruct (Hrealloc _ _ _ Hm0 En) as [Hl Hk]. constructor; cbn; try apply H; try lia.
    split; [done|]. intros i x Hi. apply lookup_lt_Some in Hi as Hil.
    destruct (bl_data b) as [d|] eqn:Ed.
    + apply (Hk d eq_refl); [lia|]. pose proof H.(rp_data _ _) as Hd. rewrite Ed in Hd. by apply Hd.
    + pose proof H.(rp_data _ _) as Hd. rewrite Ed, Ef in Hd. destruct Hd as [|Hd]; [done|lia].
  - eexists _, false. split; [done|]. split; [|done]. split; [by split; [|split]|]. split; [done|].
    intros Hc. destruct (Hc (bl_data b) m) as [? E]. by rewrite E in En.
Qed.

(** Nothing is written any more. *)
Lemma grow_to_fit_oom b n : bl_out_of_memory b = true -> grow_to_fit realloc b n = (b, false).
Proof. intros H. unfold grow_to_fit. by rewrite H. Qed.

(** Stores the bytes after the ones that are there. *)
Lemma store_rep b l bs :
  blob_rep b l -> bl_size b + Z.of_nat (length bs) <= bl_allocated b ->
  exists b', blob_store b (fun d => write_bytes d (bl_size b) bs) = Some b' /\ bl_size b' = bl_size b /\
    blob_kept b b' /\
    blob_rep (blob_set_size b' (bl_size b + Z.of_nat (length bs))) (l ++ (Some <$> bs)).
Proof.
  intros H Hfit. pose proof H.(rp_size _ _) as Hs. pose proof H.(rp_fits _ _) as Hf.
  pose proof H.(rp_data _ _) as Hd. unfold blob_store. destruct (bl_data b) as [d|] eqn:Ed.
  - destruct Hd as [Hl Hk]. rewrite write_bytes_Some by lia. cbn. eexists. split; [done|].
    split_and!; try done. constructor; cbn; try apply H; try lia.
    + rewrite length_app, length_fmap. lia.
    + pose proof (write_bytes_Some d (bl_size b) bs ltac:(lia) ltac:(lia)) as Ew.
      set (d' := take _ _ ++ _) in *. clearbody d'. pose proof (write_bytes_length _ _ _ _ Ew).
      split; [lia|]. intros i x Hi. rewrite <- array_get_nat.
      apply lookup_app_Some in Hi as [Hi|[Hge Hi]].
      * apply lookup_lt_Some in Hi as Hil. rewrite (write_bytes_frame _ _ _ _ _ Ew) by lia.
        rewrite array_get_nat. by apply Hk.
      * apply list_lookup_fmap_Some in Hi as (y & Ey & Hi). injection Ey as ->.
        apply lookup_lt_Some in Hi as Hil.
        replace (Z.of_nat i) with (bl_size b + Z.of_nat (i - length l)) by lia.
        rewrite (write_bytes_get _ _ _ _ _ Ew) by lia. by rewrite array_get_nat.
  - exists b. split_and!; try done. constructor; cbn; try apply H; try lia.
    + rewrite length_app, length_fmap. lia.
    + by rewrite Ed.
Qed.

Lemma blob_write_bytes_rep b l bs :
  blob_rep b l -> bl_size b + Z.of_nat (length bs) <= 2 ^ 62 ->
  exists b' ok, blob_write_bytes realloc b bs = Some (b', ok) /\
    grown b (Z.of_nat (length bs)) b' ok (l ++ (Some <$> bs)).
Proof.
  intros H Hr. unfold blob_write_bytes. pose proof H.(rp_size _ _) as Hs.
  destruct (grow_to_fit_rep b l (Z.of_nat (length bs))) as (b1 & [] & -> & (Hkept & Hb) & Es & Hfit); [done|lia|lia| |].
  - destruct (store_rep b1 l bs Hb) as (b2 & E & Es2 & Hk2 & Hb2); [rewrite Es; auto|].
    rewrite E. cbn. rewrite Es2, u64_small by lia. eexists _, true. split; [done|].
    split; [by apply (blob_kept_trans b b1)|done].
  - by exists b1, false.
Qed.

Lemma align_blob_rep b l a :
  blob_rep b l -> alignment_ok a -> bl_size b + pad a (bl_size b) <= 2 ^ 62 ->
  exists b' ok, align_blob realloc b a = Some (b', ok) /\
    grown b (pad a (bl_size b)) b' ok (l ++ replicate (Z.to_nat (pad a (bl_size b))) (Some 0)).
Proof.
  intros H Ha Hr. unfold align_blob. pose proof H.(rp_size _ _) as Hs.
  assert (0 <= pad a (bl_size b)) by (apply pad_pos; destruct Ha as [-> | [-> | ->]]; done).
  rewrite ALIGN_ok by (done || lia). cbn. destruct (Z.ltb_spec (bl_size b) (bl_size b + pad a (bl_size b))) as [Hlt|].
  - replace (bl_size b + pad a (bl_size b) - bl_size b) with (pad a (bl_size b)) by lia.
    destruct (grow_to_fit_rep b l (pad a (bl_size b))) as (b1 & [] & -> & (Hkept & Hb) & Es & Hfit); [done..| |].
    + destruct (store_rep b1 l (replicate (Z.to_nat (pad a (bl_size b))) 0) Hb) as (b2 & E & Es2 & Hk2 & Hb2).
      { rewrite length_replicate, Es, Z2Nat.id by done. auto. }
      unfold memset. rewrite Es. rewrite Es in E.
      replace (bl_size b + pad a (bl_size b) - bl_size b) with (pad a (bl_size b)) by lia.
      rewrite E. cbn. eexists _, true. split; [done|]. split; [by apply (blob_kept_trans b b1)|].
      rewrite length_replicate, Z2Nat.id, Es, fmap_replicate in Hb2 by done. done.
    + by exists b1, false.
  - exists b, true. split; [done|]. replace (pad a (bl_size b)) with 0 by lia. cbn. rewrite app_nil_r. split; [apply blob_kept_refl|done].
Qed.

Lemma blob_reserve_bytes_rep b l n :
  blob_rep b l -> bl_size b + Z.of_nat n <= 2 ^ 62 ->
  exists b' ok, blob_reserve_bytes realloc b (Z.of_nat n) = (b', if ok : bool then bl_size b else -1) /\
    grown b (Z.of_nat n) b' ok (l ++ replicate n None).
Proof.
  intros H Hr. unfold blob_reserve_bytes. pose proof H.(rp_size _ _) as Hs.
  destruct (grow_to_fit_rep b l (Z.of_nat n)) as (b1 & [] & -> & (Hkept & Hb) & Es & Hfit); [done|lia|lia| |].
  - rewrite Es, u64_small by lia. unfold i64. rewrite (Z.mod_small (bl_size b + 2 ^ 63)) by lia.
    eexists _, true. split; [f_equal; lia|]. split; [done|].
    constructor; cbn; try apply Hb; try (rewrite length_app, length_replicate; lia).
    + split; [by auto|]. apply Hb.
    + pose proof Hb.(rp_data _ _) as Hd. destruct (bl_data b1) as [d|]; [|done]. destruct Hd as [Hl Hk]. split; [done|].
      intros i x [Hi|[_ Hi]]%lookup_app_Some; [by apply Hk|]. by apply lookup_replicate in Hi as [? _].
  - by exists b1, false.
Qed.

(** Bytes in the middle, reserved or not, are replaced. *)
Lemma blob_overwrite_bytes_rep b l1 l2 l3 bs :
  blob_rep b (l1 ++ l2 ++ l3) -> length l2 = length bs -> bl_size b <= 2 ^ 62 ->
  exists b', blob_overwrite_bytes b (Z.of_nat (length l1)) bs = Some (b', true) /\
    blob_kept b b' /\
    blob_rep b' (l1 ++ (Some <$> bs) ++ l3).
Proof.
  intros H Hl2 Hr. pose proof H.(rp_size _ _) as Hs. rewrite !length_app in Hs. pose proof H.(rp_fits _ _) as Hf.
  unfold blob_overwrite_bytes. rewrite u64_small by lia.
  rewrite (proj2 (Z.ltb_ge _ _)), (proj2 (Z.ltb_ge (bl_size b) _)) by lia. cbn [orb].
  pose proof H.(rp_data _ _) as Hd. unfold blob_store. destruct (bl_data b) as [d|] eqn:Ed.
  - destruct Hd as [Hl Hk].
    pose proof (write_bytes_Some d (Z.of_nat (length l1)) bs ltac:(lia) ltac:(lia)) as Ew.
    set (d' := take _ _ ++ _) in *. clearbody d'. rewrite Ew. cbn. eexists. split; [done|].
    split_and!; try done. constructor; cbn; try apply H; try lia.
    + rewrite !length_app, length_fmap. lia.
    + rewrite (write_bytes_length _ _ _ _ Ew). split; [done|]. intros i x Hi. rewrite <- array_get_nat.
      destruct (decide (length l1 <= i < length l1 + length bs)%nat) as [Hin|Hout].
      * rewrite lookup_app_r, lookup_app_l, list_lookup_fmap in Hi by (rewrite ?length_fmap; lia).
        replace (Z.of_nat i) with (Z.of_nat (length l1) + Z.of_nat (i - length l1)) by lia.
        rewrite (write_bytes_get _ _ _ _ _ Ew) by lia. rewrite array_get_nat.
        destruct (bs !! (i - length l1)%nat); cbn in Hi; congruence.
      * rewrite (write_bytes_frame _ _ _ _ _ Ew) by lia. rewrite array_get_nat. apply Hk. rewrite <- Hi.
        destruct (decide (i < length l1)%nat); [by rewrite !lookup_app_l by lia|].
        rewrite !(lookup_app_r l1), !lookup_app_r by (rewrite ?length_fmap; lia). by rewrite length_fmap, Hl2.
  - exists b. split_and!; try done. constructor; try apply H.
    + rewrite !length_app, length_fmap. lia.
    + by rewrite Ed.
Qed.

End Writer.
