(* ===== verification/BlobItems.v ===== *)
(** * Values in a blob

    A client that appends values, reserves places, fills them in at the end and stops at the
    first failure ([blob_write_all]); the bytes this gives ([blob_layout]). *)
From S2P Require Import Prelude Bytes Blob BlobCorrect.

(** ** The client *)

Inductive blob_item :=
| BBytes (bs : list Z) | BU32 (x : Z) | BU64 (x : Z) | BIntptr (x : Z) | BString (str : list Z)
| BReserveBytes (bs : list Z) | BReserveU32 (x : Z) | BReserveIntptr (x : Z).

Section Client.

Context (realloc : option (list Z) -> Z -> option (list Z)).

(** The offset of a place that was reserved; nothing if the blob reports a failure. *)
Definition write_item (b : blob) (it : blob_item) : option (blob * option Z) :=
  let written r := '(b, ok) ← r; Some (b, if ok : bool then Some 0 else None) in
  let reserved r := '(b, offset) ← r; Some (b, if offset =? -1 then None else Some offset) in
  match it with
  | BBytes bs => written (blob_write_bytes realloc b bs)
  | BU32 x => written (blob_write_uint32 realloc b x)
  | BU64 x => written (blob_write_uint64 realloc b x)
  | BIntptr x => written (blob_write_intptr realloc b x)
  | BString str => written (blob_write_string realloc b str)
  | BReserveBytes bs => reserved (Some (blob_reserve_bytes realloc b (Z.of_nat (length bs))))
  | BReserveU32 _ => reserved (blob_reserve_uint32 realloc b)
  | BReserveIntptr _ => reserved (blob_reserve_intptr realloc b)
  end.

Definition fill_item (b : blob) (it : blob_item) (offset : Z) : option (blob * bool) :=
  match it with
  | BReserveBytes bs => blob_overwrite_bytes b offset bs
  | BReserveU32 x => blob_overwrite_uint32 b offset x
  | BReserveIntptr x => blob_overwrite_intptr b offset x
  | _ => Some (b, true)
  end.

Fixpoint write_items (b : blob) (items : list blob_item) : option (blob * option (list Z)) :=
  match items with
  | [] => Some (b, Some [])
  | it :: items =>
    '(b, offset) ← write_item b it;
    match offset with
    | None => Some (b, None)
    | Some offset => '(b, offsets) ← write_items b items; Some (b, option_map (cons offset) offsets)
    end
  end.

Fixpoint fill_items (b : blob) (items : list blob_item) (offsets : list Z) : option (blob * bool) :=
  match items, offsets with
  | it :: items, offset :: offsets =>
    '(b, ok) ← fill_item b it offset;
    if ok : bool then fill_items b items offsets else Some (b, false)
  | _, _ => Some (b, true)
  end.

Definition blob_write_all (b : blob) (items : list blob_item) : option (blob * bool) :=
  '(b, offsets) ← write_items b items;
  match offsets with
  | None => Some (b, false)
  | Some offsets => fill_items b items offsets
  end.

End Client.

(** ** The bytes *)

Definition item_align (it : blob_item) : Z :=
  match it with
  | BU32 _ | BReserveU32 _ => 4
  | BU64 _ | BIntptr _ | BReserveIntptr _ => 8
  | _ => 1
  end.

Definition item_bytes (it : blob_item) : list Z :=
  match it with
  | BBytes bs | BReserveBytes bs => bs
  | BU32 x | BReserveU32 x => le32 x
  | BU64 x => le64 x
  | BIntptr x | BReserveIntptr x => le64 (u64 x)
  | BString str => str ++ [0]
  end.

Definition item_reserved (it : blob_item) : bool :=
  match it with BReserveBytes _ | BReserveU32 _ | BReserveIntptr _ => true | _ => false end.

(** Where a value that is appended at [s] starts and ends. *)
Definition item_start (s : Z) (it : blob_item) : Z := s + pad (item_align it) s.
Definition item_end (s : Z) (it : blob_item) : Z := item_start s it + Z.of_nat (length (item_bytes it)).

Fixpoint items_end (s : Z) (items : list blob_item) : Z :=
  match items with [] => s | it :: items => items_end (item_end s it) items end.

Definition padding (s : Z) (it : blob_item) : list Z := replicate (Z.to_nat (pad (item_align it) s)) 0.

Fixpoint blob_encode (s : Z) (items : list blob_item) : list Z :=
  match items with
  | [] => []
  | it :: items => padding s it ++ item_bytes it ++ blob_encode (item_end s it) items
  end.

(** Before the reserved places are filled in. *)
Definition item_layout (it : blob_item) : list (option Z) :=
  if item_reserved it then replicate (length (item_bytes it)) None else Some <$> item_bytes it.

Fixpoint blob_layout (s : Z) (items : list blob_item) : list (option Z) :=
  match items with
  | [] => []
  | it :: items => (Some <$> padding s it) ++ item_layout it ++ blob_layout (item_end s it) items
  end.

Fixpoint offsets (s : Z) (items : list blob_item) : list Z :=
  match items with
  | [] => []
  | it :: items => (if item_reserved it then item_start s it else 0) :: offsets (item_end s it) items
  end.

Lemma item_align_ok it : alignment_ok (item_align it).
Proof. destruct it; unfold alignment_ok; cbn; lia. Qed.

Lemma item_align_pos it : 0 < item_align it.
Proof. by destruct it. Qed.

Lemma item_pad_pos s it : 0 <= pad (item_align it) s.
Proof. apply pad_pos, item_align_pos. Qed.

Lemma padding_length s it : Z.of_nat (length (padding s it)) = pad (item_align it) s.
Proof. unfold padding. rewrite length_replicate. apply Z2Nat.id, item_pad_pos. Qed.

Lemma item_layout_length it : length (item_layout it) = length (item_bytes it).
Proof. unfold item_layout. destruct (item_reserved it); [apply length_replicate|apply length_fmap]. Qed.

Lemma item_end_ge s it : s <= item_start s it <= item_end s it.
Proof. unfold item_end, item_start. pose proof (item_pad_pos s it). lia. Qed.

Lemma items_end_ge items : forall s, s <= items_end s items.
Proof.
  induction items as [|it items IH]; intros s; cbn; [lia|].
  pose proof (item_end_ge s it). specialize (IH (item_end s it)). lia.
Qed.

Lemma encode_length items : forall s, Z.of_nat (length (blob_encode s items)) = items_end s items - s.
Proof.
  induction items as [|it items IH]; intros s; cbn; [lia|]. rewrite !length_app.
  pose proof (padding_length s it). rewrite !Nat2Z.inj_add, IH. unfold item_end, item_start. lia.
Qed.

(** ** Writing the values *)

Section Write.

Context (realloc : option (list Z) -> Z -> option (list Z)) (Hrealloc : realloc_ok realloc).

Lemma can_grow_le b n m : n <= m -> can_grow realloc b m -> can_grow realloc b n.
Proof. unfold can_grow. destruct (bl_fixed_allocation b); [lia|done]. Qed.

(** One step after the other. *)
Lemma grown_trans b l b1 l1 b2 ok l2 n m :
  blob_rep b l -> grown realloc b n b1 true l1 -> Z.of_nat (length l1) = Z.of_nat (length l) + n ->
  grown realloc b1 m b2 ok l2 -> grown realloc b (n + m) b2 ok l2.
Proof.
  intros H (K1 & H1) Hl (K2 & H2). split; [by eapply blob_kept_trans|]. destruct K1 as (E1 & E2 & _).
  destruct ok; [done|]. destruct H2 as [Ho Hc]. split; [done|]. intros Hg. apply Hc.
  pose proof H.(rp_size _ _) as Hs. pose proof H1.(rp_size _ _) as Hs1. unfold can_grow in *. rewrite E1.
  destruct (bl_fixed_allocation b); [|done]. rewrite E2 by done. lia.
Qed.

(** A failure of the alignment makes the step after it fail. *)
Lemma grown_fail b b1 l l' n m :
  0 <= m -> grown realloc b n b1 false l -> grown realloc b (n + m) b1 false l'.
Proof.
  intros Hm (K1 & Ho & Hc). split; [done|]. split; [done|].
  intros Hg. apply Hc. apply (can_grow_le b n (n + m)); [lia|done].
Qed.

Lemma write_aligned b l a bs :
  blob_rep b l -> alignment_ok a -> bl_size b + pad a (bl_size b) + Z.of_nat (length bs) <= 2 ^ 62 ->
  exists b' ok, ('(b, _) ← align_blob realloc b a; blob_write_bytes realloc b bs) = Some (b', ok) /\
    grown realloc b (pad a (bl_size b) + Z.of_nat (length bs)) b' ok
      (l ++ replicate (Z.to_nat (pad a (bl_size b))) (Some 0) ++ (Some <$> bs)).
Proof.
  intros H Ha Hr. assert (0 <= pad a (bl_size b)) by (apply pad_pos; destruct Ha as [-> | [-> | ->]]; done).
  destruct (align_blob_rep realloc Hrealloc b l a H Ha ltac:(lia)) as (b1 & [] & -> & H1); cbn [mbind option_bind].
  - destruct H1 as (K1 & H1). pose proof H1.(rp_size _ _) as Hs1. pose proof H.(rp_size _ _) as Hs.
    rewrite length_app, length_replicate in Hs1.
    destruct (blob_write_bytes_rep realloc Hrealloc b1 _ bs H1 ltac:(lia)) as (b2 & ok & E & H2).
    exists b2, ok. split; [exact E|]. rewrite <- app_assoc in H2.
    apply (grown_trans b l b1 (l ++ replicate (Z.to_nat (pad a (bl_size b))) (Some 0))); [done|by split| |done].
    rewrite length_app, length_replicate. lia.
  - exists b1, false. split; [|by eapply grown_fail; [lia|]]. destruct H1 as (_ & Ho & _).
    unfold blob_write_bytes. by rewrite grow_to_fit_oom.
Qed.

Lemma reserve_aligned b l a n :
  blob_rep b l -> alignment_ok a -> bl_size b + pad a (bl_size b) + Z.of_nat n <= 2 ^ 62 ->
  exists b' ok, ('(b, _) ← align_blob realloc b a; Some (blob_reserve_bytes realloc b (Z.of_nat n))) =
      Some (b', if ok : bool then bl_size b + pad a (bl_size b) else -1) /\
    grown realloc b (pad a (bl_size b) + Z.of_nat n) b' ok
      (l ++ replicate (Z.to_nat (pad a (bl_size b))) (Some 0) ++ replicate n None).
Proof.
  intros H Ha Hr. assert (0 <= pad a (bl_size b)) by (apply pad_pos; destruct Ha as [-> | [-> | ->]]; done).
  destruct (align_blob_rep realloc Hrealloc b l a H Ha ltac:(lia)) as (b1 & [] & -> & H1); cbn [mbind option_bind].
  - destruct H1 as (K1 & H1). pose proof H1.(rp_size _ _) as Hs1. pose proof H.(rp_size _ _) as Hs.
    rewrite length_app, length_replicate in Hs1.
    destruct (blob_reserve_bytes_rep realloc Hrealloc b1 _ n H1 ltac:(lia)) as (b2 & ok & E & H2).
    exists b2, ok. split; [rewrite E; destruct ok; do 3 f_equal; lia|]. rewrite <- app_assoc in H2.
    apply (grown_trans b l b1 (l ++ replicate (Z.to_nat (pad a (bl_size b))) (Some 0))); [done|by split| |done].
    rewrite length_app, length_replicate. lia.
  - exists b1, false. split; [|by eapply grown_fail; [lia|]]. destruct H1 as (_ & Ho & _).
    unfold blob_reserve_bytes. by rewrite grow_to_fit_oom.
Qed.

Lemma pad_1 s : pad 1 s = 0.
Proof. apply Z.mod_1_r. Qed.

(** The offset that a reservation gives is not the mark of its failure. *)
Lemma reserved_result r (b : blob) (ok : bool) s :
  r = Some (b, if ok then s else -1) -> 0 <= s ->
  ('(b, offset) ← r; Some (b, if offset =? -1 then None else Some offset)) =
    Some (b, if ok then Some s else None).
Proof. intros -> Hs. cbn. destruct ok; [|done]. by destruct (Z.eqb_spec s (-1)); [lia|]. Qed.

Lemma written_result r (b : blob) (ok : bool) :
  r = Some (b, ok) ->
  ('(b, ok) ← r; Some (b, if ok : bool then Some 0 else None)) = Some (b, if ok then Some 0 else None).
Proof. by intros ->. Qed.

(** Every value, whatever its kind. *)
Lemma write_item_rep b l it :
  blob_rep b l -> item_end (bl_size b) it <= 2 ^ 62 ->
  exists b' ok, write_item realloc b it =
      Some (b', if ok : bool then Some (if item_reserved it then item_start (bl_size b) it else 0) else None) /\
    grown realloc b (item_end (bl_size b) it - bl_size b) b' ok
      (l ++ (Some <$> padding (bl_size b) it) ++ item_layout it).
Proof.
  intros H Hr. unfold padding. rewrite fmap_replicate. pose proof (item_align_ok it) as Ha.
  replace (item_end (bl_size b) it - bl_size b)
    with (pad (item_align it) (bl_size b) + Z.of_nat (length (item_bytes it))) by (unfold item_end, item_start; lia).
  unfold item_end, item_start in *. pose proof H.(rp_size _ _) as Hs.
  pose proof (item_pad_pos (bl_size b) it) as Hpad.
  assert (item_reserved it = false -> exists b' ok,
    (if item_align it =? 1 then blob_write_bytes realloc b (item_bytes it)
     else '(b, _) ← align_blob realloc b (item_align it); blob_write_bytes realloc b (item_bytes it)) = Some (b', ok) /\
    grown realloc b (pad (item_align it) (bl_size b) + Z.of_nat (length (item_bytes it))) b' ok
      (l ++ replicate (Z.to_nat (pad (item_align it) (bl_size b))) (Some 0) ++ (Some <$> item_bytes it))) as Hw.
  { intros _. destruct (Z.eqb_spec (item_align it) 1) as [->|_]; [|by apply write_aligned].
    rewrite pad_1. cbn [Z.to_nat replicate app]. apply blob_write_bytes_rep; [done|done|lia]. }
  assert (item_reserved it = true -> exists b' ok,
    (if item_align it =? 1 then Some (blob_reserve_bytes realloc b (Z.of_nat (length (item_bytes it))))
     else '(b, _) ← align_blob realloc b (item_align it);
          Some (blob_reserve_bytes realloc b (Z.of_nat (length (item_bytes it))))) =
      Some (b', if ok : bool then bl_size b + pad (item_align it) (bl_size b) else -1) /\
    grown realloc b (pad (item_align it) (bl_size b) + Z.of_nat (length (item_bytes it))) b' ok
      (l ++ replicate (Z.to_nat (pad (item_align it) (bl_size b))) (Some 0) ++ replicate (length (item_bytes it)) None)) as Hv.
  { intros _. destruct (Z.eqb_spec (item_align it) 1) as [->|_]; [|by apply reserve_aligned].
    rewrite pad_1. cbn [Z.to_nat replicate app]. rewrite Z.add_0_r.
    destruct (blob_reserve_bytes_rep realloc Hrealloc b l (length (item_bytes it)) H ltac:(lia)) as (b' & ok & E & Hg).
    exists b', ok. by rewrite E. }
  unfold item_layout.
  destruct (item_reserved it) eqn:Eres.
  - destruct (Hv eq_refl) as (b' & ok & E & Hg). exists b', ok. split; [|done].
    destruct it as [| | | | |bs|x|x]; try discriminate Eres; cbn [write_item].
    + apply (reserved_result (Some (blob_reserve_bytes realloc b (Z.of_nat (length bs))))); [exact E|lia].
    + apply (reserved_result (blob_reserve_uint32 realloc b)); [exact E|lia].
    + apply (reserved_result (blob_reserve_intptr realloc b)); [exact E|lia].
  - destruct (Hw eq_refl) as (b' & ok & E & Hg). exists b', ok. split; [|done].
    destruct it as [bs|x|x|x|str| | |]; try discriminate Eres; cbn [write_item].
    + by apply (written_result (blob_write_bytes realloc b bs)).
    + by apply (written_result (blob_write_uint32 realloc b x)).
    + by apply (written_result (blob_write_uint64 realloc b x)).
    + by apply (written_result (blob_write_intptr realloc b x)).
    + by apply (written_result (blob_write_string realloc b str)).
Qed.

Lemma layout_length items : forall s, Z.of_nat (length (blob_layout s items)) = items_end s items - s.
Proof.
  induction items as [|it items IH]; intros s; cbn; [lia|]. rewrite !length_app, length_fmap, item_layout_length.
  pose proof (padding_length s it). rewrite !Nat2Z.inj_add, IH. unfold item_end, item_start. lia.
Qed.

Lemma write_items_rep items : forall b l,
  blob_rep b l -> items_end (bl_size b) items <= 2 ^ 62 ->
  exists b' ok, write_items realloc b items =
      Some (b', if ok : bool then Some (offsets (bl_size b) items) else None) /\
    grown realloc b (items_end (bl_size b) items - bl_size b) b' ok (l ++ blob_layout (bl_size b) items).
Proof.
  induction items as [|it items IH]; intros b l H Hr; cbn [write_items items_end blob_layout offsets] in *.
  - exists b, true. split; [done|]. rewrite app_nil_r. by split_and!.
  - pose proof (items_end_ge items (item_end (bl_size b) it)) as Hge. pose proof (item_end_ge (bl_size b) it).
    destruct (write_item_rep b l it H ltac:(lia)) as (b1 & ok1 & -> & H1).
    destruct ok1; cbn [mbind option_bind].
    + assert (Hlen : Z.of_nat (length (l ++ (Some <$> padding (bl_size b) it) ++ item_layout it)) =
        item_end (bl_size b) it).
      { rewrite !length_app, length_fmap, item_layout_length. pose proof (padding_length (bl_size b) it).
        rewrite !Nat2Z.inj_add, <- H.(rp_size _ _). unfold item_end, item_start. lia. }
      pose proof H1 as (K1 & Hb1). pose proof Hb1.(rp_size _ _) as Hs1. rewrite Hlen in Hs1.
      destruct (IH b1 _ Hb1) as (b2 & ok & E & H2); [by rewrite Hs1|]. rewrite E, Hs1 in *. cbn.
      exists b2, ok. split; [by destruct ok|]. rewrite <- !app_assoc in H2.
      replace (items_end (item_end (bl_size b) it) items - bl_size b) with
        ((item_end (bl_size b) it - bl_size b) + (items_end (item_end (bl_size b) it) items - item_end (bl_size b) it)) by lia.
      eapply grown_trans; [done|exact H1| |done]. rewrite <- H.(rp_size _ _). lia.
    + exists b1, false. split; [done|].
      replace (items_end (item_end (bl_size b) it) items - bl_size b) with
        ((item_end (bl_size b) it - bl_size b) + (items_end (item_end (bl_size b) it) items - item_end (bl_size b) it)) by lia.
      eapply grown_fail; [lia|done].
Qed.

End Write.

(** ** Filling in the reserved places *)

Lemma ASSERT_ALIGNED_start s it a :
  a = item_align it -> 0 <= s -> item_end s it <= 2 ^ 62 -> ASSERT_ALIGNED (item_start s it) a = Some ().
Proof.
  intros -> Hs Hr. pose proof (item_end_ge s it). unfold ASSERT_ALIGNED.
  rewrite ALIGN_ok by (apply item_align_ok || lia). cbn. unfold item_start.
  rewrite pad_aligned by apply item_align_pos. by rewrite Z.add_0_r, Z.eqb_refl.
Qed.

Lemma fill_item_rep b l it l' :
  blob_rep b (l ++ item_layout it ++ l') -> bl_size b <= 2 ^ 62 ->
  forall s, item_start s it = Z.of_nat (length l) -> 0 <= s ->
  exists b', fill_item b it (if item_reserved it then item_start s it else 0) = Some (b', true) /\
    blob_kept b b' /\
    blob_rep b' (l ++ (Some <$> item_bytes it) ++ l').
Proof.
  intros H Hr s Hst Hs0.
  pose proof H.(rp_size _ _) as Hs. rewrite !length_app, item_layout_length in Hs.
  assert (item_end s it <= 2 ^ 62) by (unfold item_end; lia).
  unfold item_layout in H. destruct (item_reserved it) eqn:Eres.
  - pose proof (blob_overwrite_bytes_rep b l _ l' (item_bytes it) H ltac:(apply length_replicate) Hr) as (b' & E & Hb).
    rewrite <- Hst in E. exists b'. split; [|done]. destruct it; try discriminate Eres; [done|..];
      cbn [fill_item]; unfold blob_overwrite_uint32, blob_overwrite_intptr;
      (rewrite ASSERT_ALIGNED_start by done); exact E.
  - exists b. split; [by destruct it|]. done.
Qed.

Lemma fill_items_rep items : forall b l s,
  blob_rep b (l ++ blob_layout s items) -> s = Z.of_nat (length l) -> items_end s items <= 2 ^ 62 ->
  exists b', fill_items b items (offsets s items) = Some (b', true) /\
    blob_kept b b' /\
    blob_rep b' (l ++ (Some <$> blob_encode s items)).
Proof.
  induction items as [|it items IH]; intros b l s H Es Hr; cbn [fill_items blob_layout offsets blob_encode items_end] in *.
  - by exists b.
  - pose proof H.(rp_size _ _) as Hsz. rewrite length_app in Hsz.
    pose proof (layout_length (it :: items) s) as Hll. cbn [blob_layout items_end] in Hll.
    pose proof (padding_length s it) as Hp. rewrite app_assoc in H.
    destruct (fill_item_rep _ _ _ _ H ltac:(lia) s) as (b1 & E & K1 & H1).
    { rewrite length_app, length_fmap. unfold item_start. lia. } { lia. }
    rewrite E. cbn. rewrite !fmap_app. rewrite (app_assoc _ (Some <$> item_bytes it)) in H1.
    destruct (IH b1 _ (item_end s it) H1) as (b2 & E2 & K2 & H2).
    { rewrite !length_app, !length_fmap. unfold item_end, item_start. lia. } { done. }
    exists b2. split; [done|]. split; [by eapply blob_kept_trans|]. rewrite <- !app_assoc in H2. done.
Qed.
