(* ===== verification/BlobTheorems.v ===== *)
(** * Values are read back

    A reader that asks for the kinds of the values that were written gets the values. *)
From S2P Require Import Prelude Bytes Blob BlobCorrect BlobItems.

(** ** The reading client *)

(** What the reader asks for: bytes in place or copied, words, strings. *)
Inductive blob_shape := SBytes (n : Z) | SCopy (n : Z) | SU32 | SU64 | SIntptr | SString.

(** The characters up to the terminator. *)
Fixpoint until_nul (l : list Z) : list Z :=
  match l with [] => [] | x :: l => if x =? 0 then [] else x :: until_nul l end.

(** A value, or nothing when the reader ran past the end. *)
Definition read_item (r : blob_reader) (sh : blob_shape) : option (blob_reader * option blob_item) :=
  let word (make : Z -> blob_item) (res : option (blob_reader * Z)) :=
    '(r, x) ← res; Some (r, if br_overrun r then None else Some (make x)) in
  match sh with
  | SBytes n =>
    match blob_read_bytes r n with
    | (r, None) => Some (r, None)
    | (r, Some o) => bs ← read_bytes (br_data r) o n; Some (r, Some (BBytes bs))
    end
  | SCopy n =>
    '(r, dest) ← blob_copy_bytes r (replicate (Z.to_nat n) 0) n;
    Some (r, if br_overrun r then None else Some (BBytes dest))
  | SU32 => word BU32 (blob_read_uint32 r)
  | SU64 => word BU64 (blob_read_uint64 r)
  | SIntptr => word BIntptr (blob_read_intptr r)
  | SString =>
    '(r, o) ← blob_read_string r;
    Some (r, option_map (fun o => BString (until_nul (drop (Z.to_nat o) (br_data r)))) o)
  end.

Fixpoint read_items (r : blob_reader) (shapes : list blob_shape) :
    option (blob_reader * list (option blob_item)) :=
  match shapes with
  | [] => Some (r, [])
  | sh :: shapes =>
    '(r, v) ← read_item r sh; '(r, vs) ← read_items r shapes; Some (r, v :: vs)
  end.

(** ** Values and kinds *)

(** The value that is read where one was written. *)
Definition item_value (it : blob_item) : blob_item :=
  match it with
  | BReserveBytes bs => BBytes bs
  | BReserveU32 x => BU32 x
  | BReserveIntptr x => BIntptr x
  | _ => it
  end.

Definition has_shape (it : blob_item) (sh : blob_shape) : Prop :=
  match item_value it, sh with
  | BBytes bs, (SBytes n | SCopy n) => n = Z.of_nat (length bs)
  | BU32 _, SU32 | BU64 _, SU64 | BIntptr _, SIntptr | BString _, SString => True
  | _, _ => False
  end.

(** Values of their type; blocks that are not empty. *)
Definition item_ok (it : blob_item) : Prop :=
  match item_value it with
  | BBytes bs => bs <> []
  | BU32 x => 0 <= x < 2 ^ 32
  | BU64 x => 0 <= x < 2 ^ 64
  | BIntptr x => - 2 ^ 63 <= x < 2 ^ 63
  | BString str => Forall (fun c => c <> 0) str /\ Z.of_nat (length str) < 2 ^ 31 - 1
  | _ => True
  end.

(** ** Reading one value *)

Lemma read_bytes_suffix l1 l2 n :
  0 <= n <= Z.of_nat (length l2) ->
  read_bytes (l1 ++ l2) (Z.of_nat (length l1)) n = Some (take (Z.to_nat n) l2).
Proof.
  intros Hn. unfold read_bytes. rewrite length_app.
  destruct (Z.leb_spec 0 (Z.of_nat (length l1))), (Z.leb_spec 0 n); try lia.
  destruct (Z.leb_spec (Z.of_nat (length l1) + n) (Z.of_nat (length l1 + length l2))); [|lia].
  cbn. by rewrite Nat2Z.id, drop_app_length.
Qed.

Lemma read_bytes_mid l1 bs l2 :
  read_bytes (l1 ++ bs ++ l2) (Z.of_nat (length l1)) (Z.of_nat (length bs)) = Some bs.
Proof.
  rewrite read_bytes_suffix by (rewrite length_app; lia). by rewrite Nat2Z.id, take_app_length.
Qed.

Lemma until_nul_app str l : Forall (fun c => c <> 0) str -> until_nul (str ++ 0 :: l) = str.
Proof.
  induction 1 as [|c str Hc _ IH]; [done|]. cbn. destruct (Z.eqb_spec c 0); [done|]. by rewrite IH.
Qed.

Lemma memchr0_string l1 str l2 n :
  Forall (fun c => c <> 0) str -> Z.of_nat (length str) < n <= Z.of_nat (length (str ++ 0 :: l2)) ->
  memchr0 (l1 ++ str ++ 0 :: l2) (Z.of_nat (length l1)) n = Some (Some (Z.of_nat (length str))).
Proof.
  intros Hs Hn. unfold memchr0. rewrite read_bytes_suffix by lia. cbn.
  rewrite (proj2 (list_find_Some _ _ (length str) 0)); [done|]. split; [|split; [done|]].
  - rewrite lookup_take_lt by lia. by rewrite lookup_app_r, Nat.sub_diag.
  - intros j y Hj Hlt. rewrite lookup_take_lt, lookup_app_l in Hj by lia. exact (Forall_lookup_1 _ _ _ _ Hs Hj).
Qed.

Lemma ensure_can_read_ok r n :
  br_overrun r = false -> 0 < n -> br_current r + n <= br_end r -> ensure_can_read r n = (r, true).
Proof.
  intros Ho Hn Hr. unfold ensure_can_read. rewrite Ho.
  by rewrite (proj2 (Z.ltb_lt _ _)), (proj2 (Z.leb_le _ _)) by lia.
Qed.

Lemma item_bytes_nonempty it : item_ok it -> 0 < Z.of_nat (length (item_bytes it)).
Proof.
  destruct it as [bs| | | |str|bs| |]; cbn; try lia; try (destruct bs; cbn; [done|lia]).
  rewrite length_app. cbn. lia.
Qed.

(** Evaluates the steps of the reader but not the accesses. *)
Local Ltac reader_cbn :=
  cbn [mbind option_bind br_data br_current br_end br_overrun set_current option_map].

(** A reader that is at the bytes of a value. *)
Section At.

Context (l1 bs rest : list Z) (e : Z).
Context (Hne : 0 < Z.of_nat (length bs)).
Context (He : Z.of_nat (length l1) + Z.of_nat (length bs) <= e <= Z.of_nat (length (l1 ++ bs ++ rest))).
Context (Hr : e <= 2 ^ 62).

Local Notation at_value o := (BlobReader (l1 ++ bs ++ rest) e o false).
Local Notation start := (Z.of_nat (length l1)).

Lemma can_read n :
  n = Z.of_nat (length bs) -> ensure_can_read (at_value start) n = (at_value start, true).
Proof. intros ->. apply ensure_can_read_ok; [done|lia|cbn [br_current br_end]; lia]. Qed.

Lemma read_block n sh :
  n = Z.of_nat (length bs) -> sh = SBytes n \/ sh = SCopy n ->
  read_item (at_value start) sh = Some (at_value (start + n), Some (BBytes bs)).
Proof.
  intros Hn Hsh. destruct Hsh as [-> | ->]; cbn [read_item]; unfold blob_copy_bytes, blob_read_bytes;
    rewrite can_read by done; subst n; reader_cbn.
  - by rewrite read_bytes_mid.
  - unfold memcpy. rewrite read_bytes_mid. reader_cbn.
    rewrite write_bytes_Some by (rewrite ?length_replicate; lia).
    rewrite drop_ge, app_nil_r by (rewrite length_replicate; lia). done.
Qed.

(** The alignment moves the reader from [s] to the value. *)
Definition aligned_from (s a : Z) : Prop :=
  align_blob_reader (at_value s) a = Some (at_value start).

Lemma read_u32_at s x :
  aligned_from s 4 -> bs = le32 x -> 0 <= x < 2 ^ 32 ->
  read_item (at_value s) SU32 = Some (at_value (start + 4), Some (BU32 x)).
Proof.
  intros Ha Hx Hrx. cbn [read_item]. unfold blob_read_uint32, sizeof_uint32. rewrite Ha. reader_cbn.
  rewrite can_read by (by rewrite Hx). reader_cbn.
  rewrite Hx. by rewrite read32_le32.
Qed.

Lemma read_u64_at s x :
  aligned_from s 8 -> bs = le64 x -> 0 <= x < 2 ^ 64 ->
  read_item (at_value s) SU64 = Some (at_value (start + 8), Some (BU64 x)).
Proof.
  intros Ha Hx Hrx. cbn [read_item]. unfold blob_read_uint64, sizeof_uint64. rewrite Ha. reader_cbn.
  rewrite can_read by (by rewrite Hx). reader_cbn.
  rewrite Hx. by rewrite read64_le64.
Qed.

Lemma read_intptr_at s x :
  aligned_from s 8 -> bs = le64 (u64 x) -> - 2 ^ 63 <= x < 2 ^ 63 ->
  read_item (at_value s) SIntptr = Some (at_value (start + 8), Some (BIntptr x)).
Proof.
  intros Ha Hx Hrx. cbn [read_item]. unfold blob_read_intptr, sizeof_intptr. rewrite Ha. reader_cbn.
  rewrite can_read by (by rewrite Hx). reader_cbn.
  rewrite Hx. rewrite read64_le64 by apply u64_range. reader_cbn. by rewrite i64_u64.
Qed.

Lemma read_string_at str :
  bs = str ++ [0] -> Forall (fun c => c <> 0) str -> Z.of_nat (length str) < 2 ^ 31 - 1 ->
  read_item (at_value start) SString =
    Some (at_value (start + Z.of_nat (length bs)), Some (BString str)).
Proof.
  intros Hb Hs Hl. assert (Z.of_nat (length bs) = Z.of_nat (length str) + 1) as Hlb
    by (rewrite Hb, length_app; cbn; lia).
  cbn [read_item]. unfold blob_read_string. cbn [br_end br_current br_data].
  destruct (Z.leb_spec e start); [lia|].
  assert (l1 ++ bs ++ rest = l1 ++ str ++ 0 :: rest) as Ed by (by rewrite Hb, <- app_assoc).
  assert (length (l1 ++ bs ++ rest) = (length l1 + length (str ++ 0%Z :: rest))%nat) as El by (by rewrite Ed, length_app).
  rewrite Ed, memchr0_string by (done || lia). rewrite <- Ed.
  reader_cbn. unfold i32. rewrite (Z.mod_small (_ + 1 + 2 ^ 31)) by lia.
  replace (Z.of_nat (length str) + 1 + 2 ^ 31 - 2 ^ 31) with (Z.of_nat (length bs)) by lia.
  rewrite u64_small, can_read by lia. reader_cbn. rewrite Nat2Z.id, Ed, drop_app_length.
  by rewrite until_nul_app.
Qed.

End At.

(** ** Reading all values *)

(** The reader skips the padding and takes the value. *)
Lemma read_item_rep pre it rest e sh :
  let s := Z.of_nat (length pre) in
  let data := pre ++ padding s it ++ item_bytes it ++ rest in
  item_ok it -> has_shape it sh -> item_end s it <= e <= Z.of_nat (length data) -> e <= 2 ^ 62 ->
  read_item (BlobReader data e s false) sh =
    Some (BlobReader data e (item_end s it) false, Some (item_value it)).
Proof.
  intros s data Hok Hsh He Hr. pose proof (item_end_ge s it) as Hge. pose proof (item_bytes_nonempty it Hok) as Hne.
  assert (data = (pre ++ padding s it) ++ item_bytes it ++ rest) as Ed by (by rewrite <- app_assoc).
  assert (Z.of_nat (length (pre ++ padding s it)) = item_start s it) as El
    by (by rewrite length_app, Nat2Z.inj_add, padding_length).
  assert (align_blob_reader (BlobReader data e s false) (item_align it) =
    Some (BlobReader data e (item_start s it) false)) as Ha.
  { unfold align_blob_reader. cbn [br_current]. by rewrite ALIGN_ok by (apply item_align_ok || lia). }
  assert (item_align it = 1 -> item_start s it = s) as H1 by (unfold item_start; intros ->; rewrite pad_1; lia).
  unfold item_end in *. rewrite Ed in *. rewrite <- El in *. clearbody s data. clear Ed data.
  set (l1 := pre ++ padding s it) in *. clearbody l1.
  destruct it as [bs|x|x|x|str|bs|x|x]; destruct sh as [n|n| | | |]; try done; cbn [item_value item_bytes] in *;
    try (cbn in Hsh; rewrite <- H1 by done; subst n; apply read_block; auto).
  all: try (apply read_u32_at || apply read_u64_at || apply read_intptr_at; done).
  rewrite <- H1 by done. destruct Hok. by apply read_string_at.
Qed.

Lemma read_items_rep items : forall pre rest e shapes,
  let s := Z.of_nat (length pre) in
  let data := pre ++ blob_encode s items ++ rest in
  Forall item_ok items -> Forall2 has_shape items shapes ->
  items_end s items <= e <= Z.of_nat (length data) -> e <= 2 ^ 62 ->
  read_items (BlobReader data e s false) shapes =
    Some (BlobReader data e (items_end s items) false, Some ∘ item_value <$> items).
Proof.
  induction items as [|it items IH]; intros pre rest e shapes s data Hok Hsh He Hr.
  - by apply Forall2_nil_inv_l in Hsh as ->.
  - apply Forall2_cons_inv_l in Hsh as (sh & shapes' & Hsh & Hshs & ->). apply Forall_cons in Hok as [Hok Hoks].
    cbn [read_items items_end] in *. pose proof (items_end_ge items (item_end s it)) as Hge.
    subst data. cbn [blob_encode] in *. rewrite <- !app_assoc in *.
    pose proof (read_item_rep pre it (blob_encode (item_end s it) items ++ rest) e sh Hok Hsh) as Hi.
    cbn zeta in Hi. fold s in Hi. rewrite Hi by (done || lia). reader_cbn.
    assert (Z.of_nat (length (pre ++ padding s it ++ item_bytes it)) = item_end s it) as El.
    { rewrite !length_app, !Nat2Z.inj_add, padding_length. unfold item_end, item_start. lia. }
    specialize (IH (pre ++ padding s it ++ item_bytes it) rest e shapes'). rewrite El, <- !app_assoc in IH.
    cbn zeta in IH. by rewrite IH.
Qed.

(** ** The round trip *)

(** A blob that was just initialized: one that grows, a buffer of the caller, or none at all. *)
Definition blob_start (b : blob) : Prop :=
  b = blob_init \/
  exists data size, b = blob_init_fixed data size /\ 0 <= size < 2 ^ 64 /\
    (forall d, data = Some d -> Z.of_nat (length d) = size).

Lemma blob_start_rep b : blob_start b -> blob_rep b [] /\ bl_size b = 0.
Proof.
  intros [->|(data & size & -> & Hs & Hd)]; (split; [|done]); constructor; cbn; try done; try lia.
  destruct data as [d|]; [|by left]. split; [by apply Hd|]. by intros i x Hi.
Qed.

Lemma known_prefix bs d : known (Some <$> bs) d -> exists rest, d = bs ++ rest.
Proof.
  revert d. induction bs as [|x bs IH]; intros d Hk; [by exists d|].
  destruct d as [|y d]; [by specialize (Hk 0%nat x eq_refl)|].
  pose proof (Hk 0%nat x eq_refl) as Hx. injection Hx as ->.
  destruct (IH d) as [rest ->]; [|by exists rest]. intros i z Hi. by apply (Hk (S i)).
Qed.

Lemma blob_write_all_rep realloc b items :
  realloc_ok realloc -> blob_start b -> items_end 0 items <= 2 ^ 62 ->
  exists b' ok, blob_write_all realloc b items = Some (b', ok) /\
    grown realloc b (items_end 0 items) b' ok (Some <$> blob_encode 0 items).
Proof.
  intros Hre [H Hs]%blob_start_rep Hr. unfold blob_write_all. rewrite <- Hs in Hr.
  destruct (write_items_rep realloc Hre items b [] H Hr) as (b1 & ok & -> & Hg). rewrite Hs, Z.sub_0_r in *.
  destruct ok; cbn [mbind option_bind]; [|by exists b1, false].
  destruct Hg as (K1 & H1).
  destruct (fill_items_rep items b1 [] 0 H1 eq_refl Hr) as (b2 & -> & K2 & H2).
  exists b2, true. split; [done|]. split; [by eapply blob_kept_trans|done].
Qed.

(** (C40) Whatever is written to a blob is read back.  A sequence of writes (bytes, 32- and
    64-bit words, pointers, strings, places that are reserved and overwritten at the end)
    never leaves the buffer of the blob.  It succeeds when [realloc] does, or when the fixed
    buffer is large enough, and then only; otherwise [out_of_memory] is set.  After a success
    the size is that of the values with their alignment, also for a fixed blob without a
    buffer, which only counts.  A reader over the data that asks for the same kinds of values,
    bytes in place or copied, gets exactly the values, ends at the end of the data and has
    not overrun.  Blocks of bytes must not be empty. *)
Theorem blob_roundtrip realloc b items shapes :
  realloc_ok realloc -> blob_start b ->
  Forall item_ok items -> Forall2 has_shape items shapes -> items_end 0 items <= 2 ^ 62 ->
  exists b' ok, blob_write_all realloc b items = Some (b', ok) /\
    (bl_fixed_allocation b = true -> ok = true <-> items_end 0 items <= bl_allocated b) /\
    (bl_fixed_allocation b = false -> (forall old n, is_Some (realloc old n)) -> ok = true) /\
    bl_out_of_memory b' = negb ok /\
    (ok = true -> bl_size b' = items_end 0 items /\
      (is_Some (bl_data b) \/ bl_fixed_allocation b = false /\ items <> [] -> is_Some (bl_data b')) /\
      forall d, bl_data b' = Some d ->
        read_items (blob_reader_init d (bl_size b')) shapes =
          Some (BlobReader d (bl_size b') (bl_size b') false, Some ∘ item_value <$> items)).
Proof.
  intros Hre Hb Hok Hsh Hr. pose proof (blob_start_rep b Hb) as [H Hs].
  destruct (blob_write_all_rep realloc b items Hre Hb Hr) as (b' & ok & E & (Ef & Ea & Ed) & Hg).
  exists b', ok. split; [done|]. unfold can_grow in Hg. rewrite Hs in Hg. destruct ok.
  - pose proof Hg.(rp_size _ _) as Hsz. pose proof (encode_length items 0) as Hl. rewrite length_fmap in Hsz.
    pose proof Hg.(rp_fits _ _) as Hf. pose proof Hg.(rp_data _ _) as Hd.
    split; [intros Hfx; rewrite Ea in Hf by done; split; [lia|done]|]. split; [done|]. split; [apply Hg|].
    intros _. split; [lia|]. split.
    + intros [|[Hfx Hne]]; [by auto|]. destruct (bl_data b') as [d|]; [by eauto|]. exfalso.
      rewrite Ef, Hfx in Hd. destruct Hd as [|Hd]; [done|]. destruct items as [|it items]; [done|].
      apply Forall_cons in Hok as [Hok _]. pose proof (item_bytes_nonempty it Hok). pose proof (item_pad_pos 0 it).
      pose proof (items_end_ge items (item_end 0 it)). cbn [items_end] in *. unfold item_end, item_start in *. lia.
    + intros d Ed'. rewrite Ed' in Hd. destruct Hd as [Hdl Hk]. apply known_prefix in Hk as [rest ->].
      replace (bl_size b') with (items_end 0 items) by lia.
      apply (read_items_rep items [] rest (items_end 0 items) shapes Hok Hsh); [|done].
      cbn. change (Z.of_nat 0) with 0. rewrite length_app. lia.
  - destruct Hg as [Ho Hc]. split; [|split; [|split; [done|done]]].
    + intros Hfx. rewrite Hfx in Hc. split; [done|]. intros. exfalso. apply Hc. lia.
    + intros Hfx Hall. rewrite Hfx in Hc. done.
Qed.

(** Blocks of zeros after the bytes that were there. *)
Definition demo_realloc (old : option (list Z)) (n : Z) : option (list Z) :=
  let d := default [] old in
  Some (take (Z.to_nat n) d ++ replicate (Z.to_nat n - length d) 0).

Lemma demo_realloc_ok : realloc_ok demo_realloc.
Proof.
  intros old n new Hn E. unfold demo_realloc in E. injection E as <-.
  rewrite length_app, length_take, length_replicate. split; [lia|]. intros d -> i x Hi Hx. change (default [] (Some d)) with d.
  apply lookup_lt_Some in Hx as Hl. rewrite lookup_app_l by (rewrite length_take; lia). by rewrite lookup_take_lt by lia.
Qed.

Definition demo_items : list blob_item :=
  [BReserveU32 3; BString [104; 105]; BU64 (2 ^ 40 + 7); BBytes [1; 2; 3]; BIntptr (-5); BReserveBytes [9]; BU32 70000].
Definition demo_shapes : list blob_shape := [SU32; SString; SU64; SCopy 3; SIntptr; SBytes 1; SU32].

Lemma blob_roundtrip_witness :
  exists b, blob_write_all demo_realloc (blob_init_fixed (Some (replicate 48 255)) 48) demo_items = Some (b, true) /\
    exists d, bl_data b = Some d /\ read_items (blob_reader_init d (bl_size b)) demo_shapes =
      Some (BlobReader d (bl_size b) (bl_size b) false, Some ∘ item_value <$> demo_items).
Proof.
  assert (items_end 0 demo_items = 40) as He by reflexivity.
  destruct (blob_roundtrip demo_realloc (blob_init_fixed (Some (replicate 48 255)) 48) demo_items demo_shapes)
    as (b & ok & E & Hf & _ & _ & Hok).
  - exact demo_realloc_ok.
  - right. exists (Some (replicate 48 255)), 48. split; [reflexivity|]. split; [lia|].
    intros d Ed. injection Ed as <-. reflexivity.
  - repeat constructor; try (intros [=]); try lia; vm_compute; congruence.
  - repeat constructor.
  - rewrite He. lia.
  - assert (ok = true) as -> by (apply Hf; [reflexivity|rewrite He; cbn; lia]).
    destruct (Hok eq_refl) as (_ & Hd & Hread). destruct Hd as [d Ed]; [left; eexists; reflexivity|].
    exists b. split; [exact E|]. exists d. split; [exact Ed|exact (Hread d Ed)].
Defined.

(** ** Where reading fails *)

(** A block that is empty cannot be read when nothing follows it; a word that is missing moves
    the reader to the alignment although it fails; a string fails an assertion after an overrun. *)
Example empty_block_overruns :
  blob_write_all demo_realloc blob_init [BU32 0; BBytes []] =
    blob_write_all demo_realloc blob_init [BU32 0] /\
  read_items (blob_reader_init [0; 0; 0; 0] 4) [SU32; SBytes 0] =
    Some (BlobReader [0; 0; 0; 0] 4 4 true, [Some (BU32 0); None]).
Proof. split; vm_compute; reflexivity. Qed.

Example failed_word_moves :
  blob_read_uint32 (BlobReader [7; 0; 0] 3 1 false) = Some (BlobReader [7; 0; 0] 3 4 true, 0).
Proof. vm_compute. reflexivity. Qed.

Example string_after_overrun :
  read_items (blob_reader_init [104; 0; 0; 0] 4) [SBytes 9; SString] = None.
Proof. vm_compute. reflexivity. Qed.
