(* ===== verification/Ralloc.v ===== *)
(** * Memory contexts ([src/util/ralloc.c])

    Every block has a header that links it to its parent, its first child and its siblings;
    freeing a block frees all blocks below it.  The blocks live in a store from the addresses of
    their headers to the members of the header and the bytes after it.  Pointers of the client
    point behind the header.  [None] is an access to a block that is not there, an access
    outside a block, a division by zero or a failed assertion.  The results of [malloc] and
    [realloc] are arguments.  Destructors are recorded when they are called; they are assumed
    not to use the functions of the file. *)
From stdpp Require Import gmap.
From S2P Require Import Prelude Bytes.

Record ralloc_header := RallocHeader {
  rh_parent : Z; rh_child : Z; rh_prev : Z; rh_next : Z; rh_destructor : Z; rh_data : list Z }.

Notation rheap := (gmap Z ralloc_header).

(** Five pointers, aligned to 16 bytes. *)
Definition sizeof_ralloc_header : Z := 48.

Definition SIZE_MAX : Z := 2 ^ 64 - 1.

Definition get_header (ptr : Z) : Z := ptr - sizeof_ralloc_header.
Definition PTR_FROM_HEADER (info : Z) : Z := info + sizeof_ralloc_header.

Definition set_rh_parent (v : Z) (h : ralloc_header) : ralloc_header :=
  RallocHeader v (rh_child h) (rh_prev h) (rh_next h) (rh_destructor h) (rh_data h).
Definition set_rh_child (v : Z) (h : ralloc_header) : ralloc_header :=
  RallocHeader (rh_parent h) v (rh_prev h) (rh_next h) (rh_destructor h) (rh_data h).
Definition set_rh_prev (v : Z) (h : ralloc_header) : ralloc_header :=
  RallocHeader (rh_parent h) (rh_child h) v (rh_next h) (rh_destructor h) (rh_data h).
Definition set_rh_next (v : Z) (h : ralloc_header) : ralloc_header :=
  RallocHeader (rh_parent h) (rh_child h) (rh_prev h) v (rh_destructor h) (rh_data h).
Definition set_rh_destructor (v : Z) (h : ralloc_header) : ralloc_header :=
  RallocHeader (rh_parent h) (rh_child h) (rh_prev h) (rh_next h) v (rh_data h).
Definition set_rh_data (v : list Z) (h : ralloc_header) : ralloc_header :=
  RallocHeader (rh_parent h) (rh_child h) (rh_prev h) (rh_next h) (rh_destructor h) v.

(** An assignment to a member of the header at [p]. *)
Definition rupd (m : rheap) (p : Z) (f : ralloc_header -> ralloc_header) : option rheap :=
  h ← m !! p; Some (<[p := f h]> m).

(** The same, if the pointer is not null. *)
Definition rupd_opt (m : rheap) (p : Z) (f : ralloc_header -> ralloc_header) : option rheap :=
  if p =? 0 then Some m else rupd m p f.

(** ** Allocation *)

Definition add_child (m : rheap) (parent info : Z) : option rheap :=
  if parent =? 0 then Some m else
  m ← rupd m info (set_rh_parent parent);
  p ← m !! parent;
  m ← rupd m info (set_rh_next (rh_child p));
  m ← rupd m parent (set_rh_child info);
  i ← m !! info;
  rupd_opt m (rh_next i) (set_rh_prev info).

(** What the allocator gives for a size: the address and the bytes of the block. *)
Notation malloc_result := (Z -> option (Z * list Z)).

(** The heap and the pointer, 0 if there is no memory. *)
Definition ralloc_size (malloc : malloc_result) (m : rheap) (ctx sz : Z) : option (rheap * Z) :=
  match malloc (u64 (sz + sizeof_ralloc_header)) with
  | None => Some (m, 0)
  | Some (info, block) =>
    if Z.of_nat (length block) <? sizeof_ralloc_header then None else
    let m := <[info := RallocHeader 0 0 0 0 0 (drop (Z.to_nat sizeof_ralloc_header) block)]> m in
    let parent := if ctx =? 0 then 0 else get_header ctx in
    m ← add_child m parent info;
    Some (m, PTR_FROM_HEADER info)
  end.

Definition ralloc_context (malloc : malloc_result) (m : rheap) (ctx : Z) : option (rheap * Z) :=
  ralloc_size malloc m ctx 0.

(** Stores bytes into the block at a pointer. *)
Definition poke (m : rheap) (ptr o : Z) (bs : list Z) : option rheap :=
  h ← m !! get_header ptr;
  d ← write_bytes (rh_data h) o bs;
  Some (<[get_header ptr := set_rh_data d h]> m).

Definition rzalloc_size (malloc : malloc_result) (m : rheap) (ctx sz : Z) : option (rheap * Z) :=
  '(m, ptr) ← ralloc_size malloc m ctx sz;
  if ptr =? 0 then Some (m, ptr) else
  m ← poke m ptr 0 (replicate (Z.to_nat sz) 0); Some (m, ptr).

(** ** Resizing *)

(** What [realloc] gives for a block, the bytes behind its header and a size. *)
Notation realloc_result := (Z -> list Z -> Z -> option (Z * list Z)).

(** Sets the parent of a list of siblings. *)
Fixpoint set_parents (fuel : nat) (m : rheap) (child info : Z) : option rheap :=
  match fuel with
  | O => None
  | S fuel =>
    if child =? 0 then Some m else
    m ← rupd m child (set_rh_parent info);
    c ← m !! child;
    set_parents fuel m (rh_next c) info
  end.

(** The links of the parent and the siblings to a block that moved. *)
Definition relink (m : rheap) (old info : Z) : option rheap :=
  h ← m !! info;
  if (info =? old) || (rh_parent h =? 0) then Some m else
  p ← m !! rh_parent h;
  m ← (if rh_child p =? old then rupd m (rh_parent h) (set_rh_child info) else Some m);
  h ← m !! info;
  m ← rupd_opt m (rh_prev h) (set_rh_next info);
  h ← m !! info;
  rupd_opt m (rh_next h) (set_rh_prev info).

Definition resize (realloc : realloc_result) (m : rheap) (ptr sz : Z) : option (rheap * Z) :=
  let old := get_header ptr in
  h ← m !! old;
  let n := u64 (sz + sizeof_ralloc_header) in
  match realloc old (rh_data h) n with
  | None => Some (m, 0)
  | Some (info, data) =>
    if n <? sizeof_ralloc_header then None else
    let m := <[info := set_rh_data data h]> (delete old m) in
    m ← relink m old info;
    h ← m !! info;
    m ← set_parents (S (size m)) m (rh_child h) info;
    Some (m, PTR_FROM_HEADER info)
  end.

(** ** Contexts *)

Definition ralloc_parent (m : rheap) (ptr : Z) : option Z :=
  if ptr =? 0 then Some 0 else
  h ← m !! get_header ptr;
  Some (if rh_parent h =? 0 then 0 else PTR_FROM_HEADER (rh_parent h)).

Definition reralloc_size (malloc : malloc_result) (realloc : realloc_result) (m : rheap) (ctx ptr sz : Z) :
    option (rheap * Z) :=
  if ptr =? 0 then ralloc_size malloc m ctx sz else
  p ← ralloc_parent m ptr;
  if negb (p =? ctx) then None else resize realloc m ptr sz.

(** Whether an array is too large; [None] divides by zero. *)
Definition array_overflows (sz count : Z) : option bool :=
  if sz =? 0 then None else Some (SIZE_MAX / sz <? count).

Definition ralloc_array_size (malloc : malloc_result) (m : rheap) (ctx sz count : Z) : option (rheap * Z) :=
  o ← array_overflows sz count;
  if o : bool then Some (m, 0) else ralloc_size malloc m ctx (u64 (sz * count)).

Definition rzalloc_array_size (malloc : malloc_result) (m : rheap) (ctx sz count : Z) : option (rheap * Z) :=
  o ← array_overflows sz count;
  if o : bool then Some (m, 0) else rzalloc_size malloc m ctx (u64 (sz * count)).

Definition reralloc_array_size (malloc : malloc_result) (realloc : realloc_result) (m : rheap) (ctx ptr sz count : Z) :
    option (rheap * Z) :=
  o ← array_overflows sz count;
  if o : bool then Some (m, 0) else reralloc_size malloc realloc m ctx ptr (u64 (sz * count)).

Definition unlink_block (m : rheap) (info : Z) : option rheap :=
  h ← m !! info;
  m ← (if rh_parent h =? 0 then Some m else
       p ← m !! rh_parent h;
       m ← (if rh_child p =? info then rupd m (rh_parent h) (set_rh_child (rh_next h)) else Some m);
       h ← m !! info;
       m ← rupd_opt m (rh_prev h) (set_rh_next (rh_next h));
       h ← m !! info;
       rupd_opt m (rh_next h) (set_rh_prev (rh_prev h)));
  rupd m info (fun h => set_rh_next 0 (set_rh_prev 0 (set_rh_parent 0 h))).

(** Frees the children, one after the other, then the block itself.  The heap, and the destructors that
    were called with their arguments.  The loop over the children goes on with the same call. *)
Fixpoint unsafe_free (fuel : nat) (m : rheap) (info : Z) : option (rheap * list (Z * Z)) :=
  match fuel with
  | O => None
  | S fuel =>
    h ← m !! info;
    if rh_child h =? 0 then
      Some (delete info m, if rh_destructor h =? 0 then [] else [(rh_destructor h, PTR_FROM_HEADER info)])
    else
      let temp := rh_child h in
      t ← m !! temp;
      m ← rupd m info (set_rh_child (rh_next t));
      '(m, calls) ← unsafe_free fuel m temp;
      '(m, calls') ← unsafe_free fuel m info;
      Some (m, calls ++ calls')
  end.

(** Every block is entered once, and every block but the first ends a step of a loop. *)
Definition ralloc_free (m : rheap) (ptr : Z) : option (rheap * list (Z * Z)) :=
  if ptr =? 0 then Some (m, []) else
  let info := get_header ptr in
  m ← unlink_block m info;
  unsafe_free (S (2 * size m)) m info.

Definition ralloc_steal (m : rheap) (new_ctx ptr : Z) : option rheap :=
  if ptr =? 0 then Some m else
  let info := get_header ptr in
  let parent := if new_ctx =? 0 then 0 else get_header new_ctx in
  m ← unlink_block m info;
  add_child m parent info.

(** Sets the parent of a list of siblings; the last of them. *)
Fixpoint adopt_children (fuel : nat) (m : rheap) (child new_info : Z) : option (rheap * Z) :=
  match fuel with
  | O => None
  | S fuel =>
    c ← m !! child;
    if rh_next c =? 0 then m ← rupd m child (set_rh_parent new_info); Some (m, child) else
    m ← rupd m child (set_rh_parent new_info);
    c ← m !! child;
    adopt_children fuel m (rh_next c) new_info
  end.

Definition ralloc_adopt (m : rheap) (new_ctx old_ctx : Z) : option rheap :=
  if old_ctx =? 0 then Some m else
  let old_info := get_header old_ctx in
  let new_info := get_header new_ctx in
  o ← m !! old_info;
  if rh_child o =? 0 then Some m else
  '(m, child) ← adopt_children (size m) m (rh_child o) new_info;
  n ← m !! new_info;
  m ← rupd m child (set_rh_next (rh_child n));
  c ← m !! child;
  m ← rupd_opt m (rh_next c) (set_rh_prev child);
  o ← m !! old_info;
  m ← rupd m new_info (set_rh_child (rh_child o));
  rupd m old_info (set_rh_child 0).

Definition ralloc_set_destructor (m : rheap) (ptr destructor : Z) : option rheap :=
  rupd m (get_header ptr) (set_rh_destructor destructor).
