(* ===== verification/RallocString.v ===== *)
(** * Strings in memory contexts ([src/util/ralloc.c])

    The functions that copy, append and print strings.  A string that is passed in is the list of the
    bytes at its address, up to at least its terminator; it is not part of a block that is resized.
    What a format prints is the argument [text], without the terminator; [vsnprintf] stores it. *)
From stdpp Require Import gmap.
From S2P Require Import Prelude Bytes Ralloc.

(** [None] reads behind the bytes. *)
Fixpoint strlen (s : list Z) : option Z :=
  match s with
  | [] => None
  | c :: s => if c =? 0 then Some 0 else n ← strlen s; Some (n + 1)
  end.

Fixpoint strnlen (s : list Z) (max : Z) : option Z :=
  if max =? 0 then Some 0 else
  match s with
  | [] => None
  | c :: s => if c =? 0 then Some 0 else n ← strnlen s (max - 1); Some (n + 1)
  end.

(** The bytes of the block at a pointer. *)
Definition bytes_at (m : rheap) (ptr : Z) : option (list Z) := rh_data <$> m !! get_header ptr.

(** ** Copies *)

(** [n] bytes of a string and a terminator in a new block; the number of array elements is an unsigned int. *)
Definition copy_string (malloc : malloc_result) (m : rheap) (ctx : Z) (str : list Z) (n : Z) : option (rheap * Z) :=
  '(m, ptr) ← ralloc_array_size malloc m ctx 1 (u32 (n + 1));
  bs ← read_bytes str 0 n;
  m ← poke m ptr 0 bs;
  m ← poke m ptr n [0];
  Some (m, ptr).

Definition ralloc_strdup (malloc : malloc_result) (m : rheap) (ctx : Z) (str : option (list Z)) : option (rheap * Z) :=
  match str with
  | None => Some (m, 0)
  | Some str => n ← strlen str; copy_string malloc m ctx str n
  end.

Definition ralloc_strndup (malloc : malloc_result) (m : rheap) (ctx : Z) (str : option (list Z)) (max : Z) :
    option (rheap * Z) :=
  match str with
  | None => Some (m, 0)
  | Some str => n ← strnlen str max; copy_string malloc m ctx str n
  end.

(** ** Appending *)

(** The heap, the string ([*dest] after the call) and the result. *)
Definition ralloc_str_append (realloc : realloc_result) (m : rheap) (dest : Z) (str : list Z)
    (existing_length str_size : Z) : option (rheap * (Z * bool)) :=
  if dest =? 0 then None else
  '(m, both) ← resize realloc m dest (u64 (existing_length + str_size + 1));
  if both =? 0 then Some (m, (dest, false)) else
  bs ← read_bytes str 0 str_size;
  m ← poke m both existing_length bs;
  m ← poke m both (existing_length + str_size) [0];
  Some (m, (both, true)).

Definition cat (realloc : realloc_result) (m : rheap) (dest : Z) (str : list Z) (n : Z) : option (rheap * (Z * bool)) :=
  if dest =? 0 then None else
  d ← bytes_at m dest;
  existing_length ← strlen d;
  '(m, both) ← resize realloc m dest (u64 (existing_length + n + 1));
  if both =? 0 then Some (m, (dest, false)) else
  bs ← read_bytes str 0 n;
  m ← poke m both existing_length bs;
  m ← poke m both (existing_length + n) [0];
  Some (m, (both, true)).

Definition ralloc_strcat (realloc : realloc_result) (m : rheap) (dest : Z) (str : list Z) : option (rheap * (Z * bool)) :=
  n ← strlen str; cat realloc m dest str n.

Definition ralloc_strncat (realloc : realloc_result) (m : rheap) (dest : Z) (str : list Z) (n : Z) :
    option (rheap * (Z * bool)) :=
  n ← strnlen str n; cat realloc m dest str n.

(** ** Printing *)

(** [vsnprintf] gives an int, which must not be negative. *)
Definition printf_length (text : list Z) : option Z :=
  let size := Z.of_nat (length text) in if size <? 2 ^ 31 then Some size else None.

(** Stores what fits, with a terminator. *)
Definition vsnprintf (m : rheap) (ptr o size : Z) (text : list Z) : option rheap :=
  if size =? 0 then Some m else poke m ptr o (take (Z.to_nat (size - 1)) text ++ [0]).

Definition ralloc_vasprintf (malloc : malloc_result) (m : rheap) (ctx : Z) (text : list Z) : option (rheap * Z) :=
  n ← printf_length text;
  let size := u64 (n + 1) in
  '(m, ptr) ← ralloc_size malloc m ctx size;
  if ptr =? 0 then Some (m, ptr) else
  m ← vsnprintf m ptr 0 size text;
  Some (m, ptr).

(** The heap, [*str], [*start] and the result. *)
Definition ralloc_vasprintf_rewrite_tail (malloc : malloc_result) (realloc : realloc_result) (m : rheap)
    (str start : Z) (text : list Z) : option (rheap * (Z * Z * bool)) :=
  if str =? 0 then
    '(m, str) ← ralloc_vasprintf malloc m 0 text;
    d ← bytes_at m str;
    start ← strlen d;
    Some (m, (str, start, true))
  else
    new_length ← printf_length text;
    '(m, ptr) ← resize realloc m str (u64 (start + new_length + 1));
    if ptr =? 0 then Some (m, (str, start, false)) else
    m ← vsnprintf m ptr start (u64 (new_length + 1)) text;
    Some (m, (ptr, u64 (start + new_length), true)).

Definition ralloc_vasprintf_append (malloc : malloc_result) (realloc : realloc_result) (m : rheap)
    (str : Z) (text : list Z) : option (rheap * (Z * bool)) :=
  existing_length ← (if str =? 0 then Some 0 else d ← bytes_at m str; strlen d);
  '(m, (str, _, success)) ← ralloc_vasprintf_rewrite_tail malloc realloc m str existing_length text;
  Some (m, (str, success)).
