(* ===== verification/RallocForest.v ===== *)
(** * Blocks as a forest

    The blocks of a heap as a forest: each with its parent and the list of its children.  The
    headers that such a forest has in memory ([concr]), and the forest operations behind linking,
    unlinking, moving and adopting blocks. *)
From stdpp Require Import gmap relations.
From S2P Require Import Prelude Bytes Ralloc.

(** ** Neighbours in a list of addresses *)

Definition zhd (l : list Z) : Z := hd 0 l.

(** The element after [x], 0 if there is none. *)
Fixpoint next_of (x : Z) (l : list Z) : Z :=
  match l with [] => 0 | y :: l => if y =? x then zhd l else next_of x l end.

Definition prev_of (x : Z) (l : list Z) : Z := next_of x (rev l).

Definition zlast (l : list Z) : Z := zhd (rev l).

(** Addresses are not null and differ. *)
Definition addrs (l : list Z) : Prop := NoDup l /\ 0 ∉ l.

Lemma zhd_in l : zhd l = 0 \/ zhd l ∈ l.
Proof. destruct l; cbn; [by left|right]. apply elem_of_cons. by left. Qed.

Lemma next_of_in x l : next_of x l = 0 \/ next_of x l ∈ l.
Proof.
  induction l as [|y l IH]; cbn; [by left|]. destruct (y =? x).
  - destruct (zhd_in l); [by left|right]. apply elem_of_cons. by right.
  - destruct IH; [by left|right]. apply elem_of_cons. by right.
Qed.

Lemma next_of_notin x l : x ∉ l -> next_of x l = 0.
Proof.
  induction l as [|y l IH]; cbn; [done|]. intros [Hy Hx]%not_elem_of_cons.
  destruct (Z.eqb_spec y x); [congruence|]. by apply IH.
Qed.

Lemma next_of_split x l1 l2 : x ∉ l1 -> next_of x (l1 ++ x :: l2) = zhd l2.
Proof.
  induction l1 as [|y l1 IH]; cbn; [by rewrite Z.eqb_refl|]. intros [Hy Hx]%not_elem_of_cons.
  destruct (Z.eqb_spec y x); [congruence|]. by apply IH.
Qed.

Lemma zlast_cons x l : l <> [] -> zlast (x :: l) = zlast l.
Proof.
  intros Hl. unfold zlast. cbn. destruct (rev l) as [|y r] eqn:E; [|done].
  apply (f_equal (@rev Z)) in E. rewrite rev_involutive in E. done.
Qed.

Lemma zlast_in l : l <> [] -> zlast l ∈ l.
Proof.
  intros Hl. unfold zlast. destruct (rev l) as [|y r] eqn:E.
  - apply (f_equal (@rev Z)) in E. rewrite rev_involutive in E. done.
  - cbn. apply list_elem_of_In, in_rev. rewrite E. by left.
Qed.

(** The neighbours of the others when an element is put between two parts. *)
Lemma next_of_insert a x l1 l2 :
  addrs (l1 ++ a :: l2) -> x <> a -> x <> 0 ->
  next_of x (l1 ++ a :: l2) = if x =? zlast l1 then a else next_of x (l1 ++ l2).
Proof.
  intros [Hnd Hz] Hx Hx0. induction l1 as [|y l1 IH].
  - change (zlast []) with 0. cbn. destruct (Z.eqb_spec a x); [congruence|]. by destruct (Z.eqb_spec x 0).
  - cbn [app] in *. apply NoDup_cons in Hnd as [Hy Hnd]. apply not_elem_of_cons in Hz as [Hz0 Hz].
    cbn [next_of]. destruct (Z.eqb_spec y x) as [->|Hyx].
    + destruct l1 as [|z l1]; [unfold zlast; cbn; by rewrite Z.eqb_refl|].
      rewrite zlast_cons by done. destruct (Z.eqb_spec x (zlast (z :: l1))) as [E|]; [|done].
      exfalso. apply Hy. rewrite E. apply elem_of_app. left. by apply zlast_in.
    + rewrite IH by done. destruct l1 as [|z l1]; [|by rewrite (zlast_cons y)].
      unfold zlast. cbn. destruct (Z.eqb_spec x 0), (Z.eqb_spec x y); congruence.
Qed.

Lemma rev_split (a : Z) l1 l2 : rev (l1 ++ a :: l2) = rev l2 ++ a :: rev l1.
Proof. rewrite rev_app_distr. cbn. by rewrite <- app_assoc. Qed.

Lemma elem_of_rev (x : Z) l : x ∈ rev l <-> x ∈ l.
Proof. rewrite !list_elem_of_In. symmetry. apply in_rev. Qed.

Lemma addrs_rev l : addrs l -> addrs (rev l).
Proof.
  intros [H1 H2]. split; [|by rewrite elem_of_rev].
  apply NoDup_ListNoDup, List.NoDup_rev, NoDup_ListNoDup. done.
Qed.

Lemma prev_of_split x l1 l2 : x ∉ l2 -> prev_of x (l1 ++ x :: l2) = zlast l1.
Proof. intros Hx. unfold prev_of. rewrite rev_split. apply next_of_split. by rewrite elem_of_rev. Qed.

Lemma prev_of_insert a x l1 l2 :
  addrs (l1 ++ a :: l2) -> x <> a -> x <> 0 ->
  prev_of x (l1 ++ a :: l2) = if x =? zhd l2 then a else prev_of x (l1 ++ l2).
Proof.
  intros H Hx Hx0. unfold prev_of. apply addrs_rev in H. rewrite rev_split in *.
  rewrite next_of_insert by done. rewrite rev_app_distr. unfold zlast. by rewrite rev_involutive.
Qed.

Lemma prev_of_notin x l : x ∉ l -> prev_of x l = 0.
Proof. intros Hx. apply next_of_notin. by rewrite elem_of_rev. Qed.

(** Two lists, one after the other. *)
Lemma next_of_app_l x l1 l2 :
  addrs (l1 ++ l2) -> x ∈ l1 -> next_of x (l1 ++ l2) = if x =? zlast l1 then zhd l2 else next_of x l1.
Proof.
  intros [Hnd Hz] Hx. induction l1 as [|y l1 IH]; [by apply elem_of_nil in Hx|].
  cbn [app next_of] in *. apply NoDup_cons in Hnd as [Hy Hnd]. apply not_elem_of_cons in Hz as [Hz0 Hz].
  destruct (Z.eqb_spec y x) as [->|Hyx].
  - destruct l1 as [|z l1]; [unfold zlast; cbn; by rewrite Z.eqb_refl|].
    rewrite zlast_cons by done. destruct (Z.eqb_spec x (zlast (z :: l1))) as [E|]; [|done].
    exfalso. apply Hy. rewrite E. apply elem_of_app. left. by apply zlast_in.
  - apply elem_of_cons in Hx as [|Hx]; [congruence|]. rewrite IH by done.
    destruct l1 as [|z l1]; [by apply elem_of_nil in Hx|]. by rewrite (zlast_cons y).
Qed.

Lemma next_of_app_r x l1 l2 : x ∉ l1 -> next_of x (l1 ++ l2) = next_of x l2.
Proof.
  induction l1 as [|y l1 IH]; [done|]. intros [Hy Hx]%not_elem_of_cons. cbn.
  destruct (Z.eqb_spec y x); [congruence|]. by apply IH.
Qed.

Lemma prev_of_app_r x l1 l2 :
  addrs (l1 ++ l2) -> x ∈ l2 -> prev_of x (l1 ++ l2) = if x =? zhd l2 then zlast l1 else prev_of x l2.
Proof.
  intros H Hx. apply addrs_rev in H. unfold prev_of. rewrite rev_app_distr in *.
  rewrite next_of_app_l by (by rewrite ?elem_of_rev). unfold zlast. by rewrite rev_involutive.
Qed.

Lemma prev_of_app_l x l1 l2 : x ∉ l2 -> prev_of x (l1 ++ l2) = prev_of x l1.
Proof. intros Hx. unfold prev_of. rewrite rev_app_distr. apply next_of_app_r. by rewrite elem_of_rev. Qed.

(** A renaming. *)
Lemma next_of_map (f : Z -> Z) x l :
  f 0 = 0 -> (forall y, y ∈ l -> f y = f x -> y = x) -> next_of (f x) (f <$> l) = f (next_of x l).
Proof.
  intros H0 Hf. induction l as [|y l IH]; cbn; [done|].
  assert (zhd (f <$> l) = f (zhd l)) as Hh by (by destruct l).
  destruct (Z.eqb_spec y x) as [->|Hyx]; [by rewrite Z.eqb_refl|].
  destruct (Z.eqb_spec (f y) (f x)) as [E|]; [apply Hf in E; [done|apply elem_of_cons; by left]|].
  apply IH. intros z Hz. apply Hf. apply elem_of_cons. by right.
Qed.

Lemma prev_of_map (f : Z -> Z) x l :
  f 0 = 0 -> (forall y, y ∈ l -> f y = f x -> y = x) -> prev_of (f x) (f <$> l) = f (prev_of x l).
Proof.
  intros H0 Hf. unfold prev_of. replace (rev (f <$> l)) with (f <$> rev l) by (unfold fmap; apply map_rev).
  apply next_of_map; [done|]. intros y Hy. apply Hf. by rewrite <- elem_of_rev.
Qed.

(** ** Forests *)

Record fnode := FNode { fn_parent : Z; fn_children : list Z; fn_destructor : Z; fn_data : list Z }.

Notation forest := (gmap Z fnode).

Definition set_fn_parent (p : Z) (n : fnode) : fnode := FNode p (fn_children n) (fn_destructor n) (fn_data n).
Definition set_fn_children (f : list Z -> list Z) (n : fnode) : fnode :=
  FNode (fn_parent n) (f (fn_children n)) (fn_destructor n) (fn_data n).
Definition set_fn_destructor (d : Z) (n : fnode) : fnode := FNode (fn_parent n) (fn_children n) d (fn_data n).
Definition set_fn_data (d : list Z) (n : fnode) : fnode := FNode (fn_parent n) (fn_children n) (fn_destructor n) d.

(** The children of a block; none if there is no block. *)
Definition kids (F : forest) (p : Z) : list Z := from_option fn_children [] (F !! p).

(** The header of a block in memory. *)
Definition header_of (F : forest) (a : Z) (n : fnode) : ralloc_header :=
  RallocHeader (fn_parent n) (zhd (fn_children n)) (prev_of a (kids F (fn_parent n)))
    (next_of a (kids F (fn_parent n))) (fn_destructor n) (fn_data n).

Definition concr (F : forest) : rheap := map_imap (fun a n => Some (header_of F a n)) F.

Lemma concr_lookup F a : concr F !! a = header_of F a <$> F !! a.
Proof. unfold concr. rewrite map_lookup_imap. by destruct (F !! a). Qed.

(** [c] is a child of [a]. *)
Definition child_rel (F : forest) (c a : Z) : Prop := c ∈ kids F a.

(** Parents and children agree, and no block is below itself. *)
Record fwf (F : forest) : Prop := Fwf {
  fw_zero : F !! 0 = None;
  fw_pos : forall a n, F !! a = Some n -> 0 < a;
  fw_nodup : forall a, NoDup (kids F a);
  fw_child : forall a c, c ∈ kids F a -> fn_parent <$> F !! c = Some a;
  fw_parent : forall c n, F !! c = Some n -> fn_parent n <> 0 -> c ∈ kids F (fn_parent n);
  fw_acyclic : forall a, Acc (child_rel F) a }.

Section Wf.

Context (F : forest) (H : fwf F).

Lemma kids_present a c : c ∈ kids F a -> exists n, F !! c = Some n /\ fn_parent n = a.
Proof.
  intros Hc. apply H.(fw_child _) in Hc. apply fmap_Some in Hc as (n & Hn & ->). by exists n.
Qed.

Lemma kids_addrs a : addrs (kids F a).
Proof.
  split; [apply H|]. intros H0. apply kids_present in H0 as (n & Hn & _). by rewrite H.(fw_zero _) in Hn.
Qed.

Lemma present_nonzero a n : F !! a = Some n -> a <> 0.
Proof. intros Ha ->. by rewrite H.(fw_zero _) in Ha. Qed.

Lemma kids_parent a c : c ∈ kids F a -> exists n, F !! a = Some n.
Proof. unfold kids. destruct (F !! a); [by eauto|]. by intros ?%elem_of_nil. Qed.

Lemma kids_zero : kids F 0 = [].
Proof. unfold kids. by rewrite H.(fw_zero _). Qed.

Lemma kids_self a : a ∉ kids F a.
Proof.
  intros Ha. specialize (H.(fw_acyclic _) a). induction 1 as [x _ IH]. exact (IH x Ha Ha).
Qed.

End Wf.

Lemma kids_alter_children F f p x :
  kids (alter (set_fn_children f) p F) x =
    if decide (x = p) then from_option (fun n => f (fn_children n)) [] (F !! p) else kids F x.
Proof.
  unfold kids. destruct (decide (x = p)) as [->|Hx].
  - rewrite lookup_alter. case_decide; [|done]. by destruct (F !! p).
  - by rewrite lookup_alter_ne by done.
Qed.

(** Changes that keep the children. *)
Lemma kids_alter F f p x :
  (forall n, fn_children (f n) = fn_children n) -> kids (alter f p F) x = kids F x.
Proof.
  intros Hf. unfold kids. destruct (decide (x = p)) as [->|Hx].
  - rewrite lookup_alter. case_decide; [|done]. by destruct (F !! p); cbn; rewrite ?Hf.
  - by rewrite lookup_alter_ne by done.
Qed.

(** Below in the forest, the block itself included. *)
Definition under (F : forest) (a x : Z) : Prop := rtc (child_rel F) x a.

(** ** Operations *)

(** Makes the root [a] the first child of [p]. *)
Definition f_link (F : forest) (p a : Z) : forest :=
  if p =? 0 then F else alter (set_fn_parent p) a (alter (set_fn_children (cons a)) p F).

(** The list without [a]. *)
Definition without (a : Z) (l : list Z) : list Z := filter (fun c => c <> a) l.

(** Makes [a] a root. *)
Definition f_unlink (F : forest) (a : Z) : forest :=
  match F !! a with
  | None => F
  | Some n => alter (set_fn_parent 0) a
      (alter (set_fn_children (without a)) (fn_parent n) F)
  end.

(** Gives the children of [o] to [n], before its own. *)
Definition f_adopt (F : forest) (new old : Z) : forest :=
  let moved := kids F old in
  alter (set_fn_children (app moved)) new
    (alter (set_fn_children (fun _ => [])) old
      (map_imap (fun c n => Some (if decide (c ∈ moved) then set_fn_parent new n else n)) F)).

(** Moves a block to another address, with new contents. *)
Definition rename (old new x : Z) : Z := if x =? old then new else x.

Definition f_move (F : forest) (old new : Z) (data : list Z) : forest :=
  match F !! old with
  | None => F
  | Some n =>
    let upd m := FNode (rename old new (fn_parent m)) (rename old new <$> fn_children m) (fn_destructor m) (fn_data m) in
    <[new := set_fn_data data (upd n)]> (upd <$> delete old F)
  end.
