(* ===== verification/RallocCorrect.v ===== *)
(** * The links of the blocks

    Linking, unlinking, adopting and moving headers in memory is the forest operation of the
    same name, and keeps forests well formed. *)
From stdpp Require Import gmap relations.
From S2P Require Import Prelude Bytes Ralloc RallocForest.

(** ** Assignments *)

Lemma rupd_alter m p f h : m !! p = Some h -> rupd m p f = Some (alter f p m).
Proof.
  intros Hp. unfold rupd. rewrite Hp. cbn. f_equal. apply map_eq. intros x.
  destruct (decide (x = p)) as [->|Hx].
  - by rewrite lookup_insert_eq, lookup_alter_eq, Hp.
  - by rewrite lookup_insert_ne, lookup_alter_ne by done.
Qed.

Lemma rupd_opt_alter m p f :
  (p = 0 \/ exists h, m !! p = Some h) -> m !! 0 = None -> rupd_opt m p f = Some (alter f p m).
Proof.
  intros Hp H0. unfold rupd_opt. destruct (Z.eqb_spec p 0) as [->|Hp0].
  - f_equal. apply map_eq. intros x. destruct (decide (x = 0)) as [->|Hx].
    + by rewrite lookup_alter_eq, H0.
    + by rewrite lookup_alter_ne by done.
  - destruct Hp as [|[h Hh]]; [done|]. by eapply rupd_alter.
Qed.

Lemma lookup_alter_case {A} (f : A -> A) p (m : gmap Z A) x :
  alter f p m !! x = if decide (x = p) then f <$> m !! x else m !! x.
Proof. case_decide as E; [subst; apply lookup_alter_eq|by apply lookup_alter_ne]. Qed.

Lemma alter_absent {A} (f : A -> A) p (m : gmap Z A) : m !! p = None -> alter f p m = m.
Proof.
  intros Hp. apply map_eq. intros x. rewrite lookup_alter_case. case_decide; [subst; by rewrite Hp|done].
Qed.

Lemma lookup_alter_present {A} (f : A -> A) p (m : gmap Z A) x :
  (x = 0 \/ exists h, m !! x = Some h) -> x = 0 \/ exists h, alter f p m !! x = Some h.
Proof.
  intros [?|[h Hh]]; [by left|right]. rewrite lookup_alter_case, Hh. case_decide; cbn; by eauto.
Qed.

Lemma concr_zero F : fwf F -> concr F !! 0 = None.
Proof. intros H. by rewrite concr_lookup, H.(fw_zero _). Qed.

Lemma concr_present F a n : F !! a = Some n -> concr F !! a = Some (header_of F a n).
Proof. intros Ha. by rewrite concr_lookup, Ha. Qed.

(** The links of a header point to blocks. *)
Lemma concr_kid F p x : fwf F -> x = 0 \/ x ∈ kids F p -> x = 0 \/ exists h, concr F !! x = Some h.
Proof.
  intros H [?|Hx]; [by left|right]. apply kids_present in Hx as (n & Hn & _); [|done].
  rewrite (concr_present _ _ _ Hn). by eauto.
Qed.

(** ** Acyclicity *)

(** Blocks get a new parent that is not below any of them. *)
Lemma acyclic_add (R R' : Z -> Z -> Prop) (moved : Z -> Prop) p :
  (forall x, Acc R x) -> (forall c, moved c -> ~ rtc R p c) ->
  (forall c x, R' c x -> R c x \/ moved c /\ x = p) -> forall x, Acc R' x.
Proof.
  intros HR Hp HR'.
  assert (forall x, (exists c, moved c /\ rtc R x c) -> Acc R' x) as Hm.
  { intros x. induction (HR x) as [x _ IH]. intros (c & Hc & Hx). constructor. intros y Hy.
    apply HR' in Hy as [Hy|[_ ->]]; [|by apply Hp in Hc].
    apply IH; [done|]. exists c. split; [done|]. by eapply rtc_l. }
  intros x. induction (HR x) as [x _ IH]. constructor. intros y Hy.
  apply HR' in Hy as [Hy|[Hy ->]]; [by apply IH|]. apply Hm. exists y. split; [done|apply rtc_refl].
Qed.

Lemma acyclic_mono (R R' : Z -> Z -> Prop) :
  (forall x, Acc R x) -> (forall c x, R' c x -> R c x) -> forall x, Acc R' x.
Proof. intros HR HR' x. induction (HR x) as [x _ IH]. constructor. intros y Hy. by apply IH, HR'. Qed.

(** ** Linking *)

Section Link.

Context (F : forest) (H : fwf F) (p a : Z) (n np : fnode).
Context (Ha : F !! a = Some n) (Hroot : fn_parent n = 0) (Hp : F !! p = Some np) (Hne : p <> a).

Lemma f_link_lookup x :
  f_link F p a !! x = if decide (x = a) then Some (set_fn_parent p n)
    else if decide (x = p) then Some (set_fn_children (cons a) np) else F !! x.
Proof.
  unfold f_link. rewrite (proj2 (Z.eqb_neq p 0)) by (by eapply present_nonzero).
  rewrite lookup_alter_case. case_decide; subst.
  - rewrite lookup_alter_ne by done. by rewrite Ha.
  - rewrite lookup_alter_case. case_decide; subst; [by rewrite Hp|done].
Qed.

Lemma f_link_kids x : kids (f_link F p a) x = if decide (x = p) then a :: kids F p else kids F x.
Proof.
  unfold kids. rewrite f_link_lookup. destruct (decide (x = a)) as [->|].
  - rewrite decide_False by congruence. by rewrite Ha.
  - destruct (decide (x = p)) as [->|]; [|done]. by rewrite Hp.
Qed.

Lemma root_not_kid x : a ∉ kids F x.
Proof.
  intros Hk. pose proof Hk as Hk'. apply kids_present in Hk as (n' & Hn' & Hx); [|done].
  assert (x = 0) as -> by congruence. rewrite kids_zero in Hk' by done. by apply elem_of_nil in Hk'.
Qed.

Lemma link_addrs : addrs (a :: kids F p).
Proof.
  destruct (kids_addrs F H p) as [H1 H2]. split.
  - apply NoDup_cons. split; [apply root_not_kid|done].
  - apply not_elem_of_cons. split; [|done]. intros <-. by rewrite H.(fw_zero _) in Ha.
Qed.

Lemma link_a_nonzero : a <> 0.
Proof. by eapply present_nonzero. Qed.

Lemma link_p_nonzero : p <> 0.
Proof. by eapply present_nonzero. Qed.

Lemma zhd_kid_parent x nx : F !! x = Some nx -> x = zhd (kids F p) -> fn_parent nx = p.
Proof.
  intros Hx E. destruct (zhd_in (kids F p)) as [E0|Hin].
  - by apply present_nonzero in Hx; [congruence|].
  - rewrite <- E in Hin. apply kids_present in Hin as (n' & Hn' & <-); [|done]. congruence.
Qed.

Lemma link_next x nx :
  F !! x = Some nx -> x <> a -> next_of x (kids (f_link F p a) (fn_parent nx)) = next_of x (kids F (fn_parent nx)).
Proof.
  intros Hx Hxa. rewrite f_link_kids. case_decide as E; [|done]. rewrite E.
  cbn. by destruct (Z.eqb_spec a x); [congruence|].
Qed.

Lemma link_prev x nx :
  F !! x = Some nx -> x <> a -> prev_of x (kids (f_link F p a) (fn_parent nx)) =
    if decide (x = zhd (kids F p)) then a else prev_of x (kids F (fn_parent nx)).
Proof.
  intros Hx Hxa. rewrite f_link_kids. destruct (decide (fn_parent nx = p)) as [E|E].
  - pose proof (prev_of_insert a x [] (kids F p) link_addrs Hxa) as Hi. cbn [app] in Hi.
    rewrite E, Hi by (by eapply present_nonzero). by destruct (Z.eqb_spec x (zhd (kids F p))); case_decide.
  - rewrite decide_False; [done|]. intros Ez. by apply (zhd_kid_parent x nx) in Ez.
Qed.

Lemma add_child_concr : add_child (concr F) p a = Some (concr (f_link F p a)).
Proof.
  pose proof link_a_nonzero as Ha0. pose proof link_p_nonzero as Hp0.
  unfold add_child. rewrite (proj2 (Z.eqb_neq p 0)) by done.
  rewrite (rupd_alter _ _ _ _ (concr_present _ _ _ Ha)). cbn [mbind option_bind].
  rewrite lookup_alter_ne, (concr_present _ _ _ Hp) by done. cbn [mbind option_bind].
  erewrite rupd_alter by (rewrite lookup_alter_eq, (concr_present _ _ _ Ha); done). cbn [mbind option_bind].
  erewrite rupd_alter by (rewrite !lookup_alter_ne, (concr_present _ _ _ Hp) by done; done). cbn [mbind option_bind].
  rewrite lookup_alter_ne, !lookup_alter_eq, (concr_present _ _ _ Ha) by done. cbn -[kids].
  assert (fn_children np = kids F p) as Ek by (unfold kids; by rewrite Hp). rewrite Ek.
  pose proof (zhd_in (kids F p)) as Hh.
  assert (zhd (kids F p) <> a) as Hha.
  { destruct Hh as [->|Hh]; [done|]. intros E. rewrite E in Hh. by apply root_not_kid in Hh. }
  assert (zhd (kids F p) <> p) as Hhp.
  { destruct Hh as [->|Hh]; [done|]. intros E. rewrite E in Hh. by apply kids_self in Hh. }
  rewrite rupd_opt_alter.
  - f_equal. apply map_eq. intros x. rewrite !concr_lookup, f_link_lookup.
    destruct (decide (x = a)) as [->|Hxa].
    + rewrite lookup_alter_ne, lookup_alter_ne, !lookup_alter_eq, concr_lookup, Ha by done. cbn.
      f_equal. unfold header_of. cbn [fn_parent set_fn_parent fn_children fn_destructor fn_data].
      rewrite f_link_kids, decide_True by done. rewrite Hroot, kids_zero by done.
      pose proof (prev_of_split a [] (kids F p) (root_not_kid p)) as Hps. cbn [app] in Hps.
      rewrite Hps. cbn. by rewrite Z.eqb_refl.
    + rewrite !lookup_alter_case, concr_lookup, (decide_False (P := x = a)), (decide_False (P := x = a)) by done.
      destruct (F !! x) as [nx|] eqn:Ex; [|repeat case_decide; subst; done || congruence].
      pose proof (link_next x nx Ex Hxa) as Hnx. pose proof (link_prev x nx Ex Hxa) as Hv.
      destruct (decide (x = p)) as [->|Hxp].
      * assert (np = nx) as -> by congruence. rewrite decide_False in Hv by done. rewrite decide_False by done.
        cbn. unfold header_of, set_rh_child. cbn -[kids]. by rewrite Hv, Hnx.
      * cbn. unfold header_of, set_rh_prev. cbn -[kids]. rewrite Hv, Hnx. by case_decide.
  - destruct (concr_kid F p (zhd (kids F p)) H Hh) as [|[h E]]; [by left|right].
    exists h. by rewrite !lookup_alter_ne.
  - rewrite !lookup_alter_ne by done. by apply concr_zero.
Qed.

Lemma f_link_wf : ~ under F a p -> fwf (f_link F p a).
Proof.
  intros Hu. pose proof link_a_nonzero as Ha0. pose proof link_p_nonzero as Hp0. constructor.
  - rewrite f_link_lookup, !decide_False by done. apply H.
  - intros x nx. rewrite f_link_lookup. repeat case_decide; subst; intros; by eapply H.
  - intros x. rewrite f_link_kids. case_decide; [apply link_addrs|apply H].
  - intros x c. rewrite f_link_kids, f_link_lookup. intros Hc. destruct (decide (c = a)) as [->|Hca].
    + case_decide; [by subst|]. by apply root_not_kid in Hc.
    + assert (c ∈ kids F x) as Hk. { case_decide; subst; [|done]. by apply elem_of_cons in Hc as [|]. }
      apply H.(fw_child _) in Hk. destruct (decide (c = p)) as [->|]; [|done]. by rewrite Hp in Hk.
  - intros c nc. rewrite f_link_lookup, f_link_kids. destruct (decide (c = a)) as [->|Hca].
    + intros E _. injection E as <-. cbn. rewrite decide_True by done. by apply elem_of_cons; left.
    + intros Hc Hn. assert (exists n', F !! c = Some n' /\ fn_parent n' = fn_parent nc) as (n' & Hn' & En).
      { case_decide; subst; [|by eauto]. injection Hc as <-. by eauto. }
      rewrite <- En in *. apply H.(fw_parent _) in Hn'; [|done]. destruct (decide (fn_parent n' = p)) as [E|]; [|done].
      rewrite E in Hn'. apply elem_of_cons. by right.
  - apply (acyclic_add (child_rel F) _ (fun c => c = a) p); [apply H|by intros c ->|].
    intros c x. unfold child_rel. rewrite f_link_kids. case_decide; [|by left]. subst.
    intros [->|Hc]%elem_of_cons; [by right|by left].
Qed.

End Link.

(** ** Unlinking *)

Lemma without_notin (a : Z) l : a ∉ l -> without a l = l.
Proof.
  induction l as [|x l IH]; [done|]. intros [Hx Hl]%not_elem_of_cons. unfold without in *.
  rewrite filter_cons_True by congruence. by rewrite IH.
Qed.

Lemma without_split (a : Z) l1 l2 : a ∉ l1 -> a ∉ l2 -> without a (l1 ++ a :: l2) = l1 ++ l2.
Proof.
  intros H1 H2. unfold without. rewrite filter_app, filter_cons_False by (by intros []).
  f_equal; by apply without_notin.
Qed.

Lemma addrs_without a l : addrs l -> addrs (without a l).
Proof.
  intros [H1 H2]. split; [by apply NoDup_filter|]. by intros [_ ?]%list_elem_of_filter.
Qed.

Section Unlink.

Context (F : forest) (H : fwf F) (a : Z) (n : fnode) (Ha : F !! a = Some n).

Lemma parent_not_self : fn_parent n <> a.
Proof.
  intros E. destruct (decide (fn_parent n = 0)) as [E0|E0].
  - apply present_nonzero in Ha; [congruence|done].
  - pose proof (H.(fw_parent _) a n Ha E0) as Hk. rewrite E in Hk. by apply kids_self in Hk.
Qed.

Lemma f_unlink_lookup x :
  f_unlink F a !! x = if decide (x = a) then Some (set_fn_parent 0 n)
    else if decide (x = fn_parent n) then set_fn_children (without a) <$> F !! x else F !! x.
Proof.
  pose proof parent_not_self as Hs. unfold f_unlink. rewrite Ha, lookup_alter_case. case_decide; subst.
  - rewrite lookup_alter_ne by done. by rewrite Ha.
  - by rewrite lookup_alter_case.
Qed.

Lemma f_unlink_kids x :
  kids (f_unlink F a) x = if decide (x = fn_parent n) then without a (kids F x) else kids F x.
Proof.
  pose proof parent_not_self as Hs. unfold kids. rewrite f_unlink_lookup. destruct (decide (x = a)) as [->|].
  - rewrite decide_False by done. by rewrite Ha.
  - case_decide; [|done]. by destruct (F !! x).
Qed.

(** The siblings before and after the block. *)
Lemma unlink_split :
  fn_parent n <> 0 -> exists l1 l2, kids F (fn_parent n) = l1 ++ a :: l2 /\ a ∉ l1 /\ a ∉ l2 /\
    without a (kids F (fn_parent n)) = l1 ++ l2.
Proof.
  intros Hp. pose proof (H.(fw_parent _) a n Ha Hp) as Hk. apply list_elem_of_split in Hk as (l1 & l2 & E).
  pose proof (H.(fw_nodup _) (fn_parent n)) as Hn. rewrite E in Hn.
  apply NoDup_app in Hn as (_ & Hd & Hn). apply NoDup_cons in Hn as [Hn _].
  assert (a ∉ l1) as H1. { intros Hin. apply (Hd a Hin). by apply elem_of_cons; left. }
  exists l1, l2. rewrite E. split_and!; try done. by apply without_split.
Qed.

(** The neighbours of the others. *)
Lemma unlink_next x nx :
  F !! x = Some nx -> x <> a -> next_of x (kids (f_unlink F a) (fn_parent nx)) =
    if decide (x = prev_of a (kids F (fn_parent n))) then next_of a (kids F (fn_parent n))
    else next_of x (kids F (fn_parent nx)).
Proof.
  intros Hx Hxa. pose proof (present_nonzero F H x nx Hx) as Hx0.
  destruct (decide (fn_parent n = 0)) as [E0|E0].
  { rewrite E0, kids_zero, decide_False by done. rewrite f_unlink_kids, E0. case_decide as E; [|done].
    by rewrite E, kids_zero. }
  destruct (unlink_split E0) as (l1 & l2 & El & H1 & H2 & Ef). pose proof (kids_addrs F H (fn_parent n)) as Had.
  rewrite f_unlink_kids. rewrite El in Had |- *. rewrite prev_of_split, next_of_split by done.
  destruct (decide (fn_parent nx = fn_parent n)) as [->|Hne].
  - rewrite Ef, El, (next_of_insert a x l1 l2 Had Hxa Hx0).
    destruct (Z.eqb_spec x (zlast l1)) as [E|E]; case_decide; try done.
    assert (addrs (l1 ++ l2)) as Had' by (rewrite <- Ef; by apply addrs_without, kids_addrs).
    destruct l1 as [|y l1]; [done|]. rewrite next_of_app_l; [|done|rewrite E; by apply zlast_in].
    by rewrite (proj2 (Z.eqb_eq _ _) E).
  - case_decide as E; [|done]. exfalso. apply Hne. destruct l1 as [|y l1]; [done|].
    assert (x ∈ kids F (fn_parent n)) as Hk by (rewrite El; apply elem_of_app; left; rewrite E; by apply zlast_in).
    apply kids_present in Hk as (n' & Hn' & <-); [|done]. congruence.
Qed.

Lemma unlink_prev x nx :
  F !! x = Some nx -> x <> a -> prev_of x (kids (f_unlink F a) (fn_parent nx)) =
    if decide (x = next_of a (kids F (fn_parent n))) then prev_of a (kids F (fn_parent n))
    else prev_of x (kids F (fn_parent nx)).
Proof.
  intros Hx Hxa. pose proof (present_nonzero F H x nx Hx) as Hx0.
  destruct (decide (fn_parent n = 0)) as [E0|E0].
  { rewrite E0, kids_zero, decide_False by done. rewrite f_unlink_kids, E0. case_decide as E; [|done].
    by rewrite E, kids_zero. }
  destruct (unlink_split E0) as (l1 & l2 & El & H1 & H2 & Ef). pose proof (kids_addrs F H (fn_parent n)) as Had.
  rewrite f_unlink_kids. rewrite El in Had |- *. rewrite prev_of_split, next_of_split by done.
  destruct (decide (fn_parent nx = fn_parent n)) as [->|Hne].
  - rewrite Ef, El, (prev_of_insert a x l1 l2 Had Hxa Hx0).
    destruct (Z.eqb_spec x (zhd l2)) as [E|E]; case_decide; try done.
    assert (addrs (l1 ++ l2)) as Had' by (rewrite <- Ef; by apply addrs_without, kids_addrs).
    destruct l2 as [|y l2]; [done|]. rewrite prev_of_app_r; [|done|rewrite E; by apply elem_of_cons; left].
    by rewrite (proj2 (Z.eqb_eq _ _) E).
  - case_decide as E; [|done]. exfalso. apply Hne. destruct l2 as [|y l2]; [done|].
    assert (x ∈ kids F (fn_parent n)) as Hk by (rewrite El; apply elem_of_app; right; rewrite E; by apply elem_of_cons; right; apply elem_of_cons; left).
    apply kids_present in Hk as (n' & Hn' & <-); [|done]. congruence.
Qed.

Lemma unlink_hd :
  zhd (without a (kids F (fn_parent n))) =
    if zhd (kids F (fn_parent n)) =? a then next_of a (kids F (fn_parent n)) else zhd (kids F (fn_parent n)).
Proof.
  pose proof (present_nonzero F H a n Ha) as Ha0. destruct (decide (fn_parent n = 0)) as [E0|E0].
  { rewrite E0, kids_zero by done. change (without a []) with (@nil Z). by destruct (zhd [] =? a). }
  destruct (unlink_split E0) as (l1 & l2 & El & H1 & H2 & Ef). rewrite Ef, El, next_of_split by done.
  destruct l1 as [|y l1]; cbn; [by rewrite Z.eqb_refl|].
  destruct (Z.eqb_spec y a) as [->|]; [|done]. by apply not_elem_of_cons in H1 as [? _].
Qed.

(** A neighbour of the block is not the block, its parent or missing. *)
Lemma unlink_neighbour y :
  y = prev_of a (kids F (fn_parent n)) \/ y = next_of a (kids F (fn_parent n)) ->
  y <> a /\ (y = 0 \/ y ∈ kids F (fn_parent n)).
Proof.
  intros Hy. pose proof (present_nonzero F H a n Ha) as Ha0. destruct (decide (fn_parent n = 0)) as [E0|E0].
  { rewrite E0, kids_zero in * by done. unfold prev_of in Hy. cbn in Hy.
    assert (y = 0) as -> by (by destruct Hy). split; [congruence|by left]. }
  destruct (unlink_split E0) as (l1 & l2 & El & H1 & H2 & Ef).
  rewrite El, prev_of_split, next_of_split in * by done. destruct Hy as [-> | ->].
  - destruct l1 as [|y l1]; [split; [done|by left]|]. pose proof (zlast_in (y :: l1) ltac:(done)) as Hin.
    split; [by intros E; rewrite E in Hin|right]. apply elem_of_app. by left.
  - destruct l2 as [|y l2]; [split; [done|by left]|]. cbn. apply not_elem_of_cons in H2 as [? _].
    split; [done|right]. apply elem_of_app. right. apply elem_of_cons. right. apply elem_of_cons. by left.
Qed.

Lemma unlink_block_concr : unlink_block (concr F) a = Some (concr (f_unlink F a)).
Proof.
  pose proof (present_nonzero F H a n Ha) as Ha0. pose proof parent_not_self as Hpa.
  set (p := fn_parent n) in *. set (l := kids F p) in *.
  destruct (unlink_neighbour (prev_of a l) (or_introl eq_refl)) as [Hpr Hpk].
  destruct (unlink_neighbour (next_of a l) (or_intror eq_refl)) as [Hnx Hnk].
  set (g := fun h => if rh_child h =? a then set_rh_child (next_of a l) h else h).
  assert (unlink_block (concr F) a = Some (alter (fun h => set_rh_next 0 (set_rh_prev 0 (set_rh_parent 0 h))) a
    (alter (set_rh_prev (prev_of a l)) (next_of a l) (alter (set_rh_next (next_of a l)) (prev_of a l) (alter g p (concr F)))))) as E.
  { unfold unlink_block. rewrite (concr_present _ _ _ Ha). cbn [mbind option_bind header_of rh_parent]. fold p.
    destruct (Z.eqb_spec p 0) as [E0|E0].
    - subst l. rewrite E0, kids_zero by done. change (prev_of a []) with 0. change (next_of a []) with 0.
      rewrite (alter_absent g 0), (alter_absent (set_rh_next 0) 0), (alter_absent (set_rh_prev 0) 0) by (by apply concr_zero). cbn.
      by rewrite (rupd_alter _ _ _ _ (concr_present _ _ _ Ha)).
    - pose proof (H.(fw_parent _) a n Ha E0) as Hk. destruct (kids_parent F p a Hk) as [np Hp].
      rewrite (concr_present _ _ _ Hp). cbn [mbind option_bind].
      assert ((if rh_child (header_of F p np) =? a then
        rupd (concr F) p (set_rh_child (rh_next (header_of F a n))) else Some (concr F)) = Some (alter g p (concr F))) as ->.
      { destruct (Z.eqb_spec (rh_child (header_of F p np)) a) as [Ec|Ec].
        - rewrite (rupd_alter _ _ _ _ (concr_present _ _ _ Hp)). f_equal. apply map_eq. intros x.
          rewrite !lookup_alter_case. case_decide; [subst x|done]. rewrite (concr_present _ _ _ Hp). cbn.
          unfold g. cbn in Ec |- *. by rewrite Ec, Z.eqb_refl.
        - f_equal. apply map_eq. intros x. rewrite lookup_alter_case. case_decide; [subst x|done].
          rewrite (concr_present _ _ _ Hp). cbn. unfold g. cbn in Ec |- *. by destruct (Z.eqb_spec (zhd (fn_children np)) a). }
      cbn [mbind option_bind]. rewrite lookup_alter_ne, (concr_present _ _ _ Ha) by done. cbn [mbind option_bind].
      change (rh_prev (header_of F a n)) with (prev_of a l). change (rh_next (header_of F a n)) with (next_of a l).
      assert (alter g p (concr F) !! 0 = None) as Hz1 by (rewrite lookup_alter_ne by done; by apply concr_zero).
      rewrite rupd_opt_alter; [|by apply lookup_alter_present, (concr_kid F p)|done]. cbn [mbind option_bind].
      rewrite !lookup_alter_ne, (concr_present _ _ _ Ha) by done. cbn [mbind option_bind].
      change (rh_prev (header_of F a n)) with (prev_of a l). change (rh_next (header_of F a n)) with (next_of a l).
      rewrite rupd_opt_alter; [|by apply lookup_alter_present, lookup_alter_present, (concr_kid F p)|].
      2: { rewrite lookup_alter_case. case_decide; by rewrite Hz1. }
      cbn [mbind option_bind]. erewrite rupd_alter; [done|].
      by rewrite !lookup_alter_ne, (concr_present _ _ _ Ha) by done. }
  rewrite E. f_equal. apply map_eq. intros x. rewrite concr_lookup, f_unlink_lookup.
  destruct (decide (x = a)) as [->|Hxa].
  - rewrite lookup_alter_eq, !lookup_alter_ne, concr_lookup, Ha by done. cbn. f_equal.
    unfold header_of. cbn. rewrite f_unlink_kids. fold p. case_decide as E0.
    + by rewrite <- E0, kids_zero.
    + by rewrite kids_zero.
  - rewrite !lookup_alter_case, concr_lookup, (decide_False (P := x = a)) by done.
    destruct (F !! x) as [nx|] eqn:Ex; [|by repeat case_decide].
    pose proof (unlink_next x nx Ex Hxa) as Hn. pose proof (unlink_prev x nx Ex Hxa) as Hv. fold p l in Hn, Hv.
    destruct (decide (x = p)) as [->|Hxp].
    + assert (p <> 0) as E0 by (by eapply present_nonzero).
      assert (forall y, y = 0 \/ y ∈ l -> p <> y) as Hpy.
      { intros y [->|Hy] E1; [done|]. subst y. by apply kids_self in Hy. }
      rewrite (decide_False (P := p = prev_of a l)) in Hn by (by apply Hpy).
      rewrite (decide_False (P := p = next_of a l)) in Hv by (by apply Hpy).
      rewrite (decide_False (P := p = next_of a l)), (decide_False (P := p = prev_of a l)) by (by apply Hpy).
      rewrite (decide_True (P := p = fn_parent n)) by done.
      cbn. f_equal. unfold header_of, g. cbn -[kids]. rewrite Hn, Hv.
      pose proof unlink_hd as Hh. fold p l in Hh. assert (fn_children nx = l) as El by (unfold l, kids; by rewrite Ex).
      rewrite El, Hh. by destruct (zhd l =? a).
    + rewrite (decide_False (P := x = fn_parent n)) by done.
      cbn. unfold header_of. rewrite Hn, Hv. by repeat case_decide.
Qed.

Lemma f_unlink_child c x : c ∈ kids (f_unlink F a) x -> c ∈ kids F x /\ c <> a.
Proof.
  rewrite f_unlink_kids. case_decide as E; subst; [by intros [? ?]%list_elem_of_filter|].
  intros Hc. split; [done|]. intros ->. apply kids_present in Hc as (n' & Hn' & <-); [|done]. congruence.
Qed.

Lemma f_unlink_wf : fwf (f_unlink F a).
Proof.
  pose proof (present_nonzero F H a n Ha) as Ha0. constructor.
  - rewrite f_unlink_lookup, decide_False by done. rewrite H.(fw_zero _). by case_decide.
  - intros x nx. rewrite f_unlink_lookup. case_decide; [subst; intros; by eapply H|].
    case_decide; [intros (n' & Hn' & _)%fmap_Some|intros Hn']; by eapply H.
  - intros x. rewrite f_unlink_kids. case_decide; [apply NoDup_filter|]; apply H.
  - intros x c [Hc Hca]%f_unlink_child. apply H.(fw_child _) in Hc. rewrite f_unlink_lookup, decide_False by done.
    case_decide; [|done]. by destruct (F !! c).
  - intros c nc. rewrite f_unlink_lookup, f_unlink_kids. destruct (decide (c = a)) as [->|Hca].
    { intros E. by injection E as <-. }
    intros Hc Hn. assert (exists n', F !! c = Some n' /\ fn_parent n' = fn_parent nc) as (n' & Hn' & En).
    { case_decide; [|by eauto]. apply fmap_Some in Hc as (n' & Hn' & ->). by eauto. }
    rewrite <- En in *. apply H.(fw_parent _) in Hn'; [|done].
    destruct (decide (fn_parent n' = fn_parent n)); [|done]. by apply list_elem_of_filter.
  - apply (acyclic_mono (child_rel F)); [apply H|]. by intros c x [? _]%f_unlink_child.
Qed.

Lemma f_unlink_under x : under (f_unlink F a) a x -> under F a x.
Proof. apply rtc_subrel. by intros c y [? _]%f_unlink_child. Qed.

End Unlink.

(** ** Adopting *)

Section Adopt.

Context (F : forest) (H : fwf F) (new old : Z) (nn no : fnode).
Context (Hnew : F !! new = Some nn) (Hold : F !! old = Some no) (Hnu : ~ under F old new).

Lemma adopt_ne : new <> old.
Proof. intros E. apply Hnu. rewrite E. apply rtc_refl. Qed.

Lemma f_adopt_lookup x :
  f_adopt F new old !! x =
    (fun n => FNode (if decide (x ∈ kids F old) then new else fn_parent n)
      (if decide (x = new) then kids F old ++ fn_children n else if decide (x = old) then [] else fn_children n)
      (fn_destructor n) (fn_data n)) <$> F !! x.
Proof.
  pose proof adopt_ne as Hne. unfold f_adopt. rewrite !lookup_alter_case, map_lookup_imap.
  destruct (F !! x) as [n|]; [|by repeat case_decide]. cbn. repeat case_decide; subst; try done; by destruct n.
Qed.

Lemma f_adopt_kids x :
  kids (f_adopt F new old) x = if decide (x = new) then kids F old ++ kids F new
    else if decide (x = old) then [] else kids F x.
Proof.
  unfold kids at 1. rewrite f_adopt_lookup. destruct (F !! x) as [n|] eqn:Ex; cbn.
  - case_decide as E; [subst; unfold kids; by rewrite Ex|]. case_decide; [done|]. unfold kids. by rewrite Ex.
  - rewrite !decide_False by congruence. unfold kids. by rewrite Ex.
Qed.

Lemma kids_once x y c : c ∈ kids F x -> c ∈ kids F y -> x = y.
Proof. intros H1 H2. apply H.(fw_child _) in H1, H2. congruence. Qed.

Lemma adopt_addrs : addrs (kids F old ++ kids F new).
Proof.
  destruct (kids_addrs F H old) as [N1 Z1]. destruct (kids_addrs F H new) as [N2 Z2]. split.
  - apply NoDup_app. split_and!; [done| |done]. intros c H1 H2. by apply adopt_ne, (kids_once new old c).
  - rewrite elem_of_app. tauto.
Qed.

Lemma f_adopt_wf : fwf (f_adopt F new old).
Proof.
  pose proof adopt_ne as Hne. constructor.
  - rewrite f_adopt_lookup, H.(fw_zero _). done.
  - intros x nx. rewrite f_adopt_lookup. intros (n' & Hn' & _)%fmap_Some. by eapply H.
  - intros x. rewrite f_adopt_kids. case_decide; [apply adopt_addrs|]. case_decide; [constructor|apply H].
  - intros x c. rewrite f_adopt_kids, f_adopt_lookup. intros Hc.
    assert (exists y, c ∈ kids F y /\ x = if decide (y = old) then new else y) as (y & Hy & ->).
    { destruct (decide (x = new)) as [->|].
      - apply elem_of_app in Hc as [Hc|Hc]; [exists old|exists new]; (split; [done|]).
        { by rewrite decide_True. } by rewrite decide_False.
      - destruct (decide (x = old)); [by apply elem_of_nil in Hc|]. exists x. by rewrite decide_False. }
    apply kids_present in Hy as (n & Hn & <-) ; [|done]. pose proof Hn as Hn'. rewrite Hn. cbn. f_equal.
    destruct (decide (fn_parent n = old)) as [E|E]; destruct (decide (c ∈ kids F old)) as [Hk|Hk]; try done.
    + exfalso. apply Hk. rewrite <- E. apply H.(fw_parent _); [done|]. rewrite E. by eapply present_nonzero.
    + exfalso. apply E. apply kids_present in Hk as (n2 & Hn2 & <-); [|done]. congruence.
  - intros c nc. rewrite f_adopt_lookup, f_adopt_kids. intros (n & Hn & ->)%fmap_Some. cbn. intros Hp.
    destruct (decide (c ∈ kids F old)) as [Hk|Hk]; [rewrite decide_True by done; apply elem_of_app; by left|].
    apply H.(fw_parent _) in Hn as Hc; [|done]. destruct (decide (fn_parent n = new)) as [E|E].
    + apply elem_of_app. right. by rewrite <- E.
    + rewrite decide_False; [done|]. intros E'. by rewrite E' in Hc.
  - apply (acyclic_add (child_rel F) _ (fun c => c ∈ kids F old) new); [apply H| |].
    + intros c Hc Hu. apply Hnu. eapply rtc_r; [exact Hu|exact Hc].
    + intros c x. unfold child_rel. rewrite f_adopt_kids. destruct (decide (x = new)) as [->|].
      * intros [Hc|Hc]%elem_of_app; [by right|by left].
      * case_decide; [by intros ?%elem_of_nil|by left].
Qed.

End Adopt.
