(* ===== verification/RallocMove.v ===== *)
(** * Lists of siblings

    The loops over the children of a block, and with them adopting children and moving a block. *)
From stdpp Require Import gmap relations.
From S2P Require Import Prelude Bytes Ralloc RallocForest RallocCorrect.

(** ** Chains *)

(** Blocks that are linked by their [next] members. *)
Fixpoint chain_in (m : rheap) (l : list Z) : Prop :=
  match l with
  | [] => True
  | c :: r => (exists h, m !! c = Some h /\ rh_next h = zhd r) /\ chain_in m r
  end.

(** The same change to all blocks of a list. *)
Definition alter_all (f : ralloc_header -> ralloc_header) (l : list Z) (m : rheap) : rheap :=
  foldl (fun m c => alter f c m) m l.

Lemma alter_all_lookup f l : forall m x,
  NoDup l -> alter_all f l m !! x = if decide (x ∈ l) then f <$> m !! x else m !! x.
Proof.
  induction l as [|c l IH]; intros m x Hnd; [done|]. apply NoDup_cons in Hnd as [Hc Hnd]. cbn [alter_all foldl].
  fold (alter_all f l (alter f c m)). rewrite IH, lookup_alter_case by done.
  destruct (decide (x = c)) as [->|Hx].
  - rewrite decide_False by done. rewrite decide_True by (by apply elem_of_cons; left). done.
  - destruct (decide (x ∈ l)) as [Hl|Hl].
    + by rewrite decide_True by (by apply elem_of_cons; right).
    + rewrite decide_False; [done|]. by intros [|]%elem_of_cons.
Qed.

Lemma chain_in_ext m m' l :
  chain_in m l -> (forall x h, x ∈ l -> m !! x = Some h -> exists h', m' !! x = Some h' /\ rh_next h' = rh_next h) ->
  chain_in m' l.
Proof.
  induction l as [|c r IH]; [done|]. intros [(h & Hh & Hn) Hr] Hm. cbn. split.
  - destruct (Hm c h) as (h' & Hh' & En); [by apply elem_of_cons; left|done|]. exists h'. by rewrite En.
  - apply IH; [done|]. intros x hx Hx. apply Hm. apply elem_of_cons. by right.
Qed.

Lemma chain_set_parent m l c p :
  chain_in m l -> chain_in (alter (set_rh_parent p) c m) l.
Proof.
  intros Hc. apply (chain_in_ext m); [done|]. intros x h _ Hx. rewrite lookup_alter_case, Hx.
  case_decide; cbn; by eauto.
Qed.

Lemma adopt_children_chain l : forall fuel m new,
  chain_in m l -> addrs l -> l <> [] -> (length l <= fuel)%nat ->
  adopt_children fuel m (zhd l) new = Some (alter_all (set_rh_parent new) l m, zlast l).
Proof.
  induction l as [|c r IH]; intros fuel m new Hc [Hnd Hz] Hne Hf; [done|]. destruct fuel as [|fuel]; [cbn in Hf; lia|].
  destruct Hc as [(h & Hh & Hn) Hr]. apply NoDup_cons in Hnd as [Hcr Hnd]. apply not_elem_of_cons in Hz as [Hz0 Hz].
  cbn [adopt_children zhd hd]. rewrite Hh. cbn [mbind option_bind]. rewrite Hn.
  rewrite (rupd_alter _ _ _ _ Hh). cbn [mbind option_bind]. rewrite lookup_alter_eq, Hh. cbn [mbind option_bind fmap option_fmap option_map].
  change (rh_next (set_rh_parent new h)) with (rh_next h). rewrite Hn.
  destruct r as [|c' r]; [done|]. assert (zhd (c' :: r) =? 0 = false) as ->.
  { apply Z.eqb_neq. cbn. by apply not_elem_of_cons in Hz as [? _]. }
  rewrite IH; [|by apply chain_set_parent|done|done|cbn in *; lia]. by rewrite (zlast_cons c).
Qed.

Lemma set_parents_chain l : forall fuel m p,
  chain_in m l -> addrs l -> (length l < fuel)%nat ->
  set_parents fuel m (zhd l) p = Some (alter_all (set_rh_parent p) l m).
Proof.
  induction l as [|c r IH]; intros fuel m p Hc [Hnd Hz] Hf; (destruct fuel as [|fuel]; [lia|]); [done|].
  destruct Hc as [(h & Hh & Hn) Hr]. apply NoDup_cons in Hnd as [Hcr Hnd]. apply not_elem_of_cons in Hz as [Hz0 Hz].
  cbn [set_parents zhd hd]. destruct (Z.eqb_spec c 0); [done|]. rewrite (rupd_alter _ _ _ _ Hh). cbn [mbind option_bind].
  rewrite lookup_alter_eq, Hh. cbn [mbind option_bind fmap option_fmap option_map].
  change (rh_next (set_rh_parent p h)) with (rh_next h). rewrite Hn.
  rewrite IH; [done|by apply chain_set_parent|done|cbn in *; lia].
Qed.

(** A list of blocks is no longer than the heap. *)
Lemma blocks_le_size {A} (m : gmap Z A) l : NoDup l -> (forall x, x ∈ l -> is_Some (m !! x)) -> (length l <= size m)%nat.
Proof.
  intros Hnd Hl. rewrite <- size_dom. rewrite <- (size_list_to_set (C := gset Z) l) by done.
  apply subseteq_size. intros x Hx%elem_of_list_to_set. apply elem_of_dom. by apply Hl.
Qed.

Lemma concr_chain F p : fwf F -> chain_in (concr F) (kids F p).
Proof.
  intros H. cut (forall l1 l2, kids F p = l1 ++ l2 -> chain_in (concr F) l2); [intros Hc; by apply (Hc [])|].
  intros l1 l2. revert l1. induction l2 as [|c r IH]; intros l1 E; [done|]. split.
  - assert (c ∈ kids F p) as Hc by (rewrite E; apply elem_of_app; right; by apply elem_of_cons; left).
    apply kids_present in Hc as (n & Hn & Hp); [|done]. exists (header_of F c n). split; [by apply concr_present|].
    cbn. rewrite Hp, E. apply next_of_split. pose proof (H.(fw_nodup _) p) as Hnd. rewrite E in Hnd.
    apply NoDup_app in Hnd as (_ & Hd & _). intros Hin. apply (Hd c Hin). by apply elem_of_cons; left.
  - apply (IH (l1 ++ [c])). by rewrite E, <- app_assoc.
Qed.

Lemma get_header_ptr a : get_header (PTR_FROM_HEADER a) = a.
Proof. unfold get_header, PTR_FROM_HEADER. lia. Qed.

(** ** Adopting *)

Section Adopt.

Context (F : forest) (H : fwf F) (new old : Z) (nn no : fnode).
Context (Hnew : F !! new = Some nn) (Hold : F !! old = Some no) (Hnu : ~ under F old new).

Lemma adopt_parent x n : F !! x = Some n -> x ∈ kids F old <-> fn_parent n = old.
Proof.
  intros Hx. split.
  - intros Hk. apply kids_present in Hk as (n' & Hn' & <-); [|done]. congruence.
  - intros <-. apply H.(fw_parent _); [done|]. by eapply present_nonzero.
Qed.

Lemma adopt_links x n :
  F !! x = Some n -> kids F old <> [] ->
  let p := if decide (x ∈ kids F old) then new else fn_parent n in
  next_of x (kids (f_adopt F new old) p) =
    (if decide (x = zlast (kids F old)) then zhd (kids F new) else next_of x (kids F (fn_parent n))) /\
  prev_of x (kids (f_adopt F new old) p) =
    (if decide (x = zhd (kids F new)) then zlast (kids F old) else prev_of x (kids F (fn_parent n))).
Proof.
  intros Hx Hlo p. pose proof (adopt_addrs F H new old Hnu) as Had. pose proof (adopt_ne F new old Hnu) as Hne.
  pose proof (present_nonzero F H x n Hx) as Hx0. subst p. rewrite (f_adopt_kids F new old nn no) by done.
  assert (x ∈ kids F old -> x ∉ kids F new) as Hd.
  { intros H1 H2. apply Hne. by eapply kids_once. }
  destruct (decide (x ∈ kids F old)) as [Hk|Hk].
  - rewrite decide_True by done. pose proof (proj1 (adopt_parent x n Hx) Hk) as ->. split.
    + rewrite next_of_app_l by done. by destruct (Z.eqb_spec x (zlast (kids F old))); case_decide.
    + rewrite prev_of_app_l, decide_False; [done| |by apply Hd].
      intros E. destruct (zhd_in (kids F new)) as [E0|Hin]; [congruence|]. rewrite <- E in Hin. by apply Hd.
  - assert (x <> zlast (kids F old)) as Hl by (intros E; rewrite E in Hk; by apply Hk, zlast_in).
    rewrite (decide_False (P := x = zlast _)) by done. destruct (decide (fn_parent n = new)) as [E|E].
    + rewrite E. assert (x ∈ kids F new) as Hn.
      { rewrite <- E. apply H.(fw_parent _); [done|]. rewrite E. by eapply present_nonzero. }
      split; [by apply next_of_app_r|]. rewrite prev_of_app_r by done.
      by destruct (Z.eqb_spec x (zhd (kids F new))); case_decide.
    + rewrite decide_False by (intros E'; by apply Hk, (adopt_parent x n)). split; [done|].
      rewrite decide_False; [done|]. intros E'. destruct (zhd_in (kids F new)) as [E0|Hin]; [congruence|].
      rewrite <- E' in Hin. apply kids_present in Hin as (n' & Hn' & <-); [|done]. congruence.
Qed.

Lemma adopt_nothing : kids F old = [] -> f_adopt F new old = F.
Proof.
  intros E. pose proof (adopt_ne F new old Hnu) as Hne. apply map_eq. intros x. rewrite (f_adopt_lookup F new old nn) by done.
  destruct (F !! x) as [n|] eqn:Ex; [|done]. cbn. f_equal. rewrite E, (decide_False (P := x ∈ [])) by apply not_elem_of_nil.
  destruct n as [np nk nd nt]. cbn. f_equal. case_decide; [done|]. case_decide; [|done]. subst x.
  unfold kids in E. by rewrite Ex in E.
Qed.

Lemma ralloc_adopt_concr :
  ralloc_adopt (concr F) (PTR_FROM_HEADER new) (PTR_FROM_HEADER old) = Some (concr (f_adopt F new old)).
Proof.
  pose proof (H.(fw_pos _) _ _ Hold) as Hpos. pose proof (adopt_ne F new old Hnu) as Hne.
  pose proof (present_nonzero F H _ _ Hnew) as Hn0. pose proof (present_nonzero F H _ _ Hold) as Ho0.
  unfold ralloc_adopt. rewrite (proj2 (Z.eqb_neq _ _)) by (unfold PTR_FROM_HEADER, sizeof_ralloc_header; lia).
  rewrite !get_header_ptr. rewrite (concr_present _ _ _ Hold). cbn [mbind option_bind rh_child header_of].
  assert (fn_children no = kids F old) as -> by (unfold kids; by rewrite Hold).
  pose proof (kids_addrs F H old) as Hao. pose proof (zhd_in (kids F new)) as Hzn.
  destruct (decide (kids F old = [])) as [E|Hlo]; [rewrite E, adopt_nothing by done; done|].
  assert (zhd (kids F old) =? 0 = false) as ->.
  { apply Z.eqb_neq. destruct (kids F old) as [|y l]; [done|]. cbn. by destruct Hao as [_ [? _]%not_elem_of_cons]. }
  rewrite adopt_children_chain; [|by apply concr_chain|done|done|].
  2: { apply blocks_le_size; [apply Hao|]. intros x Hx. apply kids_present in Hx as (n' & Hn' & _); [|done].
       rewrite (concr_present _ _ _ Hn'). by eexists. }
  cbn [mbind option_bind]. set (lo := kids F old) in *. set (ln := kids F new) in *.
  set (m1 := alter_all (set_rh_parent new) lo (concr F)).
  assert (forall x, m1 !! x = if decide (x ∈ lo) then set_rh_parent new <$> concr F !! x else concr F !! x) as Hm1
    by (intros; apply alter_all_lookup, Hao).
  assert (new ∉ lo) as Hnlo by (intros Hin; apply Hnu, rtc_once; done).
  assert (old ∉ lo) as Holo by (by apply kids_self).
  pose proof (zlast_in lo Hlo) as Hll.
  assert (zlast lo <> new /\ zlast lo <> old) as [Hzl1 Hzl2] by (split; intros E; by rewrite E in Hll).
  rewrite (Hm1 new), decide_False, (concr_present _ _ _ Hnew) by done. cbn [mbind option_bind rh_child header_of].
  assert (fn_children nn = ln) as -> by (unfold ln, kids; by rewrite Hnew).
  pose proof Hll as Hnl. apply kids_present in Hnl as (nl & Hnl & _); [|done].
  assert (m1 !! zlast lo = Some (set_rh_parent new (header_of F (zlast lo) nl))) as Hml
    by (rewrite Hm1, decide_True, (concr_present _ _ _ Hnl) by done; done).
  rewrite (rupd_alter _ _ _ _ Hml). cbn [mbind option_bind].
  rewrite lookup_alter_eq, Hml. cbn [mbind option_bind fmap option_fmap option_map].
  change (rh_next (set_rh_next (zhd ln) (set_rh_parent new (header_of F (zlast lo) nl)))) with (zhd ln).
  rewrite rupd_opt_alter.
  - cbn [mbind option_bind]. set (m3 := alter (set_rh_prev _) _ _).
    assert (exists o, m3 !! old = Some o /\ rh_child o = zhd lo) as (o & Ho & Hoc).
    { unfold m3. rewrite lookup_alter_case, lookup_alter_ne, Hm1, (decide_False (P := old ∈ lo)), (concr_present _ _ _ Hold) by done.
      assert (fn_children no = lo) as E by (unfold lo, kids; by rewrite Hold). unfold header_of. rewrite E.
      case_decide; eexists; split; done. }
    assert (exists o, m3 !! new = Some o) as (o' & Ho').
    { unfold m3. rewrite lookup_alter_case, lookup_alter_ne, Hm1, (decide_False (P := new ∈ lo)), (concr_present _ _ _ Hnew) by done.
      case_decide; eexists; done. }
    rewrite Ho. cbn [mbind option_bind]. rewrite Hoc, (rupd_alter _ _ _ _ Ho'). cbn [mbind option_bind].
    erewrite rupd_alter by (rewrite lookup_alter_ne by done; exact Ho).
    f_equal. apply map_eq. intros x. unfold m3.
    rewrite !lookup_alter_case, Hm1, !concr_lookup, (f_adopt_lookup F new old nn) by done.
    destruct (F !! x) as [n|] eqn:Ex; [|by repeat case_decide]. destruct (adopt_links x n Ex Hlo) as [Hnx Hpv].
    fold lo ln in Hnx, Hpv |- *. cbn. unfold header_of. cbn. rewrite Hnx, Hpv.
    assert (forall l, zhd (lo ++ l) = zhd lo) as Ezh by (by destruct lo).
    destruct (decide (x = old)), (decide (x = new)), (decide (x = zhd ln)), (decide (x = zlast lo)), (decide (x ∈ lo));
      cbn; rewrite ?Ezh; done || (exfalso; congruence).
  - apply lookup_alter_present. destruct Hzn as [->|Hin]; [by left|right]. rewrite Hm1.
    apply kids_present in Hin as (n' & Hn' & _); [|done]. rewrite (concr_present _ _ _ Hn'). case_decide; cbn; by eauto.
  - rewrite lookup_alter_ne by (intros E; rewrite E in Hll; by apply Hao). rewrite Hm1, concr_zero by done. by case_decide.
Qed.

End Adopt.

(** ** Moving *)

Lemma next_prev x y l : addrs l -> x ∈ l -> y <> 0 -> next_of x l = y -> prev_of y l = x.
Proof.
  intros [Hnd Hz] (l1 & l2 & ->)%list_elem_of_split Hy0 Hn.
  apply NoDup_app in Hnd as (_ & Hd & Hnd2). assert (x ∉ l1) as H1.
  { intros Hin. apply (Hd x Hin). by apply elem_of_cons; left. }
  rewrite next_of_split in Hn by done. destruct l2 as [|z l3]; [done|]. cbn in Hn. subst z.
  replace (l1 ++ x :: y :: l3) with ((l1 ++ [x]) ++ y :: l3) by (by rewrite <- app_assoc).
  apply NoDup_cons in Hnd2 as [_ [Hy _]%NoDup_cons]. rewrite prev_of_split by done.
  unfold zlast. by rewrite rev_app_distr.
Qed.

Lemma prev_next x y l : addrs l -> x ∈ l -> y <> 0 -> prev_of x l = y -> next_of y l = x.
Proof.
  intros Ha Hx Hy Hn. apply addrs_rev in Ha. rewrite <- elem_of_rev in Hx. unfold prev_of in Hn.
  pose proof (next_prev x y (rev l) Ha Hx Hy Hn) as E. unfold prev_of in E. by rewrite rev_involutive in E.
Qed.

Section Move.

Context (F : forest) (H : fwf F) (old info : Z) (n : fnode) (data : list Z).
Context (Hold : F !! old = Some n) (Hinfo : F !! info = None) (Hpos : 0 < info).

Local Notation r := (rename old info).
Local Notation moved x m := (FNode (r (fn_parent m)) (r <$> fn_children m) (fn_destructor m)
  (if decide (x = info) then data else fn_data m)).

Lemma rename_ne x : x <> old -> r x = x.
Proof. intros Hx. unfold rename. by destruct (Z.eqb_spec x old). Qed.

Lemma rename_old : r old = info.
Proof. unfold rename. by rewrite Z.eqb_refl. Qed.

Lemma move_ne : info <> old.
Proof. intros E. rewrite E in Hinfo. congruence. Qed.

Lemma move_old_zero : old <> 0.
Proof. by eapply present_nonzero. Qed.

Lemma rename_zero : r 0 = 0.
Proof. apply rename_ne, not_eq_sym, move_old_zero. Qed.

(** Where a block of the new forest was. *)
Definition unrename (x : Z) : Z := if x =? info then old else x.

Lemma unrename_info : unrename info = old.
Proof. unfold unrename. by rewrite Z.eqb_refl. Qed.

Lemma unrename_ne x : x <> info -> unrename x = x.
Proof. intros Hx. unfold unrename. by destruct (Z.eqb_spec x info). Qed.

Lemma rename_inj x y : F !! x <> None \/ x = 0 -> F !! y <> None \/ y = 0 -> r x = r y -> x = y.
Proof.
  intros Hx Hy. assert (x <> info /\ y <> info) as [Hxi Hyi].
  { split; intros ->; [destruct Hx|destruct Hy]; (congruence || lia). }
  unfold rename. destruct (Z.eqb_spec x old), (Z.eqb_spec y old); congruence.
Qed.

Lemma f_move_lookup x :
  f_move F old info data !! x = if decide (x = old) then None else (fun m => moved x m) <$> F !! unrename x.
Proof.
  pose proof move_ne as Hne. unfold f_move. rewrite Hold. destruct (decide (x = info)) as [->|Hx].
  - rewrite lookup_insert_eq, decide_False, unrename_info, Hold by done. done.
  - rewrite lookup_insert_ne, lookup_fmap, unrename_ne by done. destruct (decide (x = old)) as [->|Hxo].
    + by rewrite lookup_delete_eq.
    + by rewrite lookup_delete_ne by done.
Qed.

Lemma f_move_kids x :
  kids (f_move F old info data) x = if decide (x = old) then [] else r <$> kids F (unrename x).
Proof. unfold kids. rewrite f_move_lookup. case_decide; [done|]. by destruct (F !! unrename x). Qed.

(** A block and its siblings. *)
Lemma move_siblings x m :
  F !! x = Some m -> kids (f_move F old info data) (r (fn_parent m)) = r <$> kids F (fn_parent m) /\
    forall y, y ∈ kids F (fn_parent m) -> r y = r x -> y = x.
Proof.
  intros Hx. pose proof move_ne as Hne. split.
  - rewrite f_move_kids. destruct (decide (fn_parent m = old)) as [->|E].
    + by rewrite rename_old, decide_False, unrename_info.
    + rewrite rename_ne, decide_False by done. destruct (decide (fn_parent m = info)) as [E'|E']; [|by rewrite unrename_ne].
      exfalso. destruct (decide (fn_parent m = 0)); [lia|]. apply H.(fw_parent _) in Hx; [|done].
      apply kids_parent in Hx as [n' Hn']. congruence.
  - intros y Hy. apply rename_inj; left; [|congruence]. apply kids_present in Hy as (n' & Hn' & _); [congruence|done].
Qed.

(** The header of a block that is not moved, and of the one that is. *)
Lemma move_header x m :
  F !! x = Some m ->
  header_of (f_move F old info data) (r x) (moved (r x) m) =
    RallocHeader (r (fn_parent m)) (r (zhd (fn_children m))) (r (prev_of x (kids F (fn_parent m))))
      (r (next_of x (kids F (fn_parent m)))) (fn_destructor m) (if decide (r x = info) then data else fn_data m).
Proof.
  intros Hx. destruct (move_siblings x m Hx) as [Ek Hinj]. unfold header_of. cbn [fn_parent fn_children fn_destructor fn_data].
  rewrite Ek, next_of_map, prev_of_map by (done || apply rename_zero). f_equal.
  destruct (fn_children m); cbn; [by rewrite rename_zero|done].
Qed.

Lemma f_move_wf : fwf (f_move F old info data).
Proof.
  pose proof move_ne as Hne. pose proof move_old_zero as Ho0.
  assert (forall a c, c ∈ kids (f_move F old info data) a -> a <> old /\ c <> old /\ unrename c ∈ kids F (unrename a)) as Hk.
  { intros a c. rewrite f_move_kids. case_decide; [by intros ?%elem_of_nil|]. intros (y & -> & Hy)%list_elem_of_fmap.
    pose proof Hy as Hy'. apply kids_present in Hy' as (ny & Hny & _); [|done].
    assert (y <> info) as Hyi by congruence. split; [done|]. destruct (decide (y = old)) as [->|].
    - rewrite rename_old, unrename_info. done.
    - rewrite rename_ne, unrename_ne by done. done. }
  constructor.
  - rewrite f_move_lookup. case_decide; [done|]. rewrite unrename_ne by lia. by rewrite H.(fw_zero _).
  - intros x nx. rewrite f_move_lookup. case_decide; [done|]. intros (n' & Hn' & _)%fmap_Some.
    destruct (decide (x = info)) as [->|]; [done|]. rewrite unrename_ne in Hn' by done. by eapply H.
  - intros x. rewrite f_move_kids. case_decide; [constructor|]. apply NoDup_fmap_2_strong; [|apply H].
    intros y z Hy Hz. apply kids_present in Hy as (ny & Hny & _), Hz as (nz & Hnz & _); [|done..].
    apply rename_inj; left; congruence.
  - intros a c (Hao & Hco & Hc)%Hk. rewrite f_move_lookup, decide_False by done.
    apply H.(fw_child _), fmap_Some in Hc as (nc & Hnc & Ep). rewrite Hnc. cbn. f_equal.
    destruct (decide (a = info)) as [->|]; [rewrite <- Ep, unrename_info; apply rename_old|].
    rewrite <- Ep, unrename_ne, rename_ne by (rewrite ?unrename_ne; done). done.
  - intros c nc. rewrite f_move_lookup. case_decide as Eco; [done|]. intros (m & Hm & ->)%fmap_Some. cbn. intros Hp.
    assert (fn_parent m <> 0) as Hp0 by (intros E; rewrite E, rename_zero in Hp; done).
    destruct (move_siblings _ _ Hm) as [-> _]. apply H.(fw_parent _) in Hm as Hc; [|done].
    apply list_elem_of_fmap. exists (unrename c). split; [|done]. destruct (decide (c = info)) as [->|].
    + by rewrite unrename_info, rename_old.
    + by rewrite unrename_ne, rename_ne.
  - cut (forall x, Acc (child_rel F) x -> forall a, unrename a = x -> Acc (child_rel (f_move F old info data)) a).
    { intros Hc a. by apply (Hc (unrename a)); [apply H|]. }
    induction 1 as [x _ IH]. intros a <-. constructor. intros c (_ & _ & Hc)%Hk. by apply (IH (unrename c)).
Qed.

(** The blocks that point to the one that moved. *)
Lemma move_links x m :
  F !! x = Some m ->
  let l := kids F (fn_parent n) in
  (next_of x (kids F (fn_parent m)) = old <-> x = prev_of old l) /\
  (prev_of x (kids F (fn_parent m)) = old <-> x = next_of old l) /\
  (zhd (fn_children m) = old <-> x = fn_parent n /\ zhd l = old) /\
  (fn_parent m = old <-> x ∈ kids F old).
Proof.
  intros Hx l. pose proof move_old_zero as Ho0. pose proof (present_nonzero F H x m Hx) as Hx0.
  assert (x ∈ kids F (fn_parent m) \/ fn_parent m = 0) as Hxk.
  { destruct (decide (fn_parent m = 0)); [by right|left]. by apply H.(fw_parent _). }
  assert (old ∈ l \/ fn_parent n = 0) as Hok.
  { destruct (decide (fn_parent n = 0)); [by right|left]. by apply H.(fw_parent _). }
  assert (forall y, y ∈ l -> exists m', F !! y = Some m' /\ fn_parent m' = fn_parent n) as Hl by (by apply kids_present).
  split_and!.
  - split.
    + intros E. destruct Hxk as [Hxk|E0]; [|rewrite E0, kids_zero in E by done; cbn in E; congruence].
      destruct (next_of_in x (kids F (fn_parent m))) as [|Hin]; [congruence|]. rewrite E in Hin.
      pose proof (kids_present F H _ _ Hin) as (m' & Hm' & Ep). assert (m' = n) as -> by congruence.
      symmetry. unfold l. rewrite Ep. apply next_prev; [by apply kids_addrs|done|done|done].
    + intros E. destruct Hok as [Hok|E0]; [|unfold l in E; rewrite E0, kids_zero in E by done; cbn in E; congruence].
      assert (next_of x l = old) as En by (apply prev_next; [by apply kids_addrs|done|done|done]).
      assert (x ∈ l) as Hxl.
      { destruct (decide (x ∈ l)); [done|]. rewrite next_of_notin in En by done. congruence. }
      apply Hl in Hxl as (m' & Hm' & Ep). assert (m' = m) as -> by congruence. rewrite Ep. done.
  - split.
    + intros E. destruct Hxk as [Hxk|E0]; [|rewrite E0, kids_zero in E by done; cbn in E; congruence].
      destruct (next_of_in x (rev (kids F (fn_parent m)))) as [E0|Hin]; [unfold prev_of in E; congruence|].
      unfold prev_of in E. rewrite E, elem_of_rev in Hin. fold (prev_of x (kids F (fn_parent m))) in E.
      pose proof (kids_present F H _ _ Hin) as (m' & Hm' & Ep). assert (m' = n) as -> by congruence.
      symmetry. unfold l. rewrite Ep. apply prev_next; [by apply kids_addrs|done|done|done].
    + intros E. destruct Hok as [Hok|E0]; [|unfold l in E; rewrite E0, kids_zero in E by done; cbn in E; congruence].
      assert (prev_of x l = old) as En by (apply next_prev; [by apply kids_addrs|done|done|done]).
      assert (x ∈ l) as Hxl.
      { destruct (decide (x ∈ l)); [done|]. rewrite prev_of_notin in En by done. congruence. }
      apply Hl in Hxl as (m' & Hm' & Ep). assert (m' = m) as -> by congruence. rewrite Ep. done.
  - assert (fn_children m = kids F x) as Ec by (unfold kids; by rewrite Hx). rewrite Ec. split.
    + intros E. destruct (zhd_in (kids F x)) as [|Hin]; [congruence|]. rewrite E in Hin.
      apply kids_present in Hin as (m' & Hm' & Ep); [|done]. assert (m' = n) as -> by congruence.
      split; [done|]. unfold l. by rewrite Ep.
    + intros [-> E]. done.
  - split.
    + intros E. rewrite <- E. apply H.(fw_parent _); congruence.
    + intros Hk. apply kids_present in Hk as (m' & Hm' & <-); [|done]. congruence.
Qed.

Local Notation p := (fn_parent n).
Local Notation pv := (prev_of old (kids F (fn_parent n))).
Local Notation nx := (next_of old (kids F (fn_parent n))).
Local Notation m0 := (<[info := set_rh_data data (header_of F old n)]> (delete old (concr F))).

(** The parent of the block points to its new place. *)
Definition fix_child (h : ralloc_header) : ralloc_header := if rh_child h =? old then set_rh_child info h else h.

Local Notation m1 := (alter (set_rh_prev info) nx (alter (set_rh_next info) pv (alter fix_child p m0))).

Lemma move_neighbours y :
  y = p \/ y = pv \/ y = nx -> y <> old /\ y <> info /\ (y = 0 \/ exists h, m0 !! y = Some h).
Proof.
  intros Hy. pose proof move_old_zero as Ho0.
  assert (y <> old /\ (y = 0 \/ exists my, F !! y = Some my)) as [Hyo Hyp].
  { destruct Hy as [->|Hy].
    - split; [by apply (parent_not_self F H)|]. destruct (decide (p = 0)) as [|E]; [by left|right].
      apply H.(fw_parent _) in Hold as Hk; [|done]. by apply kids_parent in Hk.
    - destruct (unlink_neighbour F H old n Hold y Hy) as [? [?|Hk]]; (split; [done|]); [by left|right].
      apply kids_present in Hk as (my & Hmy & _); [by eauto|done]. }
  split; [done|]. split.
  - intros ->. destruct Hyp as [|[my Hmy]]; [lia|congruence].
  - destruct Hyp as [|[my Hmy]]; [by left|right]. rewrite lookup_insert_ne, lookup_delete_ne by congruence.
    rewrite (concr_present _ _ _ Hmy). by eauto.
Qed.

Lemma relink_concr : relink m0 old info = Some m1.
Proof.
  pose proof move_ne as Hne. assert (m0 !! 0 = None) as H0.
  { rewrite lookup_insert_ne, lookup_delete_ne by (lia || apply move_old_zero). by apply concr_zero. }
  destruct (move_neighbours p (or_introl eq_refl)) as (Hp1 & Hp2 & Hp3).
  destruct (move_neighbours pv (or_intror (or_introl eq_refl))) as (Hv1 & Hv2 & Hv3).
  destruct (move_neighbours nx (or_intror (or_intror eq_refl))) as (Hx1 & Hx2 & Hx3).
  unfold relink. rewrite lookup_insert_eq. cbn [mbind option_bind]. rewrite (proj2 (Z.eqb_neq info old)) by done.
  change (rh_parent (set_rh_data data (header_of F old n))) with p. cbn [orb].
  assert (alter fix_child p m0 !! 0 = None) as Hz by (rewrite lookup_alter_case, H0; by case_decide).
  destruct (Z.eqb_spec p 0) as [E0|E0].
  - assert (pv = 0 /\ nx = 0) as [-> ->] by (by rewrite E0, kids_zero).
    rewrite (alter_absent fix_child p) by (by rewrite E0).
    by rewrite (alter_absent (set_rh_next info) 0), (alter_absent (set_rh_prev info) 0).
  - destruct Hp3 as [|[hp Hhp]]; [done|]. rewrite Hhp. cbn [mbind option_bind].
    assert ((if rh_child hp =? old then rupd m0 p (set_rh_child info) else Some m0) = Some (alter fix_child p m0)) as ->.
    { destruct (rh_child hp =? old) eqn:Ec; [rewrite (rupd_alter _ _ _ _ Hhp)|]; f_equal; apply map_eq; intros x;
        rewrite !lookup_alter_case; (case_decide; [subst x|done]); rewrite Hhp; cbn; unfold fix_child; by rewrite Ec. }
    cbn [mbind option_bind]. rewrite lookup_alter_ne, lookup_insert_eq by done. cbn [mbind option_bind].
    change (rh_prev (set_rh_data data (header_of F old n))) with pv.
    rewrite rupd_opt_alter; [|by apply lookup_alter_present|done]. cbn [mbind option_bind].
    rewrite !lookup_alter_ne, lookup_insert_eq by done. cbn [mbind option_bind].
    change (rh_next (set_rh_data data (header_of F old n))) with nx.
    rewrite rupd_opt_alter; [done|by apply lookup_alter_present, lookup_alter_present|].
    rewrite lookup_alter_case, Hz. by case_decide.
Qed.

Lemma move_chain : chain_in m1 (kids F old).
Proof.
  apply (chain_in_ext (concr F)); [by apply concr_chain|]. intros x h Hx Hh.
  pose proof Hx as Hx'. apply kids_present in Hx' as (m & Hm & Ep); [|done].
  assert (x <> old) by (intros ->; by apply kids_self in Hx).
  assert (x <> pv) as Hpv.
  { intros E. destruct (unlink_neighbour F H old n Hold x (or_introl E)) as [_ [E0|Hk]].
    - by apply (present_nonzero F H x m).
    - apply (parent_not_self F H old n Hold). symmetry. by eapply kids_once. }
  rewrite !lookup_alter_case, lookup_insert_ne, lookup_delete_ne, Hh, (decide_False (P := x = pv)) by congruence.
  unfold fix_child. repeat case_decide; cbn; eexists; (split; [done|]); by destruct (rh_child h =? old).
Qed.

Lemma resize_concr realloc sz :
  realloc old (fn_data n) (u64 (sz + sizeof_ralloc_header)) = Some (info, data) ->
  sizeof_ralloc_header <= u64 (sz + sizeof_ralloc_header) ->
  resize realloc (concr F) (PTR_FROM_HEADER old) sz = Some (concr (f_move F old info data), PTR_FROM_HEADER info).
Proof.
  intros Hre Hsz. pose proof move_ne as Hne. pose proof move_old_zero as Ho0.
  destruct (move_neighbours p (or_introl eq_refl)) as (Hp1 & Hp2 & Hp3).
  destruct (move_neighbours pv (or_intror (or_introl eq_refl))) as (Hv1 & Hv2 & Hv3).
  destruct (move_neighbours nx (or_intror (or_intror eq_refl))) as (Hx1 & Hx2 & Hx3).
  unfold resize. rewrite get_header_ptr, (concr_present _ _ _ Hold). cbn [mbind option_bind].
  change (rh_data (header_of F old n)) with (fn_data n). rewrite Hre.
  rewrite (proj2 (Z.ltb_ge _ _)) by done. rewrite relink_concr. cbn [mbind option_bind].
  assert (m1 !! info = Some (set_rh_data data (header_of F old n))) as Hi
    by (rewrite !lookup_alter_ne, lookup_insert_eq by done; done).
  rewrite Hi. cbn [mbind option_bind]. change (rh_child (set_rh_data data (header_of F old n))) with (zhd (fn_children n)).
  assert (fn_children n = kids F old) as -> by (unfold kids; by rewrite Hold).
  rewrite set_parents_chain; [|apply move_chain|by apply kids_addrs|].
  2: { apply Nat.lt_succ_r, blocks_le_size; [by apply kids_addrs|]. intros x Hx.
       pose proof Hx as Hx'. apply kids_present in Hx' as (m & Hm & _); [|done].
       assert (x <> old) by (intros ->; by apply kids_self in Hx).
       rewrite !lookup_alter_case, lookup_insert_ne, lookup_delete_ne, (concr_present _ _ _ Hm) by congruence.
       repeat case_decide; by eexists. }
  cbn [mbind option_bind]. do 2 f_equal. apply map_eq. intros x.
  rewrite alter_all_lookup by (by apply kids_addrs). rewrite concr_lookup, f_move_lookup.
  destruct (decide (x = old)) as [->|Hxo].
  { rewrite decide_False by (by apply kids_self). rewrite !lookup_alter_ne, lookup_insert_ne by done. by rewrite lookup_delete_eq. }
  destruct (decide (x = info)) as [->|Hxi].
  - rewrite decide_False. 2: { intros Hk. apply kids_present in Hk as (m & Hm & _); [congruence|done]. }
    rewrite Hi, unrename_info, Hold. cbn. f_equal. pose proof (move_header old n Hold) as Hh. rewrite rename_old, decide_True in Hh by done.
    rewrite Hh. unfold set_rh_data, header_of. cbn. rewrite !rename_ne; try done.
    assert (fn_children n = kids F old) as -> by (unfold kids; by rewrite Hold).
    destruct (zhd_in (kids F old)) as [->|Hk]; [congruence|]. intros E. rewrite E in Hk. by apply kids_self in Hk.
  - rewrite unrename_ne, !lookup_alter_case, lookup_insert_ne, lookup_delete_ne, concr_lookup by done.
    destruct (F !! x) as [m|] eqn:Ex; [|by repeat case_decide].
    pose proof (move_header x m Ex) as Hh. rewrite (rename_ne x), decide_False in Hh by done.
    destruct (move_links x m Ex) as (L1 & L2 & L3 & L4). cbn zeta in L1, L2, L3.
    assert (r (next_of x (kids F (fn_parent m))) = if decide (x = pv) then info else next_of x (kids F (fn_parent m))) as En
      by (destruct (decide (x = pv)) as [e|e]; [rewrite (proj2 L1 e); apply rename_old|apply rename_ne; tauto]).
    assert (r (prev_of x (kids F (fn_parent m))) = if decide (x = nx) then info else prev_of x (kids F (fn_parent m))) as Ev
      by (destruct (decide (x = nx)) as [e|e]; [rewrite (proj2 L2 e); apply rename_old|apply rename_ne; tauto]).
    assert (r (fn_parent m) = if decide (x ∈ kids F old) then info else fn_parent m) as Ep
      by (destruct (decide (x ∈ kids F old)) as [e|e]; [rewrite (proj2 L4 e); apply rename_old|apply rename_ne; tauto]).
    assert ((if decide (x = p) then Some (fix_child (header_of F x m)) else Some (header_of F x m)) =
      Some (set_rh_child (r (zhd (fn_children m))) (header_of F x m))) as Ec.
    { unfold fix_child, rename. cbn. destruct (Z.eqb_spec (zhd (fn_children m)) old) as [E|E].
      - rewrite decide_True by apply (proj1 L3 E). done.
      - by destruct (decide (x = p)). }
    cbn. rewrite Ec, Hh, En, Ev, Ep. unfold header_of. by repeat case_decide.
Qed.

End Move.
