(* ===== verification/RallocFree.v ===== *)
(** * Freeing

    Freeing a block deletes exactly the blocks below it, children first. *)
From stdpp Require Import gmap relations.
From S2P Require Import Prelude Bytes Ralloc RallocForest RallocCorrect RallocMove.

(** ** The blocks below a block *)

(** The blocks below [a], children before parents. *)
Inductive post (F : forest) : Z -> list Z -> Prop :=
| post_node a ls : Forall2 (post F) (kids F a) ls -> post F a (concat ls ++ [a]).

(** The same, computed. *)
Fixpoint f_below (fuel : nat) (F : forest) (a : Z) : option (list Z) :=
  match fuel with
  | O => None
  | S fuel => ls ← mapM (f_below fuel F) (kids F a); Some (concat ls ++ [a])
  end.

Lemma elem_of_concat (x : Z) ls : x ∈ concat ls <-> exists i l, ls !! i = Some l /\ x ∈ l.
Proof.
  induction ls as [|l ls IH]; cbn.
  - rewrite elem_of_nil. split; [done|]. intros (i & l & Hl & _). by rewrite lookup_nil in Hl.
  - rewrite elem_of_app, IH. split.
    + intros [Hx|(i & k & Hi & Hx)]; [by exists 0%nat, l|by exists (S i), k].
    + intros ([|i] & k & Hi & Hx); [left; by injection Hi as ->|right; by exists i, k].
Qed.

Section Below.

Context (F : forest) (H : fwf F).

Lemma post_exists a : exists l, post F a l.
Proof.
  induction (H.(fw_acyclic _) a) as [a _ IH].
  assert (forall ks, (forall k, k ∈ ks -> exists l, post F k l) -> exists ls, Forall2 (post F) ks ls) as Hks.
  { induction ks as [|k ks IHk]; intros Hk; [by exists []; constructor|].
    destruct (Hk k) as [l Hl]; [by apply elem_of_cons; left|].
    destruct IHk as [ls Hls]; [intros; apply Hk; by apply elem_of_cons; right|]. exists (l :: ls). by constructor. }
  destruct (Hks (kids F a)) as [ls Hls]; [exact IH|]. exists (concat ls ++ [a]). by constructor.
Qed.

Lemma post_elem a : forall l, post F a l -> forall x, x ∈ l <-> under F a x.
Proof.
  induction (H.(fw_acyclic _) a) as [a _ IH]. intros l Hl x. inversion Hl as [a' ls Hls]. subst.
  rewrite elem_of_app, list_elem_of_singleton, elem_of_concat. split.
  - intros [(i & lk & Hi & Hx)| ->]; [|apply rtc_refl].
    destruct (Forall2_lookup_r _ _ _ _ _ Hls Hi) as (k & Hk & Hp). apply list_elem_of_lookup_2 in Hk.
    eapply rtc_r; [|exact Hk]. by apply (IH k Hk lk).
  - intros Hu. unfold under in Hu. apply rtc_inv_r in Hu as [->|(k & Hu & Hk)]; [by right|left].
    apply list_elem_of_lookup_1 in Hk as Hi. destruct Hi as [i Hi].
    destruct (Forall2_lookup_l _ _ _ _ _ Hls Hi) as (lk & Hlk & Hp). exists i, lk.
    split; [done|]. by apply (IH k Hk lk).
Qed.

Lemma below_irrefl a : forall k, child_rel F k a -> rtc (child_rel F) a k -> False.
Proof.
  induction (H.(fw_acyclic _) a) as [a _ IH]. intros k Hk Hu.
  destruct (rtc_inv_r _ _ Hu) as [->|(z & Hz & Hzk)]; [by apply (kids_self F H k)|].
  apply (IH k Hk z Hzk). by eapply rtc_l.
Qed.

Lemma parent_unique x y z : child_rel F x y -> child_rel F x z -> y = z.
Proof. by apply kids_once. Qed.

Lemma rtc_linear x y z : rtc (child_rel F) x y -> rtc (child_rel F) x z -> rtc (child_rel F) y z \/ rtc (child_rel F) z y.
Proof.
  intros Hy. revert z. induction Hy as [x|x x' y Hx Hy IH]; intros z Hz; [by left|].
  destruct (rtc_inv _ _ Hz) as [<-|(x2 & Hx2 & Hz2)]; [right; by eapply rtc_l|].
  assert (x2 = x') as -> by (by eapply parent_unique). by apply IH.
Qed.

Lemma siblings_apart a k1 k2 x :
  k1 ∈ kids F a -> k2 ∈ kids F a -> under F k1 x -> under F k2 x -> k1 = k2.
Proof.
  assert (forall k1 k2, k1 ∈ kids F a -> k2 ∈ kids F a -> rtc (child_rel F) k1 k2 -> k1 = k2) as Hw.
  { intros c1 c2 H1 H2 Hr. destruct (rtc_inv _ _ Hr) as [|(b & Hb & Hr2)]; [done|exfalso].
    assert (b = a) as -> by (by eapply parent_unique). exact (below_irrefl a c2 H2 Hr2). }
  intros H1 H2 U1 U2. destruct (rtc_linear x k1 k2 U1 U2); [by apply Hw|symmetry; by apply Hw].
Qed.

Lemma post_NoDup a : forall l, post F a l -> NoDup l.
Proof.
  induction (H.(fw_acyclic _) a) as [a _ IH]. intros l Hl. inversion Hl as [a' ls Hls]. subst.
  apply NoDup_app. split_and!.
  - assert (forall ks, Forall2 (post F) ks ls -> (forall k, k ∈ ks -> k ∈ kids F a) -> NoDup ks -> NoDup (concat ls)) as Hc.
    { clear Hl Hls. induction ls as [|lk ls IHl]; intros ks Hls Hk Hnd; [constructor|]. cbn.
      apply Forall2_cons_inv_r in Hls as (k & ks' & Hp & Hls & ->). apply NoDup_cons in Hnd as [Hkn Hnd].
      assert (k ∈ kids F a) as Hka by (apply Hk; by apply elem_of_cons; left).
      apply NoDup_app. split_and!; [by apply (IH k Hka)| |].
      - intros x Hx Hxc. apply elem_of_concat in Hxc as (i & l2 & Hi & Hx2).
        destruct (Forall2_lookup_r _ _ _ _ _ Hls Hi) as (k2 & Hk2 & Hp2). apply list_elem_of_lookup_2 in Hk2.
        assert (k = k2) as <-; [|done]. apply (siblings_apart a k k2 x); [done|apply Hk; by apply elem_of_cons; right| |].
        { by apply (post_elem k lk). } by apply (post_elem k2 l2).
      - apply (IHl ks'); [done| |done]. intros; apply Hk. by apply elem_of_cons; right. }
    apply (Hc (kids F a)); [done|done|apply H].
  - intros x Hx ->%list_elem_of_singleton. apply elem_of_concat in Hx as (i & lk & Hi & Hx).
    destruct (Forall2_lookup_r _ _ _ _ _ Hls Hi) as (k & Hk & Hp). apply list_elem_of_lookup_2 in Hk.
    apply (below_irrefl a k Hk). by apply (post_elem k lk).
  - apply NoDup_singleton.
Qed.

End Below.

(** ** Deleting *)

Definition delete_all {A} (l : list Z) (m : gmap Z A) : gmap Z A := foldl (fun m x => delete x m) m l.

Lemma delete_all_lookup {A} l : forall (m : gmap Z A) x,
  delete_all l m !! x = if decide (x ∈ l) then None else m !! x.
Proof.
  induction l as [|c l IH]; intros m x; [done|]. cbn [delete_all foldl]. fold (delete_all l (delete c m)).
  rewrite IH. destruct (decide (x = c)) as [->|Hx].
  - rewrite (decide_True (P := c ∈ c :: l)) by (by apply elem_of_cons; left). rewrite lookup_delete_eq. by case_decide.
  - rewrite lookup_delete_ne by done. destruct (decide (x ∈ l)) as [Hl|Hl].
    + by rewrite decide_True by (by apply elem_of_cons; right).
    + rewrite decide_False; [done|]. by intros [|]%elem_of_cons.
Qed.

(** The destructors of the blocks in a list. *)
Definition destructor_calls (F : forest) (l : list Z) : list (Z * Z) :=
  concat ((fun x => match F !! x with
                    | Some n => if fn_destructor n =? 0 then [] else [(fn_destructor n, PTR_FROM_HEADER x)]
                    | None => []
                    end) <$> l).

Lemma destructor_calls_app F l1 l2 : destructor_calls F (l1 ++ l2) = destructor_calls F l1 ++ destructor_calls F l2.
Proof. unfold destructor_calls. by rewrite fmap_app, concat_app. Qed.

(** A block in memory has the first child and the destructor that the forest says. *)
Definition same_block (F : forest) (m : rheap) (x : Z) : Prop :=
  exists n h, F !! x = Some n /\ m !! x = Some h /\ rh_child h = zhd (kids F x) /\ rh_destructor h = fn_destructor n.

(** The [next] members of all blocks below but [a]. *)
Definition same_next (F : forest) (m : rheap) (x : Z) : Prop :=
  forall a, x ∈ kids F a -> rh_next <$> m !! x = Some (next_of x (kids F a)).

Section Free.

Context (F : forest) (H : fwf F).

(** The children that are left, then the block. *)
Lemma free_children a n ks : forall ls m fuel,
  (forall k l m fuel, k ∈ ks -> post F k l -> (forall x, x ∈ l -> same_block F m x /\ same_next F m x) ->
    (2 * length l <= fuel + 1)%nat -> unsafe_free fuel m k = Some (delete_all l m, destructor_calls F l)) ->
  F !! a = Some n -> (exists l0, kids F a = l0 ++ ks) -> Forall2 (post F) ks ls -> NoDup (concat ls ++ [a]) ->
  (exists h, m !! a = Some h /\ rh_child h = zhd ks /\ rh_destructor h = fn_destructor n) ->
  (forall x, x ∈ concat ls -> same_block F m x /\ same_next F m x) ->
  (2 * length (concat ls) < fuel)%nat ->
  unsafe_free fuel m a = Some (delete_all (concat ls ++ [a]) m, destructor_calls F (concat ls ++ [a])).
Proof.
  induction ks as [|k ks IH]; intros ls m fuel IHk Ha [l0 El] Hls Hnd (h & Hh & Hc & Hd) Hok Hf;
    (destruct fuel as [|fuel]; [lia|]); cbn [unsafe_free]; rewrite Hh; cbn [mbind option_bind]; rewrite Hc.
  - apply Forall2_nil_inv_l in Hls as ->. cbn. unfold destructor_calls. cbn. rewrite Ha, Hd.
    by destruct (fn_destructor n =? 0).
  - apply Forall2_cons_inv_l in Hls as (lk & ls' & Hk & Hls & ->). cbn [concat] in *.
    assert (k ∈ kids F a) as Hka by (rewrite El; apply elem_of_app; right; by apply elem_of_cons; left).
    assert (k ∈ lk) as Hklk by (apply (post_elem F H k lk Hk); apply rtc_refl).
    assert (zhd (k :: ks) =? 0 = false) as -> by (apply Z.eqb_neq; cbn; by apply kids_present in Hka as (nk & Hnk & _); [eapply present_nonzero|]).
    destruct (Hok k) as [_ Hkn]; [apply elem_of_app; by left|]. specialize (Hkn a Hka).
    apply fmap_Some in Hkn as (hk & Hhk & Ekn). cbn [zhd hd]. rewrite Hhk. cbn [mbind option_bind].
    rewrite (rupd_alter _ _ _ _ Hh). cbn [mbind option_bind].
    assert (rh_next hk = zhd ks) as ->.
    { rewrite <- Ekn, El. apply next_of_split. pose proof (H.(fw_nodup _) a) as Hn. rewrite El in Hn.
      apply NoDup_app in Hn as (_ & Hn & _). intros Hin. apply (Hn k Hin). by apply elem_of_cons; left. }
    rewrite <- app_assoc in Hnd. apply NoDup_app in Hnd as (Hnk & Hdis & Hnd).
    assert (forall x, x ∈ lk ++ concat ls' -> x <> a) as Hxa.
    { intros x Hx ->. apply elem_of_app in Hx as [Hx|Hx].
      - apply (Hdis a Hx). apply elem_of_app. right. by apply list_elem_of_singleton.
      - apply NoDup_app in Hnd as (_ & Hd' & _). apply (Hd' a Hx). by apply list_elem_of_singleton. }
    set (m' := alter (set_rh_child (zhd ks)) a m).
    assert (forall x, x <> a -> m' !! x = m !! x) as Hm' by (intros; by apply lookup_alter_ne).
    rewrite length_app in Hf.
    rewrite (IHk k lk m' fuel); [|by apply elem_of_cons; left|done| |lia].
    2: { intros x Hx. unfold same_block, same_next. rewrite Hm' by (apply Hxa, elem_of_app; by left).
         apply Hok, elem_of_app. by left. }
    cbn [mbind option_bind].
    rewrite (IH ls' (delete_all lk m') fuel).
    + cbn [mbind option_bind]. rewrite <- app_assoc, (destructor_calls_app F lk). do 2 f_equal. apply map_eq. intros x.
      rewrite !delete_all_lookup. pose proof (elem_of_app lk (concat ls' ++ [a]) x) as He.
      destruct (decide (x ∈ concat ls' ++ [a])) as [H1|H1], (decide (x ∈ lk)) as [H2|H2],
        (decide (x ∈ lk ++ concat ls' ++ [a])) as [H3|H3]; try done; try tauto.
      apply Hm'. intros ->. apply H1, elem_of_app. right. by apply list_elem_of_singleton.
    + intros k' l m2 f Hk'. apply IHk. by apply elem_of_cons; right.
    + done.
    + exists (l0 ++ [k]). by rewrite <- app_assoc.
    + done.
    + done.
    + exists (set_rh_child (zhd ks) h). split; [|done]. rewrite delete_all_lookup, decide_False.
      * unfold m'. by rewrite lookup_alter_eq, Hh.
      * intros Hin. by apply (Hxa a); [apply elem_of_app; left|].
    + intros x Hx. assert (x ∉ lk) as Hxl.
      { intros Hin. apply (Hdis x Hin). apply elem_of_app. by left. }
      unfold same_block, same_next. rewrite delete_all_lookup, decide_False, Hm' by (done || apply Hxa, elem_of_app; by right).
      apply Hok, elem_of_app. by right.
    + destruct lk; [by apply elem_of_nil in Hklk|]. cbn in Hf. lia.
Qed.

Lemma unsafe_free_post a : forall l m fuel,
  post F a l -> (forall x, x ∈ l -> same_block F m x /\ same_next F m x) -> (2 * length l <= fuel + 1)%nat ->
  unsafe_free fuel m a = Some (delete_all l m, destructor_calls F l).
Proof.
  induction (H.(fw_acyclic _) a) as [a _ IH]. intros l m fuel Hl Hok Hf.
  pose proof (post_NoDup F H a l Hl) as Hnd. inversion Hl as [a' ls Hls]. subst.
  destruct (Hok a) as [(n & h & Hn & Hh & Hc & Hd) _]; [apply elem_of_app; right; by apply list_elem_of_singleton|].
  rewrite length_app in Hf. cbn in Hf. apply (free_children a n (kids F a)); try done.
  - intros k lk m' f Hk. by apply (IH k Hk).
  - by exists [].
  - by exists h.
  - intros x Hx. apply Hok, elem_of_app. by left.
  - lia.
Qed.

End Free.

(** Makes [a] a root, then deletes it and everything below; the destructors that are called. *)
Definition f_free (F : forest) (a : Z) : option (forest * list (Z * Z)) :=
  let F := f_unlink F a in
  l ← f_below (size F) F a; Some (delete_all l F, destructor_calls F l).

Lemma f_below_post F a l fuel : fwf F -> post F a l -> (length l <= fuel)%nat -> f_below fuel F a = Some l.
Proof.
  intros H. revert l fuel. induction (H.(fw_acyclic _) a) as [a _ IH]. intros l fuel Hl Hf.
  inversion Hl as [a' ls Hls]. subst. rewrite length_app in Hf. cbn in Hf. destruct fuel as [|fuel]; [lia|]. cbn.
  rewrite (proj2 (mapM_Some _ _ ls)); [done|].
  assert (length (concat ls) <= fuel)%nat as Hc by lia. clear Hf Hl. revert Hls Hc.
  assert (forall k, k ∈ kids F a -> k ∈ kids F a) as Hk by done. revert Hk. generalize (kids F a) at 1 3 4 as ks.
  induction ls as [|lk ls IHl]; intros ks Hk Hls Hc.
  - apply Forall2_nil_inv_r in Hls as ->. constructor.
  - apply Forall2_cons_inv_r in Hls as (k & ks' & Hp & Hls & ->). cbn in Hc. rewrite length_app in Hc. constructor.
    + apply (IH k); [apply Hk; by apply elem_of_cons; left|done|lia].
    + apply IHl; [|done|lia]. intros x Hx. apply Hk. by apply elem_of_cons; right.
Qed.

Section Delete.

Context (F : forest) (H : fwf F) (a : Z) (n : fnode) (Ha : F !! a = Some n) (Hroot : fn_parent n = 0).
Context (l : list Z) (Hl : post F a l).

Lemma below_present x : x ∈ l -> is_Some (F !! x).
Proof.
  rewrite (post_elem F H a l Hl). intros Hu. destruct (rtc_inv _ _ Hu) as [->|(y & Hy & _)]; [by eexists|].
  apply kids_present in Hy as (m & Hm & _); [by eexists|done].
Qed.

Lemma below_length : (length l <= size F)%nat.
Proof. apply blocks_le_size; [by eapply post_NoDup|apply below_present]. Qed.

(** A block is deleted exactly if its parent is. *)
Lemma below_parent x y : x ∈ kids F y -> x ∈ l <-> y ∈ l.
Proof.
  intros Hx. rewrite !(post_elem F H a l Hl). split.
  - intros Hu. destruct (rtc_inv _ _ Hu) as [->|(z & Hz & Hu')].
    + exfalso. by apply (root_not_kid F H a n Ha Hroot) in Hx.
    + by rewrite (parent_unique F H x y z Hx Hz).
  - intros Hu. by eapply rtc_l.
Qed.

Lemma delete_kids x : kids (delete_all l F) x = if decide (x ∈ l) then [] else kids F x.
Proof. unfold kids. rewrite delete_all_lookup. by case_decide. Qed.

Lemma delete_concr : delete_all l (concr F) = concr (delete_all l F).
Proof.
  apply map_eq. intros x. rewrite concr_lookup, !delete_all_lookup, concr_lookup.
  destruct (decide (x ∈ l)) as [|Hx]; [done|]. destruct (F !! x) as [m|] eqn:Em; [|done]. cbn. f_equal.
  unfold header_of. rewrite delete_kids. destruct (decide (fn_parent m ∈ l)) as [Hp|]; [|done]. exfalso. apply Hx.
  destruct (decide (fn_parent m = 0)) as [E|E].
  - rewrite E in Hp. apply below_present in Hp as [? E']. by rewrite H.(fw_zero _) in E'.
  - by apply (below_parent x (fn_parent m)); [apply H.(fw_parent _)|].
Qed.

Lemma delete_wf : fwf (delete_all l F).
Proof.
  constructor.
  - rewrite delete_all_lookup, H.(fw_zero _). by case_decide.
  - intros x m. rewrite delete_all_lookup. case_decide; [done|]. apply H.
  - intros x. rewrite delete_kids. case_decide; [constructor|apply H].
  - intros x c. rewrite delete_kids. case_decide as E; [by intros ?%elem_of_nil|]. intros Hc.
    rewrite delete_all_lookup, decide_False by (by rewrite (below_parent c x)). by apply H.
  - intros c m. rewrite delete_all_lookup, delete_kids. case_decide as E; [done|]. intros Hm Hp.
    apply H.(fw_parent _) in Hm; [|done]. by rewrite decide_False by (by rewrite <- (below_parent c)).
  - apply (acyclic_mono (child_rel F)); [apply H|]. intros c x. unfold child_rel. rewrite delete_kids.
    case_decide; [by intros ?%elem_of_nil|done].
Qed.

End Delete.

(** [ralloc_free] deletes the blocks below and calls their destructors. *)
Lemma ralloc_free_concr F a n :
  fwf F -> F !! a = Some n ->
  exists F' calls, f_free F a = Some (F', calls) /\ fwf F' /\
    ralloc_free (concr F) (PTR_FROM_HEADER a) = Some (concr F', calls).
Proof.
  intros H Ha. pose proof (f_unlink_wf F H a n Ha) as H1. set (F1 := f_unlink F a) in *.
  assert (F1 !! a = Some (set_fn_parent 0 n)) as Ha1 by (unfold F1; rewrite (f_unlink_lookup F H a n Ha), decide_True; done).
  destruct (post_exists F1 H1 a) as [l Hl].
  pose proof (below_length F1 H1 a _ Ha1 l Hl) as Hlen.
  exists (delete_all l F1), (destructor_calls F1 l). split; [|split].
  - unfold f_free. fold F1. by rewrite (f_below_post F1 a l).
  - by eapply delete_wf.
  - unfold ralloc_free. pose proof (H.(fw_pos _) a n Ha).
    rewrite (proj2 (Z.eqb_neq _ _)) by (unfold PTR_FROM_HEADER, sizeof_ralloc_header; lia).
    rewrite get_header_ptr, (unlink_block_concr F H a n Ha). cbn [mbind option_bind]. fold F1.
    rewrite (unsafe_free_post F1 H1 a l); [by rewrite (delete_concr F1 H1 a _ Ha1)|done| |].
    + intros x Hx. destruct (below_present F1 H1 a _ Ha1 l Hl x Hx) as [m Hm]. split.
      * exists m, (header_of F1 x m). split_and!; [done|by apply concr_present| |done]. unfold kids. by rewrite Hm.
      * intros p Hp. rewrite (concr_present _ _ _ Hm). cbn. apply kids_present in Hp as (m' & Hm' & <-); [|done].
        by assert (m' = m) as -> by congruence.
    + assert (size (concr F1) = size F1) as ->; [|lia]. rewrite <- !size_dom. f_equal. apply set_eq. intros x.
      rewrite !elem_of_dom, concr_lookup. by rewrite fmap_is_Some.
Qed.
