(* ===== verification/RallocSpec.v ===== *)
(** * Clients of memory contexts

    The calls of a client ([r_step]), and what they do to a forest of blocks ([f_step]). *)
From stdpp Require Import gmap relations.
From S2P Require Import Prelude Bytes Ralloc RallocString RallocForest RallocCorrect RallocMove RallocFree.

(** ** Clients *)

Inductive r_op :=
| RAlloc (malloc : malloc_result) (ctx sz : Z)
| RZalloc (malloc : malloc_result) (ctx sz : Z)
| RArray (malloc : malloc_result) (ctx sz count : Z)
| RZarray (malloc : malloc_result) (ctx sz count : Z)
| RRealloc (malloc : malloc_result) (realloc : realloc_result) (ctx ptr sz : Z)
| RReallocArray (malloc : malloc_result) (realloc : realloc_result) (ctx ptr sz count : Z)
| RFree (ptr : Z)
| RSteal (new_ctx ptr : Z)
| RAdopt (new_ctx old_ctx : Z)
| RParent (ptr : Z)
| RSetDestructor (ptr destructor : Z)
| RWrite (ptr o : Z) (bs : list Z)
| RRead (ptr : Z)
| RStrdup (malloc : malloc_result) (ctx : Z) (str : option (list Z))
| RStrndup (malloc : malloc_result) (ctx : Z) (str : option (list Z)) (max : Z)
| RStrcat (realloc : realloc_result) (dest : Z) (str : list Z)
| RStrncat (realloc : realloc_result) (dest : Z) (str : list Z) (n : Z)
| RStrAppend (realloc : realloc_result) (dest : Z) (str : list Z) (existing_length str_size : Z)
| RAsprintf (malloc : malloc_result) (ctx : Z) (text : list Z)
| RRewriteTail (malloc : malloc_result) (realloc : realloc_result) (str start : Z) (text : list Z)
| RAsprintfAppend (malloc : malloc_result) (realloc : realloc_result) (str : Z) (text : list Z).

(** A pointer, the destructors that were called, the contents of a block, a string that was changed,
    the same with its length, or nothing. *)
Inductive r_result :=
| RPtr (ptr : Z) | RCalls (calls : list (Z * Z)) | RBytes (bs : list Z)
| RString (dest : Z) (success : bool) | RTail (str start : Z) (success : bool) | RVoid.

Definition r_pointer {S} (r : option (S * Z)) : option (S * r_result) := '(s, ptr) ← r; Some (s, RPtr ptr).
Definition r_string {S} (r : option (S * (Z * bool))) : option (S * r_result) :=
  '(s, (dest, success)) ← r; Some (s, RString dest success).
Definition r_tail {S} (r : option (S * (Z * Z * bool))) : option (S * r_result) :=
  '(s, (str, start, success)) ← r; Some (s, RTail str start success).
Definition r_void {S} (r : option S) : option (S * r_result) := s ← r; Some (s, RVoid).

Definition r_step (m : rheap) (op : r_op) : option (rheap * r_result) :=
  match op with
  | RAlloc malloc ctx sz => r_pointer (ralloc_size malloc m ctx sz)
  | RZalloc malloc ctx sz => r_pointer (rzalloc_size malloc m ctx sz)
  | RArray malloc ctx sz count => r_pointer (ralloc_array_size malloc m ctx sz count)
  | RZarray malloc ctx sz count => r_pointer (rzalloc_array_size malloc m ctx sz count)
  | RRealloc malloc realloc ctx ptr sz => r_pointer (reralloc_size malloc realloc m ctx ptr sz)
  | RReallocArray malloc realloc ctx ptr sz count => r_pointer (reralloc_array_size malloc realloc m ctx ptr sz count)
  | RFree ptr => '(m, calls) ← ralloc_free m ptr; Some (m, RCalls calls)
  | RSteal new_ctx ptr => r_void (ralloc_steal m new_ctx ptr)
  | RAdopt new_ctx old_ctx => r_void (ralloc_adopt m new_ctx old_ctx)
  | RParent ptr => p ← ralloc_parent m ptr; Some (m, RPtr p)
  | RSetDestructor ptr destructor => r_void (ralloc_set_destructor m ptr destructor)
  | RWrite ptr o bs => r_void (poke m ptr o bs)
  | RRead ptr => h ← m !! get_header ptr; Some (m, RBytes (rh_data h))
  | RStrdup malloc ctx str => r_pointer (ralloc_strdup malloc m ctx str)
  | RStrndup malloc ctx str max => r_pointer (ralloc_strndup malloc m ctx str max)
  | RStrcat realloc dest str => r_string (ralloc_strcat realloc m dest str)
  | RStrncat realloc dest str n => r_string (ralloc_strncat realloc m dest str n)
  | RStrAppend realloc dest str existing_length str_size =>
    r_string (ralloc_str_append realloc m dest str existing_length str_size)
  | RAsprintf malloc ctx text => r_pointer (ralloc_vasprintf malloc m ctx text)
  | RRewriteTail malloc realloc str start text => r_tail (ralloc_vasprintf_rewrite_tail malloc realloc m str start text)
  | RAsprintfAppend malloc realloc str text => r_string (ralloc_vasprintf_append malloc realloc m str text)
  end.

(** ** The specification *)

Definition block_present (F : forest) (ptr : Z) : bool := bool_decide (is_Some (F !! get_header ptr)).

(** A context is a block or null. *)
Definition ctx_ok (F : forest) (ctx : Z) : bool := (ctx =? 0) || block_present F ctx.
Definition ctx_header (ctx : Z) : Z := if ctx =? 0 then 0 else get_header ctx.

Definition size_ok (sz : Z) : bool := (0 <=? sz) && (sz + sizeof_ralloc_header <? 2 ^ 64).

(** An address that is not in use. *)
Definition fresh (F : forest) (a : Z) : bool := (0 <? a) && bool_decide (F !! a = None).

(** A new block is the first child of its context. *)
Definition f_alloc (malloc : malloc_result) (F : forest) (ctx sz : Z) : option (forest * Z) :=
  if negb (ctx_ok F ctx && size_ok sz) then None else
  match malloc (sz + sizeof_ralloc_header) with
  | None => Some (F, 0)
  | Some (info, block) =>
    if negb (fresh F info && (Z.of_nat (length block) =? sz + sizeof_ralloc_header)) then None
    else Some (f_link (<[info := FNode 0 [] 0 (drop (Z.to_nat sizeof_ralloc_header) block)]> F) (ctx_header ctx) info,
               PTR_FROM_HEADER info)
  end.

Definition f_zalloc (malloc : malloc_result) (F : forest) (ctx sz : Z) : option (forest * Z) :=
  '(F, ptr) ← f_alloc malloc F ctx sz;
  Some (if ptr =? 0 then F else alter (set_fn_data (replicate (Z.to_nat sz) 0)) (get_header ptr) F, ptr).

(** The same block, possibly at another address, with the contents it had. *)
Definition f_resize (realloc : realloc_result) (F : forest) (ptr sz : Z) : option (forest * Z) :=
  let old := get_header ptr in
  n ← F !! old;
  if negb (size_ok sz) then None else
  match realloc old (fn_data n) (sz + sizeof_ralloc_header) with
  | None => Some (F, 0)
  | Some (info, data) =>
    let k := Nat.min (length (fn_data n)) (Z.to_nat sz) in
    if negb ((Z.of_nat (length data) =? sz) && bool_decide (take k data = take k (fn_data n))) then None
    else if info =? old then Some (alter (set_fn_data data) old F, ptr)
    else if fresh F info then Some (f_move F old info data, PTR_FROM_HEADER info) else None
  end.

Definition f_realloc (malloc : malloc_result) (realloc : realloc_result) (F : forest) (ctx ptr sz : Z) :
    option (forest * Z) :=
  if ptr =? 0 then f_alloc malloc F ctx sz else
  n ← F !! get_header ptr;
  if (fn_parent n =? ctx_header ctx) && ctx_ok F ctx then f_resize realloc F ptr sz else None.

(** An array that overflows is not allocated. *)
Definition f_array (sz count : Z) (F : forest) (alloc : Z -> option (forest * Z)) : option (forest * Z) :=
  if (sz <=? 0) || (count <? 0) then None
  else if SIZE_MAX / sz <? count then Some (F, 0) else alloc (sz * count).

(** [x] is [a] or below it. *)
Definition f_is_below (F : forest) (a x : Z) : bool :=
  from_option (fun l => bool_decide (x ∈ l)) true (f_below (size F) F a).

(** A new block with a string. *)
Definition f_print (malloc : malloc_result) (F : forest) (ctx : Z) (text : list Z) : option (forest * Z) :=
  '(F, ptr) ← f_alloc malloc F ctx (Z.of_nat (length text) + 1);
  Some (if ptr =? 0 then F else alter (set_fn_data (text ++ [0])) (get_header ptr) F, ptr).

(** A copy of a string; there must be memory for it. *)
Definition f_copy (malloc : malloc_result) (F : forest) (ctx : Z) (text : list Z) : option (forest * Z) :=
  if 2 ^ 32 <=? Z.of_nat (length text) + 1 then None else
  '(F, ptr) ← f_print malloc F ctx text; if ptr =? 0 then None else Some (F, ptr).

(** The first [start] bytes of a block, then a string; 0 if there is no memory. *)
Definition f_tail (realloc : realloc_result) (F : forest) (ptr start : Z) (text : list Z) : option (forest * Z) :=
  n ← F !! get_header ptr;
  if negb ((0 <=? start) && (start <=? Z.of_nat (length (fn_data n)))) then None else
  '(F, ptr) ← f_resize realloc F ptr (start + Z.of_nat (length text) + 1);
  Some (if ptr =? 0 then F
        else alter (set_fn_data (take (Z.to_nat start) (fn_data n) ++ text ++ [0])) (get_header ptr) F, ptr).

(** [f_tail] at the end of the string in the block. *)
Definition f_append (realloc : realloc_result) (F : forest) (dest : Z) (text : list Z) : option (forest * (Z * bool)) :=
  n ← F !! get_header dest;
  existing_length ← strlen (fn_data n);
  '(F, ptr) ← f_tail realloc F dest existing_length text;
  Some (F, if ptr =? 0 then (dest, false) else (ptr, true)).

(** A null string is a new one; there must be memory for it. *)
Definition f_rewrite (malloc : malloc_result) (realloc : realloc_result) (F : forest) (str start : Z) (text : list Z) :
    option (forest * (Z * Z * bool)) :=
  if 2 ^ 31 <=? Z.of_nat (length text) then None else
  if str =? 0 then
    '(F, ptr) ← f_copy malloc F 0 text;
    n ← strlen (text ++ [0]);
    Some (F, (ptr, n, true))
  else
    '(F, ptr) ← f_tail realloc F str start text;
    Some (F, if ptr =? 0 then (str, start, false) else (ptr, start + Z.of_nat (length text), true)).

(** [None]: a pointer that is not valid, or a block that would come below itself. *)
Definition f_step (F : forest) (op : r_op) : option (forest * r_result) :=
  match op with
  | RAlloc malloc ctx sz => r_pointer (f_alloc malloc F ctx sz)
  | RZalloc malloc ctx sz => r_pointer (f_zalloc malloc F ctx sz)
  | RArray malloc ctx sz count => r_pointer (f_array sz count F (f_alloc malloc F ctx))
  | RZarray malloc ctx sz count => r_pointer (f_array sz count F (f_zalloc malloc F ctx))
  | RRealloc malloc realloc ctx ptr sz => r_pointer (f_realloc malloc realloc F ctx ptr sz)
  | RReallocArray malloc realloc ctx ptr sz count => r_pointer (f_array sz count F (f_realloc malloc realloc F ctx ptr))
  | RFree ptr =>
    if ptr =? 0 then Some (F, RCalls [])
    else if negb (block_present F ptr) then None
    else '(F, calls) ← f_free F (get_header ptr); Some (F, RCalls calls)
  | RSteal new_ctx ptr =>
    if ptr =? 0 then Some (F, RVoid)
    else if negb (block_present F ptr && ctx_ok F new_ctx) then None
    else if negb (new_ctx =? 0) && f_is_below F (get_header ptr) (get_header new_ctx) then None
    else Some (f_link (f_unlink F (get_header ptr)) (ctx_header new_ctx) (get_header ptr), RVoid)
  | RAdopt new_ctx old_ctx =>
    if old_ctx =? 0 then Some (F, RVoid)
    else if negb (block_present F new_ctx && block_present F old_ctx) then None
    else if f_is_below F (get_header old_ctx) (get_header new_ctx) then None
    else Some (f_adopt F (get_header new_ctx) (get_header old_ctx), RVoid)
  | RParent ptr =>
    if ptr =? 0 then Some (F, RPtr 0) else
    n ← F !! get_header ptr;
    Some (F, RPtr (if fn_parent n =? 0 then 0 else PTR_FROM_HEADER (fn_parent n)))
  | RSetDestructor ptr destructor =>
    if block_present F ptr then Some (alter (set_fn_destructor destructor) (get_header ptr) F, RVoid) else None
  | RWrite ptr o bs =>
    n ← F !! get_header ptr; d ← write_bytes (fn_data n) o bs;
    Some (alter (set_fn_data d) (get_header ptr) F, RVoid)
  | RRead ptr => n ← F !! get_header ptr; Some (F, RBytes (fn_data n))
  | RStrdup malloc ctx None => Some (F, RPtr 0)
  | RStrdup malloc ctx (Some str) => n ← strlen str; r_pointer (f_copy malloc F ctx (take (Z.to_nat n) str))
  | RStrndup malloc ctx None max => Some (F, RPtr 0)
  | RStrndup malloc ctx (Some str) max =>
    if max <? 0 then None else n ← strnlen str max; r_pointer (f_copy malloc F ctx (take (Z.to_nat n) str))
  | RStrcat realloc dest str => n ← strlen str; r_string (f_append realloc F dest (take (Z.to_nat n) str))
  | RStrncat realloc dest str n =>
    if n <? 0 then None else n ← strnlen str n; r_string (f_append realloc F dest (take (Z.to_nat n) str))
  | RStrAppend realloc dest str existing_length str_size =>
    text ← read_bytes str 0 str_size;
    '(F, ptr) ← f_tail realloc F dest existing_length text;
    Some (F, if ptr =? 0 then RString dest false else RString ptr true)
  | RAsprintf malloc ctx text =>
    if 2 ^ 31 <=? Z.of_nat (length text) then None else r_pointer (f_print malloc F ctx text)
  | RRewriteTail malloc realloc str start text => r_tail (f_rewrite malloc realloc F str start text)
  | RAsprintfAppend malloc realloc str text =>
    start ← (if str =? 0 then Some 0 else n ← F !! get_header str; strlen (fn_data n));
    '(F, (str, _, success)) ← f_rewrite malloc realloc F str start text;
    Some (F, RString str success)
  end.

Fixpoint r_run {S} (step : S -> r_op -> option (S * r_result)) (s : S) (ops : list r_op) : option (S * list r_result) :=
  match ops with
  | [] => Some (s, [])
  | op :: ops => '(s, r) ← step s op; '(s, rs) ← r_run step s ops; Some (s, r :: rs)
  end.
