(* ===== verification/RallocSteps.v ===== *)
(** * Every call is the call on the forest

    Each function of the allocator, on the headers of a forest, gives the headers of the forest that the
    specification says, and its result. *)
From stdpp Require Import gmap relations.
From S2P Require Import Prelude Bytes Ralloc RallocString RallocForest RallocCorrect RallocMove RallocFree RallocSpec.

(** ** New blocks *)

Section Root.

Context (F : forest) (H : fwf F) (a : Z) (d : list Z) (Hfresh : F !! a = None) (Hpos : 0 < a).

Definition f_root : forest := <[a := FNode 0 [] 0 d]> F.

Lemma f_root_kids x : kids f_root x = kids F x.
Proof.
  unfold kids, f_root. destruct (decide (x = a)) as [->|].
  - by rewrite lookup_insert_eq, Hfresh.
  - by rewrite lookup_insert_ne.
Qed.

Lemma f_root_concr : concr f_root = <[a := RallocHeader 0 0 0 0 0 d]> (concr F).
Proof.
  apply map_eq. intros x. rewrite concr_lookup. destruct (decide (x = a)) as [->|Hx].
  - unfold f_root at 2. rewrite !lookup_insert_eq. cbn. f_equal. unfold header_of. cbn.
    by rewrite f_root_kids, kids_zero.
  - unfold f_root at 2. rewrite !lookup_insert_ne, concr_lookup by done. unfold header_of.
    destruct (F !! x); cbn; [|done]. by rewrite f_root_kids.
Qed.

Lemma f_root_wf : fwf f_root.
Proof.
  constructor.
  - unfold f_root. rewrite lookup_insert_ne by lia. apply H.
  - intros x n. unfold f_root. destruct (decide (x = a)) as [->|]; [done|]. rewrite lookup_insert_ne by done. apply H.
  - intros x. rewrite f_root_kids. apply H.
  - intros x c. rewrite f_root_kids. intros Hc. unfold f_root. rewrite lookup_insert_ne; [by apply H|].
    intros <-. apply kids_present in Hc as (n & Hn & _); [congruence|done].
  - intros c n. rewrite f_root_kids. unfold f_root. destruct (decide (c = a)) as [->|].
    + rewrite lookup_insert_eq. by intros [= <-].
    + rewrite lookup_insert_ne by done. apply H.
  - apply (acyclic_mono (child_rel F)); [apply H|]. intros c x. unfold child_rel. by rewrite f_root_kids.
Qed.

Lemma f_root_under p : under f_root a p -> p = a.
Proof.
  intros Hu. destruct (rtc_inv_r _ _ Hu) as [|(k & _ & Hk)]; [done|]. unfold child_rel in Hk.
  rewrite f_root_kids in Hk. unfold kids in Hk. rewrite Hfresh in Hk. by apply elem_of_nil in Hk.
Qed.

End Root.

(** ** Contents and destructors *)

Section Payload.

Context (F : forest) (H : fwf F) (f : fnode -> fnode) (g : ralloc_header -> ralloc_header) (a : Z).
Context (Hp : forall n, fn_parent (f n) = fn_parent n) (Hc : forall n, fn_children (f n) = fn_children n).
Context (Hg : forall n, g (header_of F a n) = header_of F a (f n)).

Lemma payload_kids x : kids (alter f a F) x = kids F x.
Proof. by apply kids_alter. Qed.

Lemma payload_concr : alter g a (concr F) = concr (alter f a F).
Proof.
  apply map_eq. intros x. rewrite concr_lookup, !lookup_alter_case, concr_lookup.
  destruct (F !! x) as [n|]; [|by case_decide]. unfold header_of at 2. case_decide as E; cbn; f_equal.
  - subst x. rewrite Hg. unfold header_of. by rewrite payload_kids.
  - unfold header_of. by rewrite payload_kids.
Qed.

Lemma payload_parent x : fn_parent <$> alter f a F !! x = fn_parent <$> F !! x.
Proof. rewrite lookup_alter_case. case_decide; [|done]. destruct (F !! x); cbn; by rewrite ?Hp. Qed.

Lemma payload_wf : fwf (alter f a F).
Proof.
  constructor.
  - rewrite lookup_alter_case, H.(fw_zero _). by case_decide.
  - intros x n. rewrite lookup_alter_case. case_decide; [|apply H].
    destruct (F !! x) eqn:E; cbn; [|done]. intros _. by eapply H.
  - intros x. rewrite payload_kids. apply H.
  - intros x c. rewrite payload_kids, payload_parent. apply H.
  - intros c n Hn. rewrite payload_kids. pose proof (payload_parent c) as E. rewrite Hn in E. cbn in E.
    destruct (F !! c) as [m|] eqn:Em; [|done]. injection E as ->. by apply H.
  - apply (acyclic_mono (child_rel F)); [apply H|]. intros c x. unfold child_rel. by rewrite payload_kids.
Qed.

End Payload.

(** ** Calls *)

(** A call in memory does what the call on the forest does. *)
Definition implements {R} (r : option (rheap * R)) (s : option (forest * R)) : Prop :=
  forall F' x, s = Some (F', x) -> r = Some (concr F', x) /\ fwf F'.

Lemma block_present_inv F ptr : block_present F ptr = true -> exists n, F !! get_header ptr = Some n.
Proof. unfold block_present. intros [n Hn]%bool_decide_eq_true. by exists n. Qed.

Lemma ptr_header ptr : PTR_FROM_HEADER (get_header ptr) = ptr.
Proof. unfold PTR_FROM_HEADER, get_header. lia. Qed.

Lemma size_ok_u64 sz : size_ok sz = true -> 0 <= sz /\ u64 (sz + sizeof_ralloc_header) = sz + sizeof_ralloc_header.
Proof.
  unfold size_ok. intros [H1 H2]%andb_prop. apply Z.leb_le in H1. apply Z.ltb_lt in H2. split; [done|].
  unfold u64. apply Z.mod_small. unfold sizeof_ralloc_header in *. lia.
Qed.

Section Calls.

Context (F : forest) (H : fwf F).

(** Whether a block is below another is decided. *)
Lemma f_below_spec a n :
  F !! a = Some n -> exists l, f_below (size F) F a = Some l /\ NoDup l /\ forall x, x ∈ l <-> under F a x.
Proof.
  intros Ha. destruct (post_exists F H a) as [l Hl]. exists l. split_and!.
  - apply f_below_post; [done|done|]. exact (below_length F H a n Ha l Hl).
  - by eapply post_NoDup.
  - by eapply post_elem.
Qed.

Lemma f_is_below_false a x n : F !! a = Some n -> f_is_below F a x = false -> ~ under F a x.
Proof.
  intros Ha. unfold f_is_below. destruct (f_below_spec a n Ha) as (l & -> & _ & Hl). cbn.
  rewrite <- Hl. by apply bool_decide_eq_false.
Qed.

Lemma ralloc_size_implements malloc ctx sz :
  implements (ralloc_size malloc (concr F) ctx sz) (f_alloc malloc F ctx sz).
Proof.
  intros F' x. unfold f_alloc, ralloc_size. destruct (ctx_ok F ctx && size_ok sz) eqn:E; [|done]. cbn [negb].
  apply andb_prop in E as [Hctx [Hsz ->]%size_ok_u64].
  destruct (malloc _) as [[info block]|]; [|by intros [= <- <-]].
  destruct (fresh F info && _) eqn:E; [|done]. cbn [negb]. apply andb_prop in E as [E Hlen%Z.eqb_eq].
  apply andb_prop in E as [Hpos%Z.ltb_lt Hf%bool_decide_eq_true].
  assert (Z.of_nat (length block) <? sizeof_ralloc_header = false) as -> by (apply Z.ltb_ge; lia).
  set (d := drop _ block). intros [= <- <-]. fold (ctx_header ctx). fold (f_root F info d).
  rewrite <- (f_root_concr F H info d Hf). pose proof (f_root_wf F H info d Hf Hpos) as H1.
  unfold ctx_ok in Hctx. unfold ctx_header. destruct (ctx =? 0); [done|]. cbn in Hctx.
  apply block_present_inv in Hctx as [np Hnp].
  assert (get_header ctx <> info) as Hne by congruence.
  assert (f_root F info d !! get_header ctx = Some np) as Hp by (unfold f_root; by rewrite lookup_insert_ne).
  assert (f_root F info d !! info = Some (FNode 0 [] 0 d)) as Hi by (unfold f_root; by rewrite lookup_insert_eq).
  rewrite (add_child_concr _ H1 _ _ _ _ Hi eq_refl Hp Hne). cbn. split; [done|].
  apply (f_link_wf _ H1 _ _ _ _ Hi eq_refl Hp Hne). by intros ?%f_root_under.
Qed.

(** A new block is there, and has the size it was asked for. *)
Lemma f_alloc_block malloc ctx sz F' ptr :
  f_alloc malloc F ctx sz = Some (F', ptr) -> ptr <> 0 ->
  exists n, F' !! get_header ptr = Some n /\ Z.of_nat (length (fn_data n)) = sz.
Proof.
  unfold f_alloc. destruct (ctx_ok F ctx && size_ok sz) eqn:E; [|done]. cbn [negb].
  apply andb_prop in E as [Hctx [Hsz _]%size_ok_u64].
  destruct (malloc _) as [[info block]|]; [|by intros [= <- <-]].
  destruct (fresh F info && _) eqn:E; [|done]. cbn [negb]. apply andb_prop in E as [_ Hlen%Z.eqb_eq].
  intros [= <- <-] _. rewrite get_header_ptr.
  assert (Z.of_nat (length (drop (Z.to_nat sizeof_ralloc_header) block)) = sz) as Hd.
  { rewrite length_drop. unfold sizeof_ralloc_header in *. lia. }
  unfold f_link. destruct (ctx_header ctx =? 0).
  - rewrite lookup_insert_eq. by eexists.
  - rewrite lookup_alter_eq, lookup_alter_case, lookup_insert_eq. case_decide; cbn; by eexists.
Qed.

(** Stores into a block. *)
Lemma poke_concr ptr o bs n d :
  F !! get_header ptr = Some n -> write_bytes (fn_data n) o bs = Some d ->
  poke (concr F) ptr o bs = Some (concr (alter (set_fn_data d) (get_header ptr) F)).
Proof.
  intros Hn Hd. unfold poke. rewrite (concr_present _ _ _ Hn). cbn [mbind option_bind header_of rh_data].
  rewrite Hd. cbn [mbind option_bind]. rewrite <- (payload_concr F _ (set_rh_data d)) by done. f_equal.
  apply map_eq. intros x. rewrite lookup_alter_case. case_decide as E.
  - subst x. by rewrite lookup_insert_eq, (concr_present _ _ _ Hn).
  - by rewrite lookup_insert_ne.
Qed.

Lemma write_implements ptr o bs :
  implements (r_void (poke (concr F) ptr o bs)) (f_step F (RWrite ptr o bs)).
Proof.
  intros F' x. cbn. destruct (F !! get_header ptr) as [n|] eqn:Hn; cbn; [|done].
  destruct (write_bytes (fn_data n) o bs) as [d|] eqn:Hd; cbn; [|done]. intros [= <- <-].
  rewrite (poke_concr ptr o bs n d) by done. split; [done|]. by apply payload_wf.
Qed.

Lemma set_destructor_implements ptr destructor :
  implements (r_void (ralloc_set_destructor (concr F) ptr destructor)) (f_step F (RSetDestructor ptr destructor)).
Proof.
  intros F' x. cbn. destruct (block_present F ptr) eqn:E; [|done]. apply block_present_inv in E as [n Hn].
  intros [= <- <-]. unfold ralloc_set_destructor. rewrite (rupd_alter _ _ _ _ (concr_present _ _ _ Hn)). cbn.
  rewrite (payload_concr F (set_fn_destructor destructor)) by done. split; [done|]. by apply payload_wf.
Qed.

(** The links stay as they are when a block keeps its address. *)
Lemma resize_in_place realloc old n data sz :
  F !! old = Some n -> realloc old (fn_data n) (u64 (sz + sizeof_ralloc_header)) = Some (old, data) ->
  sizeof_ralloc_header <= u64 (sz + sizeof_ralloc_header) ->
  resize realloc (concr F) (PTR_FROM_HEADER old) sz =
    Some (concr (alter (set_fn_data data) old F), PTR_FROM_HEADER old).
Proof.
  intros Hn Hr Hs. unfold resize. rewrite get_header_ptr, (concr_present _ _ _ Hn). cbn [mbind option_bind].
  cbn [header_of rh_data]. rewrite Hr, (proj2 (Z.ltb_ge _ _)) by done.
  set (F1 := alter (set_fn_data data) old F). assert (fwf F1) as H1 by (by apply payload_wf).
  replace (<[old := set_rh_data data (header_of F old n)]> (delete old (concr F))) with (concr F1).
  2: { unfold F1. rewrite <- (payload_concr F _ (set_rh_data data)) by done. apply map_eq. intros x.
       rewrite lookup_alter_case. case_decide as E.
       - subst x. by rewrite lookup_insert_eq, (concr_present _ _ _ Hn).
       - by rewrite lookup_insert_ne, lookup_delete_ne. }
  assert (F1 !! old = Some (set_fn_data data n)) as Hn1 by (unfold F1; by rewrite lookup_alter_eq, Hn).
  unfold relink. rewrite (concr_present _ _ _ Hn1). cbn [mbind option_bind]. rewrite Z.eqb_refl. cbn [orb mbind option_bind].
  rewrite (concr_present _ _ _ Hn1). cbn [mbind option_bind].
  assert (rh_child (header_of F1 old (set_fn_data data n)) = zhd (kids F1 old)) as ->.
  { unfold kids. by rewrite Hn1. }
  assert (forall x, x ∈ kids F1 old -> is_Some (concr F1 !! x)) as Hk.
  { intros x Hx. apply kids_present in Hx as (m & Hm & _); [|done]. rewrite (concr_present _ _ _ Hm). by eexists. }
  rewrite (set_parents_chain (kids F1 old)); [|by apply concr_chain|by apply kids_addrs|].
  2: { apply Nat.lt_succ_r, blocks_le_size; [apply H1|done]. }
  cbn. do 2 f_equal. apply map_eq. intros x. rewrite alter_all_lookup by apply H1. case_decide as E; [|done].
  apply kids_present in E as (m & Hm & Ep); [|done]. rewrite (concr_present _ _ _ Hm). cbn. f_equal.
  unfold set_rh_parent, header_of. cbn. by rewrite Ep.
Qed.

Lemma ctx_header_parent ctx n a :
  F !! a = Some n -> ctx_ok F ctx = true -> fn_parent n = ctx_header ctx ->
  (if fn_parent n =? 0 then 0 else PTR_FROM_HEADER (fn_parent n)) = ctx.
Proof.
  intros Ha Hctx ->. unfold ctx_header, ctx_ok in *. destruct (Z.eqb_spec ctx 0) as [->|]; [done|]. cbn in Hctx.
  apply block_present_inv in Hctx as [np Hnp]. pose proof (H.(fw_pos _) _ _ Hnp).
  rewrite (proj2 (Z.eqb_neq _ _)) by lia. apply ptr_header.
Qed.

Lemma resize_implements realloc ptr sz :
  implements (resize realloc (concr F) ptr sz) (f_resize realloc F ptr sz).
Proof.
  intros F' x. unfold f_resize. destruct (F !! get_header ptr) as [n|] eqn:Hn; [|done]. cbn [mbind option_bind].
  destruct (size_ok sz) eqn:E; [|done]. cbn [negb]. apply size_ok_u64 in E as [Hsz Hu].
  destruct (realloc _ _ _) as [[info data]|] eqn:Hr.
  2: { intros [= <- <-]. unfold resize. rewrite (concr_present _ _ _ Hn). cbn. by rewrite Hu, Hr. }
  rewrite <- Hu in Hr. destruct (negb _); [done|].
  assert (sizeof_ralloc_header <= u64 (sz + sizeof_ralloc_header)) as Hs by (rewrite Hu; lia).
  destruct (Z.eqb_spec info (get_header ptr)) as [->|Hne].
  - intros [= <- <-]. pose proof (resize_in_place realloc _ n data sz Hn Hr Hs) as E. rewrite ptr_header in E.
    split; [done|]. by apply payload_wf.
  - destruct (fresh F info) eqn:E; [|done]. apply andb_prop in E as [Hpos%Z.ltb_lt Hf%bool_decide_eq_true].
    intros [= <- <-]. pose proof (resize_concr F H _ info n data Hn Hf Hpos realloc sz Hr Hs) as E.
    rewrite ptr_header in E. split; [done|]. by eapply f_move_wf.
Qed.

(** A resized block is there, with the size asked for and the contents it had. *)
Lemma f_resize_block realloc ptr n sz F' ptr' :
  F !! get_header ptr = Some n -> f_resize realloc F ptr sz = Some (F', ptr') -> ptr' <> 0 ->
  exists n', F' !! get_header ptr' = Some n' /\ Z.of_nat (length (fn_data n')) = sz /\
    take (Nat.min (length (fn_data n)) (Z.to_nat sz)) (fn_data n') =
      take (Nat.min (length (fn_data n)) (Z.to_nat sz)) (fn_data n).
Proof.
  intros Hn. unfold f_resize. rewrite Hn. cbn [mbind option_bind]. destruct (size_ok sz); [|done]. cbn [negb].
  destruct (realloc _ _ _) as [[info data]|]; [|by intros [= <- <-]].
  destruct (_ && _) eqn:E; [|done]. cbn [negb]. apply andb_prop in E as [Hlen%Z.eqb_eq Ht%bool_decide_eq_true].
  destruct (Z.eqb_spec info (get_header ptr)) as [->|Hne].
  - intros [= <- <-] _. rewrite lookup_alter_eq, Hn. by eexists.
  - destruct (fresh F info) eqn:E; [|done]. apply andb_prop in E as [Hpos%Z.ltb_lt Hf%bool_decide_eq_true].
    intros [= <- <-] _. rewrite get_header_ptr, (f_move_lookup F _ info n data Hn), decide_False by done.
    rewrite unrename_info, Hn. eexists. split; [done|]. cbn. by rewrite decide_True.
Qed.

Lemma reralloc_size_implements malloc realloc ctx ptr sz :
  implements (reralloc_size malloc realloc (concr F) ctx ptr sz) (f_realloc malloc realloc F ctx ptr sz).
Proof.
  intros F' x. unfold f_realloc, reralloc_size. destruct (Z.eqb_spec ptr 0) as [->|Hptr]; [by apply ralloc_size_implements|].
  destruct (F !! get_header ptr) as [n|] eqn:Hn; [|done]. cbn [mbind option_bind].
  destruct (_ && _) eqn:E; [|done]. apply andb_prop in E as [Hp%Z.eqb_eq Hctx].
  unfold ralloc_parent. rewrite (proj2 (Z.eqb_neq _ _)), (concr_present _ _ _ Hn) by done. cbn [mbind option_bind].
  cbn [header_of rh_parent]. rewrite (ctx_header_parent ctx n _ Hn Hctx Hp), Z.eqb_refl. by apply resize_implements.
Qed.

End Calls.

Section MoreCalls.

Context (F : forest) (H : fwf F).

Lemma rzalloc_size_implements malloc ctx sz :
  implements (rzalloc_size malloc (concr F) ctx sz) (f_zalloc malloc F ctx sz).
Proof.
  intros F' x. unfold f_zalloc, rzalloc_size. destruct (f_alloc malloc F ctx sz) as [[F1 ptr]|] eqn:E; [|done].
  cbn. intros [= <- <-]. pose proof (ralloc_size_implements F H malloc ctx sz _ _ E) as [-> H1]. cbn.
  destruct (Z.eqb_spec ptr 0) as [|Hptr]; [done|].
  destruct (f_alloc_block F malloc ctx sz F1 ptr E Hptr) as (n & Hn & Hlen). split; [|by apply payload_wf].
  rewrite (poke_concr F1 ptr 0 _ n (replicate (Z.to_nat sz) 0)); [done|done|].
  rewrite write_bytes_Some by (rewrite ?length_replicate; lia). cbn. rewrite length_replicate, drop_ge by lia.
  by rewrite app_nil_r.
Qed.

Lemma array_implements sz count r s alloc :
  (forall n, implements (r n) (alloc n)) ->
  (forall n, s n = (o ← array_overflows sz n; if o : bool then Some (concr F, 0) else r (u64 (sz * n)))) ->
  implements (s count) (f_array sz count F alloc).
Proof.
  intros Hr Hs F' x. rewrite Hs. unfold f_array, array_overflows.
  destruct ((sz <=? 0) || (count <? 0)) eqn:E; [done|]. apply orb_false_iff in E as [E1%Z.leb_gt E2%Z.ltb_ge].
  rewrite (proj2 (Z.eqb_neq sz 0)) by lia. cbn [mbind option_bind].
  destruct (SIZE_MAX / sz <? count) eqn:E; [by intros [= <- <-]|]. apply Z.ltb_ge in E.
  assert (u64 (sz * count) = sz * count) as ->; [|by apply Hr].
  unfold u64. apply Z.mod_small. assert (sz * count <= SIZE_MAX) by (etransitivity; [apply Z.mul_le_mono_nonneg_l; [lia|exact E]|apply Z.mul_div_le; lia]).
  unfold SIZE_MAX in *. nia.
Qed.

Lemma steal_implements new_ctx ptr :
  implements (r_void (ralloc_steal (concr F) new_ctx ptr)) (f_step F (RSteal new_ctx ptr)).
Proof.
  intros F' x. cbn [f_step]. unfold ralloc_steal. destruct (ptr =? 0); [by intros [= <- <-]|].
  destruct (block_present F ptr && ctx_ok F new_ctx) eqn:E; [|done]. cbn [negb].
  apply andb_prop in E as [[n Hn]%block_present_inv Hctx]. fold (ctx_header new_ctx).
  rewrite (unlink_block_concr F H _ n Hn). cbn [mbind option_bind]. pose proof (f_unlink_wf F H _ n Hn) as H1.
  pose proof (f_unlink_lookup F H _ n Hn) as Hl. unfold ctx_header, ctx_ok in *. destruct (new_ctx =? 0); cbn [negb andb].
  { by intros [= <- <-]. }
  destruct (f_is_below F _ _) eqn:Eb; [done|]. apply (f_is_below_false F H _ _ n Hn) in Eb. intros [= <- <-].
  cbn in Hctx. apply block_present_inv in Hctx as [np Hnp].
  assert (get_header new_ctx <> get_header ptr) as Hne by (intros E; apply Eb; rewrite E; apply rtc_refl).
  pose proof (Hl (get_header ptr)) as Ha. rewrite decide_True in Ha by done.
  assert (exists np', f_unlink F (get_header ptr) !! get_header new_ctx = Some np') as [np' Hp].
  { rewrite Hl, decide_False, Hnp by done. case_decide; by eexists. }
  rewrite (add_child_concr _ H1 _ _ _ _ Ha eq_refl Hp Hne). split; [done|].
  apply (f_link_wf _ H1 _ _ _ _ Ha eq_refl Hp Hne). intros Hu. apply Eb. by eapply f_unlink_under.
Qed.

Lemma adopt_implements new_ctx old_ctx :
  implements (r_void (ralloc_adopt (concr F) new_ctx old_ctx)) (f_step F (RAdopt new_ctx old_ctx)).
Proof.
  intros F' x. cbn [f_step]. destruct (Z.eqb_spec old_ctx 0) as [->|Ho]; [by intros [= <- <-]|].
  destruct (block_present F new_ctx && _) eqn:E; [|done]. cbn [negb].
  apply andb_prop in E as [[nn Hnn]%block_present_inv [no Hno]%block_present_inv].
  destruct (f_is_below F _ _) eqn:Eb; [done|]. apply (f_is_below_false F H _ _ no Hno) in Eb. intros [= <- <-].
  pose proof (ralloc_adopt_concr F H _ _ nn no Hnn Hno Eb) as E. rewrite !ptr_header in E. rewrite E. split; [done|].
  by eapply f_adopt_wf.
Qed.

Lemma free_implements ptr :
  implements (r_step (concr F) (RFree ptr)) (f_step F (RFree ptr)).
Proof.
  intros F' x. cbn [f_step r_step]. destruct (Z.eqb_spec ptr 0) as [->|Hp]; [by intros [= <- <-]|].
  destruct (block_present F ptr) eqn:E; [|done]. cbn [negb]. apply block_present_inv in E as [n Hn].
  destruct (ralloc_free_concr F _ n H Hn) as (F1 & calls & -> & H1 & E). rewrite ptr_header in E. rewrite E.
  by intros [= <- <-].
Qed.

Lemma read_implements ptr : implements (r_step (concr F) (RRead ptr)) (f_step F (RRead ptr)).
Proof.
  intros F' x. cbn. destruct (F !! get_header ptr) as [n|] eqn:Hn; [|done].
  rewrite (concr_present _ _ _ Hn). cbn. by intros [= <- <-].
Qed.

Lemma parent_implements ptr : implements (r_step (concr F) (RParent ptr)) (f_step F (RParent ptr)).
Proof.
  intros F' x. cbn. unfold ralloc_parent. destruct (ptr =? 0); [by intros [= <- <-]|].
  destruct (F !! get_header ptr) as [n|] eqn:Hn; [|done].
  rewrite (concr_present _ _ _ Hn). cbn. by intros [= <- <-].
Qed.

Lemma pointer_implements r s : implements r s -> implements (r_pointer r) (r_pointer s).
Proof.
  intros Hr F' x. unfold r_pointer. destruct s as [[F1 ptr]|] eqn:E; [|done]. cbn. intros [= <- <-].
  destruct (Hr F1 ptr) as [-> H1]; done.
Qed.

End MoreCalls.

(** ** Strings *)

(** Two stores, one after the other, are one. *)
Lemma write_bytes_app m o bs bs' :
  (m' ← write_bytes m o bs; write_bytes m' (o + Z.of_nat (length bs)) bs') = write_bytes m o (bs ++ bs').
Proof.
  destruct (write_bytes m o bs) as [m'|] eqn:E; cbn.
  - pose proof (write_bytes_length _ _ _ _ E) as Hlen. apply write_bytes_inv in E as (H1 & H2 & ->).
    unfold write_bytes. rewrite Hlen. rewrite !length_app, Nat2Z.inj_add.
    rewrite (proj2 (Z.leb_le 0 o)), (proj2 (Z.leb_le 0 (o + Z.of_nat (length bs)))) by lia. cbn [andb].
    rewrite Z.add_assoc. destruct (_ <=? _) eqn:E; [|done]. apply Z.leb_le in E. f_equal.
    rewrite Z2Nat.inj_add, Nat2Z.id by lia.
    assert (length (take (Z.to_nat o) m) = Z.to_nat o) as Ht by (rewrite length_take; lia).
    set (t := take (Z.to_nat o) m) in *. set (d := drop (Z.to_nat o + length bs) m).
    rewrite (app_assoc t bs d), take_app_length' by (rewrite length_app; lia). rewrite <- !app_assoc. do 3 f_equal.
    rewrite (app_assoc t bs d), drop_app_ge by (rewrite length_app; lia). unfold d. rewrite drop_drop, length_app, Ht. f_equal. lia.
  - unfold write_bytes in *. rewrite length_app, Nat2Z.inj_add.
    destruct (0 <=? o); [|done]. cbn [andb] in *. destruct (Z.leb_spec (o + Z.of_nat (length bs)) (Z.of_nat (length m))); [done|].
    by rewrite (proj2 (Z.leb_gt _ _)) by lia.
Qed.

Lemma poke_app m ptr o bs bs' :
  (m' ← poke m ptr o bs; poke m' ptr (o + Z.of_nat (length bs)) bs') = poke m ptr o (bs ++ bs').
Proof.
  unfold poke. destruct (m !! get_header ptr) as [h|]; [|done]. cbn. rewrite <- write_bytes_app.
  destruct (write_bytes (rh_data h) o bs) as [d|]; [|done]. cbn. rewrite lookup_insert_eq. cbn.
  destruct (write_bytes d _ bs') as [d'|]; [|done]. cbn. by rewrite insert_insert_eq.
Qed.

(** The bytes of a string are there. *)
Lemma strlen_bound s n : strlen s = Some n -> 0 <= n < Z.of_nat (length s).
Proof.
  revert n. induction s as [|c s IH]; intros n; cbn [strlen length]; [done|]. destruct (c =? 0); [intros [= <-]; lia|].
  destruct (strlen s) as [k|]; [|done]. cbn. intros [= <-]. specialize (IH k eq_refl). lia.
Qed.

Lemma strnlen_bound s : forall max n, 0 <= max -> strnlen s max = Some n -> 0 <= n <= Z.of_nat (length s).
Proof.
  induction s as [|c s IH]; intros max n Hm; cbn [strnlen length];
    (destruct (Z.eqb_spec max 0); [intros [= <-]; lia|]); [done|]. destruct (c =? 0); [intros [= <-]; lia|].
  destruct (strnlen s (max - 1)) as [k|] eqn:E; [|done]. cbn. intros [= <-]. apply IH in E; lia.
Qed.

Lemma read_prefix s n : 0 <= n <= Z.of_nat (length s) -> read_bytes s 0 n = Some (take (Z.to_nat n) s).
Proof.
  intros Hn. unfold read_bytes. rewrite (proj2 (Z.leb_le 0 n)), (proj2 (Z.leb_le (0 + n) _)) by lia. done.
Qed.

Section Strings.

Context (F : forest) (H : fwf F).

(** A store that fills a new block. *)
Lemma print_implements malloc ctx text :
  implements ('(m, ptr) ← ralloc_size malloc (concr F) ctx (Z.of_nat (length text) + 1);
              if ptr =? 0 then Some (m, ptr) else m ← poke m ptr 0 (text ++ [0]); Some (m, ptr))
    (f_print malloc F ctx text).
Proof.
  intros F' x. unfold f_print. destruct (f_alloc _ _ _ _) as [[F1 ptr]|] eqn:E; [|done]. cbn. intros [= <- <-].
  pose proof (ralloc_size_implements F H malloc ctx _ _ _ E) as [-> H1]. cbn.
  destruct (Z.eqb_spec ptr 0) as [|Hptr]; [done|].
  destruct (f_alloc_block F malloc ctx _ F1 ptr E Hptr) as (n & Hn & Hlen). split; [|by apply payload_wf].
  rewrite (poke_concr F1 ptr 0 _ n (text ++ [0])); [done|done|].
  rewrite write_bytes_Some by (rewrite ?length_app; cbn; lia). cbn. rewrite drop_ge by (rewrite length_app; cbn; lia).
  by rewrite app_nil_r.
Qed.

Lemma f_copy_block malloc ctx text F' ptr :
  f_copy malloc F ctx text = Some (F', ptr) ->
  f_print malloc F ctx text = Some (F', ptr) /\ ptr <> 0 /\ Z.of_nat (length text) + 1 < 2 ^ 32 /\
  fn_data <$> F' !! get_header ptr = Some (text ++ [0]).
Proof.
  unfold f_copy. destruct (Z.leb_spec (2 ^ 32) (Z.of_nat (length text) + 1)); [done|].
  destruct (f_print _ _ _ _) as [[F1 p]|] eqn:E; [|done]. cbn. destruct (Z.eqb_spec p 0) as [|Hp]; [done|].
  intros [= <- <-]. split_and!; [done|done|done|]. unfold f_print in E.
  destruct (f_alloc _ _ _ _) as [[F2 p2]|] eqn:E2; [|done]. cbn in E. injection E as <- ->.
  rewrite (proj2 (Z.eqb_neq _ _)) by done. destruct (f_alloc_block F malloc ctx _ F2 p E2 Hp) as (n & Hn & _).
  by rewrite lookup_alter_eq, Hn.
Qed.

Lemma copy_implements malloc ctx str n :
  0 <= n <= Z.of_nat (length str) ->
  implements (copy_string malloc (concr F) ctx str n) (f_copy malloc F ctx (take (Z.to_nat n) str)).
Proof.
  intros Hn F' ptr E. apply f_copy_block in E as (E & Hp & Hs & _).
  assert (Z.of_nat (length (take (Z.to_nat n) str)) = n) as Hlen by (rewrite length_take; lia).
  destruct (print_implements malloc ctx _ F' ptr E) as [Hr H1]. split; [|done]. rewrite Hlen in *.
  unfold copy_string, ralloc_array_size, array_overflows. cbn [Z.eqb mbind option_bind].
  rewrite u32_small by lia. rewrite Z.div_1_r, (proj2 (Z.ltb_ge _ _)) by (unfold SIZE_MAX; lia).
  rewrite Z.mul_1_l. unfold u64. rewrite Z.mod_small by lia.
  destruct (ralloc_size _ _ _ _) as [[m p]|]; [|done]. cbn [mbind option_bind] in Hr |- *.
  rewrite read_prefix by lia. cbn [mbind option_bind].
  destruct (Z.eqb_spec p 0) as [|Hp0]; [congruence|]. rewrite <- poke_app, Hlen in Hr. cbn in Hr.
  destruct (poke m p 0 _) as [m1|]; [|done]. cbn in *. by rewrite Z.add_0_l in Hr.
Qed.

(** A store behind the first bytes of a block that was resized. *)
Lemma tail_implements realloc ptr start text :
  implements ('(m, both) ← resize realloc (concr F) ptr (u64 (start + Z.of_nat (length text) + 1));
              if both =? 0 then Some (m, 0) else m ← poke m both start (text ++ [0]); Some (m, both))
    (f_tail realloc F ptr start text).
Proof.
  intros F' x. unfold f_tail. destruct (F !! get_header ptr) as [n|] eqn:Hn; [|done]. cbn [mbind option_bind].
  destruct (_ && _) eqn:E; [|done]. cbn [negb]. apply andb_prop in E as [E1%Z.leb_le E2%Z.leb_le].
  destruct (f_resize _ _ _ _) as [[F1 p]|] eqn:E; [|done]. cbn. intros [= <- <-].
  assert (u64 (start + Z.of_nat (length text) + 1) = start + Z.of_nat (length text) + 1) as ->.
  { unfold f_resize in E. rewrite Hn in E. cbn in E. destruct (size_ok _) eqn:Es; [|done]. unfold size_ok in Es.
    apply andb_prop in Es as [? Es%Z.ltb_lt]. unfold u64, sizeof_ralloc_header in *. apply Z.mod_small. lia. }
  destruct (resize_implements F H realloc ptr _ _ _ E) as [-> H1]. cbn.
  destruct (Z.eqb_spec p 0) as [->|Hp]; [done|]. split; [|by apply payload_wf].
  destruct (f_resize_block F realloc ptr n _ F1 p Hn E Hp) as (n' & Hn' & Hlen & Ht).
  rewrite (poke_concr F1 p start _ n' (take (Z.to_nat start) (fn_data n) ++ text ++ [0])); [done|done|].
  rewrite write_bytes_Some by (rewrite ?length_app; cbn; lia).
  rewrite (drop_ge (fn_data n')), app_nil_r by (rewrite length_app; cbn; lia). do 2 f_equal.
  apply (f_equal (take (Z.to_nat start))) in Ht. rewrite !take_take in Ht.
  by rewrite Nat.min_l in Ht by lia.
Qed.

Lemma f_tail_result realloc ptr start text r :
  f_tail realloc F ptr start text = Some r -> ptr <> 0 -> Z.of_nat (length text) + start + 1 < 2 ^ 64.
Proof.
  unfold f_tail. destruct (F !! get_header ptr) as [n|] eqn:Hn; [|done]. cbn [mbind option_bind].
  destruct (negb _); [done|]. unfold f_resize. rewrite Hn. cbn. destruct (size_ok _) eqn:E; [|done]. cbn.
  unfold size_ok, sizeof_ralloc_header in E. apply andb_prop in E as [_ E%Z.ltb_lt]. lia.
Qed.

(** [None] of [f_tail] for null pointers. *)
Lemma no_null_block ptr n : F !! get_header ptr = Some n -> ptr <> 0.
Proof. intros Hn ->. apply (H.(fw_pos _)) in Hn. unfold get_header, sizeof_ralloc_header in Hn. lia. Qed.

Lemma str_append_implements realloc dest str existing_length str_size :
  implements (r_string (ralloc_str_append realloc (concr F) dest str existing_length str_size))
    (f_step F (RStrAppend realloc dest str existing_length str_size)).
Proof.
  intros F' x. cbn [f_step]. destruct (read_bytes str 0 str_size) as [text|] eqn:Er; [|done]. cbn [mbind option_bind].
  destruct (f_tail _ _ _ _ _) as [[F1 p]|] eqn:E; [|done]. cbn [mbind option_bind]. intros [= <- <-].
  assert (dest <> 0) as Hd.
  { unfold f_tail in E. destruct (F !! get_header dest) eqn:Hn; [|done]. by eapply no_null_block. }
  destruct (tail_implements _ _ _ _ _ _ E) as [Hr H1]. split; [|done].
  assert (Z.of_nat (length text) = str_size) as Hl.
  { unfold read_bytes in Er. destruct (_ && _ && _) eqn:Eb; [|done]. injection Er as <-.
    apply andb_prop in Eb as [Eb Eb3%Z.leb_le]. apply andb_prop in Eb as [_ Eb2%Z.leb_le]. rewrite length_take, length_drop. lia. }
  unfold ralloc_str_append. rewrite (proj2 (Z.eqb_neq _ _)) by done. rewrite Hl in Hr.
  destruct (resize _ _ _ _) as [[m both]|]; [|done]. cbn [mbind option_bind] in *.
  destruct (both =? 0) eqn:Eb; [injection Hr as -> <-; done|]. rewrite Er. cbn [mbind option_bind].
  rewrite <- poke_app, Hl in Hr. destruct (poke m both _ text) as [m1|]; [|done]. cbn [mbind option_bind] in *.
  destruct (poke m1 both _ _); [|done]. cbn in *. injection Hr as -> ->. by rewrite Eb.
Qed.

(** Appending at the terminator is [ralloc_str_append] there. *)
Lemma cat_str_append realloc m dest str n :
  cat realloc m dest str n =
    if dest =? 0 then None else d ← bytes_at m dest; e ← strlen d; ralloc_str_append realloc m dest str e n.
Proof.
  unfold cat, ralloc_str_append. destruct (dest =? 0); [done|]. destruct (bytes_at m dest) as [d|]; [|done]. cbn.
  by destruct (strlen d).
Qed.

Lemma bytes_at_concr ptr n : F !! get_header ptr = Some n -> bytes_at (concr F) ptr = Some (fn_data n).
Proof. intros Hn. unfold bytes_at. by rewrite (concr_present _ _ _ Hn). Qed.

Lemma cat_implements realloc dest str n :
  0 <= n <= Z.of_nat (length str) ->
  implements (r_string (cat realloc (concr F) dest str n)) (r_string (f_append realloc F dest (take (Z.to_nat n) str))).
Proof.
  intros Hn F' x. unfold f_append. destruct (F !! get_header dest) as [nd|] eqn:Hd; [|done]. cbn [mbind option_bind].
  destruct (strlen (fn_data nd)) as [e|] eqn:Ee; [|done]. cbn [mbind option_bind]. intros E.
  pose proof (str_append_implements realloc dest str e n F' x) as Hs. rewrite cat_str_append.
  rewrite (proj2 (Z.eqb_neq _ _)) by (by eapply no_null_block). rewrite (bytes_at_concr _ _ Hd). cbn [mbind option_bind].
  rewrite Ee. cbn [mbind option_bind]. apply Hs. cbn [f_step]. rewrite read_prefix by done. cbn [mbind option_bind].
  destruct (f_tail _ _ _ _ _) as [[F1 p]|]; [|done]. cbn in *. by destruct (p =? 0).
Qed.

Lemma vasprintf_implements malloc ctx text :
  Z.of_nat (length text) < 2 ^ 31 ->
  implements (ralloc_vasprintf malloc (concr F) ctx text) (f_print malloc F ctx text).
Proof.
  intros Hl F' x E. apply print_implements in E. unfold ralloc_vasprintf, printf_length.
  rewrite (proj2 (Z.ltb_lt _ _)) by done. cbn [mbind option_bind]. unfold u64. rewrite Z.mod_small by lia.
  destruct (ralloc_size _ _ _ _) as [[m p]|]; [|by destruct E]. cbn [mbind option_bind] in *.
  unfold vsnprintf. rewrite (proj2 (Z.eqb_neq (_ + 1) 0)) by lia. by rewrite take_ge by lia.
Qed.

Lemma rewrite_tail_implements malloc realloc str start text :
  implements (ralloc_vasprintf_rewrite_tail malloc realloc (concr F) str start text)
    (f_rewrite malloc realloc F str start text).
Proof.
  intros F' x. unfold f_rewrite, ralloc_vasprintf_rewrite_tail.
  destruct (Z.leb_spec (2 ^ 31) (Z.of_nat (length text))) as [|Hl]; [done|]. destruct (Z.eqb_spec str 0) as [->|Hs].
  - destruct (f_copy _ _ _ _) as [[F1 p]|] eqn:E; [|done]. cbn [mbind option_bind].
    apply f_copy_block in E as (E & Hp & _ & Hd). destruct (vasprintf_implements malloc 0 text Hl _ _ E) as [-> H1].
    cbn [mbind option_bind]. destruct (F1 !! get_header p) as [n|] eqn:Hn; [|done]. cbn in Hd. injection Hd as Hd.
    unfold bytes_at. rewrite (concr_present _ _ _ Hn). cbn. rewrite Hd.
    destruct (strlen (text ++ [0])); [|done]. cbn. by intros [= <- <-].
  - destruct (f_tail _ _ _ _ _) as [[F1 p]|] eqn:E; [|done]. cbn [mbind option_bind]. intros [= <- <-].
    pose proof (f_tail_result _ _ _ _ _ E Hs) as Hb.
    assert (0 <= start) as H0.
    { unfold f_tail in E. destruct (F !! _); [|done]. cbn in E. by destruct (Z.leb_spec 0 start). }
    destruct (tail_implements _ _ _ _ _ _ E) as [Hr H1]. split; [|done].
    unfold printf_length. rewrite (proj2 (Z.ltb_lt _ _)) by done. cbn [mbind option_bind].
    destruct (resize _ _ _ _) as [[m both]|]; [|done]. cbn [mbind option_bind] in *.
    destruct (both =? 0) eqn:Eb; [injection Hr as -> <-; done|].
    unfold vsnprintf, u64. rewrite !Z.mod_small, (proj2 (Z.eqb_neq (_ + 1) 0)), take_ge by lia.
    destruct (poke m both start _) as [m1|]; [|done]. cbn in *. injection Hr as -> ->. by rewrite Eb.
Qed.

Lemma append_implements malloc realloc str text :
  implements (r_string (ralloc_vasprintf_append malloc realloc (concr F) str text))
    (f_step F (RAsprintfAppend malloc realloc str text)).
Proof.
  intros F' x. cbn [f_step]. unfold ralloc_vasprintf_append.
  assert (forall e, (if str =? 0 then Some 0 else n ← F !! get_header str; strlen (fn_data n)) = Some e ->
    (if str =? 0 then Some 0 else d ← bytes_at (concr F) str; strlen d) = Some e) as He.
  { intros e. destruct (str =? 0); [done|]. destruct (F !! get_header str) as [n|] eqn:Hn; [|done].
    by rewrite (bytes_at_concr _ _ Hn). }
  destruct (if str =? 0 then _ else _) as [e|]; [|done]. rewrite (He e eq_refl). cbn [mbind option_bind].
  destruct (f_rewrite _ _ _ _ _ _) as [[F1 [[s t] ok]]|] eqn:E; [|done]. cbn. intros [= <- <-].
  destruct (rewrite_tail_implements _ _ _ _ _ _ _ E) as [-> H1]. done.
Qed.

End Strings.

(** ** All calls *)

Lemma rewrite_implements r s : implements r s -> implements (r_tail r) (r_tail s).
Proof.
  intros Hr F' x. unfold r_tail. destruct s as [[F1 [[str start] ok]]|] eqn:E; [|done]. cbn. intros [= <- <-].
  destruct (Hr F1 (str, start, ok)) as [-> H1]; done.
Qed.

Lemma step_implements F op : fwf F -> implements (r_step (concr F) op) (f_step F op).
Proof.
  intros H. destruct op.
  - by apply pointer_implements, ralloc_size_implements.
  - by apply pointer_implements, rzalloc_size_implements.
  - apply pointer_implements, (array_implements F H _ _ (fun n => ralloc_size malloc (concr F) ctx n)
      (ralloc_array_size malloc (concr F) ctx sz)); [|done]. intros n. by apply ralloc_size_implements.
  - apply pointer_implements, (array_implements F H _ _ (fun n => rzalloc_size malloc (concr F) ctx n)
      (rzalloc_array_size malloc (concr F) ctx sz)); [|done]. intros n. by apply rzalloc_size_implements.
  - by apply pointer_implements, reralloc_size_implements.
  - apply pointer_implements, (array_implements F H _ _ (fun n => reralloc_size malloc realloc (concr F) ctx ptr n)
      (reralloc_array_size malloc realloc (concr F) ctx ptr sz)); [|done]. intros n. by apply reralloc_size_implements.
  - by apply free_implements.
  - by apply steal_implements.
  - by apply adopt_implements.
  - by apply parent_implements.
  - by apply set_destructor_implements.
  - by apply write_implements.
  - by apply read_implements.
  - destruct str as [str|]; cbn [r_step f_step ralloc_strdup]; [|by intros F' x [= <- <-]].
    destruct (strlen str) as [n|] eqn:E; [|done]. apply strlen_bound in E. apply pointer_implements, copy_implements; [done|lia].
  - destruct str as [str|]; cbn [r_step f_step ralloc_strndup]; [|by intros F' x [= <- <-]].
    destruct (Z.ltb_spec max 0); [done|]. destruct (strnlen str max) as [n|] eqn:E; [|done].
    apply strnlen_bound in E; [|done]. apply pointer_implements, copy_implements; [done|lia].
  - cbn [r_step f_step]. unfold ralloc_strcat. destruct (strlen str) as [n|] eqn:E; [|done]. apply strlen_bound in E.
    apply cat_implements; [done|lia].
  - cbn [r_step f_step]. unfold ralloc_strncat. destruct (Z.ltb_spec n 0); [done|].
    destruct (strnlen str n) as [k|] eqn:E; [|done]. apply strnlen_bound in E; [|done]. apply cat_implements; [done|lia].
  - by apply str_append_implements.
  - cbn [r_step f_step]. destruct (Z.leb_spec (2 ^ 31) (Z.of_nat (length text))); [done|].
    apply pointer_implements. by apply vasprintf_implements.
  - by apply rewrite_implements, rewrite_tail_implements.
  - by apply append_implements.
Qed.
