(* ===== verification/RallocTheorems.v ===== *)
(** * Memory contexts are forests

    The main theorem on memory contexts: clients cannot tell the headers in memory from a forest of blocks. *)
From stdpp Require Import gmap relations.
From S2P Require Import Prelude Bytes Ralloc RallocForest RallocFree RallocSpec RallocSteps.

Lemma fwf_empty : fwf ∅.
Proof.
  assert (forall a, kids ∅ a = []) as Hk by (intros a; unfold kids; by rewrite lookup_empty).
  constructor; try by (intros; rewrite lookup_empty in *).
  - intros a. rewrite Hk. constructor.
  - intros a c. rewrite Hk. by intros ?%elem_of_nil.
  - intros a. constructor. intros c. unfold child_rel. rewrite Hk. by intros ?%elem_of_nil.
Qed.

Lemma concr_empty : concr ∅ = ∅.
Proof. apply map_eq. intros x. by rewrite concr_lookup, !lookup_empty. Qed.

Lemma run_implements ops : forall F, fwf F -> implements (r_run r_step (concr F) ops) (r_run f_step F ops).
Proof.
  induction ops as [|op ops IH]; intros F H F' rs; cbn; [by intros [= <- <-]|].
  destruct (f_step F op) as [[F1 r]|] eqn:E; [|done]. cbn.
  destruct (step_implements F op H F1 r E) as [-> H1]. cbn.
  destruct (r_run f_step F1 ops) as [[F2 rs2]|] eqn:E2; [|done]. cbn. intros [= <- <-].
  destruct (IH F1 H1 F2 rs2 E2) as [-> H2]. done.
Qed.

(** C7: Whatever valid calls of the allocator a client makes - allocating, with or without clearing, arrays,
    resizing to the same or another address, freeing, stealing, adopting, asking for the parent, setting destructors,
    reading and writing blocks, copying, appending and printing strings - memory does what a forest does in which a new block is the first child of
    its context, freeing a block calls the destructors of all blocks below it in postorder and deletes exactly
    these blocks, moving, stealing and adopting keep the contents and what is below, and a
    string function gives the text it promises, with its terminator, or leaves the blocks alone when there is no memory.  The headers are always
    those of the forest, parents and lists of children agree, no block is below itself, and the blocks below
    each block form a finite list without repetition. *)
Theorem ralloc_refines_forest ops F' rs :
  r_run f_step ∅ ops = Some (F', rs) ->
  r_run r_step ∅ ops = Some (concr F', rs) /\ fwf F' /\
  forall a n, F' !! a = Some n ->
    exists l, f_below (size F') F' a = Some l /\ NoDup l /\ forall x, x ∈ l <-> under F' a x.
Proof.
  intros E. destruct (run_implements ops ∅ fwf_empty F' rs E) as [Hr H]. rewrite concr_empty in Hr.
  split_and!; [done|done|]. intros a n. by apply f_below_spec.
Qed.

(** An allocator that gives blocks at [a], and one that moves to [a]. *)
Definition malloc_at (a : Z) : malloc_result := fun n => Some (a, replicate (Z.to_nat n) 7).
Definition realloc_at (a : Z) : realloc_result :=
  fun _ data n => Some (a, take (Z.to_nat (n - sizeof_ralloc_header)) (data ++ replicate (Z.to_nat n) 9)).

(** Two children, one of them moved and given a child, then moved below a second context and freed. *)
Definition ralloc_demo : list r_op :=
  [RAlloc (malloc_at 1000) 0 2; RZalloc (malloc_at 2000) 1048 3; RArray (malloc_at 3000) 1048 2 2;
   RSetDestructor 2048 77; RWrite 2048 1 [5]; RRealloc (malloc_at 0) (realloc_at 4000) 1048 2048 5; RRead 4048;
   RZalloc (malloc_at 5000) 4048 1; RSetDestructor 5048 78; RAlloc (fun _ => None) 4048 1;
   RZarray (malloc_at 6000) 0 (2 ^ 32) (2 ^ 32); RZalloc (malloc_at 6000) 0 0; RSteal 6048 4048; RParent 4048;
   RAdopt 3048 6048; RParent 4048; RFree 3048; RRead 1048;
   RStrdup (malloc_at 2000) 1048 (Some [65; 66; 0; 1]); RStrcat (realloc_at 3000) 2048 [67; 0];
   RStrncat (fun _ _ _ => None) 3048 [68; 68; 0] 1; RAsprintfAppend (malloc_at 0) (realloc_at 3000) 3048 [69; 70];
   RRead 3048; RRewriteTail (malloc_at 2000) (realloc_at 0) 0 0 [71]; RParent 3048].

Lemma ralloc_refines_forest_witness :
  exists F', r_run r_step ∅ ralloc_demo = Some (concr F',
    [RPtr 1048; RPtr 2048; RPtr 3048; RVoid; RVoid; RPtr 4048; RBytes [0; 5; 0; 9; 9];
     RPtr 5048; RVoid; RPtr 0; RPtr 0; RPtr 6048; RVoid; RPtr 6048; RVoid; RPtr 3048;
     RCalls [(78, 5048); (77, 4048)]; RBytes [7; 7];
     RPtr 2048; RString 3048 true; RString 3048 false; RString 3048 true; RBytes [65; 66; 67; 69; 70; 0];
     RTail 2048 1 true; RPtr 1048]) /\ fwf F'.
Proof.
  exists (from_option fst ∅ (r_run f_step ∅ ralloc_demo)).
  match goal with |- r_run _ _ _ = Some (_, ?rs) /\ _ =>
    assert (r_run f_step ∅ ralloc_demo = Some (from_option fst ∅ (r_run f_step ∅ ralloc_demo), rs)) as E
      by (vm_compute; reflexivity) end.
  destruct (ralloc_refines_forest _ _ _ E) as (Hr & Hf & _). split; [exact Hr|exact Hf].
Defined.
