(* ===== verification/LinearAlloc.v ===== *)
(** * The linear allocator ([src/util/ralloc.c])

    Short-lived allocations from buffers that are blocks of a memory context.  A pointer may now
    point into a block, and an access is found in the block that has all its bytes.  The header of a
    buffer, [struct linear_header], is in the first bytes of its block:
    the offset of the unused bytes, the size of the buffer, the memory context, the next buffer, and the latest
    buffer. *)
From stdpp Require Import gmap.
From S2P Require Import Prelude Bytes Ralloc RallocString.

Definition MIN_LINEAR_BUFSIZE : Z := 2048.
Definition SUBALLOC_ALIGNMENT : Z := 8.
Definition sizeof_linear_header : Z := 32.
Definition sizeof_linear_size_chunk : Z := 8.

(** The members of [struct linear_header]. *)
Definition lh_offset : Z := 0.
Definition lh_size : Z := 4.
Definition lh_ralloc_parent : Z := 8.
Definition lh_next : Z := 16.
Definition lh_latest : Z := 24.

(** ** Memory *)

(** The block with the [n] bytes at [a]. *)
Definition in_block (a n : Z) (b : Z * ralloc_header) : bool :=
  (PTR_FROM_HEADER b.1 <=? a) && (a + n <=? PTR_FROM_HEADER b.1 + Z.of_nat (length (rh_data b.2))).

Definition block_with (m : rheap) (a n : Z) : option (Z * ralloc_header) := List.find (in_block a n) (map_to_list m).

Definition mem_read (m : rheap) (a n : Z) : option (list Z) :=
  if n =? 0 then Some [] else
  '(info, h) ← block_with m a n; read_bytes (rh_data h) (a - PTR_FROM_HEADER info) n.

Definition mem_write (m : rheap) (a : Z) (bs : list Z) : option rheap :=
  if Z.of_nat (length bs) =? 0 then Some m else
  '(info, h) ← block_with m a (Z.of_nat (length bs)); poke m (PTR_FROM_HEADER info) (a - PTR_FROM_HEADER info) bs.

Definition load32 (m : rheap) (a : Z) : option Z := bs ← mem_read m a 4; read32 bs 0.
Definition load64 (m : rheap) (a : Z) : option Z := bs ← mem_read m a 8; read64 bs 0.
Definition store32 (m : rheap) (a x : Z) : option rheap := mem_write m a (le32 x).
Definition store64 (m : rheap) (a x : Z) : option rheap := mem_write m a (le64 x).

(** The bytes at [a] up to the end of the block. *)
Definition bytes_from (m : rheap) (a : Z) : option (list Z) :=
  '(info, h) ← block_with m a 1; Some (drop (Z.to_nat (a - PTR_FROM_HEADER info)) (rh_data h)).

(** ** Allocation *)

Definition ALIGN_POT (x y : Z) : Z := Z.land (u64 (x + y - 1)) (Z.lnot (y - 1)).

Definition LINEAR_PARENT_TO_HEADER (parent : Z) : Z := parent - sizeof_linear_size_chunk - sizeof_linear_header.

Definition create_linear_node (malloc : malloc_result) (m : rheap) (ralloc_ctx min_size : Z) : option (rheap * Z) :=
  let min_size := u32 (min_size + sizeof_linear_size_chunk) in
  let min_size := if min_size <? MIN_LINEAR_BUFSIZE then MIN_LINEAR_BUFSIZE else min_size in
  '(m, node) ← ralloc_size malloc m ralloc_ctx (u64 (sizeof_linear_header + min_size));
  if node =? 0 then Some (m, 0) else
  m ← store32 m (node + lh_offset) 0;
  m ← store32 m (node + lh_size) min_size;
  m ← store64 m (node + lh_ralloc_parent) ralloc_ctx;
  m ← store64 m (node + lh_next) 0;
  m ← store64 m (node + lh_latest) node;
  Some (m, node).

(** A new buffer after the latest one; 0 if there is no memory. *)
Definition new_latest (malloc : malloc_result) (m : rheap) (first latest size : Z) : option (rheap * Z) :=
  ralloc_parent ← load64 m (latest + lh_ralloc_parent);
  '(m, new_node) ← create_linear_node malloc m ralloc_parent size;
  if new_node =? 0 then Some (m, 0) else
  m ← store64 m (first + lh_latest) new_node;
  m ← store64 m (latest + lh_latest) new_node;
  m ← store64 m (latest + lh_next) new_node;
  Some (m, new_node).

Definition linear_alloc_child (malloc : malloc_result) (m : rheap) (parent size : Z) : option (rheap * Z) :=
  let first := LINEAR_PARENT_TO_HEADER parent in
  latest ← load64 m (first + lh_latest);
  next ← load64 m (latest + lh_next);
  if negb (next =? 0) then None else
  let size := u32 (ALIGN_POT size SUBALLOC_ALIGNMENT) in
  let full_size := u32 (sizeof_linear_size_chunk + size) in
  offset ← load32 m (latest + lh_offset);
  node_size ← load32 m (latest + lh_size);
  '(m, latest) ← (if node_size <? u32 (offset + full_size) then new_latest malloc m first latest size else Some (m, latest));
  if latest =? 0 then Some (m, 0) else
  offset ← load32 m (latest + lh_offset);
  let ptr := latest + sizeof_linear_header + offset in
  m ← store32 m ptr size;
  m ← store32 m (latest + lh_offset) (u32 (offset + full_size));
  Some (m, ptr + sizeof_linear_size_chunk).

Definition linear_alloc_parent (malloc : malloc_result) (m : rheap) (ralloc_ctx size : Z) : option (rheap * Z) :=
  if ralloc_ctx =? 0 then Some (m, 0) else
  let size := u32 (ALIGN_POT size SUBALLOC_ALIGNMENT) in
  '(m, node) ← create_linear_node malloc m ralloc_ctx size;
  if node =? 0 then Some (m, 0) else
  linear_alloc_child malloc m (node + sizeof_linear_header + sizeof_linear_size_chunk) size.

Definition linear_zalloc_child (malloc : malloc_result) (m : rheap) (parent size : Z) : option (rheap * Z) :=
  '(m, ptr) ← linear_alloc_child malloc m parent size;
  if ptr =? 0 then Some (m, ptr) else
  m ← mem_write m ptr (replicate (Z.to_nat size) 0); Some (m, ptr).

Definition linear_zalloc_parent (malloc : malloc_result) (m : rheap) (parent size : Z) : option (rheap * Z) :=
  '(m, ptr) ← linear_alloc_parent malloc m parent size;
  if ptr =? 0 then Some (m, ptr) else
  m ← mem_write m ptr (replicate (Z.to_nat size) 0); Some (m, ptr).

(** ** All buffers *)

(** The loop over the buffers from [node] on: they are freed. *)
Fixpoint free_nodes (fuel : nat) (m : rheap) (node : Z) : option (rheap * list (Z * Z)) :=
  match fuel with
  | O => None
  | S fuel =>
    if node =? 0 then Some (m, []) else
    next ← load64 m (node + lh_next);
    '(m, calls) ← ralloc_free m node;
    '(m, calls') ← free_nodes fuel m next;
    Some (m, calls ++ calls')
  end.

Definition linear_free_parent (m : rheap) (ptr : Z) : option (rheap * list (Z * Z)) :=
  if ptr =? 0 then Some (m, []) else free_nodes (S (size m)) m (LINEAR_PARENT_TO_HEADER ptr).

(** The same loop, which gives them to another context. *)
Fixpoint steal_nodes (fuel : nat) (m : rheap) (new_ralloc_ctx node : Z) : option rheap :=
  match fuel with
  | O => None
  | S fuel =>
    if node =? 0 then Some m else
    m ← ralloc_steal m new_ralloc_ctx node;
    m ← store64 m (node + lh_ralloc_parent) new_ralloc_ctx;
    next ← load64 m (node + lh_next);
    steal_nodes fuel m new_ralloc_ctx next
  end.

Definition ralloc_steal_linear_parent (m : rheap) (new_ralloc_ctx ptr : Z) : option rheap :=
  if ptr =? 0 then Some m else steal_nodes (S (size m)) m new_ralloc_ctx (LINEAR_PARENT_TO_HEADER ptr).

Definition ralloc_parent_of_linear_parent (m : rheap) (ptr : Z) : option Z :=
  load64 m (LINEAR_PARENT_TO_HEADER ptr + lh_ralloc_parent).

(** ** Resizing and strings *)

Definition linear_realloc (malloc : malloc_result) (m : rheap) (parent old new_size : Z) : option (rheap * Z) :=
  '(m, new_ptr) ← linear_alloc_child malloc m parent new_size;
  if old =? 0 then Some (m, new_ptr) else
  old_size ← load32 m (old - sizeof_linear_size_chunk);
  if (new_ptr =? 0) || (old_size =? 0) then Some (m, new_ptr) else
  bs ← mem_read m old (Z.min old_size new_size);
  m ← mem_write m new_ptr bs; Some (m, new_ptr).

Definition linear_strdup (malloc : malloc_result) (m : rheap) (parent : Z) (str : option (list Z)) : option (rheap * Z) :=
  match str with
  | None => Some (m, 0)
  | Some str =>
    n ← strlen str;
    let n := u32 n in
    '(m, ptr) ← linear_alloc_child malloc m parent (u32 (n + 1));
    if ptr =? 0 then Some (m, 0) else
    bs ← read_bytes str 0 n;
    m ← mem_write m ptr bs;
    m ← mem_write m (ptr + n) [0];
    Some (m, ptr)
  end.

(** [vsnprintf] into a buffer, as in [RallocString]. *)
Definition linear_vsnprintf (m : rheap) (ptr size : Z) (text : list Z) : option rheap :=
  if size =? 0 then Some m else mem_write m ptr (take (Z.to_nat (size - 1)) text ++ [0]).

Definition linear_vasprintf (malloc : malloc_result) (m : rheap) (parent : Z) (text : list Z) : option (rheap * Z) :=
  n ← printf_length text;
  let size := u32 (n + 1) in
  '(m, ptr) ← linear_alloc_child malloc m parent size;
  if ptr =? 0 then Some (m, ptr) else
  m ← linear_vsnprintf m ptr size text;
  Some (m, ptr).

(** The heap, [*str], [*start] and the result. *)
Definition linear_vasprintf_rewrite_tail (malloc : malloc_result) (m : rheap) (parent str start : Z) (text : list Z) :
    option (rheap * (Z * Z * bool)) :=
  if str =? 0 then
    '(m, str) ← linear_vasprintf malloc m parent text;
    d ← bytes_from m str;
    start ← strlen d;
    Some (m, (str, start, true))
  else
    new_length ← printf_length text;
    '(m, ptr) ← linear_realloc malloc m parent str (u32 (start + new_length + 1));
    if ptr =? 0 then Some (m, (str, start, false)) else
    m ← linear_vsnprintf m (ptr + start) (u64 (new_length + 1)) text;
    Some (m, (ptr, u64 (start + new_length), true)).

Definition linear_vasprintf_append (malloc : malloc_result) (m : rheap) (parent str : Z) (text : list Z) :
    option (rheap * (Z * bool)) :=
  existing_length ← (if str =? 0 then Some 0 else d ← bytes_from m str; strlen d);
  '(m, (str, _, success)) ← linear_vasprintf_rewrite_tail malloc m parent str existing_length text;
  Some (m, (str, success)).

Definition linear_cat (malloc : malloc_result) (m : rheap) (parent dest : Z) (str : list Z) (n : Z) :
    option (rheap * (Z * bool)) :=
  if dest =? 0 then None else
  d ← bytes_from m dest;
  existing_length ← strlen d;
  let existing_length := u32 existing_length in
  '(m, both) ← linear_realloc malloc m parent dest (u32 (existing_length + n + 1));
  if both =? 0 then Some (m, (dest, false)) else
  bs ← read_bytes str 0 n;
  m ← mem_write m (both + existing_length) bs;
  m ← mem_write m (both + u32 (existing_length + n)) [0];
  Some (m, (both, true)).

Definition linear_strcat (malloc : malloc_result) (m : rheap) (parent dest : Z) (str : list Z) : option (rheap * (Z * bool)) :=
  n ← strlen str; linear_cat malloc m parent dest str (u32 n).
