(* ===== verification/LinearMem.v ===== *)
(** * Blocks of a linear allocator in memory

    A forest with blocks attached below a context ([attach]), and accesses to these blocks by address. *)
From stdpp Require Import gmap relations.
From S2P Require Import Prelude Bytes Ralloc RallocForest RallocCorrect RallocMove RallocFree RallocSpec RallocSteps LinearAlloc.

(** ** Addresses *)

(** The bytes from the header of a block to its end. *)
Definition extent_ok (a b : Z) (m n : fnode) : Prop :=
  PTR_FROM_HEADER a + Z.of_nat (length (fn_data m)) <= b \/ PTR_FROM_HEADER b + Z.of_nat (length (fn_data n)) <= a.

(** No two blocks overlap. *)
Definition apart (F : forest) : Prop :=
  forall a b m n, F !! a = Some m -> F !! b = Some n -> a <> b -> extent_ok a b m n.

Lemma block_with_concr F a n x len :
  apart F -> F !! a = Some n -> 0 < len ->
  PTR_FROM_HEADER a <= x -> x + len <= PTR_FROM_HEADER a + Z.of_nat (length (fn_data n)) ->
  block_with (concr F) x len = Some (a, header_of F a n).
Proof.
  intros Hap Ha Hl H1 H2. unfold block_with. destruct (List.find _ _) as [[b h]|] eqn:E.
  - apply List.find_some in E as [Hin Hb]. apply list_elem_of_In, elem_of_map_to_list in Hin.
    rewrite concr_lookup in Hin. destruct (F !! b) as [nb|] eqn:Eb; [|done]. injection Hin as <-.
    unfold in_block in Hb. cbn in Hb. apply andb_prop in Hb as [Hb1%Z.leb_le Hb2%Z.leb_le].
    destruct (decide (b = a)) as [->|Hne]; [by assert (nb = n) as -> by congruence|]. exfalso.
    destruct (Hap b a nb n Eb Ha Hne) as [Hx|Hx]; unfold PTR_FROM_HEADER, sizeof_ralloc_header in *; lia.
  - exfalso. assert (in_block x len (a, header_of F a n) = true) as Hb.
    { unfold in_block. cbn. by rewrite (proj2 (Z.leb_le _ _)), (proj2 (Z.leb_le _ _)) by lia. }
    rewrite (List.find_none _ _ E (a, header_of F a n)) in Hb; [done|].
    by apply list_elem_of_In, elem_of_map_to_list, concr_present.
Qed.

(** Reading and writing at an offset of a block. *)
Lemma mem_read_concr F a n o len bs :
  apart F -> F !! a = Some n -> read_bytes (fn_data n) o len = Some bs ->
  mem_read (concr F) (PTR_FROM_HEADER a + o) len = Some bs.
Proof.
  intros Hap Ha Hr. unfold mem_read. unfold read_bytes in Hr. destruct (_ && _ && _) eqn:E; [|done].
  apply andb_prop in E as [E E3%Z.leb_le]. apply andb_prop in E as [E1%Z.leb_le E2%Z.leb_le].
  destruct (Z.eqb_spec len 0) as [->|]; [done|]. rewrite (block_with_concr F a n) by (done || lia). cbn.
  replace (PTR_FROM_HEADER a + o - PTR_FROM_HEADER a) with o by lia. unfold read_bytes.
  by rewrite (proj2 (Z.leb_le _ _)), (proj2 (Z.leb_le _ _)), (proj2 (Z.leb_le _ _)) by lia.
Qed.

Lemma mem_write_concr F a n o bs d :
  apart F -> F !! a = Some n -> write_bytes (fn_data n) o bs = Some d ->
  mem_write (concr F) (PTR_FROM_HEADER a + o) bs = Some (concr (alter (set_fn_data d) a F)).
Proof.
  intros Hap Ha Hw. unfold mem_write. pose proof (write_bytes_inv _ _ _ _ Hw) as (H1 & H2 & Hd).
  destruct (Z.eqb_spec (Z.of_nat (length bs)) 0) as [E|E].
  - assert (bs = []) as -> by (by destruct bs). f_equal. f_equal. symmetry. apply map_eq. intros x.
    rewrite lookup_alter_case. case_decide; [subst x|done]. rewrite Ha. cbn. f_equal. destruct n as [p c e t]. unfold set_fn_data. cbn.
    f_equal. rewrite Hd. cbn. rewrite Nat.add_0_r. apply take_drop.
  - rewrite (block_with_concr F a n) by (done || lia). cbn.
    replace (PTR_FROM_HEADER a + o - PTR_FROM_HEADER a) with o by lia.
    rewrite (poke_concr F _ o bs n d); [by rewrite get_header_ptr|by rewrite get_header_ptr|done].
Qed.

Lemma bytes_from_concr F a n o :
  apart F -> F !! a = Some n -> 0 <= o < Z.of_nat (length (fn_data n)) ->
  bytes_from (concr F) (PTR_FROM_HEADER a + o) = Some (drop (Z.to_nat o) (fn_data n)).
Proof.
  intros Hap Ha Ho. unfold bytes_from. rewrite (block_with_concr F a n) by (done || lia). cbn.
  by replace (PTR_FROM_HEADER a + o - PTR_FROM_HEADER a) with o by lia.
Qed.

(** Contents of the same length stay apart. *)
Lemma apart_alter F a n d :
  apart F -> F !! a = Some n -> length d = length (fn_data n) -> apart (alter (set_fn_data d) a F).
Proof.
  intros Hap Ha Hd b c m k Hb Hc Hne.
  assert (forall x y, alter (set_fn_data d) a F !! x = Some y -> exists z, F !! x = Some z /\ length (fn_data z) = length (fn_data y)) as H.
  { intros x y. rewrite lookup_alter_case. case_decide; [subst; rewrite Ha|by eauto]. cbn. intros [= <-]. by exists n. }
  destruct (H b m Hb) as (m' & Hm' & E1). destruct (H c k Hc) as (k' & Hk' & E2).
  unfold extent_ok. rewrite <- E1, <- E2. by apply (Hap b c m' k').
Qed.

(** ** Attached blocks *)

(** Blocks without children below [c], or as roots, the last one first. *)
Fixpoint attach (F : forest) (c : Z) (l : list (Z * list Z)) : forest :=
  match l with
  | [] => F
  | (a, d) :: l => attach (f_link (f_root F a d) c a) c l
  end.

Lemma attach_app F c l1 l2 : attach F c (l1 ++ l2) = attach (attach F c l1) c l2.
Proof. revert F. induction l1 as [|[a d] l1 IH]; intros F; [done|]. apply IH. Qed.

(** The addresses are new, and the context is there. *)
Definition attachable (F : forest) (c : Z) (l : list (Z * list Z)) : Prop :=
  (c = 0 \/ exists n, F !! c = Some n) /\ NoDup l.*1 /\ forall a, a ∈ l.*1 -> 0 < a /\ F !! a = None.


Section Attach1.

Context (F : forest) (H : fwf F) (c a : Z) (d : list Z).
Context (Hc : c = 0 \/ exists n, F !! c = Some n) (Hpos : 0 < a) (Hfresh : F !! a = None).

Lemma attach1_lookup x :
  f_link (f_root F a d) c a !! x = if decide (x = a) then Some (FNode c [] 0 d)
    else if decide (x = c) then set_fn_children (cons a) <$> F !! x else F !! x.
Proof.
  pose proof (f_root_wf F H a d Hfresh Hpos) as H1.
  destruct Hc as [->|[n Hn]].
  - unfold f_link, f_root. cbn. destruct (decide (x = a)) as [->|]; [by rewrite lookup_insert_eq|].
    rewrite lookup_insert_ne by done. case_decide; [subst|done]. by rewrite H.(fw_zero _).
  - assert (c <> a) as Hne by congruence.
    assert (f_root F a d !! c = Some n) as Hc' by (unfold f_root; by rewrite lookup_insert_ne).
    assert (f_root F a d !! a = Some (FNode 0 [] 0 d)) as Ha by (unfold f_root; by rewrite lookup_insert_eq).
    rewrite (f_link_lookup _ H1 c a _ n Ha Hc' Hne). case_decide; [done|]. case_decide; [by subst; rewrite Hn|].
    unfold f_root. by rewrite lookup_insert_ne.
Qed.

Lemma attach1_wf : fwf (f_link (f_root F a d) c a).
Proof.
  pose proof (f_root_wf F H a d Hfresh Hpos) as H1. destruct Hc as [->|[n Hn]]; [done|].
  assert (c <> a) as Hne by congruence. apply (f_link_wf _ H1 c a (FNode 0 [] 0 d) n); try done.
  - unfold f_root. by rewrite lookup_insert_eq.
  - unfold f_root. by rewrite lookup_insert_ne.
  - by intros ?%f_root_under.
Qed.

End Attach1.

Lemma attachable_cons F c a d l :
  fwf F -> attachable F c ((a, d) :: l) ->
  (c = 0 \/ exists n, F !! c = Some n) /\ 0 < a /\ F !! a = None /\ attachable (f_link (f_root F a d) c a) c l.
Proof.
  intros H (Hc & Hnd & Ha). apply NoDup_cons in Hnd as [Hna Hnd]. destruct (Ha a) as [Hpos Hfresh]; [by apply elem_of_cons; left|].
  split; [done|]. split; [done|]. split; [done|]. split; [|split; [done|]].
  - destruct Hc as [|[n Hn]]; [by left|right]. rewrite attach1_lookup by (done || by right; eauto). case_decide; [by eauto|].
    rewrite decide_True, Hn by done. by eexists.
  - intros b Hb. destruct (Ha b) as [Hb1 Hb2]; [by apply elem_of_cons; right|]. split; [done|].
    rewrite attach1_lookup by done. rewrite decide_False by (intros ->; done). case_decide; [by rewrite Hb2|done].
Qed.

Lemma attach_wf F c l : fwf F -> attachable F c l -> fwf (attach F c l).
Proof.
  revert F. induction l as [|[a d] l IH]; intros F H Hl; [done|].
  destruct (attachable_cons F c a d l H Hl) as (Hc & Hp & Hf & Hl'). apply IH; [by apply attach1_wf|done].
Qed.

Lemma attach_lookup F c l x :
  fwf F -> attachable F c l ->
  attach F c l !! x = match (list_to_map l : gmap Z (list Z)) !! x with
                      | Some d => Some (FNode c [] 0 d)
                      | None => if decide (x = c) then set_fn_children (app (rev l.*1)) <$> F !! x else F !! x
                      end.
Proof.
  revert F. induction l as [|[a d] l IH]; intros F H Hl.
  - cbn. rewrite lookup_empty. case_decide; [|done]. by destruct (F !! x) as [[]|].
  - pose proof Hl as (_ & Hnd & _). apply NoDup_cons in Hnd as [Hna _].
    destruct (attachable_cons F c a d l H Hl) as (Hc & Hp & Hf & Hl'). cbn [attach].
    rewrite (IH _ (attach1_wf F H c a d Hc Hp Hf) Hl'). rewrite (attach1_lookup F H c a d Hc Hp Hf).
    destruct (decide (x = a)) as [->|Hx].
    + cbn. rewrite lookup_insert_eq. assert ((list_to_map l : gmap Z (list Z)) !! a = None) as ->.
      { apply not_elem_of_list_to_map_1. done. }
      rewrite decide_False; [done|]. intros ->. destruct Hc as [->|[n Hn]]; [lia|congruence].
    + cbn. rewrite lookup_insert_ne by done. destruct (_ !! x); [done|]. case_decide; [|done].
      destruct (F !! x) as [[]|]; [|done]. cbn. unfold set_fn_children. cbn. by rewrite <- app_assoc.
Qed.

(** A block in the list. *)
Lemma list_to_map_mid (l1 l2 : list (Z * list Z)) a d x :
  NoDup (l1 ++ (a, d) :: l2).*1 ->
  (list_to_map (l1 ++ (a, d) :: l2) : gmap Z (list Z)) !! x =
    if decide (x = a) then Some d else (list_to_map (l1 ++ l2) : gmap Z (list Z)) !! x.
Proof.
  intros Hnd. rewrite (list_to_map_proper (l1 ++ (a, d) :: l2) ((a, d) :: l1 ++ l2)); [|done|].
  - cbn. case_decide; [subst; by rewrite lookup_insert_eq|by rewrite lookup_insert_ne].
  - symmetry. apply Permutation_middle.
Qed.

Lemma attachable_mid F c l1 a d d' l2 : attachable F c (l1 ++ (a, d) :: l2) -> attachable F c (l1 ++ (a, d') :: l2).
Proof. unfold attachable. rewrite !fmap_app. done. Qed.

Lemma attachable_without F c l1 a d l2 :
  attachable F c (l1 ++ (a, d) :: l2) -> attachable F c (l1 ++ l2) /\ a ∉ (l1 ++ l2).*1 /\ 0 < a /\ F !! a = None.
Proof.
  intros (Hc & Hnd & Ha). rewrite fmap_app in *. cbn in *.
  assert (l1.*1 ++ a :: l2.*1 ≡ₚ a :: l1.*1 ++ l2.*1) as Hp by (symmetry; apply Permutation_middle).
  rewrite Hp in Hnd. apply NoDup_cons in Hnd as [Hna Hnd]. split; [|split; [done|]].
  - split; [done|]. rewrite fmap_app. split; [done|]. intros b Hb. apply Ha. rewrite Hp. apply elem_of_cons. by right.
  - apply Ha. rewrite Hp. apply elem_of_cons. by left.
Qed.

Lemma list_to_map_absent (l : list (Z * list Z)) a : a ∉ l.*1 -> (list_to_map l : gmap Z (list Z)) !! a = None.
Proof. apply not_elem_of_list_to_map_1. Qed.

Section Mid.

Context (F : forest) (H : fwf F) (c : Z) (l1 l2 : list (Z * list Z)) (a : Z) (d : list Z).
Context (Hl : attachable F c (l1 ++ (a, d) :: l2)).

Lemma attach_mid_lookup : attach F c (l1 ++ (a, d) :: l2) !! a = Some (FNode c [] 0 d).
Proof. rewrite attach_lookup, list_to_map_mid, decide_True by (done || apply Hl). done. Qed.

Lemma attach_set d' : alter (set_fn_data d') a (attach F c (l1 ++ (a, d) :: l2)) = attach F c (l1 ++ (a, d') :: l2).
Proof.
  pose proof (attachable_mid F c l1 a d d' l2 Hl) as Hl'. apply map_eq. intros x.
  rewrite lookup_alter_case, !attach_lookup, !list_to_map_mid by (done || apply Hl || apply Hl').
  destruct (decide (x = a)); [done|]. by rewrite !fmap_app.
Qed.

Lemma attach_mid_c : a <> c.
Proof.
  destruct (attachable_without F c l1 a d l2 Hl) as (_ & _ & Hp & Hf). intros E. destruct Hl as [[?|[n Hn]] _]; [lia|congruence].
Qed.

(** Without its parent. *)
Lemma attach_unlink : f_unlink (attach F c (l1 ++ (a, d) :: l2)) a = f_root (attach F c (l1 ++ l2)) a d.
Proof.
  pose proof (attachable_without F c l1 a d l2 Hl) as (Hl' & Hna & Hp & Hf). pose proof attach_mid_c as Hac.
  pose proof (attach_wf F c _ H Hl) as Hw. apply map_eq. intros x.
  rewrite (f_unlink_lookup _ Hw a _ attach_mid_lookup). cbn [fn_parent set_fn_parent fn_children fn_destructor fn_data].
  unfold f_root. destruct (decide (x = a)) as [->|Hx]; [by rewrite lookup_insert_eq|]. rewrite lookup_insert_ne by done.
  rewrite !attach_lookup, list_to_map_mid, (decide_False (P := x = a)) by (done || apply Hl).
  destruct (_ !! x) as [e|] eqn:E.
  - destruct (decide (x = c)) as [->|]; [|done]. exfalso. apply elem_of_list_to_map_2, list_elem_of_fmap_2 with (f := fst) in E.
    destruct Hl' as (Hc & _ & Hn). destruct (Hn c E) as [Hc1 Hc2]. destruct Hc as [?|[n Hn']]; [lia|congruence].
  - destruct (decide (x = c)) as [->|]; [|done]. destruct (F !! c) as [n|] eqn:Ec; [|done]. cbn. f_equal.
    unfold set_fn_children. cbn. f_equal. rewrite !fmap_app. cbn. rewrite rev_split, rev_app_distr, <- !app_assoc. cbn.
    apply without_split; [|intros [?|Hk]%elem_of_app].
    + rewrite elem_of_rev. intros Hi. apply Hna. rewrite fmap_app. apply elem_of_app. by right.
    + rewrite fmap_app in Hna. apply Hna, elem_of_app. left. by rewrite <- elem_of_rev.
    + assert (a ∈ kids F c) as Hk' by (unfold kids; by rewrite Ec).
      apply kids_present in Hk' as (m & Hm & _); [congruence|done].
Qed.

(** Freed. *)
Lemma attach_free : f_free (attach F c (l1 ++ (a, d) :: l2)) a = Some (attach F c (l1 ++ l2), []).
Proof.
  pose proof (attachable_without F c l1 a d l2 Hl) as (Hl' & Hna & Hp & Hf). unfold f_free. rewrite attach_unlink.
  set (G := attach F c (l1 ++ l2)). assert (G !! a = None) as Hg.
  { unfold G. rewrite attach_lookup, list_to_map_absent, decide_False by (done || apply attach_mid_c). done. }
  assert (f_root G a d !! a = Some (FNode 0 [] 0 d)) as Ha by (unfold f_root; by rewrite lookup_insert_eq).
  destruct (size (f_root G a d)) as [|k] eqn:Es.
  { apply map_size_empty_inv in Es. by rewrite Es in Ha. }
  cbn [f_below]. assert (kids (f_root G a d) a = []) as -> by (unfold kids; by rewrite Ha). cbn.
  unfold destructor_calls. cbn. rewrite Ha. cbn. do 2 f_equal. unfold f_root. by apply delete_insert_id.
Qed.

End Mid.


(** A block moves from one context to the end of the list of another. *)
Section Steal.

Context (G : forest) (H : fwf G) (c : Z) (m : list (Z * list Z)) (Hm : attachable G c m) (a : Z) (Hac : a <> c).

Lemma unlink_attach n : G !! a = Some n -> f_unlink (attach G c m) a = attach (f_unlink G a) c m.
Proof.
  intros Ha. pose proof (attach_wf G c m H Hm) as Hw. pose proof (f_unlink_wf G H a n Ha) as Hw'.
  assert (a ∉ m.*1) as Hnm by (intros Hi; destruct Hm as (_ & _ & Hn); destruct (Hn a Hi); congruence).
  assert (attach G c m !! a = Some n) as Ha' by (by rewrite attach_lookup, list_to_map_absent, decide_False).
  assert (attachable (f_unlink G a) c m) as Hm'.
  { destruct Hm as (Hc & Hnd & Hn). split; [|split; [done|]].
    - destruct Hc as [|[k Hk]]; [by left|right]. rewrite (f_unlink_lookup G H a n Ha), decide_False, Hk by done.
      case_decide; by eexists.
    - intros b Hb. destruct (Hn b Hb) as [Hb1 Hb2]. split; [done|].
      rewrite (f_unlink_lookup G H a n Ha), decide_False, Hb2 by (intros ->; done). by case_decide. }
  apply map_eq. intros x. rewrite (f_unlink_lookup _ Hw a n Ha'), !attach_lookup, (f_unlink_lookup G H a n Ha) by done.
  destruct (decide (x = a)) as [->|Hx]; [by rewrite list_to_map_absent, decide_False|].
  destruct (list_to_map m !! x) as [e|] eqn:E.
  - apply elem_of_list_to_map_2, list_elem_of_fmap_2 with (f := fst) in E. destruct Hm as (_ & _ & Hn).
    destruct (Hn x E) as [Hx1 Hx2]. rewrite decide_False; [done|]. intros Ep.
    assert (a ∈ kids G (fn_parent n)) as Hk by (apply H; [done|rewrite <- Ep; lia]).
    apply kids_parent in Hk as [k Hk]. cbn in Hx2. congruence.
  - destruct (decide (x = fn_parent n)) as [Ep|]; [|by case_decide]. destruct (G !! x) as [k|]; [|by case_decide].
    cbn. destruct (decide (x = c)); [|done]. cbn. f_equal. unfold set_fn_children. cbn. f_equal. unfold without. rewrite filter_app. f_equal.
    apply without_notin. by rewrite elem_of_rev.
Qed.

Lemma attach_root d : 0 < a -> G !! a = None -> a ∉ m.*1 -> attach (f_root G a d) c m = f_root (attach G c m) a d.
Proof.
  intros Hp Ha Hnm. pose proof (f_root_wf G H a d Ha Hp) as Hw.
  assert (attachable (f_root G a d) c m) as Hm'.
  { destruct Hm as (Hc & Hnd & Hn). unfold f_root. split; [|split; [done|]].
    - destruct Hc as [|[k Hk]]; [by left|right]. rewrite lookup_insert_ne by done. by eauto.
    - intros b Hb. destruct (Hn b Hb). rewrite lookup_insert_ne by (intros ->; done). done. }
  apply map_eq. intros x. rewrite attach_lookup by done. unfold f_root. destruct (decide (x = a)) as [->|Hx].
  - by rewrite !lookup_insert_eq, list_to_map_absent, decide_False.
  - by rewrite !lookup_insert_ne, attach_lookup.
Qed.

End Steal.

Lemma attach_steal F c c' a d l m :
  fwf F -> attachable F c ((a, d) :: l) -> attachable (attach F c ((a, d) :: l)) c' m -> a <> c' ->
  f_link (f_unlink (attach (attach F c ((a, d) :: l)) c' m) a) c' a = attach (attach F c l) c' (m ++ [(a, d)]).
Proof.
  intros H Hl Hm Hne. pose proof (attach_wf F c _ H Hl) as Hw.
  pose proof (attachable_without F c [] a d l Hl) as (Hl' & Hna & Hp & Hf). pose proof (attach_mid_lookup F H c [] l a d Hl) as Ha.
  pose proof (attach_wf F c l H Hl') as Hw'. cbn [app] in *.
  assert (a ∉ m.*1) as Hnm by (intros Hi; destruct Hm as (_ & _ & Hn); destruct (Hn a Hi); congruence).
  assert (attach F c l !! a = None) as Hg.
  { rewrite attach_lookup, list_to_map_absent, decide_False by (done || apply (attach_mid_c F c [] l a d Hl)). done. }
  pose proof (attach_unlink F H c [] l a d Hl) as Eu. cbn [app] in Eu.
  rewrite (unlink_attach _ Hw c' m Hm a Hne _ Ha), Eu.
  rewrite attach_app. cbn [attach]. rewrite attach_root; try done. destruct Hm as (Hc & Hnd & Hn). split; [|split; [done|]].
  - destruct Hc as [|[k Hk]]; [by left|right]. rewrite attach_lookup in Hk |- * by done. change ((a, d) :: l) with ([] ++ (a, d) :: l) in Hk.
    rewrite list_to_map_mid, (decide_False (P := c' = a)) in Hk by (done || apply Hl). cbn [app] in Hk.
    destruct (list_to_map l !! c'); [by eauto|]. case_decide; [|by eauto]. destruct (F !! c'); [by eexists|done].
  - intros b Hb. destruct (Hn b Hb) as [Hb1 Hb2]. split; [done|]. rewrite attach_lookup in Hb2 |- * by done.
    change ((a, d) :: l) with ([] ++ (a, d) :: l) in Hb2. rewrite list_to_map_mid in Hb2 by apply Hl.
    destruct (decide (b = a)); [done|]. cbn [app] in Hb2. destruct (list_to_map l !! b); [done|].
    case_decide; [|done]. by destruct (F !! b).
Qed.
