(* ===== verification/LinearSpec.v ===== *)
(** * Arenas

    What the linear allocator promises: a list of buffers, each with a list of chunks that were handed out
    and the bytes that are left.  An allocation is a chunk of its own.  [l_step] are the calls of a
    client, [a_step] what they do to an arena below a context of a forest. *)
From stdpp Require Import gmap relations.
From S2P Require Import Prelude Bytes Ralloc RallocString RallocForest RallocSpec LinearAlloc LinearMem.

(** ** Buffers and their bytes *)

(** Four bytes that are not used, and the bytes handed out. *)
Record lchunk := LChunk { lc_pad : list Z; lc_data : list Z }.

(** The pointer to the header of the buffer, the chunks and the unused bytes. *)
Record lbuf := LBuf { lb_ptr : Z; lb_chunks : list lchunk; lb_free : list Z }.

Definition zlen (l : list Z) : Z := Z.of_nat (length l).

Definition chunk_bytes (c : lchunk) : list Z := le32 (zlen (lc_data c)) ++ lc_pad c ++ lc_data c.
Definition chunks_bytes (cs : list lchunk) : list Z := concat (chunk_bytes <$> cs).

(** The header of a buffer, then the buffer. *)
Definition buf_header (ctx next latest offset sz : Z) : list Z :=
  le32 offset ++ le32 sz ++ le64 ctx ++ le64 next ++ le64 latest.
Definition buf_bytes (ctx next latest : Z) (b : lbuf) : list Z :=
  let used := chunks_bytes (lb_chunks b) in
  buf_header ctx next latest (zlen used) (zlen used + zlen (lb_free b)) ++ used ++ lb_free b.

Definition buf_next (bs : list lbuf) : Z := zhd (lb_ptr <$> bs).

(** The blocks of the buffers after the first one, and of all. *)
Fixpoint rest_blocks (ctx : Z) (bs : list lbuf) : list (Z * list Z) :=
  match bs with
  | [] => []
  | b :: r =>
    (get_header (lb_ptr b), buf_bytes ctx (buf_next r) (if buf_next r =? 0 then lb_ptr b else buf_next r) b) :: rest_blocks ctx r
  end.

Definition arena_blocks (ctx : Z) (bs : list lbuf) : list (Z * list Z) :=
  match bs with
  | [] => []
  | b :: r => (get_header (lb_ptr b), buf_bytes ctx (buf_next r) (zlast (lb_ptr <$> bs)) b) :: rest_blocks ctx r
  end.

(** A forest, the context of the buffers and the buffers. *)
Record lstate := LState { ls_forest : forest; ls_ctx : Z; ls_bufs : list lbuf }.

(** The blocks in memory. *)
Definition ls_full (s : lstate) : forest :=
  attach (ls_forest s) (ctx_header (ls_ctx s)) (arena_blocks (ls_ctx s) (ls_bufs s)).

(** The pointer clients use for the arena: the first chunk. *)
Definition ls_parent (s : lstate) : Z :=
  match ls_bufs s with [] => 0 | b :: _ => lb_ptr b + sizeof_linear_header + sizeof_linear_size_chunk end.

Definition set_bufs (s : lstate) (bs : list lbuf) : lstate := LState (ls_forest s) (ls_ctx s) bs.

(** ** Allocation *)

Definition align8 (sz : Z) : Z := (sz + 7) / 8 * 8.

(** Sizes for which no sum of the code wraps. *)
Definition lsize_ok (sz : Z) : bool := (0 <=? sz) && (sz <=? 2 ^ 31 - 64).

(** The next chunk of a buffer, if there is room. *)
Definition carve (sz : Z) (b : lbuf) : option (lbuf * Z) :=
  let fr := lb_free b in
  if 8 + sz <=? zlen fr then
    Some (LBuf (lb_ptr b) (lb_chunks b ++ [LChunk (take 4 (drop 4 fr)) (take (Z.to_nat sz) (drop 8 fr))])
            (drop (8 + Z.to_nat sz) fr),
          lb_ptr b + sizeof_linear_header + zlen (chunks_bytes (lb_chunks b)) + sizeof_linear_size_chunk)
  else None.

(** Only the last buffer has room. *)
Fixpoint bump (sz : Z) (bs : list lbuf) : option (list lbuf * Z) :=
  match bs with
  | [] => None
  | [b] => '(b, p) ← carve sz b; Some ([b], p)
  | b :: r => '(r, p) ← bump sz r; Some (b :: r, p)
  end.

(** Memory that is not in use. *)
Definition clear (F : forest) (info len : Z) : bool :=
  bool_decide (map_Forall (fun b n =>
    PTR_FROM_HEADER info + len <= b \/ PTR_FROM_HEADER b + Z.of_nat (length (fn_data n)) <= info) F).

(** A buffer for a chunk of a size: [Some None] if there is no memory. *)
Definition new_buf (malloc : malloc_result) (F : forest) (sz : Z) : option (option lbuf) :=
  let n := sizeof_linear_header + Z.max MIN_LINEAR_BUFSIZE (sz + 8) in
  match malloc (n + sizeof_ralloc_header) with
  | None => Some None
  | Some (info, block) =>
    if fresh F info && (zlen block =? n + sizeof_ralloc_header) && clear F info n && (PTR_FROM_HEADER info <? 2 ^ 64)
    then Some (Some (LBuf (PTR_FROM_HEADER info) [] (drop (Z.to_nat (sizeof_ralloc_header + sizeof_linear_header)) block)))
    else None
  end.

Definition a_alloc (malloc : malloc_result) (s : lstate) (sz : Z) : option (lstate * Z) :=
  if negb (lsize_ok sz) then None else
  let sz := align8 sz in
  match bump sz (ls_bufs s) with
  | Some (bs, p) => Some (set_bufs s bs, p)
  | None =>
    if bool_decide (ls_bufs s = []) then None else
    nb ← new_buf malloc (ls_full s) sz;
    match nb with
    | None => Some (s, 0)
    | Some b => '(bs, p) ← bump sz (ls_bufs s ++ [b]); Some (set_bufs s bs, p)
    end
  end.

Definition a_create (malloc : malloc_result) (s : lstate) (ctx sz : Z) : option (lstate * Z) :=
  if negb (bool_decide (ls_bufs s = [])) then None else
  if ctx =? 0 then Some (s, 0) else
  if negb (block_present (ls_forest s) ctx && (ctx <? 2 ^ 64) && lsize_ok sz) then None else
  nb ← new_buf malloc (ls_forest s) (align8 sz);
  match nb with
  | None => Some (s, 0)
  | Some b => '(bs, p) ← bump (align8 sz) [b]; Some (LState (ls_forest s) ctx bs, p)
  end.

(** ** Chunks by pointer *)

Fixpoint chunks_get (base ptr : Z) (cs : list lchunk) : option (list Z) :=
  match cs with
  | [] => None
  | c :: r => if base + 8 =? ptr then Some (lc_data c) else chunks_get (base + 8 + zlen (lc_data c)) ptr r
  end.

Fixpoint chunks_update (f : list Z -> option (list Z)) (base ptr : Z) (cs : list lchunk) : option (list lchunk) :=
  match cs with
  | [] => None
  | c :: r =>
    if base + 8 =? ptr then d ← f (lc_data c); Some (LChunk (lc_pad c) d :: r)
    else r ← chunks_update f (base + 8 + zlen (lc_data c)) ptr r; Some (c :: r)
  end.

Fixpoint bufs_get (ptr : Z) (bs : list lbuf) : option (list Z) :=
  match bs with
  | [] => None
  | b :: r =>
    match chunks_get (lb_ptr b + sizeof_linear_header) ptr (lb_chunks b) with Some d => Some d | None => bufs_get ptr r end
  end.

Fixpoint bufs_update (f : list Z -> option (list Z)) (ptr : Z) (bs : list lbuf) : option (list lbuf) :=
  match bs with
  | [] => None
  | b :: r =>
    match chunks_update f (lb_ptr b + sizeof_linear_header) ptr (lb_chunks b) with
    | Some cs => Some (LBuf (lb_ptr b) cs (lb_free b) :: r)
    | None => r ← bufs_update f ptr r; Some (b :: r)
    end
  end.

(** Stores into a chunk. *)
Definition a_store (s : lstate) (ptr o : Z) (bs : list Z) : option lstate :=
  bufs ← bufs_update (fun d => write_bytes d o bs) ptr (ls_bufs s); Some (set_bufs s bufs).

(** An allocation that is filled; nothing if there is no memory. *)
Definition a_fill (r : option (lstate * Z)) (o : Z) (bs : list Z) : option (lstate * Z) :=
  '(s, p) ← r; if p =? 0 then Some (s, p) else s ← a_store s p o bs; Some (s, p).

(** A new chunk with what fits of an old one. *)
Definition a_realloc (malloc : malloc_result) (s : lstate) (old sz : Z) : option (lstate * Z) :=
  if old =? 0 then a_alloc malloc s sz else
  d ← bufs_get old (ls_bufs s);
  a_fill (a_alloc malloc s sz) 0 (take (Z.to_nat sz) d).

Definition a_print (malloc : malloc_result) (s : lstate) (text : list Z) : option (lstate * Z) :=
  a_fill (a_alloc malloc s (zlen text + 1)) 0 (text ++ [0]).

(** A new chunk with the first [start] bytes of an old one, then a string. *)
Definition a_tail (malloc : malloc_result) (s : lstate) (old start : Z) (text : list Z) : option (lstate * Z) :=
  if (old =? 0) || (start <? 0) then None else a_fill (a_realloc malloc s old (start + zlen text + 1)) start (text ++ [0]).

(** ** Clients *)

Inductive l_op :=
| LCreate (malloc : malloc_result) (ctx sz : Z)
| LZcreate (malloc : malloc_result) (ctx sz : Z)
| LAlloc (malloc : malloc_result) (sz : Z)
| LZalloc (malloc : malloc_result) (sz : Z)
| LRealloc (malloc : malloc_result) (old sz : Z)
| LStrdup (malloc : malloc_result) (str : option (list Z))
| LAsprintf (malloc : malloc_result) (text : list Z)
| LRewriteTail (malloc : malloc_result) (str start : Z) (text : list Z)
| LAsprintfAppend (malloc : malloc_result) (str : Z) (text : list Z)
| LStrcat (malloc : malloc_result) (dest : Z) (str : list Z)
| LWrite (ptr o : Z) (bs : list Z)
| LRead (ptr o n : Z)
| LSteal (new_ctx : Z)
| LParentOf
| LFree.

(** A call creates the arena only if there is none. *)
Definition l_step (st : rheap * Z) (op : l_op) : option (rheap * Z * r_result) :=
  let '(m, parent) := st in
  let pointer r := '(m, p) ← r; Some (m, parent, RPtr p) in
  match op with
  | LCreate malloc ctx sz => '(m, p) ← linear_alloc_parent malloc m ctx sz; Some (m, p, RPtr p)
  | LZcreate malloc ctx sz => '(m, p) ← linear_zalloc_parent malloc m ctx sz; Some (m, p, RPtr p)
  | LAlloc malloc sz => pointer (linear_alloc_child malloc m parent sz)
  | LZalloc malloc sz => pointer (linear_zalloc_child malloc m parent sz)
  | LRealloc malloc old sz => pointer (linear_realloc malloc m parent old sz)
  | LStrdup malloc str => pointer (linear_strdup malloc m parent str)
  | LAsprintf malloc text => pointer (linear_vasprintf malloc m parent text)
  | LRewriteTail malloc str start text =>
    '(m, (str, start, ok)) ← linear_vasprintf_rewrite_tail malloc m parent str start text; Some (m, parent, RTail str start ok)
  | LAsprintfAppend malloc str text =>
    '(m, (str, ok)) ← linear_vasprintf_append malloc m parent str text; Some (m, parent, RString str ok)
  | LStrcat malloc dest str => '(m, (dest, ok)) ← linear_strcat malloc m parent dest str; Some (m, parent, RString dest ok)
  | LWrite ptr o bs => m ← mem_write m (ptr + o) bs; Some (m, parent, RVoid)
  | LRead ptr o n => bs ← mem_read m (ptr + o) n; Some (m, parent, RBytes bs)
  | LSteal new_ctx => m ← ralloc_steal_linear_parent m new_ctx parent; Some (m, parent, RVoid)
  | LParentOf => p ← ralloc_parent_of_linear_parent m parent; Some (m, parent, RPtr p)
  | LFree => '(m, calls) ← linear_free_parent m parent; Some (m, 0, RCalls calls)
  end.

Definition a_string (dest : Z) (r : option (lstate * Z)) : option (lstate * r_result) :=
  '(s, p) ← r; Some (s, if p =? 0 then RString dest false else RString p true).

(** A null string is a new one; there must be memory for it. *)
Definition a_rewrite (malloc : malloc_result) (s : lstate) (str start : Z) (text : list Z) : option (lstate * (Z * Z * bool)) :=
  if str =? 0 then
    '(s, p) ← a_print malloc s text;
    if p =? 0 then None else n ← strlen (text ++ [0]); Some (s, (p, n, true))
  else
    '(s, p) ← a_tail malloc s str start text;
    Some (s, if p =? 0 then (str, start, false) else (p, start + zlen text, true)).

Definition a_step (s : lstate) (op : l_op) : option (lstate * r_result) :=
  match op with
  | LCreate malloc ctx sz => r_pointer (a_create malloc s ctx sz)
  | LZcreate malloc ctx sz => r_pointer (a_fill (a_create malloc s ctx sz) 0 (replicate (Z.to_nat sz) 0))
  | LAlloc malloc sz => r_pointer (a_alloc malloc s sz)
  | LZalloc malloc sz => r_pointer (a_fill (a_alloc malloc s sz) 0 (replicate (Z.to_nat sz) 0))
  | LRealloc malloc old sz => r_pointer (a_realloc malloc s old sz)
  | LStrdup malloc None => Some (s, RPtr 0)
  | LStrdup malloc (Some str) => n ← strlen str; r_pointer (a_print malloc s (take (Z.to_nat n) str))
  | LAsprintf malloc text => r_pointer (a_print malloc s text)
  | LRewriteTail malloc str start text => r_tail (a_rewrite malloc s str start text)
  | LAsprintfAppend malloc str text =>
    start ← (if str =? 0 then Some 0 else d ← bufs_get str (ls_bufs s); strlen d);
    '(s, (str, _, ok)) ← a_rewrite malloc s str start text; Some (s, RString str ok)
  | LStrcat malloc dest str =>
    n ← strlen str; d ← bufs_get dest (ls_bufs s); e ← strlen d;
    a_string dest (a_tail malloc s dest e (take (Z.to_nat n) str))
  | LWrite ptr o bs => s ← a_store s ptr o bs; Some (s, RVoid)
  | LRead ptr o n => d ← bufs_get ptr (ls_bufs s); bs ← read_bytes d o n; Some (s, RBytes bs)
  | LSteal new_ctx =>
    if bool_decide (ls_bufs s = []) then Some (s, RVoid)
    else if ctx_ok (ls_forest s) new_ctx && (new_ctx <? 2 ^ 64) then Some (LState (ls_forest s) new_ctx (ls_bufs s), RVoid)
    else None
  | LParentOf => if bool_decide (ls_bufs s = []) then None else Some (s, RPtr (ls_ctx s))
  | LFree => Some (set_bufs s [], RCalls [])
  end.

Fixpoint l_run {S} (step : S -> l_op -> option (S * r_result)) (s : S) (ops : list l_op) : option (S * list r_result) :=
  match ops with
  | [] => Some (s, [])
  | op :: ops => '(s, r) ← step s op; '(s, rs) ← l_run step s ops; Some (s, r :: rs)
  end.
