(* ===== verification/LinearSteps.v ===== *)
(** * The calls of the linear allocator are those on arenas

    What loads and stores of the headers and the chunks of an arena do, and from that the calls
    that make and grow buffers. *)
From stdpp Require Import gmap relations.
From S2P Require Import Prelude Bytes Ralloc RallocString RallocForest RallocCorrect RallocMove RallocFree RallocSpec RallocSteps LinearAlloc LinearMem LinearSpec.

(** ** Parts of lists *)

Lemma read_mid (l1 x l2 : list Z) o n : zlen l1 = o -> zlen x = n -> read_bytes (l1 ++ x ++ l2) o n = Some x.
Proof.
  intros <- <-. unfold zlen, read_bytes. rewrite !length_app. rewrite (proj2 (Z.leb_le _ _)), (proj2 (Z.leb_le _ _)), (proj2 (Z.leb_le _ _)) by lia.
  cbn [andb]. by rewrite !Nat2Z.id, drop_app_length, take_app_length.
Qed.

Lemma write_mid (l1 x y l2 : list Z) o :
  zlen l1 = o -> length x = length y -> write_bytes (l1 ++ x ++ l2) o y = Some (l1 ++ y ++ l2).
Proof.
  intros <- Hl. unfold zlen. rewrite write_bytes_Some by (rewrite ?length_app; lia). f_equal.
  rewrite Nat2Z.id, take_app_length, <- Hl, drop_app_add. by rewrite drop_app_length.
Qed.

Lemma le64_length x : length (le64 x) = 8%nat.
Proof. done. Qed.

Lemma read32_word x : 0 <= x < 2 ^ 32 -> read32 (le32 x) 0 = Some x.
Proof. intros Hx. pose proof (read32_le32 [] [] x Hx) as H. by rewrite app_nil_r in H. Qed.

Lemma read64_word x : 0 <= x < 2 ^ 64 -> read64 (le64 x) 0 = Some x.
Proof. intros Hx. pose proof (read64_le64 [] [] x Hx) as H. by rewrite app_nil_r in H. Qed.

(** ** Blocks *)

Section Block.

Context (F : forest) (H : fwf F) (c : Z) (l1 l2 : list (Z * list Z)) (a : Z) (d : list Z).
Context (Hl : attachable F c (l1 ++ (a, d) :: l2)) (Hap : apart (attach F c (l1 ++ (a, d) :: l2))).

Lemma block_write o bs d' :
  write_bytes d o bs = Some d' ->
  mem_write (concr (attach F c (l1 ++ (a, d) :: l2))) (PTR_FROM_HEADER a + o) bs = Some (concr (attach F c (l1 ++ (a, d') :: l2))) /\
  apart (attach F c (l1 ++ (a, d') :: l2)).
Proof.
  intros Hw. pose proof (attach_mid_lookup F H c l1 l2 a d Hl) as Ha. split.
  - rewrite (mem_write_concr _ a _ o bs d' Hap Ha Hw). by rewrite (attach_set F H c l1 l2 a d Hl).
  - rewrite <- (attach_set F H c l1 l2 a d Hl d'). apply (apart_alter _ _ _ _ Hap Ha). by apply write_bytes_length in Hw.
Qed.

Lemma block_read o n bs :
  read_bytes d o n = Some bs -> mem_read (concr (attach F c (l1 ++ (a, d) :: l2))) (PTR_FROM_HEADER a + o) n = Some bs.
Proof. intros Hr. apply (mem_read_concr _ a (FNode c [] 0 d)); [done|by apply attach_mid_lookup|done]. Qed.

Lemma block_load32 l3 x l4 o :
  d = l3 ++ le32 x ++ l4 -> zlen l3 = o -> 0 <= x < 2 ^ 32 ->
  load32 (concr (attach F c (l1 ++ (a, d) :: l2))) (PTR_FROM_HEADER a + o) = Some x.
Proof.
  intros E Ho Hx. unfold load32. rewrite (block_read o 4 (le32 x)) by (rewrite E; by apply read_mid).
  by apply read32_word.
Qed.

Lemma block_load64 l3 x l4 o :
  d = l3 ++ le64 x ++ l4 -> zlen l3 = o -> 0 <= x < 2 ^ 64 ->
  load64 (concr (attach F c (l1 ++ (a, d) :: l2))) (PTR_FROM_HEADER a + o) = Some x.
Proof.
  intros E Ho Hx. unfold load64. rewrite (block_read o 8 (le64 x)) by (rewrite E; by apply read_mid).
  by apply read64_word.
Qed.

End Block.

(** ** Members of the header *)

Section Members.

Context (ctx nx lt : Z) (b : lbuf).

Local Notation used := (chunks_bytes (lb_chunks b)).
Local Notation h32 := (le32 (zlen used) ++ le32 (zlen used + zlen (lb_free b))).

Lemma buf_offset_at : buf_bytes ctx nx lt b = [] ++ le32 (zlen used) ++ (le32 (zlen used + zlen (lb_free b)) ++ le64 ctx ++ le64 nx ++ le64 lt ++ used ++ lb_free b).
Proof. unfold buf_bytes, buf_header. by rewrite <- !app_assoc. Qed.

Lemma buf_size_at : buf_bytes ctx nx lt b = le32 (zlen used) ++ le32 (zlen used + zlen (lb_free b)) ++ (le64 ctx ++ le64 nx ++ le64 lt ++ used ++ lb_free b).
Proof. unfold buf_bytes, buf_header. by rewrite <- !app_assoc. Qed.

Lemma buf_ctx_at : buf_bytes ctx nx lt b = h32 ++ le64 ctx ++ (le64 nx ++ le64 lt ++ used ++ lb_free b).
Proof. unfold buf_bytes, buf_header. by rewrite <- !app_assoc. Qed.

Lemma buf_next_at : buf_bytes ctx nx lt b = (h32 ++ le64 ctx) ++ le64 nx ++ (le64 lt ++ used ++ lb_free b).
Proof. unfold buf_bytes, buf_header. by rewrite <- !app_assoc. Qed.

Lemma buf_latest_at : buf_bytes ctx nx lt b = (h32 ++ le64 ctx ++ le64 nx) ++ le64 lt ++ (used ++ lb_free b).
Proof. unfold buf_bytes, buf_header. by rewrite <- !app_assoc. Qed.

Lemma buf_bytes_length : zlen (buf_bytes ctx nx lt b) = 32 + zlen used + zlen (lb_free b).
Proof. unfold buf_bytes, buf_header, zlen. rewrite !length_app. cbn [length le32 le64 fmap list_fmap app]. lia. Qed.

End Members.

Lemma write_ctx ctx ctx' nx lt b : write_bytes (buf_bytes ctx nx lt b) lh_ralloc_parent (le64 ctx') = Some (buf_bytes ctx' nx lt b).
Proof. rewrite !buf_ctx_at. by apply write_mid. Qed.

Lemma write_next ctx nx nx' lt b : write_bytes (buf_bytes ctx nx lt b) lh_next (le64 nx') = Some (buf_bytes ctx nx' lt b).
Proof. rewrite !buf_next_at. by apply write_mid. Qed.

Lemma write_latest ctx nx lt lt' b : write_bytes (buf_bytes ctx nx lt b) lh_latest (le64 lt') = Some (buf_bytes ctx nx lt' b).
Proof. rewrite !buf_latest_at. by apply write_mid. Qed.

(** ** A new chunk *)

Lemma chunks_bytes_app cs1 cs2 : chunks_bytes (cs1 ++ cs2) = chunks_bytes cs1 ++ chunks_bytes cs2.
Proof. unfold chunks_bytes. by rewrite fmap_app, concat_app. Qed.

Lemma zlen_app l1 l2 : zlen (l1 ++ l2) = zlen l1 + zlen l2.
Proof. unfold zlen. rewrite length_app. lia. Qed.

(** Buffers whose sizes do not wrap. *)
Definition chunk_ok (c : lchunk) : Prop := length (lc_pad c) = 4%nat.
Definition buf_ok (b : lbuf) : Prop :=
  0 < lb_ptr b < 2 ^ 64 /\ zlen (chunks_bytes (lb_chunks b)) + zlen (lb_free b) <= 2 ^ 31 /\ Forall chunk_ok (lb_chunks b).

Lemma zlen_nonneg l : 0 <= zlen l.
Proof. unfold zlen. lia. Qed.

Section Carve.

Context (sz : Z) (b b' : lbuf) (ptr : Z) (Hsz : 0 <= sz) (Hc : carve sz b = Some (b', ptr)).

Local Notation used := (chunks_bytes (lb_chunks b)).

Lemma carve_split :
  exists f1 f2 f3 f4, lb_free b = f1 ++ f2 ++ f3 ++ f4 /\ length f1 = 4%nat /\ length f2 = 4%nat /\ zlen f3 = sz /\
    b' = LBuf (lb_ptr b) (lb_chunks b ++ [LChunk f2 f3]) f4 /\
    ptr = lb_ptr b + sizeof_linear_header + zlen used + sizeof_linear_size_chunk.
Proof.
  unfold carve in Hc. destruct (Z.leb_spec (8 + sz) (zlen (lb_free b))) as [Hle|]; [|done]. injection Hc as <- <-.
  unfold zlen in *. set (fr := lb_free b) in *.
  exists (take 4 fr), (take 4 (drop 4 fr)), (take (Z.to_nat sz) (drop 8 fr)), (drop (8 + Z.to_nat sz) fr).
  split_and!; try done.
  - rewrite <- (drop_drop fr (Z.to_nat sz) 8), take_drop.
    replace (drop 8 fr) with (drop 4 (drop 4 fr)) by (by rewrite drop_drop). by rewrite !take_drop.
  - rewrite length_take. lia.
  - rewrite length_take, length_drop. lia.
  - rewrite length_take, length_drop. lia.
Qed.

Lemma carve_ok : buf_ok b -> buf_ok b' /\ lb_ptr b' = lb_ptr b /\ ptr <> 0.
Proof.
  intros (H1 & H2 & H3). destruct carve_split as (f1 & f2 & f3 & f4 & Ef & L1 & L2 & L3 & -> & ->).
  rewrite Ef, !zlen_app in H2. unfold buf_ok. cbn [lb_ptr lb_chunks lb_free]. rewrite chunks_bytes_app, !zlen_app. unfold chunks_bytes at 2. cbn [fmap list_fmap concat].
  rewrite app_nil_r. unfold chunk_bytes. cbn [lc_data lc_pad]. rewrite !zlen_app. change (zlen (le32 _)) with 4.
  assert (zlen f1 = 4 /\ zlen f2 = 4) as [Z1 Z2] by (unfold zlen; lia). pose proof (zlen_nonneg (chunks_bytes (lb_chunks b))).
  split_and!; try lia.
  - apply Forall_app. split; [done|]. by constructor.
  - unfold sizeof_linear_header, sizeof_linear_size_chunk. lia.
Qed.

Lemma carve_writes ctx nx lt :
  exists d, write_bytes (buf_bytes ctx nx lt b) (sizeof_linear_header + zlen used) (le32 sz) = Some d /\
    write_bytes d lh_offset (le32 (zlen used + (8 + sz))) = Some (buf_bytes ctx nx lt b') /\
    d = le32 (zlen used) ++ drop 4 d.
Proof.
  destruct carve_split as (f1 & f2 & f3 & f4 & Ef & L1 & L2 & L3 & -> & _).
  set (hd := le32 (zlen used + zlen (lb_free b)) ++ le64 ctx ++ le64 nx ++ le64 lt).
  exists (le32 (zlen used) ++ (hd ++ used ++ le32 sz ++ f2 ++ f3 ++ f4)). split; [|split].
  - assert (buf_bytes ctx nx lt b = (le32 (zlen used) ++ hd ++ used) ++ f1 ++ (f2 ++ f3 ++ f4)) as ->.
    { unfold buf_bytes, buf_header, hd. by rewrite Ef, <- !app_assoc. }
    rewrite (write_mid _ f1 (le32 sz)); [by rewrite <- !app_assoc| |by rewrite L1]. rewrite !zlen_app. unfold hd.
    rewrite !zlen_app. change (zlen (le32 _)) with 4. change (zlen (le64 _)) with 8. unfold sizeof_linear_header. lia.
  - pose proof (write_mid [] (le32 (zlen used)) (le32 (zlen used + (8 + sz))) (hd ++ used ++ le32 sz ++ f2 ++ f3 ++ f4) lh_offset eq_refl eq_refl) as E.
    cbn [app] in E. rewrite E. f_equal. unfold buf_bytes, buf_header, hd. cbn [lb_chunks lb_free].
    assert (chunks_bytes (lb_chunks b ++ [LChunk f2 f3]) = used ++ le32 sz ++ f2 ++ f3) as ->.
    { rewrite chunks_bytes_app. unfold chunks_bytes at 2. cbn. by rewrite app_nil_r, L3. }
    rewrite Ef, !zlen_app. change (zlen (le32 sz)) with 4. rewrite <- !app_assoc.
    assert (zlen f1 = 4 /\ zlen f2 = 4) as [Z1 Z2] by (unfold zlen; lia). rewrite Z1, Z2, L3.
    do 2 f_equal; [lia|]. f_equal. lia.
  - done.
Qed.

End Carve.

(** ** Positions in an arena *)

Lemma rest_split ctx bs1 p bs2 : exists l1 lt, forall cs fr,
  rest_blocks ctx (bs1 ++ LBuf p cs fr :: bs2) = l1 ++ (get_header p, buf_bytes ctx (buf_next bs2) lt (LBuf p cs fr)) :: rest_blocks ctx bs2.
Proof.
  induction bs1 as [|b bs1 (l1 & lt & IH)].
  - exists [], (if buf_next bs2 =? 0 then p else buf_next bs2). done.
  - eexists (_ :: l1), lt. intros cs fr. cbn [app rest_blocks]. rewrite IH. cbn [app]. f_equal.
    assert (buf_next (bs1 ++ LBuf p cs fr :: bs2) = zhd ((lb_ptr <$> bs1) ++ p :: (lb_ptr <$> bs2))) as ->
      by (unfold buf_next; by rewrite fmap_app). reflexivity.
Qed.

Lemma arena_split ctx bs1 p bs2 : exists l1 lt, forall cs fr,
  arena_blocks ctx (bs1 ++ LBuf p cs fr :: bs2) = l1 ++ (get_header p, buf_bytes ctx (buf_next bs2) lt (LBuf p cs fr)) :: rest_blocks ctx bs2.
Proof.
  destruct bs1 as [|b bs1].
  - exists [], (zlast (p :: (lb_ptr <$> bs2))). done.
  - destruct (rest_split ctx bs1 p bs2) as (l1 & lt & E). eexists (_ :: l1), lt. intros cs fr.
    cbn [app arena_blocks]. rewrite E. cbn [app]. f_equal.
    assert (buf_next (bs1 ++ LBuf p cs fr :: bs2) = zhd ((lb_ptr <$> bs1) ++ p :: (lb_ptr <$> bs2))) as ->
      by (unfold buf_next; by rewrite fmap_app).
    assert (lb_ptr <$> b :: bs1 ++ LBuf p cs fr :: bs2 = lb_ptr b :: (lb_ptr <$> bs1) ++ p :: (lb_ptr <$> bs2)) as ->
      by (cbn; by rewrite fmap_app). reflexivity.
Qed.

Lemma arena_addrs ctx bs : (arena_blocks ctx bs).*1 = get_header <$> (lb_ptr <$> bs).
Proof.
  assert (forall bs, (rest_blocks ctx bs).*1 = get_header <$> (lb_ptr <$> bs)) as Hr.
  { clear. induction bs as [|b bs IH]; [done|]. cbn. by rewrite IH. }
  destruct bs as [|b bs]; [done|]. cbn. by rewrite Hr.
Qed.

(** ** Creating a buffer *)

(** Below a context, or a root. *)
Lemma ctx_ok_attachable F ctx : fwf F -> ctx_ok F ctx = true -> ctx_header ctx = 0 \/ exists n, F !! ctx_header ctx = Some n.
Proof.
  intros H. unfold ctx_ok, ctx_header. destruct (ctx =? 0); [by left|]. cbn. intros Hc. right. by apply block_present_inv.
Qed.

Lemma new_buf_inv malloc F sz nb :
  0 <= sz <= 2 ^ 31 - 56 -> new_buf malloc F sz = Some (Some nb) ->
  let n := Z.max MIN_LINEAR_BUFSIZE (sz + 8) in
  exists info block, malloc (32 + n + sizeof_ralloc_header) = Some (info, block) /\ fresh F info = true /\
    zlen block = 32 + n + sizeof_ralloc_header /\ clear F info (32 + n) = true /\
    nb = LBuf (PTR_FROM_HEADER info) [] (drop 80 block) /\ zlen (lb_free nb) = n /\ buf_ok nb.
Proof.
  intros Hsz Hb n. unfold new_buf in Hb. change sizeof_linear_header with 32 in Hb. fold n in Hb.
  assert (2048 <= n <= 2 ^ 31) as Hn by (unfold n, MIN_LINEAR_BUFSIZE; lia). clearbody n.
  destruct (malloc _) as [[info block]|]; [|done]. destruct (_ && _ && _ && _) eqn:E; [|done]. injection Hb as <-.
  apply andb_prop in E as [E E4%Z.ltb_lt]. apply andb_prop in E as [E E3]. apply andb_prop in E as [E1 E2%Z.eqb_eq].
  exists info, block. apply andb_prop in E1 as Ef. destruct Ef as [Hpos%Z.ltb_lt _].
  assert (zlen (drop 80 block) = n) as Hfr by (unfold zlen in *; rewrite length_drop; unfold sizeof_ralloc_header in *; lia).
  split; [done|]. split; [done|]. split; [done|]. split; [done|]. split; [done|]. split; [done|].
  unfold buf_ok. cbn [lb_ptr lb_chunks lb_free]. change (Z.to_nat (sizeof_ralloc_header + 32)) with 80%nat. rewrite Hfr. cbn.
  split; [unfold PTR_FROM_HEADER, sizeof_ralloc_header in *; lia|]. split; [change (zlen []) with 0; lia|constructor].
Qed.

Lemma write_bytes_split m o bs bs' m' o' :
  o + Z.of_nat (length bs) = o' -> write_bytes m o (bs ++ bs') = Some m' ->
  exists m1, write_bytes m o bs = Some m1 /\ write_bytes m1 o' bs' = Some m'.
Proof.
  intros <-. rewrite <- write_bytes_app. destruct (write_bytes m o bs) as [m1|]; [|done]. cbn. by eauto.
Qed.

(** Five stores fill the header. *)
Lemma header_stores ctx p n d :
  0 <= n -> zlen d = 32 + n ->
  write_bytes d 0 (le32 0 ++ le32 n ++ le64 ctx ++ le64 0 ++ le64 p) = Some (buf_bytes ctx 0 p (LBuf p [] (drop 32 d))).
Proof.
  intros Hn Hd. unfold zlen in Hd. rewrite write_bytes_Some by (rewrite ?length_app, ?le32_length, ?le64_length; lia). cbn [Z.to_nat take app]. f_equal.
  unfold buf_bytes, buf_header. cbn [lb_chunks lb_free chunks_bytes fmap list_fmap concat app]. change (zlen []) with 0.
  assert (zlen (drop 32 d) = n) as -> by (unfold zlen; rewrite length_drop; lia). rewrite <- !app_assoc. done.
Qed.

Section Create.

Context (G : forest) (H : fwf G) (Hap : apart G) (ctx : Z) (Hctx : ctx_ok G ctx = true) (Hctx64 : 0 <= ctx < 2 ^ 64).
Context (malloc : malloc_result) (sz : Z) (Hsz : 0 <= sz <= 2 ^ 31 - 56).

Local Notation n := (Z.max MIN_LINEAR_BUFSIZE (sz + 8)).

Lemma node_size : (if u32 (sz + sizeof_linear_size_chunk) <? MIN_LINEAR_BUFSIZE then MIN_LINEAR_BUFSIZE
                   else u32 (sz + sizeof_linear_size_chunk)) = n /\ u64 (sizeof_linear_header + n) = 32 + n.
Proof.
  unfold sizeof_linear_size_chunk, sizeof_linear_header, MIN_LINEAR_BUFSIZE. rewrite u32_small by lia. unfold u64. rewrite Z.mod_small by lia.
  split; [|done]. destruct (Z.ltb_spec (sz + 8) 2048); lia.
Qed.

Lemma create_none : new_buf malloc G sz = Some None -> create_linear_node malloc (concr G) ctx sz = Some (concr G, 0).
Proof.
  intros Hn. unfold create_linear_node. destruct node_size as [-> ->]. unfold new_buf in Hn. change sizeof_linear_header with 32 in Hn.
  destruct (malloc _) as [[info block]|] eqn:E; [by destruct (_ && _)|].
  unfold ralloc_size. assert (u64 (32 + n + sizeof_ralloc_header) = 32 + n + sizeof_ralloc_header) as ->.
  { unfold u64, sizeof_ralloc_header, MIN_LINEAR_BUFSIZE. apply Z.mod_small. lia. }
  rewrite E. done.
Qed.

Lemma create_some nb :
  new_buf malloc G sz = Some (Some nb) ->
  let blk := (get_header (lb_ptr nb), buf_bytes ctx 0 (lb_ptr nb) nb) in
  create_linear_node malloc (concr G) ctx sz = Some (concr (attach G (ctx_header ctx) [blk]), lb_ptr nb) /\
  attachable G (ctx_header ctx) [blk] /\ apart (attach G (ctx_header ctx) [blk]).
Proof.
  intros Hb blk. destruct (new_buf_inv malloc G sz nb Hsz Hb) as (info & block & Em & Hf & Hlen & Hcl & Enb & Hfr & Hok).
  unfold blk. set (c := ctx_header ctx). assert (lb_ptr nb = PTR_FROM_HEADER info) as Ep by (by rewrite Enb). rewrite Ep, get_header_ptr.
  set (d := drop (Z.to_nat sizeof_ralloc_header) block).
  assert (zlen d = 32 + n) as Hd by (unfold d, zlen in *; rewrite length_drop; unfold sizeof_ralloc_header in *; lia).
  apply andb_prop in Hf as Hf'. destruct Hf' as [Hpos%Z.ltb_lt Hnone%bool_decide_eq_true].
  assert (attachable G c [(info, d)]) as Hat.
  { split; [by apply ctx_ok_attachable|]. split; [apply NoDup_singleton|]. intros x ->%list_elem_of_singleton. done. }
  assert (f_alloc malloc G ctx (32 + n) = Some (attach G c [(info, d)], PTR_FROM_HEADER info)) as Ea.
  { unfold f_alloc. rewrite Hctx. assert (size_ok (32 + n) = true) as ->.
    { unfold size_ok, sizeof_ralloc_header, MIN_LINEAR_BUFSIZE. apply andb_true_intro. rewrite Z.leb_le, Z.ltb_lt. lia. }
    cbn [andb negb]. rewrite Em, Hf. unfold zlen in Hlen. rewrite Hlen, Z.eqb_refl. done. }
  destruct (ralloc_size_implements G H malloc ctx _ _ _ Ea) as [Er Hw].
  assert (apart (attach G c [(info, d)])) as Hap1.
  { intros a b ma mb Ha Hb' Hne. unfold clear in Hcl. apply bool_decide_eq_true in Hcl.
    assert (forall x y, attach G c [(info, d)] !! x = Some y -> (x = info /\ length (fn_data y) = length d) \/
      exists z, G !! x = Some z /\ length (fn_data z) = length (fn_data y)) as Hx.
    { intros x y. rewrite attach_lookup by done. cbn. destruct (decide (x = info)) as [->|].
      - rewrite lookup_insert_eq. intros [= <-]. by left.
      - rewrite lookup_insert_ne, lookup_empty by done. case_decide; [|by eauto]. destruct (G !! x) as [z|] eqn:Ez; [|done].
        cbn. intros [= <-]. right. by exists z. }
    unfold extent_ok. unfold zlen in Hd. destruct (Hx a ma Ha) as [[-> Ea1]|(za & Hza & Ea1)], (Hx b mb Hb') as [[-> Eb1]|(zb & Hzb & Eb1)].
    - done.
    - pose proof (Hcl b zb Hzb) as Hc1. cbn in Hc1. rewrite Ea1, <- Eb1. unfold PTR_FROM_HEADER in *. lia.
    - pose proof (Hcl a za Hza) as Hc1. cbn in Hc1. rewrite Eb1, <- Ea1. unfold PTR_FROM_HEADER in *. lia.
    - rewrite <- Ea1, <- Eb1. by apply (Hap a b za zb). }
  assert (forall d', attachable G c [(info, d')]) as Hat' by (intros d'; exact Hat).
  split; [|split; [apply Hat'|]].
  - unfold create_linear_node. destruct node_size as [-> ->]. rewrite Er. cbn [mbind option_bind].
    rewrite (proj2 (Z.eqb_neq _ 0)) by (unfold PTR_FROM_HEADER, sizeof_ralloc_header; lia).
    assert (0 <= n) as Hn by (unfold MIN_LINEAR_BUFSIZE; lia).
    pose proof (header_stores ctx (PTR_FROM_HEADER info) n d Hn Hd) as Hs.
    apply (write_bytes_split _ _ _ _ _ lh_size) in Hs as (d1 & S1 & Hs); [|done].
    apply (write_bytes_split _ _ _ _ _ lh_ralloc_parent) in Hs as (d2 & S2 & Hs); [|done].
    apply (write_bytes_split _ _ _ _ _ lh_next) in Hs as (d3 & S3 & Hs); [|done].
    apply (write_bytes_split _ _ _ _ _ lh_latest) in Hs as (d4 & S4 & S5); [|done].
    pose proof (block_write G H c [] [] info d Hat Hap1 lh_offset _ _ S1) as [W1 A1].
    pose proof (block_write G H c [] [] info d1 (Hat' _) A1 _ _ _ S2) as [W2 A2].
    pose proof (block_write G H c [] [] info d2 (Hat' _) A2 _ _ _ S3) as [W3 A3].
    pose proof (block_write G H c [] [] info d3 (Hat' _) A3 _ _ _ S4) as [W4 A4].
    pose proof (block_write G H c [] [] info d4 (Hat' _) A4 _ _ _ S5) as [W5 A5]. cbn [app] in *.
    unfold store32, store64. rewrite W1. cbn [mbind option_bind]. rewrite W2. cbn [mbind option_bind]. rewrite W3. cbn [mbind option_bind].
    rewrite W4. cbn [mbind option_bind]. rewrite W5. cbn [mbind option_bind]. do 4 f_equal.
    rewrite Enb. do 3 f_equal. unfold d. by rewrite drop_drop.
  - assert (length (buf_bytes ctx 0 (PTR_FROM_HEADER info) nb) = length d) as Hlb.
    { pose proof (buf_bytes_length ctx 0 (PTR_FROM_HEADER info) nb) as E. rewrite Hfr, Enb in E. cbn [lb_chunks] in E.
      change (zlen (chunks_bytes [])) with 0 in E. rewrite Enb. unfold zlen in *. lia. }
    pose proof (fun d' => attach_set G H c [] [] info d Hat d') as E. cbn [app] in E. rewrite <- E.
    exact (apart_alter _ _ _ _ Hap1 (attach_mid_lookup G H c [] [] info d Hat) Hlb).
Qed.

End Create.

(** ** Arenas in memory *)

Record lwf (s : lstate) : Prop := Lwf {
  lw_forest : fwf (ls_forest s);
  lw_ctx : ctx_ok (ls_forest s) (ls_ctx s) = true;
  lw_ctx64 : 0 <= ls_ctx s < 2 ^ 64;
  lw_att : attachable (ls_forest s) (ctx_header (ls_ctx s)) (arena_blocks (ls_ctx s) (ls_bufs s));
  lw_apart : apart (ls_full s);
  lw_bufs : Forall buf_ok (ls_bufs s) }.

(** Buffers with the same pointers. *)
Lemma attachable_ptrs F c ctx ctx' bs bs' :
  lb_ptr <$> bs = lb_ptr <$> bs' -> attachable F c (arena_blocks ctx bs) -> attachable F c (arena_blocks ctx' bs').
Proof. intros E. unfold attachable. by rewrite !arena_addrs, E. Qed.

Lemma bump_split sz bs bs' p :
  bump sz bs = Some (bs', p) -> exists bs1 b b', bs = bs1 ++ [b] /\ bs' = bs1 ++ [b'] /\ carve sz b = Some (b', p).
Proof.
  revert bs'. induction bs as [|b bs IH]; intros bs' Hb; [done|]. destruct bs as [|b2 bs].
  - cbn in Hb. destruct (carve sz b) as [[b' q]|] eqn:E; [|done]. cbn in Hb. injection Hb as <- <-. by exists [], b, b'.
  - change (bump sz (b :: b2 :: bs)) with ('(r, q) ← bump sz (b2 :: bs); Some (b :: r, q)) in Hb.
    destruct (bump sz (b2 :: bs)) as [[r q]|]; [|done]. cbn in Hb. injection Hb as <- <-.
    destruct (IH r eq_refl) as (bs1 & c & c' & E1 & -> & E3). exists (b :: bs1), c, c'. rewrite E1. done.
Qed.

Lemma bump_snoc sz bs1 b : bump sz (bs1 ++ [b]) = '(b', p) ← carve sz b; Some (bs1 ++ [b'], p).
Proof.
  induction bs1 as [|c bs1 IH]; [done|]. cbn [app]. destruct (bs1 ++ [b]) as [|b2 r] eqn:E; [by destruct bs1|].
  change (bump sz (c :: b2 :: r)) with ('(r, q) ← bump sz (b2 :: r); Some (c :: r, q)). rewrite IH.
  by destruct (carve sz b) as [[b' p]|].
Qed.

Lemma snoc_exists {A} (l : list A) : l <> [] -> exists l1 x, l = l1 ++ [x].
Proof. induction l as [|x l IH] using rev_ind; [done|]. intros _. by exists l, x. Qed.

Lemma zlast_snoc l b : zlast (lb_ptr <$> l ++ [b]) = lb_ptr b.
Proof. unfold zlast. rewrite fmap_app. cbn. by rewrite rev_app_distr. Qed.

Section Arena.

Context (s : lstate) (W : lwf s) (bs1 : list lbuf) (b : lbuf) (Hbufs : ls_bufs s = bs1 ++ [b]).

Local Notation F := (ls_forest s).
Local Notation ctx := (ls_ctx s).
Local Notation c := (ctx_header ctx).
Local Notation heap := (concr (ls_full s)).

Lemma last_ok : buf_ok b.
Proof. pose proof (lw_bufs s W) as Hb. rewrite Hbufs in Hb. apply Forall_app in Hb as [_ Hb]. by inversion Hb. Qed.

(** The last buffer in memory. *)
Lemma last_block : exists l1 lt, forall b', lb_ptr b' = lb_ptr b ->
  arena_blocks ctx (bs1 ++ [b']) = l1 ++ [(get_header (lb_ptr b), buf_bytes ctx 0 lt b')].
Proof.
  destruct (arena_split ctx bs1 (lb_ptr b) []) as (l1 & lt & E). exists l1, lt. intros [p' cs fr] Hp. cbn in Hp. subst p'. apply E.
Qed.

(** The members of its header. *)
Lemma last_loads :
  load64 heap (lb_ptr b + lh_next) = Some 0 /\
  load64 heap (lb_ptr b + lh_ralloc_parent) = Some ctx /\
  load32 heap (lb_ptr b + lh_offset) = Some (zlen (chunks_bytes (lb_chunks b))) /\
  load32 heap (lb_ptr b + lh_size) = Some (zlen (chunks_bytes (lb_chunks b)) + zlen (lb_free b)).
Proof.
  destruct last_block as (l1 & lt & E). specialize (E b eq_refl). destruct last_ok as (Hp & Hs & _).
  pose proof (lw_att s W) as Hat. pose proof (lw_apart s W) as Hap. unfold ls_full in *. rewrite Hbufs, E in *.
  pose proof (zlen_nonneg (chunks_bytes (lb_chunks b))). pose proof (zlen_nonneg (lb_free b)).
  set (a := get_header (lb_ptr b)) in *. assert (lb_ptr b = PTR_FROM_HEADER a) as -> by (symmetry; apply ptr_header). split_and!.
  - eapply (block_load64 _ (lw_forest s W) _ l1 []); [done|done|apply buf_next_at|done|lia].
  - eapply (block_load64 _ (lw_forest s W) _ l1 []); [done|done|apply buf_ctx_at|done|apply (lw_ctx64 s W)].
  - eapply (block_load32 _ (lw_forest s W) _ l1 []); [done|done|apply buf_offset_at|done|lia].
  - eapply (block_load32 _ (lw_forest s W) _ l1 []); [done|done|apply buf_size_at|done|lia].
Qed.

(** A chunk from it. *)
Lemma carve_step sz b' ptr :
  0 <= sz -> carve sz b = Some (b', ptr) ->
  let s' := set_bufs s (bs1 ++ [b']) in
  (offset ← load32 heap (lb_ptr b + lh_offset);
   let p := lb_ptr b + sizeof_linear_header + offset in
   m ← store32 heap p sz;
   m ← store32 m (lb_ptr b + lh_offset) (u32 (offset + (8 + sz)));
   Some (m, p + sizeof_linear_size_chunk)) = Some (concr (ls_full s'), ptr) /\ lwf s' /\ ptr <> 0.
Proof.
  intros Hsz Hc s'. destruct last_loads as (_ & _ & -> & _). cbn [mbind option_bind].
  destruct (carve_ok sz b b' ptr Hsz Hc last_ok) as (Hok' & Hp' & Hp0).
  destruct (carve_split sz b b' ptr Hsz Hc) as (f1 & f2 & f3 & f4 & Ef & L1 & L2 & L3 & Eb' & Eptr).
  destruct last_block as (l1 & lt & E). pose proof (E b' Hp') as Eb2. specialize (E b eq_refl). destruct last_ok as (Hp & Hs & _).
  destruct (carve_writes sz b b' ptr Hsz Hc ctx 0 lt) as (d & S1 & S2 & _).
  pose proof (lw_att s W) as Hat. pose proof (lw_apart s W) as Hap. unfold s', ls_full, set_bufs in *. cbn [ls_forest ls_ctx ls_bufs] in *.
  rewrite Hbufs, E in *. rewrite Eb2. set (a := get_header (lb_ptr b)) in *.
  pose proof (block_write _ (lw_forest s W) _ l1 [] a _ Hat Hap _ _ _ S1) as [W1 A1].
  pose proof (block_write _ (lw_forest s W) _ l1 [] a d (attachable_mid _ _ _ _ _ d _ Hat) A1 _ _ _ S2) as [W2 A2].
  unfold a in W1, W2. rewrite ptr_header in W1, W2. fold a in W1, W2. unfold store32. rewrite <- (Z.add_assoc (lb_ptr b) sizeof_linear_header), W1. cbn [mbind option_bind].
  pose proof (zlen_nonneg (chunks_bytes (lb_chunks b))).
  rewrite u32_small by (rewrite Ef, !zlen_app in Hs; pose proof (zlen_nonneg f4); unfold zlen in *; lia).
  rewrite W2. cbn [mbind option_bind]. rewrite Eptr, !Z.add_assoc. split; [done|]. split; [|by rewrite <- !Z.add_assoc in *; rewrite Eptr in Hp0; rewrite !Z.add_assoc in *].
  constructor; cbn [ls_forest ls_ctx ls_bufs]; try apply W.
  - rewrite Eb2. by apply attachable_mid with (d := buf_bytes ctx 0 lt b).
  - unfold ls_full. cbn [ls_forest ls_ctx ls_bufs]. by rewrite Eb2.
  - pose proof (lw_bufs s W) as Hb. rewrite Hbufs in Hb. apply Forall_app in Hb as [Hb _]. apply Forall_app. split; [done|]. by constructor.
Qed.

End Arena.

(** ** A new latest buffer *)

Lemma attachable_app F c l1 l2 :
  fwf F -> attachable F c l1 -> attachable (attach F c l1) c l2 -> attachable F c (l1 ++ l2).
Proof.
  intros H (Hc & N1 & A1) (_ & N2 & A2). split; [done|]. rewrite fmap_app.
  assert (forall a, a ∈ l2.*1 -> a ∉ l1.*1 /\ F !! a = None) as Hn.
  { intros a Ha. destruct (A2 a Ha) as [_ Hx]. rewrite attach_lookup in Hx by done.
    destruct (list_to_map l1 !! a) eqn:E; [done|]. split.
    - intros Hin. apply (not_elem_of_list_to_map_2 (M := gmap Z)) in E. done.
    - case_decide; [|done]. by destruct (F !! a). }
  split.
  - apply NoDup_app. split; [done|]. split; [|done]. intros a Ha Ha2. by apply (Hn a Ha2).
  - intros a [Ha|Ha]%elem_of_app; [by apply A1|]. split; [by apply A2|by apply Hn].
Qed.

Lemma full_wf s : lwf s -> fwf (ls_full s).
Proof. intros W. apply attach_wf; apply W. Qed.

Lemma full_ctx s : lwf s -> ctx_ok (ls_full s) (ls_ctx s) = true.
Proof.
  intros W. pose proof (lw_ctx s W) as Hc. unfold ctx_ok in *. destruct (ls_ctx s =? 0) eqn:E0; [done|]. cbn in *.
  apply block_present_inv in Hc as [n Hn]. unfold block_present. apply bool_decide_eq_true. unfold ls_full.
  rewrite attach_lookup by apply W. destruct (list_to_map (arena_blocks (ls_ctx s) (ls_bufs s)) !! get_header (ls_ctx s)); [by eexists|]. rewrite Hn. case_decide; by eexists.
Qed.

Lemma buf_next_snoc bs b nb : buf_next (bs ++ [b]) = buf_next (bs ++ [b; nb]).
Proof. unfold buf_next. rewrite !fmap_app. by destruct (lb_ptr <$> bs). Qed.

Lemma rest_snoc ctx bs b nb :
  lb_ptr nb <> 0 ->
  exists l, rest_blocks ctx (bs ++ [b]) = l ++ [(get_header (lb_ptr b), buf_bytes ctx 0 (lb_ptr b) b)] /\
    rest_blocks ctx (bs ++ [b; nb]) = l ++ [(get_header (lb_ptr b), buf_bytes ctx (lb_ptr nb) (lb_ptr nb) b);
      (get_header (lb_ptr nb), buf_bytes ctx 0 (lb_ptr nb) nb)].
Proof.
  intros Hp. induction bs as [|x bs (l & E1 & E2)].
  - exists []. cbn. unfold buf_next. cbn. by rewrite (proj2 (Z.eqb_neq _ _)) by done.
  - eexists (_ :: l). cbn [app rest_blocks]. rewrite E1, E2, <- (buf_next_snoc bs b nb). done.
Qed.

Section Latest.

Context (s : lstate) (W : lwf s) (b0 : lbuf) (r bs1 : list lbuf) (b : lbuf).
Context (Hfirst : ls_bufs s = b0 :: r) (Hbufs : ls_bufs s = bs1 ++ [b]).

Local Notation F := (ls_forest s).
Local Notation ctx := (ls_ctx s).
Local Notation c := (ctx_header ctx).
Local Notation heap := (concr (ls_full s)).

Lemma first_latest : load64 heap (lb_ptr b0 + lh_latest) = Some (lb_ptr b).
Proof.
  pose proof (lw_att s W) as Hat. pose proof (lw_apart s W) as Hap. unfold ls_full in *. rewrite Hfirst in *. cbn [arena_blocks] in *.
  assert (zlast (lb_ptr <$> b0 :: r) = lb_ptr b) as Ez by (by rewrite Hbufs, zlast_snoc). rewrite Ez in *.
  set (a := get_header (lb_ptr b0)) in *. assert (lb_ptr b0 = PTR_FROM_HEADER a) as -> by (symmetry; apply ptr_header).
  assert (ls_bufs s = bs1 ++ [b]) as Hb' by congruence.
  eapply (block_load64 _ (lw_forest s W) _ []); [done|done|apply buf_latest_at|done|]. destruct (last_ok s W bs1 b Hb') as [Hp _]. lia.
Qed.

Context (malloc : malloc_result) (sz : Z) (Hsz : 0 <= sz <= 2 ^ 31 - 56).

Lemma new_latest_none :
  new_buf malloc (ls_full s) sz = Some None -> new_latest malloc heap (lb_ptr b0) (lb_ptr b) sz = Some (heap, 0).
Proof.
  intros Hn. unfold new_latest. destruct (last_loads s W bs1 b Hbufs) as (_ & -> & _). cbn [mbind option_bind].
  rewrite (create_none _ _ malloc sz Hsz Hn). done.
Qed.

Lemma new_latest_some nb :
  new_buf malloc (ls_full s) sz = Some (Some nb) ->
  let s' := set_bufs s (ls_bufs s ++ [nb]) in
  new_latest malloc heap (lb_ptr b0) (lb_ptr b) sz = Some (concr (ls_full s'), lb_ptr nb) /\ lwf s'.
Proof.
  intros Hn s'. destruct (new_buf_inv malloc _ sz nb Hsz Hn) as (_ & _ & _ & _ & _ & _ & _ & _ & Hok).
  assert (lb_ptr nb <> 0) as Hp0 by (destruct Hok; lia).
  destruct (create_some _ (full_wf s W) (lw_apart s W) ctx (full_ctx s W) malloc sz Hsz nb Hn) as (Ec & Hat1 & Hap1).
  unfold new_latest. destruct (last_loads s W bs1 b Hbufs) as (_ & -> & _). cbn [mbind option_bind]. rewrite Ec. cbn [mbind option_bind].
  rewrite (proj2 (Z.eqb_neq _ _)) by done. clear Ec. set (blk := (get_header (lb_ptr nb), _)) in *.
  unfold ls_full in Hat1, Hap1 |- *. rewrite <- attach_app in Hap1 |- *.
  apply (attachable_app _ _ _ _ (lw_forest s W) (lw_att s W)) in Hat1.
  assert (forall B, arena_blocks ctx (ls_bufs s ++ [nb]) = B -> attachable F c B -> apart (attach F c B) -> lwf s') as Hw.
  { intros B EB HB AB. constructor; cbn; try apply W; [by rewrite EB|unfold ls_full; cbn; by rewrite EB|].
    apply Forall_app. split; [apply W|]. by constructor. }
  pose proof (attachable_mid F c) as Hmid. pose proof (block_write F (lw_forest s W) c) as Hwr.
  set (pn := lb_ptr nb) in *. unfold s', set_bufs in Hw. unfold store64, s', ls_full, set_bufs. cbn [ls_forest ls_ctx ls_bufs].
  assert (PTR_FROM_HEADER (get_header (lb_ptr b0)) = lb_ptr b0) as P0 by apply ptr_header.
  assert (PTR_FROM_HEADER (get_header (lb_ptr b)) = lb_ptr b) as Pb by apply ptr_header.
  destruct bs1 as [|b0' mid].
  - (* the first buffer is the latest one *)
    assert (b0 = b /\ r = []) as [-> ->] by (rewrite Hfirst in Hbufs; by injection Hbufs). rewrite Hfirst in *.
    cbn [arena_blocks rest_blocks app] in *. set (a := get_header (lb_ptr b)) in *.
    destruct (Hwr [] [blk] a _ Hat1 Hap1 _ _ _ (write_latest ctx _ _ pn b)) as [W1 A1]. cbn [app] in W1. rewrite P0 in W1. rewrite W1. cbn [mbind option_bind].
    pose proof (Hmid [] a _ (buf_bytes ctx (buf_next []) pn b) _ Hat1) as Hat2. cbn [app] in A1.
    destruct (Hwr [] [blk] a _ Hat2 A1 _ _ _ (write_latest ctx _ _ pn b)) as [W2 A2]. cbn [app] in W2. rewrite P0 in W2. rewrite W2. cbn [mbind option_bind].
    destruct (Hwr [] [blk] a _ Hat2 A2 _ _ _ (write_next ctx _ pn _ b)) as [W3 A3]. cbn [app] in W3. rewrite P0 in W3. rewrite W3. cbn [mbind option_bind].
    assert (arena_blocks ctx [b; nb] = [(a, buf_bytes ctx pn pn b); blk]) as EB by done.
    split; [rewrite <- EB; reflexivity|]. apply (Hw _ EB); [by apply (Hmid [] a _ _ [blk] Hat1)|done].
  - assert (b0' = b0 /\ r = mid ++ [b]) as [-> Er] by (rewrite Hfirst in Hbufs; by injection Hbufs). rewrite Hfirst, Er in *.
    cbn [arena_blocks app] in *. destruct (rest_snoc ctx mid b nb Hp0) as (l & E1 & E2). rewrite E1 in *.
    set (a0 := get_header (lb_ptr b0)) in *. set (a := get_header (lb_ptr b)) in *. set (nx := buf_next (mid ++ [b])) in *.
    rewrite <- app_assoc in *. cbn [app] in *.
    destruct (Hwr [] _ a0 _ Hat1 Hap1 _ _ _ (write_latest ctx _ _ pn b0)) as [W1 A1]. cbn [app] in W1, A1. rewrite P0 in W1. rewrite W1. cbn [mbind option_bind].
    pose proof (Hmid [] a0 _ (buf_bytes ctx nx pn b0) _ Hat1) as Hat2. cbn [app] in Hat2.
    set (x0 := (a0, buf_bytes ctx nx pn b0)) in *.
    destruct (Hwr (x0 :: l) [blk] a _ Hat2 A1 _ _ _ (write_latest ctx _ _ pn b)) as [W2 A2]. cbn [app] in W2, A2. rewrite Pb in W2. rewrite W2. cbn [mbind option_bind].
    pose proof (Hmid (x0 :: l) a _ (buf_bytes ctx 0 pn b) _ Hat2) as Hat3. cbn [app] in Hat3.
    destruct (Hwr (x0 :: l) [blk] a _ Hat3 A2 _ _ _ (write_next ctx _ pn _ b)) as [W3 A3]. cbn [app] in W3, A3. rewrite Pb in W3. rewrite W3. cbn [mbind option_bind].
    assert (arena_blocks ctx (b0 :: (mid ++ [b]) ++ [nb]) = x0 :: l ++ [(a, buf_bytes ctx pn pn b); blk]) as EB.
    { cbn [arena_blocks]. change (b0 :: (mid ++ [b]) ++ [nb]) with ((b0 :: mid ++ [b]) ++ [nb]). rewrite zlast_snoc, <- app_assoc.
      cbn [app]. by rewrite E2, <- buf_next_snoc. }
    split; [rewrite <- EB; reflexivity|]. rewrite <- app_assoc in EB |- *. cbn [app] in EB.
    apply (Hw _ EB); [by apply (Hmid (x0 :: l) a _ _ [blk] Hat3)|done].
Qed.

End Latest.

(** ** Allocating *)

Lemma align_pot x : 0 <= x -> x + 8 <= 2 ^ 32 -> u32 (ALIGN_POT x SUBALLOC_ALIGNMENT) = align8 x.
Proof.
  intros H1 H2. unfold ALIGN_POT, SUBALLOC_ALIGNMENT, align8, u64. rewrite Z.mod_small by lia.
  replace (x + 8 - 1) with (x + 7) by lia. change (Z.lnot (8 - 1)) with (Z.lnot (Z.ones 3)).
  rewrite <- Z.ldiff_land, Z.ldiff_ones_r, Z.shiftr_div_pow2, Z.shiftl_mul_pow2 by lia. change (2 ^ 3) with 8.
  apply u32_small. pose proof (Z_div_mod_eq_full (x + 7) 8). pose proof (Z.mod_pos_bound (x + 7) 8). lia.
Qed.

Lemma align8_bound x : 0 <= x -> x <= align8 x <= x + 7 /\ align8 (align8 x) = align8 x.
Proof.
  intros Hx. unfold align8. pose proof (Z_div_mod_eq_full (x + 7) 8). pose proof (Z.mod_pos_bound (x + 7) 8). split; [lia|].
  set (q := (x + 7) / 8). replace (q * 8 + 7) with (7 + q * 8) by lia. rewrite Z.div_add by lia. done.
Qed.

Lemma lsize_ok_inv x : lsize_ok x = true -> 0 <= x <= 2 ^ 31 - 64.
Proof. unfold lsize_ok. intros [H1%Z.leb_le H2%Z.leb_le]%andb_prop. lia. Qed.

(** A call on the arena's memory does what the specification says, and the arena keeps its pointer. *)
Definition kept (s s' : lstate) : Prop :=
  lwf s' /\ ls_parent s' = ls_parent s /\ ls_forest s' = ls_forest s /\ ls_ctx s' = ls_ctx s.
Definition refines {R} (s : lstate) (r : option (rheap * R)) (a : option (lstate * R)) : Prop :=
  forall s' x, a = Some (s', x) -> r = Some (concr (ls_full s'), x) /\ kept s s'.

Lemma parent_header s b0 r : ls_bufs s = b0 :: r -> LINEAR_PARENT_TO_HEADER (ls_parent s) = lb_ptr b0.
Proof. intros E. unfold ls_parent, LINEAR_PARENT_TO_HEADER. rewrite E. lia. Qed.

Lemma parent_ptrs s bs : lb_ptr <$> bs = lb_ptr <$> ls_bufs s -> ls_parent (set_bufs s bs) = ls_parent s.
Proof.
  unfold ls_parent, set_bufs. cbn. destruct bs as [|x bs], (ls_bufs s) as [|y l]; try done. cbn. by intros [= ->].
Qed.

Section Alloc.

Context (malloc : malloc_result) (s : lstate) (W : lwf s).

Lemma linear_alloc_child_ok sz :
  refines s (linear_alloc_child malloc (concr (ls_full s)) (ls_parent s) sz) (a_alloc malloc s sz).
Proof.
  intros s' p. unfold a_alloc. destruct (lsize_ok sz) eqn:El; [|done]. cbn [negb]. apply lsize_ok_inv in El.
  destruct (align8_bound sz) as [Hal _]; [lia|]. set (a := align8 sz) in *.
  destruct (ls_bufs s) as [|b0 r] eqn:Hfirst; [by cbn|].
  destruct (snoc_exists (b0 :: r)) as (bs1 & b & Eb); [done|]. assert (ls_bufs s = bs1 ++ [b]) as Hbufs by congruence.
  unfold linear_alloc_child. rewrite (parent_header s b0 r Hfirst), (first_latest s W b0 r bs1 b Hfirst Hbufs). cbn [mbind option_bind].
  destruct (last_loads s W bs1 b Hbufs) as (-> & _ & Eo & ->). rewrite Eo. cbn [mbind option_bind Z.eqb negb].
  rewrite align_pot by lia. fold a. destruct (last_ok s W bs1 b Hbufs) as (Hp & Hs & _).
  pose proof (zlen_nonneg (chunks_bytes (lb_chunks b))). pose proof (zlen_nonneg (lb_free b)).
  change sizeof_linear_size_chunk with 8. rewrite (u32_small (8 + a)), u32_small by lia.
  rewrite Eb, bump_snoc. destruct (carve a b) as [[b' q]|] eqn:Ec.
  - cbn [mbind option_bind]. intros [= <- <-]. rewrite (proj2 (Z.ltb_ge _ _)).
    2: { unfold carve in Ec. destruct (Z.leb_spec (8 + a) (zlen (lb_free b))); [lia|done]. }
    cbn [mbind option_bind]. rewrite (proj2 (Z.eqb_neq _ _)) by lia.
    destruct (carve_step s W bs1 b Hbufs a b' q ltac:(lia) Ec) as (E & W' & _). split; [exact E|]. split; [done|].
    split; [|done]. apply parent_ptrs. destruct (carve_ok a b b' q ltac:(lia) Ec (last_ok s W bs1 b Hbufs)) as (_ & Hq & _).
    rewrite Hbufs, !fmap_app. cbn. by rewrite Hq.
  - cbn [mbind option_bind]. rewrite (bool_decide_eq_false_2 _) by (by destruct bs1). rewrite (proj2 (Z.ltb_lt _ _)).
    2: { unfold carve in Ec. destruct (Z.leb_spec (8 + a) (zlen (lb_free b))); [done|lia]. }
    destruct (new_buf malloc (ls_full s) a) as [[nb|]|] eqn:En; cbn [mbind option_bind]; [| |done].
    + destruct (new_latest_some s W b0 r bs1 b Hfirst Hbufs malloc a ltac:(lia) nb En) as [-> W1]. cbn [mbind option_bind].
      destruct (new_buf_inv malloc _ a nb ltac:(lia) En) as (_ & _ & _ & _ & _ & _ & _ & Hfr & Hok).
      rewrite (proj2 (Z.eqb_neq _ _)) by (destruct Hok; lia). rewrite bump_snoc, <- Hbufs.
      destruct (carve a nb) as [[nb' q]|] eqn:Ec2; [|done]. cbn [mbind option_bind]. intros [= <- <-].
      destruct (carve_step _ W1 (ls_bufs s) nb eq_refl a nb' q ltac:(lia) Ec2) as (E & W' & _). split; [exact E|]. split; [done|].
      split; [|done]. rewrite Hbufs. unfold ls_parent, set_bufs. cbn. rewrite Hbufs. by destruct bs1.
    + intros [= <- <-]. rewrite (new_latest_none s W b0 bs1 b Hbufs malloc a ltac:(lia) En). done.
Qed.

End Alloc.

(** A new arena; the first chunk is its pointer. *)
Lemma linear_alloc_parent_ok malloc s ctx sz s' p :
  lwf s -> a_create malloc s ctx sz = Some (s', p) ->
  linear_alloc_parent malloc (concr (ls_full s)) ctx sz = Some (concr (ls_full s'), p) /\ lwf s' /\
  ls_parent s' = p /\ ls_forest s' = ls_forest s.
Proof.
  intros W. unfold a_create. destruct (bool_decide (ls_bufs s = [])) eqn:Eb; [|done]. apply bool_decide_eq_true in Eb. cbn [negb].
  assert (ls_full s = ls_forest s) as Ef by (unfold ls_full; by rewrite Eb).
  assert (ls_parent s = 0) as Ep by (unfold ls_parent; by rewrite Eb).
  unfold linear_alloc_parent. destruct (Z.eqb_spec ctx 0) as [->|Hc0]; [by intros [= <- <-]|].
  destruct (_ && _ && _) eqn:E; [|done]. cbn [negb]. apply andb_prop in E as [E Hs%lsize_ok_inv]. apply andb_prop in E as [Hpr Hc64%Z.ltb_lt].
  rewrite align_pot by lia. destruct (align8_bound sz) as [Hal Hal2]; [lia|]. set (a := align8 sz) in *.
  assert (a <= 2 ^ 31 - 64) as Ha.
  { unfold a, align8. pose proof (Z_div_mod_eq_full (sz + 7) 8). pose proof (Z.mod_pos_bound (sz + 7) 8). lia. }
  assert (ctx_ok (ls_forest s) ctx = true) as Hctx by (unfold ctx_ok; by rewrite Hpr, orb_true_r).
  assert (0 <= ctx < 2 ^ 64) as Hctx64.
  { apply block_present_inv in Hpr as [n Hn]. apply (fw_pos _ (lw_forest s W)) in Hn. unfold get_header, sizeof_ralloc_header in Hn. lia. }
  rewrite Ef. destruct (new_buf malloc (ls_forest s) a) as [[nb|]|] eqn:En; cbn [mbind option_bind]; [| |done].
  - destruct (create_some _ (lw_forest s W) ltac:(rewrite <- Ef; apply W) ctx Hctx malloc a ltac:(lia) nb En) as (-> & Hat & Hap).
    cbn [mbind option_bind]. destruct (new_buf_inv malloc _ a nb ltac:(lia) En) as (info & block & _ & _ & _ & _ & Enb & Hfr & Hok).
    rewrite (proj2 (Z.eqb_neq _ _)) by (destruct Hok; lia). set (s1 := LState (ls_forest s) ctx [nb]).
    assert (lwf s1) as W1 by (constructor; [apply W|done|done|done|done|by constructor]).
    destruct (bump a [nb]) as [[bs q]|] eqn:Eu; [|done]. cbn [mbind option_bind]. intros [= <- <-].
    destruct (linear_alloc_child_ok malloc s1 W1 a (set_bufs s1 bs) q) as (Er & W' & Hpar & Hfo & Hct).
    { unfold a_alloc. assert (lsize_ok a = true) as -> by (unfold lsize_ok; apply andb_true_intro; rewrite !Z.leb_le; lia).
      cbn [negb]. unfold s1. cbn [ls_bufs]. rewrite Hal2. by rewrite Eu. }
    split; [exact Er|]. split; [done|]. split; [|done]. change (LState (ls_forest s) ctx bs) with (set_bufs s1 bs). rewrite Hpar.
    apply bump_split in Eu as (bs1 & b & b' & E1 & _ & Ec). assert (bs1 = [] /\ b = nb) as [_ Ebn].
    { destruct bs1 as [|? [|]]; by injection E1. }
    rewrite Ebn in Ec.
    unfold carve in Ec. destruct (_ <=? _); [|done]. injection Ec as _ <-. unfold ls_parent, s1. cbn [ls_bufs]. rewrite Enb. cbn.
    change (zlen []) with 0. lia.
  - intros [= <- <-]. rewrite (create_none _ ctx malloc a ltac:(lia) En). cbn [mbind option_bind Z.eqb]. by rewrite Ef.
Qed.
