(* ===== verification/LinearOps.v ===== *)
(** * Accesses, resizing and strings of the linear allocator

    Where the chunk of a pointer is, that accesses to it are accesses to the chunk of the arena, and the calls that use them. *)
From stdpp Require Import gmap relations.
From S2P Require Import Prelude Bytes Ralloc RallocString RallocForest RallocCorrect RallocMove RallocFree RallocSpec RallocSteps LinearAlloc LinearMem LinearSpec LinearSteps.

(** ** Chunks *)

Lemma chunk_bytes_length c : chunk_ok c -> zlen (chunk_bytes c) = 8 + zlen (lc_data c).
Proof. intros Hc. unfold chunk_bytes. rewrite !zlen_app. change (zlen (le32 _)) with 4. unfold chunk_ok in Hc. unfold zlen at 1. lia. Qed.

Lemma chunks_get_split base ptr cs d :
  Forall chunk_ok cs -> chunks_get base ptr cs = Some d ->
  exists cs1 pad cs2, cs = cs1 ++ LChunk pad d :: cs2 /\ ptr = base + zlen (chunks_bytes cs1) + 8.
Proof.
  revert base. induction cs as [|c cs IH]; intros base Hok; [done|]. apply Forall_cons in Hok as [Hc Hok]. cbn.
  destruct (Z.eqb_spec (base + 8) ptr) as [<-|].
  - intros [= <-]. exists [], (lc_pad c), cs. destruct c. split; [done|]. change (zlen (chunks_bytes [])) with 0. lia.
  - intros Hg. destruct (IH _ Hok Hg) as (cs1 & pad & cs2 & -> & ->). exists (c :: cs1), pad, cs2. split; [done|].
    change (chunks_bytes (c :: cs1)) with (chunk_bytes c ++ chunks_bytes cs1). rewrite zlen_app, chunk_bytes_length by done. lia.
Qed.

Lemma chunks_update_split f base ptr cs cs' :
  Forall chunk_ok cs -> chunks_update f base ptr cs = Some cs' ->
  exists cs1 pad d d' cs2, cs = cs1 ++ LChunk pad d :: cs2 /\ cs' = cs1 ++ LChunk pad d' :: cs2 /\ f d = Some d' /\
    ptr = base + zlen (chunks_bytes cs1) + 8.
Proof.
  revert base cs'. induction cs as [|c cs IH]; intros base cs' Hok; [done|]. apply Forall_cons in Hok as [Hc Hok]. cbn.
  destruct (Z.eqb_spec (base + 8) ptr) as [<-|].
  - destruct (f (lc_data c)) as [d'|] eqn:E; [|done]. cbn. intros [= <-]. exists [], (lc_pad c), (lc_data c), d', cs. destruct c.
    split; [done|]. split; [done|]. split; [done|]. change (zlen (chunks_bytes [])) with 0. lia.
  - destruct (chunks_update f _ ptr cs) as [r|] eqn:Hg; [|done]. cbn. intros [= <-].
    destruct (IH _ _ Hok Hg) as (cs1 & pad & d & d' & cs2 & -> & -> & Hf & ->). exists (c :: cs1), pad, d, d', cs2.
    split; [done|]. split; [done|]. split; [done|].
    change (chunks_bytes (c :: cs1)) with (chunk_bytes c ++ chunks_bytes cs1). rewrite zlen_app, chunk_bytes_length by done. lia.
Qed.

(** Where a chunk is. *)
Definition chunk_at (bs bs1 : list lbuf) (p : Z) (cs1 : list lchunk) (pad d : list Z) (cs2 : list lchunk) (fr : list Z)
    (bs2 : list lbuf) (ptr : Z) : Prop :=
  bs = bs1 ++ LBuf p (cs1 ++ LChunk pad d :: cs2) fr :: bs2 /\
  ptr = p + sizeof_linear_header + zlen (chunks_bytes cs1) + 8.

Lemma bufs_get_split ptr bs d :
  Forall buf_ok bs -> bufs_get ptr bs = Some d ->
  exists bs1 p cs1 pad cs2 fr bs2, chunk_at bs bs1 p cs1 pad d cs2 fr bs2 ptr.
Proof.
  induction 1 as [|b bs (_ & _ & Hc) Hok IH]; [done|]. cbn.
  destruct (chunks_get _ ptr (lb_chunks b)) as [d'|] eqn:E.
  - intros [= ->]. destruct (chunks_get_split _ _ _ _ Hc E) as (cs1 & pad & cs2 & Ec & Ep). destruct b as [p cs fr]. cbn in *. subst cs.
    by exists [], p, cs1, pad, cs2, fr, bs.
  - intros Hg. destruct (IH Hg) as (bs1 & p & cs1 & pad & cs2 & fr & bs2 & -> & Ep). by exists (b :: bs1), p, cs1, pad, cs2, fr, bs2.
Qed.

Lemma bufs_update_split f ptr bs bs' :
  Forall buf_ok bs -> bufs_update f ptr bs = Some bs' ->
  exists bs1 p cs1 pad d d' cs2 fr bs2, chunk_at bs bs1 p cs1 pad d cs2 fr bs2 ptr /\ chunk_at bs' bs1 p cs1 pad d' cs2 fr bs2 ptr /\
    f d = Some d'.
Proof.
  intros Hok. revert bs'. induction Hok as [|b bs (_ & _ & Hc) Hok IH]; intros bs'; [done|]. cbn.
  destruct (chunks_update f _ ptr (lb_chunks b)) as [cs'|] eqn:E.
  - intros [= <-]. destruct (chunks_update_split _ _ _ _ _ Hc E) as (cs1 & pad & d & d' & cs2 & Ec & -> & Hf & Ep).
    destruct b as [p cs fr]. cbn in *. subst cs. by exists [], p, cs1, pad, d, d', cs2, fr, bs.
  - destruct (bufs_update f ptr bs) as [r|]; [|done]. cbn. intros [= <-].
    destruct (IH r eq_refl) as (bs1 & p & cs1 & pad & d & d' & cs2 & fr & bs2 & (-> & Ep) & (-> & _) & Hf).
    by exists (b :: bs1), p, cs1, pad, d, d', cs2, fr, bs2.
Qed.

Lemma read_bytes_inner l1 p l2 o n bs :
  read_bytes p o n = Some bs -> read_bytes (l1 ++ p ++ l2) (zlen l1 + o) n = Some bs.
Proof.
  unfold read_bytes, zlen. rewrite !length_app. destruct (_ && _ && _) eqn:E; [|done].
  apply andb_prop in E as [E E3%Z.leb_le]. apply andb_prop in E as [E1%Z.leb_le E2%Z.leb_le]. intros <-.
  rewrite (proj2 (Z.leb_le _ _)), (proj2 (Z.leb_le _ _)), (proj2 (Z.leb_le _ _)) by lia. cbn [andb]. f_equal.
  replace (Z.to_nat (Z.of_nat (length l1) + o)) with (length l1 + Z.to_nat o)%nat by lia.
  rewrite drop_app_add, drop_app_le, take_app_le by (rewrite ?length_drop; lia). done.
Qed.

Lemma strlen_app s r n : strlen s = Some n -> strlen (s ++ r) = Some n.
Proof.
  revert n. induction s as [|c s IH]; intros n; [done|]. cbn. destruct (c =? 0); [done|].
  destruct (strlen s) as [k|]; [|done]. cbn. intros [= <-]. by rewrite (IH k eq_refl).
Qed.

(** ** Accesses *)

Lemma chunks_bytes_cons c cs : chunks_bytes (c :: cs) = chunk_bytes c ++ chunks_bytes cs.
Proof. done. Qed.

Lemma chunk_in_buf ctx nx lt p cs1 pad d cs2 fr :
  length pad = 4%nat -> exists pre post, zlen pre = sizeof_linear_header + zlen (chunks_bytes cs1) /\
    forall d', length d' = length d ->
      buf_bytes ctx nx lt (LBuf p (cs1 ++ LChunk pad d' :: cs2) fr) = pre ++ le32 (zlen d) ++ pad ++ d' ++ post.
Proof.
  intros Hp. set (used := chunks_bytes (cs1 ++ LChunk pad d :: cs2)).
  exists (buf_header ctx nx lt (zlen used) (zlen used + zlen fr) ++ chunks_bytes cs1), (chunks_bytes cs2 ++ fr). split.
  - rewrite zlen_app. done.
  - intros d' Hd. unfold buf_bytes. cbn [lb_chunks lb_free].
    assert (zlen (chunks_bytes (cs1 ++ LChunk pad d' :: cs2)) = zlen used) as ->.
    { unfold used. rewrite !chunks_bytes_app, !zlen_app. f_equal. unfold chunks_bytes, zlen. cbn. rewrite !length_app, Hd. done. }
    rewrite chunks_bytes_app, chunks_bytes_cons. unfold chunk_bytes. cbn [lc_data lc_pad].
    assert (zlen d' = zlen d) as -> by (unfold zlen; by rewrite Hd). by rewrite <- !app_assoc.
Qed.

Section Chunk.

Context (s : lstate) (W : lwf s) (bs1 : list lbuf) (p : Z) (cs1 : list lchunk) (pad d : list Z) (cs2 : list lchunk) (fr : list Z).
Context (bs2 : list lbuf) (ptr : Z) (Hat : chunk_at (ls_bufs s) bs1 p cs1 pad d cs2 fr bs2 ptr).

Local Notation heap := (concr (ls_full s)).

Lemma chunk_buf_ok : buf_ok (LBuf p (cs1 ++ LChunk pad d :: cs2) fr) /\ length pad = 4%nat.
Proof.
  pose proof (lw_bufs s W) as Hb. destruct Hat as [E _]. rewrite E in Hb. apply Forall_app in Hb as [_ Hb]. apply Forall_cons in Hb as [Hb _].
  split; [done|]. destruct Hb as (_ & _ & Hc). apply Forall_app in Hc as [_ Hc]. by apply Forall_cons in Hc as [Hc _].
Qed.

Lemma chunk_small : 0 < ptr /\ 0 <= zlen d < 2 ^ 32.
Proof.
  destruct chunk_buf_ok as ((H1 & H2 & _) & _). destruct Hat as [_ ->]. cbn [lb_ptr lb_chunks lb_free] in *.
  rewrite chunks_bytes_app, zlen_app in H2. rewrite chunks_bytes_cons in H2.
  unfold chunk_bytes in H2. cbn [lc_data lc_pad] in H2. rewrite !zlen_app in H2.
  pose proof (zlen_nonneg (chunks_bytes cs1)). pose proof (zlen_nonneg (chunks_bytes cs2)). pose proof (zlen_nonneg fr). pose proof (zlen_nonneg pad).
  pose proof (zlen_nonneg d). change (zlen (le32 _)) with 4 in H2. unfold sizeof_linear_header. lia.
Qed.

(** The block with the chunk. *)
Lemma chunk_block : exists l1 pre post l2, zlen pre = ptr - 8 - p /\
  forall d', length d' = length d ->
    arena_blocks (ls_ctx s) (bs1 ++ LBuf p (cs1 ++ LChunk pad d' :: cs2) fr :: bs2) =
    l1 ++ (get_header p, pre ++ le32 (zlen d) ++ pad ++ d' ++ post) :: l2.
Proof.
  destruct (arena_split (ls_ctx s) bs1 p bs2) as (l1 & lt & E).
  destruct (chunk_in_buf (ls_ctx s) (buf_next bs2) lt p cs1 pad d cs2 fr) as (pre & post & Hp & E2); [apply chunk_buf_ok|].
  exists l1, pre, post, (rest_blocks (ls_ctx s) bs2). split; [destruct Hat; lia|]. intros d' Hd. by rewrite E, E2.
Qed.

Lemma chunk_store o bs d' :
  write_bytes d o bs = Some d' ->
  let s' := set_bufs s (bs1 ++ LBuf p (cs1 ++ LChunk pad d' :: cs2) fr :: bs2) in
  mem_write heap (ptr + o) bs = Some (concr (ls_full s')) /\ lwf s' /\ ls_parent s' = ls_parent s.
Proof.
  intros Hw s'. destruct chunk_block as (l1 & pre & post & l2 & Hp & E). pose proof (write_bytes_length _ _ _ _ Hw) as Hd.
  pose proof (E d' Hd) as E'. specialize (E d eq_refl). destruct Hat as [Eb _]. pose proof chunk_buf_ok as [_ Hpad].
  pose proof (lw_att s W) as Hl. pose proof (lw_apart s W) as Hap. unfold ls_full in *. rewrite Eb, E in *.
  set (hd := pre ++ le32 (zlen d) ++ pad) in *.
  assert (forall x, pre ++ le32 (zlen d) ++ pad ++ x ++ post = hd ++ x ++ post) as Eh by (intros x; unfold hd; by rewrite <- !app_assoc).
  rewrite Eh in *. assert (zlen hd = ptr - p) as Hh by (unfold hd; rewrite !zlen_app; change (zlen (le32 _)) with 4; unfold zlen at 2; lia).
  destruct (block_write _ (lw_forest s W) _ l1 l2 _ _ Hl Hap (zlen hd + o) bs _ (write_bytes_mid hd d post o bs d' Hw)) as [Ew Ha].
  rewrite ptr_header in Ew. replace (p + (zlen hd + o)) with (ptr + o) in Ew by lia. split; [|split].
  - unfold s', set_bufs. cbn [ls_forest ls_ctx ls_bufs]. by rewrite E', Ew.
  - constructor; cbn [ls_forest ls_ctx ls_bufs s' set_bufs]; try apply W.
    + rewrite E'. by apply (attachable_mid _ _ _ _ _ _ _ Hl).
    + unfold ls_full, s', set_bufs. cbn [ls_forest ls_ctx ls_bufs]. by rewrite E'.
    + pose proof (lw_bufs s W) as Hb. rewrite Eb in Hb. apply Forall_app in Hb as [Hb1 Hb]. apply Forall_cons in Hb as [Hb Hb2].
      apply Forall_app. split; [done|]. constructor; [|done]. destruct Hb as (B1 & B2 & B3). split; [done|]. cbn [lb_chunks lb_free] in *. split.
      * rewrite chunks_bytes_app, zlen_app in *. unfold chunks_bytes, zlen in *. cbn in *. rewrite !length_app in *. cbn in *. lia.
      * apply Forall_app in B3 as [B3 B4]. apply Forall_cons in B4 as [B4 B5]. apply Forall_app. split; [done|]. by constructor.
  - apply parent_ptrs. rewrite Eb, !fmap_app. done.
Qed.

Lemma chunk_read o n bs : read_bytes d o n = Some bs -> mem_read heap (ptr + o) n = Some bs.
Proof.
  intros Hr. destruct chunk_block as (l1 & pre & post & l2 & Hp & E). specialize (E d eq_refl). destruct Hat as [Eb _]. pose proof chunk_buf_ok as [_ Hpad].
  pose proof (lw_att s W) as Hl. pose proof (lw_apart s W) as Hap. unfold ls_full in *. rewrite Eb, E in *.
  set (hd := pre ++ le32 (zlen d) ++ pad) in *.
  assert (pre ++ le32 (zlen d) ++ pad ++ d ++ post = hd ++ d ++ post) as Eh by (unfold hd; by rewrite <- !app_assoc).
  rewrite Eh in *. assert (zlen hd = ptr - p) as Hh by (unfold hd; rewrite !zlen_app; change (zlen (le32 _)) with 4; unfold zlen at 2; lia).
  pose proof (block_read _ (lw_forest s W) _ l1 l2 _ _ Hl Hap (zlen hd + o) n bs (read_bytes_inner hd d post o n bs Hr)) as Er.
  rewrite ptr_header in Er. by replace (p + (zlen hd + o)) with (ptr + o) in Er by lia.
Qed.

Lemma chunk_size : load32 heap (ptr - sizeof_linear_size_chunk) = Some (zlen d).
Proof.
  pose proof (proj2 chunk_small) as Hsm. destruct chunk_block as (l1 & pre & post & l2 & Hp & E). specialize (E d eq_refl). destruct Hat as [Eb _].
  pose proof (lw_att s W) as Hl. pose proof (lw_apart s W) as Hap. unfold ls_full in *. rewrite Eb, E in *.
  pose proof (block_load32 _ (lw_forest s W) _ l1 l2 _ _ Hl Hap pre (zlen d) _ _ eq_refl eq_refl Hsm) as El.
  rewrite ptr_header in El. unfold sizeof_linear_size_chunk. by replace (p + zlen pre) with (ptr - 8) in El by lia.
Qed.

Lemma chunk_string : d <> [] -> exists r, bytes_from heap ptr = Some (d ++ r).
Proof.
  intros Hne. destruct chunk_block as (l1 & pre & post & l2 & Hp & E). specialize (E d eq_refl). destruct Hat as [Eb _]. pose proof chunk_buf_ok as [_ Hpad].
  pose proof (lw_att s W) as Hl. pose proof (lw_apart s W) as Hap. unfold ls_full in *. rewrite Eb, E in *. exists post.
  pose proof (attach_mid_lookup _ (lw_forest s W) _ _ _ _ _ Hl) as Ha.
  pose proof (bytes_from_concr _ _ _ (ptr - p) Hap Ha) as Ef. rewrite ptr_header in Ef. cbn [fn_data] in Ef.
  assert (Z.to_nat (ptr - p) = (length pre + (4 + 4))%nat) as Ho by (unfold zlen in Hp; lia).
  replace (p + (ptr - p)) with ptr in Ef by lia. rewrite Ef, Ho.
  - f_equal. rewrite drop_app_add. change (le32 (zlen d) ++ pad ++ d ++ post) with (le32 (zlen d) ++ (pad ++ d ++ post)).
    replace (4 + 4)%nat with (length (le32 (zlen d)) + length pad)%nat by (by rewrite Hpad). by rewrite drop_app_add, drop_app_length.
  - unfold zlen in Hp. rewrite !length_app, Hpad, le32_length. destruct d; [done|]. cbn [length]. lia.
Qed.

End Chunk.

(** ** Accesses *)

Lemma arena_kept_trans s1 s2 s3 : kept s1 s2 -> kept s2 s3 -> kept s1 s3.
Proof. intros (_ & E1 & E2 & E3) (W & F1 & F2 & F3). split; [done|]. split_and!; congruence. Qed.

Section Get.

Context (s : lstate) (W : lwf s) (ptr : Z) (d : list Z) (Hget : bufs_get ptr (ls_bufs s) = Some d).

Local Notation heap := (concr (ls_full s)).

Lemma get_read o n bs : read_bytes d o n = Some bs -> mem_read heap (ptr + o) n = Some bs.
Proof.
  destruct (bufs_get_split _ _ _ (lw_bufs s W) Hget) as (bs1 & p & cs1 & pad & cs2 & fr & bs2 & Hat). by apply (chunk_read s W _ _ _ _ _ _ _ _ _ Hat).
Qed.

Lemma get_size : load32 heap (ptr - sizeof_linear_size_chunk) = Some (zlen d).
Proof.
  destruct (bufs_get_split _ _ _ (lw_bufs s W) Hget) as (bs1 & p & cs1 & pad & cs2 & fr & bs2 & Hat). by apply (chunk_size s W _ _ _ _ _ _ _ _ _ Hat).
Qed.

Lemma get_nonzero : ptr <> 0.
Proof.
  destruct (bufs_get_split _ _ _ (lw_bufs s W) Hget) as (bs1 & p & cs1 & pad & cs2 & fr & bs2 & Hat).
  destruct (chunk_small s W _ _ _ _ _ _ _ _ _ Hat). lia.
Qed.

Lemma get_strlen n : strlen d = Some n -> exists r, bytes_from heap ptr = Some (d ++ r) /\ strlen (d ++ r) = Some n.
Proof.
  intros Hn. destruct (bufs_get_split _ _ _ (lw_bufs s W) Hget) as (bs1 & p & cs1 & pad & cs2 & fr & bs2 & Hat).
  destruct (chunk_string s W _ _ _ _ _ _ _ _ _ Hat) as [r Hr]; [by destruct d|]. exists r. split; [done|]. by apply strlen_app.
Qed.

End Get.

(** A store, in one piece or in two. *)
Lemma a_store_split s ptr o bs s' :
  lwf s -> a_store s ptr o bs = Some s' ->
  exists d d' bs1 p cs1 pad cs2 fr bs2, chunk_at (ls_bufs s) bs1 p cs1 pad d cs2 fr bs2 ptr /\
    s' = set_bufs s (bs1 ++ LBuf p (cs1 ++ LChunk pad d' :: cs2) fr :: bs2) /\ write_bytes d o bs = Some d'.
Proof.
  intros W. unfold a_store. destruct (bufs_update _ ptr (ls_bufs s)) as [bufs|] eqn:E; [|done]. cbn. intros [= <-].
  destruct (bufs_update_split _ _ _ _ (lw_bufs s W) E) as (bs1 & p & cs1 & pad & d & d' & cs2 & fr & bs2 & H1 & [-> _] & Hw).
  by exists d, d', bs1, p, cs1, pad, cs2, fr, bs2.
Qed.

Lemma a_store_ok s ptr o bs s' :
  lwf s -> a_store s ptr o bs = Some s' -> mem_write (concr (ls_full s)) (ptr + o) bs = Some (concr (ls_full s')) /\ kept s s'.
Proof.
  intros W Hs. destruct (a_store_split s ptr o bs s' W Hs) as (d & d' & bs1 & p & cs1 & pad & cs2 & fr & bs2 & Hat & -> & Hw).
  destruct (chunk_store s W _ _ _ _ _ _ _ _ _ Hat o bs d' Hw) as (Em & W' & Ep). by split.
Qed.

Lemma chunk_at_set s bs1 p cs1 pad d cs2 fr bs2 ptr d' :
  chunk_at (ls_bufs s) bs1 p cs1 pad d cs2 fr bs2 ptr ->
  chunk_at (ls_bufs (set_bufs s (bs1 ++ LBuf p (cs1 ++ LChunk pad d' :: cs2) fr :: bs2))) bs1 p cs1 pad d' cs2 fr bs2 ptr.
Proof. intros [_ Hp]. by split. Qed.

Lemma a_store_app s ptr o bs bs' s' :
  lwf s -> a_store s ptr o (bs ++ bs') = Some s' ->
  exists m, mem_write (concr (ls_full s)) (ptr + o) bs = Some m /\ mem_write m (ptr + (o + zlen bs)) bs' = Some (concr (ls_full s')).
Proof.
  intros W Hs. destruct (a_store_split s ptr o _ s' W Hs) as (d & d' & bs1 & p & cs1 & pad & cs2 & fr & bs2 & Hat & -> & Hw).
  apply (write_bytes_split _ _ _ _ _ (o + zlen bs)) in Hw as (d1 & H1 & H2); [|done].
  destruct (chunk_store s W _ _ _ _ _ _ _ _ _ Hat o bs d1 H1) as (Em & W' & _).
  destruct (chunk_store _ W' _ _ _ _ _ _ _ _ _ (chunk_at_set _ _ _ _ _ _ _ _ _ _ d1 Hat) _ _ _ H2) as (Em2 & _ & _). by eauto.
Qed.

Lemma a_store_string s ptr bs s' n :
  lwf s -> a_store s ptr 0 bs = Some s' -> strlen bs = Some n ->
  exists r, bytes_from (concr (ls_full s')) ptr = Some r /\ strlen r = Some n.
Proof.
  intros W Hs Hn. destruct (a_store_split s ptr 0 _ s' W Hs) as (d & d' & bs1 & p & cs1 & pad & cs2 & fr & bs2 & Hat & -> & Hw).
  destruct (chunk_store s W _ _ _ _ _ _ _ _ _ Hat _ _ _ Hw) as (_ & W' & _). apply write_bytes_inv in Hw as (_ & _ & ->).
  destruct (chunk_string _ W' _ _ _ _ _ _ _ _ _ (chunk_at_set _ _ _ _ _ _ _ _ _ _ _ Hat)) as [r Hr]; [by destruct bs|].
  eexists. split; [exact Hr|]. change (take (Z.to_nat 0) d) with (@nil Z). cbn [app]. rewrite <- app_assoc. by apply strlen_app.
Qed.

(** A call, then stores. *)
Lemma fill_inv s r a o bs s' p :
  refines s r a -> a_fill a o bs = Some (s', p) ->
  exists s1, a = Some (s1, p) /\ r = Some (concr (ls_full s1), p) /\ kept s s1 /\ kept s s' /\
    ((p = 0 /\ s' = s1) \/ (p <> 0 /\ a_store s1 p o bs = Some s')).
Proof.
  intros Hr. unfold a_fill. destruct a as [[s1 p1]|] eqn:Ea; [|done]. cbn [mbind option_bind]. destruct (Hr s1 p1 eq_refl) as [-> K].
  destruct (Z.eqb_spec p1 0) as [->|Hp]; [intros [= <- <-]; exists s1; by eauto 10|].
  destruct (a_store s1 p1 o bs) as [s2|] eqn:Es; [|done]. cbn [mbind option_bind]. intros [= <- <-]. exists s1.
  split; [done|]. split; [done|]. split; [done|]. split; [|by right]. apply (arena_kept_trans _ _ _ K). by apply (a_store_ok s1 p1 o bs s2 (proj1 K)).
Qed.

Lemma store_at_0 s ptr bs s' :
  lwf s -> a_store s ptr 0 bs = Some s' -> mem_write (concr (ls_full s)) ptr bs = Some (concr (ls_full s')).
Proof. intros W Hs. destruct (a_store_ok s ptr 0 bs s' W Hs) as [E _]. by rewrite Z.add_0_r in E. Qed.

(** ** Chunks stay *)

Lemma chunks_get_app base ptr cs cs' d : chunks_get base ptr cs = Some d -> chunks_get base ptr (cs ++ cs') = Some d.
Proof. revert base. induction cs as [|c cs IH]; intros base; [done|]. cbn. case_match; [done|]. apply IH. Qed.

Lemma bufs_get_app ptr bs bs' d : bufs_get ptr bs = Some d -> bufs_get ptr (bs ++ bs') = Some d.
Proof. induction bs as [|b bs IH]; [done|]. cbn. by destruct (chunks_get _ ptr _). Qed.

Lemma bump_get sz bs bs' q ptr d : bump sz bs = Some (bs', q) -> bufs_get ptr bs = Some d -> bufs_get ptr bs' = Some d.
Proof.
  intros (bs1 & b & b' & -> & -> & Hc)%bump_split.
  assert (exists c, lb_ptr b' = lb_ptr b /\ lb_chunks b' = lb_chunks b ++ [c]) as (c & Ep & Ec).
  { unfold carve in Hc. destruct (_ <=? _); [|done]. injection Hc as <- _. by eexists. }
  induction bs1 as [|x bs1 IH]; cbn.
  - rewrite Ep, Ec. destruct (chunks_get _ ptr (lb_chunks b)) eqn:E; [|done]. intros [= ->]. by rewrite (chunks_get_app _ _ _ _ _ E).
  - destruct (chunks_get _ ptr (lb_chunks x)); [done|]. apply IH.
Qed.

Lemma a_alloc_get malloc s sz s' p ptr d :
  a_alloc malloc s sz = Some (s', p) -> bufs_get ptr (ls_bufs s) = Some d -> bufs_get ptr (ls_bufs s') = Some d.
Proof.
  unfold a_alloc. destruct (lsize_ok sz); [|done]. cbn [negb]. destruct (bump _ (ls_bufs s)) as [[bs q]|] eqn:E.
  - intros [= <- <-]. by apply (bump_get _ _ _ _ _ _ E).
  - case_bool_decide; [done|]. destruct (new_buf _ _ _) as [[nb|]|]; cbn [mbind option_bind]; [| |done].
    + destruct (bump _ (_ ++ [nb])) as [[bs q]|] eqn:E2; [|done]. cbn. intros [= <- <-] Hg.
      by apply (bump_get _ _ _ _ _ _ E2), bufs_get_app.
    + by intros [= <- <-].
Qed.

(** ** Calls *)

Lemma read_at_most d n : 0 <= n -> read_bytes d 0 (Z.min (zlen d) n) = Some (take (Z.to_nat n) d).
Proof.
  intros Hn. unfold read_bytes, zlen. rewrite (proj2 (Z.leb_le _ _)), (proj2 (Z.leb_le _ _)), (proj2 (Z.leb_le _ _)) by lia. cbn [andb].
  change (Z.to_nat 0) with 0%nat. rewrite drop_0. f_equal. destruct (Z.min_spec (Z.of_nat (length d)) n) as [[Hlt ->]|[Hge ->]]; [|done].
  rewrite !take_ge by lia. done.
Qed.

Lemma a_alloc_size malloc s sz r : a_alloc malloc s sz = Some r -> 0 <= sz <= 2 ^ 31 - 64.
Proof. unfold a_alloc. destruct (lsize_ok sz) eqn:E; [|done]. intros _. by apply lsize_ok_inv. Qed.

Section Calls.

Context (malloc : malloc_result) (s : lstate) (W : lwf s).

Local Notation heap := (concr (ls_full s)).
Local Notation parent := (ls_parent s).

Lemma linear_zalloc_child_ok sz :
  refines s (linear_zalloc_child malloc heap parent sz) (a_fill (a_alloc malloc s sz) 0 (replicate (Z.to_nat sz) 0)).
Proof.
  intros s' p E. destruct (fill_inv _ _ _ _ _ _ _ (linear_alloc_child_ok malloc s W sz) E) as (s1 & _ & Er & K1 & K & Hs).
  split; [|done]. unfold linear_zalloc_child. rewrite Er. cbn [mbind option_bind]. destruct Hs as [[-> ->]|[Hp Hs]]; [done|].
  rewrite (proj2 (Z.eqb_neq _ _)) by done. by rewrite (store_at_0 s1 p _ _ (proj1 K1) Hs).
Qed.

Lemma linear_realloc_ok old sz : refines s (linear_realloc malloc heap parent old sz) (a_realloc malloc s old sz).
Proof.
  intros s' p. unfold a_realloc, linear_realloc. destruct (Z.eqb_spec old 0) as [->|Ho].
  - intros E. by destruct (linear_alloc_child_ok malloc s W sz s' p E) as [-> K].
  - destruct (bufs_get old (ls_bufs s)) as [d|] eqn:Hg; [|done]. cbn [mbind option_bind]. intros E.
    destruct (fill_inv _ _ _ _ _ _ _ (linear_alloc_child_ok malloc s W sz) E) as (s1 & Ea & -> & K1 & K & Hs). cbn [mbind option_bind].
    pose proof (a_alloc_get _ _ _ _ _ _ _ Ea Hg) as Hg1. pose proof (a_alloc_size _ _ _ _ Ea) as Hsz.
    rewrite (get_size s1 (proj1 K1) old d Hg1). cbn [mbind option_bind]. split; [|done].
    destruct Hs as [[-> ->]|[Hp Hs]]; [done|]. rewrite (proj2 (Z.eqb_neq _ _)) by done. cbn [orb].
    apply (store_at_0 s1 p _ _ (proj1 K1)) in Hs. destruct (Z.eqb_spec (zlen d) 0) as [Ez|Hz].
    + destruct d; [|done]. rewrite take_nil in Hs. unfold mem_write in Hs. cbn in Hs. injection Hs as Hs. by rewrite Hs.
    + pose proof (get_read s1 (proj1 K1) old d Hg1 0 _ _ (read_at_most d sz (proj1 Hsz))) as Er. rewrite Z.add_0_r in Er.
      rewrite Er. cbn [mbind option_bind]. by rewrite Hs.
Qed.

Lemma linear_strdup_ok str :
  refines s (linear_strdup malloc heap parent (Some str)) (n ← strlen str; a_print malloc s (take (Z.to_nat n) str)).
Proof.
  intros s' p. unfold linear_strdup. destruct (strlen str) as [n|] eqn:En; [|done]. cbn [mbind option_bind]. apply strlen_bound in En.
  set (text := take (Z.to_nat n) str). assert (zlen text = n) as Ht by (unfold text, zlen; rewrite length_take; lia). intros E.
  unfold a_print in E. rewrite Ht in E.
  destruct (fill_inv _ _ _ _ _ _ _ (linear_alloc_child_ok malloc s W (n + 1)) E) as (s1 & Ea & Er & K1 & K & Hs).
  split; [|done]. pose proof (a_alloc_size _ _ _ _ Ea) as Hsz. rewrite (u32_small n), (u32_small (n + 1)), Er by lia. cbn [mbind option_bind].
  destruct Hs as [[-> ->]|[Hp Hs]]; [done|]. rewrite (proj2 (Z.eqb_neq _ _)) by done.
  rewrite (read_prefix str n) by lia. cbn [mbind option_bind].
  apply (a_store_app s1 _ _ _ _ _ (proj1 K1)) in Hs as (m & E1 & E2). fold text. rewrite Z.add_0_r in E1. rewrite E1. cbn [mbind option_bind].
  rewrite Z.add_0_l, Ht in E2. by rewrite E2.
Qed.

Lemma take_whole (text : list Z) : take (Z.to_nat (zlen text + 1 - 1)) text = text.
Proof. apply take_ge. unfold zlen. lia. Qed.

Lemma linear_vasprintf_ok text : refines s (linear_vasprintf malloc heap parent text) (a_print malloc s text).
Proof.
  intros s' p E. destruct (fill_inv _ _ _ _ _ _ _ (linear_alloc_child_ok malloc s W (zlen text + 1)) E) as (s1 & Ea & Er & K1 & K & Hs).
  split; [|done]. pose proof (a_alloc_size _ _ _ _ Ea) as Hsz. unfold linear_vasprintf, printf_length. unfold zlen in *.
  rewrite (proj2 (Z.ltb_lt _ _)) by lia. cbn [mbind option_bind]. rewrite u32_small, Er by lia. cbn [mbind option_bind].
  destruct Hs as [[-> ->]|[Hp Hs]]; [done|]. rewrite (proj2 (Z.eqb_neq _ _)) by done.
  unfold linear_vsnprintf. rewrite (proj2 (Z.eqb_neq _ _)) by lia. rewrite (take_whole text : take (Z.to_nat (Z.of_nat (length text) + 1 - 1)) _ = _).
  by rewrite (store_at_0 s1 p _ _ (proj1 K1) Hs).
Qed.

(** The resized chunk, and the new tail. *)
Lemma tail_inv old start text s' p :
  a_tail malloc s old start text = Some (s', p) ->
  old <> 0 /\ 0 <= start /\ start + zlen text + 1 <= 2 ^ 31 - 64 /\
  exists s1, linear_realloc malloc heap parent old (start + zlen text + 1) = Some (concr (ls_full s1), p) /\ kept s s1 /\ kept s s' /\
    ((p = 0 /\ s' = s1) \/ (p <> 0 /\ a_store s1 p start (text ++ [0]) = Some s')).
Proof.
  unfold a_tail. destruct (Z.eqb_spec old 0) as [|Ho]; [done|]. destruct (Z.ltb_spec start 0) as [|Hst]; [done|]. cbn [orb]. intros E.
  destruct (fill_inv _ _ _ _ _ _ _ (linear_realloc_ok old (start + zlen text + 1)) E) as (s1 & Ea & Er & K1 & K & Hs).
  split; [done|]. split; [done|]. split; [|by exists s1]. unfold a_realloc in Ea. rewrite (proj2 (Z.eqb_neq _ _)) in Ea by done.
  destruct (bufs_get old (ls_bufs s)) as [d|]; [|done]. cbn in Ea. unfold a_fill in Ea.
  destruct (a_alloc _ _ _) as [r|] eqn:E1; [|done]. apply a_alloc_size in E1. lia.
Qed.

Lemma linear_vasprintf_rewrite_tail_ok str start text :
  refines s (linear_vasprintf_rewrite_tail malloc heap parent str start text) (a_rewrite malloc s str start text).
Proof.
  intros s' x. unfold a_rewrite, linear_vasprintf_rewrite_tail. destruct (Z.eqb_spec str 0) as [->|Hs0].
  - destruct (a_print malloc s text) as [[s1 p]|] eqn:E; [|done]. cbn [mbind option_bind]. destruct (Z.eqb_spec p 0) as [|Hp]; [done|].
    destruct (strlen (text ++ [0])) as [n|] eqn:En; [|done]. cbn [mbind option_bind]. intros [= <- <-].
    destruct (linear_vasprintf_ok text s1 p E) as [-> K]. split; [|done]. cbn [mbind option_bind].
    destruct (fill_inv _ _ _ _ _ _ _ (linear_alloc_child_ok malloc s W (zlen text + 1)) E) as (s2 & _ & _ & K2 & _ & [[? _]|[_ Hs]]); [done|].
    destruct (a_store_string _ _ _ _ _ (proj1 K2) Hs En) as (r & -> & Er). cbn [mbind option_bind]. by rewrite Er.
  - destruct (a_tail malloc s str start text) as [[s1 p]|] eqn:E; [|done]. cbn [mbind option_bind].
    destruct (tail_inv _ _ _ _ _ E) as (_ & Hst & Hsz & s2 & Er & K2 & K & Hs). pose proof (zlen_nonneg text). intros Ex.
    unfold printf_length. unfold zlen in *. rewrite (proj2 (Z.ltb_lt _ _)) by lia. cbn [mbind option_bind]. rewrite u32_small, Er by lia. cbn [mbind option_bind].
    destruct Hs as [[-> ->]|[Hp Hs]]; [by injection Ex as <- <-|]. rewrite (proj2 (Z.eqb_neq _ _)) in Ex |- * by done.
    unfold u64. rewrite !Z.mod_small by lia. unfold linear_vsnprintf. rewrite (proj2 (Z.eqb_neq _ _)) by lia.
    rewrite (take_whole text : take (Z.to_nat (Z.of_nat (length text) + 1 - 1)) _ = _).
    destruct (a_store_ok _ _ _ _ _ (proj1 K2) Hs) as [-> _]. cbn [mbind option_bind]. by injection Ex as <- <-.
Qed.

Lemma linear_vasprintf_append_ok str text s' r :
  a_step s (LAsprintfAppend malloc str text) = Some (s', r) ->
  exists str' ok, linear_vasprintf_append malloc heap parent str text = Some (concr (ls_full s'), (str', ok)) /\ r = RString str' ok /\ kept s s'.
Proof.
  cbn [a_step]. unfold linear_vasprintf_append.
  assert (forall n, (if str =? 0 then Some 0 else d ← bufs_get str (ls_bufs s); strlen d) = Some n ->
    (if str =? 0 then Some 0 else d ← bytes_from heap str; strlen d) = Some n) as Hn.
  { intros n. destruct (str =? 0); [done|]. destruct (bufs_get str (ls_bufs s)) as [d|] eqn:Hg; [|done]. cbn. intros Hd.
    destruct (get_strlen s W str d Hg n Hd) as (r' & -> & Hr). done. }
  destruct (if str =? 0 then Some 0 else _) as [n|]; [|done]. rewrite (Hn n eq_refl). cbn [mbind option_bind].
  destruct (a_rewrite malloc s str n text) as [[s1 [[str' start] ok]]|] eqn:E; [|done]. cbn [mbind option_bind]. intros [= <- <-].
  destruct (linear_vasprintf_rewrite_tail_ok _ _ _ _ _ E) as [-> K]. by exists str', ok.
Qed.

Lemma linear_strcat_ok dest str s' r :
  a_step s (LStrcat malloc dest str) = Some (s', r) ->
  exists dest' ok, linear_strcat malloc heap parent dest str = Some (concr (ls_full s'), (dest', ok)) /\ r = RString dest' ok /\ kept s s'.
Proof.
  cbn [a_step]. unfold linear_strcat, linear_cat. destruct (strlen str) as [n|] eqn:En; [|done]. apply strlen_bound in En. cbn [mbind option_bind].
  destruct (bufs_get dest (ls_bufs s)) as [d|] eqn:Hg; [|done]. cbn [mbind option_bind].
  destruct (strlen d) as [e|] eqn:Ee; [|done]. cbn [mbind option_bind]. destruct (get_strlen s W dest d Hg e Ee) as (q & -> & Eq).
  set (text := take (Z.to_nat n) str). assert (zlen text = n) as Ht by (unfold text, zlen; rewrite length_take; lia).
  unfold a_string. destruct (a_tail malloc s dest e text) as [[s1 p]|] eqn:E; [|done]. cbn [mbind option_bind].
  destruct (tail_inv _ _ _ _ _ E) as (Hd & He & Hsz & s2 & Er & K2 & K & Hs). rewrite Ht in *. rewrite (proj2 (Z.eqb_neq dest _)) by done.
  rewrite Eq. cbn [mbind option_bind]. rewrite (u32_small n), (u32_small e), (u32_small (e + n + 1)), (u32_small (e + n)), Er by lia. cbn [mbind option_bind].
  destruct Hs as [[-> ->]|[Hp Hs]]; [intros [= <- <-]; by exists dest, false|]. rewrite (proj2 (Z.eqb_neq p _)) by done. intros [= <- <-].
  rewrite (read_prefix str n) by lia. cbn [mbind option_bind]. fold text.
  apply (a_store_app s2 _ _ _ _ _ (proj1 K2)) in Hs as (m & E1 & E2). rewrite E1. cbn [mbind option_bind]. rewrite Ht in E2. rewrite E2.
  by exists p, true.
Qed.

End Calls.

Lemma linear_zalloc_parent_ok malloc s ctx sz s' p :
  lwf s -> a_fill (a_create malloc s ctx sz) 0 (replicate (Z.to_nat sz) 0) = Some (s', p) ->
  linear_zalloc_parent malloc (concr (ls_full s)) ctx sz = Some (concr (ls_full s'), p) /\ lwf s' /\
  ls_parent s' = p /\ ls_forest s' = ls_forest s.
Proof.
  intros W. unfold a_fill, linear_zalloc_parent. destruct (a_create malloc s ctx sz) as [[s1 p1]|] eqn:E; [|done]. cbn [mbind option_bind].
  destruct (linear_alloc_parent_ok malloc s ctx sz s1 p1 W E) as (-> & W1 & Ep & Ef). cbn [mbind option_bind].
  destruct (Z.eqb_spec p1 0) as [->|Hp]; [by intros [= <- <-]|]. destruct (a_store _ _ _ _) as [s2|] eqn:Es; [|done]. cbn [mbind option_bind].
  intros [= <- <-]. rewrite (store_at_0 s1 p1 _ _ W1 Es). destruct (a_store_ok s1 p1 _ _ _ W1 Es) as (_ & W2 & K1 & K2 & _).
  split; [done|]. split; [done|]. split; congruence.
Qed.
