(* ===== verification/LinearTheorems.v ===== *)
(** * The linear allocator is an arena

    Freeing and moving all buffers, and the main theorem on the linear allocator: clients cannot tell the buffers in
    memory from an arena of separate chunks. *)
From stdpp Require Import gmap relations.
From S2P Require Import Prelude Bytes Ralloc RallocString RallocForest RallocCorrect RallocMove RallocFree RallocSpec RallocSteps RallocTheorems LinearAlloc LinearMem LinearSpec LinearSteps LinearOps.

(** ** The list of buffers *)

(** Buffers, each with the pointer in its header to the latest one. *)
Fixpoint link_blocks (ctx : Z) (bl : list (lbuf * Z)) : list (Z * list Z) :=
  match bl with
  | [] => []
  | (b, lt) :: r => (get_header (lb_ptr b), buf_bytes ctx (buf_next r.*1) lt b) :: link_blocks ctx r
  end.

Lemma arena_linked bs : exists bl, bl.*1 = bs /\ forall ctx, arena_blocks ctx bs = link_blocks ctx bl.
Proof.
  assert (forall bs, exists bl, bl.*1 = bs /\ forall ctx, rest_blocks ctx bs = link_blocks ctx bl) as Hr.
  { clear. induction bs as [|b bs (bl & <- & E)]; [by exists []|].
    exists ((b, if buf_next bl.*1 =? 0 then lb_ptr b else buf_next bl.*1) :: bl). split; [done|]. intros ctx. cbn. by rewrite E. }
  destruct bs as [|b bs]; [by exists []|]. destruct (Hr bs) as (bl & <- & E). exists ((b, zlast (lb_ptr <$> b :: bl.*1)) :: bl).
  split; [done|]. intros ctx. cbn [arena_blocks link_blocks]. by rewrite E.
Qed.

Lemma link_blocks_addrs ctx bl : (link_blocks ctx bl).*1 = get_header <$> (lb_ptr <$> bl.*1).
Proof. induction bl as [|[b lt] bl IH]; [done|]. cbn. by rewrite IH. Qed.

Lemma buf_next_bound bs : Forall buf_ok bs -> 0 <= buf_next bs < 2 ^ 64.
Proof. intros [|b r (Hb & _)]; cbn; [done|]. unfold buf_next. cbn. lia. Qed.

(** ** Extents *)

Lemma apart_data F G :
  (forall x y, G !! x = Some y -> exists z, F !! x = Some z /\ length (fn_data z) = length (fn_data y)) -> apart F -> apart G.
Proof.
  intros Hx Hap b c m k Hb Hc Hne. destruct (Hx b m Hb) as (m' & Hm' & E1). destruct (Hx c k Hc) as (k' & Hk' & E2).
  unfold extent_ok. rewrite <- E1, <- E2. by apply (Hap b c m' k').
Qed.

Lemma attach_data F c l x :
  fwf F -> attachable F c l ->
  fn_data <$> attach F c l !! x = match (list_to_map l : gmap Z (list Z)) !! x with Some d => Some d | None => fn_data <$> F !! x end.
Proof. intros H Hl. rewrite attach_lookup by done. destruct (list_to_map l !! x); [done|]. case_decide; [|done]. by destruct (F !! x). Qed.

Lemma apart_without F c a d l : fwf F -> attachable F c ((a, d) :: l) -> apart (attach F c ((a, d) :: l)) -> apart (attach F c l).
Proof.
  intros H Hl. destruct (attachable_without F c [] a d l Hl) as (Hl' & Hna & Hp & Hf). cbn [app] in *. apply apart_data. intros x y Hy.
  assert (fn_data <$> attach F c ((a, d) :: l) !! x = Some (fn_data y)) as E.
  { rewrite attach_data by done. cbn. pose proof (attach_data F c l x H Hl') as E1. rewrite Hy in E1.
    destruct (decide (x = a)) as [->|Hx]; [by rewrite list_to_map_absent, Hf in E1|]. by rewrite lookup_insert_ne. }
  destruct (attach F c ((a, d) :: l) !! x) as [z|]; [|done]. injection E as E. exists z. by rewrite E.
Qed.

Lemma apart_base F c l : fwf F -> attachable F c l -> apart (attach F c l) -> apart F.
Proof.
  intros H Hl. apply apart_data. intros x y Hy. pose proof (attach_data F c l x H Hl) as E. rewrite list_to_map_absent, Hy in E.
  - destruct (attach F c l !! x) as [z|]; [|done]. injection E as E. exists z. by rewrite E.
  - intros Hi. destruct Hl as (_ & _ & Hn). destruct (Hn x Hi). congruence.
Qed.

(** ** Freeing *)

Section Free.

Context (F : forest) (H : fwf F) (c ctx : Z).

Lemma free_nodes_ok bl fuel :
  attachable F c (link_blocks ctx bl) -> apart (attach F c (link_blocks ctx bl)) -> Forall buf_ok bl.*1 -> (length bl < fuel)%nat ->
  free_nodes fuel (concr (attach F c (link_blocks ctx bl))) (buf_next bl.*1) = Some (concr F, []).
Proof.
  revert fuel. induction bl as [|[b lt] bl IH]; intros [|fuel] Hl Hap Hok Hfu; cbn [length] in Hfu; try lia; [done|].
  cbn [fmap list_fmap fst] in Hok. apply Forall_cons in Hok as [Hb Hok]. cbn [link_blocks] in *. set (a := get_header (lb_ptr b)) in *.
  set (d := buf_bytes _ _ _ b) in *. change (buf_next ((b, lt) :: bl).*1) with (lb_ptr b). cbn [free_nodes].
  rewrite (proj2 (Z.eqb_neq _ _)) by (destruct Hb; lia).
  pose proof (block_load64 F H c [] _ a d Hl Hap _ _ _ _ (buf_next_at _ _ _ _) eq_refl (buf_next_bound _ Hok)) as El.
  unfold a in El. rewrite ptr_header in El. fold a in El. cbn [app] in El. change (zlen _) with lh_next in El. rewrite El. cbn [mbind option_bind].
  destruct (ralloc_free_concr _ a _ (attach_wf F c _ H Hl) (attach_mid_lookup F H c [] _ a d Hl)) as (F1 & calls & E1 & _ & E2).
  cbn [app] in E2. unfold a in E2. rewrite ptr_header in E2. fold a in E2. rewrite E2. cbn [mbind option_bind].
  pose proof (attach_free F H c [] _ a d Hl) as E3. cbn [app] in E1, E3. rewrite E3 in E1. injection E1 as <- <-. cbn [app].
  rewrite IH; [done|..|done|lia].
  - apply (attachable_without F c [] a d _ Hl).
  - by apply (apart_without F c a d).
Qed.

End Free.

(** Every block of a list is in memory. *)
Lemma attach_size F c l : fwf F -> attachable F c l -> (length l <= size (concr (attach F c l)))%nat.
Proof.
  intros H Hl. rewrite <- size_dom, <- (length_fmap fst). assert (NoDup l.*1) as Hnd by apply Hl.
  rewrite <- (size_list_to_set (C := gset Z) _ Hnd). apply subseteq_size. intros x Hx%elem_of_list_to_set. apply elem_of_dom.
  rewrite concr_lookup, attach_lookup by done. destruct (list_to_map l !! x) eqn:E; [by eexists|].
  exfalso. by apply (not_elem_of_list_to_map_2 (M := gmap Z) l x E).
Qed.

Lemma link_length ctx bl : length (link_blocks ctx bl) = length bl.
Proof. induction bl as [|[b lt] bl IH]; [done|]. cbn. by rewrite IH. Qed.

(** ** Moving *)

Lemma ralloc_steal_concr G a n new_ctx :
  fwf G -> G !! a = Some n -> ctx_header new_ctx <> a -> (ctx_header new_ctx = 0 \/ exists k, G !! ctx_header new_ctx = Some k) ->
  ralloc_steal (concr G) new_ctx (PTR_FROM_HEADER a) = Some (concr (f_link (f_unlink G a) (ctx_header new_ctx) a)).
Proof.
  intros H Ha Hne Hc. unfold ralloc_steal. pose proof (fw_pos G H a n Ha) as Hpos.
  rewrite (proj2 (Z.eqb_neq _ _)), get_header_ptr by (unfold PTR_FROM_HEADER, sizeof_ralloc_header; lia). fold (ctx_header new_ctx).
  rewrite (unlink_block_concr G H a n Ha). cbn [mbind option_bind]. destruct Hc as [E0|[k Hk]]; [by rewrite E0|].
  pose proof (f_unlink_lookup G H a n Ha) as Hl. pose proof (Hl a) as Ha'. rewrite decide_True in Ha' by done.
  assert (exists k', f_unlink G a !! ctx_header new_ctx = Some k') as [k' Hk'].
  { rewrite Hl, decide_False, Hk by done. case_decide; by eexists. }
  by apply (add_child_concr _ (f_unlink_wf G H a n Ha) _ _ _ _ Ha' eq_refl Hk').
Qed.

Lemma attach_present F c l x :
  fwf F -> attachable F c l -> (x = 0 \/ exists n, F !! x = Some n) -> x = 0 \/ exists n, attach F c l !! x = Some n.
Proof.
  intros H Hl [|[n Hn]]; [by left|right]. rewrite attach_lookup, Hn by done. destruct (list_to_map l !! x); [by eexists|].
  case_decide; by eexists.
Qed.

Section Move.

Context (F : forest) (H : fwf F) (c c' : Z) (a : Z) (d : list Z) (l m : list (Z * list Z)).
Context (Hl : attachable F c ((a, d) :: l)) (Hm : attachable (attach F c ((a, d) :: l)) c' m).

Lemma move_new : a ∉ m.*1 /\ attach F c l !! a = None /\ forall b, b ∈ m.*1 -> attach F c l !! b = None.
Proof.
  destruct (attachable_without F c [] a d l Hl) as (Hl' & Hna & Hp & Hf). cbn [app] in *.
  pose proof (attach_mid_lookup F H c [] l a d Hl) as Ha. cbn [app] in Ha. destruct Hm as (_ & _ & Hn). split_and!.
  - intros Hi. destruct (Hn a Hi). congruence.
  - rewrite attach_lookup, list_to_map_absent, decide_False by (done || apply (attach_mid_c F c [] l a d Hl)). done.
  - intros b Hb. destruct (Hn b Hb) as [_ Hb2]. rewrite attach_lookup in Hb2 |- * by done. cbn in Hb2.
    destruct (decide (b = a)) as [->|]; [by rewrite lookup_insert_eq in Hb2|]. rewrite lookup_insert_ne in Hb2 by done.
    destruct (list_to_map l !! b); [done|]. case_decide; [|done]. by destruct (F !! b).
Qed.

Lemma move_attachable : (c' = 0 \/ exists n, F !! c' = Some n) -> attachable (attach F c l) c' (m ++ [(a, d)]).
Proof.
  intros Hc'. destruct (attachable_without F c [] a d l Hl) as (Hl' & _ & Hp & _). cbn [app] in *.
  destruct move_new as (Hnm & Ha & Hb). destruct Hm as (_ & Hnd & Hn). split; [|split].
  - by apply attach_present.
  - rewrite fmap_app. apply NoDup_app. split; [done|]. split; [|apply NoDup_singleton]. intros x Hx ->%list_elem_of_singleton. done.
  - intros x. rewrite fmap_app. intros [Hx| ->%list_elem_of_singleton]%elem_of_app; [|done]. split; [by apply Hn|by apply Hb].
Qed.

Lemma move_apart :
  attachable (attach F c l) c' (m ++ [(a, d)]) -> apart (attach (attach F c ((a, d) :: l)) c' m) ->
  apart (attach (attach F c l) c' (m ++ [(a, d)])).
Proof.
  intros Hma. destruct (attachable_without F c [] a d l Hl) as (Hl' & _ & Hp & _). cbn [app] in *. apply apart_data. intros x y Hy.
  assert (fn_data <$> attach (attach F c ((a, d) :: l)) c' m !! x = Some (fn_data y)) as E.
  { pose proof (attach_data _ c' _ x (attach_wf F c l H Hl') Hma) as E1. rewrite Hy, list_to_map_mid, app_nil_r, attach_data in E1 by (done || apply Hma).
    rewrite (attach_data _ c' m x (attach_wf F c _ H Hl) Hm), (attach_data F c _ x H Hl). cbn. destruct move_new as (Hnm & _ & _). destruct (decide (x = a)) as [->|].
    - rewrite list_to_map_absent, lookup_insert_eq by done. done.
    - rewrite lookup_insert_ne by done. done. }
  destruct (attach (attach F c ((a, d) :: l)) c' m !! x) as [z|]; [|done]. injection E as E. exists z. by rewrite E.
Qed.

End Move.

Section StealNodes.

Context (F : forest) (H : fwf F) (c ctx new_ctx : Z).

Local Notation c' := (ctx_header new_ctx).

Context (Hc' : c' = 0 \/ exists n, F !! c' = Some n).

Lemma steal_nodes_ok bl m fuel :
  attachable F c (link_blocks ctx bl) -> attachable (attach F c (link_blocks ctx bl)) c' m ->
  apart (attach (attach F c (link_blocks ctx bl)) c' m) -> Forall buf_ok bl.*1 -> (length bl < fuel)%nat ->
  steal_nodes fuel (concr (attach (attach F c (link_blocks ctx bl)) c' m)) new_ctx (buf_next bl.*1) =
    Some (concr (attach F c' (m ++ link_blocks new_ctx bl))) /\ apart (attach F c' (m ++ link_blocks new_ctx bl)).
Proof.
  revert m fuel. induction bl as [|[b lt] bl IH]; intros m [|fuel] Hl Hm Hap Hok Hfu; cbn [length] in Hfu; try lia; [by rewrite app_nil_r|].
  cbn [fmap list_fmap fst] in Hok. apply Forall_cons in Hok as [Hb Hok]. cbn [link_blocks] in *. set (a := get_header (lb_ptr b)) in *.
  set (nx := buf_next bl.*1) in *. set (l := link_blocks ctx bl) in *. set (d := buf_bytes ctx nx lt b) in *.
  change (buf_next ((b, lt) :: bl).*1) with (lb_ptr b). cbn [steal_nodes]. rewrite (proj2 (Z.eqb_neq _ _)) by (destruct Hb; lia).
  pose proof (attach_wf F c _ H Hl) as Hw. destruct (attachable_without F c [] a d l Hl) as (Hl' & _ & Hp & Hf). cbn [app] in Hl'.
  pose proof (attach_wf F c l H Hl') as Hw'. assert (c' <> a) as Hca by (destruct Hc' as [->|[n Hn]]; [lia|congruence]).
  pose proof (move_attachable F H c c' a d l m Hl Hm Hc') as Hma. pose proof (move_apart F H c c' a d l m Hl Hm Hma Hap) as Hap1.
  assert (attach (attach F c ((a, d) :: l)) c' m !! a = Some (FNode c [] 0 d)) as Ha.
  { rewrite attach_lookup, list_to_map_absent, decide_False by (done || apply (move_new F H c c' a d l m Hl Hm)).
    apply (attach_mid_lookup F H c [] l a d Hl). }
  pose proof (ralloc_steal_concr _ a _ new_ctx (attach_wf _ c' m Hw Hm) Ha Hca (attach_present _ _ _ _ Hw Hm (proj1 Hm))) as E1. unfold a in E1 at 2. rewrite ptr_header in E1.
  rewrite E1, (attach_steal F c c' a d l m) by done. cbn [mbind option_bind].
  destruct (block_write _ Hw' c' m [] a d Hma Hap1 _ _ _ (write_ctx ctx new_ctx nx lt b)) as [E2 Hap2]. unfold a in E2 at 2. rewrite ptr_header in E2.
  unfold store64. rewrite E2. cbn [mbind option_bind]. set (d' := buf_bytes new_ctx nx lt b) in *.
  pose proof (attachable_mid _ c' m a d d' [] Hma) as Hma2.
  pose proof (block_load64 _ Hw' c' m [] a d' Hma2 Hap2 _ _ _ _ (buf_next_at _ _ _ _) eq_refl (buf_next_bound _ Hok)) as El.
  unfold a in El at 2. rewrite ptr_header in El. change (zlen _) with lh_next in El. rewrite El. cbn [mbind option_bind].
  assert (m ++ (a, d') :: link_blocks new_ctx bl = (m ++ [(a, d')]) ++ link_blocks new_ctx bl) as -> by (by rewrite <- app_assoc).
  apply IH; [done|done|done|done|lia].
Qed.

End StealNodes.

(** ** Calls on the whole arena *)

Section Whole.

Context (s : lstate) (W : lwf s).

Local Notation heap := (concr (ls_full s)).

Lemma parent_nonzero b r : ls_bufs s = b :: r -> ls_parent s <> 0 /\ LINEAR_PARENT_TO_HEADER (ls_parent s) = buf_next (b :: r).
Proof.
  intros E. pose proof (lw_bufs s W) as Hb. rewrite E in Hb. apply Forall_cons in Hb as [(Hp & _) _]. rewrite (parent_header s b r E). split; [|done].
  unfold ls_parent. rewrite E. unfold sizeof_linear_header, sizeof_linear_size_chunk. lia.
Qed.

Lemma parent_zero : ls_bufs s = [] -> ls_parent s = 0 /\ ls_full s = ls_forest s.
Proof. intros E. unfold ls_parent, ls_full. by rewrite E. Qed.

Lemma linear_free_parent_ok : linear_free_parent heap (ls_parent s) = Some (concr (ls_forest s), []).
Proof.
  unfold linear_free_parent. destruct (ls_bufs s) as [|b r] eqn:E; [by destruct (parent_zero E) as [-> ->]|].
  destruct (parent_nonzero b r E) as [Hp ->]. rewrite (proj2 (Z.eqb_neq _ _)) by done.
  pose proof (lw_att s W) as Hl. pose proof (lw_apart s W) as Hap. pose proof (lw_bufs s W) as Hb. unfold ls_full in *. rewrite E in *.
  destruct (arena_linked (b :: r)) as (bl & Ebl & Ea). rewrite Ea in *. rewrite <- Ebl in Hb |- *.
  apply (free_nodes_ok _ (lw_forest s W)); [done|done|done|].
  pose proof (attach_size _ _ _ (lw_forest s W) Hl) as Hs. rewrite link_length in Hs. lia.
Qed.

Lemma ralloc_parent_of_linear_parent_ok :
  ls_bufs s <> [] -> ralloc_parent_of_linear_parent heap (ls_parent s) = Some (ls_ctx s).
Proof.
  intros Hne. destruct (ls_bufs s) as [|b r] eqn:E; [done|]. unfold ralloc_parent_of_linear_parent. destruct (parent_nonzero b r E) as [_ ->].
  pose proof (lw_att s W) as Hl. pose proof (lw_apart s W) as Hap. unfold ls_full in *. rewrite E in *. cbn [arena_blocks] in *.
  pose proof (block_load64 _ (lw_forest s W) _ [] _ _ _ Hl Hap _ _ _ _ (buf_ctx_at _ _ _ _) eq_refl (lw_ctx64 s W)) as El.
  rewrite ptr_header in El. exact El.
Qed.

Lemma ralloc_steal_linear_parent_ok new_ctx :
  ls_bufs s <> [] -> ctx_ok (ls_forest s) new_ctx = true -> new_ctx < 2 ^ 64 ->
  let s' := LState (ls_forest s) new_ctx (ls_bufs s) in
  ralloc_steal_linear_parent heap new_ctx (ls_parent s) = Some (concr (ls_full s')) /\ lwf s'.
Proof.
  intros Hne Hctx H64 s'. destruct (ls_bufs s) as [|b r] eqn:E; [done|]. unfold ralloc_steal_linear_parent.
  destruct (parent_nonzero b r E) as [Hp ->]. rewrite (proj2 (Z.eqb_neq _ _)) by done.
  pose proof (ctx_ok_attachable _ _ (lw_forest s W) Hctx) as Hc. assert (0 <= new_ctx < 2 ^ 64) as Hn.
  { split; [|done]. unfold ctx_ok in Hctx. destruct (Z.eqb_spec new_ctx 0) as [|_]; [lia|]. apply block_present_inv in Hctx as [n Hn].
    apply (fw_pos _ (lw_forest s W)) in Hn. unfold get_header, sizeof_ralloc_header in Hn. lia. }
  pose proof (lw_att s W) as Hl. pose proof (lw_apart s W) as Hap. pose proof (lw_bufs s W) as Hb. unfold ls_full in *. rewrite E in *.
  destruct (arena_linked (b :: r)) as (bl & Ebl & Ea). rewrite Ea in *.
  assert (attachable (attach (ls_forest s) (ctx_header (ls_ctx s)) (link_blocks (ls_ctx s) bl)) (ctx_header new_ctx) []) as Hm.
  { split; [|split; [constructor|intros ? ?%elem_of_nil; done]]. by apply (attach_present _ _ _ _ (lw_forest s W) Hl). }
  pose proof (attach_size _ _ _ (lw_forest s W) Hl) as Hs. rewrite link_length in Hs. apply Nat.lt_succ_r in Hs.
  rewrite <- Ebl in Hb. destruct (steal_nodes_ok _ (lw_forest s W) _ _ new_ctx Hc bl [] _ Hl Hm Hap Hb Hs) as [E1 E2].
  cbn [attach app] in E1, E2. rewrite Ebl in E1, Hb. unfold s'. cbn [ls_forest ls_ctx ls_bufs]. rewrite Ea. split; [exact E1|].
  constructor; cbn [ls_forest ls_ctx ls_bufs]; [apply W|done|done| |unfold ls_full; cbn [ls_forest ls_ctx ls_bufs]; by rewrite Ea|done].
  destruct Hl as (_ & Hnd & Hfr). rewrite Ea. unfold attachable. by rewrite link_blocks_addrs in *.
Qed.

End Whole.

(** ** Chunks are disjoint *)

Lemma app_mid_inv {A} (l1 l2 k1 k2 : list A) x y :
  l1 ++ x :: l2 = k1 ++ y :: k2 -> (l1 = k1 /\ x = y) \/ (exists r, k1 = l1 ++ x :: r) \/ (exists r, l1 = k1 ++ y :: r).
Proof.
  intros [(r & -> & E)|(r & -> & E)]%app_eq_inv; (destruct r as [|z r]; cbn in E; [injection E as -> _; left; by rewrite app_nil_r|injection E as <- _]).
  - right; right. by eauto.
  - right; left. by eauto.
Qed.

Section Disjoint.

Context (s : lstate) (W : lwf s).

Local Notation at_chunk := (chunk_at (ls_bufs s)).

(** The block of a chunk and where the chunk is in it. *)
Lemma chunk_extent bs1 p cs1 pad d cs2 fr bs2 ptr :
  at_chunk bs1 p cs1 pad d cs2 fr bs2 ptr ->
  exists n, ls_full s !! get_header p = Some n /\ p + 40 <= ptr /\ ptr + zlen d <= p + Z.of_nat (length (fn_data n)).
Proof.
  intros Hat. destruct (chunk_block s W _ _ _ _ _ _ _ _ _ Hat) as (l1 & pre & post & l2 & Hp & E). specialize (E d eq_refl).
  destruct (chunk_buf_ok s W _ _ _ _ _ _ _ _ _ Hat) as [_ Hpad]. destruct Hat as [Eb ->]. pose proof (lw_att s W) as Hl. unfold ls_full. rewrite Eb, E in *.
  eexists. split; [by apply (attach_mid_lookup _ (lw_forest s W))|]. cbn [fn_data]. rewrite !length_app, Hpad, le32_length.
  pose proof (zlen_nonneg (chunks_bytes cs1)). unfold sizeof_linear_header in *. unfold zlen in *. lia.
Qed.

Lemma same_buf_disjoint p cs1 pad d cs2 cs1' cs2' :
  Forall chunk_ok (cs1 ++ LChunk pad d :: cs2) -> cs1' = cs1 ++ LChunk pad d :: cs2' ->
  p + zlen (chunks_bytes cs1) + 8 + zlen d <= p + zlen (chunks_bytes cs1').
Proof.
  intros Hok ->. apply Forall_app in Hok as [_ Hok]. apply Forall_cons in Hok as [Hc _].
  rewrite chunks_bytes_app, zlen_app, chunks_bytes_cons, zlen_app, chunk_bytes_length by done. cbn [lc_data].
  pose proof (zlen_nonneg (chunks_bytes cs2')). lia.
Qed.

(** A pointer is that of one buffer. *)
Lemma same_ptr bs1 b bs2 bs1' b' bs2' :
  ls_bufs s = bs1 ++ b :: bs2 -> ls_bufs s = bs1' ++ b' :: bs2' -> lb_ptr b = lb_ptr b' -> b = b'.
Proof.
  intros E E' Hp. pose proof (lw_att s W) as (_ & Hnd & _). rewrite arena_addrs in Hnd.
  assert (ls_bufs s !! length bs1 = Some b) as H1 by (rewrite E; by apply list_lookup_middle).
  assert (ls_bufs s !! length bs1' = Some b') as H2 by (rewrite E'; by apply list_lookup_middle).
  assert (length bs1 = length bs1') as El; [|by rewrite El, H2 in H1; injection H1].
  apply (NoDup_lookup _ _ _ (get_header (lb_ptr b)) Hnd); rewrite !list_lookup_fmap; [by rewrite H1|by rewrite H2, Hp].
Qed.

Lemma chunks_disjoint p q d e :
  bufs_get p (ls_bufs s) = Some d -> bufs_get q (ls_bufs s) = Some e -> p <> q ->
  p + zlen d <= q - sizeof_linear_size_chunk \/ q + zlen e <= p - sizeof_linear_size_chunk.
Proof.
  intros Hd He Hne. change sizeof_linear_size_chunk with 8.
  destruct (bufs_get_split _ _ _ (lw_bufs s W) Hd) as (bs1 & p1 & cs1 & pad & cs2 & fr & bs2 & Hp).
  destruct (bufs_get_split _ _ _ (lw_bufs s W) He) as (bs1' & p1' & cs1' & pad' & cs2' & fr' & bs2' & Hq).
  destruct (chunk_extent _ _ _ _ _ _ _ _ _ Hp) as (n & Hn & P1 & P2). destruct (chunk_extent _ _ _ _ _ _ _ _ _ Hq) as (n' & Hn' & Q1 & Q2).
  destruct (decide (p1 = p1')) as [<-|Hpp].
  2: { destruct (lw_apart s W _ _ _ _ Hn Hn') as [Hx|Hx]; [unfold get_header; lia|..]; rewrite ptr_header in Hx;
       unfold get_header, sizeof_ralloc_header in Hx; lia. }
  destruct (chunk_buf_ok s W _ _ _ _ _ _ _ _ _ Hp) as [(_ & _ & Ok) _]. destruct (chunk_buf_ok s W _ _ _ _ _ _ _ _ _ Hq) as [(_ & _ & Ok') _].
  destruct Hp as [Ep ->], Hq as [Eq ->]. cbn [lb_chunks] in Ok, Ok'.
  assert (cs1 ++ LChunk pad d :: cs2 = cs1' ++ LChunk pad' e :: cs2') as Ec.
  { pose proof (same_ptr _ _ _ _ _ _ Ep Eq eq_refl) as E. by injection E. }
  apply app_mid_inv in Ec as [[-> _]|[[r E]|[r E]]]; [done|left|right].
  - pose proof (same_buf_disjoint (p1 + sizeof_linear_header) _ _ _ _ _ _ Ok E). lia.
  - pose proof (same_buf_disjoint (p1 + sizeof_linear_header) _ _ _ _ _ _ Ok' E). lia.
Qed.

End Disjoint.

(** ** Clients *)

Lemma pointer_ok s (r : option (rheap * Z)) a s' x :
  refines s r a -> r_pointer a = Some (s', x) ->
  ('(m, p) ← r; Some (m, ls_parent s, RPtr p)) = Some (concr (ls_full s'), ls_parent s', x) /\ lwf s' /\ ls_forest s' = ls_forest s.
Proof.
  intros Hr. unfold r_pointer. destruct a as [[s1 p]|]; [|done]. cbn. intros [= <- <-]. destruct (Hr s1 p eq_refl) as (-> & W & -> & Hf & _). done.
Qed.

Lemma l_step_ok s op s' x :
  lwf s -> a_step s op = Some (s', x) ->
  l_step (concr (ls_full s), ls_parent s) op = Some (concr (ls_full s'), ls_parent s', x) /\ lwf s' /\ ls_forest s' = ls_forest s.
Proof.
  intros W. destruct op as [malloc ctx sz|malloc ctx sz|malloc sz|malloc sz|malloc old sz|malloc [str|]|malloc text|malloc str start text|malloc str text|malloc dest str|ptr o bs|ptr o n|new_ctx| |]; cbn [l_step].
  - cbn [a_step]. unfold r_pointer. destruct (a_create _ _ _ _) as [[s1 p]|] eqn:E; [|done]. cbn. intros [= <- <-].
    by destruct (linear_alloc_parent_ok _ _ _ _ _ _ W E) as (-> & W1 & -> & Hf).
  - cbn [a_step]. unfold r_pointer. destruct (a_fill _ _ _) as [[s1 p]|] eqn:E; [|done]. cbn. intros [= <- <-].
    by destruct (linear_zalloc_parent_ok _ _ _ _ _ _ W E) as (-> & W1 & -> & Hf).
  - by apply pointer_ok, linear_alloc_child_ok.
  - by apply pointer_ok, linear_zalloc_child_ok.
  - by apply pointer_ok, linear_realloc_ok.
  - cbn [a_step]. intros E. apply (pointer_ok s _ _ _ _ (linear_strdup_ok malloc s W str)). by destruct (strlen str).
  - by intros [= <- <-].
  - by apply pointer_ok, linear_vasprintf_ok.
  - cbn [a_step]. unfold r_tail. destruct (a_rewrite _ _ _ _ _) as [[s1 [[str' st] ok]]|] eqn:E; [|done]. cbn. intros [= <- <-].
    by destruct (linear_vasprintf_rewrite_tail_ok malloc s W str start text s1 _ E) as (-> & W1 & -> & Hf & _).
  - intros E. by destruct (linear_vasprintf_append_ok malloc s W _ _ _ _ E) as (str' & ok & -> & -> & W1 & -> & Hf & _).
  - intros E. by destruct (linear_strcat_ok malloc s W _ _ _ _ E) as (str' & ok & -> & -> & W1 & -> & Hf & _).
  - cbn [a_step]. destruct (a_store s ptr o bs) as [s1|] eqn:E; [|done]. cbn. intros [= <- <-].
    by destruct (a_store_ok _ _ _ _ _ W E) as (-> & W1 & -> & Hf & _).
  - cbn [a_step]. destruct (bufs_get ptr (ls_bufs s)) as [d|] eqn:E; [|done]. cbn. destruct (read_bytes d o n) as [bs|] eqn:Er; [|done].
    cbn. intros [= <- <-]. by rewrite (get_read s W ptr d E o n bs Er).
  - cbn [a_step]. case_bool_decide as Hb.
    + intros [= <- <-]. unfold ralloc_steal_linear_parent. by destruct (parent_zero s Hb) as [-> _].
    + destruct (_ && _) eqn:E; [|done]. apply andb_prop in E as [Hc H64%Z.ltb_lt]. intros [= <- <-].
      by destruct (ralloc_steal_linear_parent_ok s W new_ctx Hb Hc H64) as [-> W1].
  - cbn [a_step]. case_bool_decide as Hb; [done|]. intros [= <- <-]. by rewrite (ralloc_parent_of_linear_parent_ok s W Hb).
  - cbn [a_step]. intros [= <- <-]. rewrite (linear_free_parent_ok s W). split; [done|]. split; [|done].
    constructor; cbn; [apply W|apply W|apply W| |by apply (apart_base _ _ _ (lw_forest s W) (lw_att s W)), W|constructor].
    destruct (lw_att s W) as (Hc & _). split; [done|]. split; [constructor|]. by intros ? ?%elem_of_nil.
Qed.

Lemma l_run_ok ops : forall s s' rs,
  lwf s -> l_run a_step s ops = Some (s', rs) ->
  l_run l_step (concr (ls_full s), ls_parent s) ops = Some (concr (ls_full s'), ls_parent s', rs) /\ lwf s' /\ ls_forest s' = ls_forest s.
Proof.
  induction ops as [|op ops IH]; intros s s' rs W; cbn [l_run]; [by intros [= <- <-]|].
  destruct (a_step s op) as [[s1 x]|] eqn:E; [|done]. cbn [mbind option_bind]. destruct (l_step_ok s op s1 x W E) as (-> & W1 & Ef). cbn [mbind option_bind].
  destruct (l_run a_step s1 ops) as [[s2 xs]|] eqn:E2; [|done]. cbn [mbind option_bind]. intros [= <- <-].
  destruct (IH s1 s2 xs W1 E2) as (-> & W2 & Ef2). split; [done|]. split; [done|]. congruence.
Qed.

Lemma lwf_start F : fwf F -> apart F -> lwf (LState F 0 []).
Proof.
  intros H Hap. constructor; cbn; [done|done|lia| |done|constructor].
  split; [by left|]. split; [constructor|]. by intros ? ?%elem_of_nil.
Qed.

(** C6: A client of the linear allocator creates an arena below a block of any forest of blocks that do not overlap, allocates with or
    without clearing, resizes, copies, prints, rewrites and appends strings, reads and writes inside what it was given, moves the
    arena to another context, asks for its context and frees it, with sizes up to 2^31 - 64 and whatever memory the allocator gives.
    Memory, where every header and every length is a few bytes of a block,
    does what an arena of separate chunks does: each allocation is the next chunk of the last buffer, or the first one of a new buffer if
    there is no room, a resized chunk is a new one with what fits of the old bytes, a string is followed by its
    terminator, and without memory nothing changes.  The forest below is left alone, freeing leaves only it, its lists stay those of a
    forest, no two blocks overlap, and no two chunks overlap or touch the length in front of the other. *)
Theorem linear_refines_arena F ops s' rs :
  fwf F -> apart F -> l_run a_step (LState F 0 []) ops = Some (s', rs) ->
  l_run l_step (concr F, 0) ops = Some (concr (ls_full s'), ls_parent s', rs) /\ ls_forest s' = F /\
  fwf (ls_full s') /\ apart (ls_full s') /\
  forall p q d e, bufs_get p (ls_bufs s') = Some d -> bufs_get q (ls_bufs s') = Some e -> p <> q ->
    p + zlen d <= q - sizeof_linear_size_chunk \/ q + zlen e <= p - sizeof_linear_size_chunk.
Proof.
  intros H Hap E. destruct (l_run_ok ops _ s' rs (lwf_start F H Hap) E) as (Hr & W & Hf).
  split; [exact Hr|]. split; [done|]. split; [by apply full_wf|]. split; [apply W|]. by apply chunks_disjoint.
Qed.

(** Two contexts. *)
Definition linear_demo_forest : forest := f_root (f_root ∅ 100 [1; 2]) 200 [3].

(** Strings in an arena, a second buffer, no memory for a third one, and a new context. *)
Definition linear_demo : list l_op :=
  [LCreate (malloc_at 1000) 148 10; LStrdup (malloc_at 0) (Some [65; 66; 0; 1]); LStrcat (malloc_at 0) 1112 [67; 0]; LRead 1128 0 4;
   LZalloc (malloc_at 9000) 3000; LWrite 9088 2999 [5]; LRead 9088 2998 2; LAlloc (fun _ => None) 4000;
   LRealloc (malloc_at 20000) 1128 3; LRead 20088 0 3; LAsprintfAppend (malloc_at 0) 1128 [68; 69]; LRead 20104 0 6;
   LRewriteTail (malloc_at 0) 0 0 [70]; LParentOf; LSteal 248; LParentOf; LAsprintf (malloc_at 0) [71]; LRead 20120 0 2].

Lemma linear_demo_ok : fwf linear_demo_forest /\ apart linear_demo_forest.
Proof.
  split.
  - apply f_root_wf; [apply f_root_wf; [apply fwf_empty|done|done]|done|done].
  - intros a b m n. unfold linear_demo_forest, f_root. rewrite !lookup_insert_Some, lookup_empty. intros Ha Hb Hne.
    destruct Ha as [[<- <-]|[_ [[<- <-]|[_ ?]]]], Hb as [[<- <-]|[_ [[<- <-]|[_ ?]]]]; try done; unfold extent_ok, PTR_FROM_HEADER, sizeof_ralloc_header; cbn; lia.
Qed.

Lemma linear_refines_arena_witness :
  exists s', l_run l_step (concr linear_demo_forest, 0) linear_demo = Some (concr (ls_full s'), ls_parent s',
    [RPtr 1088; RPtr 1112; RString 1128 true; RBytes [65; 66; 67; 0]; RPtr 9088; RVoid; RBytes [0; 5]; RPtr 0; RPtr 20088;
     RBytes [65; 66; 67]; RString 20104 true; RBytes [65; 66; 67; 68; 69; 0]; RTail 20120 1 true; RPtr 148; RVoid; RPtr 248;
     RPtr 20136; RBytes [70; 0]]) /\ ls_forest s' = linear_demo_forest.
Proof.
  exists (from_option fst (LState ∅ 0 []) (l_run a_step (LState linear_demo_forest 0 []) linear_demo)).
  match goal with |- l_run _ _ _ = Some (_, ?rs) /\ _ =>
    assert (l_run a_step (LState linear_demo_forest 0 []) linear_demo =
      Some (from_option fst (LState ∅ 0 []) (l_run a_step (LState linear_demo_forest 0 []) linear_demo), rs)) as E
      by (vm_compute; reflexivity) end.
  destruct (linear_refines_arena _ _ _ _ (proj1 linear_demo_ok) (proj2 linear_demo_ok) E) as (Hr & Hf & _). split; [exact Hr|exact Hf].
Defined.

(** Sizes near 2^32 wrap: no memory is asked for 2^32 - 16 bytes, the buffer's offset goes back from 24 to 16, and the length of
    the next chunk is written over the last eight of the sixteen bytes of the first chunk. *)
Theorem linear_size_wraps :
  snd <$> l_run l_step (concr linear_demo_forest, 0)
    [LCreate (malloc_at 1000) 148 16; LWrite 1088 0 (replicate 16 1);
     LAlloc (fun _ => None) (2 ^ 32 - 16); LAlloc (fun _ => None) 8; LRead 1088 0 16] =
  Some [RPtr 1088; RVoid; RPtr 1112; RPtr 1104; RBytes [1; 1; 1; 1; 1; 1; 1; 1; 8; 0; 0; 0; 1; 1; 1; 1]].
Proof. vm_compute. reflexivity. Qed.
