(* ===== verification/Slab.v ===== *)
(** * Slab allocator ([src/util/slab.c])

    Objects of one size, from pages that a child pool takes from the system.  Threads may free objects of each other: an
    object freed with another pool goes to the list of migrated elements of its owner, or, if the owner was destroyed, is counted
    in its page, which is freed with its last object.  Addresses lead to the headers of elements, the headers of pages, the
    child pools and the parent pools; what is not there cannot be accessed.  The file has the functions, and then their
    steps as other threads see them.  Sizes are those of 64-bit code without [DEBUG]. *)
From stdpp Require Import gmap.
From S2P Require Import Prelude.

(** ** Data *)

Record slab_element_header := Elt { se_next : Z; se_owner : Z }.

(** The members of the union in [struct slab_page_header]. *)
Inductive page_union := PageNext (next : Z) | PageRemaining (num_remaining : Z).

(** A page, and the size of its memory, which [free] knows. *)
Record slab_page_header := Page { pg_u : page_union; pg_bytes : Z }.

Record slab_parent_pool := ParentPool { pp_element_size : Z; pp_num_elements : Z }.
Record slab_child_pool := ChildPool { sp_parent : Z; sp_pages : Z; sp_free : Z; sp_migrated : Z }.

Record smem := SMem {
  sm_elts : gmap Z slab_element_header;
  sm_pages : gmap Z slab_page_header;
  sm_pools : gmap Z slab_child_pool;
  sm_parents : gmap Z slab_parent_pool }.

Definition sizeof_slab_element_header : Z := 16.
Definition sizeof_slab_page_header : Z := 8.

Definition set_sm_elts (m : smem) (x : gmap Z slab_element_header) : smem := SMem x (sm_pages m) (sm_pools m) (sm_parents m).
Definition set_sm_pages (m : smem) (x : gmap Z slab_page_header) : smem := SMem (sm_elts m) x (sm_pools m) (sm_parents m).
Definition set_sm_pools (m : smem) (x : gmap Z slab_child_pool) : smem := SMem (sm_elts m) (sm_pages m) x (sm_parents m).
Definition set_sm_parents (m : smem) (x : gmap Z slab_parent_pool) : smem := SMem (sm_elts m) (sm_pages m) (sm_pools m) x.

(** Stores to members. *)
Definition elt_store (m : smem) (elt : Z) (f : slab_element_header -> slab_element_header) : option smem :=
  e ← sm_elts m !! elt; Some (set_sm_elts m (<[elt := f e]> (sm_elts m))).
Definition page_store (m : smem) (page : Z) (u : page_union) : option smem :=
  p ← sm_pages m !! page; Some (set_sm_pages m (<[page := Page u (pg_bytes p)]> (sm_pages m))).
Definition pool_store (m : smem) (pool : Z) (f : slab_child_pool -> slab_child_pool) : option smem :=
  s ← sm_pools m !! pool; Some (set_sm_pools m (<[pool := f s]> (sm_pools m))).

Definition set_se_next (x : Z) (e : slab_element_header) := Elt x (se_owner e).
Definition set_se_owner (x : Z) (e : slab_element_header) := Elt (se_next e) x.
Definition set_sp_parent (x : Z) (s : slab_child_pool) := ChildPool x (sp_pages s) (sp_free s) (sp_migrated s).
Definition set_sp_pages (x : Z) (s : slab_child_pool) := ChildPool (sp_parent s) x (sp_free s) (sp_migrated s).
Definition set_sp_free (x : Z) (s : slab_child_pool) := ChildPool (sp_parent s) (sp_pages s) x (sp_migrated s).
Definition set_sp_migrated (x : Z) (s : slab_child_pool) := ChildPool (sp_parent s) (sp_pages s) (sp_free s) x.

(** [free] of a page. *)
Definition free_page (m : smem) (page : Z) : option smem :=
  p ← sm_pages m !! page;
  Some (set_sm_pages (set_sm_elts m (filter (fun '(a, _) => ~ (page <= a < page + pg_bytes p)) (sm_elts m)))
          (delete page (sm_pages m))).

(** ** Creating pools *)

Definition ALIGN (value align : Z) : Z := Z.land (value + align - 1) (Z.lnot (align - 1)).

Definition slab_get_element (parent : slab_parent_pool) (page index : Z) : Z :=
  page + sizeof_slab_page_header + u32 (pp_element_size parent * index).

Definition slab_create_parent (m : smem) (parent item_size num_items : Z) : smem :=
  set_sm_parents m (<[parent := ParentPool (u32 (ALIGN (sizeof_slab_element_header + item_size) 8)) num_items]> (sm_parents m)).

Definition slab_destroy_parent (m : smem) (parent : Z) : smem := set_sm_parents m (delete parent (sm_parents m)).

Definition slab_create_child (m : smem) (pool parent : Z) : smem :=
  set_sm_pools m (<[pool := ChildPool parent 0 0 0]> (sm_pools m)).

(** ** Orphaned pages *)

(** The number of remaining elements goes down atomically. *)
Definition slab_free_orphaned (m : smem) (elt : Z) : option smem :=
  e ← sm_elts m !! elt;
  if negb (Z.odd (se_owner e)) then None else
  let page := Z.land (se_owner e) (Z.lnot 1) in
  p ← sm_pages m !! page;
  match pg_u p with
  | PageNext _ => None
  | PageRemaining n =>
    m ← page_store m page (PageRemaining (u32 (n - 1)));
    if u32 (n - 1) =? 0 then free_page m page else Some m
  end.

(** [n] steps from [i] on. *)
Fixpoint for_elements (n : nat) (i : Z) (f : smem -> Z -> option smem) (m : smem) : option smem :=
  match n with
  | O => Some m
  | S n => m ← f m i; for_elements n (i + 1) f m
  end.

(** A page becomes an orphan. *)
Definition orphan_page (m : smem) (parent : slab_parent_pool) (page : Z) : option smem :=
  m ← page_store m page (PageRemaining (pp_num_elements parent));
  for_elements (Z.to_nat (pp_num_elements parent)) 0
    (fun m i => elt_store m (slab_get_element parent page i) (set_se_owner (Z.lor page 1))) m.

Fixpoint orphan_pages (fuel : nat) (m : smem) (pool : Z) : option smem :=
  match fuel with
  | O => None
  | S fuel =>
    s ← sm_pools m !! pool;
    let page := sp_pages s in
    if page =? 0 then Some m else
    p ← sm_pages m !! page;
    match pg_u p with
    | PageRemaining _ => None
    | PageNext next =>
      m ← pool_store m pool (set_sp_pages next);
      parent ← sm_parents m !! sp_parent s;
      m ← orphan_page m parent page;
      orphan_pages fuel m pool
    end
  end.

Fixpoint free_migrated (fuel : nat) (m : smem) (pool : Z) : option smem :=
  match fuel with
  | O => None
  | S fuel =>
    s ← sm_pools m !! pool;
    let elt := sp_migrated s in
    if elt =? 0 then Some m else
    e ← sm_elts m !! elt;
    m ← pool_store m pool (set_sp_migrated (se_next e));
    m ← slab_free_orphaned m elt;
    free_migrated fuel m pool
  end.

(** The critical section of [slab_destroy_child]. *)
Definition orphan_all (m : smem) (pool : Z) : option smem :=
  m ← orphan_pages (S (size (sm_pages m))) m pool;
  free_migrated (S (size (sm_elts m))) m pool.

(** One step of the loop over the free elements; whether there was one. *)
Definition free_one (m : smem) (pool : Z) : option (smem * bool) :=
  s ← sm_pools m !! pool;
  let elt := sp_free s in
  if elt =? 0 then Some (m, false) else
  e ← sm_elts m !! elt;
  m ← pool_store m pool (set_sp_free (se_next e));
  m ← slab_free_orphaned m elt;
  Some (m, true).

Fixpoint free_all (fuel : nat) (m : smem) (pool : Z) : option smem :=
  match fuel with
  | O => None
  | S fuel => '(m, more) ← free_one m pool; if (more : bool) then free_all fuel m pool else Some m
  end.

Definition slab_destroy_child (m : smem) (pool : Z) : option smem :=
  s ← sm_pools m !! pool;
  if sp_parent s =? 0 then Some m else
  m ← orphan_all m pool;
  m ← free_all (S (size (sm_elts m))) m pool;
  pool_store m pool (set_sp_parent 0).

(** ** Allocating *)

(** A new element at the front of the list of free ones; it must be in the memory of its page. *)
Definition new_element (pool page bytes : Z) (parent : slab_parent_pool) (m : smem) (i : Z) : option smem :=
  s ← sm_pools m !! pool;
  let elt := slab_get_element parent page i in
  if Z.odd pool || (page + bytes <? elt + sizeof_slab_element_header) then None else
  pool_store (set_sm_elts m (<[elt := Elt (sp_free s) pool]> (sm_elts m))) pool (set_sp_free elt).

Definition slab_add_new_page (malloc : Z -> option Z) (m : smem) (pool : Z) : option (smem * bool) :=
  s ← sm_pools m !! pool;
  parent ← sm_parents m !! sp_parent s;
  let bytes := sizeof_slab_page_header + u32 (pp_num_elements parent * pp_element_size parent) in
  match malloc bytes with
  | None => Some (m, false)
  | Some page =>
    m ← for_elements (Z.to_nat (pp_num_elements parent)) 0 (new_element pool page bytes parent) m;
    m ← pool_store (set_sm_pages m (<[page := Page (PageNext (sp_pages s)) bytes]> (sm_pages m))) pool (set_sp_pages page);
    Some (m, true)
  end.

(** The first free element. *)
Definition take_free (m : smem) (pool : Z) : option (smem * Z) :=
  s ← sm_pools m !! pool;
  e ← sm_elts m !! sp_free s;
  m ← pool_store m pool (set_sp_free (se_next e));
  Some (m, sp_free s + sizeof_slab_element_header).

(** The critical section of [slab_alloc]. *)
Definition collect_migrated (m : smem) (pool : Z) : option smem :=
  s ← sm_pools m !! pool;
  m ← pool_store m pool (set_sp_free (sp_migrated s));
  pool_store m pool (set_sp_migrated 0).

(** The rest of [slab_alloc] after it. *)
Definition alloc_slow (malloc : Z -> option Z) (m : smem) (pool : Z) : option (smem * Z) :=
  s ← sm_pools m !! pool;
  if sp_free s =? 0 then
    '(m, ok) ← slab_add_new_page malloc m pool;
    if (ok : bool) then take_free m pool else Some (m, 0)
  else take_free m pool.

Definition slab_alloc (malloc : Z -> option Z) (m : smem) (pool : Z) : option (smem * Z) :=
  s ← sm_pools m !! pool;
  if sp_free s =? 0 then
    m ← collect_migrated m pool;
    alloc_slow malloc m pool
  else take_free m pool.

(** ** Freeing *)

(** An element to the front of a list. *)
Definition push_own (m : smem) (pool elt : Z) : option smem :=
  s ← sm_pools m !! pool;
  m ← elt_store m elt (set_se_next (sp_free s));
  pool_store m pool (set_sp_free elt).

Definition push_migrated (m : smem) (owner elt : Z) : option smem :=
  s ← sm_pools m !! owner;
  m ← elt_store m elt (set_se_next (sp_migrated s));
  pool_store m owner (set_sp_migrated elt).

(** The critical section of [slab_free]; whether the element is one of an orphaned page. *)
Definition migrate (m : smem) (elt : Z) : option (smem * bool) :=
  e ← sm_elts m !! elt;
  if Z.odd (se_owner e) then Some (m, true) else
  m ← push_migrated m (se_owner e) elt; Some (m, false).

Definition slab_free (m : smem) (pool ptr : Z) : option smem :=
  let elt := ptr - sizeof_slab_element_header in
  e ← sm_elts m !! elt;
  if se_owner e =? pool then push_own m pool elt else
  '(m, orphaned) ← migrate m elt;
  if (orphaned : bool) then slab_free_orphaned m elt else Some m.

(** ** A parent and a child in one *)

Definition mempool_child (pool : Z) : Z := pool + 48.

Definition slab_create (m : smem) (pool item_size num_items : Z) : smem :=
  slab_create_child (slab_create_parent m pool item_size num_items) (mempool_child pool) pool.
Definition slab_destroy (m : smem) (pool : Z) : option smem :=
  m ← slab_destroy_child m (mempool_child pool); Some (slab_destroy_parent m pool).
Definition slab_alloc_st (malloc : Z -> option Z) (m : smem) (pool : Z) : option (smem * Z) := slab_alloc malloc m (mempool_child pool).
Definition slab_free_st (m : smem) (pool ptr : Z) : option smem := slab_free m (mempool_child pool) ptr.

(** ** Steps

    What a call does between two points where other threads can see or change something: the mutex is held, or a counter or an
    owner is accessed atomically, at most once in every step. *)

Inductive slab_pc :=
| AllocStart | AllocCollect | AllocSlow
| FreeStart (elt : Z) | FreeSlow (elt : Z) | FreeOrphaned (elt : Z)
| DestroyStart | DestroyFree.

(** A call that goes on, or its result: 0 for [void]. *)
Definition slab_exec (malloc : Z -> option Z) (m : smem) (pool : Z) (pc : slab_pc) : option (smem * (slab_pc + Z)) :=
  match pc with
  | AllocStart =>
    s ← sm_pools m !! pool;
    if sp_free s =? 0 then Some (m, inl AllocCollect) else '(m, p) ← take_free m pool; Some (m, inr p)
  | AllocCollect => m ← collect_migrated m pool; Some (m, inl AllocSlow)
  | AllocSlow => '(m, p) ← alloc_slow malloc m pool; Some (m, inr p)
  | FreeStart elt =>
    e ← sm_elts m !! elt;
    if se_owner e =? pool then m ← push_own m pool elt; Some (m, inr 0) else Some (m, inl (FreeSlow elt))
  | FreeSlow elt => '(m, orphaned) ← migrate m elt; Some (m, if (orphaned : bool) then inl (FreeOrphaned elt) else inr 0)
  | FreeOrphaned elt => m ← slab_free_orphaned m elt; Some (m, inr 0)
  | DestroyStart =>
    s ← sm_pools m !! pool;
    if sp_parent s =? 0 then Some (m, inr 0) else m ← orphan_all m pool; Some (m, inl DestroyFree)
  | DestroyFree =>
    '(m, more) ← free_one m pool;
    if (more : bool) then Some (m, inl DestroyFree) else m ← pool_store m pool (set_sp_parent 0); Some (m, inr 0)
  end.

(** ** Threads

    The calls in progress, by their child pool, which no two calls may share, and the elements that clients hold. *)
Record sconf := SConf { sc_mem : smem; sc_busy : gmap Z slab_pc; sc_live : gset Z }.

(** Memory from the system does not overlap a page. *)
Definition malloc_ok (m : smem) (malloc : Z -> option Z) : Prop :=
  forall n g, malloc n = Some g ->
    0 < g /\ Z.even g = true /\ forall g' p, sm_pages m !! g' = Some p -> g + n <= g' \/ g' + pg_bytes p <= g.

Definition usable (m : smem) (pool : Z) : Prop := exists s, sm_pools m !! pool = Some s /\ sp_parent s <> 0.
Definition unused (m : smem) (pool : Z) : Prop := forall s, sm_pools m !! pool = Some s -> sp_parent s = 0.

(** Calls: only what was allocated may be freed, once. *)
Inductive slab_call (live : gset Z) : slab_pc -> gset Z -> Prop :=
| CallAlloc : slab_call live AllocStart live
| CallFree elt : elt ∈ live -> slab_call live (FreeStart elt) (live ∖ {[elt]})
| CallDestroy : slab_call live DestroyStart live.

(** After a step of a call. *)
Definition slab_after (c : sconf) (pool : Z) (m : smem) (r : slab_pc + Z) : sconf :=
  match r with
  | inl pc => SConf m (<[pool := pc]> (sc_busy c)) (sc_live c)
  | inr p => SConf m (delete pool (sc_busy c)) (if p =? 0 then sc_live c else {[p - sizeof_slab_element_header]} ∪ sc_live c)
  end.

Inductive slab_step (parent : Z) (c : sconf) : sconf -> Prop :=
| SlabCreate pool :
  0 < pool -> Z.even pool = true -> sc_busy c !! pool = None -> unused (sc_mem c) pool ->
  slab_step parent c (SConf (slab_create_child (sc_mem c) pool parent) (sc_busy c) (sc_live c))
| SlabCall pool pc live :
  sc_busy c !! pool = None -> usable (sc_mem c) pool -> slab_call (sc_live c) pc live ->
  slab_step parent c (SConf (sc_mem c) (<[pool := pc]> (sc_busy c)) live)
| SlabExec pool pc malloc m r :
  sc_busy c !! pool = Some pc -> malloc_ok (sc_mem c) malloc -> slab_exec malloc (sc_mem c) pool pc = Some (m, r) ->
  slab_step parent c (slab_after c pool m r).

(** A parent pool and nothing else. *)
Definition slab_init (parent item_size num_items : Z) : sconf :=
  SConf (slab_create_parent (SMem ∅ ∅ ∅ ∅) parent item_size num_items) ∅ ∅.
