(* ===== verification/SlabCorrect.v ===== *)
(** * Where the elements of a slab allocator are

    Every element is in one place: free or migrated in one pool, held by a client, being freed by a call, or gone with an
    orphaned page.  [minv] is what the memory has to do with places, and the lemmas show how the parts of the functions change it. *)
From stdpp Require Import gmap functions.
From S2P Require Import Prelude Slab.

(** The lists of elements of a pool. *)
Inductive which := Free | Migrated.

#[global] Instance which_eq_dec : EqDecision which.
Proof. solve_decision. Defined.

Definition sp_list (w : which) (s : slab_child_pool) : Z := match w with Free => sp_free s | Migrated => sp_migrated s end.
Definition set_sp_list (w : which) : Z -> slab_child_pool -> slab_child_pool := match w with Free => set_sp_free | Migrated => set_sp_migrated end.

Inductive place := PGone | PIn (w : which) (pool : Z) | PLive | PFreeing (pool : Z).

#[global] Instance place_eq_dec : EqDecision place.
Proof. solve_decision. Defined.

(** Held by a client or a call. *)
Definition loose (x : place) : Prop := match x with PLive | PFreeing _ => True | _ => False end.

(** Places, the pool of each page that is not an orphan, the pages of each pool and its lists. *)
Record ghost := Ghost { gp : Z -> place; go : Z -> option Z; gP : Z -> list Z; gL : which -> Z -> list Z }.

Definition set_place (G : ghost) (e : Z) (x : place) : ghost := Ghost (<[e := x]> (gp G)) (go G) (gP G) (gL G).
Definition set_list (G : ghost) (w : which) (pool : Z) (l : list Z) : ghost :=
  Ghost (gp G) (go G) (gP G) (fun v q => if decide (v = w /\ q = pool) then l else gL G v q).

(** ** Lists in memory *)

Fixpoint elist (E : gmap Z slab_element_header) (a : Z) (l : list Z) : Prop :=
  match l with
  | [] => a = 0
  | e :: l => a = e /\ e <> 0 /\ exists h, E !! e = Some h /\ elist E (se_next h) l
  end.

Fixpoint plist (P : gmap Z slab_page_header) (a : Z) (l : list Z) : Prop :=
  match l with
  | [] => a = 0
  | g :: l => a = g /\ g <> 0 /\ exists p next, P !! g = Some p /\ pg_u p = PageNext next /\ plist P next l
  end.

Lemma elist_ext E E' a l :
  (forall e, e ∈ l -> se_next <$> E' !! e = se_next <$> E !! e) -> elist E a l -> elist E' a l.
Proof.
  revert a. induction l as [|e l IH]; intros a Hx; [done|]. cbn. intros (-> & He & h & Hh & Hl). split; [done|]. split; [done|].
  pose proof (Hx e ltac:(by apply elem_of_cons; left)) as E1. rewrite Hh in E1. destruct (E' !! e) as [h'|]; [|done]. injection E1 as E1.
  exists h'. split; [done|]. rewrite E1. apply IH; [|done]. intros x Hx1. apply Hx. apply elem_of_cons. by right.
Qed.

Lemma plist_ext P P' a l :
  (forall g, g ∈ l -> pg_u <$> P' !! g = pg_u <$> P !! g) -> plist P a l -> plist P' a l.
Proof.
  revert a. induction l as [|g l IH]; intros a Hx; [done|]. cbn. intros (-> & Hg & p & nx & Hp & Hu & Hl). split; [done|]. split; [done|].
  pose proof (Hx g ltac:(by apply elem_of_cons; left)) as E1. rewrite Hp in E1. destruct (P' !! g) as [p'|]; [|done]. injection E1 as E1.
  exists p', nx. split; [done|]. split; [congruence|]. apply IH; [|done]. intros x Hx1. apply Hx. apply elem_of_cons. by right.
Qed.

Lemma elist_nil E a l : elist E a l -> a = 0 <-> l = [].
Proof. destruct l as [|e l]; [done|]. cbn. intros (-> & He & _). done. Qed.

Lemma plist_nil P a l : plist P a l -> a = 0 <-> l = [].
Proof. destruct l as [|e l]; [done|]. cbn. intros (-> & He & _). done. Qed.

(** ** The elements of a page *)

Section Pool.

Context (pa : Z) (par : slab_parent_pool).

Local Notation num := (pp_num_elements par).
Local Notation esz := (pp_element_size par).

Definition parent_ok : Prop := 0 < pa /\ 0 < num /\ sizeof_slab_element_header <= esz /\ num * esz < 2 ^ 32.

Context (Hpar : parent_ok).

Definition psize : Z := sizeof_slab_page_header + num * esz.
Definition elt_at (g i : Z) : Z := g + sizeof_slab_page_header + esz * i.
Definition elems (g : Z) : list Z := elt_at g <$> seqZ 0 num.

Lemma get_element g i : 0 <= i < num -> slab_get_element par g i = elt_at g i.
Proof. destruct Hpar as (_ & Hn & He & Hm). unfold sizeof_slab_element_header in *. intros Hi. unfold slab_get_element, elt_at. rewrite u32_small by nia. done. Qed.

Lemma elem_of_elems g e : e ∈ elems g <-> exists i, 0 <= i < num /\ e = elt_at g i.
Proof.
  unfold elems. rewrite list_elem_of_fmap. split.
  - intros (i & -> & Hi%elem_of_seqZ). exists i. split; [lia|done].
  - intros (i & Hi & ->). exists i. split; [done|]. apply elem_of_seqZ. lia.
Qed.

Lemma elems_bound g e : e ∈ elems g -> g + sizeof_slab_page_header <= e /\ e + esz <= g + psize.
Proof.
  destruct Hpar as (_ & Hn & He & Hm). unfold sizeof_slab_element_header in *. intros (i & Hi & ->)%elem_of_elems. unfold elt_at, psize. nia.
Qed.

Lemma elems_nodup g : NoDup (elems g).
Proof.
  destruct Hpar as (_ & Hn & He & Hm). unfold sizeof_slab_element_header in *. unfold elems. apply NoDup_fmap_2; [|apply NoDup_seqZ].
  intros i j. unfold elt_at. intros E. nia.
Qed.

Lemma elems_length g : length (elems g) = Z.to_nat num.
Proof. unfold elems. by rewrite length_fmap, length_seqZ. Qed.

Lemma elems_apart g e e' : e ∈ elems g -> e' ∈ elems g -> e <> e' -> e + esz <= e' \/ e' + esz <= e.
Proof.
  destruct Hpar as (_ & Hn & He & Hm). unfold sizeof_slab_element_header in *.
  intros (i & Hi & ->)%elem_of_elems (j & Hj & ->)%elem_of_elems. unfold elt_at. intros Hne. assert (i <> j) by congruence. nia.
Qed.

(** The elements of a page that are not gone. *)
Definition count (pl : Z -> place) (g : Z) : nat := length (filter (fun e => pl e <> PGone) (elems g)).

(** The owner in the headers of the elements of a page. *)
Definition owner_of (o : option Z) (g : Z) : Z := match o with Some pool => pool | None => Z.lor g 1 end.

(** Pages and elements. *)
Record mcore (m : smem) (G : ghost) : Prop := MCore {
  mc_parent : sm_parents m !! pa = Some par;
  mc_page g p : sm_pages m !! g = Some p -> 0 < g /\ Z.even g = true /\ pg_bytes p = psize;
  mc_apart g g' : is_Some (sm_pages m !! g) -> is_Some (sm_pages m !! g') -> g <> g' -> g + psize <= g' \/ g' + psize <= g;
  mc_elt e : is_Some (sm_elts m !! e) <-> exists g, is_Some (sm_pages m !! g) /\ e ∈ elems g;
  mc_owner g e h : is_Some (sm_pages m !! g) -> e ∈ elems g -> sm_elts m !! e = Some h -> se_owner h = owner_of (go G g) g;
  mc_pool g pool : go G g = Some pool <-> g ∈ gP G pool;
  mc_pages pool : NoDup (gP G pool) /\ forall g, g ∈ gP G pool -> is_Some (sm_pages m !! g);
  mc_orphan g p : sm_pages m !! g = Some p -> go G g = None ->
    pg_u p = PageRemaining (Z.of_nat (count (gp G) g)) /\ (0 < count (gp G) g)%nat;
  mc_owned g pool e : go G g = Some pool -> e ∈ elems g -> gp G e <> PGone;
  mc_gone e : gp G e <> PGone -> is_Some (sm_elts m !! e) }.

(** The lists of a pool. *)
Definition pool_lists (m : smem) (G : ghost) (pool : Z) : Prop :=
  match sm_pools m !! pool with
  | Some s => 0 < pool /\ Z.even pool = true /\ plist (sm_pages m) (sp_pages s) (gP G pool) /\
    (forall w, elist (sm_elts m) (sp_list w s) (gL G w pool)) /\
    (sp_parent s = pa \/ (sp_parent s = 0 /\ gP G pool = [] /\ forall w, gL G w pool = []))
  | None => gP G pool = [] /\ forall w, gL G w pool = []
  end.

Record mpool (m : smem) (G : ghost) (pool : Z) : Prop := MPool {
  mp_lists : pool_lists m G pool;
  mp_nodup w : NoDup (gL G w pool);
  mp_place w e : gp G e = PIn w pool <-> e ∈ gL G w pool }.

Definition minv (m : smem) (G : ghost) : Prop := mcore m G /\ forall pool, mpool m G pool.

(** What they depend on. *)
Lemma filter_place pl pl' (l : list Z) :
  (forall e, e ∈ l -> pl' e = PGone <-> pl e = PGone) -> filter (fun e => pl' e <> PGone) l = filter (fun e => pl e <> PGone) l.
Proof.
  intros Hx. induction l as [|e l IH]; [done|]. rewrite !filter_cons.
  assert (pl' e = PGone <-> pl e = PGone) as He by (apply Hx, elem_of_cons; by left).
  rewrite IH by (intros x Hx1; apply Hx, elem_of_cons; by right). destruct (decide (pl' e <> PGone)), (decide (pl e <> PGone)); try done; tauto.
Qed.

Lemma count_ext pl pl' g : (forall e, e ∈ elems g -> pl' e = PGone <-> pl e = PGone) -> count pl' g = count pl g.
Proof. unfold count. intros Hx. by rewrite (filter_place pl). Qed.

Lemma mcore_ext m m' G G' :
  (forall e, se_owner <$> sm_elts m' !! e = se_owner <$> sm_elts m !! e) -> sm_pages m' = sm_pages m -> sm_parents m' = sm_parents m ->
  (forall e, gp G' e = PGone <-> gp G e = PGone) -> go G' = go G -> gP G' = gP G -> mcore m G -> mcore m' G'.
Proof.
  intros He Ep Er Hp Eo EP H.
  assert (forall e, is_Some (sm_elts m' !! e) <-> is_Some (sm_elts m !! e)) as Hs.
  { intros e. specialize (He e). destruct (sm_elts m' !! e), (sm_elts m !! e); try done; split; by eexists. }
  constructor; rewrite ?Ep, ?Er, ?Eo, ?EP; try apply H.
  - intros e. rewrite Hs. apply H.
  - intros g e h Hg Hi Hh. specialize (He e). rewrite Hh in He. destruct (sm_elts m !! e) as [h'|] eqn:E; [|done]. injection He as ->.
    by apply (mc_owner m G H g e).
  - intros g p Hg Ho. rewrite (count_ext (gp G)) by (intros; apply Hp). by apply (mc_orphan m G H g).
  - intros g pool e Ho Hi. rewrite Hp. by apply (mc_owned m G H g pool).
  - intros e. rewrite Hp, Hs. apply H.
Qed.

(** A pool that nothing happens to. *)
Lemma mpool_frame m m' G G' pool :
  sm_pools m' !! pool = sm_pools m !! pool -> gP G' pool = gP G pool -> (forall w, gL G' w pool = gL G w pool) ->
  (forall w e, e ∈ gL G w pool -> se_next <$> sm_elts m' !! e = se_next <$> sm_elts m !! e) ->
  (forall g, g ∈ gP G pool -> pg_u <$> sm_pages m' !! g = pg_u <$> sm_pages m !! g) ->
  (forall w e, gp G' e = PIn w pool <-> gp G e = PIn w pool) ->
  mpool m G pool -> mpool m' G' pool.
Proof.
  intros Es EP EL He Hg Hp H. constructor.
  - pose proof (mp_lists m G pool H) as Hl. unfold pool_lists in *. rewrite Es, EP. destruct (sm_pools m !! pool) as [s|].
    + destruct Hl as (H1 & H2 & Hp' & Hl & H3). split; [done|]. split; [done|]. split; [by apply (plist_ext (sm_pages m))|]. split.
      * intros w. rewrite EL. apply (elist_ext (sm_elts m)); [apply He|apply Hl].
      * destruct H3 as [|(E1 & E2 & E3)]; [by left|right]. split; [done|]. split; [done|]. intros w. rewrite EL. apply E3.
    + destruct Hl as [E1 E2]. split; [done|]. intros w. rewrite EL. apply E2.
  - intros w. rewrite EL. apply H.
  - intros w e. rewrite Hp, EL. apply H.
Qed.

Lemma fn_insert_at {A} (f : Z -> A) e x y : <[e := x]> f y = if decide (y = e) then x else f y.
Proof. unfold insert, fn_insert. destruct (decide (e = y)), (decide (y = e)); congruence. Qed.

(** ** Lists change *)

Section Lists.

Context (m : smem) (G : ghost) (H : minv m G) (pool : Z) (s : slab_child_pool) (Hs : sm_pools m !! pool = Some s) (w : which).

Local Notation store f := (set_sm_pools m (<[pool := f s]> (sm_pools m))).

Lemma pool_state :
  0 < pool /\ Z.even pool = true /\ plist (sm_pages m) (sp_pages s) (gP G pool) /\
  (forall v, elist (sm_elts m) (sp_list v s) (gL G v pool)) /\
  (sp_parent s = pa \/ (sp_parent s = 0 /\ gP G pool = [] /\ forall v, gL G v pool = [])).
Proof. destruct H as [_ Hp]. pose proof (mp_lists m G pool (Hp pool)) as Hl. unfold pool_lists in Hl. by rewrite Hs in Hl. Qed.

Lemma sp_list_set v x : sp_list v (set_sp_list w x s) = if decide (v = w) then x else sp_list v s.
Proof. by destruct v, w. Qed.

Lemma sp_pages_set x : sp_pages (set_sp_list w x s) = sp_pages s /\ sp_parent (set_sp_list w x s) = sp_parent s.
Proof. by destruct w. Qed.

(** The first element of a list is taken out. *)
Lemma pop_list e l y :
  gL G w pool = e :: l -> loose y ->
  sp_list w s = e /\ e <> 0 /\ gp G e = PIn w pool /\
  exists h, sm_elts m !! e = Some h /\ minv (store (set_sp_list w (se_next h))) (set_list (set_place G e y) w pool l).
Proof.
  intros El Hy. destruct pool_state as (P1 & P2 & P3 & P4 & P5). pose proof (P4 w) as Pw. rewrite El in Pw. cbn in Pw. destruct Pw as (Es & He & h & Hh & Hl).
  destruct H as [HC HP]. assert (gp G e = PIn w pool) as Hpl by (apply (HP pool); rewrite El; apply elem_of_cons; by left).
  split; [done|]. split; [done|]. split; [done|]. exists h. split; [done|]. split.
  - apply (mcore_ext m _ G); try done. intros x. cbn. rewrite fn_insert_at. case_decide; [subst x|done]. rewrite Hpl. by destruct y.
  - intros q. destruct (decide (q = pool)) as [->|Hq].
    + destruct (HP pool) as [_ N HF]. pose proof (N w) as N1. rewrite El in N1. apply NoDup_cons in N1 as [Hn N1]. constructor; cbn.
      * unfold pool_lists. cbn. rewrite lookup_insert_eq. destruct (sp_pages_set (se_next h)) as [-> ->]. split_and!; try done.
        -- intros v. rewrite sp_list_set. destruct (decide (v = w)) as [->|]; [by rewrite decide_True|]. rewrite decide_False by (by intros []). apply P4.
        -- destruct P5 as [|(_ & _ & E)]; [by left|]. by rewrite E in El.
      * intros v. case_decide; [done|apply N].
      * intros v x. rewrite fn_insert_at. destruct (decide (v = w)) as [->|Hv].
        -- rewrite (decide_True (P := w = w /\ pool = pool)) by done. case_decide as Hx; [subst x; by destruct y|]. rewrite HF, El, elem_of_cons. naive_solver.
        -- rewrite (decide_False (P := v = w /\ pool = pool)) by (by intros []). case_decide as Hx; [subst x|apply HF]. split; [by destruct y|]. intros Hi. apply HF in Hi. congruence.
    + apply (mpool_frame m _ G); try done; cbn.
      * by rewrite lookup_insert_ne.
      * intros v. rewrite decide_False by (by intros []). done.
      * intros v x. rewrite fn_insert_at. case_decide; [subst x|done]. rewrite Hpl. split; [by destruct y|]. congruence.
Qed.

(** An element is put in front. *)
Lemma push_list e :
  loose (gp G e) -> sp_parent s = pa ->
  exists h, sm_elts m !! e = Some h /\
    minv (set_sm_pools (set_sm_elts m (<[e := set_se_next (sp_list w s) h]> (sm_elts m))) (<[pool := set_sp_list w e s]> (sm_pools m)))
      (set_list (set_place G e (PIn w pool)) w pool (e :: gL G w pool)).
Proof.
  intros Hlo Hp. destruct pool_state as (P1 & P2 & P3 & P4 & P5). destruct H as [HC HP].
  destruct (mc_gone m G HC e) as [h Hh]; [by intros E; rewrite E in Hlo|]. exists h. split; [done|].
  assert (e <> 0) as He0.
  { destruct (proj1 (mc_elt m G HC e) (ex_intro _ _ Hh)) as (g & [p Hg] & Hi). apply (mc_page m G HC) in Hg. apply elems_bound in Hi.
    unfold sizeof_slab_page_header in Hi. lia. }
  assert (forall v q, e ∉ gL G v q) as Hnot by (intros v q Hi; apply (HP q) in Hi; by rewrite Hi in Hlo).
  assert (forall x, x <> e -> <[e := set_se_next (sp_list w s) h]> (sm_elts m) !! x = sm_elts m !! x) as Hx by (intros; by rewrite lookup_insert_ne).
  split.
  - apply (mcore_ext m _ G); try done; intros x; cbn.
    + destruct (decide (x = e)) as [->|]; [by rewrite lookup_insert_eq, Hh|by rewrite Hx].
    + rewrite fn_insert_at. case_decide; [subst x|done]. split; [done|]. intros E. by rewrite E in Hlo.
  - intros q. destruct (decide (q = pool)) as [->|Hq].
    + destruct (HP pool) as [_ N HF]. constructor; cbn.
      * unfold pool_lists. cbn. rewrite lookup_insert_eq. destruct (sp_pages_set e) as [-> ->]. split_and!; try done; [|by left].
        intros v. rewrite sp_list_set. destruct (decide (v = w)) as [->|].
        -- rewrite decide_True by done. cbn. split; [done|]. split; [done|]. eexists. split; [apply lookup_insert_eq|]. cbn.
           apply (elist_ext (sm_elts m)); [|apply P4]. intros x Hi. rewrite Hx; [done|]. intros ->. by apply (Hnot w pool).
        -- rewrite decide_False by (by intros []). apply (elist_ext (sm_elts m)); [|apply P4]. intros x Hi. rewrite Hx; [done|]. intros ->. by apply (Hnot v pool).
      * intros v. case_decide; [|apply N]. apply NoDup_cons. split; [apply Hnot|apply N].
      * intros v x. rewrite fn_insert_at. destruct (decide (v = w)) as [->|Hv].
        -- rewrite (decide_True (P := w = w /\ pool = pool)) by done. rewrite elem_of_cons. case_decide as Hxe; [subst x; split; [by left|done]|]. rewrite HF. naive_solver.
        -- rewrite (decide_False (P := v = w /\ pool = pool)) by (by intros []). case_decide as Hxe; [subst x|apply HF]. split; [congruence|]. intros Hi. by apply Hnot in Hi.
    + apply (mpool_frame m _ G); try done; cbn.
      * by rewrite lookup_insert_ne.
      * intros v. rewrite decide_False by (by intros []). done.
      * intros v x Hi. rewrite Hx; [done|]. intros ->. by apply Hnot in Hi.
      * intros v x. rewrite fn_insert_at. case_decide; [subst x|done]. split; [congruence|]. intros E. by rewrite E in Hlo.
Qed.

End Lists.

(** ** An element of an orphaned page is freed *)

Lemma count_gone pl g e : e ∈ elems g -> pl e <> PGone -> count pl g = S (count (<[e := PGone]> pl) g).
Proof.
  intros Hi Hne. unfold count. pose proof (elems_nodup g) as Hnd. induction (elems g) as [|x l IH]; [by apply elem_of_nil in Hi|].
  apply NoDup_cons in Hnd as [Hx Hnd]. rewrite !filter_cons, !fn_insert_at. apply elem_of_cons in Hi as [<-|Hi].
  - rewrite decide_True, (decide_True (P := e = e)), (decide_False (P := ~ PGone = PGone)) by (done || naive_solver). cbn. f_equal. f_equal.
    symmetry. apply filter_place. intros y Hy. rewrite fn_insert_at. by rewrite decide_False by (intros ->; done).
  - rewrite (decide_False (P := x = e)) by (intros ->; done). case_decide; cbn; by rewrite (IH Hi Hnd).
Qed.

Lemma page_of_owner g : Z.even g = true -> Z.odd (Z.lor g 1) = true /\ Z.land (Z.lor g 1) (Z.lnot 1) = g.
Proof.
  intros Hg. assert (Z.testbit g 0 = false) as H0 by (rewrite Z.bit0_odd, <- Z.negb_even, Hg; done). split.
  - by rewrite <- Z.bit0_odd, Z.lor_spec, H0.
  - apply Z.bits_inj'. intros i Hi. rewrite Z.land_spec, Z.lor_spec, Z.lnot_spec by done. destruct (decide (i = 0)) as [->|]; [by rewrite H0|].
    assert (Z.testbit 1 i = false) as -> by (apply Z.bits_above_log2; cbn; lia). by rewrite orb_false_r, andb_true_r.
Qed.

Section Orphan.

Context (m : smem) (G : ghost) (H : minv m G) (e g : Z).
Context (Hlo : loose (gp G e)) (Hg : is_Some (sm_pages m !! g)) (Hi : e ∈ elems g) (Ho : go G g = None).

Lemma same_page g' x : is_Some (sm_pages m !! g) -> is_Some (sm_pages m !! g') -> x ∈ elems g -> x ∈ elems g' -> g' = g.
Proof.
  intros Hp Hp' Hx Hx'. destruct (decide (g' = g)) as [|Hne]; [done|]. destruct H as [HC _].
  destruct (mc_apart m G HC g g' Hp Hp' ltac:(done)) as [Ha|Ha]; apply elems_bound in Hx, Hx'; destruct Hpar as (_ & _ & He & _);
    unfold sizeof_slab_element_header, sizeof_slab_page_header in *; lia.
Qed.

Lemma gone_gone x : gp (set_place G e PGone) x <> PGone -> x <> e /\ gp G x <> PGone.
Proof. cbn. rewrite fn_insert_at. by case_decide. Qed.

Lemma place_gone w x q : gp (set_place G e PGone) x = PIn w q <-> gp G x = PIn w q.
Proof. cbn. rewrite fn_insert_at. case_decide; [subst x|done]. split; [done|]. intros E. by rewrite E in Hlo. Qed.

Lemma count_other g' : is_Some (sm_pages m !! g') -> g' <> g -> count (gp (set_place G e PGone)) g' = count (gp G) g'.
Proof.
  intros Hg' Hne. apply count_ext. intros x Hx. cbn. rewrite fn_insert_at. case_decide; [subst x|done]. by destruct Hne, (same_page g' e).
Qed.

Lemma orphan_less n :
  count (gp G) g = S (S n) ->
  minv (set_sm_pages m (<[g := Page (PageRemaining (Z.of_nat (S n))) psize]> (sm_pages m))) (set_place G e PGone).
Proof.
  intros Hc. destruct H as [HC HP]. set (m' := set_sm_pages m _).
  assert (forall x, is_Some (sm_pages m' !! x) <-> is_Some (sm_pages m !! x)) as Hs.
  { intros x. cbn. destruct (decide (x = g)) as [->|]; [rewrite lookup_insert_eq|by rewrite lookup_insert_ne]. split; [done|by eexists]. }
  pose proof (count_gone (gp G) g e Hi ltac:(intros E; by rewrite E in Hlo)) as Hcg. split.
  - constructor; cbn [sm_elts sm_parents set_place go gP]; try apply HC.
    + intros x p. cbn. destruct (decide (x = g)) as [->|]; [rewrite lookup_insert_eq; intros [= <-]|rewrite lookup_insert_ne by done; apply HC].
      destruct Hg as [p Hp]. destruct (mc_page m G HC g p Hp) as (? & ? & _). done.
    + intros x y Hx Hy. apply HC; by apply Hs.
    + intros x. split; [intros (y & Hy & Hx)%HC; exists y; by rewrite Hs|intros (y & Hy & Hx); apply HC; exists y; by rewrite <- Hs].
    + intros x y h Hx. apply HC. by apply Hs.
    + intros q. split; [apply HC|]. intros x Hx. apply Hs. by apply (mc_pages m G HC q).
    + intros x p. cbn [sm_pages m' set_sm_pages]. destruct (decide (x = g)) as [->|Hx].
      * rewrite lookup_insert_eq. intros [= <-] _. cbn [pg_u]. cbn [gp set_place]. assert (count (<[e:=PGone]> (gp G)) g = S n) as -> by lia. split; [done|lia].
      * rewrite lookup_insert_ne by done. intros Hp Hox. rewrite count_other; [by apply (mc_orphan m G HC)|by eexists|done].
    + intros x q y Hox Hy. cbn. rewrite fn_insert_at. case_decide; [subst y|by apply (mc_owned m G HC x q)].
      exfalso. assert (x = g) as -> by (apply (same_page x e); [done| |done|done]; by apply (mc_pages m G HC q), (mc_pool m G HC)). congruence.
    + intros x Hx. apply (mc_gone m G HC). by apply gone_gone.
  - intros q. apply (mpool_frame m _ G); try done; [|intros; apply place_gone].
    intros x Hx. cbn. rewrite lookup_insert_ne; [done|]. intros <-. apply (mc_pool m G HC) in Hx. congruence.
Qed.

(** The memory without the page. *)
Definition without_page (m : smem) (g : Z) : smem :=
  set_sm_pages (set_sm_elts m (filter (fun '(a, _) => ~ (g <= a < g + psize)) (sm_elts m))) (delete g (sm_pages m)).

Lemma in_page x : is_Some (sm_elts m !! x) -> g <= x < g + psize <-> x ∈ elems g.
Proof.
  intros Hx. destruct H as [HC _]. apply HC in Hx as (g' & Hg' & Hx'). destruct Hpar as (_ & _ & He & _).
  unfold sizeof_slab_element_header, sizeof_slab_page_header in *. split.
  - intros Hb. destruct (decide (g' = g)) as [->|Hne]; [done|]. exfalso. apply elems_bound in Hx'. unfold sizeof_slab_page_header in *.
    destruct (mc_apart m G HC g g' Hg Hg' ltac:(done)); lia.
  - intros Hb. apply elems_bound in Hb. unfold sizeof_slab_page_header in *. lia.
Qed.

Lemma without_page_elt x :
  sm_elts (without_page m g) !! x = if decide (x ∈ elems g) then None else sm_elts m !! x.
Proof.
  cbn. destruct (sm_elts m !! x) as [h|] eqn:Ex.
  - case_decide as Hx.
    + apply map_lookup_filter_None. right. intros h' Hh' Hn. apply Hn. by apply in_page.
    + apply map_lookup_filter_Some. split; [done|]. intros Hb. apply Hx. apply in_page; [by eexists|done].
  - rewrite (map_lookup_filter_None_2 _ _ x); [by case_decide|by left].
Qed.

Lemma orphan_last : count (gp G) g = 1%nat -> minv (without_page m g) (set_place G e PGone).
Proof.
  intros Hc. destruct H as [HC HP]. pose proof (count_gone (gp G) g e Hi ltac:(intros E; by rewrite E in Hlo)) as Hcg.
  assert (count (<[e := PGone]> (gp G)) g = 0%nat) as Hz by lia.
  assert (forall x, x ∈ elems g -> gp (set_place G e PGone) x = PGone) as Hall.
  { intros x Hx. cbn. unfold count in Hz. apply length_zero_iff_nil in Hz. destruct (decide (<[e:=PGone]> (gp G) x = PGone)) as [|Hn]; [done|].
    exfalso. assert (x ∈ filter (fun y => <[e:=PGone]> (gp G) y <> PGone) (elems g)) as Hf by (by apply list_elem_of_filter). rewrite Hz in Hf. by apply elem_of_nil in Hf. }
  assert (forall x, is_Some (sm_pages (without_page m g) !! x) <-> x <> g /\ is_Some (sm_pages m !! x)) as Hs.
  { intros x. cbn. destruct (decide (x = g)) as [->|]; [rewrite lookup_delete_eq|rewrite lookup_delete_ne by done; naive_solver].
    split; [by intros [? ?]|naive_solver]. }
  pose proof (same_page) as Hsp. split.
  - constructor; cbn [sm_parents without_page set_sm_pages set_sm_elts set_place go gP]; try apply HC.
    + intros x p. cbn. rewrite lookup_delete_Some. intros [_ Hp]. by apply (mc_page m G HC).
    + intros x y [_ Hx]%Hs [_ Hy]%Hs. by apply HC.
    + intros x. rewrite without_page_elt. split.
      * case_decide as Hx; [by intros [? ?]|]. intros (y & Hy & Hxy)%HC. exists y. rewrite Hs. split; [|done]. split; [|done]. by intros ->.
      * intros (y & [Hy1 Hy2]%Hs & Hxy). rewrite decide_False; [apply HC; by exists y|]. intros Hx. by apply Hy1, (Hsp y x).
    + intros x y h [Hx1 Hx2]%Hs Hy. rewrite without_page_elt. case_decide; [done|]. by apply HC.
    + intros q. split; [apply HC|]. intros x Hx. apply Hs. split; [|by apply (mc_pages m G HC q)].
      intros ->. apply (mc_pool m G HC) in Hx. congruence.
    + intros x p. cbn [sm_pages without_page set_sm_pages]. rewrite lookup_delete_Some. intros [Hne Hp] Hox. rewrite count_other; [by apply (mc_orphan m G HC)|by eexists|done].
    + intros x q y Hox Hy. cbn. rewrite fn_insert_at. case_decide; [subst y|by apply (mc_owned m G HC x q)].
      exfalso. assert (x = g) as -> by (apply (Hsp x e); [done| |done|done]; by apply (mc_pages m G HC q), (mc_pool m G HC)). congruence.
    + intros x Hx. rewrite without_page_elt. rewrite decide_False by (intros Hx'; by apply Hx, Hall). apply (mc_gone m G HC). by apply gone_gone.
  - intros q. apply (mpool_frame m _ G); try done; [| |intros; apply place_gone].
    + intros w x Hx. rewrite without_page_elt. rewrite decide_False; [done|]. intros Hx'. apply (HP q) in Hx. apply place_gone in Hx. by rewrite Hall in Hx.
    + intros x Hx. cbn. rewrite lookup_delete_ne; [done|]. intros <-. apply (mc_pool m G HC) in Hx. congruence.
Qed.

(** The function, whose result does not touch the pools. *)
Lemma slab_free_orphaned_ok :
  exists m', slab_free_orphaned m e = Some m' /\ minv m' (set_place G e PGone) /\ sm_pools m' = sm_pools m /\
    (forall x, x ∉ elems g -> sm_elts m' !! x = sm_elts m !! x) /\
    (forall x, x <> g -> sm_pages m' !! x = sm_pages m !! x) /\ (size (sm_elts m') <= size (sm_elts m))%nat.
Proof.
  pose proof orphan_less as Hless. pose proof orphan_last as Hlast. pose proof without_page_elt as Hwe. destruct H as [HC HP].
  destruct Hg as [p Hp]. destruct (mc_page m G HC g p Hp) as (Hg0 & Hev & Hby).
  destruct (mc_orphan m G HC g p Hp Ho) as [Hu Hc]. destruct (mc_gone m G HC e) as [h Hh]; [intros E; by rewrite E in Hlo|].
  pose proof (mc_owner m G HC g e h Hg Hi Hh) as Hown. rewrite Ho in Hown. cbn in Hown. destruct (page_of_owner g Hev) as [Hodd Hland].
  unfold slab_free_orphaned. rewrite Hh. cbn [mbind option_bind]. rewrite Hown, Hodd, Hland. cbn [negb]. rewrite Hp. cbn [mbind option_bind]. rewrite Hu.
  assert (count (gp G) g <= Z.to_nat (pp_num_elements par))%nat as Hle.
  { unfold count. etransitivity; [apply length_filter|]. by rewrite elems_length. }
  unfold page_store. rewrite Hp. cbn [mbind option_bind]. destruct Hpar as (_ & Hn & Hes & Hm). unfold sizeof_slab_element_header in Hes.
  rewrite u32_small by nia. destruct (count (gp G) g) as [|[|n]] eqn:Ec; [lia| |].
  - cbn [Z.of_nat Z.sub Z.eqb]. change (Z.of_nat 1 - 1 =? 0) with true. unfold free_page. cbn [sm_pages set_sm_pages]. rewrite lookup_insert_eq. cbn [mbind option_bind].
    cbn [pg_bytes]. rewrite Hby. assert (delete g (<[g := Page (PageRemaining (Z.of_nat 1 - 1)) psize]> (sm_pages m)) = delete g (sm_pages m)) as Ed by apply delete_insert_eq.
    cbn [pg_bytes]. eexists. split; [unfold set_sm_pages, set_sm_elts; cbn; rewrite Ed; reflexivity|]. split; [exact (Hlast eq_refl)|]. split; [done|]. split_and!.
    + intros x Hx. pose proof (Hwe x) as E. rewrite decide_False in E by done. exact E.
    + intros x Hx. cbn. by rewrite lookup_delete_ne.
    + cbn. apply map_subseteq_size, map_filter_subseteq.
  - rewrite (proj2 (Z.eqb_neq _ _)) by lia. replace (Z.of_nat (S (S n)) - 1) with (Z.of_nat (S n)) by lia. rewrite Hby.
    eexists. split; [reflexivity|]. split; [exact (Hless n eq_refl)|]. split_and!; try done. intros x Hx. cbn. by rewrite lookup_insert_ne.
Qed.

End Orphan.

(** ** Elements of orphaned pages, and those of a pool *)

Definition orphaned (m : smem) (G : ghost) (e : Z) : Prop := forall g, is_Some (sm_pages m !! g) -> e ∈ elems g -> go G g = None.
Definition owned (m : smem) (G : ghost) (pool e : Z) : Prop := forall g, is_Some (sm_pages m !! g) -> e ∈ elems g -> go G g = Some pool.

Lemma page_of m G e : minv m G -> gp G e <> PGone -> exists g, is_Some (sm_pages m !! g) /\ e ∈ elems g.
Proof. intros [HC _] Hp. by apply (mc_elt m G HC), (mc_gone m G HC). Qed.

(** One element of a list goes with its page. *)
Lemma drop_list m G pool s w e l :
  minv m G -> sm_pools m !! pool = Some s -> gL G w pool = e :: l -> orphaned m G e ->
  sp_list w s = e /\ e <> 0 /\ exists h m', sm_elts m !! e = Some h /\
    (m1 ← pool_store m pool (set_sp_list w (se_next h)); slab_free_orphaned m1 e) = Some m' /\
    minv m' (set_place (set_list (set_place G e (PFreeing pool)) w pool l) e PGone) /\
    sm_pools m' = <[pool := set_sp_list w (se_next h) s]> (sm_pools m) /\
    (forall g, is_Some (sm_pages m' !! g) -> is_Some (sm_pages m !! g)).
Proof.
  intros H Hs El Hor. destruct (pop_list m G H pool s Hs w e l (PFreeing pool) El I) as (E1 & E2 & Hpl & h & Hh & H1).
  split; [done|]. split; [done|]. exists h. destruct (page_of m G e H) as (g & Hg & Hi); [by rewrite Hpl|].
  unfold pool_store. rewrite Hs. cbn [mbind option_bind]. set (m1 := set_sm_pools m _) in *.
  destruct (slab_free_orphaned_ok m1 _ H1 e g) as (m' & E & H' & Hp & _ & Hpg & _); [cbn; by rewrite fn_insert_at, decide_True|done|done|by apply Hor|].
  exists m'. split; [done|]. split; [done|]. split; [done|]. split; [done|]. intros x Hx. destruct (decide (x = g)) as [->|Hne]; [done|]. by rewrite Hpg in Hx.
Qed.

(** A list of elements goes. *)
Definition dropped (G G' : ghost) (w : which) (pool : Z) : Prop :=
  (forall x, gp G' x = if decide (x ∈ gL G w pool) then PGone else gp G x) /\ go G' = go G /\ gP G' = gP G /\
  (forall v q, gL G' v q = if decide (v = w /\ q = pool) then [] else gL G v q).

Lemma free_migrated_ok pool l : forall m G s fuel,
  minv m G -> sm_pools m !! pool = Some s -> gL G Migrated pool = l -> (forall e, e ∈ l -> orphaned m G e) -> (length l < fuel)%nat ->
  exists m' G' x, free_migrated fuel m pool = Some m' /\ minv m' G' /\ dropped G G' Migrated pool /\
    sm_pools m' = <[pool := set_sp_migrated x s]> (sm_pools m) /\ (forall g, is_Some (sm_pages m' !! g) -> is_Some (sm_pages m !! g)).
Proof.
  induction l as [|e l IH]; intros m G s [|fuel] H Hs El Hor Hf; cbn [length] in Hf; try lia; cbn [free_migrated]; rewrite Hs; cbn [mbind option_bind].
  - destruct (pool_state m G H pool s Hs) as (_ & _ & _ & Pl & _). pose proof (Pl Migrated) as P0. rewrite El in P0. cbn in P0. rewrite P0, Z.eqb_refl.
    exists m, G, 0. split; [done|]. split; [done|]. split; [|split; [|done]].
    + split_and!; try done; intros x; [by rewrite El, decide_False by apply not_elem_of_nil|]. intros q. case_decide as E; [destruct E as [-> ->]; by rewrite El|done].
    + rewrite <- P0. destruct s. cbn. unfold set_sp_migrated. cbn. by rewrite insert_id.
  - destruct (drop_list m G pool s Migrated e l H Hs El (Hor e ltac:(by apply elem_of_cons; left))) as (E1 & E2 & h & m1 & Hh & E3 & H1 & Hp & Hpg).
    cbn [sp_list set_sp_list] in *. rewrite E1, (proj2 (Z.eqb_neq _ _)), Hh by done. cbn [mbind option_bind].
    destruct (pool_store m pool _) as [m0|]; [|done]. cbn [mbind option_bind] in E3 |- *. rewrite E3. cbn [mbind option_bind].
    set (G1 := set_place _ _ _) in *. assert (NoDup (e :: l)) as Hnd by (rewrite <- El; apply H). apply NoDup_cons in Hnd as [Hel _].
    edestruct (IH m1 G1 (set_sp_migrated (se_next h) s) fuel) as (m' & G' & x & E' & H' & (D1 & D2 & D3 & D4) & Hp' & Hpg').
    + done.
    + rewrite Hp. apply lookup_insert_eq.
    + cbn. by rewrite decide_True.
    + intros y Hy g Hg Hi. apply (Hor y); [apply elem_of_cons; by right|by apply Hpg|done].
    + lia.
    + exists m', G', x. split; [done|]. split; [done|]. split; [split_and!; [|done|done|]|split; [by rewrite Hp', Hp, insert_insert_eq|by eauto]].
      * intros y. rewrite D1, El. cbn. rewrite (decide_True (P := Migrated = Migrated /\ pool = pool)), !fn_insert_at by done.
        destruct (decide (y = e)) as [->|Hy]; [rewrite (decide_True (P := e ∈ e :: l)) by (apply elem_of_cons; by left); by case_decide|].
        destruct (decide (y ∈ l)) as [Hyl|Hyl]; [rewrite decide_True by (apply elem_of_cons; by right); done|].
        rewrite (decide_False (P := y ∈ e :: l)); [done|]. by intros [?|?]%elem_of_cons.
      * intros v q. rewrite D4. cbn. by case_decide.
Qed.

(** ** Pages become orphans *)

Lemma elt_at_inj g i j : elt_at g i = elt_at g j -> i = j.
Proof. destruct Hpar as (_ & _ & He & _). unfold sizeof_slab_element_header in He. unfold elt_at. nia. Qed.

Lemma owner_loop g o n : forall i m,
  0 <= i -> i + Z.of_nat n <= num -> (forall x, x ∈ elems g -> is_Some (sm_elts m !! x)) ->
  exists E, for_elements n i (fun m i => elt_store m (slab_get_element par g i) (set_se_owner o)) m = Some (set_sm_elts m E) /\
    (forall j, i <= j < i + Z.of_nat n -> E !! elt_at g j = set_se_owner o <$> sm_elts m !! elt_at g j) /\
    (forall x, (forall j, i <= j < i + Z.of_nat n -> x <> elt_at g j) -> E !! x = sm_elts m !! x).
Proof.
  induction n as [|n IH]; intros i m Hi Hn Hm.
  - exists (sm_elts m). split; [by destruct m|]. split; [intros; lia|done].
  - cbn [for_elements]. rewrite get_element by lia. destruct (Hm (elt_at g i)) as [h Hh]; [apply elem_of_elems; exists i; split; [lia|done]|].
    set (m1 := set_sm_elts m (<[elt_at g i := set_se_owner o h]> (sm_elts m))).
    assert (elt_store m (elt_at g i) (set_se_owner o) = Some m1) as -> by (unfold elt_store; by rewrite Hh). cbn [mbind option_bind].
    destruct (IH (i + 1) m1) as (E & E1 & E2 & E3); [lia|lia| |].
    { intros x Hx. cbn. destruct (decide (x = elt_at g i)) as [->|]; [rewrite lookup_insert_eq; by eexists|rewrite lookup_insert_ne by done; by apply Hm]. }
    exists E. split; [exact E1|]. split.
    + intros j Hj. destruct (decide (j = i)) as [->|Hji].
      * rewrite E3; [rewrite Hh; unfold m1; cbn [sm_elts set_sm_elts]; by rewrite lookup_insert_eq|]. intros k Hk Ek%elt_at_inj. lia.
      * rewrite E2 by lia. unfold m1. cbn [sm_elts set_sm_elts]. rewrite lookup_insert_ne; [done|]. by intros Ej%elt_at_inj.
    + intros x Hx. rewrite E3 by (intros j Hj; apply Hx; lia). unfold m1. cbn [sm_elts set_sm_elts]. rewrite lookup_insert_ne; [done|]. intros Ex. apply (Hx i); [lia|done].
Qed.

Lemma count_full pl g : (forall e, e ∈ elems g -> pl e <> PGone) -> count pl g = Z.to_nat num.
Proof.
  intros Hx. unfold count. rewrite <- (elems_length g). f_equal. induction (elems g) as [|e l IH]; [done|]. rewrite filter_cons, decide_True.
  - f_equal. apply IH. intros y Hy. apply Hx, elem_of_cons. by right.
  - apply Hx, elem_of_cons. by left.
Qed.

Definition set_orphan (G : ghost) (g pool : Z) (l : list Z) : ghost :=
  Ghost (gp G) (<[g := None]> (go G)) (<[pool := l]> (gP G)) (gL G).

Section OrphanPage.

Context (m : smem) (G : ghost) (H : minv m G) (pool : Z) (s : slab_child_pool) (Hs : sm_pools m !! pool = Some s) (Hpa : sp_parent s = pa).
Context (g : Z) (l : list Z) (El : gP G pool = g :: l) (p : slab_page_header) (Hp : sm_pages m !! g = Some p).
Context (next : Z) (Hl : plist (sm_pages m) next l).
Context (E : gmap Z slab_element_header).
Context (Ein : forall x, x ∈ elems g -> E !! x = set_se_owner (Z.lor g 1) <$> sm_elts m !! x).
Context (Eout : forall x, x ∉ elems g -> E !! x = sm_elts m !! x).

Local Notation P' := (<[g := Page (PageRemaining num) (pg_bytes p)]> (sm_pages m)).
Local Notation m' := (SMem E P' (<[pool := set_sp_pages next s]> (sm_pools m)) (sm_parents m)).

Lemma orphan_dom x : is_Some (E !! x) <-> is_Some (sm_elts m !! x).
Proof. destruct (decide (x ∈ elems g)) as [Hx|Hx]; [rewrite Ein by done|by rewrite Eout]. by rewrite fmap_is_Some. Qed.

Lemma orphan_next x : se_next <$> E !! x = se_next <$> sm_elts m !! x.
Proof. destruct (decide (x ∈ elems g)) as [Hx|Hx]; [rewrite Ein by done|by rewrite Eout]. by destruct (sm_elts m !! x). Qed.

Lemma orphan_page_dom x : is_Some (P' !! x) <-> is_Some (sm_pages m !! x).
Proof. destruct (decide (x = g)) as [->|]; [rewrite lookup_insert_eq, Hp; split; by eexists|by rewrite lookup_insert_ne]. Qed.

Lemma orphan_head : go G g = Some pool /\ g ∉ l /\ NoDup l.
Proof.
  pose proof (proj1 H) as HC. split; [apply (mc_pool m G HC); rewrite El; apply elem_of_cons; by left|].
  assert (NoDup (g :: l)) as Hnd by (rewrite <- El; apply (mc_pages m G HC pool)). by apply NoDup_cons in Hnd.
Qed.

Lemma orphan_head_only q : q <> pool -> g ∉ gP G q.
Proof. intros Hq Hi%(mc_pool m G (proj1 H)). pose proof (proj1 orphan_head). congruence. Qed.

Lemma orphan_core : mcore m' (set_orphan G g pool l).
Proof.
  pose proof (proj1 H) as HC. pose proof orphan_page_dom as Pdom. destruct orphan_head as (Hgo & Hgl & Hnd). pose proof orphan_head_only as Hgq.
  pose proof (same_page m G H) as Hsp. assert (is_Some (sm_pages m !! g)) as Hg by (by eexists).
  assert (forall x, x <> g -> P' !! x = sm_pages m !! x) as Pne by (intros x Hx; by rewrite lookup_insert_ne).
  assert (forall x, x <> g -> <[g := None]> (go G) x = go G x) as Gne by (intros; by rewrite fn_lookup_insert_ne).
  constructor; cbn [sm_elts sm_pages sm_parents set_orphan go gP gp]; try apply HC.
  - intros x q. destruct (decide (x = g)) as [->|Hx]; [rewrite lookup_insert_eq; intros [= <-]|rewrite Pne by done; apply HC]. exact (mc_page m G HC g p Hp).
  - intros x y Hx Hy. apply HC; by apply Pdom.
  - intros x. rewrite orphan_dom. setoid_rewrite Pdom. apply HC.
  - intros y x h Hy%Pdom Hx Hh. destruct (decide (y = g)) as [->|Hne].
    + rewrite fn_lookup_insert. rewrite Ein in Hh by done. destruct (sm_elts m !! x) as [h0|]; [|done]. by injection Hh as <-.
    + rewrite Gne by done. rewrite Eout in Hh; [by apply (mc_owner m G HC y x)|]. intros Hx'. by apply Hne, (Hsp g y x).
  - intros x q. rewrite !fn_insert_at. destruct (decide (x = g)) as [->|Hx].
    + split; [done|]. case_decide as Hq; [done|]. intros Hi. by apply Hgq in Hi.
    + rewrite (mc_pool m G HC). case_decide as Hq; [subst q|done]. rewrite El, elem_of_cons. naive_solver.
  - intros q. rewrite fn_insert_at. setoid_rewrite Pdom. case_decide as Hq; [subst q|apply HC]. split; [done|]. intros x Hx.
    apply (mc_pages m G HC pool). rewrite El. apply elem_of_cons. by right.
  - intros x q. destruct (decide (x = g)) as [->|Hx]; [|rewrite Pne, Gne by done; apply HC]. rewrite lookup_insert_eq. intros [= <-] _. cbn [pg_u].
    rewrite count_full by (intros y; by apply (mc_owned m G HC g pool)). destruct Hpar as (_ & Hn & _). split; [f_equal; lia|lia].
  - intros x q y. destruct (decide (x = g)) as [->|Hx]; [by rewrite fn_lookup_insert|]. rewrite Gne by done. apply (mc_owned m G HC).
  - intros x. rewrite orphan_dom. apply HC.
Qed.

Lemma orphan_page_minv : minv m' (set_orphan G g pool l).
Proof.
  split; [exact orphan_core|]. destruct orphan_head as (_ & Hgl & _). pose proof orphan_head_only as Hgq. pose proof orphan_next as Hnext.
  destruct (pool_state m G H pool s Hs) as (P1 & P2 & _ & P4 & _). intros q. destruct (decide (q = pool)) as [->|Hq].
  - constructor; cbn; try apply (proj2 H pool). unfold pool_lists. cbn. rewrite lookup_insert_eq, fn_insert_at, decide_True by done. split_and!; try done.
    + apply (plist_ext (sm_pages m)); [|done]. intros x Hx. rewrite lookup_insert_ne; [done|]. by intros ->.
    + intros w. apply (elist_ext (sm_elts m)); [by intros; apply Hnext|]. specialize (P4 w). by destruct w.
    + by left.
  - apply (mpool_frame m _ G); [cbn; by rewrite lookup_insert_ne|cbn; by rewrite fn_insert_at, decide_False|done|by intros; apply Hnext| |done|apply H].
    intros x Hx. cbn. rewrite lookup_insert_ne; [done|]. intros ->. by apply Hgq in Hx.
Qed.

End OrphanPage.

Lemma orphan_page_ok m G pool s g l :
  minv m G -> sm_pools m !! pool = Some s -> gP G pool = g :: l -> sp_parent s = pa ->
  sp_pages s = g /\ g <> 0 /\ exists p next m', sm_pages m !! g = Some p /\ pg_u p = PageNext next /\
    orphan_page (set_sm_pools m (<[pool := set_sp_pages next s]> (sm_pools m))) par g = Some m' /\ minv m' (set_orphan G g pool l) /\
    sm_pools m' = <[pool := set_sp_pages next s]> (sm_pools m) /\ dom (sm_pages m') = dom (sm_pages m) /\ sm_parents m' = sm_parents m.
Proof.
  intros H Hs El Hpa. destruct (pool_state m G H pool s Hs) as (_ & _ & P3 & _). rewrite El in P3. cbn in P3.
  destruct P3 as (Es & Hg0 & p & next & Hp & Hu & Hl). split; [done|]. split; [done|]. exists p, next. pose proof Hpar as (_ & Hn & _).
  unfold orphan_page, page_store. cbn [sm_pages set_sm_pools]. rewrite Hp. cbn [mbind option_bind]. set (m1 := set_sm_pages _ _).
  destruct (owner_loop g (Z.lor g 1) (Z.to_nat num) 0 m1) as (E & E1 & E2 & E3); [lia|lia|intros x Hx; apply (mc_elt m G (proj1 H)); by exists g|].
  rewrite E1. eexists. split; [done|]. split; [done|]. split; [reflexivity|]. split; [|split; [done|split; [|done]]].
  - apply (orphan_page_minv m G H pool s Hs Hpa g l El p Hp next Hl E).
    + intros x (i & Hi & ->)%elem_of_elems. by rewrite E2 by lia.
    + intros x Hx. rewrite E3; [done|]. intros j Hj ->. apply Hx, elem_of_elems. exists j. split; [lia|done].
  - apply set_eq. intros x. rewrite !elem_of_dom. by apply (orphan_page_dom m g p Hp).
Qed.

Lemma orphan_pages_ok pool l : forall m G s fuel,
  minv m G -> sm_pools m !! pool = Some s -> sp_parent s = pa -> gP G pool = l -> (length l < fuel)%nat ->
  exists m' G' x, orphan_pages fuel m pool = Some m' /\ minv m' G' /\ gp G' = gp G /\ gL G' = gL G /\
    (forall q, gP G' q = if decide (q = pool) then [] else gP G q) /\ (forall g, go G' g = if decide (g ∈ l) then None else go G g) /\
    sm_pools m' = <[pool := set_sp_pages x s]> (sm_pools m) /\ dom (sm_pages m') = dom (sm_pages m).
Proof.
  induction l as [|g l IH]; intros m G s [|fuel] H Hs Hpa El Hf; cbn [length] in Hf; try lia; cbn [orphan_pages]; rewrite Hs; cbn [mbind option_bind].
  - destruct (pool_state m G H pool s Hs) as (_ & _ & P0 & _). rewrite El in P0. cbn in P0. rewrite P0, Z.eqb_refl. exists m, G, 0. split_and!; try done.
    + intros q. case_decide; [by subst q|done].
    + rewrite <- P0. destruct s. by rewrite insert_id.
  - destruct (orphan_page_ok m G pool s g l H Hs El Hpa) as (E1 & E2 & p & next & m1 & Hp & Hu & Eo & H1 & Hp1 & Hd & Hpr).
    rewrite E1, (proj2 (Z.eqb_neq _ _)), Hp by done. cbn [mbind option_bind]. rewrite Hu. unfold pool_store. rewrite Hs. cbn [mbind option_bind sm_parents set_sm_pools].
    rewrite Hpa, (mc_parent m G (proj1 H)). cbn [mbind option_bind]. rewrite Eo. cbn [mbind option_bind].
    destruct (IH m1 (set_orphan G g pool l) (set_sp_pages next s) fuel) as (m' & G' & x & E & H' & D1 & D2 & D3 & D4 & D5 & D6); try done; try lia.
    + rewrite Hp1. apply lookup_insert_eq.
    + cbn. by rewrite fn_insert_at, decide_True.
    + exists m', G', x. split_and!; try done.
      * intros q. rewrite D3. cbn. rewrite fn_insert_at. by case_decide.
      * intros y. rewrite D4. cbn. rewrite fn_insert_at. destruct (decide (y = g)) as [->|Hy]; [rewrite (decide_True (P := g ∈ g :: l)) by (apply elem_of_cons; by left); by case_decide|].
        destruct (decide (y ∈ l)) as [Hl|Hl]; [rewrite decide_True by (apply elem_of_cons; by right); done|].
        rewrite (decide_False (P := y ∈ g :: l)); [done|]. by intros [?|?]%elem_of_cons.
      * by rewrite D5, Hp1, insert_insert_eq.
      * by rewrite D6, Hd.
Qed.

Lemma list_size {A} (M : gmap Z A) (l : list Z) : NoDup l -> (forall x, x ∈ l -> is_Some (M !! x)) -> (length l <= size M)%nat.
Proof.
  intros Hnd Hx. rewrite <- size_dom, <- (size_list_to_set (C := gset Z) _ Hnd). apply subseteq_size.
  intros x Hi%elem_of_list_to_set. by apply elem_of_dom, Hx.
Qed.

(** The critical section of the destructor: the pool has no pages and no migrated elements any more. *)
Definition torn (G G' : ghost) (pool : Z) : Prop :=
  (forall x, gp G' x = if decide (x ∈ gL G Migrated pool) then PGone else gp G x) /\
  (forall g, go G' g = if decide (g ∈ gP G pool) then None else go G g) /\
  (forall q, gP G' q = if decide (q = pool) then [] else gP G q) /\
  (forall w q, gL G' w q = if decide (w = Migrated /\ q = pool) then [] else gL G w q).

Lemma orphan_all_ok m G pool s :
  minv m G -> sm_pools m !! pool = Some s -> sp_parent s = pa -> (forall w e, e ∈ gL G w pool -> owned m G pool e) ->
  exists m' G' s', orphan_all m pool = Some m' /\ minv m' G' /\ torn G G' pool /\
    sm_pools m' = <[pool := s']> (sm_pools m) /\ sp_parent s' = pa /\ (forall g, is_Some (sm_pages m' !! g) -> is_Some (sm_pages m !! g)).
Proof.
  intros H Hs Hpa Hown. unfold orphan_all.
  destruct (orphan_pages_ok pool (gP G pool) m G s (S (size (sm_pages m))) H Hs Hpa eq_refl) as (m1 & G1 & x & E1 & H1 & D1 & D2 & D3 & D4 & D5 & D6).
  { apply Nat.lt_succ_r, list_size; apply (mc_pages m G (proj1 H) pool). }
  rewrite E1. cbn [mbind option_bind].
  assert (forall g, is_Some (sm_pages m1 !! g) <-> is_Some (sm_pages m !! g)) as Hdom by (intros g; by rewrite <- !elem_of_dom, D6).
  destruct (free_migrated_ok pool (gL G1 Migrated pool) m1 G1 (set_sp_pages x s) (S (size (sm_elts m1)))) as (m' & G' & y & E2 & H2 & (T1 & T2 & T3 & T4) & Hp & Hpg).
  - done.
  - rewrite D5. apply lookup_insert_eq.
  - done.
  - intros e He g Hg Hi. rewrite D4, decide_True; [done|]. rewrite D2 in He. apply (mc_pool m G (proj1 H)). apply (Hown Migrated e He); [by apply Hdom|done].
  - apply Nat.lt_succ_r, list_size; [apply H1|]. intros e He. apply (mc_gone _ _ (proj1 H1)). apply (mp_place _ _ _ (proj2 H1 pool)) in He. by rewrite He.
  - exists m', G', (set_sp_migrated y (set_sp_pages x s)). split; [done|]. split; [done|]. split; [|split; [by rewrite Hp, D5, insert_insert_eq|split; [done|intros g Hg; apply Hdom; by apply Hpg]]].
    split_and!.
    + intros z. by rewrite T1, D1, D2.
    + intros g. by rewrite T2.
    + intros q. by rewrite T3.
    + intros w q. by rewrite T4, D2.
Qed.

(** ** A new page *)

Lemma new_elements g pool n : forall i m s l,
  0 <= i -> i + Z.of_nat n <= num -> 0 < g -> Z.even pool = true -> sm_pools m !! pool = Some s -> elist (sm_elts m) (sp_free s) l ->
  (forall j, i <= j < i + Z.of_nat n -> elt_at g j ∉ l) ->
  exists E x, for_elements n i (new_element pool g psize par) m = Some (set_sm_pools (set_sm_elts m E) (<[pool := set_sp_free x s]> (sm_pools m))) /\
    elist E x (rev (elt_at g <$> seqZ i (Z.of_nat n)) ++ l) /\
    (forall j, i <= j < i + Z.of_nat n -> exists h, E !! elt_at g j = Some h /\ se_owner h = pool) /\
    (forall y, (forall j, i <= j < i + Z.of_nat n -> y <> elt_at g j) -> E !! y = sm_elts m !! y).
Proof.
  induction n as [|n IH]; intros i m s l Hi Hn Hg Hev Hs Hl Hno.
  - exists (sm_elts m), (sp_free s). split; [|split; [done|split; [intros; lia|done]]]. cbn. destruct m, s. cbn in *. unfold set_sm_pools, set_sm_elts. cbn.
    by rewrite insert_id.
  - cbn [for_elements]. set (e := elt_at g i). assert (e ∈ elems g) as He by (apply elem_of_elems; exists i; split; [lia|done]).
    apply elems_bound in He. pose proof Hpar as (_ & _ & Hes & _). unfold sizeof_slab_element_header, sizeof_slab_page_header in *.
    set (m1 := set_sm_pools (set_sm_elts m (<[e := Elt (sp_free s) pool]> (sm_elts m))) (<[pool := set_sp_free e s]> (sm_pools m))).
    assert (new_element pool g psize par m i = Some m1) as ->.
    { unfold new_element. rewrite Hs. cbn [mbind option_bind]. rewrite get_element by lia. fold e. rewrite <- Z.negb_even, Hev. cbn [negb orb].
      unfold sizeof_slab_element_header. rewrite (proj2 (Z.ltb_ge _ _)) by lia. unfold pool_store. cbn [sm_pools set_sm_elts]. by rewrite Hs. }
    cbn [mbind option_bind]. destruct (IH (i + 1) m1 (set_sp_free e s) (e :: l)) as (E & x & E1 & E2 & E3 & E4); try done; try lia.
    + cbn. apply lookup_insert_eq.
    + cbn. split; [done|]. split; [lia|]. eexists. split; [apply lookup_insert_eq|]. cbn. apply (elist_ext (sm_elts m)); [|done].
      intros y Hy. rewrite lookup_insert_ne; [done|]. intros <-. apply (Hno i); [lia|done].
    + intros j Hj [Ej|Hj']%elem_of_cons; [apply elt_at_inj in Ej; lia|]. apply (Hno j); [lia|done].
    + exists E, x. split; [rewrite E1; unfold m1, set_sm_pools, set_sm_elts; cbn; by rewrite insert_insert_eq|]. split; [|split].
      * replace (Z.of_nat (S n)) with (Z.succ (Z.of_nat n)) by lia. rewrite seqZ_cons by lia. cbn [fmap list_fmap rev]. rewrite <- app_assoc. cbn [app].
        by replace (Z.succ i) with (i + 1) by lia; replace (Z.pred (Z.succ (Z.of_nat n))) with (Z.of_nat n) by lia.
      * intros j Hj. destruct (decide (j = i)) as [->|]; [|apply E3; lia]. rewrite E4 by (intros k Hk Ek%elt_at_inj; lia). unfold m1. cbn [sm_elts set_sm_elts set_sm_pools].
        rewrite lookup_insert_eq. by eexists.
      * intros y Hy. rewrite E4 by (intros j Hj; apply Hy; lia). unfold m1. cbn [sm_elts set_sm_elts set_sm_pools]. rewrite lookup_insert_ne; [done|]. intros <-. apply (Hy i); [lia|done].
Qed.

Lemma elem_of_List_rev (x : Z) l : x ∈ rev l <-> x ∈ l.
Proof. by rewrite !list_elem_of_In, <- in_rev. Qed.

(** The page belongs to the pool, and its elements are free. *)
Definition add_page (G : ghost) (g pool : Z) : ghost :=
  Ghost (fun x => if decide (x ∈ elems g) then PIn Free pool else gp G x) (<[g := Some pool]> (go G)) (<[pool := g :: gP G pool]> (gP G))
    (fun v q => if decide (v = Free /\ q = pool) then rev (elems g) ++ gL G Free pool else gL G v q).

Section AddPage.

Context (m : smem) (G : ghost) (H : minv m G) (pool : Z) (s : slab_child_pool) (Hs : sm_pools m !! pool = Some s) (Hpa : sp_parent s = pa).
Context (g : Z) (Hg0 : 0 < g) (Hev : Z.even g = true).
Context (Hfresh : forall g' p, sm_pages m !! g' = Some p -> g + psize <= g' \/ g' + pg_bytes p <= g).

Lemma fresh_apart g' : is_Some (sm_pages m !! g') -> g' <> g /\ (g + psize <= g' \/ g' + psize <= g).
Proof.
  intros [p Hp]. pose proof (Hfresh g' p Hp) as Ha. destruct H as [HC _]. destruct (mc_page m G HC g' p Hp) as (_ & _ & Hb). rewrite Hb in Ha. split; [|done].
  destruct Hpar as (_ & Hn & He & _). intros ->. unfold psize, sizeof_slab_element_header, sizeof_slab_page_header in *. nia.
Qed.

Lemma fresh_page : sm_pages m !! g = None.
Proof. destruct (sm_pages m !! g) eqn:E; [|done]. destruct (fresh_apart g) as [? _]; [by eexists|done]. Qed.

Lemma fresh_elt x : x ∈ elems g -> sm_elts m !! x = None /\ gp G x = PGone.
Proof.
  intros Hx. assert (sm_elts m !! x = None) as Hn.
  { destruct (sm_elts m !! x) as [h|] eqn:E; [|done]. exfalso. destruct H as [HC _].
    destruct (proj1 (mc_elt m G HC x) (ex_intro _ _ E)) as (g' & Hg' & Hx'). destruct (fresh_apart g' Hg') as [_ Ha].
    apply elems_bound in Hx, Hx'. destruct Hpar as (_ & _ & He & _). unfold sizeof_slab_element_header, sizeof_slab_page_header in *. lia. }
  split; [done|]. destruct (decide (gp G x = PGone)) as [|Hne]; [done|]. apply (mc_gone m G (proj1 H)) in Hne. rewrite Hn in Hne. by destruct Hne.
Qed.

Context (E : gmap Z slab_element_header) (x0 : Z).
Context (Elist : elist E x0 (rev (elems g) ++ gL G Free pool)).
Context (Ein : forall x, x ∈ elems g -> exists h, E !! x = Some h /\ se_owner h = pool).
Context (Eout : forall x, x ∉ elems g -> E !! x = sm_elts m !! x).

Local Notation m' := (SMem E (<[g := Page (PageNext (sp_pages s)) psize]> (sm_pages m))
  (<[pool := set_sp_pages g (set_sp_free x0 s)]> (sm_pools m)) (sm_parents m)).

Lemma add_page_pages x : is_Some (sm_pages m' !! x) <-> x = g \/ is_Some (sm_pages m !! x).
Proof.
  cbn. destruct (decide (x = g)) as [->|Hne]; [rewrite lookup_insert_eq; split; [by left|by eexists]|]. rewrite lookup_insert_ne by done. naive_solver.
Qed.

Lemma add_page_not_listed q : g ∉ gP G q.
Proof. intros Hi. apply (mc_pages m G (proj1 H)) in Hi. rewrite fresh_page in Hi. by destruct Hi. Qed.

Lemma add_page_elt x : gp G x <> PGone -> x ∉ elems g.
Proof. intros Hp Hx. by apply fresh_elt in Hx as [_ ?]. Qed.

Lemma add_page_core : mcore m' (add_page G g pool).
Proof.
  pose proof (proj1 H) as HC. pose proof add_page_pages as Hpg. pose proof fresh_apart as Hap. pose proof add_page_not_listed as Hnl.
  assert (forall y x, is_Some (sm_pages m !! y) -> x ∈ elems y -> x ∉ elems g) as Hdis.
  { intros y x Hy Hx Hx'. apply fresh_elt in Hx' as [Hx' _]. assert (is_Some (sm_elts m !! x)) as Hso by (apply HC; by exists y). rewrite Hx' in Hso. by destruct Hso. }
  constructor; cbn [sm_elts sm_parents add_page go gP gp]; try apply HC.
  - intros x p. cbn. destruct (decide (x = g)) as [->|]; [rewrite lookup_insert_eq; by intros [= <-]|rewrite lookup_insert_ne by done; apply HC].
  - intros x y [->|Hx]%Hpg [->|Hy]%Hpg Hne; [done|..].
    + destruct (Hap y Hy) as [_ ?]. lia.
    + destruct (Hap x Hx) as [_ ?]. lia.
    + by apply HC.
  - intros x. setoid_rewrite Hpg. destruct (decide (x ∈ elems g)) as [Hx|Hx].
    + destruct (Ein x Hx) as (h & -> & _). split; [intros _; exists g; split; [by left|done]|by eexists].
    + rewrite Eout by done. rewrite (mc_elt m G HC x). split; [intros (y & Hy & Hxy); exists y; split; [by right|done]|].
      intros (y & [->|Hy] & Hxy); [done|]. by exists y.
  - intros y x h [->|Hy]%Hpg Hx Hh.
    + destruct (Ein x Hx) as (h' & Hh' & Ho). rewrite fn_insert_at, decide_True by done. cbn. congruence.
    + destruct (Hap y Hy) as [Hne _]. rewrite fn_insert_at, decide_False by done. rewrite Eout in Hh by (by apply (Hdis y)). by apply (mc_owner m G HC y x).
  - intros x q. rewrite !fn_insert_at. destruct (decide (x = g)) as [->|Hx].
    + destruct (decide (q = pool)) as [->|Hq]; [split; [intros _; apply elem_of_cons; by left|done]|]. split; [congruence|]. intros Hi. by apply Hnl in Hi.
    + rewrite (mc_pool m G HC). case_decide as Hq; [subst q|done]. rewrite elem_of_cons. naive_solver.
  - intros q. rewrite fn_insert_at. setoid_rewrite Hpg. destruct (mc_pages m G HC q) as [N1 N2]. case_decide as Hq; [subst q|split; [done|by eauto]].
    split; [apply NoDup_cons; by split|]. intros x [->|Hx]%elem_of_cons; [by left|right; by apply N2].
  - intros x p. cbn. destruct (decide (x = g)) as [->|Hx]; [rewrite fn_insert_at, decide_True; done|]. rewrite lookup_insert_ne, fn_insert_at, decide_False by done.
    intros Hp Ho. rewrite (count_ext (gp G)); [by apply HC|]. intros y Hy. rewrite decide_False; [done|]. apply (Hdis x); [by eexists|done].
  - intros x q y. rewrite fn_insert_at. destruct (decide (y ∈ elems g)) as [Hy|Hy]; [done|]. case_decide as Hx; [by subst x|]. apply (mc_owned m G HC).
  - intros x. destruct (decide (x ∈ elems g)) as [Hx|Hx]; [intros _; destruct (Ein x Hx) as (h & -> & _); by eexists|]. rewrite Eout by done. apply HC.
Qed.

Lemma add_page_ok : minv m' (add_page G g pool).
Proof.
  split; [exact add_page_core|]. pose proof add_page_elt as Hne. pose proof add_page_not_listed as Hnl. pose proof (proj2 H) as HP.
  assert (forall v q e, e ∈ gL G v q -> e ∉ elems g) as Hno by (intros v q e He; apply Hne; apply (HP q) in He; by rewrite He).
  destruct (pool_state m G H pool s Hs) as (P1 & P2 & P3 & P4 & _).
  intros q. destruct (decide (q = pool)) as [->|Hq].
  - destruct (HP pool) as [_ N HF]. constructor; cbn.
    + unfold pool_lists. cbn. rewrite lookup_insert_eq. rewrite fn_insert_at, decide_True by done. split_and!; try done; [| |by left].
      * cbn. split; [done|]. split; [lia|]. eexists _, _. split; [apply lookup_insert_eq|]. split; [done|].
        apply (plist_ext (sm_pages m)); [|done]. intros y Hy. rewrite lookup_insert_ne; [done|]. intros <-. by apply Hnl in Hy.
      * intros [|]; [rewrite decide_True by done; exact Elist|]. rewrite decide_False by (by intros []).
        apply (elist_ext (sm_elts m)); [|apply (P4 Migrated)]. intros y Hy. by rewrite Eout by (by apply (Hno Migrated pool)).
    + intros v. case_decide; [|apply N]. apply NoDup_app. split; [apply NoDup_ListNoDup, NoDup_rev, NoDup_ListNoDup, elems_nodup|]. split; [|apply N].
      intros y Hy Hy'. rewrite elem_of_List_rev in Hy. by apply (Hno Free pool y).
    + intros v y. destruct (decide (v = Free /\ pool = pool)) as [[-> _]|Hv].
      * rewrite elem_of_app, elem_of_List_rev, <- HF. case_decide as Hy; [naive_solver|]. naive_solver.
      * rewrite <- HF. case_decide as Hy; [|done]. apply fresh_elt in Hy as [_ ->]. split; [intros [= <-]; by destruct Hv|done].
  - apply (mpool_frame m _ G); try done; cbn.
    + by rewrite lookup_insert_ne.
    + by rewrite fn_insert_at, decide_False.
    + intros v. rewrite decide_False by (by intros []). done.
    + intros v y Hy. by rewrite Eout by (by apply (Hno v q)).
    + intros y Hy. rewrite lookup_insert_ne; [done|]. intros <-. by apply Hnl in Hy.
    + intros v y. case_decide as Hy; [|done]. apply fresh_elt in Hy as [_ ->]. split; [congruence|done].
Qed.

End AddPage.

Lemma slab_add_new_page_ok malloc m G pool s :
  minv m G -> sm_pools m !! pool = Some s -> sp_parent s = pa -> malloc_ok m malloc ->
  slab_add_new_page malloc m pool = Some (m, false) \/
  exists g m' s', slab_add_new_page malloc m pool = Some (m', true) /\ minv m' (add_page G g pool) /\
    sm_pools m' = <[pool := s']> (sm_pools m) /\ sp_parent s' = pa /\ (forall x, x ∈ elems g -> gp G x = PGone) /\
    (forall x, is_Some (sm_pages m' !! x) <-> x = g \/ is_Some (sm_pages m !! x)) /\ sm_pages m !! g = None.
Proof.
  intros H Hs Hpa Hm. unfold slab_add_new_page. rewrite Hs. cbn [mbind option_bind]. rewrite Hpa, (mc_parent m G (proj1 H)). cbn [mbind option_bind].
  pose proof Hpar as (_ & Hn & Hes & Hmul). unfold sizeof_slab_element_header in Hes.
  rewrite u32_small by nia. fold psize. destruct (malloc psize) as [g|] eqn:Eg; [right|by left].
  destruct (Hm psize g Eg) as (Hg0 & Hev & Hfr). destruct (pool_state m G H pool s Hs) as (P1 & P2 & P3 & P4 & _).
  pose proof (fresh_elt m G H g Hfr) as Hfe.
  destruct (new_elements g pool (Z.to_nat num) 0 m s (gL G Free pool)) as (E & x & E1 & E2 & E3 & E4); [lia|lia|done|done|done|apply (P4 Free)| |].
  { intros j Hj Hi. apply (proj2 H) in Hi. destruct (Hfe (elt_at g j)) as [_ Hgo]; [apply elem_of_elems; exists j; split; [lia|done]|]. congruence. }
  rewrite E1. cbn [mbind option_bind]. rewrite Z2Nat.id in E2, E3, E4 by lia. fold (elems g) in E2.
  assert (forall y, y ∈ elems g -> exists h, E !! y = Some h /\ se_owner h = pool) as Ein by (intros y (j & Hj & ->)%elem_of_elems; apply E3; lia).
  assert (forall y, y ∉ elems g -> E !! y = sm_elts m !! y) as Eout by (intros y Hy; apply E4; intros j Hj ->; apply Hy, elem_of_elems; exists j; split; [lia|done]).
  unfold pool_store. cbn [sm_pools set_sm_pages set_sm_pools]. rewrite lookup_insert_eq. cbn [mbind option_bind]. eexists g, _, _. split; [reflexivity|]. split_and!.
  - unfold set_sm_pools, set_sm_pages, set_sm_elts. cbn [sm_elts sm_pages sm_pools sm_parents]. rewrite insert_insert_eq. by apply add_page_ok.
  - cbn. by rewrite insert_insert_eq.
  - done.
  - intros y Hy. by apply Hfe.
  - intros y. exact (add_page_pages m pool s g E x y).
  - by apply (fresh_page m G H g Hfr).
Qed.

(** ** The migrated elements become free ones *)

Definition collected (G : ghost) (pool : Z) : ghost :=
  Ghost (fun x => if decide (gp G x = PIn Migrated pool) then PIn Free pool else gp G x) (go G) (gP G)
    (fun v q => if decide (q = pool) then match v with Free => gL G Migrated pool | Migrated => [] end else gL G v q).

Lemma collect_migrated_ok m G pool s :
  minv m G -> sm_pools m !! pool = Some s -> sp_parent s = pa -> gL G Free pool = [] ->
  exists m' s', collect_migrated m pool = Some m' /\ minv m' (collected G pool) /\ sm_pools m' = <[pool := s']> (sm_pools m) /\ sp_parent s' = pa /\
    sm_pages m' = sm_pages m.
Proof.
  intros H Hs Hpa El. destruct (pool_state m G H pool s Hs) as (P1 & P2 & P3 & P4 & _). unfold collect_migrated. rewrite Hs. cbn [mbind option_bind].
  unfold pool_store. rewrite Hs. cbn [mbind option_bind sm_pools set_sm_pools]. rewrite lookup_insert_eq. cbn [mbind option_bind].
  eexists _, _. split; [reflexivity|]. split; [|split; [cbn; by rewrite insert_insert_eq|done]]. destruct H as [HC HP]. split.
  - apply (mcore_ext m _ G); try done. intros x. cbn. case_decide as Hx; [|done]. rewrite Hx. done.
  - intros q. destruct (decide (q = pool)) as [->|Hq].
    + destruct (HP pool) as [_ N HF]. constructor; cbn.
      * unfold pool_lists. cbn. rewrite lookup_insert_eq. split_and!; try done; [|by left]. intros v. rewrite decide_True by done.
        destruct v; cbn; [apply (P4 Migrated)|done].
      * intros v. rewrite decide_True by done. destruct v; [apply N|constructor].
      * intros v x. rewrite (decide_True (P := pool = pool)) by done. pose proof (HF Free x) as F1. rewrite El in F1. pose proof (HF Migrated x) as F2.
        case_decide as Hx; destruct v; rewrite ?elem_of_nil in *; naive_solver.
    + apply (mpool_frame m _ G); try done; cbn.
      * by rewrite insert_insert_eq, lookup_insert_ne.
      * intros v. by rewrite decide_False.
      * intros v x. case_decide as Hx; [rewrite Hx|done]. split; congruence.
Qed.

(** ** Pools come and go *)

Lemma pool_update m G pool s :
  minv m G -> 0 < pool -> Z.even pool = true -> (sp_parent s = pa \/ sp_parent s = 0) -> sp_pages s = 0 -> sp_free s = 0 -> sp_migrated s = 0 ->
  gP G pool = [] -> (forall w, gL G w pool = []) -> minv (set_sm_pools m (<[pool := s]> (sm_pools m))) G.
Proof.
  intros [HC HP] H0 Hev Hpa E1 E2 E3 EP EL. split; [by apply (mcore_ext m _ G)|]. intros q. destruct (decide (q = pool)) as [->|Hq].
  - destruct (HP pool) as [_ N HF]. constructor; try done. unfold pool_lists. cbn. rewrite lookup_insert_eq, EP, E1. split_and!; try done.
    + intros [|]; rewrite EL; done.
    + destruct Hpa; [by left|by right].
  - apply (mpool_frame m _ G); try done. cbn. by rewrite lookup_insert_ne.
Qed.

End Pool.
