(* ===== verification/SlabThreads.v ===== *)
(** * Calls of the slab allocator in several threads

    The invariant of calls in progress ([cinv]), and that every step of a call works and keeps it. *)
From stdpp Require Import gmap functions relations.
From S2P Require Import Prelude Slab SlabCorrect.

(** ** Calls in progress *)

(** The element that a call frees. *)
Definition pc_elt (pc : slab_pc) : option Z :=
  match pc with FreeStart e | FreeSlow e | FreeOrphaned e => Some e | _ => None end.

Section Threads.

Context (pa : Z) (par : slab_parent_pool) (Hpar : parent_ok pa par).

(** What a call has reached. *)
Definition pc_ok (m : smem) (G : ghost) (q : Z) (pc : slab_pc) : Prop :=
  match pc with
  | AllocCollect => gL G Free q = []
  | FreeOrphaned e => orphaned par m G e
  | DestroyFree => gP G q = [] /\ gL G Migrated q = [] /\ forall e, e ∈ gL G Free q -> orphaned par m G e
  | _ => True
  end.

Record cinv (c : sconf) (G : ghost) : Prop := CInv {
  ci_mem : minv pa par (sc_mem c) G;
  ci_live e : e ∈ sc_live c <-> gp G e = PLive;
  ci_freeing e q : gp G e = PFreeing q <-> exists pc, sc_busy c !! q = Some pc /\ pc_elt pc = Some e;
  ci_busy q pc : sc_busy c !! q = Some pc -> exists s, sm_pools (sc_mem c) !! q = Some s /\ sp_parent s = pa;
  ci_pc q pc : sc_busy c !! q = Some pc -> pc_ok (sc_mem c) G q pc;
  ci_owned q w e : sc_busy c !! q <> Some DestroyFree -> e ∈ gL G w q -> owned par (sc_mem c) G q e }.

(** What a step of a call on [pool] leaves alone. *)
Record quiet (pool : Z) (m : smem) (G : ghost) (m' : smem) (G' : ghost) : Prop := Quiet {
  qt_pool q s : q <> pool -> sm_pools m !! q = Some s -> exists s', sm_pools m' !! q = Some s' /\ sp_parent s' = sp_parent s;
  qt_free q : q <> pool -> gL G' Free q = gL G Free q;
  qt_migrated q : q <> pool -> gL G' Migrated q = gL G Migrated q \/
    (gP G q <> [] /\ forall e, e ∈ gL G' Migrated q -> e ∈ gL G Migrated q \/ owned par m' G' q e);
  qt_pages q : q <> pool -> gP G' q = gP G q;
  qt_orphaned e : gp G e <> PGone -> orphaned par m G e -> orphaned par m' G' e;
  qt_owned q e : q <> pool -> gp G e <> PGone -> owned par m G q e -> owned par m' G' q e }.

Lemma quiet_local pool m G m' G' :
  (forall q, q <> pool -> sm_pools m' !! q = sm_pools m !! q) -> (forall w q, q <> pool -> gL G' w q = gL G w q) ->
  gP G' = gP G -> go G' = go G -> (forall g, is_Some (sm_pages m' !! g) -> is_Some (sm_pages m !! g)) -> quiet pool m G m' G'.
Proof.
  intros Hp HL EP Eo Hpg. constructor.
  - intros q s Hq Hs. exists s. by rewrite Hp.
  - intros q. apply HL.
  - intros q Hq. left. by apply HL.
  - intros q _. by rewrite EP.
  - intros e _ Hor g Hg Hi. rewrite Eo. by apply Hor; [apply Hpg|].
  - intros q e _ _ Hor g Hg Hi. rewrite Eo. by apply Hor; [apply Hpg|].
Qed.

(** The elements in a list are not gone. *)
Lemma listed m G q w e : minv pa par m G -> e ∈ gL G w q -> gp G e <> PGone.
Proof. intros [_ HP] He. apply (HP q) in He. by rewrite He. Qed.

Lemma cinv_after c G pool pc m' G' r :
  cinv c G -> sc_busy c !! pool = Some pc -> minv pa par m' G' -> quiet pool (sc_mem c) G m' G' ->
  (forall e, gp G' e = PLive <-> gp G e = PLive \/ exists p, r = inr p /\ p <> 0 /\ e = p - sizeof_slab_element_header) ->
  (forall e q, gp G' e = PFreeing q <-> if decide (q = pool) then exists pc', r = inl pc' /\ pc_elt pc' = Some e else gp G e = PFreeing q) ->
  (forall pc', r = inl pc' -> (exists s, sm_pools m' !! pool = Some s /\ sp_parent s = pa) /\ pc_ok m' G' pool pc') ->
  (r <> inl DestroyFree -> forall w e, e ∈ gL G' w pool -> owned par m' G' pool e) ->
  cinv (slab_after c pool m' r) G'.
Proof.
  intros C Hb HM Q Hlive Hfree Hpc Hown.
  assert (sc_mem (slab_after c pool m' r) = m') as Em by (by destruct r).
  assert (forall q, sc_busy (slab_after c pool m' r) !! q =
    if decide (q = pool) then match r with inl pc' => Some pc' | inr _ => None end else sc_busy c !! q) as Eb.
  { intros q. destruct r; cbn; case_decide as Hq; [subst q; by rewrite lookup_insert_eq|by rewrite lookup_insert_ne|subst q; by rewrite lookup_delete_eq|by rewrite lookup_delete_ne]. }
  pose proof (ci_mem c G C) as HM0. constructor.
  - by rewrite Em.
  - intros e. rewrite Hlive. destruct r as [pc'|p]; cbn.
    + rewrite (ci_live c G C). split; [by left|]. intros [?|(p & ? & _)]; done.
    + destruct (Z.eqb_spec p 0) as [->|Hp]; [|rewrite elem_of_union, elem_of_singleton]; rewrite (ci_live c G C); naive_solver.
  - intros e q. rewrite Hfree. setoid_rewrite Eb. destruct (decide (q = pool)) as [->|]; [|apply C]. destruct r; naive_solver.
  - intros q pc'. rewrite Eb, Em. destruct (decide (q = pool)) as [->|Hq]; [destruct r as [pc2|]; [|done]; intros [= ->]; exact (proj1 (Hpc _ eq_refl))|].
    intros Hq'. destruct (ci_busy c G C q pc' Hq') as (s & Hs & Hp). destruct (qt_pool _ _ _ _ _ Q q s Hq Hs) as (s' & Hs' & Hp'). exists s'. split; [done|congruence].
  - intros q pc'. rewrite Eb, Em. destruct (decide (q = pool)) as [->|Hq]; [destruct r as [pc2|]; [|done]; intros [= ->]; exact (proj2 (Hpc _ eq_refl))|].
    intros Hq'. pose proof (ci_pc c G C q pc' Hq') as Hok. destruct pc'; cbn in *; try done.
    + by rewrite (qt_free _ _ _ _ _ Q).
    + apply (qt_orphaned _ _ _ _ _ Q); [|done]. assert (gp G elt = PFreeing q) as -> by (apply (ci_freeing c G C); by eexists). done.
    + destruct Hok as (K1 & K2 & K3). rewrite (qt_pages _ _ _ _ _ Q), (qt_free _ _ _ _ _ Q) by done. split; [done|]. split.
      * destruct (qt_migrated _ _ _ _ _ Q q Hq) as [->|[? _]]; done.
      * intros e He. apply (qt_orphaned _ _ _ _ _ Q); [by apply (listed _ G q Free e HM0)|by apply K3].
  - intros q w e. rewrite Eb, Em. destruct (decide (q = pool)) as [->|Hq]; [intros Hr; apply Hown; by intros ->|]. intros Hd He.
    assert (forall v, e ∈ gL G v q -> owned par m' G' q e) as Hold.
    { intros v Hv. apply (qt_owned _ _ _ _ _ Q); [done|by apply (listed _ G q v e HM0)|by apply (ci_owned c G C q v)]. }
    destruct w; [rewrite (qt_free _ _ _ _ _ Q) in He by done; by apply (Hold Free)|].
    destruct (qt_migrated _ _ _ _ _ Q q Hq) as [E|[_ Hm]]; [rewrite E in He; by apply (Hold Migrated)|]. destruct (Hm e He) as [?|?]; [by apply (Hold Migrated)|done].
Qed.

(** ** Owners *)

Lemma pool_of_page m G g q :
  minv pa par m G -> go G g = Some q -> exists s, sm_pools m !! q = Some s /\ sp_parent s = pa /\ 0 < q /\ Z.even q = true /\ gP G q <> [].
Proof.
  intros [HC HP] Ho. apply (mc_pool pa par m G HC) in Ho. assert (gP G q <> []) as Hne by (intros E; rewrite E in Ho; by apply elem_of_nil in Ho).
  pose proof (mp_lists pa m G q (HP q)) as Hl. unfold pool_lists in Hl. destruct (sm_pools m !! q) as [s|]; [|by destruct Hl].
  destruct Hl as (H0 & Hev & _ & _ & [Hp|(_ & E & _)]); [|done]. by exists s.
Qed.

Lemma owner_cases m G e h :
  minv pa par m G -> sm_elts m !! e = Some h ->
  (exists s, sm_pools m !! se_owner h = Some s /\ sp_parent s = pa /\ Z.odd (se_owner h) = false /\ gP G (se_owner h) <> [] /\ owned par m G (se_owner h) e) \/
  (Z.odd (se_owner h) = true /\ orphaned par m G e).
Proof.
  intros HM Hh. pose proof (proj1 HM) as HC. destruct (proj1 (mc_elt pa par m G HC e) (ex_intro _ _ Hh)) as (g & Hg & Hi).
  pose proof (mc_owner pa par m G HC g e h Hg Hi Hh) as Eo. assert (forall g', is_Some (sm_pages m !! g') -> e ∈ elems par g' -> g' = g) as Hsame.
  { intros g' Hg' Hi'. by apply (same_page pa par Hpar m G HM g g' e). }
  destruct (go G g) as [q|] eqn:Ego; cbn in Eo.
  - left. destruct (pool_of_page m G g q HM Ego) as (s & Hs & Hp & _ & Hev & Hne). rewrite Eo. exists s. split_and!; try done; [by rewrite <- Z.negb_even, Hev|].
    intros g' Hg' Hi'. by rewrite (Hsame g' Hg' Hi').
  - right. destruct Hg as [p Hp]. destruct (mc_page pa par m G HC g p Hp) as (_ & Hev & _). rewrite Eo. split; [by apply page_of_owner|].
    intros g' Hg' Hi'. by rewrite (Hsame g' Hg' Hi').
Qed.

Lemma elt_positive m G e : minv pa par m G -> gp G e <> PGone -> 0 < e.
Proof.
  intros HM Hp. destruct (page_of pa par m G e HM Hp) as (g & [p Hg] & Hi). apply (mc_page pa par m G (proj1 HM)) in Hg.
  apply (elems_bound pa par Hpar) in Hi. unfold sizeof_slab_page_header in Hi. lia.
Qed.

(** The first free element is handed out. *)
Lemma take_free_ok m G pool s e l :
  minv pa par m G -> sm_pools m !! pool = Some s -> sp_parent s = pa -> gL G Free pool = e :: l ->
  exists m' s', take_free m pool = Some (m', e + sizeof_slab_element_header) /\ minv pa par m' (set_list (set_place G e PLive) Free pool l) /\
    sm_pools m' = <[pool := s']> (sm_pools m) /\ sp_parent s' = pa /\ sm_pages m' = sm_pages m /\ 0 < e /\ gp G e = PIn Free pool.
Proof.
  intros HM Hs Hp El. destruct (pop_list pa par m G HM pool s Hs Free e l PLive El I) as (E1 & E2 & Hpl & h & Hh & H1). cbn in E1.
  unfold take_free. rewrite Hs. cbn [mbind option_bind]. rewrite E1, Hh. cbn [mbind option_bind]. unfold pool_store. rewrite Hs. cbn [mbind option_bind].
  eexists _, _. split; [reflexivity|]. split; [exact H1|]. split_and!; try done. apply (elt_positive m G e HM). by rewrite Hpl.
Qed.

(** ** Steps *)

Section Exec.

Context (c : sconf) (G : ghost) (C : cinv c G) (pool : Z) (pc : slab_pc) (Hb : sc_busy c !! pool = Some pc).
Context (malloc : Z -> option Z) (Hm : malloc_ok (sc_mem c) malloc).

Local Notation m := (sc_mem c).

(** The step works, and what it hands out was not in use. *)
Definition stepped : Prop :=
  exists m' r G', slab_exec malloc m pool pc = Some (m', r) /\ cinv (slab_after c pool m' r) G' /\
    forall p, r = inr p -> p <> 0 -> ~ loose (gp G (p - sizeof_slab_element_header)).

Lemma freeing_own e : gp G e = PFreeing pool <-> pc_elt pc = Some e.
Proof. rewrite (ci_freeing c G C). split; [intros (pc' & H1 & H2); by rewrite Hb in H1; injection H1 as ->|by eexists]. Qed.

(** A step that changes nothing but where the call is. *)
Lemma goto_ok pc' :
  slab_exec malloc m pool pc = Some (m, inl pc') -> pc_elt pc' = pc_elt pc -> pc <> DestroyFree -> pc_ok m G pool pc' -> pc' <> DestroyFree -> stepped.
Proof.
  intros E Hel Hpc Hok Hpc'. exists m, (inl pc'), G. split; [done|]. split; [|done]. pose proof freeing_own as Hfo.
  apply (cinv_after c G pool pc); try done; [apply C|by apply quiet_local|naive_solver| | |].
  - intros e q. case_decide as Hq; [subst q|done]. rewrite Hfo, <- Hel. naive_solver.
  - intros pc2 [= <-]. split; [by apply (ci_busy c G C pool pc)|done].
  - intros _ w e. apply (ci_owned c G C). rewrite Hb. by intros [= ->].
Qed.

(** A step that returns an element of a list of free ones. *)
Lemma take_ok m1 G1 s e l :
  pc_elt pc = None -> pc <> DestroyFree -> minv pa par m1 G1 -> sm_pools m1 !! pool = Some s -> sp_parent s = pa -> gL G1 Free pool = e :: l ->
  quiet pool m G m1 G1 -> (forall x, loose (gp G1 x) \/ loose (gp G x) -> gp G1 x = gp G x) -> (forall w x, x ∈ gL G1 w pool -> owned par m1 G1 pool x) ->
  (forall m' p, take_free m1 pool = Some (m', p) -> slab_exec malloc m pool pc = Some (m', inr p)) -> stepped.
Proof.
  intros Hel Hpc HM Hs Hp El Q Hpl Hown Hex. destruct (take_free_ok m1 G1 pool s e l HM Hs Hp El) as (m' & s' & Et & H' & Hp' & Hs' & Hpg & He & Hpe).
  eexists m', _, _. split; [by apply Hex|]. split; [apply (cinv_after c G pool pc _ _ _ C Hb H')|].
  - destruct Q as [Q1 Q2 Q3 Q4 Q5 Q6]. constructor; cbn.
    + intros q s0 Hq. rewrite Hp', lookup_insert_ne by done. by apply Q1.
    + intros q Hq. rewrite decide_False by (by intros []). by apply Q2.
    + intros q Hq. rewrite decide_False by (by intros []). unfold owned. rewrite Hpg. apply (Q3 q Hq).
    + done.
    + unfold orphaned. rewrite Hpg. apply Q5.
    + unfold owned. rewrite Hpg. apply Q6.
  - intros x. cbn. rewrite fn_insert_at. case_decide as Hx.
    + subst x. split; [intros _; right; exists (e + sizeof_slab_element_header); unfold sizeof_slab_element_header in *; split_and!; [done|lia|lia]|done].
    + split; [intros E; left; rewrite <- E; symmetry; apply Hpl; left; by rewrite E|]. intros [E|(p & [= <-] & _ & E)]; [rewrite <- E; apply Hpl; right; by rewrite E|lia].
  - intros x q. cbn. rewrite fn_insert_at. pose proof (freeing_own x) as Hfo. rewrite Hel in Hfo. case_decide as Hx.
    + subst x. case_decide as Hq; [naive_solver|]. split; [done|]. intros E. assert (gp G1 e = gp G e) by (apply Hpl; right; by rewrite E). congruence.
    + assert (gp G1 x = PFreeing q <-> gp G x = PFreeing q) as ->.
      { split; intros E; [rewrite <- E; symmetry; apply Hpl; left; by rewrite E|rewrite <- E; apply Hpl; right; by rewrite E]. }
      case_decide as Hq; [subst q|done]. naive_solver.
  - done.
  - intros _ w x. cbn. unfold owned. rewrite Hpg. cbn. case_decide as Hw; [destruct Hw as [-> _]|apply Hown]. intros Hx. apply (Hown Free). rewrite El. apply elem_of_cons. by right.
  - intros p [= <-] _. replace (e + sizeof_slab_element_header - sizeof_slab_element_header) with e by lia. intros Hlo.
    assert (gp G1 e = gp G e) as E by (apply Hpl; by right). rewrite <- E, Hpe in Hlo. done.
Qed.

(** The pool of the call. *)
Lemma own_pool : exists s, sm_pools m !! pool = Some s /\ sp_parent s = pa.
Proof. by apply (ci_busy c G C pool pc). Qed.

Lemma own_owned w e : pc <> DestroyFree -> e ∈ gL G w pool -> owned par m G pool e.
Proof. intros Hpc. apply (ci_owned c G C). rewrite Hb. by intros [= ->]. Qed.

Lemma quiet_refl : quiet pool m G m G.
Proof. by apply quiet_local. Qed.

Lemma exec_alloc_start : pc = AllocStart -> stepped.
Proof.
  intros Epc. destruct own_pool as (s & Hs & Hp). destruct (pool_state pa par m G (ci_mem c G C) pool s Hs) as (_ & _ & _ & Pl & _).
  pose proof (elist_nil _ _ _ (Pl Free)) as Hnil. cbn in Hnil. destruct (gL G Free pool) as [|e l] eqn:El.
  - apply (goto_ok AllocCollect); rewrite ?Epc; try done. cbn. rewrite Hs. cbn. by rewrite (proj2 (Z.eqb_eq _ _)) by (by apply Hnil).
  - apply (take_ok m G s e l); rewrite ?Epc; try done; [apply C|apply quiet_refl|intros w x; apply own_owned; by rewrite Epc|].
    intros m' p E. cbn. rewrite Hs. cbn. rewrite (proj2 (Z.eqb_neq _ _)) by (by intros ?%Hnil). by rewrite E.
Qed.

Lemma exec_alloc_collect : pc = AllocCollect -> stepped.
Proof.
  intros Epc. destruct own_pool as (s & Hs & Hp). pose proof (ci_pc c G C pool pc Hb) as Hok. rewrite Epc in Hok. cbn in Hok.
  destruct (collect_migrated_ok pa par m G pool s (ci_mem c G C) Hs Hp Hok) as (m' & s' & E & H' & Hp' & Hs' & Hpg).
  pose proof freeing_own as Hfo. rewrite Epc in Hfo. cbn in Hfo. exists m', (inl AllocSlow), (collected G pool).
  split; [rewrite Epc; cbn; by rewrite E|]. split; [|done]. apply (cinv_after c G pool pc _ _ _ C Hb H').
  - apply quiet_local; try done; [intros q Hq; by rewrite Hp', lookup_insert_ne|intros w q Hq; cbn; by rewrite decide_False|by rewrite Hpg].
  - intros e. cbn. case_decide as He; [rewrite He|]; naive_solver.
  - intros e q. cbn. case_decide as He; [rewrite He; case_decide; naive_solver|]. case_decide as Hq; [subst q; rewrite Hfo; naive_solver|done].
  - intros pc' [= <-]. split; [|done]. exists s'. by rewrite Hp', lookup_insert_eq.
  - intros _ w e. cbn. rewrite decide_True by done. unfold owned. rewrite Hpg. cbn. destruct w; [apply (own_owned Migrated); by rewrite Epc|by intros ?%elem_of_nil].
Qed.

(** A new page, and what its elements are to the other pools. *)
Lemma add_page_quiet g m' s' :
  (forall x, x ∈ elems par g -> gp G x = PGone) -> sm_pools m' = <[pool := s']> (sm_pools m) ->
  (forall x, is_Some (sm_pages m' !! x) <-> x = g \/ is_Some (sm_pages m !! x)) -> sm_pages m !! g = None ->
  quiet pool m G m' (add_page par G g pool).
Proof.
  intros Hf Hp Hpg Hng. assert (forall x, is_Some (sm_pages m !! x) -> x <> g) as Hne by (intros x Hx ->; rewrite Hng in Hx; by destruct Hx).
  constructor; cbn.
  - intros q s Hq Hs. exists s. by rewrite Hp, lookup_insert_ne.
  - intros q Hq. by rewrite decide_False by (by intros []).
  - intros q Hq. left. by rewrite decide_False by (by intros []).
  - intros q Hq. by rewrite fn_insert_at, decide_False.
  - intros e He Hor x Hx Hi. apply Hpg in Hx as [->|Hx]; [by apply Hf in Hi|]. cbn. rewrite fn_insert_at, decide_False by (by apply Hne). by apply Hor.
  - intros q e Hq He Hor x Hx Hi. apply Hpg in Hx as [->|Hx]; [by apply Hf in Hi|]. cbn. rewrite fn_insert_at, decide_False by (by apply Hne). by apply Hor.
Qed.

Lemma exec_alloc_slow : pc = AllocSlow -> stepped.
Proof.
  intros Epc. destruct own_pool as (s & Hs & Hp). pose proof (ci_mem c G C) as HM. destruct (pool_state pa par m G HM pool s Hs) as (_ & _ & _ & Pl & _).
  pose proof (elist_nil _ _ _ (Pl Free)) as Hnil. cbn in Hnil. destruct (gL G Free pool) as [|e l] eqn:El.
  - destruct (slab_add_new_page_ok pa par Hpar malloc m G pool s HM Hs Hp Hm) as [E|(g & m1 & s1 & E & H1 & Hp1 & Hs1 & Hf & Hpg & Hng)].
    + exists m, (inr 0), G. split; [rewrite Epc; cbn; unfold alloc_slow; rewrite Hs; cbn; rewrite (proj2 (Z.eqb_eq _ _)) by (by apply Hnil); by rewrite E|].
      pose proof freeing_own as Hfo. rewrite Epc in Hfo. cbn in Hfo. split; [|naive_solver].
      apply (cinv_after c G pool pc _ _ _ C Hb HM quiet_refl); [naive_solver| |done|intros _ w x; apply own_owned; by rewrite Epc].
      intros x q. case_decide as Hq; [subst q; rewrite Hfo; naive_solver|done].
    + assert (exists e l, gL (add_page par G g pool) Free pool = e :: l) as (e & l & El1).
      { cbn. rewrite decide_True by done. destruct (rev (elems par g) ++ gL G Free pool) as [|e l] eqn:Er; [|by eauto]. apply app_eq_nil in Er as [Er _].
        apply (f_equal length) in Er. rewrite length_rev, elems_length in Er. destruct Hpar as (_ & Hn & _). cbn in Er. lia. }
      apply (take_ok m1 (add_page par G g pool) s1 e l); rewrite ?Epc; try done; [by rewrite Hp1, lookup_insert_eq|by apply (add_page_quiet g m1 s1)| | |].
      * intros x. cbn. case_decide as Hx; [rewrite (Hf x Hx); cbn; tauto|done].
      * intros w x Hx y Hy Hi. cbn. rewrite fn_insert_at. case_decide as Hyg; [done|]. cbn in Hx. case_decide as Hw.
        -- rewrite El, app_nil_r, elem_of_List_rev in Hx. exfalso. apply Hyg. apply (same_page pa par Hpar m1 _ H1 g y x); [apply Hpg; by left|done..].
        -- apply Hpg in Hy as [?|Hy]; [done|]. apply (own_owned w x); [by rewrite Epc|done..].
      * intros m' p Et. cbn. unfold alloc_slow. rewrite Hs. cbn. rewrite (proj2 (Z.eqb_eq _ _)) by (by apply Hnil). rewrite E. cbn. by rewrite Et.
  - apply (take_ok m G s e l); rewrite ?Epc; try done; [apply quiet_refl|intros w x; apply own_owned; by rewrite Epc|].
    intros m' p E. cbn. unfold alloc_slow. rewrite Hs. cbn. rewrite (proj2 (Z.eqb_neq _ _)) by (by intros ?%Hnil). by rewrite E.
Qed.

(** The element that is freed. *)
Lemma freed_elt e : pc_elt pc = Some e -> gp G e = PFreeing pool /\ exists h, sm_elts m !! e = Some h.
Proof.
  intros He. apply freeing_own in He. split; [done|]. apply (mc_gone pa par m G (proj1 (ci_mem c G C))). by rewrite He.
Qed.

(** A call that frees an element returns when the element is somewhere else. *)
Lemma freed_ok e m' G' :
  pc_elt pc = Some e -> slab_exec malloc m pool pc = Some (m', inr 0) -> minv pa par m' G' -> quiet pool m G m' G' ->
  (forall x, x <> e -> gp G' x = gp G x) -> ~ loose (gp G' e) -> (forall w x, x ∈ gL G' w pool -> owned par m' G' pool x) -> stepped.
Proof.
  intros He Ex H' Q Hpl Hlo Hown. exists m', (inr 0), G'. split; [done|]. destruct (freed_elt e He) as [Hpe _]. split; [|naive_solver].
  apply (cinv_after c G pool pc _ _ _ C Hb H' Q); try done.
  - intros x. destruct (decide (x = e)) as [->|Hx]; [|rewrite Hpl by done; naive_solver]. rewrite Hpe. split; [intros E; by rewrite E in Hlo|].
    intros [?|(p & [= <-] & ? & _)]; done.
  - intros x q. pose proof (freeing_own x) as Hfo. destruct (decide (x = e)) as [->|Hx].
    + split; [intros E; by rewrite E in Hlo|]. case_decide as Hq; [naive_solver|]. intros E. congruence.
    + rewrite Hpl by done. case_decide as Hq; [subst q|done]. rewrite Hfo. rewrite He. naive_solver.
Qed.

Lemma exec_free_start e : pc = FreeStart e -> stepped.
Proof.
  intros Epc. destruct own_pool as (s & Hs & Hp). pose proof (ci_mem c G C) as HM. destruct (freed_elt e) as (Hpe & h & Hh); [by rewrite Epc|].
  assert (loose (gp G e)) as Hlo by (by rewrite Hpe). destruct (Z.eqb_spec (se_owner h) pool) as [Eo|Eo].
  - destruct (push_list pa par Hpar m G HM pool s Hs Free e Hlo Hp) as (h' & Hh' & H'). cbn in H'. assert (h' = h) as -> by congruence.
    assert (owned par m G pool e) as Ho.
    { destruct (owner_cases m G e h HM Hh) as [(s0 & _ & _ & _ & _ & Ho)|[Hodd _]]; [by rewrite Eo in Ho|].
      destruct (pool_state pa par m G HM pool s Hs) as (_ & Hev & _). rewrite Eo, <- Z.negb_even, Hev in Hodd. done. }
    eapply (freed_ok e _ _); [by rewrite Epc| |exact H'|..].
    + rewrite Epc. cbn. rewrite Hh. cbn. rewrite (proj2 (Z.eqb_eq _ _)) by done. unfold push_own, elt_store, pool_store. rewrite Hs. cbn. rewrite Hh. cbn. rewrite Hs. reflexivity.
    + apply quiet_local; try done; cbn; [intros q Hq; by rewrite lookup_insert_ne|intros w q Hq; by rewrite decide_False by (by intros [])].
    + intros x Hx. cbn. by rewrite fn_insert_at, decide_False.
    + cbn. rewrite fn_insert_at, decide_True by done. cbn. tauto.
    + intros w x. cbn. case_decide as Hw; [|apply own_owned; by rewrite Epc]. intros [->|Hx]%elem_of_cons; [done|]. apply (own_owned Free); [by rewrite Epc|done].
  - apply (goto_ok (FreeSlow e)); rewrite ?Epc; try done. cbn. rewrite Hh. cbn. by rewrite (proj2 (Z.eqb_neq _ _)).
Qed.

(** An element goes to its owner. *)
Lemma migrate_quiet e h s :
  sm_elts m !! e = Some h -> sm_pools m !! se_owner h = Some s -> gP G (se_owner h) <> [] -> owned par m G (se_owner h) e ->
  quiet pool m G (set_sm_pools (set_sm_elts m (<[e := set_se_next (sp_migrated s) h]> (sm_elts m))) (<[se_owner h := set_sp_migrated e s]> (sm_pools m)))
    (set_list (set_place G e (PIn Migrated (se_owner h))) Migrated (se_owner h) (e :: gL G Migrated (se_owner h))).
Proof.
  intros Hh Hs HP Ho. constructor; cbn; try done.
  - intros q s0 Hq Hs0. destruct (decide (q = se_owner h)) as [->|Hne]; [rewrite lookup_insert_eq; eexists; split; [done|]; cbn; congruence|].
    rewrite lookup_insert_ne by done. by exists s0.
  - intros q Hq. case_decide as Hw; [destruct Hw as [_ ->]|by left]. right. split; [done|]. intros x [->|Hx]%elem_of_cons; [by right|by left].
Qed.

Lemma exec_free_slow e : pc = FreeSlow e -> stepped.
Proof.
  intros Epc. pose proof (ci_mem c G C) as HM. destruct (freed_elt e) as (Hpe & h & Hh); [by rewrite Epc|].
  assert (loose (gp G e)) as Hlo by (by rewrite Hpe). destruct (owner_cases m G e h HM Hh) as [(s & Hs & Hp & Hodd & HP & Ho)|[Hodd Hor]].
  - destruct (push_list pa par Hpar m G HM (se_owner h) s Hs Migrated e Hlo Hp) as (h' & Hh' & H'). cbn in H'. assert (h' = h) as -> by congruence.
    eapply (freed_ok e _ _); [by rewrite Epc| |exact H'|by apply (migrate_quiet e h s)|..].
    + rewrite Epc. cbn. unfold migrate. rewrite Hh. cbn. rewrite Hodd. unfold push_migrated, elt_store, pool_store. rewrite Hs. cbn. rewrite Hh. cbn. rewrite Hs. reflexivity.
    + intros x Hx. cbn. by rewrite fn_insert_at, decide_False.
    + cbn. rewrite fn_insert_at, decide_True by done. cbn. tauto.
    + intros w x. cbn. case_decide as Hw; [|apply own_owned; by rewrite Epc]. destruct Hw as [-> Hw]. rewrite <- Hw in *.
      intros [->|Hx]%elem_of_cons; [done|]. apply (own_owned Migrated); [by rewrite Epc|done].
  - apply (goto_ok (FreeOrphaned e)); rewrite ?Epc; try done. cbn. unfold migrate. rewrite Hh. cbn. by rewrite Hodd.
Qed.

Lemma exec_free_orphaned e : pc = FreeOrphaned e -> stepped.
Proof.
  intros Epc. pose proof (ci_mem c G C) as HM. destruct (freed_elt e) as (Hpe & h & Hh); [by rewrite Epc|].
  pose proof (ci_pc c G C pool pc Hb) as Hor. rewrite Epc in Hor. cbn in Hor. destruct (page_of pa par m G e HM) as (g & Hg & Hi); [by rewrite Hpe|].
  destruct (slab_free_orphaned_ok pa par Hpar m G HM e g) as (m' & E & H' & Hp & _ & Hpg & _); [by rewrite Hpe|done|done|by apply Hor|].
  assert (forall x, is_Some (sm_pages m' !! x) -> is_Some (sm_pages m !! x)) as Hsub.
  { intros x Hx. destruct (decide (x = g)) as [->|Hne]; [done|]. by rewrite Hpg in Hx. }
  apply (freed_ok e m' (set_place G e PGone)); try done; [by rewrite Epc|rewrite Epc; cbn; by rewrite E|apply quiet_local; try done; by rewrite Hp|..].
  - intros x Hx. cbn. by rewrite fn_insert_at, decide_False.
  - cbn. rewrite fn_insert_at, decide_True by done. cbn. tauto.
  - intros w x Hx y Hy Hiy. apply (own_owned w x); [by rewrite Epc|done|by apply Hsub|done].
Qed.

Lemma exec_destroy_start : pc = DestroyStart -> stepped.
Proof.
  intros Epc. pose proof (ci_mem c G C) as HM. destruct own_pool as (s & Hs & Hp).
  destruct (orphan_all_ok pa par Hpar m G pool s HM Hs Hp) as (m' & G' & s' & E & H' & (T1 & T2 & T3 & T4) & Hp' & Hs' & Hpg).
  { intros w e. apply own_owned. by rewrite Epc. }
  pose proof freeing_own as Hfo. rewrite Epc in Hfo. cbn in Hfo. assert (forall x, x ∈ gL G Migrated pool -> gp G x = PIn Migrated pool) as Hmi by (intros x; apply (proj2 HM pool)).
  exists m', (inl DestroyFree), G'. split; [|split; [|done]].
  { rewrite Epc. cbn [slab_exec]. rewrite Hs. cbn [mbind option_bind]. rewrite Hp, (proj2 (Z.eqb_neq _ _)) by (destruct Hpar; lia). by rewrite E. }
  apply (cinv_after c G pool pc _ _ _ C Hb H').
  - constructor.
    + intros q s0 Hq Hs0. exists s0. by rewrite Hp', lookup_insert_ne.
    + intros q Hq. by rewrite T4, decide_False by (by intros []).
    + intros q Hq. left. by rewrite T4, decide_False by (by intros []).
    + intros q Hq. by rewrite T3, decide_False.
    + intros e _ Hor g Hg Hi. rewrite T2. case_decide; [done|]. by apply Hor; [apply Hpg|].
    + intros q e Hq _ Ho g Hg Hi. rewrite T2. pose proof (Ho g (Hpg g Hg) Hi) as Eg. rewrite decide_False; [done|].
      intros Hgp. apply (mc_pool pa par m G (proj1 HM)) in Hgp. congruence.
  - intros e. rewrite T1. case_decide as He; [rewrite (Hmi e He)|]; naive_solver.
  - intros e q. rewrite T1. case_decide as He; [rewrite (Hmi e He); case_decide; naive_solver|]. case_decide as Hq; [subst q; rewrite Hfo; naive_solver|done].
  - intros pc' [= <-]. split; [exists s'; by rewrite Hp', lookup_insert_eq|]. cbn. rewrite T3, decide_True by done. split; [done|]. split; [by rewrite T4, decide_True|].
    intros e He g Hg Hi. rewrite T4 in He. rewrite T2, decide_True; [done|]. apply (mc_pool pa par m G (proj1 HM)). rewrite decide_False in He by (by intros []).
    apply (own_owned Free e); [by rewrite Epc|done|by apply Hpg|done].
  - done.
Qed.

Lemma exec_destroy_free : pc = DestroyFree -> stepped.
Proof.
  intros Epc. pose proof (ci_mem c G C) as HM. destruct own_pool as (s & Hs & Hp). pose proof (ci_pc c G C pool pc Hb) as Hok. rewrite Epc in Hok.
  destruct Hok as (K1 & K2 & K3). pose proof freeing_own as Hfo. rewrite Epc in Hfo. cbn in Hfo.
  destruct (pool_state pa par m G HM pool s Hs) as (P1 & P2 & P3 & P4 & _). pose proof (elist_nil _ _ _ (P4 Free)) as Hnil. cbn in Hnil.
  destruct (gL G Free pool) as [|e l] eqn:El.
  - exists (set_sm_pools m (<[pool := set_sp_parent 0 s]> (sm_pools m))), (inr 0), G. split; [|split; [|naive_solver]].
    + rewrite Epc. cbn. unfold free_one. rewrite Hs. cbn. rewrite (proj2 (Z.eqb_eq _ _)) by (by apply Hnil). cbn. unfold pool_store. by rewrite Hs.
    + apply (cinv_after c G pool pc _ _ _ C Hb).
      * apply pool_update; try done; [by right| | | |].
        -- cbn. by apply (plist_nil _ _ _ P3).
        -- cbn. by apply Hnil.
        -- cbn. by apply (elist_nil _ _ _ (P4 Migrated)).
        -- by intros [|].
      * apply quiet_local; try done. intros q Hq. cbn. by rewrite lookup_insert_ne.
      * naive_solver.
      * intros x q. case_decide as Hq; [subst q; rewrite Hfo; naive_solver|done].
      * done.
      * intros _ [|] x; [rewrite El|rewrite K2]; by intros ?%elem_of_nil.
  - destruct (drop_list pa par Hpar m G pool s Free e l HM Hs El) as (E1 & E2 & h & m' & Hh & E3 & H' & Hp' & Hpg); [apply K3, elem_of_cons; by left|].
    cbn [sp_list set_sp_list] in *. assert (gp G e = PIn Free pool) as Hpe by (apply (proj2 HM pool); rewrite El; apply elem_of_cons; by left).
    eexists m', (inl DestroyFree), _. split; [|split; [apply (cinv_after c G pool pc _ _ _ C Hb H')|done]].
    + rewrite Epc. cbn [slab_exec]. unfold free_one. rewrite Hs. cbn [mbind option_bind]. rewrite E1, (proj2 (Z.eqb_neq _ _)), Hh by done. cbn [mbind option_bind].
      destruct (pool_store m pool _) as [m0|]; [|done]. cbn [mbind option_bind] in E3 |- *. by rewrite E3.
    + apply quiet_local; try done; cbn; [intros q Hq; by rewrite Hp', lookup_insert_ne|intros w q Hq; by rewrite decide_False by (by intros [])].
    + intros x. cbn. rewrite !fn_insert_at. case_decide as Hx; [subst x; rewrite Hpe|]; naive_solver.
    + intros x q. cbn. rewrite !fn_insert_at. case_decide as Hx; [subst x; rewrite Hpe; case_decide; naive_solver|]. case_decide as Hq; [subst q; rewrite Hfo; naive_solver|done].
    + intros pc' [= <-]. split; [exists (set_sp_free (se_next h) s); by rewrite Hp', lookup_insert_eq|]. cbn. split; [done|].
      rewrite decide_False by (by intros []). rewrite decide_True by done. split; [done|]. intros x Hx g Hg Hi. apply (K3 x); [apply elem_of_cons; by right|by apply Hpg|done].
    + done.
Qed.

Lemma exec_ok : stepped.
Proof.
  assert (exists p, pc = p) as [p E] by eauto. destruct p as [| | |e|e|e| |].
  - by apply exec_alloc_start.
  - by apply exec_alloc_collect.
  - by apply exec_alloc_slow.
  - by apply (exec_free_start e).
  - by apply (exec_free_slow e).
  - by apply (exec_free_orphaned e).
  - by apply exec_destroy_start.
  - by apply exec_destroy_free.
Qed.

End Exec.

(** ** Calls and new pools *)

(** From a client to a call. *)
Lemma minv_loose m G e y : minv pa par m G -> loose (gp G e) -> loose y -> minv pa par m (set_place G e y).
Proof.
  intros [HC HP] He Hy. split.
  - apply (mcore_ext pa par m _ G); try done. intros x. cbn. rewrite fn_insert_at. case_decide as Hx; [subst x|done]. split; intros E; [by rewrite E in Hy|by rewrite E in He].
  - intros q. apply (mpool_frame pa m _ G); try done. intros w x. cbn. rewrite fn_insert_at. case_decide as Hx; [subst x|done].
    split; intros E; [by rewrite E in Hy|by rewrite E in He].
Qed.

Lemma idle_freeing c G pool e : cinv c G -> sc_busy c !! pool = None -> gp G e <> PFreeing pool.
Proof. intros C Hb E. apply (ci_freeing c G C) in E as (pc & Hpc & _). congruence. Qed.

Lemma create_ok c G pool :
  cinv c G -> 0 < pool -> Z.even pool = true -> sc_busy c !! pool = None -> unused (sc_mem c) pool ->
  cinv (SConf (slab_create_child (sc_mem c) pool pa) (sc_busy c) (sc_live c)) G.
Proof.
  intros C H0 Hev Hb Hu. pose proof (ci_mem c G C) as HM. assert (gP G pool = [] /\ forall w, gL G w pool = []) as [EP EL].
  { pose proof (mp_lists pa (sc_mem c) G pool (proj2 HM pool)) as Hl. unfold pool_lists in Hl. destruct (sm_pools (sc_mem c) !! pool) as [s|] eqn:Es; [|done].
    destruct Hl as (_ & _ & _ & _ & [E|(_ & ? & ?)]); [|done]. rewrite (Hu s Es) in E. destruct Hpar. lia. }
  constructor; cbn; try apply C.
  - apply pool_update; try done; by left.
  - intros q pc Hq. destruct (ci_busy c G C q pc Hq) as (s & Hs & Hp). exists s. rewrite lookup_insert_ne; [done|]. intros ->. congruence.
Qed.

Lemma call_ok c G pool pc live :
  cinv c G -> sc_busy c !! pool = None -> usable (sc_mem c) pool -> slab_call (sc_live c) pc live ->
  exists G', cinv (SConf (sc_mem c) (<[pool := pc]> (sc_busy c)) live) G'.
Proof.
  intros C Hb (s & Hs & Hp) Hcall. pose proof (ci_mem c G C) as HM. assert (sp_parent s = pa) as Hpa.
  { destruct (pool_state pa par _ G HM pool s Hs) as (_ & _ & _ & _ & [?|[? _]]); done. }
  assert (pc <> DestroyFree /\ (forall m G', pc_ok m G' pool pc)) as [Hnd Hpcok] by (by destruct Hcall).
  assert (forall G', minv pa par (sc_mem c) G' -> go G' = go G -> gP G' = gP G -> gL G' = gL G -> (forall e, e ∈ live <-> gp G' e = PLive) ->
    (forall e q, gp G' e = PFreeing q <-> if decide (q = pool) then pc_elt pc = Some e else gp G e = PFreeing q) ->
    cinv (SConf (sc_mem c) (<[pool := pc]> (sc_busy c)) live) G') as Hmk.
  { intros G' H' Eo EP EL Hl Hf. constructor; cbn; try done.
    - intros e q. rewrite Hf. case_decide as Hq; [subst q; setoid_rewrite lookup_insert_eq; naive_solver|]. setoid_rewrite lookup_insert_ne; [|done]. apply C.
    - intros q pc'. destruct (decide (q = pool)) as [->|]; [intros _; by exists s|]. rewrite lookup_insert_ne by done. apply C.
    - intros q pc'. destruct (decide (q = pool)) as [->|]; [rewrite lookup_insert_eq; by intros [= <-]|]. rewrite lookup_insert_ne by done. intros Hq.
      pose proof (ci_pc c G C q pc' Hq) as Hok. unfold pc_ok, orphaned in *. by rewrite EL, EP, Eo.
    - intros q w e Hq He x Hx Hi. rewrite Eo. rewrite EL in He. apply (ci_owned c G C q w e); try done. destruct (decide (q = pool)) as [->|]; [by rewrite Hb|].
      by rewrite lookup_insert_ne in Hq. }
  pose proof (idle_freeing c G pool) as Hidle. destruct Hcall as [|e He|].
  - exists G. apply Hmk; try done; [apply C|]. intros e q. case_decide as Hq; [subst q|done]. specialize (Hidle e C Hb). cbn. naive_solver.
  - apply (ci_live c G C) in He as Hpl. exists (set_place G e (PFreeing pool)). apply Hmk; try done; [by apply minv_loose; [|rewrite Hpl|]| |].
    + intros x. cbn. rewrite fn_insert_at, elem_of_difference, elem_of_singleton, (ci_live c G C). case_decide; naive_solver.
    + intros x q. cbn. rewrite fn_insert_at. specialize (Hidle x C Hb).
      destruct (decide (q = pool)) as [->|Hq], (decide (x = e)) as [->|Hx]; [done| | |done]; split; congruence.
  - exists G. apply Hmk; try done; [apply C|]. intros e q. case_decide as Hq; [subst q|done]. specialize (Hidle e C Hb). cbn. naive_solver.
Qed.

Lemma step_ok c c' G : cinv c G -> slab_step pa c c' -> exists G', cinv c' G'.
Proof.
  intros C [pool H0 Hev Hb Hu|pool pc live Hb Hu Hcall|pool pc malloc m r Hb Hm E].
  - exists G. by apply create_ok.
  - by apply (call_ok c G).
  - destruct (exec_ok c G C pool pc Hb malloc Hm) as (m' & r' & G' & E' & C' & _). rewrite E in E'. injection E' as <- <-. by exists G'.
Qed.

Lemma reach_ok c c' G : cinv c G -> rtc (slab_step pa) c c' -> exists G', cinv c' G'.
Proof. intros C Hr. revert G C. induction Hr as [c|c c1 c' Hs _ IH]; intros G C; [by exists G|]. destruct (step_ok c c1 G C Hs) as [G1 C1]. by apply (IH G1). Qed.

End Threads.
