(* ===== verification/SlabTheorems.v ===== *)
(** * The slab allocator with threads that free each other's objects

    The claims: no interleaving of calls breaks the allocator, nothing is leaked, and calls return. *)
From stdpp Require Import gmap functions relations.
From S2P Require Import Prelude Slab SlabCorrect SlabThreads.

(** ** The parent pool *)

Lemma align8_ge x : 0 <= x -> x <= ALIGN x 8 <= x + 7.
Proof.
  intros Hx. unfold ALIGN. replace (x + 8 - 1) with (x + 7) by lia. change (Z.lnot (8 - 1)) with (Z.lnot (Z.ones 3)).
  rewrite <- Z.ldiff_land, Z.ldiff_ones_r, Z.shiftr_div_pow2, Z.shiftl_mul_pow2 by lia. change (2 ^ 3) with 8.
  pose proof (Z_div_mod_eq_full (x + 7) 8). pose proof (Z.mod_pos_bound (x + 7) 8). lia.
Qed.

(** Sizes for which the size of a page does not wrap. *)
Definition sizes_ok (item_size num_items : Z) : Prop :=
  0 <= item_size /\ 0 < num_items /\ num_items * ALIGN (sizeof_slab_element_header + item_size) 8 < 2 ^ 32.

Section Slab.

Context (parent item_size num_items : Z) (Hparent : 0 < parent) (Hsizes : sizes_ok item_size num_items).

Definition par : slab_parent_pool := ParentPool (u32 (ALIGN (sizeof_slab_element_header + item_size) 8)) num_items.

Lemma par_ok : parent_ok parent par /\ sizeof_slab_element_header + item_size <= pp_element_size par.
Proof.
  destruct Hsizes as (H1 & H2 & H3). unfold parent_ok, par. cbn [pp_num_elements pp_element_size]. unfold sizeof_slab_element_header in *.
  pose proof (align8_ge (16 + item_size)) as Ha. rewrite u32_small by nia. split_and!; try done; lia.
Qed.

Lemma init_ok : cinv parent par (slab_init parent item_size num_items) (Ghost (fun _ => PGone) (fun _ => None) (fun _ => []) (fun _ _ => [])).
Proof.
  assert (forall x : Z, x ∉ []) as Hnil by (intros x; apply not_elem_of_nil). assert (forall {A} (x : Z), ~ is_Some ((∅ : gmap Z A) !! x)) as He.
  { intros A x. rewrite lookup_empty. by intros [? ?]. }
  constructor; cbn; try done; try (intros; rewrite lookup_empty in *; done).
  - split.
    + constructor; cbn.
      * apply lookup_insert_eq.
      * intros g p Hg. by rewrite lookup_empty in Hg.
      * intros g g' Hg. by apply He in Hg.
      * intros e. split; [intros Hx; by apply He in Hx|intros (g & Hg & _); by apply He in Hg].
      * intros g e h Hg. by apply He in Hg.
      * intros g q. split; [done|]. by intros ?%Hnil.
      * intros q. split; [constructor|]. by intros g ?%Hnil.
      * intros g p Hg. by rewrite lookup_empty in Hg.
      * done.
      * done.
    + intros q. constructor; cbn; [|intros; constructor|intros w e; split; [done|by intros ?%Hnil]]. unfold pool_lists. cbn. by rewrite lookup_empty.
  - intros e q. split; [done|]. intros (pc & Hpc & _). by rewrite lookup_empty in Hpc.
  - by intros q w e _ ?%Hnil.
Qed.

Context (c : sconf) (Hreach : rtc (slab_step parent) (slab_init parent item_size num_items) c).

Lemma reach_cinv : exists G, cinv parent par c G.
Proof. by apply (reach_ok parent par (proj1 par_ok) _ c _ init_ok). Qed.

(** Objects of clients do not overlap. *)
Lemma live_apart G e e' :
  cinv parent par c G -> e ∈ sc_live c -> e' ∈ sc_live c -> e <> e' -> e + pp_element_size par <= e' \/ e' + pp_element_size par <= e.
Proof.
  intros C He He' Hne. destruct par_ok as [Hp _]. pose proof (ci_mem _ _ _ _ C) as HM.
  apply (ci_live _ _ _ _ C) in He, He'. destruct (page_of parent par (sc_mem c) G e HM) as (g & Hg & Hi); [by rewrite He|].
  destruct (page_of parent par (sc_mem c) G e' HM) as (g' & Hg' & Hi'); [by rewrite He'|]. destruct (decide (g = g')) as [<-|Hgg].
  - by apply (elems_apart parent par Hp g).
  - apply (elems_bound parent par Hp) in Hi, Hi'. unfold sizeof_slab_page_header in *. destruct (mc_apart _ _ _ _ (proj1 HM) g g' Hg Hg' Hgg); lia.
Qed.

End Slab.

(** C4: Threads use child pools of one parent: each pool is used by one call at a time, but objects may be freed with any pool, and a pool may be destroyed
    while other threads hold, free or are about to free its objects.  However the steps of their calls interleave, the next step of every call succeeds:
    it only accesses elements, pages and pools that are still there, fails no assertion and finds each page with the member of its union that it reads.
    An object that is handed out is in no client's hands and not being freed by any call, objects in use stay in memory, and they do not overlap,
    with room for the size that was asked for.  [num_items] objects of [item_size] bytes with their headers have to fit into 2^32 bytes. *)
Theorem slab_safe parent item_size num_items c :
  0 < parent -> sizes_ok item_size num_items -> rtc (slab_step parent) (slab_init parent item_size num_items) c ->
  (forall pool pc malloc, sc_busy c !! pool = Some pc -> malloc_ok (sc_mem c) malloc ->
    exists m r, slab_exec malloc (sc_mem c) pool pc = Some (m, r) /\
      forall p, r = inr p -> p <> 0 -> let elt := p - sizeof_slab_element_header in
        elt ∉ sc_live c /\ (forall q pc', sc_busy c !! q = Some pc' -> pc_elt pc' <> Some elt) /\ is_Some (sm_elts m !! elt)) /\
  (forall e, e ∈ sc_live c -> is_Some (sm_elts (sc_mem c) !! e)) /\
  (forall e e', e ∈ sc_live c -> e' ∈ sc_live c -> e <> e' ->
    e + sizeof_slab_element_header + item_size <= e' \/ e' + sizeof_slab_element_header + item_size <= e).
Proof.
  intros Hparent Hsz Hr. destruct (par_ok parent item_size num_items Hparent Hsz) as [Hp Hitem].
  destruct (reach_cinv parent item_size num_items Hparent Hsz c Hr) as [G C]. split; [|split].
  - intros pool pc malloc Hb Hm. destruct (exec_ok parent _ Hp c G C pool pc Hb malloc Hm) as (m & r & G' & E & C' & Hlo). exists m, r. split; [done|].
    intros p -> Hp0 elt. specialize (Hlo p eq_refl Hp0). fold elt in Hlo. split; [|split].
    + intros Hi. apply (ci_live _ _ _ _ C) in Hi. by rewrite Hi in Hlo.
    + intros q pc' Hq Hel. assert (gp G elt = PFreeing q) as Hi by (apply (ci_freeing _ _ _ _ C); by eexists). by rewrite Hi in Hlo.
    + apply (mc_gone _ _ _ _ (proj1 (ci_mem _ _ _ _ C'))). assert (elt ∈ sc_live (slab_after c pool m (inr p))) as Hi.
      { cbn. rewrite (proj2 (Z.eqb_neq _ _)) by done. apply elem_of_union. left. by apply elem_of_singleton. }
      apply (ci_live _ _ _ _ C') in Hi. by rewrite Hi.
  - intros e He. apply (ci_live _ _ _ _ C) in He. apply (mc_gone _ _ _ _ (proj1 (ci_mem _ _ _ _ C))). by rewrite He.
  - intros e e' He He' Hne. destruct (live_apart parent item_size num_items Hparent Hsz c G e e' C He He' Hne); lia.
Qed.

(** C5: When every pool was destroyed, no call is in progress and clients hold no objects, all pages were given back to the system,
    whichever calls freed the last objects of the orphaned ones. *)
Theorem slab_no_leak parent item_size num_items c :
  0 < parent -> sizes_ok item_size num_items -> rtc (slab_step parent) (slab_init parent item_size num_items) c ->
  sc_busy c = ∅ -> sc_live c = ∅ -> (forall pool, unused (sc_mem c) pool) ->
  sm_pages (sc_mem c) = ∅ /\ sm_elts (sc_mem c) = ∅.
Proof.
  intros Hparent Hsz Hr Hb Hl Hu. destruct (par_ok parent item_size num_items Hparent Hsz) as [Hp _].
  destruct (reach_cinv parent item_size num_items Hparent Hsz c Hr) as [G C]. pose proof (ci_mem _ _ _ _ C) as HM.
  assert (forall g, ~ is_Some (sm_pages (sc_mem c) !! g)) as Hpg.
  { intros g [p Hg]. destruct (go G g) as [q|] eqn:Ego.
    - destruct (pool_of_page parent _ _ G g q HM Ego) as (s & Hs & Hps & _). rewrite (Hu q s Hs) in Hps. lia.
    - destruct (mc_orphan _ _ _ _ (proj1 HM) g p Hg Ego) as [_ Hc]. unfold count in Hc. destruct (filter _ _) as [|e l] eqn:Ef; [cbn in Hc; lia|].
      assert (e ∈ e :: l) as He by (apply elem_of_cons; by left). rewrite <- Ef in He. apply list_elem_of_filter in He as [He _].
      destruct (gp G e) as [|w q| |q] eqn:Epl; [done|..].
      + apply (mp_place _ _ _ _ (proj2 HM q)) in Epl. pose proof (mp_lists _ _ _ _ (proj2 HM q)) as Hq. unfold pool_lists in Hq.
        destruct (sm_pools (sc_mem c) !! q) as [s|] eqn:Es; [|destruct Hq as [_ Hq]; rewrite Hq in Epl; by apply elem_of_nil in Epl].
        destruct Hq as (_ & _ & _ & _ & [E|(_ & _ & E)]); [rewrite (Hu q s Es) in E; lia|]. rewrite E in Epl. by apply elem_of_nil in Epl.
      + apply (ci_live _ _ _ _ C) in Epl. rewrite Hl in Epl. by apply elem_of_empty in Epl.
      + apply (ci_freeing _ _ _ _ C) in Epl as (pc & Hpc & _). by rewrite Hb, lookup_empty in Hpc. }
  split; apply map_empty; intros x.
  - destruct (sm_pages (sc_mem c) !! x) eqn:E; [|done]. destruct (Hpg x). by eexists.
  - destruct (sm_elts (sc_mem c) !! x) eqn:E; [|done]. assert (is_Some (sm_elts (sc_mem c) !! x)) as Hx by (by eexists).
    apply (mc_elt _ _ _ _ (proj1 HM)) in Hx as (g & Hg & _). by apply Hpg in Hg.
Qed.

(** ** Whole calls *)

(** A call that no other thread gets in between. *)
Fixpoint run_call (fuel : nat) (malloc : Z -> option Z) (m : smem) (pool : Z) (pc : slab_pc) : option (smem * Z) :=
  match fuel with
  | O => None
  | S fuel => '(m, r) ← slab_exec malloc m pool pc; match r with inl pc => run_call fuel malloc m pool pc | inr p => Some (m, p) end
  end.

Lemma slab_alloc_steps malloc m pool : run_call 3 malloc m pool AllocStart = slab_alloc malloc m pool.
Proof.
  cbn [run_call slab_exec]. unfold slab_alloc. destruct (sm_pools m !! pool) as [s|]; [|done]. cbn [mbind option_bind].
  destruct (sp_free s =? 0); cbn [mbind option_bind run_call slab_exec]; [|by destruct (take_free m pool) as [[]|]].
  destruct (collect_migrated m pool) as [m1|]; [|done]. cbn [mbind option_bind run_call slab_exec]. by destruct (alloc_slow malloc m1 pool) as [[]|].
Qed.

Lemma slab_free_steps malloc m pool ptr :
  fst <$> run_call 3 malloc m pool (FreeStart (ptr - sizeof_slab_element_header)) = slab_free m pool ptr.
Proof.
  cbn [run_call slab_exec]. unfold slab_free. set (elt := ptr - _). destruct (sm_elts m !! elt) as [e|]; [|done]. cbn [mbind option_bind].
  destruct (se_owner e =? pool); [by destruct (push_own m pool elt)|]. cbn [mbind option_bind run_call slab_exec].
  destruct (migrate m elt) as [[m1 [|]]|]; cbn [mbind option_bind run_call slab_exec]; [by destruct (slab_free_orphaned m1 elt)|done|done].
Qed.

Lemma free_all_steps malloc fuel : forall m pool,
  fst <$> run_call fuel malloc m pool DestroyFree = m1 ← free_all fuel m pool; pool_store m1 pool (set_sp_parent 0).
Proof.
  induction fuel as [|fuel IH]; intros m pool; [done|]. cbn [run_call slab_exec free_all].
  destruct (free_one m pool) as [[m1 [|]]|]; [apply IH| |done]. cbn [mbind option_bind]. by destruct (pool_store m1 pool _).
Qed.

Lemma slab_destroy_steps malloc m pool :
  exists fuel, fst <$> run_call fuel malloc m pool DestroyStart = slab_destroy_child m pool.
Proof.
  exists (S (S (from_option (fun m => size (sm_elts m)) 0%nat (orphan_all m pool)))). cbn [run_call slab_exec]. unfold slab_destroy_child.
  destruct (sm_pools m !! pool) as [s|]; [|done]. cbn [mbind option_bind]. destruct (sp_parent s =? 0); [done|].
  destruct (orphan_all m pool) as [m1|]; [|done]. cbn [mbind option_bind from_option]. exact (free_all_steps malloc (S (size (sm_elts m1))) m1 pool).
Qed.

Section Return.

Context (pa : Z) (par : slab_parent_pool) (Hpar : parent_ok pa par).

Lemma take_returns m G pool s : minv pa par m G -> sm_pools m !! pool = Some s -> sp_parent s = pa -> gL G Free pool <> [] -> is_Some (take_free m pool).
Proof.
  intros H Hs Hp Hne. destruct (gL G Free pool) as [|e l] eqn:El; [done|]. destruct (take_free_ok pa par Hpar m G pool s e l H Hs Hp El) as (m' & s' & -> & _). by eexists.
Qed.

Lemma alloc_slow_returns malloc m G pool s :
  minv pa par m G -> sm_pools m !! pool = Some s -> sp_parent s = pa -> malloc_ok m malloc -> is_Some (alloc_slow malloc m pool).
Proof.
  intros H Hs Hp Hm. unfold alloc_slow. rewrite Hs. cbn [mbind option_bind]. destruct (pool_state pa par m G H pool s Hs) as (_ & _ & _ & Pl & _).
  pose proof (elist_nil _ _ _ (Pl Free)) as Hnil. cbn in Hnil. destruct (Z.eqb_spec (sp_free s) 0) as [E|E].
  - destruct (slab_add_new_page_ok pa par Hpar malloc m G pool s H Hs Hp Hm) as [->|(g & m1 & s1 & -> & H1 & Hp1 & Hs1 & _)]; cbn [mbind option_bind]; [by eexists|].
    apply (take_returns m1 (add_page par G g pool) pool s1); try done; [by rewrite Hp1, lookup_insert_eq|]. cbn. rewrite decide_True by done.
    intros Er. apply app_eq_nil in Er as [Er _]. apply (f_equal length) in Er. rewrite length_rev, elems_length in Er. destruct Hpar as (_ & Hn & _). cbn in Er. lia.
  - apply (take_returns m G pool s); try done. by intros ?%Hnil.
Qed.

Lemma free_all_returns pool l : forall m G s fuel,
  minv pa par m G -> sm_pools m !! pool = Some s -> gL G Free pool = l -> (forall e, e ∈ l -> orphaned par m G e) -> (length l < fuel)%nat ->
  exists m' s', free_all fuel m pool = Some m' /\ sm_pools m' !! pool = Some s'.
Proof.
  induction l as [|e l IH]; intros m G s [|fuel] H Hs El Hor Hf; cbn [length] in Hf; try lia; cbn [free_all]; unfold free_one; rewrite Hs; cbn [mbind option_bind].
  - destruct (pool_state pa par m G H pool s Hs) as (_ & _ & _ & Pl & _). pose proof (Pl Free) as P0. rewrite El in P0. cbn in P0. rewrite P0, Z.eqb_refl. by exists m, s.
  - destruct (drop_list pa par Hpar m G pool s Free e l H Hs El (Hor e ltac:(by apply elem_of_cons; left))) as (E1 & E2 & h & m1 & Hh & E3 & H1 & Hp & Hpg).
    cbn [sp_list set_sp_list] in *. rewrite E1, (proj2 (Z.eqb_neq _ _)), Hh by done. cbn [mbind option_bind].
    destruct (pool_store m pool _) as [m0|]; [|done]. cbn [mbind option_bind] in E3 |- *. rewrite E3. cbn [mbind option_bind].
    eapply (IH m1 _ (set_sp_free (se_next h) s)); [exact H1|by rewrite Hp, lookup_insert_eq|cbn; by rewrite decide_True| |lia].
    intros y Hy g Hg Hi. apply (Hor y); [apply elem_of_cons; by right|by apply Hpg|done].
Qed.

Lemma destroy_returns m G pool s :
  minv pa par m G -> sm_pools m !! pool = Some s -> sp_parent s = pa -> (forall w e, e ∈ gL G w pool -> owned par m G pool e) ->
  is_Some (slab_destroy_child m pool).
Proof.
  intros H Hs Hp Hown. unfold slab_destroy_child. rewrite Hs. cbn [mbind option_bind]. rewrite Hp, (proj2 (Z.eqb_neq _ _)) by (destruct Hpar; lia).
  destruct (orphan_all_ok pa par Hpar m G pool s H Hs Hp Hown) as (m1 & G1 & s1 & -> & H1 & (T1 & T2 & T3 & T4) & Hp1 & Hs1 & Hpg). cbn [mbind option_bind].
  destruct (free_all_returns pool (gL G1 Free pool) m1 G1 s1 (S (size (sm_elts m1)))) as (m2 & s2 & -> & Hs2); try done.
  - by rewrite Hp1, lookup_insert_eq.
  - intros e He g Hg Hi. rewrite T2, decide_True; [done|]. apply (mc_pool pa par m G (proj1 H)). rewrite T4, decide_False in He by (by intros []).
    apply (Hown Free e He); [by apply Hpg|done].
  - apply Nat.lt_succ_r, list_size; [apply H1|]. intros e He. apply (mc_gone _ _ _ _ (proj1 H1)). apply (mp_place _ _ _ _ (proj2 H1 pool)) in He. by rewrite He.
  - cbn [mbind option_bind]. unfold pool_store. rewrite Hs2. by eexists.
Qed.

Lemma free_returns m G pool s e :
  minv pa par m G -> sm_pools m !! pool = Some s -> gp G e = PLive -> is_Some (slab_free m pool (e + sizeof_slab_element_header)).
Proof.
  intros H Hs He. unfold slab_free. replace (e + sizeof_slab_element_header - sizeof_slab_element_header) with e by lia.
  destruct (mc_gone _ _ _ _ (proj1 H) e) as [h Hh]; [by rewrite He|]. rewrite Hh. cbn [mbind option_bind].
  destruct (se_owner h =? pool); [unfold push_own, elt_store, pool_store; rewrite Hs; cbn; rewrite Hh; cbn; rewrite Hs; by eexists|].
  unfold migrate. rewrite Hh. cbn [mbind option_bind]. destruct (owner_cases pa par Hpar m G e h H Hh) as [(s0 & Hs0 & _ & -> & _)|[-> Hor]].
  - unfold push_migrated, elt_store, pool_store. rewrite Hs0. cbn. rewrite Hh. cbn. rewrite Hs0. by eexists.
  - cbn [mbind option_bind]. destruct (page_of pa par m G e H) as (g & Hg & Hi); [by rewrite He|].
    destruct (slab_free_orphaned_ok pa par Hpar m G H e g) as (m' & -> & _); [by rewrite He|done|done|by apply Hor|by eexists].
Qed.

End Return.

(** C21: In every state that threads can reach, the functions themselves, which are their steps without other threads in between,
    return on a pool that no other call uses: an allocation, freeing any object that a client holds, with any pool, and destroying a pool with
    all its pages and lists.  None of their loops runs on, and they access nothing that is not there. *)
Theorem slab_calls_return parent item_size num_items c pool :
  0 < parent -> sizes_ok item_size num_items -> rtc (slab_step parent) (slab_init parent item_size num_items) c ->
  sc_busy c !! pool = None -> usable (sc_mem c) pool ->
  (forall malloc, malloc_ok (sc_mem c) malloc -> is_Some (slab_alloc malloc (sc_mem c) pool)) /\
  (forall e, e ∈ sc_live c -> is_Some (slab_free (sc_mem c) pool (e + sizeof_slab_element_header))) /\
  is_Some (slab_destroy_child (sc_mem c) pool).
Proof.
  intros Hparent Hsz Hr Hb (s & Hs & Hsp). destruct (par_ok parent item_size num_items Hparent Hsz) as [Hp _].
  destruct (reach_cinv parent item_size num_items Hparent Hsz c Hr) as [G C]. pose proof (ci_mem _ _ _ _ C) as HM.
  destruct (pool_state parent _ _ G HM pool s Hs) as (_ & _ & _ & Pl & Hpa). assert (sp_parent s = parent) as Hpp by (by destruct Hpa as [|[? _]]).
  pose proof (elist_nil _ _ _ (Pl Free)) as Hnil. cbn in Hnil. split; [|split].
  - intros malloc Hm. unfold slab_alloc. rewrite Hs. cbn [mbind option_bind]. destruct (Z.eqb_spec (sp_free s) 0) as [E|E].
    + destruct (collect_migrated_ok parent _ _ G pool s HM Hs Hpp) as (m1 & s1 & -> & H1 & Hp1 & Hs1 & Hpg); [by apply Hnil|]. cbn [mbind option_bind].
      apply (alloc_slow_returns parent _ Hp malloc m1 _ pool s1 H1); [by rewrite Hp1, lookup_insert_eq|done|]. unfold malloc_ok. by rewrite Hpg.
    + apply (take_returns parent _ Hp _ G pool s HM Hs Hpp). by intros ?%Hnil.
  - intros e He. apply (ci_live _ _ _ _ C) in He. by apply (free_returns parent _ Hp _ G pool s).
  - apply (destroy_returns parent _ Hp _ G pool s HM Hs Hpp). intros w e. apply (ci_owned _ _ _ _ C). by rewrite Hb.
Qed.

(** ** Schedules *)

Inductive slab_act := ActCreate (pool : Z) | ActCall (pool : Z) (pc : slab_pc) | ActExec (pool : Z) (memory : option (Z * Z)).

(** An allocator with [n] bytes at [g]. *)
Definition malloc_from (memory : option (Z * Z)) : Z -> option Z :=
  fun n => match memory with Some (g, limit) => if n <=? limit then Some g else None | None => None end.

Definition memory_ok (m : smem) (memory : option (Z * Z)) : bool :=
  match memory with
  | Some (g, limit) => (0 <? g) && Z.even g && bool_decide (map_Forall (fun g' p => g + limit <= g' \/ g' + pg_bytes p <= g) (sm_pages m))
  | None => true
  end.

Definition slab_called (live : gset Z) (pc : slab_pc) : option (gset Z) :=
  match pc with
  | AllocStart | DestroyStart => Some live
  | FreeStart elt => if bool_decide (elt ∈ live) then Some (live ∖ {[elt]}) else None
  | _ => None
  end.

Definition slab_act_step (parent : Z) (c : sconf) (a : slab_act) : option sconf :=
  match a with
  | ActCreate pool =>
    if (0 <? pool) && Z.even pool && bool_decide (sc_busy c !! pool = None) && bool_decide (sm_pools (sc_mem c) !! pool = None)
    then Some (SConf (slab_create_child (sc_mem c) pool parent) (sc_busy c) (sc_live c)) else None
  | ActCall pool pc =>
    s ← sm_pools (sc_mem c) !! pool;
    if bool_decide (sc_busy c !! pool = None) && negb (sp_parent s =? 0)
    then live ← slab_called (sc_live c) pc; Some (SConf (sc_mem c) (<[pool := pc]> (sc_busy c)) live) else None
  | ActExec pool memory =>
    pc ← sc_busy c !! pool;
    if memory_ok (sc_mem c) memory
    then '(m, r) ← slab_exec (malloc_from memory) (sc_mem c) pool pc; Some (slab_after c pool m r) else None
  end.

Fixpoint slab_schedule (parent : Z) (c : sconf) (l : list slab_act) : option sconf :=
  match l with [] => Some c | a :: l => c ← slab_act_step parent c a; slab_schedule parent c l end.

Lemma slab_act_ok parent c a c' : slab_act_step parent c a = Some c' -> slab_step parent c c'.
Proof.
  destruct a as [pool|pool pc|pool memory]; cbn.
  - destruct (_ && _ && _ && _) eqn:E; [|done]. intros [= <-]. apply andb_prop in E as [E E4%bool_decide_eq_true]. apply andb_prop in E as [E E3%bool_decide_eq_true].
    apply andb_prop in E as [E1%Z.ltb_lt E2]. apply SlabCreate; try done. intros s Hs. congruence.
  - destruct (sm_pools (sc_mem c) !! pool) as [s|] eqn:Es; [|done]. cbn. destruct (_ && _) eqn:E; [|done]. apply andb_prop in E as [E1%bool_decide_eq_true E2%negb_true_iff%Z.eqb_neq].
    destruct (slab_called (sc_live c) pc) as [live|] eqn:El; [|done]. cbn. intros [= <-]. apply SlabCall; [done|by exists s|].
    destruct pc; cbn in El; try done; [injection El as <-; constructor| |injection El as <-; constructor].
    case_bool_decide; [|done]. injection El as <-. by constructor.
  - destruct (sc_busy c !! pool) as [pc|] eqn:Eb; [|done]. cbn. destruct (memory_ok (sc_mem c) memory) eqn:Em; [|done].
    destruct (slab_exec _ _ _ _) as [[m r]|] eqn:Ee; [|done]. cbn. intros [= <-]. apply (SlabExec _ _ _ pc (malloc_from memory)); try done.
    intros n g. unfold malloc_from. destruct memory as [[g0 limit]|]; [|done]. destruct (Z.leb_spec n limit) as [Hn|]; [|done]. intros [= <-].
    cbn in Em. apply andb_prop in Em as [Em E3%bool_decide_eq_true]. apply andb_prop in Em as [E1%Z.ltb_lt E2]. split_and!; try done.
    intros g' p Hp. specialize (E3 g' p Hp). cbn in E3. lia.
Qed.

Lemma slab_schedule_ok parent l : forall c c', slab_schedule parent c l = Some c' -> rtc (slab_step parent) c c'.
Proof.
  induction l as [|a l IH]; intros c c'; cbn; [by intros [= <-]|]. destruct (slab_act_step parent c a) as [c1|] eqn:E; [|done]. cbn.
  intros H1. eapply rtc_l; [by apply (slab_act_ok parent c a)|by apply IH].
Qed.

(** A pool is destroyed while another one frees its object: pages of two objects of 4 bytes. *)
Definition slab_demo1 : list slab_act :=
  [ActCreate 100; ActCreate 200; ActCall 100 AllocStart; ActExec 100 None; ActExec 100 None; ActExec 100 (Some (1000, 56));
   ActCall 100 AllocStart; ActExec 100 None; ActCall 200 (FreeStart 1032); ActExec 200 None; ActCall 100 DestroyStart; ActExec 100 None;
   ActExec 200 None].
Definition slab_demo2 : list slab_act :=
  [ActExec 100 None; ActExec 200 None; ActCall 200 (FreeStart 1008); ActExec 200 None; ActExec 200 None; ActExec 200 None;
   ActCall 200 DestroyStart; ActExec 200 None; ActExec 200 None].

Definition slab_demo_conf (l : list slab_act) : sconf :=
  default (SConf (SMem ∅ ∅ ∅ ∅) ∅ ∅) (slab_schedule 8 (slab_init 8 4 2) l).

Lemma slab_demo_reach l : is_Some (slab_schedule 8 (slab_init 8 4 2) l) -> rtc (slab_step 8) (slab_init 8 4 2) (slab_demo_conf l).
Proof. intros [c E]. apply (slab_schedule_ok 8 l). unfold slab_demo_conf. by rewrite E. Qed.

Lemma slab_demo_sizes : sizes_ok 4 2.
Proof. by split. Qed.

Lemma slab_safe_witness :
  let c := slab_demo_conf slab_demo1 in
  sc_busy c !! 100 = Some DestroyFree /\ sc_busy c !! 200 = Some (FreeOrphaned 1032) /\
  (exists m r, slab_exec (fun _ => None) (sc_mem c) 200 (FreeOrphaned 1032) = Some (m, r)) /\ is_Some (sm_elts (sc_mem c) !! 1008).
Proof.
  assert (rtc (slab_step 8) (slab_init 8 4 2) (slab_demo_conf slab_demo1)) as Hr by (apply slab_demo_reach; vm_compute; eexists; reflexivity).
  destruct (slab_safe 8 4 2 (slab_demo_conf slab_demo1) ltac:(lia) slab_demo_sizes Hr) as (Hs & Hl & _).
  assert (sc_busy (slab_demo_conf slab_demo1) !! 200 = Some (FreeOrphaned 1032)) as Hb by (vm_compute; reflexivity).
  split; [vm_compute; reflexivity|]. split; [exact Hb|]. split.
  - destruct (Hs 200 _ (fun _ => None) Hb) as (m & r & E & _); [by intros n g|]. by exists m, r.
  - apply Hl. apply (bool_decide_eq_true_1 (1008 ∈ sc_live (slab_demo_conf slab_demo1))). vm_compute. reflexivity.
Defined.

Lemma slab_no_leak_witness :
  let c := slab_demo_conf (slab_demo1 ++ slab_demo2) in sm_pages (sc_mem c) = ∅ /\ sm_elts (sc_mem c) = ∅.
Proof.
  assert (rtc (slab_step 8) (slab_init 8 4 2) (slab_demo_conf (slab_demo1 ++ slab_demo2))) as Hr by (apply slab_demo_reach; vm_compute; eexists; reflexivity).
  apply (slab_no_leak 8 4 2 _ ltac:(lia) slab_demo_sizes Hr).
  - vm_compute. reflexivity.
  - vm_compute. reflexivity.
  - intros pool s Hs. apply elem_of_map_to_list in Hs. vm_compute in Hs.
    repeat (apply elem_of_cons in Hs as [[= -> ->]|Hs]; [reflexivity|]). by apply elem_of_nil in Hs.
Defined.

Lemma slab_calls_return_witness :
  let c := slab_demo_conf (take 8 slab_demo1) in
  is_Some (slab_alloc (fun _ => Some 2000) (sc_mem c) 200) /\ is_Some (slab_free (sc_mem c) 200 1048) /\ is_Some (slab_destroy_child (sc_mem c) 200).
Proof.
  assert (rtc (slab_step 8) (slab_init 8 4 2) (slab_demo_conf (take 8 slab_demo1))) as Hr by (apply slab_demo_reach; vm_compute; eexists; reflexivity).
  destruct (slab_calls_return 8 4 2 (slab_demo_conf (take 8 slab_demo1)) 200 ltac:(lia) slab_demo_sizes Hr) as (H1 & H2 & H3).
  - vm_compute. reflexivity.
  - eexists. split; [vm_compute; reflexivity|]. vm_compute. discriminate.
  - split; [|split; [|exact H3]].
    + apply H1. intros n g [= <-]. split; [lia|]. split; [reflexivity|]. intros g' p Hp. apply elem_of_map_to_list in Hp. vm_compute in Hp.
      repeat (apply elem_of_cons in Hp as [[= -> ->]|Hp]; [right; vm_compute; discriminate|]). by apply elem_of_nil in Hp.
    + apply (H2 1032). apply (bool_decide_eq_true_1 (1032 ∈ sc_live (slab_demo_conf (take 8 slab_demo1)))). vm_compute. reflexivity.
Defined.

(** The size of a page wraps in 32 bits: for two objects of 2^31 - 16 bytes, memory for 8 bytes is asked for, and the first element is outside. *)
Theorem slab_page_size_wraps :
  let m := slab_create_child (slab_create_parent (SMem ∅ ∅ ∅ ∅) 8 (2 ^ 31 - 16) 2) 100 8 in
  slab_alloc (fun n => if n =? 8 then Some 1000 else None) m 100 = None /\ slab_alloc (fun _ => None) m 100 = Some (m, 0).
Proof. split; vm_compute; reflexivity. Qed.
