(* ===== verification/RegAlloc.v ===== *)
(** * The graph-colouring register allocator of [src/util/register_allocate.c]

    Functions return [None] where the source reads or writes outside an array,
    reads memory it has not initialised, follows a NULL pointer or fails an
    assertion, and where a loop runs out of fuel.  An array allocated with
    [ralloc_array] (uninitialised) is modelled by its initialised prefix beside
    its recorded capacity; single-precision floats are the 24-bit binary
    floating-point numbers of [SpecFloat]. *)
From Stdlib Require Import SpecFloat.
From S2P Require Import Prelude Bitset Float32.

Definition NO_REG : Z := UINT_MAX.

Record ra_reg := RaReg {
  rg_conflicts : list Z;
  rg_conflict_list : option (list Z);
  rg_conflict_list_size : Z;
  rg_num_conflicts : Z }.

Record ra_class := RaClass { cl_regs : list Z; cl_p : Z; cl_q : list Z }.

Record ra_regs := RaRegs {
  rs_regs : list ra_reg;
  rs_count : Z;
  rs_classes : list ra_class;
  rs_class_count : Z;
  rs_round_robin : bool }.

Record ra_node := RaNode {
  nd_adjacency : list Z;
  nd_adjacency_list : list Z;
  nd_adjacency_list_size : Z;
  nd_adjacency_count : Z;
  nd_class : Z;
  nd_reg : Z;
  nd_in_stack : bool;
  nd_q_total : Z;
  nd_spill_cost : spec_float }.

(** [select_reg_callback] is the address of the driver's function (0 for NULL);
    what is at that address is an argument of [ra_select]. *)
Record ra_graph := RaGraph {
  gr_regs : ra_regs;
  gr_nodes : list ra_node;
  gr_count : Z;
  gr_stack : list Z;
  gr_stack_count : Z;
  gr_stack_optimistic_start : Z;
  gr_select_reg_callback : Z;
  gr_select_reg_callback_data : Z }.

(** ** Arrays with an initialised prefix *)

Definition array_init (l : list Z) (size i v : Z) : option (list Z) :=
  if i <? size then
    if i =? Z.of_nat (length l) then Some (l ++ [v]) else array_set l i v
  else None.

Definition reralloc (l : list Z) (size : Z) : list Z := take (Z.to_nat size) l.

(** ** Field updates *)

Definition set_regs (rs : ra_regs) (l : list ra_reg) : ra_regs :=
  RaRegs l (rs_count rs) (rs_classes rs) (rs_class_count rs) (rs_round_robin rs).
Definition set_classes (rs : ra_regs) (l : list ra_class) : ra_regs :=
  RaRegs (rs_regs rs) (rs_count rs) l (rs_class_count rs) (rs_round_robin rs).

Definition upd_reg (rs : ra_regs) (r : Z) (f : ra_reg -> option ra_reg) : option ra_regs :=
  reg ← array_get (rs_regs rs) r; reg ← f reg;
  l ← array_set (rs_regs rs) r reg; Some (set_regs rs l).
Definition upd_class (rs : ra_regs) (c : Z) (f : ra_class -> option ra_class)
    : option ra_regs :=
  cl ← array_get (rs_classes rs) c; cl ← f cl;
  l ← array_set (rs_classes rs) c cl; Some (set_classes rs l).

Definition set_nodes (g : ra_graph) (l : list ra_node) : ra_graph :=
  RaGraph (gr_regs g) l (gr_count g) (gr_stack g) (gr_stack_count g)
    (gr_stack_optimistic_start g) (gr_select_reg_callback g) (gr_select_reg_callback_data g).
Definition set_stack (g : ra_graph) (l : list Z) (n : Z) : ra_graph :=
  RaGraph (gr_regs g) (gr_nodes g) (gr_count g) l n
    (gr_stack_optimistic_start g) (gr_select_reg_callback g) (gr_select_reg_callback_data g).
Definition set_optimistic_start (g : ra_graph) (n : Z) : ra_graph :=
  RaGraph (gr_regs g) (gr_nodes g) (gr_count g) (gr_stack g) (gr_stack_count g)
    n (gr_select_reg_callback g) (gr_select_reg_callback_data g).

Definition upd_node (g : ra_graph) (n : Z) (f : ra_node -> ra_node) : option ra_graph :=
  nd ← array_get (gr_nodes g) n;
  l ← array_set (gr_nodes g) n (f nd); Some (set_nodes g l).

Definition nd_set_reg (r : Z) (nd : ra_node) : ra_node :=
  RaNode (nd_adjacency nd) (nd_adjacency_list nd) (nd_adjacency_list_size nd)
    (nd_adjacency_count nd) (nd_class nd) r (nd_in_stack nd) (nd_q_total nd) (nd_spill_cost nd).
Definition nd_set_class (c : Z) (nd : ra_node) : ra_node :=
  RaNode (nd_adjacency nd) (nd_adjacency_list nd) (nd_adjacency_list_size nd)
    (nd_adjacency_count nd) c (nd_reg nd) (nd_in_stack nd) (nd_q_total nd) (nd_spill_cost nd).
Definition nd_set_in_stack (b : bool) (nd : ra_node) : ra_node :=
  RaNode (nd_adjacency nd) (nd_adjacency_list nd) (nd_adjacency_list_size nd)
    (nd_adjacency_count nd) (nd_class nd) (nd_reg nd) b (nd_q_total nd) (nd_spill_cost nd).
Definition nd_set_q_total (q : Z) (nd : ra_node) : ra_node :=
  RaNode (nd_adjacency nd) (nd_adjacency_list nd) (nd_adjacency_list_size nd)
    (nd_adjacency_count nd) (nd_class nd) (nd_reg nd) (nd_in_stack nd) q (nd_spill_cost nd).
Definition nd_set_spill_cost (c : spec_float) (nd : ra_node) : ra_node :=
  RaNode (nd_adjacency nd) (nd_adjacency_list nd) (nd_adjacency_list_size nd)
    (nd_adjacency_count nd) (nd_class nd) (nd_reg nd) (nd_in_stack nd) (nd_q_total nd) c.

(** ** Register sets *)

Definition alloc_reg (count i : Z) (need_conflict_lists : bool) : option ra_reg :=
  conflicts ← BITSET_SET (replicate (Z.to_nat (BITSET_WORDS count)) 0) i;
  Some (if need_conflict_lists
        then RaReg conflicts (Some [i]) 4 1
        else RaReg conflicts None 0 1).

Definition ra_alloc_reg_set (count : Z) (need_conflict_lists : bool) : option ra_regs :=
  regs ← mapM (fun i => alloc_reg count i need_conflict_lists) (zrange 0 (Z.to_nat count));
  Some (RaRegs regs count [] 0 false).

Definition ra_set_allocate_round_robin (regs : ra_regs) : ra_regs :=
  RaRegs (rs_regs regs) (rs_count regs) (rs_classes regs) (rs_class_count regs) true.

(** The conditional append to the conflict list. *)
Definition append_conflict (r2 : Z) (reg1 : ra_reg) : option ra_reg :=
  match rg_conflict_list reg1 with
  | Some l =>
    let '(l, size) :=
      if rg_conflict_list_size reg1 =? rg_num_conflicts reg1 then
        let size := u32 (rg_conflict_list_size reg1 * 2) in (reralloc l size, size)
      else (l, rg_conflict_list_size reg1) in
    l ← array_init l size (rg_num_conflicts reg1) r2;
    Some (RaReg (rg_conflicts reg1) (Some l) size (u32 (rg_num_conflicts reg1 + 1)))
  | None => Some reg1
  end.

Definition add_conflict (r2 : Z) (reg1 : ra_reg) : option ra_reg :=
  reg1 ← append_conflict r2 reg1;
  conflicts ← BITSET_SET (rg_conflicts reg1) r2;
  Some (RaReg conflicts (rg_conflict_list reg1) (rg_conflict_list_size reg1)
          (rg_num_conflicts reg1)).

Definition ra_add_conflict_list (regs : ra_regs) (r1 r2 : Z) : option ra_regs :=
  upd_reg regs r1 (add_conflict r2).

Definition ra_add_reg_conflict (regs : ra_regs) (r1 r2 : Z) : option ra_regs :=
  reg ← array_get (rs_regs regs) r1;
  b ← BITSET_TEST (rg_conflicts reg) r2;
  if negb b then
    regs ← ra_add_conflict_list regs r1 r2;
    ra_add_conflict_list regs r2 r1
  else Some regs.

(** The loop of [ra_add_transitive_reg_conflict]: its bound is read again at
    every iteration. *)
Fixpoint transitive_loop (fuel : nat) (regs : ra_regs) (base_reg reg i : Z) : option ra_regs :=
  match fuel with
  | O => None
  | S fuel' =>
    base ← array_get (rs_regs regs) base_reg;
    if i <? rg_num_conflicts base then
      l ← rg_conflict_list base;
      c ← array_get l i;
      regs ← ra_add_reg_conflict regs reg c;
      transitive_loop fuel' regs base_reg reg (i + 1)
    else Some regs
  end.

Definition ra_add_transitive_reg_conflict (regs : ra_regs) (base_reg reg : Z)
    : option ra_regs :=
  regs ← ra_add_reg_conflict regs reg base_reg;
  transitive_loop (S (Z.to_nat (rs_count regs))) regs base_reg reg 0.

Definition ra_make_reg_conflicts_transitive (regs : ra_regs) (r : Z) : option ra_regs :=
  BITSET_FOREACH_SET
    (fun regs => reg ← array_get (rs_regs regs) r; Some (rg_conflicts reg))
    (fun regs c =>
      foldM (fun regs i =>
        reg ← array_get (rs_regs regs) r;
        w ← array_get (rg_conflicts reg) i;
        upd_reg regs c (fun other =>
          o ← array_get (rg_conflicts other) i;
          conflicts ← array_set (rg_conflicts other) i (Z.lor o w);
          Some (RaReg conflicts (rg_conflict_list other) (rg_conflict_list_size other)
                  (rg_num_conflicts other))))
        regs (zrange 0 (Z.to_nat (BITSET_WORDS (rs_count regs)))))
    (rs_count regs) regs.

Definition ra_alloc_reg_class (regs : ra_regs) : ra_regs * Z :=
  let class := RaClass (replicate (Z.to_nat (BITSET_WORDS (rs_count regs))) 0) 0 [] in
  (RaRegs (rs_regs regs) (rs_count regs) (rs_classes regs ++ [class])
     (u32 (rs_class_count regs + 1)) (rs_round_robin regs),
   rs_class_count regs).

Definition ra_class_add_reg (regs : ra_regs) (c r : Z) : option ra_regs :=
  upd_class regs c (fun class =>
    words ← BITSET_SET (cl_regs class) r;
    Some (RaClass words (u32 (cl_p class + 1)) (cl_q class))).

Definition reg_belongs_to_class (r : Z) (c : ra_class) : option bool :=
  BITSET_TEST (cl_regs c) r.

(** ** q values *)

(** The registers of class [b] that [rc] conflicts with, as the innermost loop
    of [ra_set_finalize] counts them. *)
Definition count_conflicts (regs : ra_regs) (b : ra_class) (rc : Z) : option Z :=
  reg ← array_get (rs_regs regs) rc;
  foldM (fun conflicts i =>
    l ← rg_conflict_list reg;
    rb ← array_get l i;
    belongs ← reg_belongs_to_class rb b;
    Some (if (belongs : bool) then conflicts + 1 else conflicts))
    0 (zrange 0 (Z.to_nat (rg_num_conflicts reg))).

Definition compute_q (regs : ra_regs) (b c : Z) : option Z :=
  classb ← array_get (rs_classes regs) b;
  classc ← array_get (rs_classes regs) c;
  foldM (fun max_conflicts rc =>
    belongs ← reg_belongs_to_class rc classc;
    if negb belongs then Some max_conflicts else
    conflicts ← count_conflicts regs classb rc;
    Some (Z.max max_conflicts conflicts))
    0 (zrange 0 (Z.to_nat (rs_count regs))).

Definition set_q (regs : ra_regs) (b c v : Z) : option ra_regs :=
  upd_class regs b (fun class =>
    q ← array_init (cl_q class) (rs_class_count regs) c v;
    Some (RaClass (cl_regs class) (cl_p class) q)).

(** The value stored in [classes[b]->q[c]]. *)
Definition q_value (q_values : option (list (list Z))) (regs : ra_regs) (b c : Z) : option Z :=
  match q_values with
  | Some qv => row ← array_get qv b; array_get row c
  | None => compute_q regs b c
  end.

Definition alloc_q (regs : ra_regs) (b : Z) : option ra_regs :=
  upd_class regs b (fun class => Some (RaClass (cl_regs class) (cl_p class) [])).

Definition store_q (q_values : option (list (list Z))) (b : Z) (regs : ra_regs) (c : Z)
    : option ra_regs :=
  v ← q_value q_values regs b c; set_q regs b c v.

Definition free_conflict_list (regs : ra_regs) (b : Z) : option ra_regs :=
  upd_reg regs b (fun reg =>
    Some (RaReg (rg_conflicts reg) None (rg_conflict_list_size reg) (rg_num_conflicts reg))).

Definition ra_set_finalize (regs : ra_regs) (q_values : option (list (list Z)))
    : option ra_regs :=
  let bs := zrange 0 (Z.to_nat (rs_class_count regs)) in
  regs ← foldM alloc_q regs bs;
  regs ← foldM (fun regs b => foldM (store_q q_values b) regs bs) regs bs;
  foldM free_conflict_list regs (zrange 0 (Z.to_nat (rs_count regs))).

(** ** Interference graphs *)

Definition class_q (g : ra_graph) (b c : Z) : option Z :=
  class ← array_get (rs_classes (gr_regs g)) b; array_get (cl_q class) c.

Definition ra_add_node_adjacency (g : ra_graph) (n1 n2 : Z) : option ra_graph :=
  nd1 ← array_get (gr_nodes g) n1;
  adjacency ← BITSET_SET (nd_adjacency nd1) n2;
  if n1 =? n2 then None else
  nd2 ← array_get (gr_nodes g) n2;
  q ← class_q g (nd_class nd1) (nd_class nd2);
  let '(l, size) :=
    if nd_adjacency_list_size nd1 <=? nd_adjacency_count nd1 then
      let size := u32 (nd_adjacency_list_size nd1 * 2) in
      (reralloc (nd_adjacency_list nd1) size, size)
    else (nd_adjacency_list nd1, nd_adjacency_list_size nd1) in
  l ← array_init l size (nd_adjacency_count nd1) n2;
  upd_node g n1 (fun nd1 =>
    RaNode adjacency l size (u32 (nd_adjacency_count nd1 + 1)) (nd_class nd1) (nd_reg nd1)
      (nd_in_stack nd1) (u32 (nd_q_total nd1 + q)) (nd_spill_cost nd1)).

Definition ra_alloc_interference_graph (regs : ra_regs) (count : Z) : ra_graph :=
  let node := RaNode (replicate (Z.to_nat (BITSET_WORDS count)) 0) [] 4 0 0 NO_REG false 0
                (S754_zero false) in
  RaGraph regs (replicate (Z.to_nat count) node) count (replicate (Z.to_nat count) 0) 0 0 0 0.

Definition ra_set_select_reg_callback (g : ra_graph) (callback data : Z) : ra_graph :=
  RaGraph (gr_regs g) (gr_nodes g) (gr_count g) (gr_stack g) (gr_stack_count g)
    (gr_stack_optimistic_start g) callback data.

Definition ra_set_node_class (g : ra_graph) (n class : Z) : option ra_graph :=
  upd_node g n (nd_set_class class).

Definition ra_add_node_interference (g : ra_graph) (n1 n2 : Z) : option ra_graph :=
  if n1 =? n2 then Some g else
  nd1 ← array_get (gr_nodes g) n1;
  b ← BITSET_TEST (nd_adjacency nd1) n2;
  if negb b then
    g ← ra_add_node_adjacency g n1 n2;
    ra_add_node_adjacency g n2 n1
  else Some g.

(** ** Simplification *)

Definition pq_test (g : ra_graph) (n : Z) : option bool :=
  nd ← array_get (gr_nodes g) n;
  class ← array_get (rs_classes (gr_regs g)) (nd_class nd);
  Some (nd_q_total nd <? cl_p class).

(** The body of the loop of [decrement_q]. *)
Definition decrement_neighbor (n : Z) (g : ra_graph) (i : Z) : option ra_graph :=
  nd ← array_get (gr_nodes g) n;
  n2 ← array_get (nd_adjacency_list nd) i;
  nd2 ← array_get (gr_nodes g) n2;
  if negb (nd_in_stack nd2) then
    q ← class_q g (nd_class nd2) (nd_class nd);
    if q <=? nd_q_total nd2 then
      upd_node g n2 (nd_set_q_total (u32 (nd_q_total nd2 - q)))
    else None
  else Some g.

Definition decrement_q (g : ra_graph) (n : Z) : option ra_graph :=
  nd ← array_get (gr_nodes g) n;
  foldM (decrement_neighbor n) g (zrange 0 (Z.to_nat (nd_adjacency_count nd))).

(** Moving a node to the stack. *)
Definition push_node (g : ra_graph) (i : Z) : option ra_graph :=
  g ← decrement_q g i;
  stack ← array_set (gr_stack g) (gr_stack_count g) i;
  upd_node (set_stack g stack (u32 (gr_stack_count g + 1))) i (nd_set_in_stack true).

(** The variables of one iteration of the [while] loop. *)
Record simplify_state := SimplifyState {
  ss_graph : ra_graph;
  ss_progress : bool;
  ss_best_optimistic_node : Z;
  ss_lowest_q_total : Z }.

(** The body of the [for] loop. *)
Definition simplify_node (st : simplify_state) (i : Z) : option simplify_state :=
  let g := ss_graph st in
  nd ← array_get (gr_nodes g) i;
  if nd_in_stack nd || negb (nd_reg nd =? NO_REG) then Some st else
  trivial ← pq_test g i;
  if (trivial : bool) then
    g ← push_node g i;
    Some (SimplifyState g true (ss_best_optimistic_node st) (ss_lowest_q_total st))
  else
    let new_q_total := nd_q_total nd in
    Some (if new_q_total <? ss_lowest_q_total st
          then SimplifyState g (ss_progress st) i new_q_total else st).

(** [for (i = count - 1; i >= 0; i--)]. *)
Definition simplify_pass (g : ra_graph) : option simplify_state :=
  foldM simplify_node (SimplifyState g false UINT_MAX UINT_MAX)
    (rev (zrange 0 (Z.to_nat (gr_count g)))).

Fixpoint simplify_loop (fuel : nat) (g : ra_graph) (stack_optimistic_start : Z)
    : option (ra_graph * Z) :=
  match fuel with
  | O => None
  | S fuel' =>
    st ← simplify_pass g;
    let g := ss_graph st in
    if ss_progress st then simplify_loop fuel' g stack_optimistic_start
    else if negb (ss_best_optimistic_node st =? UINT_MAX) then
      let stack_optimistic_start :=
        if stack_optimistic_start =? UINT_MAX then gr_stack_count g
        else stack_optimistic_start in
      g ← push_node g (ss_best_optimistic_node st);
      simplify_loop fuel' g stack_optimistic_start
    else Some (g, stack_optimistic_start)
  end.

(** Every iteration but the last pushes a node. *)
Definition ra_simplify (g : ra_graph) : option ra_graph :=
  '(g, start) ← simplify_loop (S (Z.to_nat (gr_count g))) g UINT_MAX;
  Some (set_optimistic_start g start).

(** ** Selection *)

Fixpoint neighbors_conflict_loop (g : ra_graph) (nd : ra_node) (r : Z) (idxs : list Z)
    : option bool :=
  match idxs with
  | [] => Some false
  | i :: idxs =>
    n2 ← array_get (nd_adjacency_list nd) i;
    nd2 ← array_get (gr_nodes g) n2;
    if negb (nd_in_stack nd2) then
      reg ← array_get (rs_regs (gr_regs g)) r;
      b ← BITSET_TEST (rg_conflicts reg) (nd_reg nd2);
      if (b : bool) then Some true else neighbors_conflict_loop g nd r idxs
    else neighbors_conflict_loop g nd r idxs
  end.

Definition ra_any_neighbors_conflict (g : ra_graph) (n r : Z) : option bool :=
  nd ← array_get (gr_nodes g) n;
  neighbors_conflict_loop g nd r (zrange 0 (Z.to_nat (nd_adjacency_count nd))).

Definition ra_compute_available_regs (g : ra_graph) (n : Z) : option (list Z * bool) :=
  nd ← array_get (gr_nodes g) n;
  c ← array_get (rs_classes (gr_regs g)) (nd_class nd);
  let words := zrange 0 (Z.to_nat (BITSET_WORDS (rs_count (gr_regs g)))) in
  regs ← mapM (array_get (cl_regs c)) words;
  regs ← foldM (fun regs i =>
    n2 ← array_get (nd_adjacency_list nd) i;
    nd2 ← array_get (gr_nodes g) n2;
    if negb (nd_in_stack nd2) then
      reg ← array_get (rs_regs (gr_regs g)) (nd_reg nd2);
      foldM (fun regs j =>
        w ← array_get regs j; cw ← array_get (rg_conflicts reg) j;
        array_set regs j (Z.land w (u32 (Z.lnot cw)))) regs words
    else Some regs)
    regs (zrange 0 (Z.to_nat (nd_adjacency_count nd)));
  Some (regs, existsb (fun w => negb (w =? 0)) regs).

(** The [for (ri = 0; ...)] loop of [ra_select]: the register found, if any. *)
Fixpoint search_reg (fuel : nat) (g : ra_graph) (c : ra_class) (n start_search_reg ri : Z)
    : option (option Z) :=
  match fuel with
  | O => None
  | S fuel' =>
    if ri <? rs_count (gr_regs g) then
      let r := u32 (start_search_reg + ri) mod rs_count (gr_regs g) in
      belongs ← reg_belongs_to_class r c;
      if negb belongs then search_reg fuel' g c n start_search_reg (ri + 1) else
      conflict ← ra_any_neighbors_conflict g n r;
      if negb conflict then Some (Some r)
      else search_reg fuel' g c n start_search_reg (ri + 1)
    else Some None
  end.

Section Select.
(** The driver's callback: what the function at an address does on the graph,
    the available registers and its data; it may keep memory of its own. *)
Context {M : Type} (call : Z -> M -> ra_graph -> list Z -> Z -> M * Z).

Fixpoint select_loop (fuel : nat) (m : M) (g : ra_graph) (start_search_reg : Z)
    : option (M * ra_graph * bool) :=
  match fuel with
  | O => None
  | S fuel' =>
    if gr_stack_count g =? 0 then Some (m, g, true) else
    n ← array_get (gr_stack g) (gr_stack_count g - 1);
    nd ← array_get (gr_nodes g) n;
    c ← array_get (rs_classes (gr_regs g)) (nd_class nd);
    g ← upd_node g n (nd_set_in_stack false);
    found ← (if negb (gr_select_reg_callback g =? 0) then
        '(select_regs, available) ← ra_compute_available_regs g n;
        if negb available then Some (m, None) else
        let '(m, r) := call (gr_select_reg_callback g) m g select_regs
                         (gr_select_reg_callback_data g) in
        Some (m, Some r)
      else
        r ← search_reg (S (Z.to_nat (rs_count (gr_regs g)))) g c n start_search_reg 0;
        Some (m, r));
    match found with
    | (m, None) => Some (m, g, false)
    | (m, Some r) =>
      g ← upd_node g n (nd_set_reg r);
      let g := set_stack g (gr_stack g) (gr_stack_count g - 1) in
      let start_search_reg :=
        if rs_round_robin (gr_regs g)
           && (u32 (gr_stack_count g - 1) <=? gr_stack_optimistic_start g)
        then i32 (r + 1) else start_search_reg in
      select_loop fuel' m g start_search_reg
    end
  end.

Definition ra_select (m : M) (g : ra_graph) : option (M * ra_graph * bool) :=
  select_loop (S (Z.to_nat (gr_stack_count g))) m g 0.

Definition ra_allocate (m : M) (g : ra_graph) : option (M * ra_graph * bool) :=
  g ← ra_simplify g; ra_select m g.
End Select.

Definition ra_get_node_reg (g : ra_graph) (n : Z) : option Z :=
  nd ← array_get (gr_nodes g) n; Some (nd_reg nd).

Definition ra_set_node_reg (g : ra_graph) (n reg : Z) : option ra_graph :=
  upd_node g n (fun nd => nd_set_in_stack false (nd_set_reg reg nd)).

(** ** Spilling *)

Definition ra_get_spill_benefit (g : ra_graph) (n : Z) : option spec_float :=
  nd ← array_get (gr_nodes g) n;
  foldM (fun benefit j =>
    n2 ← array_get (nd_adjacency_list nd) j;
    nd2 ← array_get (gr_nodes g) n2;
    q ← class_q g (nd_class nd) (nd_class nd2);
    class ← array_get (rs_classes (gr_regs g)) (nd_class nd);
    Some (f32_add benefit (f32_div (f32_of_int q) (f32_of_int (cl_p class)))))
    (S754_zero false) (zrange 0 (Z.to_nat (nd_adjacency_count nd))).

(** The body of the loop of [ra_get_best_spill_node], on the best node so far
    and its benefit. *)
Definition consider_spill (g : ra_graph) (best : Z * spec_float) (n : Z)
    : option (Z * spec_float) :=
  nd ← array_get (gr_nodes g) n;
  let cost := nd_spill_cost nd in
  if SFleb cost (S754_zero false) then Some best else
  if nd_in_stack nd then Some best else
  benefit ← ra_get_spill_benefit g n;
  Some (if SFltb best.2 (f32_div benefit cost) then (n, f32_div benefit cost) else best).

(** The [int] result: -1 if no node can be spilled. *)
Definition ra_get_best_spill_node (g : ra_graph) : option Z :=
  '(best_node, _) ← foldM (consider_spill g) (UINT_MAX, S754_zero false)
                      (zrange 0 (Z.to_nat (gr_count g)));
  Some (i32 best_node).

Definition ra_set_node_spill_cost (g : ra_graph) (n : Z) (cost : spec_float)
    : option ra_graph :=
  upd_node g n (nd_set_spill_cost cost).
