(* ===== verification/RegAllocCorrect.v ===== *)
(** * Correctness of graph colouring ([src/util/register_allocate.c])

    The views of a register set and of an interference graph that the theorems
    talk about, the graph invariant with exact [q_total] bookkeeping, and what
    simplification and selection do to it. *)
From S2P Require Import Prelude Bitset RegAlloc.

(** ** Sums over lists *)

Definition sumZ {A} (f : A -> Z) (l : list A) : Z := foldr (fun x s => f x + s) 0 l.

Lemma sumZ_cons {A} (f : A -> Z) x l : sumZ f (x :: l) = f x + sumZ f l.
Proof. done. Qed.

Lemma sumZ_ext {A} (f g : A -> Z) l : (forall x, x ∈ l -> f x = g x) -> sumZ f l = sumZ g l.
Proof.
  induction l as [|x l IH]; intros H; [done|]. rewrite !sumZ_cons.
  rewrite H, IH by (intros; try apply H; set_solver). done.
Qed.

Lemma sumZ_le {A} (f g : A -> Z) l : (forall x, x ∈ l -> f x <= g x) -> sumZ f l <= sumZ g l.
Proof.
  induction l as [|x l IH]; intros H; [done|]. rewrite !sumZ_cons.
  assert (f x <= g x) by (apply H; set_solver).
  assert (sumZ f l <= sumZ g l) by (apply IH; intros; apply H; set_solver). lia.
Qed.

Lemma sumZ_nonneg {A} (f : A -> Z) l : (forall x, x ∈ l -> 0 <= f x) -> 0 <= sumZ f l.
Proof.
  induction l as [|x l IH]; intros H; [done|]. rewrite !sumZ_cons.
  assert (0 <= f x) by (apply H; set_solver).
  assert (0 <= sumZ f l) by (apply IH; intros; apply H; set_solver). lia.
Qed.

Lemma sumZ_bound {A} (f : A -> Z) b l :
  (forall x, x ∈ l -> f x <= b) -> sumZ f l <= Z.of_nat (length l) * b.
Proof.
  induction l as [|x l IH]; intros H; [done|]. rewrite sumZ_cons. cbn [length].
  assert (f x <= b) by (apply H; set_solver).
  assert (sumZ f l <= Z.of_nat (length l) * b) by (apply IH; intros; apply H; set_solver).
  lia.
Qed.

(** Removing the contribution of one element of a duplicate-free list. *)
Lemma sumZ_remove {A} `{EqDecision A} (f g : A -> Z) l x :
  NoDup l -> g x = 0 -> (forall y, y <> x -> g y = f y) ->
  sumZ g l = sumZ f l - (if bool_decide (x ∈ l) then f x else 0).
Proof.
  intros Hnd Hx Hne. induction Hnd as [|y l Hy Hnd IH]; [done|]. rewrite !sumZ_cons.
  destruct (decide (y = x)) as [->|Hyx].
  - rewrite Hx, IH, (bool_decide_false (x ∈ l)) by done.
    rewrite bool_decide_true by set_solver. lia.
  - rewrite Hne, IH by done.
    destruct (decide (x ∈ l)) as [H|H];
      [rewrite !bool_decide_true by set_solver|rewrite !bool_decide_false by set_solver]; lia.
Qed.

(** ** Views of a register set *)

Definition conflict (rs : ra_regs) (r1 r2 : Z) : bool :=
  from_option (fun reg => bmem (rg_conflicts reg) r2) false (array_get (rs_regs rs) r1).
Definition in_class (rs : ra_regs) (c r : Z) : bool :=
  from_option (fun cl => bmem (cl_regs cl) r) false (array_get (rs_classes rs) c).
Definition p_of (rs : ra_regs) (c : Z) : Z :=
  from_option cl_p 0 (array_get (rs_classes rs) c).
Definition q_of (rs : ra_regs) (b c : Z) : Z :=
  default 0 (class ← array_get (rs_classes rs) b; array_get (cl_q class) c).

(** The arrays of a register set have the sizes the counters say. *)
Record regs_ok (rs : ra_regs) : Prop := {
  ro_count : 0 <= rs_count rs < 2 ^ 31;
  ro_length : Z.of_nat (length (rs_regs rs)) = rs_count rs;
  ro_conflicts : forall r reg, array_get (rs_regs rs) r = Some reg ->
    bs_ok (rs_count rs) (rg_conflicts reg);
  ro_class_count : 0 <= rs_class_count rs < 2 ^ 31;
  ro_class_length : Z.of_nat (length (rs_classes rs)) = rs_class_count rs;
  ro_class : forall c cl, array_get (rs_classes rs) c = Some cl ->
    bs_ok (rs_count rs) (cl_regs cl) }.

(** After [ra_set_finalize]: every class has a q value, at most the number of
    registers, for every class. *)
Definition finalized (rs : ra_regs) : Prop :=
  forall b cl, array_get (rs_classes rs) b = Some cl ->
    Z.of_nat (length (cl_q cl)) = rs_class_count rs /\
    forall c, 0 <= c < rs_class_count rs -> 0 <= q_of rs b c <= rs_count rs.

Lemma belongs_spec rs c cl r :
  regs_ok rs -> array_get (rs_classes rs) c = Some cl -> 0 <= r < rs_count rs ->
  reg_belongs_to_class r cl = Some (in_class rs c r).
Proof.
  intros Hok Hc Hr. unfold reg_belongs_to_class, in_class. rewrite Hc. cbn.
  apply (BITSET_TEST_spec (rs_count rs)); [apply Hok|by eapply ro_class|done].
Qed.

Lemma conflict_test rs r1 reg r2 :
  regs_ok rs -> array_get (rs_regs rs) r1 = Some reg -> 0 <= r2 < rs_count rs ->
  BITSET_TEST (rg_conflicts reg) r2 = Some (conflict rs r1 r2).
Proof.
  intros Hok Hc Hr. unfold conflict. rewrite Hc. cbn.
  apply (BITSET_TEST_spec (rs_count rs)); [apply Hok|by eapply ro_conflicts|done].
Qed.

Lemma q_of_Some rs b c :
  regs_ok rs -> finalized rs -> 0 <= b < rs_class_count rs -> 0 <= c < rs_class_count rs ->
  (class ← array_get (rs_classes rs) b; array_get (cl_q class) c) = Some (q_of rs b c)
  /\ 0 <= q_of rs b c <= rs_count rs.
Proof.
  intros Hok Hfin Hb Hc. destruct (array_get_is_Some (rs_classes rs) b) as [cl Hcl].
  { by rewrite (ro_class_length rs Hok). }
  destruct (Hfin b cl Hcl) as [Hlen Hq]. split; [|by apply Hq].
  unfold q_of. rewrite Hcl. obind. destruct (array_get_is_Some (cl_q cl) c) as [q ->]; [lia|done].
Qed.

(** ** Views of a graph *)

Notation node g n := (array_get (gr_nodes g) n).
Definition adj (g : ra_graph) (n : Z) : list Z := from_option nd_adjacency_list [] (node g n).
Definition cls (g : ra_graph) (n : Z) : Z := from_option nd_class 0 (node g n).
Definition reg (g : ra_graph) (n : Z) : Z := from_option nd_reg NO_REG (node g n).
Definition instk (g : ra_graph) (n : Z) : bool := from_option nd_in_stack false (node g n).
Definition qt (g : ra_graph) (n : Z) : Z := from_option nd_q_total 0 (node g n).
(** The stack, as the list of nodes from the bottom up. *)
Definition stk (g : ra_graph) : list Z := take (Z.to_nat (gr_stack_count g)) (gr_stack g).

(** The sum of q over the neighbours that [S] does not hide. *)
Definition qsum (g : ra_graph) (S : Z -> bool) (n : Z) : Z :=
  sumZ (fun n2 => if S n2 then 0 else q_of (gr_regs g) (cls g n) (cls g n2)) (adj g n).

(** The parts of the invariant that allocation does not touch: sizes, classes,
    and a symmetric irreflexive interference relation without duplicates. *)
Record graph_ok (g : ra_graph) : Prop := {
  go_regs : regs_ok (gr_regs g);
  go_final : finalized (gr_regs g);
  go_count : 0 <= gr_count g < 2 ^ 31;
  go_length : Z.of_nat (length (gr_nodes g)) = gr_count g;
  go_stack : Z.of_nat (length (gr_stack g)) = gr_count g;
  go_adj_count : forall n nd, node g n = Some nd ->
    nd_adjacency_count nd = Z.of_nat (length (nd_adjacency_list nd));
  go_class : forall n, 0 <= n < gr_count g -> 0 <= cls g n < rs_class_count (gr_regs g);
  go_adj : forall n n2, n2 ∈ adj g n -> 0 <= n2 < gr_count g /\ n2 <> n /\ n ∈ adj g n2;
  go_nodup : forall n, NoDup (adj g n);
  go_bound : gr_count g * rs_count (gr_regs g) < UINT_MAX }.

(** The stack and the counters agree. *)
Record stack_ok (g : ra_graph) : Prop := {
  so_count : 0 <= gr_stack_count g <= gr_count g;
  so_nodup : NoDup (stk g);
  so_range : forall n, n ∈ stk g -> 0 <= n < gr_count g;
  so_in : forall n, instk g n = true <-> n ∈ stk g;
  so_reg : forall n, n ∈ stk g -> reg g n = NO_REG;
  so_q : forall n, 0 <= n < gr_count g -> instk g n = false -> qt g n = qsum g (instk g) n }.

Lemma node_is_Some g n : graph_ok g -> 0 <= n < gr_count g -> exists nd, node g n = Some nd.
Proof. intros Hg Hn. apply array_get_is_Some. by rewrite (go_length g Hg). Qed.

Lemma node_range g n nd : graph_ok g -> node g n = Some nd -> 0 <= n < gr_count g.
Proof. intros Hg H. apply array_get_lt in H. by rewrite (go_length g Hg) in H. Qed.

Lemma adj_length g n : graph_ok g -> Z.of_nat (length (adj g n)) <= gr_count g.
Proof.
  intros Hg. assert (adj g n ⊆+ zrange 0 (Z.to_nat (gr_count g))) as Hsub.
  - apply NoDup_submseteq; [apply Hg|]. intros x [Hx _]%(go_adj g Hg).
    apply elem_of_zrange. lia.
  - apply submseteq_length in Hsub. rewrite zrange_length in Hsub. pose proof (go_count g Hg). lia.
Qed.

Lemma adj_node g n x : x ∈ adj g n -> exists nd, node g n = Some nd.
Proof. unfold adj. destruct (node g n); [eauto|cbn; set_solver]. Qed.

Lemma class_q_spec g n m :
  graph_ok g -> 0 <= n < gr_count g -> 0 <= m < gr_count g ->
  class_q g (cls g n) (cls g m) = Some (q_of (gr_regs g) (cls g n) (cls g m))
  /\ 0 <= q_of (gr_regs g) (cls g n) (cls g m) <= rs_count (gr_regs g).
Proof. intros Hg Hn Hm. apply q_of_Some; by apply Hg. Qed.

Lemma qsum_bounds g S n : graph_ok g -> 0 <= n < gr_count g -> 0 <= qsum g S n < UINT_MAX.
Proof.
  intros Hg Hn. pose proof (ro_count _ (go_regs g Hg)).
  assert (forall x, x ∈ adj g n ->
    0 <= (if S x then 0 else q_of (gr_regs g) (cls g n) (cls g x)) <= rs_count (gr_regs g)) as Hq.
  { intros x [Hx _]%(go_adj g Hg). destruct (S x); [lia|]. by apply class_q_spec. }
  split; [apply sumZ_nonneg; intros; by apply Hq|].
  assert (qsum g S n <= Z.of_nat (length (adj g n)) * rs_count (gr_regs g)) as Hle
    by (apply sumZ_bound; intros; by apply Hq).
  pose proof (adj_length g n Hg). pose proof (go_bound g Hg). nia.
Qed.

(** ** Node updates *)

(** [g'] is [g] with node [m] changed by [F m]. *)
Definition nodes_by (g : ra_graph) (F : Z -> ra_node -> ra_node) (g' : ra_graph) : Prop :=
  g' = set_nodes g (gr_nodes g') /\ forall m, node g' m = F m <$> node g m.

Lemma nodes_by_refl g : nodes_by g (fun _ nd => nd) g.
Proof. split; [by destruct g|]. intros m. by destruct (node g m). Qed.

Lemma nodes_by_ext g F F' g' :
  (forall m nd, node g m = Some nd -> F m nd = F' m nd) -> nodes_by g F g' -> nodes_by g F' g'.
Proof.
  intros HF [H1 H2]. split; [done|]. intros m. rewrite H2.
  destruct (node g m) as [nd|] eqn:E; [|done]. cbn. by rewrite HF.
Qed.

Lemma upd_node_by g F g1 n f :
  nodes_by g F g1 -> (exists nd, node g n = Some nd) ->
  exists g2, upd_node g1 n f = Some g2 /\
    nodes_by g (fun m nd => if n =? m then f (F m nd) else F m nd) g2.
Proof.
  intros [H1 H2] [nd Hn]. unfold upd_node. rewrite H2, Hn. cbn.
  assert (node g1 n = Some (F n nd)) as Hn1 by by rewrite H2, Hn.
  pose proof (array_get_lt _ _ _ Hn1) as Hlt.
  destruct (array_set (gr_nodes g1) n (f (F n nd))) as [l|] eqn:Hl;
    [|by rewrite array_set_Some in Hl].
  cbn. eexists. split; [done|]. split; [by rewrite H1|]. intros m. cbn.
  rewrite (array_get_set _ _ _ m _ Hl). destruct (Z.eqb_spec n m) as [<-|Hne].
  - by rewrite Hn.
  - apply H2.
Qed.

Lemma nodes_by_length g F g' : nodes_by g F g' -> length (gr_nodes g') = length (gr_nodes g).
Proof.
  intros [_ H]. apply Nat.le_antisymm; apply Nat.nlt_ge; intros Hlt.
  - destruct (array_get_is_Some (gr_nodes g') (Z.of_nat (length (gr_nodes g)))) as [x Hx]; [lia|].
    rewrite H in Hx. destruct (node g _) eqn:E; [|done]. apply array_get_lt in E. lia.
  - destruct (array_get_is_Some (gr_nodes g) (Z.of_nat (length (gr_nodes g')))) as [x Hx]; [lia|].
    pose proof (H (Z.of_nat (length (gr_nodes g')))) as H'. rewrite Hx in H'.
    apply array_get_lt in H'. lia.
Qed.

(** An update of the mutable fields (register, stack flag, q total) only. *)
Definition keeps_static (F : Z -> ra_node -> ra_node) : Prop :=
  forall m nd, nd_adjacency (F m nd) = nd_adjacency nd /\
    nd_adjacency_list (F m nd) = nd_adjacency_list nd /\
    nd_adjacency_count (F m nd) = nd_adjacency_count nd /\ nd_class (F m nd) = nd_class nd.

(** Same registers and same interference graph. *)
Record same_static (g g' : ra_graph) : Prop := {
  ss_regs : gr_regs g' = gr_regs g;
  ss_count : gr_count g' = gr_count g;
  ss_adj : forall n, adj g' n = adj g n;
  ss_cls : forall n, cls g' n = cls g n }.

Lemma nodes_by_static g F g' : keeps_static F -> nodes_by g F g' -> same_static g g'.
Proof.
  intros HF [Heq H]. split; [by rewrite Heq..| |]; intros n; unfold adj, cls; rewrite H;
    destruct (node g n); cbn; try done; apply HF.
Qed.

Lemma nodes_by_graph_ok g F g' : keeps_static F -> graph_ok g -> nodes_by g F g' -> graph_ok g'.
Proof.
  intros HF Hg Hby. pose proof (nodes_by_static g F g' HF Hby) as [Hr Hc Ha Hl].
  pose proof (nodes_by_length _ _ _ Hby) as Hlen. destruct Hby as [Heq H].
  destruct Hg as [G1 G2 G3 G4 G5 G6 G7 G8 G9 G10].
  split; rewrite ?Hr, ?Hc; try done.
  - by rewrite Hlen.
  - by rewrite Heq.
  - intros n nd Hn. rewrite H in Hn. destruct (node g n) as [nd0|] eqn:E; [|done].
    cbn in Hn. injection Hn as <-. destruct (HF n nd0) as (_ & -> & -> & _). eauto.
  - intros n Hn. rewrite Hl. auto.
  - intros n n2. rewrite !Ha. auto.
  - intros n. rewrite Ha. auto.
Qed.

Lemma qsum_static g g' S S' n :
  same_static g g' -> (forall n2, n2 ∈ adj g n -> S' n2 = S n2) -> qsum g' S' n = qsum g S n.
Proof.
  intros [Hr Hc Ha Hl] HS. unfold qsum. rewrite Ha, Hr, Hl. apply sumZ_ext.
  intros x Hx. by rewrite HS, Hl.
Qed.

(** ** Pushing a node *)

Lemma zrange_split a n l1 x l2 :
  zrange a n = l1 ++ x :: l2 -> x = a + Z.of_nat (length l1) /\ (length l1 < n)%nat.
Proof.
  intros H. assert (zrange a n !! length l1 = Some x) as Hx by by rewrite H, list_lookup_middle.
  unfold zrange in Hx. rewrite list_lookup_fmap in Hx.
  destruct (seq 0 n !! length l1) as [i|] eqn:E; [|done]. cbn in Hx.
  apply lookup_seq in E as [-> Hlt]. injection Hx as <-. lia.
Qed.

Lemma sumZ_elem_le {A} (f : A -> Z) l x :
  (forall y, y ∈ l -> 0 <= f y) -> x ∈ l -> f x <= sumZ f l.
Proof.
  intros Hf Hx. induction l as [|y l IH]; [set_solver|]. rewrite sumZ_cons.
  assert (0 <= sumZ f l) by (apply sumZ_nonneg; intros; apply Hf; set_solver).
  assert (0 <= f y) by (apply Hf; set_solver).
  apply elem_of_cons in Hx as [->|Hx]; [lia|].
  assert (f x <= sumZ f l) by (apply IH; [intros; apply Hf; set_solver|done]). lia.
Qed.

(** What a node loses when the neighbours [L] of [n] have been visited. *)
Definition q_delta (g : ra_graph) (n : Z) (L : list Z) (m : Z) : Z :=
  if bool_decide (m ∈ L) && negb (instk g m) then q_of (gr_regs g) (cls g m) (cls g n) else 0.

Lemma qt_ge_q g n m :
  graph_ok g -> stack_ok g -> instk g n = false -> instk g m = false -> m ∈ adj g n ->
  q_of (gr_regs g) (cls g m) (cls g n) <= qt g m.
Proof.
  intros Hg Hs Hn Hm Hadj. destruct (go_adj g Hg n m Hadj) as (Hmr & _ & Hnm).
  destruct (go_adj g Hg m n Hnm) as (Hnr & _ & _).
  rewrite (so_q g Hs m Hmr Hm). unfold qsum.
  etransitivity; [|apply (sumZ_elem_le _ _ n); [|done]].
  - cbn. by rewrite Hn.
  - intros y [Hy _]%(go_adj g Hg). cbn. destruct (instk g y); [lia|]. by apply class_q_spec.
Qed.

Definition q_updated (g : ra_graph) (n : Z) (L : list Z) (m : Z) (nd : ra_node) : ra_node :=
  nd_set_q_total (nd_q_total nd - q_delta g n L m) nd.

Lemma view_node {A} (f : ra_node -> A) (d : A) g n nd :
  node g n = Some nd -> from_option f d (node g n) = f nd.
Proof. by intros ->. Qed.

Lemma q_delta_app_ne g n L n2 m :
  m <> n2 \/ instk g m = true -> q_delta g n (L ++ [n2]) m = q_delta g n L m.
Proof.
  intros H. unfold q_delta. destruct (instk g m) eqn:E; [by rewrite !andb_false_r|].
  replace (bool_decide (m ∈ L ++ [n2])) with (bool_decide (m ∈ L)); [done|].
  apply bool_decide_ext. destruct H; [set_solver|done].
Qed.

Lemma q_delta_app_eq g n L m :
  instk g m = false ->
  q_delta g n (L ++ [m]) m = q_of (gr_regs g) (cls g m) (cls g n).
Proof. intros H. unfold q_delta. rewrite H, bool_decide_true by set_solver. done. Qed.

Lemma q_delta_fresh g n L m : ~ m ∈ L -> q_delta g n L m = 0.
Proof. intros H. unfold q_delta. by rewrite bool_decide_false by done. Qed.

Lemma take_S_fresh (l : list Z) k x :
  NoDup l -> l !! k = Some x -> take (S k) l = take k l ++ [x] /\ ~ x ∈ take k l.
Proof.
  intros Hnd Hx. split; [by apply take_S_r|].
  intros [j [Hj Hjl]%lookup_take_Some]%list_elem_of_lookup.
  pose proof (NoDup_lookup _ _ _ _ Hnd Hj Hx). lia.
Qed.

(** One neighbour: the assertion holds, and its q total loses exactly the share
    of [n]. *)
Lemma decrement_neighbor_spec g n k g1 :
  graph_ok g -> stack_ok g -> 0 <= n < gr_count g -> instk g n = false ->
  (k < length (adj g n))%nat -> nodes_by g (q_updated g n (take k (adj g n))) g1 ->
  exists g2, decrement_neighbor n g1 (Z.of_nat k) = Some g2 /\
    nodes_by g (q_updated g n (take (S k) (adj g n))) g2.
Proof.
  intros Hg Hs Hn Hst Hlt Hby. destruct (node_is_Some g n Hg Hn) as [nd Hnd].
  assert (adj g n = nd_adjacency_list nd) as Hadj by by apply view_node.
  destruct (lookup_lt_is_Some_2 _ _ Hlt) as [n2 Hn2]. pose proof Hby as [Heq Hnodes].
  unfold decrement_neighbor. rewrite Hnodes, Hnd. cbn [fmap option_fmap option_map]. obind.
  change (nd_adjacency_list (q_updated _ _ _ _ _)) with (nd_adjacency_list nd).
  rewrite <- Hadj, array_get_nat, Hn2. obind.
  assert (n2 ∈ adj g n) as Hin by by eapply list_elem_of_lookup_2.
  destruct (go_adj g Hg n n2 Hin) as (Hn2r & Hne & Hsym).
  destruct (node_is_Some g n2 Hg Hn2r) as [nd2 Hnd2].
  rewrite Hnodes, Hnd2. cbn [fmap option_fmap option_map]. obind.
  change (nd_in_stack (q_updated _ _ _ _ nd2)) with (nd_in_stack nd2).
  assert (instk g n2 = nd_in_stack nd2) as Hst2 by by apply view_node.
  destruct (take_S_fresh _ _ _ (go_nodup g Hg n) Hn2) as [-> Hfresh].
  destruct (nd_in_stack nd2) eqn:Hin2.
  { exists g1. split; [done|]. eapply nodes_by_ext; [|exact Hby]. intros m nd' Hm.
    unfold q_updated. rewrite q_delta_app_ne; [done|].
    destruct (Z.eq_dec m n2) as [->|]; [by right|by left]. }
  change (negb false) with true. cbn match.
  replace (class_q g1 _ _) with (Some (q_of (gr_regs g) (cls g n2) (cls g n))); last first.
  { rewrite <- (proj1 (class_q_spec g n2 n Hg Hn2r Hn)). unfold class_q. rewrite Heq.
    cbn. by rewrite (view_node _ _ _ _ _ Hnd2 : cls g n2 = _),
      (view_node _ _ _ _ _ Hnd : cls g n = _). }
  obind. change (nd_q_total (q_updated _ _ _ n2 nd2))
    with (nd_q_total nd2 - q_delta g n (take k (adj g n)) n2).
  rewrite q_delta_fresh, Z.sub_0_r by done.
  assert (qt g n2 = nd_q_total nd2) as Hqt by by apply view_node.
  pose proof (qt_ge_q g n n2 Hg Hs Hst Hst2 Hin) as Hge. rewrite Hqt in Hge.
  rewrite (proj2 (Z.leb_le _ _) Hge).
  match goal with |- context [upd_node g1 n2 ?f] =>
    destruct (upd_node_by g _ g1 n2 f Hby (ex_intro _ nd2 Hnd2)) as (g2 & -> & Hby2) end.
  exists g2. split; [done|]. eapply nodes_by_ext; [|exact Hby2]. intros m nd' Hm.
  unfold q_updated. destruct (Z.eqb_spec n2 m) as [<-|Hmn]; [|rewrite q_delta_app_ne; auto].
  rewrite Hnd2 in Hm. injection Hm as <-. rewrite q_delta_app_eq by done.
  unfold nd_set_q_total. cbn. f_equal.
  pose proof (qsum_bounds g (instk g) n2 Hg Hn2r) as Hb.
  rewrite <- (so_q g Hs n2 Hn2r Hst2), Hqt in Hb.
  pose proof (proj2 (class_q_spec g n2 n Hg Hn2r Hn)). unfold UINT_MAX in *.
  apply u32_small. lia.
Qed.

Lemma decrement_q_spec g n :
  graph_ok g -> stack_ok g -> 0 <= n < gr_count g -> instk g n = false ->
  exists g', decrement_q g n = Some g' /\ nodes_by g (q_updated g n (adj g n)) g'.
Proof.
  intros Hg Hs Hn Hst. destruct (node_is_Some g n Hg Hn) as [nd Hnd].
  unfold decrement_q. rewrite Hnd. obind.
  assert (Z.to_nat (nd_adjacency_count nd) = length (adj g n)) as ->.
  { rewrite (go_adj_count g Hg n nd Hnd), Nat2Z.id.
    by rewrite (view_node _ _ _ _ _ Hnd : adj g n = _). }
  destruct (foldM_ind (fun l1 g1 => nodes_by g (q_updated g n (take (length l1) (adj g n))) g1)
    (decrement_neighbor n) (zrange 0 (length (adj g n))) g) as (g' & Hg' & Hby).
  - apply (nodes_by_ext _ (fun _ nd => nd)); [|apply nodes_by_refl].
    intros m nd' _. unfold q_updated. rewrite q_delta_fresh by (cbn; set_solver).
    rewrite Z.sub_0_r. by destruct nd'.
  - intros l1 i l2 g1 [-> Hlt]%zrange_split Hby. rewrite length_app, Nat.add_1_r, Z.add_0_l.
    by apply decrement_neighbor_spec.
  - exists g'. split; [done|]. rewrite zrange_length in Hby. by rewrite take_ge in Hby by lia.
Qed.

(** What is common to all steps of the allocation: same registers, same
    interferences, same callback. *)
Record step_frame (g g' : ra_graph) : Prop := {
  sf_static : same_static g g';
  sf_callback : gr_select_reg_callback g' = gr_select_reg_callback g;
  sf_data : gr_select_reg_callback_data g' = gr_select_reg_callback_data g }.

Lemma same_static_trans g1 g2 g3 :
  same_static g1 g2 -> same_static g2 g3 -> same_static g1 g3.
Proof. intros [R1 C1 A1 L1] [R2 C2 A2 L2]. split; intros; congruence. Qed.

Lemma step_frame_trans g1 g2 g3 : step_frame g1 g2 -> step_frame g2 g3 -> step_frame g1 g3.
Proof.
  intros [S1 C1 D1] [S2 C2 D2]. split; [by eapply same_static_trans|congruence..].
Qed.

Lemma step_frame_refl g : step_frame g g.
Proof. by split. Qed.

Lemma stk_length g : graph_ok g -> stack_ok g -> Z.of_nat (length (stk g)) = gr_stack_count g.
Proof.
  intros Hg Hs. unfold stk. rewrite length_take. pose proof (so_count g Hs).
  pose proof (go_stack g Hg). lia.
Qed.

Lemma stack_has_room g n :
  graph_ok g -> stack_ok g -> 0 <= n < gr_count g -> ~ n ∈ stk g ->
  gr_stack_count g < gr_count g.
Proof.
  intros Hg Hs Hn Hin. pose proof (stk_length g Hg Hs).
  assert (stk g ++ [n] ⊆+ zrange 0 (Z.to_nat (gr_count g))) as Hsub.
  - apply NoDup_submseteq.
    + apply NoDup_app. split_and!; [apply Hs| |apply NoDup_singleton]. set_solver.
    + intros x [Hx|Hx]%elem_of_app; apply elem_of_zrange.
      * apply (so_range g Hs) in Hx. lia.
      * apply list_elem_of_singleton in Hx as ->. lia.
  - apply submseteq_length in Hsub. rewrite zrange_length, length_app in Hsub. cbn in Hsub. lia.
Qed.

Record pushed (g : ra_graph) (n : Z) (g' : ra_graph) : Prop := {
  pu_graph : graph_ok g';
  pu_stack : stack_ok g';
  pu_frame : step_frame g g';
  pu_stk : stk g' = stk g ++ [n];
  pu_reg : forall m, reg g' m = reg g m;
  pu_instk : forall m, instk g' m = (n =? m) || instk g m }.

(** Hiding one more node takes its share out of a sum. *)
Lemma qsum_hide g S n m :
  graph_ok g -> S n = false ->
  qsum g (fun x => (n =? x) || S x) m
  = qsum g S m - (if bool_decide (n ∈ adj g m) then q_of (gr_regs g) (cls g m) (cls g n) else 0).
Proof.
  intros Hg HS. unfold qsum.
  rewrite (sumZ_remove (fun n2 => if S n2 then 0 else q_of (gr_regs g) (cls g m) (cls g n2))
    _ (adj g m) n (go_nodup g Hg m)).
  - by rewrite HS.
  - cbn. by rewrite Z.eqb_refl.
  - intros y Hy. cbn. destruct (Z.eqb_spec n y); [done|]. done.
Qed.

Definition push_update (g : ra_graph) (n m : Z) (nd : ra_node) : ra_node :=
  if n =? m then nd_set_in_stack true (q_updated g n (adj g n) m nd)
  else q_updated g n (adj g n) m nd.

Lemma push_update_static g n : keeps_static (push_update g n).
Proof. intros m nd. unfold push_update. by destruct (n =? m). Qed.

(** [graph_ok] does not read the contents of the stack. *)
Lemma graph_ok_set_stack g l k :
  graph_ok g -> length l = length (gr_stack g) -> graph_ok (set_stack g l k).
Proof. intros [] H. split; try done. cbn. by rewrite H. Qed.

(** Setting the stack and updating nodes commute. *)
Lemma push_node_nodes g n :
  graph_ok g -> stack_ok g -> 0 <= n < gr_count g -> instk g n = false ->
  exists l g', push_node g n = Some g' /\
    array_set (gr_stack g) (gr_stack_count g) n = Some l /\
    nodes_by (set_stack g l (gr_stack_count g + 1)) (push_update g n) g'.
Proof.
  intros Hg Hs Hn Hst. destruct (decrement_q_spec g n Hg Hs Hn Hst) as (g1 & Hd & Hby).
  assert (~ n ∈ stk g) as Hnin by (rewrite <- (so_in g Hs), Hst; done).
  pose proof (stack_has_room g n Hg Hs Hn Hnin) as Hroom.
  pose proof (so_count g Hs) as Hc. pose proof (go_count g Hg) as Hgc.
  unfold push_node. rewrite Hd. obind. clear Hd.
  replace (gr_stack g1) with (gr_stack g) by (by rewrite (proj1 Hby)).
  replace (gr_stack_count g1) with (gr_stack_count g) by (by rewrite (proj1 Hby)).
  destruct (array_set (gr_stack g) (gr_stack_count g) n) as [l|] eqn:Hl;
    [|rewrite array_set_Some in Hl; [done|rewrite (go_stack g Hg); lia]].
  obind. rewrite u32_small by lia.
  assert (nodes_by (set_stack g l (gr_stack_count g + 1)) (q_updated g n (adj g n))
    (set_stack g1 l (gr_stack_count g + 1))) as Hby1.
  { destruct Hby as [Heq Hm]. split; [by rewrite Heq|]. exact Hm. }
  destruct (node_is_Some g n Hg Hn) as [nd Hnd].
  destruct (upd_node_by _ _ _ n (nd_set_in_stack true) Hby1 (ex_intro _ nd Hnd)) as (g' & Hu & Hby2).
  exists l, g'. split_and!; [done..|]. eapply nodes_by_ext; [|exact Hby2].
  intros m nd' _. unfold push_update. by destruct (n =? m).
Qed.

Lemma push_node_spec g n :
  graph_ok g -> stack_ok g -> 0 <= n < gr_count g -> instk g n = false -> reg g n = NO_REG ->
  exists g', push_node g n = Some g' /\ pushed g n g'.
Proof.
  intros Hg Hs Hn Hst Hreg.
  destruct (push_node_nodes g n Hg Hs Hn Hst) as (l & g' & Hp & Hl & Hby).
  exists g'. split; [done|]. clear Hp.
  assert (~ n ∈ stk g) as Hnin by (rewrite <- (so_in g Hs), Hst; done).
  pose proof (stack_has_room g n Hg Hs Hn Hnin) as Hroom. pose proof (so_count g Hs) as Hc.
  apply array_set_inv in Hl as [Hlr ->].
  assert (graph_ok g') as Hg'.
  { eapply nodes_by_graph_ok; [apply push_update_static| |exact Hby].
    apply graph_ok_set_stack; [done|]. apply length_insert. }
  assert (same_static g g') as Hstat.
  { eapply same_static_trans; [|eapply nodes_by_static;
      [apply push_update_static|exact Hby]]. by split. }
  assert (forall m, reg g' m = reg g m) as Hr.
  { intros m. unfold reg. rewrite (proj2 Hby m). cbn. destruct (node g m); [|done]. cbn.
    unfold push_update. by destruct (n =? m). }
  assert (forall m, instk g' m = (n =? m) || instk g m) as Hi.
  { intros m. unfold instk. rewrite (proj2 Hby m). cbn. destruct (node g m) as [nd|] eqn:E; cbn.
    - unfold push_update. by destruct (n =? m).
    - destruct (Z.eqb_spec n m) as [->|]; [|done].
      by destruct (node_is_Some g m Hg Hn) as [? ?]; congruence. }
  assert (stk g' = stk g ++ [n]) as Hk.
  { unfold stk. rewrite (proj1 Hby). cbn. rewrite Z2Nat.inj_add, Nat.add_1_r by lia.
    rewrite (take_S_r _ _ n).
    - rewrite take_insert_ge by lia. done.
    - apply list_lookup_insert_eq. lia. }
  split; try done.
  2:{ split; [done|by rewrite (proj1 Hby)..]. }
  split.
  - rewrite (proj1 Hby). cbn. lia.
  - rewrite Hk. apply NoDup_app. split_and!; [apply Hs| |apply NoDup_singleton]. set_solver.
  - intros m. rewrite Hk, (ss_count _ _ Hstat), elem_of_app, list_elem_of_singleton.
    intros [?| ->]; [by apply Hs|done].
  - intros m. rewrite Hi, Hk, elem_of_app, list_elem_of_singleton, orb_true_iff, (so_in g Hs m).
    rewrite Z.eqb_eq. naive_solver.
  - intros m. rewrite Hk, Hr, elem_of_app, list_elem_of_singleton.
    intros [?| ->]; [by apply Hs|done].
  - intros m Hm Him. rewrite Hi in Him. apply orb_false_iff in Him as [Hne Him].
    rewrite (ss_count _ _ Hstat) in Hm.
    rewrite (qsum_static g g' (fun x => (n =? x) || instk g x)) by (auto || done).
    rewrite qsum_hide by done. rewrite <- (so_q g Hs m Hm Him).
    unfold qt at 1. rewrite (proj2 Hby m). cbn. unfold push_update. rewrite Hne.
    destruct (node_is_Some g m Hg Hm) as [nd Hnd]. rewrite Hnd. cbn.
    rewrite (view_node _ _ _ _ _ Hnd : qt g m = _). unfold q_delta. rewrite Him, andb_true_r.
    f_equal. destruct (decide (m ∈ adj g n)) as [Ha|Ha].
    + rewrite !bool_decide_true; [done| |done]. by apply (go_adj g Hg) in Ha as (_ & _ & ?).
    + rewrite !bool_decide_false; [done| |done].
      intros Hb. by apply (go_adj g Hg) in Hb as (_ & _ & ?).
Qed.

(** ** Simplification *)

(** Every node of the stack passed the pq test when it was pushed: the q sum
    over the neighbours that were still in the graph is below p. *)
Definition trivial_stack (g : ra_graph) : Prop :=
  forall l1 n l2, stk g = l1 ++ n :: l2 ->
    qsum g (fun x => bool_decide (x ∈ l1)) n < p_of (gr_regs g) (cls g n).

Lemma pq_test_spec g i :
  graph_ok g -> 0 <= i < gr_count g ->
  pq_test g i = Some (qt g i <? p_of (gr_regs g) (cls g i)).
Proof.
  intros Hg Hi. destruct (node_is_Some g i Hg Hi) as [nd Hnd]. unfold pq_test.
  pose proof (go_class g Hg i Hi) as Hc. pose proof (ro_class_length _ (go_regs g Hg)) as Hl.
  destruct (array_get_is_Some (rs_classes (gr_regs g)) (cls g i)) as [cl Hcl]; [lia|].
  unfold p_of. rewrite Hcl. rewrite Hnd. obind.
  rewrite (view_node _ _ _ _ _ Hnd : qt g i = _).
  by rewrite <- (view_node _ _ _ _ _ Hnd : cls g i = _), Hcl.
Qed.

Lemma pushed_trivial g n g' :
  graph_ok g -> stack_ok g -> 0 <= n < gr_count g -> instk g n = false ->
  pushed g n g' -> trivial_stack g -> qt g n < p_of (gr_regs g) (cls g n) -> trivial_stack g'.
Proof.
  intros Hg Hs Hn Hst [_ _ [Hstat _ _] Hk _ _] Ht Hq l1 m l2 Hsplit. rewrite Hk in Hsplit.
  rewrite (qsum_static g g' (fun x => bool_decide (x ∈ l1))), (ss_regs _ _ Hstat),
    (ss_cls _ _ Hstat) by done.
  destruct l2 as [|y l2 _] using rev_ind.
  - apply app_inj_tail in Hsplit as [<- <-]. rewrite (so_q g Hs n Hn Hst) in Hq.
    rewrite (qsum_static g g (instk g)); [done|done|]. intros x _.
    destruct (instk g x) eqn:E.
    + apply bool_decide_true. by apply (so_in g Hs).
    + apply bool_decide_false. rewrite <- (so_in g Hs), E. done.
  - rewrite app_comm_cons, app_assoc in Hsplit. apply app_inj_tail in Hsplit as [Hsplit _].
    by eapply Ht.
Qed.

(** The node is done: pushed, or forced to a register. *)
Definition settled (g : ra_graph) (i : Z) : Prop := instk g i = true \/ reg g i <> NO_REG.

(** What an iteration of the [while] loop has done after visiting [visited]. *)
Record pass_inv (g0 : ra_graph) (visited : list Z) (st : simplify_state) : Prop := {
  pi_graph : graph_ok (ss_graph st);
  pi_stack : stack_ok (ss_graph st);
  pi_frame : step_frame g0 (ss_graph st);
  pi_reg : forall m, reg (ss_graph st) m = reg g0 m;
  pi_trivial : trivial_stack g0 -> trivial_stack (ss_graph st);
  pi_progress : if ss_progress st then gr_stack_count g0 < gr_stack_count (ss_graph st)
                else ss_graph st = g0;
  pi_lowest : ss_lowest_q_total st = UINT_MAX <-> ss_best_optimistic_node st = UINT_MAX;
  pi_best : ss_best_optimistic_node st <> UINT_MAX ->
    0 <= ss_best_optimistic_node st < gr_count g0 /\
    instk g0 (ss_best_optimistic_node st) = false /\
    reg g0 (ss_best_optimistic_node st) = NO_REG;
  pi_settled : ss_progress st = false -> ss_best_optimistic_node st = UINT_MAX ->
    forall i, i ∈ visited -> settled g0 i }.

Lemma pushed_count g n g' :
  graph_ok g -> stack_ok g -> pushed g n g' -> gr_stack_count g' = gr_stack_count g + 1.
Proof.
  intros Hg Hs [Hg' Hs' _ Hk _ _]. rewrite <- (stk_length g Hg Hs), <- (stk_length g' Hg' Hs'), Hk.
  rewrite length_app. cbn. lia.
Qed.

Lemma simplify_node_spec g0 visited st i :
  graph_ok g0 -> 0 <= i < gr_count g0 -> stack_ok g0 -> ~ i ∈ visited ->
  (forall m, ~ m ∈ visited -> instk (ss_graph st) m = instk g0 m) ->
  pass_inv g0 visited st ->
  exists st', simplify_node st i = Some st' /\ pass_inv g0 (visited ++ [i]) st' /\
    forall m, ~ m ∈ visited ++ [i] -> instk (ss_graph st') m = instk g0 m.
Proof.
  intros Hg0 Hi0 Hs0 Hfresh Hinstk [Hg Hs Hf Hr Ht Hp Hl Hb Hset].
  assert (0 <= i < gr_count (ss_graph st)) as Hi by by rewrite (ss_count _ _ (sf_static _ _ Hf)).
  destruct (node_is_Some _ i Hg Hi) as [nd Hnd]. unfold simplify_node. rewrite Hnd. obind.
  assert (instk (ss_graph st) i = nd_in_stack nd) as His by by apply view_node.
  assert (reg (ss_graph st) i = nd_reg nd) as Hir by by apply view_node.
  assert (qt (ss_graph st) i = nd_q_total nd) as Hiq by by apply view_node.
  rewrite <- His, <- Hir, <- Hiq.
  assert (forall m, ~ m ∈ visited ++ [i] -> instk (ss_graph st) m = instk g0 m) as Hinstk'.
  { intros m Hm. apply Hinstk. set_solver. }
  destruct (instk (ss_graph st) i || negb (reg (ss_graph st) i =? NO_REG)) eqn:Hskip.
  { exists st. split; [done|]. split; [|done]. split; try done. intros Hpr Hbo j.
    rewrite elem_of_app, list_elem_of_singleton. intros [Hj| ->]; [by apply Hset|].
    rewrite Hinstk, Hr in Hskip by done. apply orb_true_iff in Hskip as [?|Hq]; [by left|right].
    by apply negb_true_iff, Z.eqb_neq in Hq. }
  apply orb_false_iff in Hskip as [Hsk Hrk]. apply negb_false_iff, Z.eqb_eq in Hrk.
  rewrite pq_test_spec by done. obind.
  destruct (Z.ltb_spec (qt (ss_graph st) i) (p_of (gr_regs (ss_graph st)) (cls (ss_graph st) i)))
    as [Hpq|Hpq].
  - destruct (push_node_spec _ i Hg Hs Hi Hsk Hrk) as (g' & -> & Hpu). obind.
    eexists. split; [done|]. pose proof (pushed_count _ _ _ Hg Hs Hpu) as Hcount.
    pose proof (pushed_trivial _ _ _ Hg Hs Hi Hsk Hpu) as Htr. destruct Hpu as [P1 P2 P3 P4 P5 P6].
    split.
    + split; cbn; try done.
      * by eapply step_frame_trans.
      * intros m. by rewrite P5.
      * auto.
      * destruct (ss_progress st); [lia|]. rewrite Hp in *. lia.
    + intros m Hm. cbn. rewrite P6, <- Hinstk' by done.
      destruct (Z.eqb_spec i m) as [->|]; [set_solver|done].
  - eexists. split; [done|].
    assert (qt (ss_graph st) i < UINT_MAX) as Hqb.
    { rewrite (so_q _ Hs i Hi Hsk). by apply qsum_bounds. }
    destruct (Z.ltb_spec (qt (ss_graph st) i) (ss_lowest_q_total st)) as [Hlow|Hlow]; cbn.
    + split; [|done]. split; cbn; try done; [| |].
      * unfold UINT_MAX in *. pose proof (go_count g0 Hg0). lia.
      * intros _. rewrite <- Hinstk, <- Hr by done. done.
      * pose proof (go_count g0 Hg0). unfold UINT_MAX. lia.
    + split; [|done]. split; try done. intros Hpr Hbo. exfalso.
      apply Hl in Hbo. lia.
Qed.

Lemma simplify_pass_spec g :
  graph_ok g -> stack_ok g ->
  exists st, simplify_pass g = Some st /\
    pass_inv g (rev (zrange 0 (Z.to_nat (gr_count g)))) st.
Proof.
  intros Hg Hs. unfold simplify_pass.
  destruct (foldM_ind (fun visited st => pass_inv g visited st /\
      forall m, ~ m ∈ visited -> instk (ss_graph st) m = instk g m) simplify_node
    (rev (zrange 0 (Z.to_nat (gr_count g)))) (SimplifyState g false UINT_MAX UINT_MAX))
    as (st & Hst & Hinv & _).
  - split; [|done]. split; cbn; try done. intros _ _ i. set_solver.
  - intros l1 i l2 st Hsplit [Hinv Hin].
    assert (NoDup (rev (zrange 0 (Z.to_nat (gr_count g))))) as Hnd
      by apply NoDup_ListNoDup, List.NoDup_rev, NoDup_ListNoDup, NoDup_zrange.
    assert (i ∈ zrange 0 (Z.to_nat (gr_count g))) as Hir.
    { apply list_elem_of_In, in_rev, list_elem_of_In. rewrite Hsplit. set_solver. }
    apply elem_of_zrange in Hir. pose proof (go_count g Hg).
    rewrite Hsplit in Hnd. apply NoDup_app in Hnd as (_ & Hd & _).
    apply simplify_node_spec; try done.
    + lia.
    + intros Hi. apply (Hd i Hi). set_solver.
  - by exists st.
Qed.

(** What simplification leaves: every node that is not forced is on the stack. *)
Record simplified (g g' : ra_graph) (start : Z) : Prop := {
  si_graph : graph_ok g';
  si_stack : stack_ok g';
  si_frame : step_frame g g';
  si_reg : forall m, reg g' m = reg g m;
  si_settled : forall i, 0 <= i < gr_count g -> settled g' i;
  si_trivial : start = UINT_MAX -> trivial_stack g' }.

Lemma simplified_trans g1 g2 g3 start :
  step_frame g1 g2 -> (forall m, reg g2 m = reg g1 m) ->
  simplified g2 g3 start -> simplified g1 g3 start.
Proof.
  intros Hf Hr [S1 S2 S3 S4 S5 S6]. split; try done.
  - by eapply step_frame_trans.
  - intros m. by rewrite S4.
  - intros i Hi. apply S5. by rewrite (ss_count _ _ (sf_static _ _ Hf)).
Qed.

Lemma simplify_loop_spec fuel : forall g start,
  graph_ok g -> stack_ok g -> (start = UINT_MAX -> trivial_stack g) ->
  gr_count g - gr_stack_count g < Z.of_nat fuel ->
  exists g' start', simplify_loop fuel g start = Some (g', start') /\ simplified g g' start'.
Proof.
  induction fuel as [|fuel IH]; intros g start Hg Hs Ht Hfuel.
  { pose proof (so_count g Hs). lia. }
  destruct (simplify_pass_spec g Hg Hs) as (st & Hst & [P1 P2 P3 P4 P5 P6 P7 P8 P9]).
  cbn [simplify_loop]. rewrite Hst. obind. clear Hst.
  pose proof (ss_count _ _ (sf_static _ _ P3)) as Hcount.
  destruct (ss_progress st) eqn:Hprog.
  { destruct (IH (ss_graph st) start P1 P2) as (g' & start' & Heq & Hsi); [auto|lia|].
    exists g', start'. split; [done|]. by eapply simplified_trans. }
  rewrite P6 in *. destruct (Z.eqb_spec (ss_best_optimistic_node st) UINT_MAX) as [Hb|Hb].
  { exists g, start. split; [done|]. split; try done. intros i Hi. apply P9; [done|done|].
    apply list_elem_of_In. rewrite <- in_rev. apply list_elem_of_In, elem_of_zrange. lia. }
  destruct (P8 Hb) as (Hbr & Hbs & Hbreg). cbn [negb].
  destruct (push_node_spec g _ Hg Hs Hbr Hbs Hbreg) as (g1 & -> & Hpu). obind.
  pose proof (pushed_count _ _ _ Hg Hs Hpu) as Hc1. destruct Hpu as [U1 U2 U3 U4 U5 U6].
  pose proof (so_count g Hs). pose proof (go_count g Hg).
  edestruct IH as (g' & start' & Heq & Hsi); [exact U1|exact U2| | |].
  3:{ exists g', start'. split; [exact Heq|]. by eapply simplified_trans. }
  - destruct (Z.eqb_spec start UINT_MAX); unfold UINT_MAX in *; lia.
  - rewrite (ss_count _ _ (sf_static _ _ U3)). lia.
Qed.

Definition fresh_stack (g : ra_graph) : Prop :=
  gr_stack_count g = 0 /\ (forall n, instk g n = false) /\
  forall n, 0 <= n < gr_count g -> qt g n = qsum g (fun _ => false) n.

Lemma fresh_stack_ok g : graph_ok g -> fresh_stack g -> stack_ok g.
Proof.
  intros Hg (H0 & Hi & Hq). assert (stk g = []) as Hk by (unfold stk; by rewrite H0).
  split; rewrite ?Hk; try (intros; set_solver).
  - rewrite H0. pose proof (go_count g Hg). lia.
  - constructor.
  - intros n. rewrite Hi. set_solver.
  - intros n Hn _. rewrite (Hq n Hn). by apply qsum_static.
Qed.

Lemma ra_simplify_spec g :
  graph_ok g -> fresh_stack g ->
  exists g', ra_simplify g = Some g' /\ simplified g g' (gr_stack_optimistic_start g').
Proof.
  intros Hg Hfr. pose proof (fresh_stack_ok g Hg Hfr) as Hs. unfold ra_simplify.
  destruct (simplify_loop_spec (S (Z.to_nat (gr_count g))) g UINT_MAX Hg Hs) as (g' & start & -> & H).
  - intros _ l1 n l2 Hk. unfold stk in Hk. rewrite (proj1 Hfr) in Hk. cbn in Hk. by destruct l1.
  - pose proof (go_count g Hg). pose proof (proj1 Hfr). lia.
  - obind. eexists. split; [done|]. cbn. destruct H as [S1 S2 S3 S4 S5 S6].
    split; try done.
    + destruct S1. split; done.
    + destruct S2. split; done.
    + destruct S3 as [[] ? ?]. split; [split|..]; done.
Qed.

(** ** Selection *)

(** A neighbour that is back in the graph holds a register that [r] conflicts with. *)
Definition blocked (g : ra_graph) (n r : Z) : bool :=
  existsb (fun n2 => negb (instk g n2) && conflict (gr_regs g) r (reg g n2)) (adj g n).

(** The registers node [n] may take. *)
Definition available (g : ra_graph) (n r : Z) : bool :=
  in_class (gr_regs g) (cls g n) r && negb (blocked g n r).

(** Every neighbour of [n] that is back in the graph has a register. *)
Definition coloured_neighbours (g : ra_graph) (n : Z) : Prop :=
  forall n2, n2 ∈ adj g n -> instk g n2 = false -> 0 <= reg g n2 < rs_count (gr_regs g).

Lemma neighbors_conflict_spec g n nd r k :
  graph_ok g -> node g n = Some nd -> coloured_neighbours g n -> 0 <= r < rs_count (gr_regs g) ->
  (k <= length (adj g n))%nat ->
  neighbors_conflict_loop g nd r (zrange (Z.of_nat k) (length (adj g n) - k))
  = Some (existsb (fun n2 => negb (instk g n2) && conflict (gr_regs g) r (reg g n2))
            (drop k (adj g n))).
Proof.
  intros Hg Hnd Hcol Hr. remember (length (adj g n) - k)%nat as d eqn:Hd. revert k Hd.
  induction d as [|d IH]; intros k Hd Hk.
  { rewrite drop_ge by lia. done. }
  destruct (lookup_lt_is_Some_2 (adj g n) k) as [n2 Hn2]; [lia|].
  rewrite (drop_S _ n2 k Hn2), zrange_S. cbn [neighbors_conflict_loop existsb].
  replace (Z.of_nat k + 1) with (Z.of_nat (S k)) by lia. rewrite (IH (S k)) by lia.
  rewrite <- (view_node _ _ _ _ _ Hnd : adj g n = _), array_get_nat, Hn2. obind.
  assert (n2 ∈ adj g n) as Hin by by eapply list_elem_of_lookup_2.
  destruct (go_adj g Hg n n2 Hin) as [Hn2r _].
  destruct (node_is_Some g n2 Hg Hn2r) as [nd2 Hnd2]. rewrite Hnd2. obind.
  rewrite <- (view_node _ _ _ _ _ Hnd2 : instk g n2 = _),
    <- (view_node _ _ _ _ _ Hnd2 : reg g n2 = _).
  destruct (instk g n2) eqn:E; [done|]. cbn [negb andb].
  pose proof (go_regs g Hg) as Hok.
  destruct (array_get_is_Some (rs_regs (gr_regs g)) r) as [rg Hrg];
    [by rewrite (ro_length _ Hok)|].
  rewrite Hrg. obind. rewrite (conflict_test _ _ _ _ Hok Hrg) by by apply Hcol. obind.
  by destruct (conflict _ _ _).
Qed.

Lemma any_neighbors_conflict_spec g n r :
  graph_ok g -> 0 <= n < gr_count g -> coloured_neighbours g n ->
  0 <= r < rs_count (gr_regs g) -> ra_any_neighbors_conflict g n r = Some (blocked g n r).
Proof.
  intros Hg Hn Hcol Hr. destruct (node_is_Some g n Hg Hn) as [nd Hnd].
  unfold ra_any_neighbors_conflict. rewrite Hnd. obind.
  rewrite (go_adj_count g Hg n nd Hnd), Nat2Z.id,
    <- (view_node _ _ _ _ _ Hnd : adj g n = _).
  pose proof (neighbors_conflict_spec g n nd r 0 Hg Hnd Hcol Hr) as H.
  rewrite Nat.sub_0_r in H. exact (H ltac:(lia)).
Qed.

(** The search visits the registers in rotated order and takes the first
    available one. *)
Lemma search_reg_spec g n cl start fuel : forall ri,
  graph_ok g -> 0 <= n < gr_count g -> coloured_neighbours g n ->
  array_get (rs_classes (gr_regs g)) (cls g n) = Some cl ->
  0 <= start <= rs_count (gr_regs g) -> 0 <= ri <= rs_count (gr_regs g) ->
  rs_count (gr_regs g) - ri < Z.of_nat fuel ->
  exists res, search_reg fuel g cl n start ri = Some res /\
  match res with
  | Some r => 0 <= r < rs_count (gr_regs g) /\ available g n r = true
  | None => forall k, ri <= k < rs_count (gr_regs g) ->
      available g n ((start + k) mod rs_count (gr_regs g)) = false
  end.
Proof.
  induction fuel as [|fuel IH]; intros ri Hg Hn Hcol Hcl Hstart Hri Hfuel.
  { lia. }
  pose proof (go_regs g Hg) as Hok. pose proof (ro_count _ Hok) as Hcount.
  cbn [search_reg]. destruct (Z.ltb_spec ri (rs_count (gr_regs g))) as [Hlt|Hge].
  2:{ exists None. split; [done|]. lia. }
  rewrite u32_small by lia. set (r := (start + ri) mod rs_count (gr_regs g)).
  assert (0 <= r < rs_count (gr_regs g)) as Hr by (apply Z.mod_pos_bound; lia).
  rewrite (belongs_spec _ _ _ _ Hok Hcl Hr). obind.
  destruct (IH (ri + 1) Hg Hn Hcol Hcl Hstart ltac:(lia) ltac:(lia)) as (res & Hres & Hspec).
  assert (available g n r = false -> exists res0,
    search_reg fuel g cl n start (ri + 1) = Some res0 /\
    match res0 with
    | Some r0 => 0 <= r0 < rs_count (gr_regs g) /\ available g n r0 = true
    | None => forall k, ri <= k < rs_count (gr_regs g) ->
        available g n ((start + k) mod rs_count (gr_regs g)) = false
    end) as Hnext.
  { intros Hav. exists res. split; [done|]. destruct res; [done|]. intros k Hk.
    destruct (Z.eq_dec k ri) as [->|]; [done|]. apply Hspec. lia. }
  unfold available in Hnext at 1. destruct (in_class (gr_regs g) (cls g n) r) eqn:Hic; cbn [negb].
  - rewrite any_neighbors_conflict_spec by done. obind.
    destruct (blocked g n r) eqn:Hb; cbn [negb]; [by apply Hnext|].
    exists (Some r). split; [done|]. split; [done|]. unfold available. by rewrite Hic, Hb.
  - by apply Hnext.
Qed.

Lemma rotate_surj c start r :
  0 < c -> 0 <= r < c -> exists k, 0 <= k < c /\ (start + k) mod c = r.
Proof.
  intros Hc Hr. exists ((r - start) mod c). split; [by apply Z.mod_pos_bound|].
  rewrite Zplus_mod_idemp_r. replace (start + (r - start)) with r by lia. by apply Z.mod_small.
Qed.

(** ** The available registers as a bit set *)

Lemma bmem_nonneg x b : bmem x b = true -> 0 <= b.
Proof.
  unfold bmem. destruct (array_get x (BITSET_BITWORD b)) eqn:E; [|done]. intros _.
  apply array_get_lt in E as [E _]. unfold BITSET_BITWORD, BITSET_WORDBITS in E.
  destruct (Z.le_gt_cases 0 b); [done|]. pose proof (Z.div_lt_upper_bound b 32 0). lia.
Qed.

Lemma testbit_andnot w c i :
  0 <= w < 2 ^ 32 -> 0 <= i -> Z.testbit (Z.land w (u32 (Z.lnot c))) i
  = Z.testbit w i && negb (Z.testbit c i).
Proof.
  intros Hw Hi. rewrite Z.land_spec. unfold u32. destruct (Z.lt_ge_cases i 32).
  - rewrite Z.mod_pow2_bits_low, Z.lnot_spec by lia. done.
  - assert (Z.testbit w i = false) as ->; [|done].
    replace w with (w mod 2 ^ 32) by (apply Z.mod_small; lia). apply Z.mod_pow2_bits_high. lia.
Qed.

(** The inner loop clears one register's conflicts. *)
Lemma clear_words n (x c : list Z) :
  0 <= n < 2 ^ 31 -> bs_ok n x -> bs_ok n c ->
  exists x', foldM (fun regs j => w ← array_get regs j; cw ← array_get c j;
      array_set regs j (Z.land w (u32 (Z.lnot cw)))) x
      (zrange 0 (Z.to_nat (BITSET_WORDS n))) = Some x' /\ bs_ok n x' /\
    forall b, bmem x' b = bmem x b && negb (bmem c b).
Proof.
  intros Hn Hx Hc. pose proof (words_bounds n Hn) as Hwb.
  destruct (foldM_ind (fun l1 x1 => bs_ok n x1 /\ forall i, array_get x1 i =
      if i <? Z.of_nat (length l1) then
        w ← array_get x i; cw ← array_get c i; Some (Z.land w (u32 (Z.lnot cw)))
      else array_get x i)
    (fun regs j => w ← array_get regs j; cw ← array_get c j;
      array_set regs j (Z.land w (u32 (Z.lnot cw))))
    (zrange 0 (Z.to_nat (BITSET_WORDS n))) x) as (x' & Hx' & Hok & Hget).
  - split; [done|]. intros i. destruct (Z.ltb_spec i (Z.of_nat (length (@nil Z)))); [|done].
    cbn in *. unfold array_get. by replace (0 <=? i) with false by lia.
  - intros l1 j l2 x1 [-> Hlt]%zrange_split [Hok Hget]. rewrite Z.add_0_l.
    rewrite Hget. replace (Z.of_nat (length l1) <? _) with false by lia.
    destruct (array_get_is_Some x (Z.of_nat (length l1))) as [w Hw]; [destruct Hx; lia|].
    destruct (array_get_is_Some c (Z.of_nat (length l1))) as [cw Hcw]; [destruct Hc; lia|].
    rewrite Hw, Hcw. obind. destruct Hok as [Hlen HF].
    destruct (array_set x1 (Z.of_nat (length l1)) (Z.land w (u32 (Z.lnot cw)))) as [x2|] eqn:Hset;
      [|rewrite array_set_Some in Hset by lia; done].
    exists x2. split; [done|]. split.
    + apply array_set_inv in Hset as [_ ->].
      split; [by rewrite length_insert|]. apply Forall_insert; [done|].
      apply array_get_Some in Hw as [_ Hw]. destruct Hx as [_ HFx].
      pose proof (Forall_lookup_1 _ _ _ _ HFx Hw) as Hwr. cbn in Hwr.
      apply land_bound; [lia|done].
    + intros i. rewrite length_app. cbn [length].
      rewrite (array_get_set _ _ _ i _ Hset), Hget. destruct (Z.eqb_spec (Z.of_nat (length l1)) i) as [<-|Hne].
      * rewrite Hw, Hcw. destruct (Z.ltb_spec (Z.of_nat (length l1)) (Z.of_nat (length l1 + 1)));
          [done|lia].
      * destruct (Z.ltb_spec i (Z.of_nat (length l1))), (Z.ltb_spec i (Z.of_nat (length l1 + 1)));
          done || lia.
  - exists x'. split; [done|]. split; [done|]. intros b. unfold bmem. rewrite Hget, zrange_length.
    destruct Hx as [Hxl HF], Hc as [Hcl _].
    destruct (array_get x (BITSET_BITWORD b)) as [w|] eqn:Hw.
    + pose proof (array_get_lt _ _ _ Hw) as Hr.
      destruct (array_get_is_Some c (BITSET_BITWORD b)) as [cw Hcw]; [lia|].
      rewrite Hcw. rewrite (proj2 (Z.ltb_lt (BITSET_BITWORD b) _)) by lia. obind.
      apply array_get_Some in Hw as [_ Hw]. pose proof (Forall_lookup_1 _ _ _ _ HF Hw).
      apply testbit_andnot; [done|]. by apply Z.mod_pos_bound.
    + by destruct (_ <? _).
Qed.

Lemma mapM_array_get_all {A} (l : list A) :
  mapM (array_get l) (zrange 0 (length l)) = Some l.
Proof.
  enough (forall l1 l2, l = l1 ++ l2 ->
    mapM (array_get l) (zrange (Z.of_nat (length l1)) (length l2)) = Some l2) as H
    by exact (H [] l eq_refl).
  intros l1 l2. revert l1. induction l2 as [|x l2 IH]; intros l1 Hl; [done|].
  cbn [length]. rewrite zrange_S. cbn [mapM]. rewrite array_get_nat.
  rewrite Hl at 1. rewrite list_lookup_middle by done. obind.
  specialize (IH (l1 ++ [x])). rewrite length_app in IH. cbn in IH.
  replace (Z.of_nat (length l1) + 1) with (Z.of_nat (length l1 + 1)) by lia.
  rewrite IH; [done|]. by rewrite <- app_assoc.
Qed.

(** Conflicts are mutual. *)
Definition conflict_sym (rs : ra_regs) : Prop :=
  forall r1 r2, 0 <= r1 < rs_count rs -> 0 <= r2 < rs_count rs ->
    conflict rs r1 r2 = conflict rs r2 r1.

(** Classes hold registers of the set only. *)
Definition classes_in_range (rs : ra_regs) : Prop :=
  forall c r, in_class rs c r = true -> 0 <= r < rs_count rs.

Lemma existsb_ext_in {A} (f g : A -> bool) l :
  (forall x, x ∈ l -> f x = g x) -> existsb f l = existsb g l.
Proof.
  induction l as [|x l IH]; intros H; [done|]. cbn.
  rewrite H, IH by (intros; try apply H; set_solver). done.
Qed.

Definition removed (g : ra_graph) (L : list Z) (b : Z) : bool :=
  existsb (fun n2 => negb (instk g n2) && conflict (gr_regs g) (reg g n2) b) L.

Lemma available_words g n nd x :
  graph_ok g -> node g n = Some nd -> coloured_neighbours g n ->
  bs_ok (rs_count (gr_regs g)) x ->
  exists x', foldM (fun regs i =>
      n2 ← array_get (nd_adjacency_list nd) i;
      nd2 ← array_get (gr_nodes g) n2;
      if negb (nd_in_stack nd2) then
        reg ← array_get (rs_regs (gr_regs g)) (nd_reg nd2);
        foldM (fun regs j =>
          w ← array_get regs j; cw ← array_get (rg_conflicts reg) j;
          array_set regs j (Z.land w (u32 (Z.lnot cw)))) regs
          (zrange 0 (Z.to_nat (BITSET_WORDS (rs_count (gr_regs g)))))
      else Some regs)
      x (zrange 0 (length (adj g n))) = Some x' /\ bs_ok (rs_count (gr_regs g)) x' /\
    forall b, bmem x' b = bmem x b && negb (removed g (adj g n) b).
Proof.
  intros Hg Hnd Hcol Hx. pose proof (go_regs g Hg) as Hok. pose proof (ro_count _ Hok) as Hc.
  match goal with |- context [foldM ?f x ?l] => destruct (foldM_ind (fun l1 x1 =>
      bs_ok (rs_count (gr_regs g)) x1 /\ forall b, bmem x1 b =
        bmem x b && negb (removed g (take (length l1) (adj g n)) b)) f l x)
    as (x' & Hx' & Hbs & Hm) end.
  - split; [done|]. intros b. cbn. by rewrite andb_true_r.
  - intros l1 i l2 x1 [-> Hlt]%zrange_split [Hbs Hm]. rewrite Z.add_0_l.
    destruct (lookup_lt_is_Some_2 _ _ Hlt) as [n2 Hn2].
    rewrite <- (view_node _ _ _ _ _ Hnd : adj g n = _), array_get_nat, Hn2. obind.
    assert (n2 ∈ adj g n) as Hin by by eapply list_elem_of_lookup_2.
    destruct (go_adj g Hg n n2 Hin) as [Hn2r _].
    destruct (node_is_Some g n2 Hg Hn2r) as [nd2 Hnd2]. rewrite Hnd2. obind.
    rewrite <- (view_node _ _ _ _ _ Hnd2 : instk g n2 = _),
      <- (view_node _ _ _ _ _ Hnd2 : reg g n2 = _).
    assert (take (length (l1 ++ [Z.of_nat (length l1)])) (adj g n)
      = take (length l1) (adj g n) ++ [n2]) as ->.
    { rewrite length_app, Nat.add_1_r. by apply take_S_r. }
    destruct (instk g n2) eqn:Hst; cbn [negb].
    + exists x1. split; [done|]. split; [done|]. intros b. rewrite Hm. unfold removed.
      rewrite existsb_app. cbn. by rewrite Hst, orb_false_r.
    + specialize (Hcol n2 Hin Hst).
      destruct (array_get_is_Some (rs_regs (gr_regs g)) (reg g n2)) as [rg Hrg];
        [by rewrite (ro_length _ Hok)|]. rewrite Hrg. obind.
      destruct (clear_words _ x1 (rg_conflicts rg) Hc Hbs) as (x2 & Hx2 & Hbs2 & Hm2);
        [by eapply ro_conflicts|].
      exists x2. split; [done|]. split; [done|]. intros b. rewrite Hm2, Hm. unfold removed.
      rewrite existsb_app. cbn [existsb]. rewrite Hst, orb_false_r. cbn [negb andb].
      unfold conflict at 3. rewrite Hrg. cbn. by rewrite negb_orb, andb_assoc.
  - exists x'. split; [done|]. split; [done|]. intros b. rewrite Hm, zrange_length, take_ge; done.
Qed.

Lemma nonzero_word n x :
  0 <= n < 2 ^ 31 -> bs_ok n x ->
  existsb (fun w => negb (w =? 0)) x = true <-> exists b, bmem x b = true.
Proof.
  intros Hn [Hl HF]. rewrite existsb_exists. split.
  - intros (w & Hin & Hw). apply list_elem_of_In, list_elem_of_lookup in Hin as [i Hi].
    pose proof (Forall_lookup_1 _ _ _ _ HF Hi) as Hr. cbn in Hr.
    assert (0 < w) as Hpos by lia. assert (0 <= Z.log2 w < 32) as Hlog.
    { split; [apply Z.log2_nonneg|]. apply Z.log2_lt_pow2; lia. }
    exists (32 * Z.of_nat i + Z.log2 w). unfold bmem, BITSET_BITWORD, BITSET_WORDBITS.
    replace ((32 * Z.of_nat i + Z.log2 w) / 32) with (Z.of_nat i)
      by (rewrite Z.mul_comm, Z.div_add_l, Z.div_small by lia; lia).
    rewrite array_get_nat, Hi.
    replace ((32 * Z.of_nat i + Z.log2 w) mod 32) with (Z.log2 w)
      by (rewrite Z.add_comm, Z.mul_comm, Z.mod_add, Z.mod_small by lia; done).
    apply Z.bit_log2. lia.
  - intros (b & Hb). unfold bmem in Hb.
    destruct (array_get x (BITSET_BITWORD b)) as [w|] eqn:Hw; [|done].
    apply array_get_Some in Hw as [_ Hw]. exists w. split.
    + apply list_elem_of_In. by eapply list_elem_of_lookup_2.
    + destruct (Z.eqb_spec w 0) as [->|]; [by rewrite Z.bits_0 in Hb|done].
Qed.

Lemma compute_available_regs_spec g n :
  graph_ok g -> conflict_sym (gr_regs g) -> classes_in_range (gr_regs g) ->
  0 <= n < gr_count g -> coloured_neighbours g n ->
  exists x b, ra_compute_available_regs g n = Some (x, b) /\
    (forall r, bmem x r = available g n r) /\
    (b = true <-> exists r, available g n r = true).
Proof.
  intros Hg Hsym Hrange Hn Hcol. destruct (node_is_Some g n Hg Hn) as [nd Hnd].
  pose proof (go_regs g Hg) as Hok. unfold ra_compute_available_regs. rewrite Hnd. obind.
  pose proof (go_class g Hg n Hn) as Hcr.
  destruct (array_get_is_Some (rs_classes (gr_regs g)) (cls g n)) as [cl Hcl];
    [by rewrite (ro_class_length _ Hok)|].
  rewrite <- (view_node _ _ _ _ _ Hnd : cls g n = _), Hcl. obind.
  pose proof (ro_class _ Hok _ _ Hcl) as Hcb.
  assert (mapM (array_get (cl_regs cl))
    (zrange 0 (Z.to_nat (BITSET_WORDS (rs_count (gr_regs g))))) = Some (cl_regs cl)) as ->.
  { rewrite <- (mapM_array_get_all (cl_regs cl)) at 1. do 2 f_equal. destruct Hcb. lia. }
  obind.
  rewrite (go_adj_count g Hg n nd Hnd), Nat2Z.id.
  destruct (available_words g n nd (cl_regs cl) Hg Hnd Hcol Hcb) as (x & Hx & Hbs & Hm).
  rewrite (view_node _ _ _ _ _ Hnd : adj g n = _) in Hx. cbv zeta. rewrite Hx. obind.
  exists x, (existsb (fun w => negb (w =? 0)) x). split; [done|].
  assert (forall r, bmem x r = available g n r) as Hav.
  { intros r. rewrite Hm. unfold available. unfold in_class at 1. rewrite Hcl. cbn.
    destruct (bmem (cl_regs cl) r) eqn:Hr; [|done]. cbn. f_equal. unfold removed, blocked.
    assert (0 <= r < rs_count (gr_regs g)).
    { apply (Hrange (cls g n)). unfold in_class. by rewrite Hcl. }
    apply existsb_ext_in. intros n2 Hn2. destruct (instk g n2) eqn:Hst; [done|]. cbn.
    apply Hsym; [|done]. by apply Hcol. }
  split; [done|]. rewrite (nonzero_word _ _ (ro_count _ Hok) Hbs). by setoid_rewrite Hav.
Qed.
