(* ===== verification/RegAllocSelect.v ===== *)
(** * Selection and the theorems on allocation ([src/util/register_allocate.c])

    Popping the stack keeps the colouring valid, and cannot get stuck when every
    node passed the pq test (the theorem of Runeson and Nyström). *)
From S2P Require Import Prelude Bitset RegAlloc RegAllocCorrect.

(** ** The pq criterion *)

Notation all_regs rs := (zrange 0 (Z.to_nat (rs_count rs))).

(** p and q count what they are meant to count: p(B) the registers of B, and
    q(B,C) at least the registers of B that one register of C conflicts with. *)
Record pq_regs (rs : ra_regs) : Prop := {
  pq_sym : conflict_sym rs;
  pq_range : classes_in_range rs;
  pq_p : forall c, 0 <= c < rs_class_count rs ->
    p_of rs c = count_if (in_class rs c) (all_regs rs);
  pq_q : forall b c rc, 0 <= b < rs_class_count rs -> in_class rs c rc = true ->
    count_if (fun rb => in_class rs b rb && conflict rs rc rb) (all_regs rs) <= q_of rs b c }.

Lemma count_if_le {A} (f g : A -> bool) l :
  (forall x, x ∈ l -> f x = true -> g x = true) -> count_if f l <= count_if g l.
Proof.
  induction l as [|x l IH]; intros H; [done|]. rewrite !count_if_cons.
  assert (count_if f l <= count_if g l) by (apply IH; intros y Hy; apply H; set_solver).
  pose proof (H x ltac:(set_solver)) as Hx. destruct (f x), (g x); naive_solver lia.
Qed.

Lemma count_if_none {A} (f : A -> bool) l : (forall x, f x = false) -> count_if f l = 0.
Proof. intros H. induction l as [|x l IH]; [done|]. rewrite count_if_cons, H, IH. done. Qed.

(** A union bound: elements covered by one of a list of sets. *)
Lemma count_if_existsb {A B} (P : A -> bool) (f : B -> A -> bool) (l : list A) (bs : list B) :
  count_if (fun x => P x && existsb (fun b => f b x) bs) l
  <= sumZ (fun b => count_if (fun x => P x && f b x) l) bs.
Proof.
  induction bs as [|b bs IH].
  { rewrite count_if_none; [done|]. intros x. apply andb_false_r. }
  rewrite sumZ_cons. etransitivity; [|apply Z.add_le_mono_l, IH]. clear IH.
  induction l as [|x l IH]; [done|]. rewrite !count_if_cons. cbn [existsb] in *.
  destruct (P x), (f b x), (existsb (fun b => f b x) bs); cbn in *; lia.
Qed.

Lemma count_if_split {A} (f g : A -> bool) l :
  count_if f l = count_if (fun x => f x && g x) l + count_if (fun x => f x && negb (g x)) l.
Proof.
  induction l as [|x l IH]; [done|]. rewrite !count_if_cons, IH.
  destruct (f x), (g x); cbn; lia.
Qed.

Lemma count_if_pos {A} (f : A -> bool) l :
  0 < count_if f l -> exists x, x ∈ l /\ f x = true.
Proof.
  induction l as [|x l IH]; [unfold count_if; cbn; lia|]. rewrite count_if_cons.
  destruct (f x) eqn:E; cbn; intros H; [exists x; set_solver|].
  destruct IH as (y & Hy & ?); [lia|]. exists y. set_solver.
Qed.

(** The pq theorem for one node: if the q sum over the coloured neighbours is
    below p, and these hold registers of their classes, a register is left. *)
Lemma pq_available g n :
  graph_ok g -> pq_regs (gr_regs g) -> 0 <= n < gr_count g ->
  (forall n2, n2 ∈ adj g n -> instk g n2 = false ->
     0 <= reg g n2 < rs_count (gr_regs g) /\ in_class (gr_regs g) (cls g n2) (reg g n2) = true) ->
  qsum g (instk g) n < p_of (gr_regs g) (cls g n) ->
  exists r, available g n r = true.
Proof.
  intros Hg Hpq Hn Hcol Hlt. set (rs := gr_regs g) in *.
  rewrite (pq_p rs Hpq) in Hlt by by apply Hg.
  rewrite (count_if_split _ (blocked g n)) in Hlt.
  destruct (count_if_pos (fun r => in_class rs (cls g n) r && negb (blocked g n r)) (all_regs rs))
    as (r & _ & Hr); [|by exists r].
  enough (count_if (fun r => in_class rs (cls g n) r && blocked g n r) (all_regs rs)
          <= qsum g (instk g) n) by lia.
  unfold blocked. etransitivity; [apply (count_if_existsb (in_class rs (cls g n))
    (fun n2 r => negb (instk g n2) && conflict rs r (reg g n2)))|].
  apply sumZ_le. intros n2 Hin. destruct (instk g n2) eqn:Hst; cbn [negb andb].
  { rewrite count_if_none; [done|]. intros x. apply andb_false_r. }
  destruct (Hcol n2 Hin Hst) as [Hr Hc].
  etransitivity; [|apply (pq_q rs Hpq _ _ _ (go_class g Hg n Hn) Hc)].
  apply count_if_le. intros x Hx [H1 H2]%andb_prop. apply elem_of_zrange in Hx.
  pose proof (ro_count _ (go_regs g Hg)) as Hc'. change (gr_regs g) with rs in Hc'.
  rewrite H1, (pq_sym rs Hpq) by lia. done.
Qed.

(** ** One step of selection *)

Lemma pop_views g n g1 :
  nodes_by g (fun m nd => if n =? m then nd_set_in_stack false nd else nd) g1 ->
  (forall m, reg g1 m = reg g m) /\
  (forall m, instk g1 m = negb (n =? m) && instk g m).
Proof.
  intros [_ H]. split; intros m; unfold reg, instk; rewrite H; destruct (node g m); cbn;
    destruct (n =? m); done.
Qed.

Lemma colour_views g n r g2 :
  nodes_by g (fun m nd => if n =? m then nd_set_reg r nd else nd) g2 ->
  (exists nd, node g n = Some nd) ->
  (forall m, reg g2 m = if n =? m then r else reg g m) /\
  (forall m, instk g2 m = instk g m).
Proof.
  intros [_ H] [nd0 Hn]. split; intros m; unfold reg, instk; rewrite H;
    destruct (Z.eqb_spec n m) as [<-|]; rewrite ?Hn; try done; destruct (node g m); done.
Qed.

Record sel_inv (g0 g : ra_graph) : Prop := {
  sv_graph : graph_ok g;
  sv_frame : step_frame g0 g;
  sv_count : 0 <= gr_stack_count g <= gr_count g;
  sv_stk : stk g `prefix_of` stk g0;
  sv_in : forall n, instk g n = true <-> n ∈ stk g;
  sv_forced : forall n, reg g0 n <> NO_REG -> reg g n = reg g0 n;
  sv_colour : forall n, 0 <= n < gr_count g -> instk g n = false ->
    0 <= reg g n < rs_count (gr_regs g);
  sv_class : forall n, 0 <= n < gr_count g -> instk g n = false -> reg g0 n = NO_REG ->
    in_class (gr_regs g) (cls g n) (reg g n) = true;
  sv_valid : forall n n2, n2 ∈ adj g n -> instk g n = false -> instk g n2 = false ->
    reg g0 n = NO_REG \/ reg g0 n2 = NO_REG ->
    conflict (gr_regs g) (reg g n) (reg g n2) = false }.

Section Select.
Context {M : Type} (call : Z -> M -> ra_graph -> list Z -> Z -> M * Z).

(** What selection needs of the driver's callback: it picks one of the registers
    it is offered. *)
Definition callback_ok (f : Z) : Prop :=
  f <> 0 -> forall m g regs data, (exists r, bmem regs r = true) ->
    bmem regs (call f m g regs data).2 = true.

(** The part of [select_loop] that finds a register. *)
Definition find_reg (m : M) (g : ra_graph) (c : ra_class) (n start : Z) : option (M * option Z) :=
  if negb (gr_select_reg_callback g =? 0) then
    '(select_regs, available) ← ra_compute_available_regs g n;
    if negb available then Some (m, None) else
    let '(m, r) := call (gr_select_reg_callback g) m g select_regs
                     (gr_select_reg_callback_data g) in
    Some (m, Some r)
  else
    r ← search_reg (S (Z.to_nat (rs_count (gr_regs g)))) g c n start 0;
    Some (m, r).

Lemma find_reg_spec m g c n start :
  graph_ok g -> conflict_sym (gr_regs g) -> classes_in_range (gr_regs g) ->
  callback_ok (gr_select_reg_callback g) ->
  0 <= n < gr_count g -> coloured_neighbours g n ->
  array_get (rs_classes (gr_regs g)) (cls g n) = Some c ->
  0 <= start <= rs_count (gr_regs g) ->
  exists m' res, find_reg m g c n start = Some (m', res) /\
  match res with
  | Some r => 0 <= r < rs_count (gr_regs g) /\ available g n r = true
  | None => forall r, available g n r = false
  end.
Proof.
  intros Hg Hsym Hrange Hcb Hn Hcol Hc Hstart. unfold find_reg.
  assert (forall r, available g n r = true -> 0 <= r < rs_count (gr_regs g)) as Hav.
  { intros r [Hr _]%andb_prop. by eapply Hrange. }
  destruct (Z.eqb_spec (gr_select_reg_callback g) 0) as [Hz|Hz]; cbn [negb].
  - pose proof (ro_count _ (go_regs g Hg)) as Hcount.
    destruct (search_reg_spec g n c start (S (Z.to_nat (rs_count (gr_regs g)))) 0)
      as (res & -> & Hres); [done..|lia|lia|]. obind.
    exists m, res. split; [done|]. destruct res as [r|]; [done|]. intros r.
    destruct (available g n r) eqn:Ha; [|done]. pose proof (Hav r Ha) as Hr.
    destruct (rotate_surj (rs_count (gr_regs g)) start r) as (k & Hk & <-); [lia|lia|].
    by rewrite Hres in Ha.
  - destruct (compute_available_regs_spec g n) as (x & b & -> & Hx & Hb); [done..|]. obind.
    destruct b; cbn [negb].
    + destruct (call _ m g x _) as [m' r] eqn:Hcall. exists m', (Some r). split; [done|].
      destruct (proj1 Hb eq_refl) as [r0 Hr0]. rewrite <- Hx in Hr0.
      pose proof (Hcb Hz m g x (gr_select_reg_callback_data g) (ex_intro _ r0 Hr0)) as Hsel.
      rewrite Hcall in Hsel. cbn in Hsel. rewrite Hx in Hsel. auto.
    + exists m, None. split; [done|]. intros r. destruct (available g n r) eqn:Ha; [|done].
      by discriminate (proj2 Hb (ex_intro _ r Ha)).
Qed.

Lemma prefix_NoDup {A} (l1 l2 : list A) : l1 `prefix_of` l2 -> NoDup l2 -> NoDup l1.
Proof. intros [k ->] [H _]%NoDup_app. done. Qed.

(** Popping the top of the stack. *)
Lemma stk_pop g l n :
  graph_ok g -> 0 <= gr_stack_count g <= gr_count g -> stk g = l ++ [n] ->
  gr_stack_count g <> 0 /\ array_get (gr_stack g) (gr_stack_count g - 1) = Some n /\
  take (Z.to_nat (gr_stack_count g - 1)) (gr_stack g) = l.
Proof.
  intros Hg Hc Hk. pose proof (go_stack g Hg) as Hlen.
  assert (length (stk g) = Z.to_nat (gr_stack_count g)) as Hl.
  { unfold stk. rewrite length_take. lia. }
  rewrite Hk, length_app in Hl. cbn in Hl. split; [lia|].
  replace (gr_stack_count g - 1) with (Z.of_nat (length l)) by lia. split.
  - rewrite array_get_nat. assert (stk g !! length l = Some n) as H
      by by rewrite Hk, list_lookup_middle.
    unfold stk in H. by apply lookup_take_Some in H as [? _].
  - rewrite Nat2Z.id. transitivity (take (length l) (stk g)).
    + unfold stk. rewrite take_take. f_equal. lia.
    + rewrite Hk. by rewrite take_app_length.
Qed.

(** The graph between the pop and the choice of a register. *)
Record popped (g0 g : ra_graph) (l : list Z) (n : Z) (g1 : ra_graph) : Prop := {
  po_graph : graph_ok g1;
  po_frame : step_frame g g1;
  po_stack : gr_stack g1 = gr_stack g;
  po_count : gr_stack_count g1 = gr_stack_count g;
  po_range : 0 <= n < gr_count g;
  po_free : reg g0 n = NO_REG;
  po_reg : forall m, reg g1 m = reg g m;
  po_instk : forall m, instk g1 m = negb (n =? m) && instk g m;
  po_in : forall m, instk g1 m = true <-> m ∈ l;
  po_coloured : coloured_neighbours g1 n }.

Lemma pop_node g0 g l n :
  stack_ok g0 -> sel_inv g0 g -> stk g = l ++ [n] ->
  exists g1, upd_node g n (nd_set_in_stack false) = Some g1 /\ popped g0 g l n g1.
Proof.
  intros Hs0 [Hg Hf Hc Hpre Hin Hfo Hco Hcl Hva] Hk.
  assert (n ∈ stk g0) as Hn0.
  { apply (elem_of_prefix _ _ _ (ltac:(rewrite Hk; set_solver) : n ∈ stk g) Hpre). }
  pose proof (so_range g0 Hs0 n Hn0) as Hn. rewrite <- (ss_count _ _ (sf_static _ _ Hf)) in Hn.
  destruct (upd_node_by g _ g n (nd_set_in_stack false) (nodes_by_refl g)
    (node_is_Some g n Hg Hn)) as (g1 & Hu & Hby).
  destruct (pop_views g n g1 Hby) as [Hr1 Hi1]. exists g1. split; [done|].
  assert (keeps_static (fun m nd => if n =? m then nd_set_in_stack false nd else nd)) as HS.
  { intros m nd. by destruct (n =? m). }
  pose proof (nodes_by_static _ _ _ HS Hby) as Hst.
  assert (forall m, instk g1 m = true <-> m ∈ l) as Hl.
  { intros m. rewrite Hi1, andb_true_iff, Hin, Hk, elem_of_app, list_elem_of_singleton.
    rewrite negb_true_iff, Z.eqb_neq.
    assert (NoDup (l ++ [n])) as [_ [Hd _]]%NoDup_app
      by (rewrite <- Hk; eapply prefix_NoDup; [exact Hpre|apply Hs0]).
    specialize (Hd m). set_solver. }
  split; try done.
  - by eapply nodes_by_graph_ok.
  - split; [done|by rewrite (proj1 Hby)..].
  - by rewrite (proj1 Hby).
  - by rewrite (proj1 Hby).
  - by apply Hs0.
  - intros n2 Hn2 Hst2. rewrite (ss_adj _ _ Hst) in Hn2. rewrite Hr1, (ss_regs _ _ Hst).
    rewrite Hi1 in Hst2. destruct (go_adj g Hg n n2 Hn2) as (Hr2 & Hne & _).
    apply Hco; [done|]. apply andb_false_iff in Hst2 as [H|H]; [|done].
    apply negb_false_iff, Z.eqb_eq in H. congruence.
Qed.

Lemma blocked_false g n r n2 :
  blocked g n r = false -> n2 ∈ adj g n -> instk g n2 = false ->
  conflict (gr_regs g) r (reg g n2) = false.
Proof.
  unfold blocked. intros Hb Hin Hst.
  destruct (conflict (gr_regs g) r (reg g n2)) eqn:E; [|done].
  rewrite <- Hb. symmetry. apply existsb_exists. exists n2.
  split; [by apply list_elem_of_In|]. by rewrite Hst, E.
Qed.

(** Colouring the popped node keeps the colouring valid. *)
Lemma colour_node g0 g l n g1 r :
  conflict_sym (gr_regs g0) -> sel_inv g0 g -> stk g = l ++ [n] -> popped g0 g l n g1 ->
  0 <= r < rs_count (gr_regs g1) -> available g1 n r = true ->
  exists g2, upd_node g1 n (nd_set_reg r) = Some g2 /\
    let g3 := set_stack g2 (gr_stack g2) (gr_stack_count g2 - 1) in
    sel_inv g0 g3 /\ stk g3 = l.
Proof.
  intros Hsym Hv Hk Hp Hr Hav. destruct Hv as [Hg Hf Hc Hpre Hin Hfo Hco Hcl Hva].
  destruct Hp as [Hg1 Hf1 Hst1 Hc1 Hn Hfree Hr1 Hi1 Hl Hcol].
  pose proof (sf_static _ _ Hf1) as Hs1. apply andb_prop in Hav as [Hic Hbl].
  apply negb_true_iff in Hbl.
  assert (exists nd, node g1 n = Some nd) as Hnode.
  { apply node_is_Some; [done|]. by rewrite (ss_count _ _ Hs1). }
  destruct (upd_node_by g1 _ g1 n (nd_set_reg r) (nodes_by_refl g1) Hnode) as (g2 & Hu & Hby).
  exists g2. split; [done|]. cbv zeta.
  destruct (colour_views g1 n r g2 Hby Hnode) as [Hr2 Hi2].
  assert (keeps_static (fun m nd => if n =? m then nd_set_reg r nd else nd)) as HS.
  { intros m nd. by destruct (n =? m). }
  pose proof (nodes_by_static _ _ _ HS Hby) as Hs2.
  destruct (stk_pop g l n Hg Hc Hk) as (Hnz & _ & Htake).
  assert (gr_stack g2 = gr_stack g /\ gr_stack_count g2 = gr_stack_count g) as [Est Ect].
  { rewrite (proj1 Hby). done. }
  set (g3 := set_stack g2 (gr_stack g2) (gr_stack_count g2 - 1)).
  assert (stk g3 = l) as Hk3 by (unfold stk, g3; cbn; by rewrite Est, Ect).
  assert (same_static g1 g3) as Hs3 by (destruct Hs2; by split).
  assert (forall m, instk g3 m = instk g1 m) as Hi3 by exact Hi2.
  assert (forall m, reg g3 m = if n =? m then r else reg g m) as Hr3.
  { intros m. rewrite <- Hr1. apply Hr2. }
  assert (gr_regs g3 = gr_regs g1) as ER3 by apply Hs3.
  assert (gr_regs g1 = gr_regs g) as ER1 by apply Hs1.
  assert (gr_regs g = gr_regs g0) as ER0 by apply Hf.
  assert (forall m, instk g3 m = false -> n <> m -> instk g m = false) as Hother.
  { intros m H Hne. rewrite Hi3, Hi1 in H.
    apply andb_false_iff in H as [H%negb_false_iff%Z.eqb_eq|H]; [congruence|done]. }
  split; [|done]. split.
  - apply graph_ok_set_stack; [|done]. by eapply nodes_by_graph_ok.
  - eapply step_frame_trans; [exact Hf|]. eapply step_frame_trans; [exact Hf1|].
    split; [done|cbn; by rewrite (proj1 Hby)..].
  - cbn. rewrite Ect, (ss_count _ _ Hs2), (ss_count _ _ Hs1). lia.
  - rewrite Hk3. etransitivity; [|exact Hpre]. rewrite Hk. by apply prefix_app_r.
  - intros m. rewrite Hi3, Hk3. apply Hl.
  - intros m Hm. rewrite Hr3. destruct (Z.eqb_spec n m) as [->|]; [congruence|auto].
  - intros m Hm Him. rewrite Hr3, ER3. destruct (Z.eqb_spec n m) as [->|Hne]; [done|].
    rewrite ER1. apply Hco; [|auto]. by rewrite (ss_count _ _ Hs3), (ss_count _ _ Hs1) in Hm.
  - intros m Hm Him Hf0. rewrite Hr3, ER3, (ss_cls _ _ Hs3).
    destruct (Z.eqb_spec n m) as [<-|Hne]; [done|].
    rewrite ER1, (ss_cls _ _ Hs1). apply Hcl; [|auto|done].
    by rewrite (ss_count _ _ Hs3), (ss_count _ _ Hs1) in Hm.
  - intros m m2 Hadj Him Him2 Hor. rewrite (ss_adj _ _ Hs3) in Hadj.
    destruct (go_adj g1 Hg1 m m2 Hadj) as (Hm2r & Hmne & Hadj').
    destruct (go_adj g1 Hg1 m2 m Hadj') as (Hmr & _ & _).
    rewrite !Hr3, ER3. destruct (Z.eqb_spec n m) as [->|Hne].
    + destruct (Z.eqb_spec m m2) as [|]; [congruence|]. rewrite <- Hr1.
      apply (blocked_false g1 m); [done|done|]. by rewrite <- Hi3.
    + destruct (Z.eqb_spec n m2) as [->|Hne2].
      * assert (0 <= reg g1 m < rs_count (gr_regs g1)) as Hrm.
        { apply Hcol; [done|]. by rewrite <- Hi3. }
        rewrite <- Hr1, ER1, ER0, Hsym by (rewrite <- ER0, <- ER1; done). rewrite <- ER0, <- ER1.
        apply (blocked_false g1 m2); [done|done|]. by rewrite <- Hi3.
      * rewrite ER1. apply Hva; [by rewrite <- (ss_adj _ _ Hs1)|auto..].
Qed.

(** Every forced register belongs to the class of its node. *)
Definition forced_in_class (g : ra_graph) : Prop :=
  forall n, 0 <= n < gr_count g -> reg g n <> NO_REG ->
    in_class (gr_regs g) (cls g n) (reg g n) = true.

(** With a stack of trivially colourable nodes, the node on top can be coloured. *)
Lemma top_available g0 g l n g1 :
  stack_ok g0 -> pq_regs (gr_regs g0) -> trivial_stack g0 -> forced_in_class g0 ->
  sel_inv g0 g -> stk g = l ++ [n] -> popped g0 g l n g1 ->
  exists r, available g1 n r = true.
Proof.
  intros Hs0 Hpq Htr Hfc Hv Hk Hp. destruct Hv as [Hg Hf Hc Hpre Hin Hfo Hco Hcl Hva].
  destruct Hp as [Hg1 Hf1 _ _ Hn _ Hr1 Hi1 Hl Hcol].
  pose proof (sf_static _ _ Hf) as Hs. pose proof (sf_static _ _ Hf1) as Hs1.
  assert (same_static g0 g1) as Hs01 by by eapply same_static_trans.
  apply pq_available; [done|by rewrite (ss_regs _ _ Hs01)|by rewrite (ss_count _ _ Hs1)| |].
  - intros n2 Hn2 Hst2. split; [by apply Hcol|].
    destruct (go_adj g1 Hg1 n n2 Hn2) as (Hr2 & Hne & _). rewrite (ss_count _ _ Hs1) in Hr2.
    rewrite Hi1 in Hst2. apply andb_false_iff in Hst2 as [H%negb_false_iff%Z.eqb_eq|Hst2];
      [congruence|].
    rewrite Hr1, (ss_regs _ _ Hs1), (ss_cls _ _ Hs1).
    destruct (Z.eq_dec (reg g0 n2) NO_REG) as [He|He]; [by apply Hcl|].
    rewrite (Hfo n2 He), (ss_regs _ _ Hs), (ss_cls _ _ Hs). apply Hfc; [|done].
    by rewrite <- (ss_count _ _ Hs).
  - destruct Hpre as [l2 Hpre]. rewrite Hk, <- app_assoc in Hpre. cbn in Hpre.
    specialize (Htr l n l2 Hpre).
    rewrite (ss_regs _ _ Hs01), (ss_cls _ _ Hs01).
    rewrite (qsum_static g0 g1 (fun x => bool_decide (x ∈ l))); [done|done|].
    intros x _. destruct (instk g1 x) eqn:E.
    + symmetry. apply bool_decide_true. by apply Hl.
    + symmetry. apply bool_decide_false. rewrite <- Hl, E. done.
Qed.

Lemma select_loop_spec g0 :
  stack_ok g0 -> conflict_sym (gr_regs g0) -> classes_in_range (gr_regs g0) ->
  callback_ok (gr_select_reg_callback g0) ->
  forall fuel m g start, sel_inv g0 g -> gr_stack_count g < Z.of_nat fuel ->
  0 <= start <= rs_count (gr_regs g0) ->
  exists m' g' b, select_loop call fuel m g start = Some (m', g', b) /\
    (b = true -> sel_inv g0 g' /\ gr_stack_count g' = 0) /\
    (pq_regs (gr_regs g0) -> trivial_stack g0 -> forced_in_class g0 -> b = true).
Proof.
  intros Hs0 Hsym Hrange Hcb. induction fuel as [|fuel IH]; intros m g start Hv Hfuel Hstart.
  { pose proof (sv_count _ _ Hv). lia. }
  cbn [select_loop]. destruct (Z.eqb_spec (gr_stack_count g) 0) as [Hz|Hnz].
  { exists m, g, true. done. }
  assert (exists l n, stk g = l ++ [n]) as (l & n & Hk).
  { destruct (stk g) as [|x l _] eqn:E using rev_ind; [|by eauto]. exfalso.
    pose proof (go_stack _ (sv_graph _ _ Hv)). pose proof (sv_count _ _ Hv).
    apply (f_equal length) in E. unfold stk in E. rewrite length_take in E. cbn in E. lia. }
  destruct (stk_pop g l n (sv_graph _ _ Hv) (sv_count _ _ Hv) Hk) as (_ & Hget & _).
  destruct (pop_node g0 g l n Hs0 Hv Hk) as (g1 & Hu1 & Hp).
  rewrite Hget. obind.
  destruct (node_is_Some g n (sv_graph _ _ Hv) (po_range _ _ _ _ _ Hp)) as [nd Hnd].
  rewrite Hnd. obind. rewrite <- (view_node _ _ _ _ _ Hnd : cls g n = _).
  pose proof (sf_static _ _ (po_frame _ _ _ _ _ Hp)) as Hs1.
  pose proof (sf_static _ _ (sv_frame _ _ Hv)) as Hs.
  assert (gr_regs g1 = gr_regs g0) as ER.
  { rewrite (ss_regs _ _ Hs1). apply Hs. }
  destruct (array_get_is_Some (rs_classes (gr_regs g)) (cls g n)) as [c Hc].
  { rewrite (ro_class_length _ (go_regs _ (sv_graph _ _ Hv))).
    apply (sv_graph _ _ Hv), (po_range _ _ _ _ _ Hp). }
  rewrite Hc. obind. rewrite Hu1. obind. fold (find_reg m g1 c n start).
  destruct (find_reg_spec m g1 c n start) as (m' & res & Hfind & Hres).
  { apply Hp. } { by rewrite ER. } { by rewrite ER. }
  { by rewrite (sf_callback _ _ (po_frame _ _ _ _ _ Hp)), (sf_callback _ _ (sv_frame _ _ Hv)). }
  { rewrite (ss_count _ _ Hs1). apply Hp. } { apply Hp. }
  { by rewrite (ss_regs _ _ Hs1), (ss_cls _ _ Hs1). } { by rewrite ER. }
  rewrite Hfind. obind. clear Hfind. destruct res as [r|].
  - destruct Hres as [Hr Hav].
    destruct (colour_node g0 g l n g1 r Hsym Hv Hk Hp Hr Hav) as (g2 & -> & Hv3 & Hk3). obind.
    set (g3 := set_stack g2 (gr_stack g2) (gr_stack_count g2 - 1)) in *.
    pose proof (ro_count _ (go_regs _ (po_graph _ _ _ _ _ Hp))) as Hrc.
    apply IH; [done| |].
    + assert (gr_stack_count g3 = Z.of_nat (length l)) as ->.
      { pose proof (go_stack _ (sv_graph _ _ Hv3)). pose proof (sv_count _ _ Hv3).
        rewrite <- Hk3. unfold stk. rewrite length_take. lia. }
      pose proof (go_stack _ (sv_graph _ _ Hv)). pose proof (sv_count _ _ Hv).
      apply (f_equal length) in Hk. unfold stk in Hk. rewrite length_take, length_app in Hk.
      cbn in Hk. lia.
    + destruct (_ && _); [|done]. rewrite ER in *.
      replace (i32 (r + 1)) with (r + 1); [lia|]. unfold i32. rewrite Z.mod_small; lia.
  - exists m', g1, false. split; [done|]. split; [done|]. intros Hpq Htr Hfc.
    destruct (top_available g0 g l n g1) as [r Hr]; [done..|]. by rewrite Hres in Hr.
Qed.

(** A graph ready for [ra_allocate]: built, with registers set up, forced nodes
    holding existing registers, nothing on the stack. *)
Record ready (g : ra_graph) : Prop := {
  re_graph : graph_ok g;
  re_fresh : fresh_stack g;
  re_sym : conflict_sym (gr_regs g);
  re_range : classes_in_range (gr_regs g);
  re_forced : forall n, 0 <= n < gr_count g -> reg g n <> NO_REG ->
    0 <= reg g n < rs_count (gr_regs g) }.

Lemma sel_inv_start g g0 start :
  ready g -> simplified g g0 start -> sel_inv g0 g0.
Proof.
  intros [R1 R2 R3 R4 R5] [S1 S2 S3 S4 S5 S6].
  assert (forall n, 0 <= n < gr_count g0 -> instk g0 n = false -> reg g0 n <> NO_REG) as Hset.
  { intros n Hn Hst. rewrite (ss_count _ _ (sf_static _ _ S3)) in Hn.
    destruct (S5 n Hn) as [H|H]; [congruence|done]. }
  split; try done.
  - apply S2.
  - apply S2.
  - intros n Hn Hst. pose proof (Hset n Hn Hst) as H. rewrite S4 in *.
    rewrite (ss_regs _ _ (sf_static _ _ S3)). apply R5; [|done].
    by rewrite <- (ss_count _ _ (sf_static _ _ S3)).
  - intros n Hn Hst H. by destruct (Hset n Hn Hst).
  - intros n n2 Hadj Hst Hst2 [H|H]; exfalso; destruct (go_adj _ S1 _ _ Hadj) as (Hr & _ & Ha).
    + destruct (go_adj _ S1 _ _ Ha) as (Hr' & _ & _). by apply (Hset n).
    + by apply (Hset n2).
Qed.

Lemma ra_allocate_spec m g :
  ready g -> callback_ok (gr_select_reg_callback g) ->
  exists g0 m' g' b, ra_simplify g = Some g0 /\ simplified g g0 (gr_stack_optimistic_start g0) /\
    ra_allocate call m g = Some (m', g', b) /\
    (b = true -> sel_inv g0 g' /\ gr_stack_count g' = 0) /\
    (pq_regs (gr_regs g) -> trivial_stack g0 -> forced_in_class g -> b = true).
Proof.
  intros Hre Hcb. destruct (ra_simplify_spec g (re_graph g Hre) (re_fresh g Hre)) as (g0 & Hs & Hsi).
  pose proof (sf_static _ _ (si_frame _ _ _ Hsi)) as Hst.
  pose proof (ro_count _ (go_regs _ (si_graph _ _ _ Hsi))).
  destruct (select_loop_spec g0 (si_stack _ _ _ Hsi)) with
    (fuel := S (Z.to_nat (gr_stack_count g0))) (m := m) (g := g0) (start := 0)
    as (m' & g' & b & Hsel & Hb & Hpq).
  - rewrite (ss_regs _ _ Hst). apply Hre.
  - rewrite (ss_regs _ _ Hst). apply Hre.
  - by rewrite (sf_callback _ _ (si_frame _ _ _ Hsi)).
  - by eapply sel_inv_start.
  - pose proof (so_count _ (si_stack _ _ _ Hsi)). lia.
  - lia.
  - exists g0, m', g', b. split; [done|]. split; [done|]. split; [|split; [done|]].
    + unfold ra_allocate. rewrite Hs. obind. exact Hsel.
    + intros H1 H2 H3. apply Hpq; [by rewrite (ss_regs _ _ Hst)|done|].
      intros n Hn Hf. rewrite (si_reg _ _ _ Hsi) in *. rewrite (ss_regs _ _ Hst), (ss_cls _ _ Hst).
      apply H3; [|done]. by rewrite <- (ss_count _ _ Hst).
Qed.
End Select.
