(* ===== verification/RegAllocBuild.v ===== *)
(** * Building register sets and graphs ([src/util/register_allocate.c])

    The invariant that [ra_alloc_reg_set], the conflict and class functions
    keep, and that [ra_set_finalize] turns into the p and q values selection
    relies on; the same for interference graphs up to [ra_allocate]. *)
From Stdlib Require Import Btauto.
From S2P Require Import Prelude Bitset RegAlloc RegAllocCorrect RegAllocSelect.

(** ** The invariant of a register set under construction *)

(** The conflict list, if it is kept, enumerates the bit set once. *)
Definition list_ok (count : Z) (rg : ra_reg) : Prop :=
  match rg_conflict_list rg with
  | None => True
  | Some l => NoDup l /\ (forall x, x ∈ l <-> bmem (rg_conflicts rg) x = true) /\
      rg_num_conflicts rg = Z.of_nat (length l) /\
      4 <= rg_conflict_list_size rg < 2 ^ 32 /\ rg_num_conflicts rg <= rg_conflict_list_size rg
  end.

Record reg_ok (count r : Z) (rg : ra_reg) : Prop := {
  rk_words : bs_ok count (rg_conflicts rg);
  rk_range : forall b, bmem (rg_conflicts rg) b = true -> 0 <= b < count;
  rk_self : bmem (rg_conflicts rg) r = true;
  rk_list : list_ok count rg }.

Record class_ok (count : Z) (cl : ra_class) : Prop := {
  ck_words : bs_ok count (cl_regs cl);
  ck_range : forall b, bmem (cl_regs cl) b = true -> 0 <= b < count;
  ck_p : cl_p cl = count_if (bmem (cl_regs cl)) (zrange 0 (Z.to_nat count)) }.

Record building (rs : ra_regs) : Prop := {
  bu_count : 0 <= rs_count rs < 2 ^ 31;
  bu_length : Z.of_nat (length (rs_regs rs)) = rs_count rs;
  bu_reg : forall r rg, array_get (rs_regs rs) r = Some rg -> reg_ok (rs_count rs) r rg;
  bu_sym : conflict_sym rs;
  bu_class_count : 0 <= rs_class_count rs < 2 ^ 31;
  bu_class_length : Z.of_nat (length (rs_classes rs)) = rs_class_count rs;
  bu_class : forall c cl, array_get (rs_classes rs) c = Some cl -> class_ok (rs_count rs) cl }.

Lemma building_regs_ok rs : building rs -> regs_ok rs.
Proof.
  intros [B1 B2 B3 B4 B5 B6 B7]. split; try done.
  - intros r rg Hr. apply (B3 r rg Hr).
  - intros c cl Hc. apply (B7 c cl Hc).
Qed.

Lemma conflict_range rs r1 r2 :
  building rs -> conflict rs r1 r2 = true -> 0 <= r1 < rs_count rs /\ 0 <= r2 < rs_count rs.
Proof.
  intros Hb H. unfold conflict in H. destruct (array_get (rs_regs rs) r1) as [rg|] eqn:E; [|done].
  split; [|by eapply (rk_range _ _ _ (bu_reg rs Hb r1 rg E))].
  apply array_get_lt in E. by rewrite (bu_length rs Hb) in E.
Qed.

Lemma upd_reg_spec rs r rg (f : ra_reg -> option ra_reg) rg' :
  array_get (rs_regs rs) r = Some rg -> f rg = Some rg' ->
  exists rs', upd_reg rs r f = Some rs' /\ rs' = set_regs rs (rs_regs rs') /\
    length (rs_regs rs') = length (rs_regs rs) /\
    forall m, array_get (rs_regs rs') m = if r =? m then Some rg' else array_get (rs_regs rs) m.
Proof.
  intros Hr Hf. unfold upd_reg. rewrite Hr. obind. rewrite Hf. obind.
  destruct (array_set (rs_regs rs) r rg') as [l|] eqn:Hl;
    [|rewrite array_set_Some in Hl; [done|by eapply array_get_lt]].
  obind. eexists. split; [done|]. split; [done|]. split; [by eapply array_set_length|].
  intros m. by apply array_get_set.
Qed.

Lemma upd_class_spec rs c cl (f : ra_class -> option ra_class) cl' :
  array_get (rs_classes rs) c = Some cl -> f cl = Some cl' ->
  exists rs', upd_class rs c f = Some rs' /\ rs' = set_classes rs (rs_classes rs') /\
    length (rs_classes rs') = length (rs_classes rs) /\
    forall m, array_get (rs_classes rs') m = if c =? m then Some cl' else array_get (rs_classes rs) m.
Proof.
  intros Hr Hf. unfold upd_class. rewrite Hr. obind. rewrite Hf. obind.
  destruct (array_set (rs_classes rs) c cl') as [l|] eqn:Hl;
    [|rewrite array_set_Some in Hl; [done|by eapply array_get_lt]].
  obind. eexists. split; [done|]. split; [done|]. split; [by eapply array_set_length|].
  intros m. by apply array_get_set.
Qed.

(** ** Fresh register sets *)

Lemma mapM_zrange_get {A} (f : Z -> option A) n l i :
  mapM f (zrange 0 n) = Some l ->
  length l = n /\ (0 <= i < Z.of_nat n -> array_get l i = f i).
Proof.
  intros H. pose proof (length_mapM _ _ _ H) as Hl. rewrite zrange_length in Hl.
  split; [done|]. intros Hi. apply mapM_Some_1 in H.
  destruct (array_get_is_Some l i) as [x Hx]; [lia|]. rewrite Hx.
  apply array_get_Some in Hx as [_ Hx]. destruct (Forall2_lookup_r _ _ _ _ _ H Hx) as (y & Hy & Hf).
  unfold zrange in Hy. rewrite list_lookup_fmap in Hy.
  destruct (seq 0 n !! Z.to_nat i) eqn:E; [|done]. apply lookup_seq in E as [-> _].
  cbn in Hy. injection Hy as <-. rewrite <- Hf. f_equal. lia.
Qed.

Lemma alloc_reg_spec count i need :
  0 <= count < 2 ^ 31 -> 0 <= i < count ->
  exists rg, alloc_reg count i need = Some rg /\ reg_ok count i rg /\
    forall b, bmem (rg_conflicts rg) b = (i =? b).
Proof.
  intros Hc Hi. unfold alloc_reg.
  destruct (BITSET_SET_spec count (replicate (Z.to_nat (BITSET_WORDS count)) 0) i)
    as (x & -> & Hx & Hm); [done|by apply bs_ok_zero|done|]. obind.
  assert (forall b, bmem x b = (i =? b)) as Hm'.
  { intros b. destruct (Z.le_gt_cases 0 b) as [Hb|Hb].
    - rewrite Hm, bmem_zero by done. apply orb_false_r.
    - destruct (bmem x b) eqn:E; [apply bmem_nonneg in E; lia|].
      symmetry. apply Z.eqb_neq. lia. }
  eexists. split; [done|]. split; [|by destruct need].
  split.
  - by destruct need.
  - intros b. destruct need; cbn; rewrite Hm', Z.eqb_eq; lia.
  - destruct need; cbn; rewrite Hm'; apply Z.eqb_refl.
  - destruct need; [|done]. cbn. split_and!; try lia.
    + apply NoDup_singleton.
    + intros x'. rewrite list_elem_of_singleton. cbn. rewrite Hm', Z.eqb_eq. done.
Qed.

Lemma ra_alloc_reg_set_spec count need :
  0 <= count < 2 ^ 31 ->
  exists rs, ra_alloc_reg_set count need = Some rs /\ building rs /\ rs_count rs = count /\
    rs_classes rs = [] /\ forall r1 r2, 0 <= r1 < count -> conflict rs r1 r2 = (r1 =? r2).
Proof.
  intros Hc. unfold ra_alloc_reg_set.
  destruct (mapM (fun i => alloc_reg count i need) (zrange 0 (Z.to_nat count))) as [l|] eqn:Hl.
  2:{ exfalso. apply mapM_None_1, Exists_exists in Hl as (i & Hi & Hn).
      apply elem_of_zrange in Hi. destruct (alloc_reg_spec count i need Hc) as (? & ? & _); [lia|].
      congruence. }
  obind. eexists. split; [done|].
  assert (length l = Z.to_nat count) as Hlen
    by apply (mapM_zrange_get _ _ _ 0 Hl).
  assert (forall r rg, array_get l r = Some rg -> reg_ok count r rg /\
    forall b, bmem (rg_conflicts rg) b = (r =? b)) as Hreg.
  { intros r rg Hr. pose proof (array_get_lt _ _ _ Hr) as Hrr.
    rewrite (proj2 (mapM_zrange_get _ _ _ r Hl)) in Hr by lia.
    destruct (alloc_reg_spec count r need Hc) as (rg' & Hr' & Hok); [lia|].
    rewrite Hr' in Hr. by injection Hr as ->. }
  assert (forall r1 r2, 0 <= r1 < count ->
    conflict (RaRegs l count [] 0 false) r1 r2 = (r1 =? r2)) as Hconf.
  { intros r1 r2 Hr1. unfold conflict. cbn.
    destruct (array_get_is_Some l r1) as [rg Hr]; [lia|]. rewrite Hr. cbn. by apply Hreg. }
  split; [|done]. split; cbn; try done; try lia.
  - intros r rg Hr. by apply Hreg.
  - intros r1 r2 H1 H2. cbn in *. rewrite !Hconf by done. apply Z.eqb_sym.
  - intros c cl H. unfold array_get in H. by destruct (0 <=? c).
Qed.

(** ** Conflicts *)

(** [rs'] is [rs] with the conflict relation replaced. *)
Record with_conflicts (rs : ra_regs) (R : Z -> Z -> bool) (rs' : ra_regs) : Prop := {
  wc_count : rs_count rs' = rs_count rs;
  wc_classes : rs_classes rs' = rs_classes rs;
  wc_class_count : rs_class_count rs' = rs_class_count rs;
  wc_length : length (rs_regs rs') = length (rs_regs rs);
  wc_lists : forall r rg', array_get (rs_regs rs') r = Some rg' ->
    exists rg, array_get (rs_regs rs) r = Some rg /\
      (is_Some (rg_conflict_list rg') <-> is_Some (rg_conflict_list rg));
  wc_conflict : forall r1 r2, 0 <= r1 < rs_count rs -> 0 <= r2 < rs_count rs ->
    conflict rs' r1 r2 = R r1 r2 }.

Lemma append_list_ok count rg l r2 x' :
  bs_ok count x' -> list_ok count rg -> rg_conflict_list rg = Some l ->
  (forall b, bmem (rg_conflicts rg) b = true -> 0 <= b < count) -> 0 <= count < 2 ^ 31 ->
  bmem (rg_conflicts rg) r2 = false ->
  (forall b, bmem x' b = (r2 =? b) || bmem (rg_conflicts rg) b) ->
  exists l' size, append_conflict r2 rg
    = Some (RaReg (rg_conflicts rg) (Some l') size (u32 (rg_num_conflicts rg + 1))) /\
  list_ok count (RaReg x' (Some l') size (u32 (rg_num_conflicts rg + 1))).
Proof.
  intros Hx' Hl E Hrange Hc Hfresh Hm. unfold list_ok in Hl. rewrite E in Hl.
  unfold append_conflict. rewrite E. cbv zeta.
  destruct Hl as (Hnd & Hin & Hnum & Hsize & Hle).
  assert (Z.of_nat (length l) <= count) as Hlc.
  { assert (l ⊆+ zrange 0 (Z.to_nat count)) as Hsub.
    - apply NoDup_submseteq; [done|]. intros y Hy%Hin%Hrange. apply elem_of_zrange. lia.
    - apply submseteq_length in Hsub. rewrite zrange_length in Hsub. lia. }
  assert (exists size, (if rg_conflict_list_size rg =? rg_num_conflicts rg then
        (reralloc l (u32 (rg_conflict_list_size rg * 2)), u32 (rg_conflict_list_size rg * 2))
      else (l, rg_conflict_list_size rg)) = (l, size) /\ rg_num_conflicts rg < size < 2 ^ 32 /\
      4 <= size) as (size & -> & Hs1 & Hs2).
  { destruct (Z.eqb_spec (rg_conflict_list_size rg) (rg_num_conflicts rg)) as [Heq|Hne].
    - exists (rg_conflict_list_size rg * 2). rewrite u32_small by lia.
      unfold reralloc. rewrite take_ge by lia. split; [done|]. lia.
    - exists (rg_conflict_list_size rg). split; [done|]. lia. }
  exists (l ++ [r2]), size. unfold array_init. rewrite Hnum, Z.eqb_refl in *.
  rewrite (proj2 (Z.ltb_lt _ _) (proj1 Hs1)). split; [done|]. unfold list_ok. cbn.
  rewrite u32_small by lia. split_and!.
  - apply NoDup_app. split; [done|]. split; [|apply NoDup_singleton].
    intros y Hy%Hin ->%list_elem_of_singleton. congruence.
  - intros y. rewrite Hm, elem_of_app, list_elem_of_singleton, orb_true_iff, Hin, Z.eqb_eq.
    naive_solver.
  - rewrite length_app. cbn. lia.
  - lia.
  - lia.
  - lia.
Qed.

Lemma add_conflict_list_spec rs r1 r2 rg :
  0 <= rs_count rs < 2 ^ 31 -> 0 <= r2 < rs_count rs ->
  array_get (rs_regs rs) r1 = Some rg -> reg_ok (rs_count rs) r1 rg ->
  bmem (rg_conflicts rg) r2 = false ->
  exists rs' rg', ra_add_conflict_list rs r1 r2 = Some rs' /\
    rs' = set_regs rs (rs_regs rs') /\ length (rs_regs rs') = length (rs_regs rs) /\
    (forall m, array_get (rs_regs rs') m = if r1 =? m then Some rg' else array_get (rs_regs rs) m) /\
    reg_ok (rs_count rs) r1 rg' /\
    (is_Some (rg_conflict_list rg') <-> is_Some (rg_conflict_list rg)) /\
    forall b, bmem (rg_conflicts rg') b = (r2 =? b) || bmem (rg_conflicts rg) b.
Proof.
  intros Hc Hr2 Hget [W Ra Se Li] Hfresh.
  destruct (BITSET_SET_spec _ _ r2 Hc W Hr2) as (x' & Hset & Hx' & Hm0).
  assert (forall b, bmem x' b = (r2 =? b) || bmem (rg_conflicts rg) b) as Hm.
  { intros b. destruct (Z.le_gt_cases 0 b) as [Hb|Hb]; [by apply Hm0|].
    destruct (bmem x' b) eqn:E; [apply bmem_nonneg in E; lia|].
    destruct (bmem (rg_conflicts rg) b) eqn:E2; [apply bmem_nonneg in E2; lia|].
    rewrite orb_false_r. symmetry. apply Z.eqb_neq. lia. }
  assert (exists rg', add_conflict r2 rg = Some rg' /\ rg_conflicts rg' = x' /\
    list_ok (rs_count rs) rg' /\
    (is_Some (rg_conflict_list rg') <-> is_Some (rg_conflict_list rg)))
    as (rg' & Hrun & Hx & Hl' & Hsome).
  { unfold add_conflict. destruct (rg_conflict_list rg) as [l|] eqn:E.
    - destruct (append_list_ok _ _ _ r2 x' Hx' Li E Ra Hc Hfresh Hm) as (l' & size & -> & Hlo).
      obind. cbn [rg_conflicts]. rewrite Hset. obind. eexists. split; [done|]. split; [done|].
      split; [done|]. cbn. split; eauto.
    - unfold append_conflict. rewrite E. obind. rewrite Hset. obind. eexists. split; [done|]. cbn. rewrite E.
      split; [done|]. split; [|done]. by unfold list_ok. }
  destruct (upd_reg_spec rs r1 rg (add_conflict r2) rg' Hget Hrun) as (rs' & Hu & Heq & Hlen & Hg).
  exists rs', rg'. split; [exact Hu|]. split_and!; try done.
  - split; rewrite ?Hx; try done.
    + intros b. rewrite Hm, orb_true_iff, Z.eqb_eq. intros [<-|H]; [done|auto].
    + by rewrite Hm, Se, orb_true_r.
  - by rewrite Hx.
Qed.

Definition pair_eqb (r1 r2 a b : Z) : bool :=
  ((a =? r1) && (b =? r2)) || ((a =? r2) && (b =? r1)).

Lemma reg_is_Some rs r : building rs -> 0 <= r < rs_count rs ->
  exists rg, array_get (rs_regs rs) r = Some rg /\ reg_ok (rs_count rs) r rg.
Proof.
  intros Hb Hr. destruct (array_get_is_Some (rs_regs rs) r) as [rg Hrg];
    [by rewrite (bu_length rs Hb)|]. exists rg. split; [done|]. by apply Hb.
Qed.

Lemma conflict_get rs r rg b : array_get (rs_regs rs) r = Some rg ->
  conflict rs r b = bmem (rg_conflicts rg) b.
Proof. unfold conflict. by intros ->. Qed.

Lemma conflict_self rs r : building rs -> 0 <= r < rs_count rs -> conflict rs r r = true.
Proof.
  intros Hb Hr. destruct (reg_is_Some rs r Hb Hr) as (rg & Hg & Hok).
  rewrite (conflict_get _ _ _ _ Hg). apply Hok.
Qed.

Lemma add_reg_conflict_spec rs r1 r2 :
  building rs -> 0 <= r1 < rs_count rs -> 0 <= r2 < rs_count rs ->
  exists rs', ra_add_reg_conflict rs r1 r2 = Some rs' /\ building rs' /\
    with_conflicts rs (fun a b => conflict rs a b || pair_eqb r1 r2 a b) rs' /\
    forall m, conflict rs r1 r2 = true \/ (m <> r1 /\ m <> r2) ->
      array_get (rs_regs rs') m = array_get (rs_regs rs) m.
Proof.
  intros Hb Hr1 Hr2. unfold ra_add_reg_conflict.
  destruct (reg_is_Some rs r1 Hb Hr1) as (rg1 & Hg1 & Hok1).
  destruct (reg_is_Some rs r2 Hb Hr2) as (rg2 & Hg2 & Hok2). rewrite Hg1. obind.
  rewrite (conflict_test rs r1 rg1 r2 (building_regs_ok rs Hb) Hg1 Hr2). obind.
  pose proof (bu_sym rs Hb r1 r2 Hr1 Hr2) as Hsym.
  destruct (conflict rs r1 r2) eqn:Hc; cbn [negb].
  { exists rs. split; [done|]. split; [done|]. split; [|done]. split; try done.
    - eauto.
    - intros a b Ha Hbb. destruct (pair_eqb r1 r2 a b) eqn:E; [|by rewrite orb_false_r].
      unfold pair_eqb in E. rewrite orb_true_r.
      assert ((a = r1 /\ b = r2) \/ (a = r2 /\ b = r1)) as [[-> ->]|[-> ->]] by lia; congruence. }
  assert (r1 <> r2) as Hne by (intros ->; rewrite conflict_self in Hc; done).
  destruct (add_conflict_list_spec rs r1 r2 rg1) as
    (rs1 & rg1' & -> & Eq1 & Len1 & Get1 & Ok1 & L1 & M1);
    [apply Hb|done|done|done|by rewrite <- (conflict_get _ _ _ _ Hg1)|]. obind.
  assert (rs_count rs1 = rs_count rs) as Ec1 by by rewrite Eq1.
  destruct (add_conflict_list_spec rs1 r2 r1 rg2) as
    (rs2 & rg2' & -> & Eq2 & Len2 & Get2 & Ok2 & L2 & M2).
  { rewrite Ec1. apply Hb. } { by rewrite Ec1. }
  { rewrite Get1. by replace (r1 =? r2) with false by lia. } { by rewrite Ec1. }
  { by rewrite <- (conflict_get _ _ _ _ Hg2), <- Hsym. }
  exists rs2. split; [done|]. rewrite Ec1 in *.
  assert (forall m, array_get (rs_regs rs2) m =
    if r2 =? m then Some rg2' else if r1 =? m then Some rg1' else array_get (rs_regs rs) m) as Get.
  { intros m. rewrite Get2. destruct (r2 =? m); [done|]. apply Get1. }
  assert (forall a b, conflict rs2 a b = conflict rs a b || pair_eqb r1 r2 a b) as Hconf.
  { intros a b. unfold conflict at 1. rewrite Get. unfold pair_eqb.
    destruct (Z.eqb_spec r2 a) as [<-|Hn2]; [|destruct (Z.eqb_spec r1 a) as [<-|Hn1]].
    - cbn. rewrite M2, <- (conflict_get _ _ _ _ Hg2), Z.eqb_refl.
      replace (r2 =? r1) with false by lia. rewrite (Z.eqb_sym b r1). cbn. apply orb_comm.
    - cbn. rewrite M1, <- (conflict_get _ _ _ _ Hg1), Z.eqb_refl.
      replace (r1 =? r2) with false by lia. rewrite (Z.eqb_sym b r2), orb_false_r. cbn.
      apply orb_comm.
    - replace (a =? r1) with false by lia. replace (a =? r2) with false by lia.
      cbn. rewrite orb_false_r. done. }
  split; [|split].
  - assert (rs_count rs2 = rs_count rs) as Ec2 by (rewrite Eq2; done).
    assert (rs_classes rs2 = rs_classes rs) as El2 by (rewrite Eq2; cbn; by rewrite Eq1).
    assert (rs_class_count rs2 = rs_class_count rs) as En2 by (rewrite Eq2; cbn; by rewrite Eq1).
    split; rewrite ?Ec2, ?El2, ?En2; try apply Hb.
    + rewrite Len2, Len1. apply Hb.
    + intros m rg. rewrite Get. destruct (Z.eqb_spec r2 m) as [<-|].
      { by intros [= <-]. } destruct (Z.eqb_spec r1 m) as [<-|]; [by intros [= <-]|]. apply Hb.
    + intros a b Ha Hb'. rewrite Ec2 in *. rewrite !Hconf, (bu_sym rs Hb a b Ha Hb'). f_equal.
      unfold pair_eqb. rewrite orb_comm, (andb_comm (a =? r2)), (andb_comm (a =? r1)). done.
  - split; try (by rewrite Eq2; cbn; rewrite Eq1).
    + by rewrite Len2, Len1.
    + intros m rg. rewrite Get. destruct (Z.eqb_spec r2 m) as [<-|]; [intros [= <-]; eauto|].
      destruct (Z.eqb_spec r1 m) as [<-|]; [intros [= <-]; eauto|eauto].
    + intros. apply Hconf.
  - intros m [H|[H1 H2]]; [congruence|]. rewrite Get.
    by replace (r2 =? m) with false by lia; replace (r1 =? m) with false by lia.
Qed.

Lemma with_conflicts_trans rs1 R1 rs2 R2 rs3 :
  with_conflicts rs1 R1 rs2 -> with_conflicts rs2 R2 rs3 -> with_conflicts rs1 R2 rs3.
Proof.
  intros [C1 L1 N1 E1 S1 F1] [C2 L2 N2 E2 S2 F2]. split; try congruence.
  - intros r rg3 (rg2 & H2 & ?)%S2. apply S1 in H2 as (rg1 & ? & ?). exists rg1. naive_solver.
  - intros r1 r2 H1 H2. apply F2; by rewrite C1.
Qed.

Lemma with_conflicts_ext rs R R' rs' :
  (forall a b, 0 <= a < rs_count rs -> 0 <= b < rs_count rs -> R a b = R' a b) ->
  with_conflicts rs R rs' -> with_conflicts rs R' rs'.
Proof. intros H [C1 L1 N1 E1 S1 F1]. split; try done. intros. rewrite F1 by done. auto. Qed.

Lemma mem_cons (x c : Z) (l : list Z) :
  bool_decide (x ∈ c :: l) = (x =? c) || bool_decide (x ∈ l).
Proof.
  destruct (Z.eqb_spec x c) as [->|Hne]; [apply bool_decide_true; set_solver|].
  apply bool_decide_ext. set_solver.
Qed.

(** The conflicts of [reg] and the members of [L]. *)
Definition star (reg : Z) (L : list Z) (a b : Z) : bool :=
  ((a =? reg) && bool_decide (b ∈ L)) || ((b =? reg) && bool_decide (a ∈ L)).

Lemma transitive_loop_spec base reg rg l fuel : forall rs k,
  building rs -> 0 <= base < rs_count rs -> 0 <= reg < rs_count rs ->
  array_get (rs_regs rs) base = Some rg -> rg_conflict_list rg = Some l ->
  conflict rs base reg = true -> (k <= length l)%nat -> (length l - k < fuel)%nat ->
  exists rs', transitive_loop fuel rs base reg (Z.of_nat k) = Some rs' /\ building rs' /\
    with_conflicts rs (fun a b => conflict rs a b || star reg (drop k l) a b) rs'.
Proof.
  induction fuel as [|fuel IH]; intros rs k Hb Hba Hr Hg Hl Hcb Hk Hfuel; [lia|].
  cbn [transitive_loop]. rewrite Hg. obind.
  pose proof (rk_list _ _ _ (bu_reg rs Hb _ _ Hg)) as Hlo. unfold list_ok in Hlo. rewrite Hl in Hlo.
  destruct Hlo as (Hnd & Hin & Hnum & _). rewrite Hnum.
  destruct (Z.ltb_spec (Z.of_nat k) (Z.of_nat (length l))) as [Hlt|Hge].
  2:{ exists rs. split; [done|]. split; [done|]. rewrite drop_ge by lia. split; try done.
      - eauto.
      - intros a b _ _. unfold star. rewrite !(bool_decide_false (_ ∈ [])) by set_solver.
        by rewrite !andb_false_r, orb_false_r. }
  rewrite Hl. obind. destruct (lookup_lt_is_Some_2 l k) as [c Hc]; [lia|].
  rewrite array_get_nat, Hc. obind.
  assert (conflict rs base c = true) as Hbc.
  { rewrite (conflict_get _ _ _ _ Hg). apply Hin. by eapply list_elem_of_lookup_2. }
  destruct (conflict_range rs base c Hb Hbc) as [_ Hcr].
  destruct (add_reg_conflict_spec rs reg c Hb Hr Hcr) as (rs1 & -> & Hb1 & Hw & Hsame). obind.
  pose proof (wc_count _ _ _ Hw) as Ec.
  destruct (IH rs1 (S k)) as (rs' & Hrun & Hb' & Hw'); try (rewrite ?Ec; done); try lia.
  - rewrite Hsame; [done|]. destruct (Z.eq_dec base reg) as [->|]; [by left|].
    destruct (Z.eq_dec base c) as [<-|]; [|by right]. left. rewrite (bu_sym rs Hb); done.
  - rewrite (wc_conflict _ _ _ Hw) by done. by rewrite Hcb.
  - replace (Z.of_nat k + 1) with (Z.of_nat (S k)) by lia. exists rs'. split; [done|].
    split; [done|]. pose proof (with_conflicts_trans _ _ _ _ _ Hw Hw') as Ht.
    eapply with_conflicts_ext; [|exact Ht].
    intros a b Ha Hbb. cbv beta. rewrite (wc_conflict _ _ _ Hw) by done. rewrite <- orb_assoc. f_equal.
    rewrite (drop_S _ _ _ Hc). unfold star, pair_eqb.
    rewrite !mem_cons. destruct (a =? reg), (b =? c), (b =? reg), (a =? c),
      (bool_decide (b ∈ drop (S k) l)), (bool_decide (a ∈ drop (S k) l)); done.
Qed.

(** Every register keeps a conflict list. *)
Definition has_lists (rs : ra_regs) : Prop :=
  forall r rg, array_get (rs_regs rs) r = Some rg -> is_Some (rg_conflict_list rg).

Lemma with_conflicts_lists rs R rs' : with_conflicts rs R rs' -> has_lists rs -> has_lists rs'.
Proof. intros Hw Hl r rg (rg0 & Hg & Hi)%(wc_lists _ _ _ Hw). by eapply Hi, Hl. Qed.

Lemma list_length rs r rg l :
  building rs -> array_get (rs_regs rs) r = Some rg -> rg_conflict_list rg = Some l ->
  Z.of_nat (length l) <= rs_count rs.
Proof.
  intros Hb Hg Hl. destruct (bu_reg rs Hb r rg Hg) as [W Ra Se Li].
  unfold list_ok in Li. rewrite Hl in Li. destruct Li as (Hnd & Hin & _).
  assert (l ⊆+ zrange 0 (Z.to_nat (rs_count rs))) as Hsub.
  - apply NoDup_submseteq; [done|]. intros y Hy%Hin%Ra. apply elem_of_zrange. lia.
  - apply submseteq_length in Hsub. rewrite zrange_length in Hsub. pose proof (bu_count rs Hb). lia.
Qed.

Lemma transitive_spec rs base reg :
  building rs -> has_lists rs -> 0 <= base < rs_count rs -> 0 <= reg < rs_count rs ->
  exists rs', ra_add_transitive_reg_conflict rs base reg = Some rs' /\ building rs' /\
    has_lists rs' /\ with_conflicts rs (fun a b => conflict rs a b ||
      ((a =? reg) && conflict rs base b) || ((b =? reg) && conflict rs base a)) rs'.
Proof.
  intros Hb Hls Hba Hr. unfold ra_add_transitive_reg_conflict.
  destruct (add_reg_conflict_spec rs reg base Hb Hr Hba) as (rs1 & -> & Hb1 & Hw1 & _). obind.
  pose proof (wc_count _ _ _ Hw1) as Ec. rewrite <- Ec in Hba, Hr.
  destruct (reg_is_Some rs1 base Hb1 Hba) as (rg & Hg & Hok).
  destruct (with_conflicts_lists _ _ _ Hw1 Hls base rg Hg) as [l Hl].
  assert (conflict rs1 base reg = true) as Hbr.
  { rewrite (wc_conflict _ _ _ Hw1) by (rewrite <- Ec; done). unfold pair_eqb.
    rewrite !Z.eqb_refl. cbn. by rewrite !orb_true_r. }
  destruct (transitive_loop_spec base reg rg l (S (Z.to_nat (rs_count rs1))) rs1 0)
    as (rs' & Hrun & Hb' & Hw'); try done; [lia|pose proof (list_length _ _ _ _ Hb1 Hg Hl); lia|].
  exists rs'. split; [exact Hrun|]. split; [done|].
  pose proof (with_conflicts_trans _ _ _ _ _ Hw1 Hw') as Ht.
  split; [by eapply with_conflicts_lists|]. eapply with_conflicts_ext; [|exact Ht].
  intros a b Ha Hbb. cbv beta. unfold star. cbn [drop]. rewrite Ec in *.
  assert (forall x, 0 <= x < rs_count rs ->
    bool_decide (x ∈ l) = conflict rs base x || (x =? reg)) as Hmem.
  { intros x Hx. transitivity (conflict rs1 base x).
    - rewrite (conflict_get _ _ _ _ Hg). pose proof (rk_list _ _ _ Hok) as Hlo.
      unfold list_ok in Hlo. rewrite Hl in Hlo. destruct Hlo as (_ & Hin & _).
      destruct (bmem (rg_conflicts rg) x) eqn:E; [apply bool_decide_true; by apply Hin|].
      apply bool_decide_false. rewrite Hin, E. done.
    - rewrite (wc_conflict _ _ _ Hw1) by done. unfold pair_eqb.
      rewrite Z.eqb_refl. destruct (Z.eqb_spec base reg) as [->|]; [|done].
      destruct (Z.eqb_spec x reg) as [->|]; [done|]. by rewrite !andb_false_r, !orb_false_r. }
  rewrite !Hmem, (wc_conflict _ _ _ Hw1) by done. unfold pair_eqb.
  assert (conflict rs base base = true) as Hself by by apply conflict_self.
  destruct (Z.eqb_spec a reg) as [->|]; destruct (Z.eqb_spec b reg) as [->|]; cbn [andb orb].
  - rewrite conflict_self by done. by rewrite !orb_true_l.
  - destruct (Z.eqb_spec b base) as [->|]; [rewrite Hself|]; btauto.
  - destruct (Z.eqb_spec a base) as [->|]; [rewrite Hself|]; btauto.
  - btauto.
Qed.

(** ** Classes *)

Lemma in_class_get rs c cl r : array_get (rs_classes rs) c = Some cl ->
  in_class rs c r = bmem (cl_regs cl) r.
Proof. unfold in_class. by intros ->. Qed.

Lemma building_in_range rs : building rs -> classes_in_range rs.
Proof.
  intros Hb c r H. unfold in_class in H. destruct (array_get (rs_classes rs) c) as [cl|] eqn:E; [|done].
  by apply (ck_range _ _ (bu_class rs Hb c cl E)).
Qed.

Lemma ra_alloc_reg_class_spec rs :
  building rs -> rs_class_count rs + 1 < 2 ^ 31 ->
  building (ra_alloc_reg_class rs).1 /\ (ra_alloc_reg_class rs).2 = rs_class_count rs /\
  rs_regs (ra_alloc_reg_class rs).1 = rs_regs rs /\ rs_count (ra_alloc_reg_class rs).1 = rs_count rs /\
  rs_class_count (ra_alloc_reg_class rs).1 = rs_class_count rs + 1 /\
  forall c r, in_class (ra_alloc_reg_class rs).1 c r = in_class rs c r.
Proof.
  intros Hb Hlt. pose proof (bu_class_count rs Hb) as Hc. pose proof (bu_class_length rs Hb) as Hl.
  assert (forall c, array_get (rs_classes (ra_alloc_reg_class rs).1) c =
    if c =? rs_class_count rs
    then Some (RaClass (replicate (Z.to_nat (BITSET_WORDS (rs_count rs))) 0) 0 [])
    else array_get (rs_classes rs) c) as Hget.
  { intros c. cbn. unfold array_get. destruct (Z.leb_spec 0 c).
    2:{ by replace (c =? rs_class_count rs) with false by lia. }
    destruct (Z.eqb_spec c (rs_class_count rs)) as [->|Hne].
    - rewrite <- Hl, Nat2Z.id. by rewrite list_lookup_middle.
    - destruct (Z.lt_ge_cases c (rs_class_count rs)).
      + apply lookup_app_l. lia.
      + rewrite !lookup_ge_None_2; [done|lia|rewrite length_app; cbn; lia]. }
  assert (rs_class_count (ra_alloc_reg_class rs).1 = rs_class_count rs + 1) as Hcc
    by (cbn; apply u32_small; lia).
  split_and!; try done.
  - split; rewrite ?Hcc; cbn [ra_alloc_reg_class fst rs_count rs_regs rs_classes]; try apply Hb.
    + lia.
    + rewrite length_app. cbn. lia.
    + intros c cl. setoid_rewrite Hget. destruct (c =? _); [|apply Hb]. intros [= <-].
      split; cbn.
      * apply bs_ok_zero, Hb.
      * intros b. by rewrite bmem_zero.
      * symmetry. apply count_if_none. intros b. apply bmem_zero.
  - intros c r. unfold in_class at 1. rewrite Hget.
    destruct (Z.eqb_spec c (rs_class_count rs)) as [->|]; [|done]. cbn. rewrite bmem_zero.
    unfold in_class. destruct (array_get (rs_classes rs) (rs_class_count rs)) eqn:E; [|done].
    apply array_get_lt in E. lia.
Qed.

Lemma count_if_single (l : list Z) r : NoDup l -> r ∈ l -> count_if (fun b => r =? b) l = 1.
Proof.
  intros Hnd Hr. induction Hnd as [|x l Hx Hnd IH]; [set_solver|]. rewrite count_if_cons.
  destruct (Z.eqb_spec r x) as [->|Hne].
  - replace (count_if (fun b => x =? b) l) with 0; [done|]. symmetry.
    clear -Hx. induction l as [|y l IH]; [done|]. rewrite count_if_cons, IH by set_solver.
    destruct (Z.eqb_spec x y) as [->|]; [set_solver|done].
  - rewrite IH by set_solver. done.
Qed.

(** Adding a register that the class does not hold yet. *)
Lemma ra_class_add_reg_spec rs c r :
  building rs -> 0 <= c < rs_class_count rs -> 0 <= r < rs_count rs -> in_class rs c r = false ->
  exists rs', ra_class_add_reg rs c r = Some rs' /\ building rs' /\
    rs_regs rs' = rs_regs rs /\ rs_count rs' = rs_count rs /\
    rs_class_count rs' = rs_class_count rs /\
    forall c' r', in_class rs' c' r' = ((c =? c') && (r =? r')) || in_class rs c' r'.
Proof.
  intros Hb Hc Hr Hfresh. destruct (array_get_is_Some (rs_classes rs) c) as [cl Hcl];
    [by rewrite (bu_class_length rs Hb)|].
  destruct (bu_class rs Hb c cl Hcl) as [W Ra P]. pose proof (bu_count rs Hb) as Hcount.
  destruct (BITSET_SET_spec _ _ r Hcount W Hr) as (x & Hset & Hx & Hm0).
  rewrite (in_class_get _ _ _ _ Hcl) in Hfresh.
  assert (forall b, bmem x b = (r =? b) || bmem (cl_regs cl) b) as Hm.
  { intros b. destruct (Z.le_gt_cases 0 b); [by apply Hm0|].
    destruct (bmem x b) eqn:E; [apply bmem_nonneg in E; lia|].
    destruct (bmem (cl_regs cl) b) eqn:E2; [apply bmem_nonneg in E2; lia|].
    replace (r =? b) with false by lia. done. }
  pose proof (count_if_bounds (bmem (cl_regs cl)) (all_regs rs)) as Hpb.
  rewrite <- P, zrange_length in Hpb.
  unfold ra_class_add_reg.
  destruct (upd_class_spec rs c cl (fun class => words ← BITSET_SET (cl_regs class) r;
    Some (RaClass words (u32 (cl_p class + 1)) (cl_q class)))
    (RaClass x (cl_p cl + 1) (cl_q cl)) Hcl) as (rs' & -> & Heq & Hlen & Hget).
  { rewrite Hset. obind. rewrite u32_small by lia. done. }
  exists rs'. split; [done|]. rewrite Heq. cbn. split_and!; try done.
  - split; cbn; try apply Hb.
    + rewrite Hlen. apply Hb.
    + intros c' cl'. rewrite Hget. destruct (c =? c'); [|apply Hb]. intros [= <-]. split; cbn.
      * done.
      * intros b. rewrite Hm, orb_true_iff, Z.eqb_eq. intros [<-|H]; [done|auto].
      * rewrite (count_if_ext _ (fun b => (r =? b) || bmem (cl_regs cl) b) _ Hm).
        rewrite <- count_if_add_disjoint, count_if_single, P; [lia|apply NoDup_zrange| |].
        -- apply elem_of_zrange. lia.
        -- intros y ->%Z.eqb_eq. done.
  - intros c' r'. unfold in_class. cbn. rewrite Hget.
    destruct (Z.eqb_spec c c') as [<-|]; [|done]. rewrite Hcl. cbn. apply Hm.
Qed.

(** ** The q values *)

Lemma count_if_app {A} (f : A -> bool) l1 l2 :
  count_if f (l1 ++ l2) = count_if f l1 + count_if f l2.
Proof. induction l1 as [|x l1 IH]; [done|]. cbn [app]. rewrite !count_if_cons, IH. lia. Qed.

Lemma count_if_perm {A} (f : A -> bool) l1 l2 : l1 ≡ₚ l2 -> count_if f l1 = count_if f l2.
Proof. induction 1; rewrite ?count_if_cons; lia. Qed.

Lemma count_if_filter {A} (f g : A -> bool) l :
  count_if f (List.filter g l) = count_if (fun x => f x && g x) l.
Proof.
  induction l as [|x l IH]; [done|]. cbn [List.filter]. rewrite count_if_cons, <- IH.
  destruct (g x); [rewrite count_if_cons|]; by destruct (f x).
Qed.

(** The registers of class [b] that [rc] conflicts with. *)
Definition conflicts_in (rs : ra_regs) (b rc : Z) : Z :=
  count_if (fun rb => in_class rs b rb && conflict rs rc rb) (all_regs rs).

Lemma count_conflicts_spec rs b clb rc :
  building rs -> has_lists rs -> array_get (rs_classes rs) b = Some clb -> 0 <= rc < rs_count rs ->
  count_conflicts rs clb rc = Some (conflicts_in rs b rc).
Proof.
  intros Hb Hls Hcl Hrc. destruct (reg_is_Some rs rc Hb Hrc) as (rg & Hg & [W Ra Se Li]).
  destruct (Hls rc rg Hg) as [l Hl]. unfold list_ok in Li. rewrite Hl in Li.
  destruct Li as (Hnd & Hin & Hnum & _). unfold count_conflicts. rewrite Hg. obind.
  rewrite Hnum, Nat2Z.id.
  match goal with |- foldM ?f 0 ?r = _ => destruct (foldM_ind (fun l1 n =>
    n = count_if (in_class rs b) (take (length l1) l)) f r 0) as (n & Hn & Hcount) end.
  - done.
  - intros l1 i l2 n [-> Hlt]%zrange_split ->. rewrite Z.add_0_l, Hl. obind.
    destruct (lookup_lt_is_Some_2 l (length l1)) as [rb Hrb]; [done|].
    rewrite array_get_nat, Hrb. obind.
    rewrite (belongs_spec rs b clb rb (building_regs_ok rs Hb) Hcl).
    2:{ apply Ra, Hin. by eapply list_elem_of_lookup_2. }
    obind. eexists. split; [done|]. rewrite length_app, Nat.add_1_r, (take_S_r _ _ _ Hrb).
    rewrite count_if_app, count_if_cons. unfold count_if at 4. cbn [List.filter length].
    destruct (in_class rs b rb); cbn; lia.
  - rewrite Hn, Hcount, zrange_length, take_ge by lia. f_equal. unfold conflicts_in.
    rewrite <- count_if_filter. apply count_if_perm. apply NoDup_Permutation.
    + done.
    + apply NoDup_ListNoDup, List.NoDup_filter, NoDup_ListNoDup, NoDup_zrange.
    + intros x. rewrite list_elem_of_In, list_elem_of_In, filter_In, <- !list_elem_of_In.
      rewrite Hin, (conflict_get _ _ _ _ Hg), elem_of_zrange.
      split; [|naive_solver]. intros H. pose proof (Ra x H). split; [lia|done].
Qed.

(** [q] is the largest number of registers of [b] that a register of [c]
    conflicts with. *)
Definition is_q (rs : ra_regs) (b c q : Z) : Prop :=
  0 <= q <= rs_count rs /\
  (forall rc, in_class rs c rc = true -> conflicts_in rs b rc <= q) /\
  (q = 0 \/ exists rc, in_class rs c rc = true /\ q = conflicts_in rs b rc).

Lemma compute_q_spec rs b c :
  building rs -> has_lists rs -> 0 <= b < rs_class_count rs -> 0 <= c < rs_class_count rs ->
  exists q, compute_q rs b c = Some q /\ is_q rs b c q.
Proof.
  intros Hb Hls Hbr Hcr. unfold compute_q. pose proof (bu_class_length rs Hb) as Hl.
  destruct (array_get_is_Some (rs_classes rs) b) as [clb Hclb]; [lia|].
  destruct (array_get_is_Some (rs_classes rs) c) as [clc Hclc]; [lia|].
  rewrite Hclb, Hclc. obind. pose proof (bu_count rs Hb) as Hcount.
  match goal with |- context [foldM ?f 0 ?r] => destruct (foldM_ind (fun l1 q =>
    0 <= q <= rs_count rs /\
    (forall rc, rc ∈ l1 -> in_class rs c rc = true -> conflicts_in rs b rc <= q) /\
    (q = 0 \/ exists rc, in_class rs c rc = true /\ q = conflicts_in rs b rc)) f r 0)
    as (q & Hq & Hq1 & Hq2 & Hq3) end.
  - split; [lia|]. split; [set_solver|by left].
  - intros l1 rc l2 q Hsplit (H1 & H2 & H3).
    assert (rc ∈ all_regs rs) as Hrc by (rewrite Hsplit; set_solver).
    apply elem_of_zrange in Hrc.
    rewrite (belongs_spec rs c clc rc (building_regs_ok rs Hb) Hclc) by lia. obind.
    destruct (in_class rs c rc) eqn:Hic; cbn [negb].
    + rewrite (count_conflicts_spec rs b clb rc Hb Hls Hclb) by lia. obind.
      eexists. split; [done|].
      assert (0 <= conflicts_in rs b rc <= rs_count rs) as Hbd.
      { unfold conflicts_in. match goal with |- context [count_if ?f ?l] =>
          pose proof (count_if_bounds f l) as Hcb end. rewrite zrange_length in Hcb. lia. }
      split; [lia|]. split.
      * intros rc' [Hrc'|Hrc']%elem_of_app Hi.
        -- specialize (H2 rc' Hrc' Hi). lia.
        -- apply list_elem_of_singleton in Hrc' as ->. lia.
      * destruct (Z.max_spec q (conflicts_in rs b rc)) as [[_ ->]|[_ ->]]; [right; eauto|done].
    + exists q. split; [done|]. split; [done|]. split; [|done].
      intros rc' [Hrc'|Hrc']%elem_of_app Hi; [by apply H2|].
      apply list_elem_of_singleton in Hrc' as ->. congruence.
  - exists q. split; [done|]. split; [done|]. split; [|done]. intros rc Hrc.
    apply Hq2; [|done]. apply (building_in_range rs Hb) in Hrc. apply elem_of_zrange. lia.
Qed.

(** ** Finalisation *)

Definition with_q (q : list Z) (cl : ra_class) : ra_class := RaClass (cl_regs cl) (cl_p cl) q.

(** [rs'] is [rs] with the q arrays replaced. *)
Definition q_replaced (rs : ra_regs) (Q : Z -> ra_class -> list Z) (rs' : ra_regs) : Prop :=
  rs' = set_classes rs (rs_classes rs') /\
  forall m, array_get (rs_classes rs') m = (fun cl => with_q (Q m cl) cl) <$> array_get (rs_classes rs) m.

Lemma q_replaced_upd rs Q rs1 b (f : ra_class -> option ra_class) q cl :
  q_replaced rs Q rs1 -> array_get (rs_classes rs) b = Some cl ->
  f (with_q (Q b cl) cl) = Some (with_q q cl) ->
  exists rs2, upd_class rs1 b f = Some rs2 /\
    q_replaced rs (fun m cl => if b =? m then q else Q m cl) rs2.
Proof.
  intros [Heq Hget] Hcl Hf.
  assert (array_get (rs_classes rs1) b = Some (with_q (Q b cl) cl)) as Hcl1
    by by rewrite Hget, Hcl.
  destruct (upd_class_spec rs1 b _ f _ Hcl1 Hf) as (rs2 & Hu & Heq2 & _ & Hget2).
  exists rs2. split; [done|]. split; [by rewrite Heq2, Heq|].
  intros m. rewrite Hget2. destruct (Z.eqb_spec b m) as [<-|]; [by rewrite Hcl|apply Hget].
Qed.

Lemma q_replaced_ext rs Q Q' rs' :
  (forall m cl, array_get (rs_classes rs) m = Some cl -> Q m cl = Q' m cl) ->
  q_replaced rs Q rs' -> q_replaced rs Q' rs'.
Proof.
  intros H [Heq Hget]. split; [done|]. intros m. rewrite Hget.
  destruct (array_get (rs_classes rs) m) eqn:E; [|done]. cbn. by rewrite (H m _ E).
Qed.

Lemma q_replaced_compute rs Q rs' b c :
  q_replaced rs Q rs' -> compute_q rs' b c = compute_q rs b c.
Proof.
  intros [Heq Hget]. unfold compute_q. rewrite !Hget, Heq. cbn.
  destruct (array_get (rs_classes rs) b) as [cb|]; [|done]. cbn.
  destruct (array_get (rs_classes rs) c) as [cc|]; [|done]. done.
Qed.

Section Finalize.
Context (rs : ra_regs) (q_values : option (list (list Z))) (V : Z -> Z -> Z).
Context (Hlen : Z.of_nat (length (rs_classes rs)) = rs_class_count rs).
(** The value to store does not depend on the q arrays. *)
Context (HV : forall Q rs' b c, q_replaced rs Q rs' ->
  0 <= b < rs_class_count rs -> 0 <= c < rs_class_count rs ->
  q_value q_values rs' b c = Some (V b c)).

Notation bs := (zrange 0 (Z.to_nat (rs_class_count rs))).

Lemma class_get b : 0 <= b < rs_class_count rs -> exists cl, array_get (rs_classes rs) b = Some cl.
Proof. intros Hb. apply array_get_is_Some. lia. Qed.

Lemma alloc_q_spec :
  exists rs', foldM alloc_q rs bs = Some rs' /\ q_replaced rs (fun _ _ => []) rs'.
Proof.
  destruct (foldM_ind (fun l1 rs1 => q_replaced rs (fun m cl =>
      if m <? Z.of_nat (length l1) then [] else cl_q cl) rs1) alloc_q bs rs)
    as (rs' & Hrs' & Hq).
  - split; [by destruct rs|]. intros m. destruct (array_get (rs_classes rs) m) as [cl|] eqn:E; [|done].
    apply array_get_lt in E. cbn.
    destruct (Z.ltb_spec m (Z.of_nat 0)); [lia|]. by destruct cl.
  - intros l1 b l2 rs1 [-> Hlt]%zrange_split Hq. rewrite Z.add_0_l.
    destruct (class_get (Z.of_nat (length l1))) as [cl Hcl]; [lia|].
    destruct (q_replaced_upd _ _ _ (Z.of_nat (length l1)) (fun class =>
      Some (RaClass (cl_regs class) (cl_p class) [])) [] cl Hq Hcl eq_refl) as (rs2 & Hu & Hq2).
    exists rs2. split; [exact Hu|]. eapply q_replaced_ext; [|exact Hq2]. intros m cl' _. cbn.
    rewrite length_app. cbn [length].
    destruct (Z.eqb_spec (Z.of_nat (length l1)) m), (Z.ltb_spec m (Z.of_nat (length l1))),
      (Z.ltb_spec m (Z.of_nat (length l1 + 1))); done || lia.
  - exists rs'. split; [done|]. eapply q_replaced_ext; [|exact Hq]. intros m cl Hm. cbn.
    apply array_get_lt in Hm. rewrite zrange_length.
    destruct (Z.ltb_spec m (Z.of_nat (Z.to_nat (rs_class_count rs)))); [done|lia].
Qed.

Definition q_row (b : Z) (k : nat) : list Z := V b <$> zrange 0 k.

Lemma q_row_S b k : q_row b (S k) = q_row b k ++ [V b (Z.of_nat k)].
Proof.
  unfold q_row, zrange. rewrite seq_S, !fmap_app. done.
Qed.

Lemma store_row b rs1 Q :
  0 <= b < rs_class_count rs -> (forall cl, Q b cl = []) -> q_replaced rs Q rs1 ->
  exists rs2, foldM (store_q q_values b) rs1 bs = Some rs2 /\
    q_replaced rs (fun m cl => if b =? m then q_row b (length bs) else Q m cl) rs2.
Proof.
  intros Hb HQ Hq1. destruct (class_get b Hb) as [cl Hcl].
  apply (foldM_ind (fun l1 rs2 => q_replaced rs (fun m cl =>
      if b =? m then q_row b (length l1) else Q m cl) rs2) (store_q q_values b) bs rs1).
  - eapply q_replaced_ext; [|exact Hq1]. intros m cl' _. cbn.
    destruct (Z.eqb_spec b m) as [<-|]; [by rewrite HQ|done].
  - intros l1 c l2 rs2 [-> Hlt]%zrange_split Hq2. rewrite Z.add_0_l.
    unfold store_q. rewrite (HV _ rs2 b (Z.of_nat (length l1)) Hq2) by lia. obind.
    destruct (q_replaced_upd _ _ _ b (fun class =>
      q ← array_init (cl_q class) (rs_class_count rs2) (Z.of_nat (length l1))
            (V b (Z.of_nat (length l1)));
      Some (RaClass (cl_regs class) (cl_p class) q))
      (q_row b (length l1) ++ [V b (Z.of_nat (length l1))]) cl Hq2 Hcl) as (rs3 & Hu & Hq3).
    + cbn. rewrite Z.eqb_refl. replace (rs_class_count rs2) with (rs_class_count rs)
        by (by rewrite (proj1 Hq2)).
      unfold array_init. replace (Z.of_nat (length (q_row b (length l1)))) with (Z.of_nat (length l1))
        by (unfold q_row; by rewrite length_fmap, zrange_length).
      rewrite Z.eqb_refl. rewrite (proj2 (Z.ltb_lt _ _)) by lia. reflexivity.
    + exists rs3. split; [exact Hu|]. eapply q_replaced_ext; [|exact Hq3]. intros m cl' _. cbn.
      destruct (b =? m); [|done]. by rewrite length_app, Nat.add_1_r, q_row_S.
Qed.

Lemma store_all rs1 :
  q_replaced rs (fun _ _ => []) rs1 ->
  exists rs2, foldM (fun regs b => foldM (store_q q_values b) regs bs) rs1 bs = Some rs2 /\
    q_replaced rs (fun m _ => q_row m (length bs)) rs2.
Proof.
  intros Hq1. destruct (foldM_ind (fun l1 rs2 => q_replaced rs (fun m cl =>
      if m <? Z.of_nat (length l1) then q_row m (length bs) else []) rs2)
    (fun regs b => foldM (store_q q_values b) regs bs) bs rs1) as (rs2 & Hrs2 & Hq2).
  - eapply q_replaced_ext; [|exact Hq1]. intros m cl Hm%array_get_lt. cbn.
    destruct (Z.ltb_spec m (Z.of_nat 0)); [lia|done].
  - intros l1 b l2 rs2 [-> Hlt]%zrange_split Hq2. rewrite Z.add_0_l.
    destruct (store_row (Z.of_nat (length l1)) rs2 (fun m cl =>
      if m <? Z.of_nat (length l1) then q_row m (length bs) else [])) as (rs3 & Hu & Hq3);
      [lia|intros cl; by rewrite Z.ltb_irrefl|done|].
    exists rs3. split; [exact Hu|]. eapply q_replaced_ext; [|exact Hq3]. intros m cl' _. cbn.
    rewrite length_app. cbn [length].
    destruct (Z.eqb_spec (Z.of_nat (length l1)) m) as [Hm|Hm]; [rewrite Hm|];
      destruct (Z.ltb_spec m (Z.of_nat (length l1))),
      (Z.ltb_spec m (Z.of_nat (length l1 + 1))); done || lia.
  - exists rs2. split; [done|]. eapply q_replaced_ext; [|exact Hq2]. intros m cl Hm%array_get_lt. cbn.
    rewrite zrange_length.
    destruct (Z.ltb_spec m (Z.of_nat (Z.to_nat (rs_class_count rs)))); [done|lia].
Qed.
End Finalize.

Definition without_list (rg : ra_reg) : ra_reg :=
  RaReg (rg_conflicts rg) None (rg_conflict_list_size rg) (rg_num_conflicts rg).

Lemma free_lists_spec rs :
  Z.of_nat (length (rs_regs rs)) = rs_count rs ->
  exists rs', foldM free_conflict_list rs (all_regs rs) = Some rs' /\
    rs' = set_regs rs (rs_regs rs') /\
    forall r, array_get (rs_regs rs') r = without_list <$> array_get (rs_regs rs) r.
Proof.
  intros Hlen. destruct (foldM_ind (fun l1 rs1 => rs1 = set_regs rs (rs_regs rs1) /\
    forall r, array_get (rs_regs rs1) r = (fun rg => if r <? Z.of_nat (length l1)
      then without_list rg else rg) <$> array_get (rs_regs rs) r) free_conflict_list (all_regs rs) rs)
    as (rs' & Hrs' & Heq & Hget).
  - split; [by destruct rs|]. intros r. destruct (array_get (rs_regs rs) r) eqn:E; [|done].
    apply array_get_lt in E. cbn. destruct (Z.ltb_spec r (Z.of_nat 0)); [lia|done].
  - intros l1 r l2 rs1 [-> Hlt]%zrange_split [Heq Hget]. rewrite Z.add_0_l.
    destruct (array_get_is_Some (rs_regs rs) (Z.of_nat (length l1))) as [rg Hrg]; [lia|].
    assert (array_get (rs_regs rs1) (Z.of_nat (length l1)) = Some rg) as Hrg1.
    { rewrite Hget, Hrg. cbn. by rewrite Z.ltb_irrefl. }
    destruct (upd_reg_spec rs1 (Z.of_nat (length l1)) rg (fun reg => Some (without_list reg))
      (without_list rg) Hrg1 eq_refl) as (rs2 & Hu & Heq2 & _ & Hget2).
    exists rs2. split; [exact Hu|]. split; [by rewrite Heq2, Heq|]. intros m. rewrite Hget2, Hget.
    rewrite length_app. cbn [length].
    destruct (Z.eqb_spec (Z.of_nat (length l1)) m) as [<-|].
    + rewrite Hrg. cbn. rewrite (proj2 (Z.ltb_lt _ _)) by lia. done.
    + destruct (array_get (rs_regs rs) m); [|done]. cbn.
      destruct (Z.ltb_spec m (Z.of_nat (length l1))), (Z.ltb_spec m (Z.of_nat (length l1 + 1)));
        done || lia.
  - exists rs'. split; [done|]. split; [done|]. intros r. rewrite Hget, zrange_length.
    destruct (array_get (rs_regs rs) r) eqn:E; [|done]. apply array_get_lt in E. cbn.
    destruct (Z.ltb_spec r (Z.of_nat (Z.to_nat (rs_count rs)))); [done|lia].
Qed.

(** What [ra_set_finalize] keeps and what it computes. *)
Record finalized_from (rs rs' : ra_regs) (V : Z -> Z -> Z) : Prop := {
  ff_count : rs_count rs' = rs_count rs;
  ff_class_count : rs_class_count rs' = rs_class_count rs;
  ff_round_robin : rs_round_robin rs' = rs_round_robin rs;
  ff_regs : forall r, array_get (rs_regs rs') r = without_list <$> array_get (rs_regs rs) r;
  ff_length : length (rs_regs rs') = length (rs_regs rs);
  ff_classes : forall c, array_get (rs_classes rs') c =
    with_q (q_row V c (Z.to_nat (rs_class_count rs))) <$> array_get (rs_classes rs) c;
  ff_class_length : length (rs_classes rs') = length (rs_classes rs) }.

Lemma array_get_length {A B} (f : Z -> A -> B) (l : list A) (l' : list B) :
  (forall i, array_get l' i = f i <$> array_get l i) -> length l' = length l.
Proof.
  intros H. apply Nat.le_antisymm; apply Nat.nlt_ge; intros Hlt.
  - destruct (array_get_is_Some l' (Z.of_nat (length l))) as [x Hx]; [lia|].
    rewrite H in Hx. destruct (array_get l _) eqn:E; [|done]. apply array_get_lt in E. lia.
  - destruct (array_get_is_Some l (Z.of_nat (length l'))) as [x Hx]; [lia|].
    pose proof (H (Z.of_nat (length l'))) as H'. rewrite Hx in H'.
    apply array_get_lt in H'. lia.
Qed.

Lemma ra_set_finalize_gen rs q_values V :
  building rs ->
  (forall Q rs' b c, q_replaced rs Q rs' ->
    0 <= b < rs_class_count rs -> 0 <= c < rs_class_count rs ->
    q_value q_values rs' b c = Some (V b c)) ->
  exists rs', ra_set_finalize rs q_values = Some rs' /\ finalized_from rs rs' V.
Proof.
  intros Hb HV. unfold ra_set_finalize.
  destruct (alloc_q_spec rs q_values V (bu_class_length rs Hb) HV) as (rs1 & -> & Hq1). obind.
  destruct (store_all rs q_values V (bu_class_length rs Hb) HV rs1 Hq1) as (rs2 & -> & Hq2). obind.
  destruct Hq2 as [Eq2 Get2].
  destruct (free_lists_spec rs2) as (rs3 & -> & Eq3 & Get3).
  { rewrite Eq2. apply Hb. }
  exists rs3. split; [done|].
  assert (rs_regs rs2 = rs_regs rs) as ER by by rewrite Eq2.
  assert (rs_classes rs3 = rs_classes rs2) as EC by by rewrite Eq3.
  split.
  - by rewrite Eq3, Eq2.
  - by rewrite Eq3, Eq2.
  - by rewrite Eq3, Eq2.
  - intros r. by rewrite Get3, ER.
  - rewrite <- ER. by apply (array_get_length (fun _ => without_list)).
  - intros c. rewrite EC, Get2, zrange_length. done.
  - rewrite EC. eapply array_get_length. exact Get2.
Qed.

Lemma ff_conflict rs rs' V r1 r2 :
  finalized_from rs rs' V -> conflict rs' r1 r2 = conflict rs r1 r2.
Proof. intros Hf. unfold conflict. rewrite (ff_regs _ _ _ Hf). by destruct (array_get _ _). Qed.

Lemma ff_in_class rs rs' V c r :
  finalized_from rs rs' V -> in_class rs' c r = in_class rs c r.
Proof. intros Hf. unfold in_class. rewrite (ff_classes _ _ _ Hf). by destruct (array_get _ _). Qed.

Lemma ff_p rs rs' V c : finalized_from rs rs' V -> p_of rs' c = p_of rs c.
Proof. intros Hf. unfold p_of. rewrite (ff_classes _ _ _ Hf). by destruct (array_get _ _). Qed.

Lemma q_row_get V b k c : 0 <= c < Z.of_nat k -> array_get (q_row V b k) c = Some (V b c).
Proof.
  intros Hc. apply array_get_Some. split; [lia|]. unfold q_row, zrange.
  rewrite !list_lookup_fmap, lookup_seq_lt by lia. cbn. do 2 f_equal. lia.
Qed.

Lemma ff_q rs rs' V b c :
  building rs -> finalized_from rs rs' V -> 0 <= b < rs_class_count rs ->
  0 <= c < rs_class_count rs -> q_of rs' b c = V b c.
Proof.
  intros Hb Hf Hbr Hcr. unfold q_of. rewrite (ff_classes _ _ _ Hf).
  destruct (array_get_is_Some (rs_classes rs) b) as [cl ->]; [by rewrite (bu_class_length rs Hb)|].
  cbn [fmap option_fmap option_map]. obind. cbn [with_q cl_q]. rewrite q_row_get by lia. done.
Qed.

Lemma ff_regs_ok rs rs' V : building rs -> finalized_from rs rs' V -> regs_ok rs'.
Proof.
  intros Hb Hf. pose proof (building_regs_ok rs Hb) as [R1 R2 R3 R4 R5 R6].
  split; rewrite ?(ff_count _ _ _ Hf), ?(ff_class_count _ _ _ Hf), ?(ff_length _ _ _ Hf),
    ?(ff_class_length _ _ _ Hf); try done.
  - intros r rg. rewrite (ff_regs _ _ _ Hf). destruct (array_get (rs_regs rs) r) eqn:E; [|done].
    intros [= <-]. exact (R3 r _ E).
  - intros c cl. rewrite (ff_classes _ _ _ Hf).
    destruct (array_get (rs_classes rs) c) eqn:E; [|done]. intros [= <-]. exact (R6 c _ E).
Qed.

Lemma ff_finalized rs rs' V :
  building rs -> finalized_from rs rs' V ->
  (forall b c, 0 <= b < rs_class_count rs -> 0 <= c < rs_class_count rs ->
    0 <= V b c <= rs_count rs) -> finalized rs'.
Proof.
  intros Hb Hf HV b cl Hcl. rewrite (ff_count _ _ _ Hf), (ff_class_count _ _ _ Hf).
  rewrite (ff_classes _ _ _ Hf) in Hcl.
  destruct (array_get (rs_classes rs) b) as [cl0|] eqn:E; [|done]. injection Hcl as <-. cbn.
  apply array_get_lt in E. rewrite (bu_class_length rs Hb) in E. split.
  - unfold q_row. rewrite length_fmap, zrange_length. lia.
  - intros c Hc. rewrite (ff_q rs rs' V) by done. by apply HV.
Qed.

Lemma ra_set_finalize_spec rs :
  building rs -> has_lists rs ->
  exists rs' V, ra_set_finalize rs None = Some rs' /\ finalized_from rs rs' V /\
    (forall b c, 0 <= b < rs_class_count rs -> 0 <= c < rs_class_count rs -> is_q rs b c (V b c)) /\
    regs_ok rs' /\ finalized rs' /\ pq_regs rs'.
Proof.
  intros Hb Hls. set (V := fun b c => default 0 (compute_q rs b c)).
  assert (forall b c, 0 <= b < rs_class_count rs -> 0 <= c < rs_class_count rs ->
    compute_q rs b c = Some (V b c) /\ is_q rs b c (V b c)) as HV.
  { intros b c Hbr Hcr. destruct (compute_q_spec rs b c Hb Hls Hbr Hcr) as (q & Hq & Hi).
    unfold V. by rewrite Hq. }
  destruct (ra_set_finalize_gen rs None V Hb) as (rs' & Hfin & Hf).
  { intros Q rs1 b c Hq Hbr Hcr. cbn. rewrite (q_replaced_compute rs Q) by done.
    by apply HV. }
  exists rs', V. split; [done|]. split; [done|]. split; [intros; by apply HV|].
  split; [by eapply ff_regs_ok|]. split.
  { eapply ff_finalized; [done..|]. intros b c Hbr Hcr. by apply HV. }
  split.
  - intros r1 r2. rewrite (ff_count _ _ _ Hf), !(ff_conflict _ _ _ _ _ Hf). apply Hb.
  - intros c r. rewrite (ff_in_class _ _ _ _ _ Hf), (ff_count _ _ _ Hf).
    apply building_in_range. done.
  - intros c. rewrite (ff_class_count _ _ _ Hf), (ff_count _ _ _ Hf), (ff_p _ _ _ _ Hf). intros Hc.
    destruct (array_get_is_Some (rs_classes rs) c) as [cl Hcl]; [by rewrite (bu_class_length rs Hb)|].
    unfold p_of. rewrite Hcl. cbn. rewrite (ck_p _ _ (bu_class rs Hb c cl Hcl)).
    apply count_if_ext. intros r. by rewrite (ff_in_class _ _ _ _ _ Hf), (in_class_get _ _ _ _ Hcl).
  - intros b c rc Hbr. rewrite (ff_in_class _ _ _ _ _ Hf). intros Hrc.
    rewrite (ff_class_count _ _ _ Hf) in Hbr.
    assert (0 <= c < rs_class_count rs) as Hcr.
    { unfold in_class in Hrc. destruct (array_get (rs_classes rs) c) eqn:E; [|done].
      apply array_get_lt in E. by rewrite (bu_class_length rs Hb) in E. }
    rewrite (ff_q rs rs' V), (ff_count _ _ _ Hf) by done.
    destruct (HV b c Hbr Hcr) as (_ & _ & Hle & _). etransitivity; [|by apply Hle].
    unfold conflicts_in. apply Z.eq_le_incl, count_if_ext. intros rb.
    by rewrite (ff_in_class _ _ _ _ _ Hf), (ff_conflict _ _ _ _ _ Hf).
Qed.
