(* ===== verification/RegAllocGraph.v ===== *)
(** * Building interference graphs ([src/util/register_allocate.c])

    Every graph the construction functions make is ready for [ra_allocate]:
    interferences are symmetric and stored without duplicates, and [q_total] is
    the exact sum of the q values of the neighbours. *)
From Stdlib Require Import SpecFloat Btauto.
From S2P Require Import Prelude Bitset RegAlloc RegAllocCorrect RegAllocSelect RegAllocBuild.

Record node_ok (count : Z) (nd : ra_node) : Prop := {
  nk_words : bs_ok count (nd_adjacency nd);
  nk_mem : forall m, m ∈ nd_adjacency_list nd <-> bmem (nd_adjacency nd) m = true;
  nk_count : nd_adjacency_count nd = Z.of_nat (length (nd_adjacency_list nd));
  nk_size : 4 <= nd_adjacency_list_size nd < 2 ^ 32;
  nk_fits : nd_adjacency_count nd <= nd_adjacency_list_size nd }.

Record graph_building (g : ra_graph) : Prop := {
  gb_ok : graph_ok g;
  gb_fresh : fresh_stack g;
  gb_node : forall n nd, node g n = Some nd -> node_ok (gr_count g) nd }.

Lemma array_get_replicate {A} n (x : A) i :
  array_get (replicate n x) i = if (0 <=? i) && (i <? Z.of_nat n) then Some x else None.
Proof.
  unfold array_get. destruct (Z.leb_spec 0 i); [|done]. cbn.
  destruct (Z.ltb_spec i (Z.of_nat n)).
  - apply lookup_replicate_2. lia.
  - apply lookup_replicate_None. lia.
Qed.

Lemma alloc_graph_building rs count :
  regs_ok rs -> finalized rs -> 0 < rs_class_count rs -> 0 <= count < 2 ^ 31 ->
  count * rs_count rs < UINT_MAX ->
  graph_building (ra_alloc_interference_graph rs count) /\
  (forall n, adj (ra_alloc_interference_graph rs count) n = []) /\
  (forall n, reg (ra_alloc_interference_graph rs count) n = NO_REG).
Proof.
  intros Hok Hfin Hcl Hc Hbound. set (g := ra_alloc_interference_graph rs count).
  assert (forall n nd, node g n = Some nd -> nd = RaNode
    (replicate (Z.to_nat (BITSET_WORDS count)) 0) [] 4 0 0 NO_REG false 0 (S754_zero false)) as Hn.
  { intros n nd H. unfold g in H. cbn in H. rewrite array_get_replicate in H.
    destruct (_ && _); congruence. }
  assert (forall n, adj g n = []) as Hadj.
  { intros n. unfold adj. destruct (node g n) eqn:E; [|done]. by rewrite (Hn n _ E). }
  assert (forall n, cls g n = 0) as Hcls.
  { intros n. unfold cls. destruct (node g n) eqn:E; [|done]. by rewrite (Hn n _ E). }
  split; [|split; [done|]].
  - split.
    + split; try done; cbn.
      * rewrite length_replicate. lia.
      * rewrite length_replicate. lia.
      * intros n nd H. by rewrite (Hn n nd H).
      * intros n _. rewrite Hcls. lia.
      * intros n n2. rewrite Hadj. set_solver.
      * intros n. rewrite Hadj. constructor.
    + split; [done|]. split.
      * intros n. unfold instk. destruct (node g n) eqn:E; [|done]. by rewrite (Hn n _ E).
      * intros n _. unfold qsum. rewrite Hadj. unfold qt.
        destruct (node g n) eqn:E; [|done]. by rewrite (Hn n _ E).
    + intros n nd H. rewrite (Hn n nd H). split; cbn; try lia.
      * by apply bs_ok_zero.
      * intros m. rewrite bmem_zero. set_solver.
  - intros n. unfold reg. destruct (node g n) eqn:E; [|done]. by rewrite (Hn n _ E).
Qed.

(** ** Interferences *)

(** Node [nd] with one more neighbour, of q value [q]. *)
Record extended (count : Z) (nd : ra_node) (n2 q : Z) (nd' : ra_node) : Prop := {
  ex_node : node_ok count nd';
  ex_list : nd_adjacency_list nd' = nd_adjacency_list nd ++ [n2];
  ex_class : nd_class nd' = nd_class nd;
  ex_reg : nd_reg nd' = nd_reg nd;
  ex_stack : nd_in_stack nd' = nd_in_stack nd;
  ex_q : nd_q_total nd' = u32 (nd_q_total nd + q) }.

Lemma add_adjacency_spec g n1 n2 nd1 nd2 q :
  0 <= gr_count g < 2 ^ 31 -> n1 <> n2 -> 0 <= n2 < gr_count g ->
  node g n1 = Some nd1 -> node g n2 = Some nd2 -> node_ok (gr_count g) nd1 ->
  Z.of_nat (length (nd_adjacency_list nd1)) < gr_count g -> ~ n2 ∈ nd_adjacency_list nd1 ->
  class_q g (nd_class nd1) (nd_class nd2) = Some q ->
  exists g' nd1', ra_add_node_adjacency g n1 n2 = Some g' /\
    extended (gr_count g) nd1 n2 q nd1' /\
    nodes_by g (fun m nd => if n1 =? m then nd1' else nd) g'.
Proof.
  intros Hc Hne Hn2 Hnd1 Hnd2 [W Me Co Si Fi] Hlen Hfresh Hq. unfold ra_add_node_adjacency.
  rewrite Hnd1. obind. destruct (BITSET_SET_spec _ _ n2 Hc W Hn2) as (x & -> & Hx & Hm). obind.
  replace (n1 =? n2) with false by lia. rewrite Hnd2. obind. rewrite Hq. obind.
  assert (exists size, (if nd_adjacency_list_size nd1 <=? nd_adjacency_count nd1 then
      (reralloc (nd_adjacency_list nd1) (u32 (nd_adjacency_list_size nd1 * 2)),
       u32 (nd_adjacency_list_size nd1 * 2))
    else (nd_adjacency_list nd1, nd_adjacency_list_size nd1)) = (nd_adjacency_list nd1, size) /\
    4 <= size < 2 ^ 32 /\ nd_adjacency_count nd1 < size) as (size & Hsz & Hs1 & Hs2).
  { destruct (Z.leb_spec (nd_adjacency_list_size nd1) (nd_adjacency_count nd1)).
    - exists (nd_adjacency_list_size nd1 * 2). rewrite u32_small by lia. unfold reralloc.
      rewrite take_ge by lia. split; [done|lia].
    - exists (nd_adjacency_list_size nd1). split; [done|lia]. }
  cbv zeta. rewrite Hsz. unfold array_init. rewrite (proj2 (Z.ltb_lt _ _) Hs2), Co, Z.eqb_refl. obind.
  match goal with |- context [upd_node g n1 ?f] =>
    destruct (upd_node_by g _ g n1 f (nodes_by_refl g) (ex_intro _ nd1 Hnd1)) as (g' & -> & Hby) end.
  eexists g', _. split; [done|]. split; last first.
  { eapply nodes_by_ext; [|exact Hby]. intros m nd Hmm. cbn.
    destruct (Z.eqb_spec n1 m) as [<-|]; [|done]. rewrite Hnd1 in Hmm. injection Hmm as <-.
    reflexivity. }
  split; cbn; try done. rewrite Co in *. split; cbn; try done; try lia.
  - intros m. rewrite elem_of_app, list_elem_of_singleton, Me.
    destruct (Z.le_gt_cases 0 m).
    + rewrite Hm by done. rewrite orb_true_iff, Z.eqb_eq. naive_solver.
    + split; [intros [H'%bmem_nonneg| ->]; lia|]. intros H'%bmem_nonneg. lia.
  - rewrite u32_small, length_app by lia. cbn. lia.
  - rewrite u32_small by lia. lia.
Qed.

Lemma interference_nodes g n1 n2 :
  graph_building g -> 0 <= n1 < gr_count g -> 0 <= n2 < gr_count g -> n1 <> n2 ->
  ~ n2 ∈ adj g n1 ->
  exists g' nd1 nd2 nd1' nd2', ra_add_node_interference g n1 n2 = Some g' /\
    node g n1 = Some nd1 /\ node g n2 = Some nd2 /\
    extended (gr_count g) nd1 n2 (q_of (gr_regs g) (cls g n1) (cls g n2)) nd1' /\
    extended (gr_count g) nd2 n1 (q_of (gr_regs g) (cls g n2) (cls g n1)) nd2' /\
    nodes_by g (fun m nd => if n2 =? m then nd2' else if n1 =? m then nd1' else nd) g'.
Proof.
  intros [Hg Hfr Hnk] Hn1 Hn2 Hne Hfresh.
  destruct (node_is_Some g n1 Hg Hn1) as [nd1 Hnd1]. destruct (node_is_Some g n2 Hg Hn2) as [nd2 Hnd2].
  assert (adj g n1 = nd_adjacency_list nd1) as A1 by by apply view_node.
  assert (adj g n2 = nd_adjacency_list nd2) as A2 by by apply view_node.
  assert (~ n1 ∈ adj g n2) as Hfresh2 by (intros H; by apply (go_adj g Hg) in H as (_ & _ & ?)).
  assert (forall n m, ~ m ∈ adj g n -> 0 <= m < gr_count g ->
    Z.of_nat (length (adj g n)) < gr_count g) as Hroom.
  { intros n m Hm Hr. assert (adj g n ++ [m] ⊆+ zrange 0 (Z.to_nat (gr_count g))) as Hsub.
    - apply NoDup_submseteq.
      + apply NoDup_app. split; [apply Hg|]. split; [|apply NoDup_singleton]. set_solver.
      + intros x [[Hx _]%(go_adj g Hg)|Hx]%elem_of_app; apply elem_of_zrange; [lia|].
        apply list_elem_of_singleton in Hx as ->. lia.
    - apply submseteq_length in Hsub. rewrite zrange_length, length_app in Hsub. cbn in Hsub. lia. }
  unfold ra_add_node_interference. replace (n1 =? n2) with false by lia. rewrite Hnd1. obind.
  rewrite (BITSET_TEST_spec (gr_count g)); [|apply Hg|apply (Hnk n1 nd1 Hnd1)|done]. obind.
  assert (bmem (nd_adjacency nd1) n2 = false) as Hbm.
  { destruct (bmem (nd_adjacency nd1) n2) eqn:E; [|done].
    apply (nk_mem _ _ (Hnk n1 nd1 Hnd1)) in E. by rewrite <- A1 in E. }
  rewrite Hbm. cbn [negb].
  pose proof (class_q_spec g n1 n2 Hg Hn1 Hn2) as [Hq1 _].
  pose proof (class_q_spec g n2 n1 Hg Hn2 Hn1) as [Hq2 _].
  rewrite (view_node _ _ _ _ _ Hnd1 : cls g n1 = _), (view_node _ _ _ _ _ Hnd2 : cls g n2 = _) in *.
  destruct (add_adjacency_spec g n1 n2 nd1 nd2 (q_of (gr_regs g) (nd_class nd1) (nd_class nd2))
    (go_count g Hg) Hne Hn2 Hnd1 Hnd2
    (Hnk n1 nd1 Hnd1)) as (g1 & nd1' & -> & Hex1 & Hby1); [|by rewrite <- A1|exact Hq1|].
  { rewrite <- A1. by apply (Hroom n1 n2). }
  obind.
  assert (node g1 n1 = Some nd1') as Hnd1'
    by (rewrite (proj2 Hby1), Hnd1; cbn; by rewrite Z.eqb_refl).
  assert (node g1 n2 = Some nd2) as Hnd2'.
  { rewrite (proj2 Hby1), Hnd2. cbn. by replace (n1 =? n2) with false by lia. }
  assert (gr_count g1 = gr_count g) as Ec by by rewrite (proj1 Hby1).
  destruct (add_adjacency_spec g1 n2 n1 nd2 nd1' (q_of (gr_regs g) (nd_class nd2) (nd_class nd1)))
    as (g2 & nd2' & -> & Hex2 & Hby2); rewrite ?Ec; try done; [apply Hg|by apply Hnk in Hnd2| | | |].
  - rewrite <- A2. by apply (Hroom n2 n1).
  - by rewrite <- A2.
  - rewrite (ex_class _ _ _ _ _ Hex1), <- Hq2. unfold class_q. by rewrite (proj1 Hby1).
  - rewrite Ec in Hex2. exists g2, nd1, nd2, nd1', nd2'. split_and!; try done.
    split; [by rewrite (proj1 Hby2), (proj1 Hby1)|]. intros m. rewrite (proj2 Hby2), (proj2 Hby1).
    destruct (node g m); [|done]. cbn. by destruct (n2 =? m).
Qed.

Definition adj_with (g : ra_graph) (n1 n2 m : Z) : list Z :=
  adj g m ++ (if n2 =? m then [n1] else if n1 =? m then [n2] else []).

Lemma sumZ_app {A} (f : A -> Z) l1 l2 : sumZ f (l1 ++ l2) = sumZ f l1 + sumZ f l2.
Proof. induction l1 as [|x l1 IH]; [done|]. cbn [app]. rewrite !sumZ_cons, IH. lia. Qed.

Record linked (g : ra_graph) (n1 n2 : Z) (g' : ra_graph) : Prop := {
  lk_regs : gr_regs g' = gr_regs g;
  lk_count : gr_count g' = gr_count g;
  lk_stack : gr_stack g' = gr_stack g /\ gr_stack_count g' = gr_stack_count g;
  lk_length : length (gr_nodes g') = length (gr_nodes g);
  lk_node : forall m nd, node g' m = Some nd -> node_ok (gr_count g) nd;
  lk_adj : forall m, adj g' m = adj_with g n1 n2 m;
  lk_cls : forall m, cls g' m = cls g m;
  lk_reg : forall m, reg g' m = reg g m;
  lk_instk : forall m, instk g' m = instk g m;
  lk_qt : forall m, qt g' m = if n2 =? m then u32 (qt g m + q_of (gr_regs g) (cls g m) (cls g n1))
    else if n1 =? m then u32 (qt g m + q_of (gr_regs g) (cls g m) (cls g n2)) else qt g m }.

Lemma interference_linked g n1 n2 :
  graph_building g -> 0 <= n1 < gr_count g -> 0 <= n2 < gr_count g -> n1 <> n2 ->
  ~ n2 ∈ adj g n1 ->
  exists g', ra_add_node_interference g n1 n2 = Some g' /\ linked g n1 n2 g'.
Proof.
  intros Hb Hn1 Hn2 Hne Hfr. pose proof (gb_node g Hb) as Hnk.
  destruct (interference_nodes g n1 n2 Hb Hn1 Hn2 Hne Hfr)
    as (g' & nd1 & nd2 & nd1' & nd2' & Hrun & Hnd1 & Hnd2 & [X1 X2 X3 X4 X5 X6] & [Y1 Y2 Y3 Y4 Y5 Y6]
        & Hby).
  exists g'. split; [done|]. pose proof (nodes_by_length _ _ _ Hby) as Hl.
  destruct Hby as [Heq Hget].
  split; try (by rewrite Heq); try done.
  - intros m nd. rewrite Hget. destruct (node g m) as [nd0|] eqn:E; [|done]. intros [= <-].
    destruct (n2 =? m); [done|]. destruct (n1 =? m); [done|]. by eapply Hnk.
  - intros m. unfold adj_with, adj. rewrite Hget.
    destruct (Z.eqb_spec n2 m) as [<-|]; [rewrite Hnd2; cbn; by rewrite Y2|].
    destruct (Z.eqb_spec n1 m) as [<-|]; [rewrite Hnd1; cbn; by rewrite X2|].
    rewrite app_nil_r. by destruct (node g m).
  - intros m. unfold cls. rewrite Hget.
    destruct (Z.eqb_spec n2 m) as [<-|]; [rewrite Hnd2; cbn; by rewrite Y3|].
    destruct (Z.eqb_spec n1 m) as [<-|]; [rewrite Hnd1; cbn; by rewrite X3|].
    by destruct (node g m).
  - intros m. unfold reg. rewrite Hget.
    destruct (Z.eqb_spec n2 m) as [<-|]; [rewrite Hnd2; cbn; by rewrite Y4|].
    destruct (Z.eqb_spec n1 m) as [<-|]; [rewrite Hnd1; cbn; by rewrite X4|].
    by destruct (node g m).
  - intros m. unfold instk. rewrite Hget.
    destruct (Z.eqb_spec n2 m) as [<-|]; [rewrite Hnd2; cbn; by rewrite Y5|].
    destruct (Z.eqb_spec n1 m) as [<-|]; [rewrite Hnd1; cbn; by rewrite X5|].
    by destruct (node g m).
  - intros m. unfold qt. rewrite Hget.
    destruct (Z.eqb_spec n2 m) as [<-|]; [rewrite Hnd2; cbn; by rewrite Y6|].
    destruct (Z.eqb_spec n1 m) as [<-|]; [rewrite Hnd1; cbn; by rewrite X6|].
    by destruct (node g m).
Qed.

Lemma elem_adj_with g n1 n2 a b :
  n1 <> n2 ->
  b ∈ adj_with g n1 n2 a <-> b ∈ adj g a \/ (a = n1 /\ b = n2) \/ (a = n2 /\ b = n1).
Proof.
  intros Hne. unfold adj_with. rewrite elem_of_app.
  destruct (Z.eqb_spec n2 a), (Z.eqb_spec n1 a); rewrite ?list_elem_of_singleton; set_solver.
Qed.

Lemma linked_graph_ok g n1 n2 g' :
  graph_building g -> 0 <= n1 < gr_count g -> 0 <= n2 < gr_count g -> n1 <> n2 ->
  ~ n2 ∈ adj g n1 -> linked g n1 n2 g' -> graph_ok g'.
Proof.
  intros [Hg Hfr Hnk] Hn1 Hn2 Hne Hnin [L1 L2 L3 L4 L5 L6 L7 L8 L9 L10].
  assert (~ n1 ∈ adj g n2) as Hnin2 by (intros H; by apply (go_adj g Hg) in H as (_ & _ & ?)).
  destruct Hg as [G1 G2 G3 G4 G5 G6 G7 G8 G9 G10].
  split; rewrite ?L1, ?L2, ?L4, ?(proj1 L3); try done.
  - intros n nd Hn. by apply (L5 n nd Hn).
  - intros n. rewrite L7. apply G7.
  - intros n m. rewrite !L6, !elem_adj_with by done. intros [H|H]; [|naive_solver].
    apply G8 in H as (? & ? & ?). auto.
  - intros n. rewrite L6. unfold adj_with. apply NoDup_app. split; [apply G9|].
    destruct (Z.eqb_spec n2 n) as [<-|]; [split; [|apply NoDup_singleton]; set_solver|].
    destruct (Z.eqb_spec n1 n) as [<-|]; [split; [|apply NoDup_singleton]; set_solver|].
    split; [set_solver|constructor].
Qed.

Lemma linked_building g n1 n2 g' :
  graph_building g -> 0 <= n1 < gr_count g -> 0 <= n2 < gr_count g -> n1 <> n2 ->
  ~ n2 ∈ adj g n1 -> linked g n1 n2 g' -> graph_building g'.
Proof.
  intros Hb Hn1 Hn2 Hne Hnin Hl. pose proof (linked_graph_ok g n1 n2 g' Hb Hn1 Hn2 Hne Hnin Hl) as Hg'.
  destruct Hb as [Hg (F1 & F2 & F3) Hnk]. destruct Hl as [L1 L2 L3 L4 L5 L6 L7 L8 L9 L10].
  split; [done| |by rewrite L2]. split; [by rewrite (proj2 L3)|].
  split; [intros; by rewrite L9|]. intros n Hn.
  pose proof (qsum_bounds g' (fun _ => false) n Hg' Hn) as Hbound. rewrite L2 in Hn.
  assert (qsum g' (fun _ => false) n = qt g n +
    (if n2 =? n then q_of (gr_regs g) (cls g n) (cls g n1)
     else if n1 =? n then q_of (gr_regs g) (cls g n) (cls g n2) else 0)) as Hsum.
  { rewrite (F3 n Hn). unfold qsum. rewrite L6, L1, L7. unfold adj_with. rewrite sumZ_app. f_equal.
    - apply sumZ_ext. intros x _. by rewrite L7.
    - destruct (n2 =? n); [cbn; rewrite L7; lia|]. destruct (n1 =? n); [cbn; rewrite L7; lia|done]. }
  rewrite L10, Hsum. rewrite Hsum in Hbound. unfold UINT_MAX in Hbound.
  destruct (n2 =? n); [apply u32_small; lia|].
  destruct (n1 =? n); [apply u32_small; lia|lia].
Qed.

(** The whole operation, whatever the two nodes are. *)
Lemma interference_spec g n1 n2 :
  graph_building g -> 0 <= n1 < gr_count g -> 0 <= n2 < gr_count g ->
  exists g', ra_add_node_interference g n1 n2 = Some g' /\ graph_building g' /\
    gr_regs g' = gr_regs g /\ gr_count g' = gr_count g /\
    (forall m, cls g' m = cls g m) /\ (forall m, reg g' m = reg g m) /\
    forall a b, b ∈ adj g' a <-> b ∈ adj g a \/ (n1 <> n2 /\ pair_eqb n1 n2 a b = true).
Proof.
  intros Hb Hn1 Hn2. pose proof Hb as [Hg Hfr Hnk].
  destruct (Z.eq_dec n1 n2) as [->|Hne].
  { exists g. unfold ra_add_node_interference. rewrite Z.eqb_refl. split_and!; naive_solver. }
  destruct (decide (n2 ∈ adj g n1)) as [Hin|Hnin].
  - exists g. unfold ra_add_node_interference. replace (n1 =? n2) with false by lia.
    destruct (node_is_Some g n1 Hg Hn1) as [nd1 Hnd1]. rewrite Hnd1. obind.
    rewrite (BITSET_TEST_spec (gr_count g)); [|apply Hg|apply (Hnk n1 nd1 Hnd1)|done]. obind.
    rewrite (proj1 (nk_mem _ _ (Hnk n1 nd1 Hnd1) n2));
      [|by rewrite <- (view_node _ _ _ _ _ Hnd1 : adj g n1 = _)].
    split_and!; try done. intros a b. split; [by left|]. intros [?|[_ He]]; [done|].
    pose proof (go_adj g Hg _ _ Hin) as (_ & _ & Hin').
    unfold pair_eqb in He. assert ((a = n1 /\ b = n2) \/ (a = n2 /\ b = n1)) as [[-> ->]|[-> ->]]
      by lia; done.
  - destruct (interference_linked g n1 n2 Hb Hn1 Hn2 Hne Hnin) as (g' & Hrun & Hl).
    exists g'. split; [done|]. split; [by apply (linked_building g n1 n2)|].
    destruct Hl as [L1 L2 L3 L4 L5 L6 L7 L8 L9 L10]. split_and!; try done.
    intros a b. rewrite L6, elem_adj_with by done. unfold pair_eqb.
    rewrite orb_true_iff, !andb_true_iff, !Z.eqb_eq. naive_solver.
Qed.

(** ** Node attributes *)

(** Updates that leave adjacency, class and q total alone and the node off the stack. *)
Definition attribute_update (f : ra_node -> ra_node) : Prop :=
  forall nd, nd_adjacency (f nd) = nd_adjacency nd /\
    nd_adjacency_list (f nd) = nd_adjacency_list nd /\
    nd_adjacency_list_size (f nd) = nd_adjacency_list_size nd /\
    nd_adjacency_count (f nd) = nd_adjacency_count nd /\ nd_class (f nd) = nd_class nd /\
    nd_q_total (f nd) = nd_q_total nd /\
    (nd_in_stack nd = false -> nd_in_stack (f nd) = false).

Lemma attribute_update_spec g n f :
  attribute_update f -> graph_building g -> 0 <= n < gr_count g ->
  exists g', upd_node g n f = Some g' /\ graph_building g' /\ gr_regs g' = gr_regs g /\
    gr_count g' = gr_count g /\ (forall m, adj g' m = adj g m) /\ (forall m, cls g' m = cls g m) /\
    (forall m, node g' m = (if n =? m then f else id) <$> node g m).
Proof.
  intros Hf [Hg (F1 & F2 & F3) Hnk] Hn. destruct (node_is_Some g n Hg Hn) as [nd Hnd].
  destruct (upd_node_by g _ g n f (nodes_by_refl g) (ex_intro _ nd Hnd)) as (g' & Hu & Hby).
  assert (keeps_static (fun m nd => if n =? m then f nd else nd)) as HS.
  { intros m x. destruct (n =? m); [|done]. destruct (Hf x) as (? & ? & ? & ? & ? & _). done. }
  pose proof (nodes_by_static _ _ _ HS Hby) as Hst. exists g'. split; [done|].
  assert (forall m, qt g' m = qt g m) as Hqt.
  { intros m. unfold qt. rewrite (proj2 Hby). destruct (node g m) as [x|]; [|done]. cbn.
    destruct (n =? m); [|done]. by destruct (Hf x) as (_ & _ & _ & _ & _ & ? & _). }
  split_and!; try apply Hst.
  - split; [by eapply nodes_by_graph_ok| |].
    + split; [by rewrite (proj1 Hby)|]. split.
      * intros m. specialize (F2 m). unfold instk in *. rewrite (proj2 Hby).
        destruct (node g m) as [x|]; [|done]. cbn in *. destruct (n =? m); [|done].
        by apply (Hf x).
      * intros m Hm. rewrite Hqt, F3 by (by rewrite <- (ss_count _ _ Hst)).
        symmetry. by apply qsum_static.
    + intros m x. rewrite (proj2 Hby), (ss_count _ _ Hst).
      destruct (node g m) as [y|] eqn:E; [|done]. cbn. intros [= <-].
      destruct (n =? m); [|by eapply Hnk]. destruct (Hnk m y E) as [W Me Co Si Fi].
      destruct (Hf y) as (H1 & H2 & H3 & H4 & _). split; rewrite ?H1, ?H2, ?H3, ?H4; done.
  - intros m. rewrite (proj2 Hby). by destruct (n =? m).
Qed.

(** Changing the class of a node that has no neighbours yet. *)
Lemma set_node_class_spec g n c :
  graph_building g -> 0 <= n < gr_count g -> 0 <= c < rs_class_count (gr_regs g) -> adj g n = [] ->
  exists g', ra_set_node_class g n c = Some g' /\ graph_building g' /\ gr_regs g' = gr_regs g /\
    gr_count g' = gr_count g /\ (forall m, adj g' m = adj g m) /\ (forall m, reg g' m = reg g m) /\
    (forall m, cls g' m = if n =? m then c else cls g m).
Proof.
  intros [Hg (F1 & F2 & F3) Hnk] Hn Hc Hadj. destruct (node_is_Some g n Hg Hn) as [nd Hnd].
  unfold ra_set_node_class.
  destruct (upd_node_by g _ g n (nd_set_class c) (nodes_by_refl g) (ex_intro _ nd Hnd))
    as (g' & Hu & Hby). exists g'. split; [done|]. pose proof (nodes_by_length _ _ _ Hby) as Hlen.
  destruct Hby as [Heq Hget].
  assert (forall m, adj g' m = adj g m) as Ha.
  { intros m. unfold adj. rewrite Hget. destruct (node g m); [|done]. cbn. by destruct (n =? m). }
  assert (forall m, reg g' m = reg g m) as Hr.
  { intros m. unfold reg. rewrite Hget. destruct (node g m); [|done]. cbn. by destruct (n =? m). }
  assert (forall m, cls g' m = if n =? m then c else cls g m) as Hcl.
  { intros m. unfold cls. rewrite Hget. destruct (Z.eqb_spec n m) as [<-|]; [by rewrite Hnd|].
    by destruct (node g m). }
  assert (forall m, qt g' m = qt g m) as Hq.
  { intros m. unfold qt. rewrite Hget. destruct (node g m); [|done]. cbn. by destruct (n =? m). }
  assert (gr_regs g' = gr_regs g) as ER by by rewrite Heq.
  assert (gr_count g' = gr_count g) as EC by by rewrite Heq.
  destruct Hg as [G1 G2 G3 G4 G5 G6 G7 G8 G9 G10].
  split_and!; try done. split.
  - split; rewrite ?ER, ?EC, ?Hlen; try done.
    + by rewrite Heq.
    + intros m x. rewrite Hget. destruct (node g m) as [y|] eqn:E; [|done]. cbn. intros [= <-].
      destruct (n =? m); exact (G6 m y E).
    + intros m Hm. rewrite Hcl. destruct (n =? m); auto.
    + intros m m2. rewrite !Ha. auto.
    + intros m. rewrite Ha. auto.
  - split; [by rewrite Heq|]. split.
    + intros m. specialize (F2 m). unfold instk in *. rewrite Hget.
      destruct (node g m); [|done]. cbn in *. by destruct (n =? m).
    + intros m Hm. rewrite EC in Hm. rewrite Hq, (F3 m Hm). unfold qsum. rewrite Ha, ER.
      destruct (Z.eq_dec n m) as [<-|Hne]; [by rewrite Hadj|].
      apply sumZ_ext. intros x Hx. rewrite !Hcl. replace (n =? m) with false by lia.
      destruct (Z.eqb_spec n x) as [<-|]; [|done].
      apply G8 in Hx as (_ & _ & Hx). rewrite Hadj in Hx. set_solver.
  - intros m x. rewrite Hget, EC. destruct (node g m) as [y|] eqn:E; [|done]. cbn. intros [= <-].
    destruct (Hnk m y E). destruct (n =? m); by split.
Qed.

(** ** Sequences of construction calls *)

Inductive graph_op :=
  | GInterfere (n1 n2 : Z)
  | GReg (n r : Z)
  | GSpill (n : Z) (cost : spec_float).

Definition run_graph_op (g : ra_graph) (op : graph_op) : option ra_graph :=
  match op with
  | GInterfere n1 n2 => ra_add_node_interference g n1 n2
  | GReg n r => ra_set_node_reg g n r
  | GSpill n cost => ra_set_node_spill_cost g n cost
  end.

Definition graph_op_ok (rs : ra_regs) (count : Z) (op : graph_op) : Prop :=
  match op with
  | GInterfere n1 n2 => 0 <= n1 < count /\ 0 <= n2 < count
  | GReg n r => 0 <= n < count /\ 0 <= r < rs_count rs
  | GSpill n _ => 0 <= n < count
  end.

(** The interferences a sequence of calls asks for. *)
Definition asked (ops : list graph_op) (a b : Z) : Prop :=
  exists n1 n2, GInterfere n1 n2 ∈ ops /\ n1 <> n2 /\ pair_eqb n1 n2 a b = true.

Definition regs_assigned (g : ra_graph) : Prop :=
  forall n, reg g n <> NO_REG -> 0 <= reg g n < rs_count (gr_regs g).

Lemma run_graph_op_spec g op :
  graph_building g -> regs_assigned g -> graph_op_ok (gr_regs g) (gr_count g) op ->
  exists g', run_graph_op g op = Some g' /\ graph_building g' /\ regs_assigned g' /\
    gr_regs g' = gr_regs g /\ gr_count g' = gr_count g /\ (forall m, cls g' m = cls g m) /\
    forall a b, b ∈ adj g' a <-> b ∈ adj g a \/ asked [op] a b.
Proof.
  intros Hb Hra Hop.
  assert (forall op a b, ~ (exists n1 n2, op = GInterfere n1 n2) -> ~ asked [op] a b) as Hno.
  { intros o a b H (n1 & n2 & Hin & _). apply list_elem_of_singleton in Hin. eauto. }
  destruct op as [n1 n2|n r|n cost]; cbn in Hop |- *.
  - destruct Hop as [H1 H2]. destruct (interference_spec g n1 n2 Hb H1 H2)
      as (g' & Hrun & Hb' & Er & Ec & Hcl & Hrg & Hadj).
    exists g'. split_and!; try done.
    + intros m. rewrite Hrg, Er. apply Hra.
    + intros a b. rewrite Hadj. unfold asked. setoid_rewrite list_elem_of_singleton. naive_solver.
  - destruct Hop as [Hn Hr]. unfold ra_set_node_reg.
    destruct (attribute_update_spec g n (fun nd => nd_set_in_stack false (nd_set_reg r nd)))
      as (g' & Hrun & Hb' & Er & Ec & Ha & Hcl & Hnode); [by intros nd|done..|].
    exists g'. split_and!; try done.
    + intros m. specialize (Hra m). unfold reg in *. rewrite Hnode, Er.
      destruct (node g m); [|done]. cbn in *. by destruct (n =? m).
    + intros a b. rewrite Ha. split; [by left|]. intros [?|H]; [done|]. apply Hno in H; naive_solver.
  - unfold ra_set_node_spill_cost.
    destruct (attribute_update_spec g n (nd_set_spill_cost cost))
      as (g' & Hrun & Hb' & Er & Ec & Ha & Hcl & Hnode); [by intros nd|done..|].
    exists g'. split_and!; try done.
    + intros m. specialize (Hra m). unfold reg in *. rewrite Hnode, Er.
      destruct (node g m); [|done]. cbn in *. by destruct (n =? m).
    + intros a b. rewrite Ha. split; [by left|]. intros [?|H]; [done|]. apply Hno in H; naive_solver.
Qed.

Lemma run_graph_ops_spec g ops :
  graph_building g -> regs_assigned g -> Forall (graph_op_ok (gr_regs g) (gr_count g)) ops ->
  exists g', foldM run_graph_op g ops = Some g' /\ graph_building g' /\ regs_assigned g' /\
    gr_regs g' = gr_regs g /\ gr_count g' = gr_count g /\ (forall m, cls g' m = cls g m) /\
    forall a b, b ∈ adj g' a <-> b ∈ adj g a \/ asked ops a b.
Proof.
  intros Hb Hra Hops. destruct (foldM_ind (fun l1 g1 => graph_building g1 /\ regs_assigned g1 /\
    gr_regs g1 = gr_regs g /\ gr_count g1 = gr_count g /\ (forall m, cls g1 m = cls g m) /\
    forall a b, b ∈ adj g1 a <-> b ∈ adj g a \/ asked l1 a b) run_graph_op ops g)
    as (g' & Hrun & H).
  - split_and!; try done. intros a b. split; [by left|]. intros [?|(? & ? & H & _)]; [done|set_solver].
  - intros l1 op l2 g1 -> (H1 & H2 & H3 & H4 & H5 & H6).
    destruct (run_graph_op_spec g1 op H1 H2) as (g2 & Hrun & K1 & K2 & K3 & K4 & K5 & K6).
    { rewrite H3, H4. apply Forall_app in Hops as [_ Hops]. by apply Forall_cons in Hops as [? _]. }
    exists g2. split; [done|]. split_and!; try done; try congruence.
    + intros a b. rewrite K6, H6. unfold asked. setoid_rewrite elem_of_app. naive_solver.
  - by exists g'.
Qed.

Lemma run_classes_spec g classes :
  graph_building g -> (forall n, adj g n = []) -> (forall n, reg g n = NO_REG) ->
  Forall (fun nc => 0 <= nc.1 < gr_count g /\ 0 <= nc.2 < rs_class_count (gr_regs g)) classes ->
  exists g', foldM (fun g nc => ra_set_node_class g nc.1 nc.2) g classes = Some g' /\
    graph_building g' /\ gr_regs g' = gr_regs g /\ gr_count g' = gr_count g /\
    (forall n, adj g' n = []) /\ (forall n, reg g' n = NO_REG).
Proof.
  intros Hb Ha Hr Hcl. apply (foldM_ind (fun _ g1 => graph_building g1 /\ gr_regs g1 = gr_regs g /\
    gr_count g1 = gr_count g /\ (forall n, adj g1 n = []) /\ (forall n, reg g1 n = NO_REG))).
  - done.
  - intros l1 [n c] l2 g1 -> (H1 & H2 & H3 & H4 & H5).
    apply Forall_app in Hcl as [_ [[Hn Hc] _]%Forall_cons]. cbn in *.
    destruct (set_node_class_spec g1 n c H1) as (g2 & Hrun & K1 & K2 & K3 & K4 & K5 & K6);
      [by rewrite H3|by rewrite H2|done|].
    exists g2. split; [done|]. split_and!; try congruence; intros m; rewrite ?K4, ?K5; done.
Qed.
