(* ===== verification/RegAllocTheorems.v ===== *)
(** * What [src/util/register_allocate.c] promises

    Set-up of register sets and graphs, soundness of allocation, the pq theorem,
    and the choice of spill nodes. *)
From Stdlib Require Import SpecFloat.
From S2P Require Import Prelude Bitset Float32 RegAlloc RegAllocCorrect RegAllocSelect RegAllocBuild RegAllocGraph.

(** ** Setting up a register set *)

(** The calls a driver makes: conflicts, classes, members, finalisation. *)
Definition reg_setup (count : Z) (nclasses : nat) (conflicts members : list (Z * Z))
    : option ra_regs :=
  rs ← ra_alloc_reg_set count true;
  rs ← foldM (fun rs p => ra_add_reg_conflict rs p.1 p.2) rs conflicts;
  let rs := Nat.iter nclasses (fun rs => (ra_alloc_reg_class rs).1) rs in
  rs ← foldM (fun rs m => ra_class_add_reg rs m.1 m.2) rs members;
  ra_set_finalize rs None.

Definition asked_conflict (conflicts : list (Z * Z)) (a b : Z) : bool :=
  (a =? b) || existsb (fun p => pair_eqb p.1 p.2 a b) conflicts.

Lemma setup_conflicts rs conflicts :
  building rs -> has_lists rs ->
  Forall (fun p => 0 <= p.1 < rs_count rs /\ 0 <= p.2 < rs_count rs) conflicts ->
  exists rs', foldM (fun rs p => ra_add_reg_conflict rs p.1 p.2) rs conflicts = Some rs' /\
    building rs' /\ has_lists rs' /\ with_conflicts rs (fun a b => conflict rs a b ||
      existsb (fun p => pair_eqb p.1 p.2 a b) conflicts) rs'.
Proof.
  intros Hb Hl Hall. apply (foldM_ind (fun l1 rs1 => building rs1 /\ has_lists rs1 /\
    with_conflicts rs (fun a b => conflict rs a b ||
      existsb (fun p => pair_eqb p.1 p.2 a b) l1) rs1)).
  - split; [done|]. split; [done|]. split; try done; [eauto|].
    intros a b _ _. cbn. by rewrite orb_false_r.
  - intros l1 [r1 r2] l2 rs1 -> (H1 & H2 & H3).
    apply Forall_app in Hall as [_ [[Hr1 Hr2] _]%Forall_cons]. cbn [fst snd] in *.
    pose proof (wc_count _ _ _ H3) as Ec.
    destruct (add_reg_conflict_spec rs1 r1 r2 H1) as (rs2 & Hrun & Hb2 & Hw2 & _);
      [by rewrite Ec|by rewrite Ec|].
    exists rs2. split; [done|]. split; [done|]. split; [by eapply with_conflicts_lists|].
    pose proof (with_conflicts_trans _ _ _ _ _ H3 Hw2) as Ht.
    eapply with_conflicts_ext; [|exact Ht]. intros a b Ha Hbb. cbv beta.
    rewrite (wc_conflict _ _ _ H3) by done. rewrite existsb_app. cbn.
    by rewrite orb_false_r, orb_assoc.
Qed.

Lemma setup_classes rs n :
  building rs -> rs_class_count rs + Z.of_nat n < 2 ^ 31 ->
  let rs' := Nat.iter n (fun rs => (ra_alloc_reg_class rs).1) rs in
  building rs' /\ rs_regs rs' = rs_regs rs /\ rs_count rs' = rs_count rs /\
  rs_class_count rs' = rs_class_count rs + Z.of_nat n /\
  forall c r, in_class rs' c r = in_class rs c r.
Proof.
  intros Hb. induction n as [|n IH]; intros Hn; [split_and!; (done || (cbn; lia))|].
  destruct IH as (B & Er & Ec & Ecc & Hin); [lia|].
  change (Nat.iter (S n) (fun rs => (ra_alloc_reg_class rs).1) rs)
    with (ra_alloc_reg_class (Nat.iter n (fun rs => (ra_alloc_reg_class rs).1) rs)).1.
  destruct (ra_alloc_reg_class_spec _ B) as (B' & _ & Er' & Ec' & Ecc' & Hin'); [lia|].
  split_and!; congruence || lia || done || (intros c r; by rewrite Hin').
Qed.

Definition listed (members : list (Z * Z)) (c r : Z) : bool := bool_decide ((c, r) ∈ members).

Lemma setup_members rs members :
  building rs -> NoDup members -> (forall c r, (c, r) ∈ members -> in_class rs c r = false) ->
  Forall (fun m => 0 <= m.1 < rs_class_count rs /\ 0 <= m.2 < rs_count rs) members ->
  exists rs', foldM (fun rs m => ra_class_add_reg rs m.1 m.2) rs members = Some rs' /\
    building rs' /\ rs_regs rs' = rs_regs rs /\ rs_count rs' = rs_count rs /\
    rs_class_count rs' = rs_class_count rs /\
    forall c r, in_class rs' c r = listed members c r || in_class rs c r.
Proof.
  intros Hb Hnd Hfresh Hall.
  apply (foldM_ind (fun (l1 : list (Z * Z)) (rs1 : ra_regs) => building rs1 /\
    rs_regs rs1 = rs_regs rs /\ rs_count rs1 = rs_count rs /\
    rs_class_count rs1 = rs_class_count rs /\
    forall c r, in_class rs1 c r = listed l1 c r || in_class rs c r)).
  - done.
  - intros l1 [c r] l2 rs1 -> (H1 & H2 & H3 & H4 & H5).
    apply Forall_app in Hall as [_ [[Hc Hr] _]%Forall_cons]. cbn [fst snd] in *.
    apply NoDup_app in Hnd as (_ & Hd & _).
    assert (~ (c, r) ∈ l1) as Hnin by (intros H; apply (Hd _ H); set_solver).
    destruct (ra_class_add_reg_spec rs1 c r H1) as (rs2 & Hrun & K1 & K2 & K3 & K4 & K5).
    { by rewrite H4. } { by rewrite H3. }
    { rewrite H5. unfold listed. rewrite bool_decide_false by done. cbn. apply Hfresh. set_solver. }
    exists rs2. split; [done|]. split_and!; try congruence. intros c' r'.
    rewrite K5, H5, orb_assoc. f_equal. unfold listed.
    destruct (decide ((c, r) = (c', r'))) as [[= <- <-]|Hne].
    + rewrite !Z.eqb_refl. rewrite (bool_decide_true ((c, r) ∈ l1 ++ _)) by set_solver. done.
    + replace ((c =? c') && (r =? r')) with false by
        (destruct (Z.eqb_spec c c'), (Z.eqb_spec r r'); naive_solver).
      apply bool_decide_ext. set_solver.
Qed.

(** What a finished register set must be, for the conflicts and members asked for. *)
Record setup_ok (count : Z) (nclasses : nat) (conflicts members : list (Z * Z)) (rs : ra_regs)
    : Prop := {
  su_regs : regs_ok rs;
  su_final : finalized rs;
  su_pq : pq_regs rs;
  su_count : rs_count rs = count;
  su_class_count : rs_class_count rs = Z.of_nat nclasses;
  su_conflict : forall a b, 0 <= a < count -> 0 <= b < count ->
    conflict rs a b = asked_conflict conflicts a b;
  su_class : forall c r, in_class rs c r = listed members c r;
  su_q : forall b c, 0 <= b < Z.of_nat nclasses -> 0 <= c < Z.of_nat nclasses ->
    is_q rs b c (q_of rs b c) }.

Lemma is_q_final rs rs' V b c q :
  finalized_from rs rs' V -> is_q rs b c q -> is_q rs' b c q.
Proof.
  intros Hf (H1 & H2 & H3).
  assert (forall rc, conflicts_in rs' b rc = conflicts_in rs b rc) as Hc.
  { intros rc. unfold conflicts_in. rewrite (ff_count _ _ _ Hf). apply count_if_ext.
    intros rb. by rewrite (ff_in_class _ _ _ _ _ Hf), (ff_conflict _ _ _ _ _ Hf). }
  unfold is_q. setoid_rewrite (ff_in_class _ _ _ _ _ Hf). setoid_rewrite Hc.
  by rewrite (ff_count _ _ _ Hf).
Qed.

Lemma reg_setup_spec count nclasses conflicts members :
  0 <= count < 2 ^ 31 -> Z.of_nat nclasses < 2 ^ 31 ->
  Forall (fun p => 0 <= p.1 < count /\ 0 <= p.2 < count) conflicts -> NoDup members ->
  Forall (fun m => 0 <= m.1 < Z.of_nat nclasses /\ 0 <= m.2 < count) members ->
  exists rs, reg_setup count nclasses conflicts members = Some rs /\
    setup_ok count nclasses conflicts members rs.
Proof.
  intros Hc Hn Hconf Hnd Hmem. unfold reg_setup.
  destruct (ra_alloc_reg_set_spec count true Hc) as (rs0 & H0 & B0 & C0 & Cl0 & Co0).
  assert (has_lists rs0) as L0.
  { intros r rg Hr. unfold ra_alloc_reg_set in H0.
    destruct (mapM _ _) as [l|] eqn:E; [|done]. cbn in H0. injection H0 as <-. cbn in Hr.
    pose proof (array_get_lt _ _ _ Hr) as Hrr.
    destruct (mapM_zrange_get _ _ _ r E) as [Hl Hget]. rewrite Hget in Hr by lia.
    unfold alloc_reg in Hr. destruct (BITSET_SET _ _); [|done]. cbn in Hr. injection Hr as <-.
    by eexists. }
  rewrite H0. obind. clear H0.
  destruct (setup_conflicts rs0 conflicts B0 L0) as (rs1 & -> & B1 & L1 & W1); [by rewrite C0|]. obind.
  pose proof (bu_class_length rs0 B0) as Hcc0. rewrite Cl0 in Hcc0. cbn in Hcc0.
  destruct (setup_classes rs1 nclasses B1) as (B2 & R2 & C2 & N2 & I2).
  { rewrite (wc_class_count _ _ _ W1). lia. }
  set (rs2 := Nat.iter nclasses _ rs1) in *.
  assert (forall c r, in_class rs1 c r = false) as E1.
  { intros c r. unfold in_class. rewrite (wc_classes _ _ _ W1), Cl0. unfold array_get.
    by destruct (0 <=? c). }
  pose proof (wc_count _ _ _ W1) as C1. rewrite (wc_class_count _ _ _ W1) in N2.
  destruct (setup_members rs2 members B2 Hnd) as (rs3 & -> & B3 & R3 & C3 & N3 & I3).
  { intros c r _. by rewrite I2. }
  { rewrite C2, C1, C0, N2, <- Hcc0. done. }
  obind.
  assert (has_lists rs3) as L3 by (intros r rg; rewrite R3, R2; apply L1).
  destruct (ra_set_finalize_spec rs3 B3 L3) as (rs4 & V & -> & Hf & HV & Ok & Fin & Pq).
  exists rs4. split; [done|]. split; try done.
  - rewrite (ff_count _ _ _ Hf). congruence.
  - rewrite (ff_class_count _ _ _ Hf), N3, N2. lia.
  - intros a b Ha Hb. rewrite (ff_conflict _ _ _ _ _ Hf).
    transitivity (conflict rs1 a b).
    { unfold conflict. by rewrite R3, R2. }
    rewrite (wc_conflict _ _ _ W1) by (rewrite C0; done). unfold asked_conflict.
    by rewrite Co0.
  - intros c r. rewrite (ff_in_class _ _ _ _ _ Hf), I3, I2, E1. apply orb_false_r.
  - intros b c Hb' Hc'. assert (Z.of_nat nclasses = rs_class_count rs3) as Ecc.
    { rewrite N3, N2. lia. }
    rewrite Ecc in *. rewrite (ff_q rs3 rs4 V) by done. eapply is_q_final; [done|]. by apply HV.
Qed.

(** ** Setting up a graph *)

(** Classes first, then interferences, fixed registers and spill costs. *)
Definition graph_setup (rs : ra_regs) (count : Z) (classes : list (Z * Z)) (ops : list graph_op)
    : option ra_graph :=
  let g := ra_alloc_interference_graph rs count in
  g ← foldM (fun g nc => ra_set_node_class g nc.1 nc.2) g classes;
  foldM run_graph_op g ops.

Lemma graph_setup_spec rs count classes ops :
  regs_ok rs -> finalized rs -> pq_regs rs -> 0 < rs_class_count rs -> 0 <= count < 2 ^ 31 ->
  count * rs_count rs < UINT_MAX ->
  Forall (fun nc => 0 <= nc.1 < count /\ 0 <= nc.2 < rs_class_count rs) classes ->
  Forall (graph_op_ok rs count) ops ->
  exists g, graph_setup rs count classes ops = Some g /\ ready g /\ gr_regs g = rs /\
    gr_count g = count /\ forall a b, b ∈ adj g a <-> asked ops a b.
Proof.
  intros Hok Hfin Hpq Hcl Hc Hbound Hclasses Hops. unfold graph_setup.
  destruct (alloc_graph_building rs count Hok Hfin Hcl Hc Hbound) as (B0 & A0 & R0).
  destruct (run_classes_spec _ classes B0 A0 R0) as (g1 & -> & B1 & E1 & C1 & A1 & R1); [done|].
  obind. cbn in E1, C1.
  destruct (run_graph_ops_spec g1 ops B1) as (g2 & -> & B2 & RA2 & E2 & C2 & _ & A2).
  { intros n. by rewrite R1. } { by rewrite E1, C1. }
  exists g2. split; [done|]. rewrite E1 in E2. rewrite C1 in C2. split; [|split_and!; try done].
  - split; rewrite ?E2; try apply Hpq; try apply B2. intros n _ Hn. rewrite <- E2. by apply RA2.
  - intros a b. rewrite A2, A1. set_solver.
Qed.

(** ** Spilling *)

Lemma SFltb_trans x y z : SFltb x y = true -> SFltb y z = true -> SFltb x z = true.
Proof.
  unfold SFltb.
  destruct x as [sx|sx| |sx mx ex], y as [sy|sy| |sy my ey], z as [sz|sz| |sz mz ez]; cbn;
    repeat match goal with s : bool |- _ => destruct s end; try done;
    change (Pos.compare_cont Eq mx my) with (Pos.compare mx my);
    change (Pos.compare_cont Eq my mz) with (Pos.compare my mz);
    change (Pos.compare_cont Eq mx mz) with (Pos.compare mx mz);
    destruct (Z.compare_spec ex ey), (Z.compare_spec ey ez), (Z.compare_spec ex ez);
    try lia; try done;
    destruct (Pos.compare_spec mx my), (Pos.compare_spec my mz), (Pos.compare_spec mx mz);
    cbn; try done; lia.
Qed.

Lemma spill_benefit_total g n :
  graph_ok g -> 0 <= n < gr_count g -> exists b, ra_get_spill_benefit g n = Some b.
Proof.
  intros Hg Hn. destruct (node_is_Some g n Hg Hn) as [nd Hnd]. unfold ra_get_spill_benefit.
  rewrite Hnd. obind.
  match goal with |- context [foldM ?f ?s ?l] =>
    destruct (foldM_ind (fun _ _ => True) f l s) as (b & Hb & _); [done| |by exists b] end.
  intros l1 j l2 b Hsplit _. apply zrange_split in Hsplit as [-> Hlt]. rewrite Z.add_0_l.
  rewrite (go_adj_count g Hg n nd Hnd), Nat2Z.id in Hlt.
  destruct (lookup_lt_is_Some_2 _ _ Hlt) as [n2 Hn2]. rewrite array_get_nat, Hn2. obind.
  assert (n2 ∈ adj g n) as Hin.
  { rewrite (view_node _ _ _ _ _ Hnd : adj g n = _). by eapply list_elem_of_lookup_2. }
  destruct (go_adj g Hg n n2 Hin) as [Hn2r _].
  destruct (node_is_Some g n2 Hg Hn2r) as [nd2 Hnd2]. rewrite Hnd2. obind.
  pose proof (proj1 (class_q_spec g n n2 Hg Hn Hn2r)) as Hq.
  rewrite (view_node _ _ _ _ _ Hnd : cls g n = _), (view_node _ _ _ _ _ Hnd2 : cls g n2 = _) in Hq.
  rewrite Hq. obind. unfold class_q in Hq.
  destruct (array_get (rs_classes (gr_regs g)) (nd_class nd)) as [c|]; [|done]. obind. by eexists.
Qed.

(** The nodes considered for spilling, and how attractive each is. *)
Definition spillable (g : ra_graph) (n : Z) : bool :=
  from_option (fun nd => negb (SFleb (nd_spill_cost nd) (S754_zero false)) && negb (nd_in_stack nd))
    false (node g n).
Definition spill_ratio (g : ra_graph) (n : Z) : spec_float :=
  f32_div (default S754_nan (ra_get_spill_benefit g n))
    (from_option nd_spill_cost S754_nan (node g n)).

Lemma best_spill_loop g :
  graph_ok g ->
  exists best benefit, foldM (consider_spill g)
    (UINT_MAX, S754_zero false) (zrange 0 (Z.to_nat (gr_count g))) = Some (best, benefit) /\
    (forall n, 0 <= n < gr_count g -> spillable g n = true ->
      SFltb benefit (spill_ratio g n) = false) /\
    ((best = UINT_MAX /\ benefit = S754_zero false) \/
     (0 <= best < gr_count g /\ spillable g best = true /\ benefit = spill_ratio g best)).
Proof.
  intros Hg.
  match goal with |- context [foldM ?f ?s ?l] => destruct (foldM_ind (fun l1 '(best, benefit) =>
    (forall n, n ∈ l1 -> spillable g n = true -> SFltb benefit (spill_ratio g n) = false) /\
    ((best = UINT_MAX /\ benefit = S754_zero false) \/
     (0 <= best < gr_count g /\ spillable g best = true /\ benefit = spill_ratio g best))) f l s)
    as ([best benefit] & Hrun & Hmax & Hbest) end.
  - split; [set_solver|by left].
  - intros l1 n l2 [best benefit] Hsplit [Hmax Hbest].
    assert (n ∈ zrange 0 (Z.to_nat (gr_count g))) as Hn by (rewrite Hsplit; set_solver).
    apply elem_of_zrange in Hn. pose proof (go_count g Hg).
    destruct (node_is_Some g n Hg) as [nd Hnd]; [lia|]. unfold consider_spill. rewrite Hnd. obind.
    destruct (spill_benefit_total g n Hg) as [b Hb]; [lia|].
    assert (spill_ratio g n = f32_div b (nd_spill_cost nd)) as Hr.
    { unfold spill_ratio. by rewrite Hb, Hnd. }
    assert (spillable g n = false -> (forall n0, n0 ∈ l1 ++ [n] -> spillable g n0 = true ->
      SFltb benefit (spill_ratio g n0) = false)) as Hskip.
    { intros Hs n0 [Hn0|Hn0]%elem_of_app Hs0; [by apply Hmax|].
      apply list_elem_of_singleton in Hn0 as ->. congruence. }
    unfold spillable in Hskip at 1. rewrite Hnd in Hskip. cbn in Hskip.
    destruct (SFleb (nd_spill_cost nd) (S754_zero false)) eqn:Hc.
    { exists (best, benefit). split; [done|]. split; [by apply Hskip|done]. }
    destruct (nd_in_stack nd) eqn:Hst.
    { exists (best, benefit). split; [done|]. split; [by apply Hskip|done]. }
    rewrite Hb. obind. rewrite <- Hr. eexists. split; [done|]. cbn [snd].
    assert (spillable g n = true) as Hsn by (unfold spillable; rewrite Hnd; cbn; by rewrite Hc, Hst).
    destruct (SFltb benefit (spill_ratio g n)) eqn:Hlt.
    + split; [|right; split; [lia|done]].
      intros n0 [Hn0|Hn0]%elem_of_app Hs0.
      * destruct (SFltb (spill_ratio g n) (spill_ratio g n0)) eqn:E; [|done].
        by rewrite <- (SFltb_trans _ _ _ Hlt E), (Hmax n0 Hn0 Hs0).
      * apply list_elem_of_singleton in Hn0 as ->.
        destruct (SFltb (spill_ratio g n) (spill_ratio g n)) eqn:E; [|done].
        unfold SFltb in E. destruct (spill_ratio g n) as [[]|[]| |[] m e]; cbn in E; try done;
          rewrite Z.compare_refl, Pos.compare_refl in E; done.
    + split; [|done]. intros n0 [Hn0|Hn0]%elem_of_app Hs0; [by apply Hmax|].
      by apply list_elem_of_singleton in Hn0 as ->.
  - exists best, benefit. split; [done|]. split; [|done]. intros n Hn. apply Hmax.
    apply elem_of_zrange. lia.
Qed.

(** ** A concrete register set and graph for the witnesses *)

Definition example_regs : ra_regs := Eval vm_compute in
  default (RaRegs [] 0 [] 0 false) (reg_setup 3 2 [(1, 2)] [(0, 0); (0, 1); (1, 2)]).

Definition example_ops : list graph_op :=
  [GInterfere 0 1; GInterfere 1 2; GReg 2 2; GSpill 0 (f32_of_int 3); GSpill 1 (f32_of_int 1)].

Definition example_graph : ra_graph := Eval vm_compute in
  default (RaGraph example_regs [] 0 [] 0 0 0 0)
    (graph_setup example_regs 3 [(2, 1)] example_ops).

Lemma example_regs_ok : setup_ok 3 2 [(1, 2)] [(0, 0); (0, 1); (1, 2)] example_regs.
Proof.
  destruct (reg_setup_spec 3 2 [(1, 2)] [(0, 0); (0, 1); (1, 2)]) as (rs & Hrs & Hok).
  - lia.
  - lia.
  - repeat constructor; cbn; lia.
  - apply (bool_decide_unpack _). vm_compute. exact I.
  - repeat constructor; cbn; lia.
  - vm_compute in Hrs. injection Hrs as <-. exact Hok.
Qed.

Lemma example_ready : ready example_graph.
Proof.
  pose proof example_regs_ok as [S1 S2 S3 _ _ _ _ _].
  destruct (graph_setup_spec example_regs 3 [(2, 1)] example_ops S1 S2 S3) as (g & Hg & Hr & _).
  - done.
  - done.
  - done.
  - repeat constructor; cbn; lia.
  - unfold example_ops. repeat constructor; cbn; lia.
  - vm_compute in Hg. injection Hg as <-. exact Hr.
Qed.

(** ** The theorems *)

(** C10: on every graph made by the construction functions, ra_allocate returns
    (all loops end, all accesses are in bounds, no assertion fails); if it
    returns true, every node has a register of the set, nodes without a forced
    register have one of their class, forced nodes keep theirs, and two
    interfering nodes of which at least one was not forced hold registers that
    do not conflict.  The driver's callback, if there is one, has to pick one of
    the registers it is offered. *)
Theorem ra_allocate_sound {M} (call : Z -> M -> ra_graph -> list Z -> Z -> M * Z) m g :
  ready g -> callback_ok call (gr_select_reg_callback g) ->
  exists m' g' b, ra_allocate call m g = Some (m', g', b) /\
    (b = true -> forall n, 0 <= n < gr_count g -> exists r, ra_get_node_reg g' n = Some r /\
      0 <= r < rs_count (gr_regs g) /\
      (if reg g n =? NO_REG then in_class (gr_regs g) (cls g n) r = true else r = reg g n) /\
      forall n2 r2, n2 ∈ adj g n -> reg g n = NO_REG \/ reg g n2 = NO_REG ->
        ra_get_node_reg g' n2 = Some r2 -> conflict (gr_regs g) r r2 = false).
Proof.
  intros Hre Hcb. destruct (ra_allocate_spec call m g Hre Hcb)
    as (g0 & m' & g' & b & _ & Hsi & Hal & Hb & _).
  exists m', g', b. split; [done|]. intros Hbt n Hn. destruct (Hb Hbt) as [Hv Hz].
  assert (forall k, instk g' k = false) as Hst.
  { intros k. destruct (instk g' k) eqn:E; [|done]. apply (sv_in _ _ Hv) in E. unfold stk in E.
    rewrite Hz in E. cbn in E. set_solver. }
  pose proof (same_static_trans _ _ _ (sf_static _ _ (si_frame _ _ _ Hsi))
    (sf_static _ _ (sv_frame _ _ Hv))) as [ER EC EA EL].
  assert (forall k r, ra_get_node_reg g' k = Some r -> r = reg g' k) as Hget.
  { intros k r H. unfold ra_get_node_reg in H. unfold reg. destruct (node g' k); [|done].
    cbn in H. by injection H as <-. }
  destruct (node_is_Some g' n (sv_graph _ _ Hv)) as [nd Hnd]; [by rewrite EC|].
  exists (reg g' n). rewrite <- ER. split_and!.
  - unfold ra_get_node_reg, reg. by rewrite Hnd.
  - apply (sv_colour _ _ Hv); [by rewrite EC|done].
  - apply (sv_colour _ _ Hv); [by rewrite EC|done].
  - rewrite <- (si_reg _ _ _ Hsi). destruct (Z.eqb_spec (reg g0 n) NO_REG) as [E|E].
    + rewrite <- EL. apply (sv_class _ _ Hv); [by rewrite EC|done|done].
    + by apply (sv_forced _ _ Hv).
  - intros n2 r2 Hadj Hor ->%Hget. rewrite <- EA in Hadj. apply (sv_valid _ _ Hv); try done.
    by rewrite !(si_reg _ _ _ Hsi).
Qed.

Definition no_call : Z -> unit -> ra_graph -> list Z -> Z -> unit * Z := fun _ _ _ _ _ => (tt, 0).

Lemma ra_allocate_sound_witness :
  exists m' g' b, ra_allocate no_call tt example_graph = Some (m', g', b) /\
    (b = true -> forall n, 0 <= n < gr_count example_graph ->
      exists r, ra_get_node_reg g' n = Some r /\ 0 <= r < rs_count (gr_regs example_graph) /\
      (if reg example_graph n =? NO_REG
       then in_class (gr_regs example_graph) (cls example_graph n) r = true
       else r = reg example_graph n) /\
      forall n2 r2, n2 ∈ adj example_graph n ->
        reg example_graph n = NO_REG \/ reg example_graph n2 = NO_REG ->
        ra_get_node_reg g' n2 = Some r2 -> conflict (gr_regs example_graph) r r2 = false).
Proof.
  apply (ra_allocate_sound no_call tt example_graph); [apply example_ready|]. intros H. by destruct H.
Defined.

(** C11: the pq theorem.  If p and q of the register set are what
    ra_set_finalize computes, every forced register belongs to its node's class,
    and simplification pushed every node by the pq test (it never had to choose
    a node optimistically), then ra_allocate succeeds. *)
Theorem ra_allocate_pq_complete {M} (call : Z -> M -> ra_graph -> list Z -> Z -> M * Z) m g g1 :
  ready g -> callback_ok call (gr_select_reg_callback g) -> pq_regs (gr_regs g) ->
  forced_in_class g -> ra_simplify g = Some g1 -> gr_stack_optimistic_start g1 = UINT_MAX ->
  exists m' g', ra_allocate call m g = Some (m', g', true).
Proof.
  intros Hre Hcb Hpq Hfc Hs Hopt. destruct (ra_allocate_spec call m g Hre Hcb)
    as (g0 & m' & g' & b & Hs0 & Hsi & Hal & _ & Hb).
  rewrite Hs in Hs0. injection Hs0 as <-. exists m', g'.
  by rewrite Hal, Hb by (auto; by apply (si_trivial _ _ _ Hsi)).
Qed.

Lemma ra_allocate_pq_complete_witness :
  exists m' g', ra_allocate no_call tt example_graph = Some (m', g', true).
Proof.
  destruct (ra_simplify example_graph) as [g1|] eqn:E; [|vm_compute in E; discriminate E].
  apply (ra_allocate_pq_complete no_call tt example_graph g1).
  - apply example_ready.
  - intros H. by destruct H.
  - apply (su_pq _ _ _ _ _ example_regs_ok).
  - intros n Hn Hf. cbn in Hn. assert (n = 0 \/ n = 1 \/ n = 2) as [->|[->| ->]] by lia;
      [by destruct Hf..|reflexivity].
  - exact E.
  - vm_compute in E. injection E as <-. reflexivity.
Defined.

(** C12: ra_simplify returns (the assertion of decrement_q never fails and the
    stack never overflows), leaves registers and interferences alone, and the
    stack then holds each node without a forced register exactly once. *)
Theorem ra_simplify_pushes_all g :
  graph_ok g -> fresh_stack g ->
  exists g', ra_simplify g = Some g' /\
    NoDup (take (Z.to_nat (gr_stack_count g')) (gr_stack g')) /\
    (forall n, n ∈ take (Z.to_nat (gr_stack_count g')) (gr_stack g') <->
       0 <= n < gr_count g /\ reg g n = NO_REG) /\
    (forall n, reg g' n = reg g n /\ adj g' n = adj g n).
Proof.
  intros Hg Hfr. destruct (ra_simplify_spec g Hg Hfr) as (g' & Hs & [S1 S2 S3 S4 S5 S6]).
  exists g'. split; [done|]. split; [apply (so_nodup _ S2)|]. split.
  - intros n. split.
    + intros Hn. split; [|rewrite <- S4; by apply (so_reg _ S2)].
      rewrite <- (ss_count _ _ (sf_static _ _ S3)). by apply (so_range _ S2).
    + intros [Hn Hr]. apply (so_in _ S2). destruct (S5 n Hn) as [H|H]; [done|].
      by rewrite S4 in H.
  - intros n. split; [done|]. apply (ss_adj _ _ (sf_static _ _ S3)).
Qed.

Lemma ra_simplify_pushes_all_witness :
  exists g', ra_simplify example_graph = Some g' /\
    NoDup (take (Z.to_nat (gr_stack_count g')) (gr_stack g')) /\
    (forall n, n ∈ take (Z.to_nat (gr_stack_count g')) (gr_stack g') <->
       0 <= n < gr_count example_graph /\ reg example_graph n = NO_REG) /\
    (forall n, reg g' n = reg example_graph n /\ adj g' n = adj example_graph n).
Proof.
  apply (ra_simplify_pushes_all example_graph);
    [apply (re_graph _ example_ready)|apply (re_fresh _ example_ready)].
Defined.

(** C13: a register set built with ra_alloc_reg_set, ra_add_reg_conflict,
    ra_alloc_reg_class, ra_class_add_reg and ra_set_finalize, where no register is added twice to the
    same class, has exactly the
    conflicts asked for (symmetric, and each register with itself) and the class
    members asked for, its p values count the members, and each q(B,C) is the
    largest number of registers of B that a register of C conflicts with. *)
Theorem register_set_refines_spec count nclasses conflicts members :
  0 <= count < 2 ^ 31 -> Z.of_nat nclasses < 2 ^ 31 ->
  Forall (fun p => 0 <= p.1 < count /\ 0 <= p.2 < count) conflicts -> NoDup members ->
  Forall (fun m => 0 <= m.1 < Z.of_nat nclasses /\ 0 <= m.2 < count) members ->
  exists rs, reg_setup count nclasses conflicts members = Some rs /\
    (forall a b, 0 <= a < count -> 0 <= b < count ->
       conflict rs a b = asked_conflict conflicts a b) /\
    (forall c r, in_class rs c r = listed members c r) /\
    (forall c, 0 <= c < Z.of_nat nclasses ->
       p_of rs c = count_if (listed members c) (zrange 0 (Z.to_nat count))) /\
    (forall b c, 0 <= b < Z.of_nat nclasses -> 0 <= c < Z.of_nat nclasses ->
       is_q rs b c (q_of rs b c)).
Proof.
  intros H1 H2 H3 H4 H5. destruct (reg_setup_spec count nclasses conflicts members)
    as (rs & Hrs & [S1 S2 S3 S4 S5 S6 S7 S8]); [done..|].
  exists rs. split; [done|]. split; [done|]. split; [done|]. split; [|done].
  intros c Hc. rewrite (pq_p rs S3) by by rewrite S5. rewrite S4.
  apply count_if_ext. intros r. apply S7.
Qed.

Lemma register_set_refines_spec_witness :
  exists rs, reg_setup 4 2 [(0, 3); (1, 3)] [(0, 0); (0, 1); (1, 3)] = Some rs /\
    (forall a b, 0 <= a < 4 -> 0 <= b < 4 ->
       conflict rs a b = asked_conflict [(0, 3); (1, 3)] a b) /\
    (forall c r, in_class rs c r = listed [(0, 0); (0, 1); (1, 3)] c r) /\
    (forall c, 0 <= c < Z.of_nat 2 ->
       p_of rs c = count_if (listed [(0, 0); (0, 1); (1, 3)] c) (zrange 0 (Z.to_nat 4))) /\
    (forall b c, 0 <= b < Z.of_nat 2 -> 0 <= c < Z.of_nat 2 -> is_q rs b c (q_of rs b c)).
Proof.
  apply (register_set_refines_spec 4 2 [(0, 3); (1, 3)] [(0, 0); (0, 1); (1, 3)]); [lia|lia|..].
  - repeat constructor; cbn; lia.
  - apply (bool_decide_unpack _). vm_compute. exact I.
  - repeat constructor; cbn; lia.
Defined.

(** A register that is added twice is counted twice in p. *)
Example member_added_twice :
  exists rs, reg_setup 1 1 [] [(0, 0); (0, 0)] = Some rs /\ p_of rs 0 = 2 /\
    count_if (listed [(0, 0); (0, 0)] 0) (zrange 0 1) = 1.
Proof. eexists. split; [vm_compute; reflexivity|]. vm_compute. done. Qed.

(** C37: [ra_add_transitive_reg_conflict] terminates although it extends the lists
    it walks, keeps the register set consistent, and adds exactly the conflicts
    between reg and everything base_reg conflicts with (base_reg included), in
    both directions. *)
Theorem transitive_conflict_closure rs base reg :
  building rs -> has_lists rs -> 0 <= base < rs_count rs -> 0 <= reg < rs_count rs ->
  exists rs', ra_add_transitive_reg_conflict rs base reg = Some rs' /\ building rs' /\
    forall a b, 0 <= a < rs_count rs -> 0 <= b < rs_count rs ->
      conflict rs' a b = conflict rs a b || ((a =? reg) && conflict rs base b)
                         || ((b =? reg) && conflict rs base a).
Proof.
  intros Hb Hl Hba Hr. destruct (transitive_spec rs base reg Hb Hl Hba Hr)
    as (rs' & Hrun & Hb' & _ & Hw). exists rs'. split; [done|]. split; [done|].
  intros a b Ha Hbb. by rewrite (wc_conflict _ _ _ Hw).
Qed.

Lemma transitive_conflict_closure_witness :
  exists rs rs', ra_alloc_reg_set 4 true = Some rs /\
    ra_add_transitive_reg_conflict rs 0 3 = Some rs' /\ building rs' /\
    forall a b, 0 <= a < rs_count rs -> 0 <= b < rs_count rs ->
      conflict rs' a b = conflict rs a b || ((a =? 3) && conflict rs 0 b)
                         || ((b =? 3) && conflict rs 0 a).
Proof.
  destruct (ra_alloc_reg_set_spec 4 true) as (rs & Hrs & Hb & Hc & _); [lia|].
  destruct (transitive_conflict_closure rs 0 3) as (rs' & H).
  - exact Hb.
  - vm_compute in Hrs. injection Hrs as <-. intros r rg Hr.
    assert (r = 0 \/ r = 1 \/ r = 2 \/ r = 3) as [->|[->|[->| ->]]]
      by (apply array_get_lt in Hr; cbn in Hr; lia); vm_compute in Hr; injection Hr as <-; by eexists.
  - rewrite Hc. lia.
  - rewrite Hc. lia.
  - exists rs, rs'. split; [exact Hrs|exact H].
Defined.

(** C15: a graph made by ra_alloc_interference_graph, then ra_set_node_class, then
    any mix of ra_add_node_interference, ra_set_node_reg and
    ra_set_node_spill_cost with arguments in range is ready for allocation, and
    its interference relation is exactly the symmetric relation asked for. *)
Theorem graph_construction_ready rs count classes ops :
  regs_ok rs -> finalized rs -> pq_regs rs -> 0 < rs_class_count rs -> 0 <= count < 2 ^ 31 ->
  count * rs_count rs < UINT_MAX ->
  Forall (fun nc => 0 <= nc.1 < count /\ 0 <= nc.2 < rs_class_count rs) classes ->
  Forall (graph_op_ok rs count) ops ->
  exists g, graph_setup rs count classes ops = Some g /\ ready g /\
    forall a b, b ∈ adj g a <-> asked ops a b.
Proof.
  intros H1 H2 H3 H4 H5 H6 H7 H8. destruct (graph_setup_spec rs count classes ops)
    as (g & Hg & Hr & _ & _ & Ha); [done..|]. by exists g.
Qed.

Lemma graph_construction_ready_witness :
  exists g, graph_setup example_regs 3 [(2, 1)] example_ops = Some g /\ ready g /\
    forall a b, b ∈ adj g a <-> asked example_ops a b.
Proof.
  apply (graph_construction_ready example_regs 3 [(2, 1)] example_ops).
  - apply (su_regs _ _ _ _ _ example_regs_ok).
  - apply (su_final _ _ _ _ _ example_regs_ok).
  - apply (su_pq _ _ _ _ _ example_regs_ok).
  - reflexivity.
  - lia.
  - reflexivity.
  - repeat constructor; cbn; lia.
  - unfold example_ops. repeat constructor; cbn; lia.
Defined.

(** C16: ra_get_best_spill_node returns -1 only if no candidate (a node with
    positive spill cost that is off the stack) has a positive benefit/cost ratio
    in single precision; otherwise it returns a candidate whose ratio no other
    candidate exceeds. *)
Theorem best_spill_node_maximal g :
  graph_ok g ->
  exists n, ra_get_best_spill_node g = Some n /\
    ((n = -1 /\ forall k, 0 <= k < gr_count g -> spillable g k = true ->
        SFltb (S754_zero false) (spill_ratio g k) = false) \/
     (0 <= n < gr_count g /\ spillable g n = true /\
      forall k, 0 <= k < gr_count g -> spillable g k = true ->
        SFltb (spill_ratio g n) (spill_ratio g k) = false)).
Proof.
  intros Hg. unfold ra_get_best_spill_node.
  destruct (best_spill_loop g Hg) as (best & benefit & -> & Hmax & Hbest). obind.
  eexists. split; [done|]. pose proof (go_count g Hg).
  destruct Hbest as [[-> ->]|(Hr & Hs & ->)]; [left; by split|].
  right. replace (i32 best) with best; [done|]. unfold i32. rewrite Z.mod_small; lia.
Qed.

Lemma best_spill_node_maximal_witness :
  exists n, ra_get_best_spill_node example_graph = Some n /\
    ((n = -1 /\ forall k, 0 <= k < gr_count example_graph -> spillable example_graph k = true ->
        SFltb (S754_zero false) (spill_ratio example_graph k) = false) \/
     (0 <= n < gr_count example_graph /\ spillable example_graph n = true /\
      forall k, 0 <= k < gr_count example_graph -> spillable example_graph k = true ->
        SFltb (spill_ratio example_graph n) (spill_ratio example_graph k) = false)).
Proof. apply (best_spill_node_maximal example_graph). apply (re_graph _ example_ready). Defined.

(** The register set and the graphs of the last theorem. *)
Definition split_regs : ra_regs := Eval vm_compute in
  default (RaRegs [] 0 [] 0 false) (reg_setup 2 2 [] [(0, 0); (1, 1)]).
Definition split_graph : ra_graph := Eval vm_compute in
  default (RaGraph split_regs [] 0 [] 0 0 0 0)
    (graph_setup split_regs 2 [(1, 1)] [GReg 0 1; GInterfere 0 1]).
Definition split_simplified : ra_graph := Eval vm_compute in
  default split_graph (ra_simplify split_graph).
Definition split_result : ra_graph := Eval vm_compute in
  from_option (fun r => r.1.2) split_graph (ra_allocate no_call tt split_graph).

(** A forced node that was given no class, as ra_set_node_reg documents is
    allowed, is counted with the q values of class 0: with two one-register
    classes, node 0 forced to the register of class 1 and node 1 of class 1,
    every node passes the pq test and selection still fails. *)
Theorem forced_node_without_class_breaks_pq :
  exists rs g g1 g', reg_setup 2 2 [] [(0, 0); (1, 1)] = Some rs /\
    graph_setup rs 2 [(1, 1)] [GReg 0 1; GInterfere 0 1] = Some g /\
    ra_simplify g = Some g1 /\ gr_stack_optimistic_start g1 = UINT_MAX /\
    ra_allocate no_call tt g = Some (tt, g', false).
Proof.
  exists split_regs, split_graph, split_simplified, split_result.
  repeat split; vm_compute; reflexivity.
Qed.
