(* ===== verification/QpuInstr.v ===== *)
(** * QPU instructions of [src/broadcom/qpu/qpu_instr.c] and [qpu_instr.h]

    The unpacked form of V3D QPU instructions.  Enumerations are their C values,
    because unpacking stores raw bit fields into enumeration members (some of
    them values no enumerator has).  The two members of the union in
    [struct v3d_qpu_instr] are separate fields: the code selects the member by
    [type].  The name functions return [None] for NULL and for values the source
    marks unreachable. *)
From Stdlib Require Import String.
From S2P Require Import Prelude.

(** [enum v3d_qpu_cond] *)
Definition V3D_QPU_COND_NONE : Z := 0.
Definition V3D_QPU_COND_IFA : Z := 1.
Definition V3D_QPU_COND_IFB : Z := 2.
Definition V3D_QPU_COND_IFNA : Z := 3.
Definition V3D_QPU_COND_IFNB : Z := 4.

(** [enum v3d_qpu_pf] *)
Definition V3D_QPU_PF_NONE : Z := 0.
Definition V3D_QPU_PF_PUSHZ : Z := 1.
Definition V3D_QPU_PF_PUSHN : Z := 2.
Definition V3D_QPU_PF_PUSHC : Z := 3.

(** [enum v3d_qpu_uf] *)
Definition V3D_QPU_UF_NONE : Z := 0.
Definition V3D_QPU_UF_ANDZ : Z := 1.
Definition V3D_QPU_UF_ANDNZ : Z := 2.
Definition V3D_QPU_UF_NORNZ : Z := 3.
Definition V3D_QPU_UF_NORZ : Z := 4.
Definition V3D_QPU_UF_ANDN : Z := 5.
Definition V3D_QPU_UF_ANDNN : Z := 6.
Definition V3D_QPU_UF_NORNN : Z := 7.
Definition V3D_QPU_UF_NORN : Z := 8.
Definition V3D_QPU_UF_ANDC : Z := 9.
Definition V3D_QPU_UF_ANDNC : Z := 10.
Definition V3D_QPU_UF_NORNC : Z := 11.
Definition V3D_QPU_UF_NORC : Z := 12.

(** [enum v3d_qpu_waddr] *)
Definition V3D_QPU_WADDR_R0 : Z := 0.
Definition V3D_QPU_WADDR_R1 : Z := 1.
Definition V3D_QPU_WADDR_R2 : Z := 2.
Definition V3D_QPU_WADDR_R3 : Z := 3.
Definition V3D_QPU_WADDR_R4 : Z := 4.
Definition V3D_QPU_WADDR_R5 : Z := 5.
Definition V3D_QPU_WADDR_NOP : Z := 6.
Definition V3D_QPU_WADDR_TLB : Z := 7.
Definition V3D_QPU_WADDR_TLBU : Z := 8.
Definition V3D_QPU_WADDR_TMU : Z := 9.
Definition V3D_QPU_WADDR_TMUL : Z := 10.
Definition V3D_QPU_WADDR_TMUD : Z := 11.
Definition V3D_QPU_WADDR_TMUA : Z := 12.
Definition V3D_QPU_WADDR_TMUAU : Z := 13.
Definition V3D_QPU_WADDR_VPM : Z := 14.
Definition V3D_QPU_WADDR_VPMU : Z := 15.
Definition V3D_QPU_WADDR_SYNC : Z := 16.
Definition V3D_QPU_WADDR_SYNCU : Z := 17.
Definition V3D_QPU_WADDR_RECIP : Z := 19.
Definition V3D_QPU_WADDR_RSQRT : Z := 20.
Definition V3D_QPU_WADDR_EXP : Z := 21.
Definition V3D_QPU_WADDR_LOG : Z := 22.
Definition V3D_QPU_WADDR_SIN : Z := 23.
Definition V3D_QPU_WADDR_RSQRT2 : Z := 24.

(** [enum v3d_qpu_add_op] *)
Definition V3D_QPU_A_FADD : Z := 0.
Definition V3D_QPU_A_FADDNF : Z := 1.
Definition V3D_QPU_A_VFPACK : Z := 2.
Definition V3D_QPU_A_ADD : Z := 3.
Definition V3D_QPU_A_SUB : Z := 4.
Definition V3D_QPU_A_FSUB : Z := 5.
Definition V3D_QPU_A_MIN : Z := 6.
Definition V3D_QPU_A_MAX : Z := 7.
Definition V3D_QPU_A_UMIN : Z := 8.
Definition V3D_QPU_A_UMAX : Z := 9.
Definition V3D_QPU_A_SHL : Z := 10.
Definition V3D_QPU_A_SHR : Z := 11.
Definition V3D_QPU_A_ASR : Z := 12.
Definition V3D_QPU_A_ROR : Z := 13.
Definition V3D_QPU_A_FMIN : Z := 14.
Definition V3D_QPU_A_FMAX : Z := 15.
Definition V3D_QPU_A_VFMIN : Z := 16.
Definition V3D_QPU_A_AND : Z := 17.
Definition V3D_QPU_A_OR : Z := 18.
Definition V3D_QPU_A_XOR : Z := 19.
Definition V3D_QPU_A_VADD : Z := 20.
Definition V3D_QPU_A_VSUB : Z := 21.
Definition V3D_QPU_A_NOT : Z := 22.
Definition V3D_QPU_A_NEG : Z := 23.
Definition V3D_QPU_A_FLAPUSH : Z := 24.
Definition V3D_QPU_A_FLBPUSH : Z := 25.
Definition V3D_QPU_A_FLBPOP : Z := 26.
Definition V3D_QPU_A_SETMSF : Z := 27.
Definition V3D_QPU_A_SETREVF : Z := 28.
Definition V3D_QPU_A_NOP : Z := 29.
Definition V3D_QPU_A_TIDX : Z := 30.
Definition V3D_QPU_A_EIDX : Z := 31.
Definition V3D_QPU_A_LR : Z := 32.
Definition V3D_QPU_A_VFLA : Z := 33.
Definition V3D_QPU_A_VFLNA : Z := 34.
Definition V3D_QPU_A_VFLB : Z := 35.
Definition V3D_QPU_A_VFLNB : Z := 36.
Definition V3D_QPU_A_FXCD : Z := 37.
Definition V3D_QPU_A_XCD : Z := 38.
Definition V3D_QPU_A_FYCD : Z := 39.
Definition V3D_QPU_A_YCD : Z := 40.
Definition V3D_QPU_A_MSF : Z := 41.
Definition V3D_QPU_A_REVF : Z := 42.
Definition V3D_QPU_A_VDWWT : Z := 43.
Definition V3D_QPU_A_IID : Z := 44.
Definition V3D_QPU_A_SAMPID : Z := 45.
Definition V3D_QPU_A_PATCHID : Z := 46.
Definition V3D_QPU_A_TMUWT : Z := 47.
Definition V3D_QPU_A_VPMSETUP : Z := 48.
Definition V3D_QPU_A_VPMWT : Z := 49.
Definition V3D_QPU_A_LDVPMV : Z := 50.
Definition V3D_QPU_A_LDVPMD : Z := 51.
Definition V3D_QPU_A_LDVPMP : Z := 52.
Definition V3D_QPU_A_LDVPMG : Z := 53.
Definition V3D_QPU_A_FCMP : Z := 54.
Definition V3D_QPU_A_VFMAX : Z := 55.
Definition V3D_QPU_A_FROUND : Z := 56.
Definition V3D_QPU_A_FTOIN : Z := 57.
Definition V3D_QPU_A_FTRUNC : Z := 58.
Definition V3D_QPU_A_FTOIZ : Z := 59.
Definition V3D_QPU_A_FFLOOR : Z := 60.
Definition V3D_QPU_A_FTOUZ : Z := 61.
Definition V3D_QPU_A_FCEIL : Z := 62.
Definition V3D_QPU_A_FTOC : Z := 63.
Definition V3D_QPU_A_FDX : Z := 64.
Definition V3D_QPU_A_FDY : Z := 65.
Definition V3D_QPU_A_STVPMV : Z := 66.
Definition V3D_QPU_A_STVPMD : Z := 67.
Definition V3D_QPU_A_STVPMP : Z := 68.
Definition V3D_QPU_A_ITOF : Z := 69.
Definition V3D_QPU_A_CLZ : Z := 70.
Definition V3D_QPU_A_UTOF : Z := 71.

(** [enum v3d_qpu_mul_op] *)
Definition V3D_QPU_M_ADD : Z := 0.
Definition V3D_QPU_M_SUB : Z := 1.
Definition V3D_QPU_M_UMUL24 : Z := 2.
Definition V3D_QPU_M_VFMUL : Z := 3.
Definition V3D_QPU_M_SMUL24 : Z := 4.
Definition V3D_QPU_M_MULTOP : Z := 5.
Definition V3D_QPU_M_FMOV : Z := 6.
Definition V3D_QPU_M_MOV : Z := 7.
Definition V3D_QPU_M_NOP : Z := 8.
Definition V3D_QPU_M_FMUL : Z := 9.

(** [enum v3d_qpu_output_pack] *)
Definition V3D_QPU_PACK_NONE : Z := 0.
Definition V3D_QPU_PACK_L : Z := 1.
Definition V3D_QPU_PACK_H : Z := 2.

(** [enum v3d_qpu_input_unpack] *)
Definition V3D_QPU_UNPACK_NONE : Z := 0.
Definition V3D_QPU_UNPACK_ABS : Z := 1.
Definition V3D_QPU_UNPACK_L : Z := 2.
Definition V3D_QPU_UNPACK_H : Z := 3.
Definition V3D_QPU_UNPACK_REPLICATE_32F_16 : Z := 4.
Definition V3D_QPU_UNPACK_REPLICATE_L_16 : Z := 5.
Definition V3D_QPU_UNPACK_REPLICATE_H_16 : Z := 6.
Definition V3D_QPU_UNPACK_SWAP_16 : Z := 7.

(** [enum v3d_qpu_mux] *)
Definition V3D_QPU_MUX_R0 : Z := 0.
Definition V3D_QPU_MUX_R1 : Z := 1.
Definition V3D_QPU_MUX_R2 : Z := 2.
Definition V3D_QPU_MUX_R3 : Z := 3.
Definition V3D_QPU_MUX_R4 : Z := 4.
Definition V3D_QPU_MUX_R5 : Z := 5.
Definition V3D_QPU_MUX_A : Z := 6.
Definition V3D_QPU_MUX_B : Z := 7.

(** [enum v3d_qpu_branch_cond] *)
Definition V3D_QPU_BRANCH_COND_ALWAYS : Z := 0.
Definition V3D_QPU_BRANCH_COND_A0 : Z := 1.
Definition V3D_QPU_BRANCH_COND_NA0 : Z := 2.
Definition V3D_QPU_BRANCH_COND_ALLA : Z := 3.
Definition V3D_QPU_BRANCH_COND_ANYNA : Z := 4.
Definition V3D_QPU_BRANCH_COND_ANYA : Z := 5.
Definition V3D_QPU_BRANCH_COND_ALLNA : Z := 6.

(** [enum v3d_qpu_msfign] *)
Definition V3D_QPU_MSFIGN_NONE : Z := 0.
Definition V3D_QPU_MSFIGN_P : Z := 1.
Definition V3D_QPU_MSFIGN_Q : Z := 2.

(** [enum v3d_qpu_branch_dest] *)
Definition V3D_QPU_BRANCH_DEST_ABS : Z := 0.
Definition V3D_QPU_BRANCH_DEST_REL : Z := 1.
Definition V3D_QPU_BRANCH_DEST_LINK_REG : Z := 2.
Definition V3D_QPU_BRANCH_DEST_REGFILE : Z := 3.

(** [enum v3d_qpu_instr_type] *)
Definition V3D_QPU_INSTR_TYPE_ALU : Z := 0.
Definition V3D_QPU_INSTR_TYPE_BRANCH : Z := 1.

Record v3d_qpu_sig := V3dQpuSig {
  thrsw : bool; ldunif : bool; ldtmu : bool; ldvary : bool; ldvpm : bool; ldtlb : bool;
  ldtlbu : bool; small_imm : bool; ucb : bool; rotate : bool; wrtmuc : bool }.

Record v3d_qpu_flags := V3dQpuFlags {
  ac : Z; mc : Z; apf : Z; mpf : Z; auf : Z; muf : Z }.

(** The [add] and [mul] halves of [struct v3d_qpu_alu_instr]. *)
Record alu_half := AluHalf {
  al_op : Z; al_a : Z; al_b : Z; al_waddr : Z; al_magic_write : bool;
  al_output_pack : Z; al_a_unpack : Z; al_b_unpack : Z }.

Record v3d_qpu_alu_instr := V3dQpuAlu { alu_add : alu_half; alu_mul : alu_half }.

Record v3d_qpu_branch_instr := V3dQpuBranch {
  br_cond : Z; br_msfign : Z; br_bdi : Z; br_bdu : Z; br_ub : bool; br_raddr_a : Z; br_offset : Z }.

Record v3d_qpu_instr := V3dQpuInstr {
  in_type : Z; in_sig : v3d_qpu_sig; in_raddr_a : Z; in_raddr_b : Z; in_flags : v3d_qpu_flags;
  in_alu : v3d_qpu_alu_instr; in_branch : v3d_qpu_branch_instr }.

(** ** Names *)

Definition v3d_qpu_magic_waddr_name_table : list (option string) :=
  [ Some "r0"%string; Some "r1"%string; Some "r2"%string; Some "r3"%string; Some "r4"%string;
    Some "r5"%string; Some "-"%string; Some "tlb"%string; Some "tlbu"%string;
    Some "tmu"%string; Some "tmul"%string; Some "tmud"%string; Some "tmua"%string;
    Some "tmuau"%string; Some "vpm"%string; Some "vpmu"%string; Some "sync"%string;
    Some "syncu"%string; None; Some "recip"%string; Some "rsqrt"%string; Some "exp"%string;
    Some "log"%string; Some "sin"%string; Some "rsqrt2"%string ].

Definition v3d_qpu_magic_waddr_name (waddr : Z) : option string :=
  s ← array_get v3d_qpu_magic_waddr_name_table waddr; s.

Definition v3d_qpu_add_op_name_table : list (option string) :=
  [ Some "fadd"%string; Some "faddnf"%string; Some "vfpack"%string; Some "add"%string;
    Some "sub"%string; Some "fsub"%string; Some "min"%string; Some "max"%string;
    Some "umin"%string; Some "umax"%string; Some "shl"%string; Some "shr"%string;
    Some "asr"%string; Some "ror"%string; Some "fmin"%string; Some "fmax"%string;
    Some "vfmin"%string; Some "and"%string; Some "or"%string; Some "xor"%string;
    Some "vadd"%string; Some "vsub"%string; Some "not"%string; Some "neg"%string;
    Some "flapush"%string; Some "flbpush"%string; Some "flbpop"%string; Some "setmsf"%string;
    Some "setrevf"%string; Some "nop"%string; Some "tidx"%string; Some "eidx"%string;
    Some "lr"%string; Some "vfla"%string; Some "vflna"%string; Some "vflb"%string;
    Some "vflnb"%string; Some "fxcd"%string; Some "xcd"%string; Some "fycd"%string;
    Some "ycd"%string; Some "msf"%string; Some "revf"%string; Some "vdwwt"%string;
    Some "iid"%string; Some "sampid"%string; Some "patchid"%string; Some "tmuwt"%string;
    Some "vpmsetup"%string; Some "vpmwt"%string; Some "ldvpmv"%string; Some "ldvpmd"%string;
    Some "ldvpmp"%string; Some "ldvpmg"%string; Some "fcmp"%string; Some "vfmax"%string;
    Some "fround"%string; Some "ftoin"%string; Some "ftrunc"%string; Some "ftoiz"%string;
    Some "ffloor"%string; Some "ftouz"%string; Some "fceil"%string; Some "ftoc"%string;
    Some "fdx"%string; Some "fdy"%string; Some "stvpmv"%string; Some "stvpmd"%string;
    Some "stvpmp"%string; Some "itof"%string; Some "clz"%string; Some "utof"%string ].

Definition v3d_qpu_add_op_name (op : Z) : option string :=
  if Z.of_nat (length v3d_qpu_add_op_name_table) <=? op then None else
  s ← array_get v3d_qpu_add_op_name_table op; s.

Definition v3d_qpu_mul_op_name_table : list (option string) :=
  [ Some "add"%string; Some "sub"%string; Some "umul24"%string; Some "vfmul"%string;
    Some "smul24"%string; Some "multop"%string; Some "fmov"%string; Some "mov"%string;
    Some "nop"%string; Some "fmul"%string ].

Definition v3d_qpu_mul_op_name (op : Z) : option string :=
  if Z.of_nat (length v3d_qpu_mul_op_name_table) <=? op then None else
  s ← array_get v3d_qpu_mul_op_name_table op; s.

Definition v3d_qpu_cond_name (cond : Z) : option string :=
  if cond =? V3D_QPU_COND_NONE then Some EmptyString
  else if cond =? V3D_QPU_COND_IFA then Some ".ifa"%string
  else if cond =? V3D_QPU_COND_IFB then Some ".ifb"%string
  else if cond =? V3D_QPU_COND_IFNA then Some ".ifna"%string
  else if cond =? V3D_QPU_COND_IFNB then Some ".ifnb"%string
  else None.

Definition v3d_qpu_branch_cond_name (cond : Z) : option string :=
  if cond =? V3D_QPU_BRANCH_COND_ALWAYS then Some EmptyString
  else if cond =? V3D_QPU_BRANCH_COND_A0 then Some ".a0"%string
  else if cond =? V3D_QPU_BRANCH_COND_NA0 then Some ".na0"%string
  else if cond =? V3D_QPU_BRANCH_COND_ALLA then Some ".alla"%string
  else if cond =? V3D_QPU_BRANCH_COND_ANYNA then Some ".anyna"%string
  else if cond =? V3D_QPU_BRANCH_COND_ANYA then Some ".anya"%string
  else if cond =? V3D_QPU_BRANCH_COND_ALLNA then Some ".allna"%string
  else None.

Definition v3d_qpu_msfign_name (msfign : Z) : option string :=
  if msfign =? V3D_QPU_MSFIGN_NONE then Some EmptyString
  else if msfign =? V3D_QPU_MSFIGN_P then Some "p"%string
  else if msfign =? V3D_QPU_MSFIGN_Q then Some "q"%string
  else None.

Definition v3d_qpu_pf_name (pf : Z) : option string :=
  if pf =? V3D_QPU_PF_NONE then Some EmptyString
  else if pf =? V3D_QPU_PF_PUSHZ then Some ".pushz"%string
  else if pf =? V3D_QPU_PF_PUSHN then Some ".pushn"%string
  else if pf =? V3D_QPU_PF_PUSHC then Some ".pushc"%string
  else None.

Definition v3d_qpu_uf_name (uf : Z) : option string :=
  if uf =? V3D_QPU_UF_NONE then Some EmptyString
  else if uf =? V3D_QPU_UF_ANDZ then Some ".andz"%string
  else if uf =? V3D_QPU_UF_ANDNZ then Some ".andnz"%string
  else if uf =? V3D_QPU_UF_NORZ then Some ".norz"%string
  else if uf =? V3D_QPU_UF_NORNZ then Some ".nornz"%string
  else if uf =? V3D_QPU_UF_ANDN then Some ".andn"%string
  else if uf =? V3D_QPU_UF_ANDNN then Some ".andnn"%string
  else if uf =? V3D_QPU_UF_NORN then Some ".norn"%string
  else if uf =? V3D_QPU_UF_NORNN then Some ".nornn"%string
  else if uf =? V3D_QPU_UF_ANDC then Some ".andc"%string
  else if uf =? V3D_QPU_UF_ANDNC then Some ".andnc"%string
  else if uf =? V3D_QPU_UF_NORC then Some ".norc"%string
  else if uf =? V3D_QPU_UF_NORNC then Some ".nornc"%string
  else None.

Definition v3d_qpu_pack_name (pack : Z) : option string :=
  if pack =? V3D_QPU_PACK_NONE then Some EmptyString
  else if pack =? V3D_QPU_PACK_L then Some ".l"%string
  else if pack =? V3D_QPU_PACK_H then Some ".h"%string
  else None.

Definition v3d_qpu_unpack_name (unpack : Z) : option string :=
  if unpack =? V3D_QPU_UNPACK_NONE then Some EmptyString
  else if unpack =? V3D_QPU_UNPACK_L then Some ".l"%string
  else if unpack =? V3D_QPU_UNPACK_H then Some ".h"%string
  else if unpack =? V3D_QPU_UNPACK_ABS then Some ".abs"%string
  else if unpack =? V3D_QPU_UNPACK_REPLICATE_32F_16 then Some ".ff"%string
  else if unpack =? V3D_QPU_UNPACK_REPLICATE_L_16 then Some ".ll"%string
  else if unpack =? V3D_QPU_UNPACK_REPLICATE_H_16 then Some ".hh"%string
  else if unpack =? V3D_QPU_UNPACK_SWAP_16 then Some ".swp"%string
  else None.

(** ** Operands *)

(** The bits [D], [A], [B] of the argument tables: destination, source a, source b. *)
Definition arg_D : Z := 1.
Definition arg_A : Z := 2.
Definition arg_B : Z := 4.

(** Entry [op] is the sum of the bits of operation [op]. *)
Definition add_op_args : list Z :=
  [ 7; 7; 7; 7; 7; 7; 7; 7; 7; 7; 7; 7; 7; 7; 7; 7; 7; 7; 7; 7; 7; 7; 3; 3; 3; 3; 3; 3; 3; 0;
    1; 1; 1; 1; 1; 1; 1; 1; 1; 1; 1; 1; 1; 1; 1; 1; 1; 1; 3; 1; 3; 3; 3; 7; 7; 7; 3; 3; 3; 3;
    3; 3; 3; 3; 3; 3; 6; 6; 6; 3; 3; 3 ].

Definition mul_op_args : list Z :=
  [ 7; 7; 7; 7; 7; 7; 3; 3; 0; 7 ].

Definition v3d_qpu_add_op_has_dst (op : Z) : option bool :=
  args ← array_get add_op_args op; Some (negb (Z.land args arg_D =? 0)).

Definition v3d_qpu_add_op_num_src (op : Z) : option Z :=
  args ← array_get add_op_args op;
  Some (if negb (Z.land args arg_B =? 0) then 2
        else if negb (Z.land args arg_A =? 0) then 1 else 0).

Definition v3d_qpu_mul_op_has_dst (op : Z) : option bool :=
  args ← array_get mul_op_args op; Some (negb (Z.land args arg_D =? 0)).

Definition v3d_qpu_mul_op_num_src (op : Z) : option Z :=
  args ← array_get mul_op_args op;
  Some (if negb (Z.land args arg_B =? 0) then 2
        else if negb (Z.land args arg_A =? 0) then 1 else 0).

(** ** Register classes *)

Definition v3d_qpu_magic_waddr_is_sfu (waddr : Z) : bool :=
  (waddr =? V3D_QPU_WADDR_RECIP) || (waddr =? V3D_QPU_WADDR_RSQRT)
  || (waddr =? V3D_QPU_WADDR_EXP) || (waddr =? V3D_QPU_WADDR_LOG)
  || (waddr =? V3D_QPU_WADDR_SIN) || (waddr =? V3D_QPU_WADDR_RSQRT2).

Definition v3d_qpu_magic_waddr_is_tmu (waddr : Z) : bool :=
  (waddr =? V3D_QPU_WADDR_TMU) || (waddr =? V3D_QPU_WADDR_TMUL)
  || (waddr =? V3D_QPU_WADDR_TMUD) || (waddr =? V3D_QPU_WADDR_TMUA)
  || (waddr =? V3D_QPU_WADDR_TMUAU).

Definition v3d_qpu_magic_waddr_is_tlb (waddr : Z) : bool :=
  (waddr =? V3D_QPU_WADDR_TLB) || (waddr =? V3D_QPU_WADDR_TLBU).

Definition v3d_qpu_magic_waddr_is_vpm (waddr : Z) : bool :=
  (waddr =? V3D_QPU_WADDR_VPM) || (waddr =? V3D_QPU_WADDR_VPMU).

Definition v3d_qpu_magic_waddr_is_tsy (waddr : Z) : bool :=
  (waddr =? V3D_QPU_WADDR_SYNC) || (waddr =? V3D_QPU_WADDR_SYNCU).

Definition v3d_qpu_writes_r3 (inst : v3d_qpu_instr) : bool :=
  ldvary (in_sig inst) || ldvpm (in_sig inst).

Definition v3d_qpu_writes_r4 (inst : v3d_qpu_instr) : bool :=
  if ldtmu (in_sig inst) then true else
  if in_type inst =? V3D_QPU_INSTR_TYPE_ALU then
    let add := alu_add (in_alu inst) in
    let mul := alu_mul (in_alu inst) in
    (al_magic_write add && v3d_qpu_magic_waddr_is_sfu (al_waddr add))
    || (al_magic_write mul && v3d_qpu_magic_waddr_is_sfu (al_waddr mul))
  else false.

Definition v3d_qpu_writes_r5 (inst : v3d_qpu_instr) : bool :=
  ldvary (in_sig inst) || ldunif (in_sig inst).

Definition v3d_qpu_uses_mux (inst : v3d_qpu_instr) (mux : Z) : option bool :=
  let add := alu_add (in_alu inst) in
  let mul := alu_mul (in_alu inst) in
  add_nsrc ← v3d_qpu_add_op_num_src (al_op add);
  mul_nsrc ← v3d_qpu_mul_op_num_src (al_op mul);
  Some (((0 <? add_nsrc) && (al_a add =? mux)) || ((1 <? add_nsrc) && (al_b add =? mux))
        || ((0 <? mul_nsrc) && (al_a mul =? mux)) || ((1 <? mul_nsrc) && (al_b mul =? mux))).
