(* ===== verification/QpuPack.v ===== *)
(** * Encoding of QPU instructions ([src/broadcom/qpu/qpu_pack.c])

    Packing works on 64-bit words.  A packing function returns [None] when an
    assertion of [QPU_SET_FIELD] (or of a table access) fails, [Some None] when the
    source returns false, and [Some (Some w)] when it returns true with the word
    [w].  Unpacking takes the instruction it overwrites, as the source does:
    members it does not write keep their old values.  It returns [None] when the
    source returns false; the members written up to that point are then not kept.
    The single target of this version of the code is V3D 3.3, so the device
    argument, which no function reads, is left out. *)
From S2P Require Import Prelude Bitset QpuInstr.

(** ** Bit fields *)

Definition QPU_MASK (high low : Z) : Z :=
  u64 (Z.shiftl (Z.shiftl 1 (high - low + 1) - 1) low).

Definition QPU_SET_FIELD (value high low : Z) : option Z :=
  let fieldval := u64 (Z.shiftl (u64 value) low) in
  if Z.land fieldval (u64 (Z.lnot (QPU_MASK high low))) =? 0
  then Some (Z.land fieldval (QPU_MASK high low)) else None.

Definition QPU_GET_FIELD (word high low : Z) : Z :=
  u32 (Z.shiftr (Z.land word (QPU_MASK high low)) low).

(** [*packed_instr |= QPU_SET_FIELD(value, field)] *)
Definition or_field (w value high low : Z) : option Z :=
  f ← QPU_SET_FIELD value high low; Some (Z.lor w f).

(** ** Signals *)

Definition no_sig : v3d_qpu_sig :=
  V3dQpuSig false false false false false false false false false false false.

Definition mk_sig (THRSW LDUNIF LDTMU LDVARY LDVPM LDTLB LDTLBU SMIMM UCB ROT : bool)
    : v3d_qpu_sig :=
  V3dQpuSig THRSW LDUNIF LDTMU LDVARY LDVPM LDTLB LDTLBU SMIMM UCB ROT false.

(** Arguments of [mk_sig]: THRSW, LDUNIF, LDTMU, LDVARY, LDVPM, LDTLB, LDTLBU, SMIMM, UCB, ROT. *)
Definition v33_sig_map : list v3d_qpu_sig :=
  [ (* 0 *) no_sig
  ; (* 1 *) mk_sig true false false false false false false false false false
  ; (* 2 *) mk_sig false true false false false false false false false false
  ; (* 3 *) mk_sig true true false false false false false false false false
  ; (* 4 *) mk_sig false false true false false false false false false false
  ; (* 5 *) mk_sig true false true false false false false false false false
  ; (* 6 *) mk_sig false true true false false false false false false false
  ; (* 7 *) mk_sig true true true false false false false false false false
  ; (* 8 *) mk_sig false false false true false false false false false false
  ; (* 9 *) mk_sig true false false true false false false false false false
  ; (* 10 *) mk_sig false true false true false false false false false false
  ; (* 11 *) mk_sig true true false true false false false false false false
  ; (* 12 *) mk_sig false false true true false false false false false false
  ; (* 13 *) mk_sig true false true true false false false false false false
  ; (* 14 *) mk_sig false false false true false false false true false false
  ; (* 15 *) mk_sig false false false false false false false true false false
  ; (* 16 *) mk_sig false false false false false true false false false false
  ; (* 17 *) mk_sig false false false false false false true false false false
  ; (* 18 *) no_sig
  ; (* 19 *) no_sig
  ; (* 20 *) no_sig
  ; (* 21 *) no_sig
  ; (* 22 *) mk_sig false false false false false false false false true false
  ; (* 23 *) mk_sig false false false false false false false false false true
  ; (* 24 *) mk_sig false false false false true false false false false false
  ; (* 25 *) mk_sig true false false false true false false false false false
  ; (* 26 *) mk_sig false true false false true false false false false false
  ; (* 27 *) mk_sig true true false false true false false false false false
  ; (* 28 *) mk_sig false false true false true false false false false false
  ; (* 29 *) mk_sig true false true false true false false false false false
  ; (* 30 *) mk_sig false false false false true false false true false false
  ; (* 31 *) mk_sig false false false false false false false true false false
  ].

(** The bytes [memcmp] sees: eight one-bit fields in the first byte, three in the
    second, with zero padding. *)
Definition sig_bytes (s : v3d_qpu_sig) : list Z :=
  [ Z.b2z (thrsw s) + 2 * Z.b2z (ldunif s) + 4 * Z.b2z (ldtmu s) + 8 * Z.b2z (ldvary s)
    + 16 * Z.b2z (ldvpm s) + 32 * Z.b2z (ldtlb s) + 64 * Z.b2z (ldtlbu s)
    + 128 * Z.b2z (small_imm s);
    Z.b2z (ucb s) + 2 * Z.b2z (rotate s) + 4 * Z.b2z (wrtmuc s) ].

(** [memcmp(a, b, n) != 0]. *)
Definition memcmp_ne (a b : list Z) (n : nat) : bool :=
  negb (bool_decide (take n a = take n b)).

(** The third argument of [memcmp] is [sizeof( *sig) != 0], that is 1. *)
Definition v3d_qpu_sig_unpack (packed_sig : Z) (sig : v3d_qpu_sig) : v3d_qpu_sig * bool :=
  match array_get v33_sig_map packed_sig with
  | None => (sig, false)
  | Some sig =>
    (sig, (packed_sig =? 0) || memcmp_ne (sig_bytes sig) (sig_bytes no_sig) 1)
  end.

Fixpoint sig_pack_loop (sig : v3d_qpu_sig) (map : list v3d_qpu_sig) (i : Z) : option Z :=
  match map with
  | [] => None
  | m :: map =>
    if negb (memcmp_ne (sig_bytes m) (sig_bytes sig) 2) then Some i
    else sig_pack_loop sig map (i + 1)
  end.

Definition v3d_qpu_sig_pack (sig : v3d_qpu_sig) : option Z := sig_pack_loop sig v33_sig_map 0.

(** ** Conditions and flags *)

Definition cond_map : list Z :=
  [V3D_QPU_COND_IFA; V3D_QPU_COND_IFB; V3D_QPU_COND_IFNA; V3D_QPU_COND_IFNB].

Definition v3d_qpu_flags_unpack (packed_cond : Z) : option (v3d_qpu_flags * bool) :=
  let none := V3dQpuFlags V3D_QPU_COND_NONE V3D_QPU_COND_NONE V3D_QPU_PF_NONE V3D_QPU_PF_NONE
                V3D_QPU_UF_NONE V3D_QPU_UF_NONE in
  let cond := Z.land (Z.shiftr packed_cond 2) 3 + V3D_QPU_COND_IFA in
  let pf := Z.land packed_cond 3 in
  let uf := Z.land packed_cond 15 - 4 + V3D_QPU_UF_ANDZ in
  if packed_cond =? 0 then Some (none, true)
  else if Z.shiftr packed_cond 2 =? 0 then
    Some (V3dQpuFlags 0 0 pf 0 0 0, true)
  else if Z.shiftr packed_cond 4 =? 0 then
    Some (V3dQpuFlags 0 0 0 0 uf 0, true)
  else if packed_cond =? 16 then Some (none, false)
  else if Z.shiftr packed_cond 2 =? 4 then
    Some (V3dQpuFlags 0 0 0 pf 0 0, true)
  else if Z.shiftr packed_cond 4 =? 1 then
    Some (V3dQpuFlags 0 0 0 0 0 uf, true)
  else if Z.shiftr packed_cond 4 =? 2 then
    Some (V3dQpuFlags cond 0 0 pf 0 0, true)
  else if Z.shiftr packed_cond 4 =? 3 then
    Some (V3dQpuFlags 0 cond pf 0 0 0, true)
  else if negb (Z.shiftr packed_cond 6 =? 0) then
    mc ← array_get cond_map (Z.land (Z.shiftr packed_cond 4) 3);
    if Z.land (Z.shiftr packed_cond 2) 3 =? 0 then
      ac ← array_get cond_map (Z.land packed_cond 3);
      Some (V3dQpuFlags ac mc 0 0 0 0, true)
    else Some (V3dQpuFlags 0 mc 0 0 uf 0, true)
  else Some (none, true).

Definition AC : Z := 1.
Definition MC : Z := 2.
Definition APF : Z := 4.
Definition MPF : Z := 8.
Definition AUF : Z := 16.
Definition MUF : Z := 32.

(** [flags_present], [bits] *)
Definition flags_table : list (Z * Z) :=
  [ (0, 0);
    (APF, 0);
    (AUF, 0);
    (MPF, Z.shiftl 1 4);
    (MUF, Z.shiftl 1 4);
    (AC, Z.shiftl 1 5);
    (Z.lor AC MPF, Z.shiftl 1 5);
    (MC, Z.lor (Z.shiftl 1 5) (Z.shiftl 1 4));
    (Z.lor MC APF, Z.lor (Z.shiftl 1 5) (Z.shiftl 1 4));
    (Z.lor MC AC, Z.shiftl 1 6);
    (Z.lor MC AUF, Z.shiftl 1 6) ].

Definition flags_present (cond : v3d_qpu_flags) : Z :=
  let set (p : bool) (flag acc : Z) := if p then Z.lor acc flag else acc in
  set (negb (muf cond =? V3D_QPU_UF_NONE)) MUF
  (set (negb (auf cond =? V3D_QPU_UF_NONE)) AUF
  (set (negb (mpf cond =? V3D_QPU_PF_NONE)) MPF
  (set (negb (apf cond =? V3D_QPU_PF_NONE)) APF
  (set (negb (mc cond =? V3D_QPU_COND_NONE)) MC
  (set (negb (ac cond =? V3D_QPU_COND_NONE)) AC 0))))).

(** The body of the loop, for the row that matches. *)
Definition flags_bits (cond : v3d_qpu_flags) (present bits : Z) : Z :=
  let has (flag : Z) := negb (Z.land present flag =? 0) in
  let p := Z.lor (Z.lor bits (apf cond)) (mpf cond) in
  let p := if has AUF then Z.lor p (u32 (auf cond - V3D_QPU_UF_ANDZ + 4)) else p in
  let p := if has MUF then Z.lor p (u32 (muf cond - V3D_QPU_UF_ANDZ + 4)) else p in
  let p := if has AC then Z.lor p (u32 (Z.shiftl (ac cond - V3D_QPU_COND_IFA) 2)) else p in
  if has MC then
    if negb (Z.land p (Z.shiftl 1 6) =? 0)
    then Z.lor p (u32 (Z.shiftl (mc cond - V3D_QPU_COND_IFA) 4))
    else Z.lor p (u32 (Z.shiftl (mc cond - V3D_QPU_COND_IFA) 2))
  else p.

Fixpoint flags_pack_loop (cond : v3d_qpu_flags) (present : Z) (table : list (Z * Z))
    : option Z :=
  match table with
  | [] => None
  | (row, bits) :: table =>
    if negb (row =? present) then flags_pack_loop cond present table
    else Some (flags_bits cond present bits)
  end.

Definition v3d_qpu_flags_pack (cond : v3d_qpu_flags) : option Z :=
  flags_pack_loop cond (flags_present cond) flags_table.

(** ** Opcodes *)

Definition MUX_MASK (bot top : Z) : Z := (Z.shiftl 1 (top + 1) - 1) - (Z.shiftl 1 bot - 1).
Definition ANYMUX : Z := MUX_MASK 0 7.

(** The [ver] member, which no function reads, is left out. *)
Record opcode_desc := OpcodeDesc {
  opcode_first : Z; opcode_last : Z; mux_b_mask : Z; mux_a_mask : Z; od_op : Z }.

Definition add_ops : list opcode_desc :=
  [ OpcodeDesc 0 47 ANYMUX ANYMUX V3D_QPU_A_FADD
  ; OpcodeDesc 0 47 ANYMUX ANYMUX V3D_QPU_A_FADDNF
  ; OpcodeDesc 53 55 ANYMUX ANYMUX V3D_QPU_A_VFPACK
  ; OpcodeDesc 56 56 ANYMUX ANYMUX V3D_QPU_A_ADD
  ; OpcodeDesc 57 59 ANYMUX ANYMUX V3D_QPU_A_VFPACK
  ; OpcodeDesc 60 60 ANYMUX ANYMUX V3D_QPU_A_SUB
  ; OpcodeDesc 61 63 ANYMUX ANYMUX V3D_QPU_A_VFPACK
  ; OpcodeDesc 64 111 ANYMUX ANYMUX V3D_QPU_A_FSUB
  ; OpcodeDesc 120 120 ANYMUX ANYMUX V3D_QPU_A_MIN
  ; OpcodeDesc 121 121 ANYMUX ANYMUX V3D_QPU_A_MAX
  ; OpcodeDesc 122 122 ANYMUX ANYMUX V3D_QPU_A_UMIN
  ; OpcodeDesc 123 123 ANYMUX ANYMUX V3D_QPU_A_UMAX
  ; OpcodeDesc 124 124 ANYMUX ANYMUX V3D_QPU_A_SHL
  ; OpcodeDesc 125 125 ANYMUX ANYMUX V3D_QPU_A_SHR
  ; OpcodeDesc 126 126 ANYMUX ANYMUX V3D_QPU_A_ASR
  ; OpcodeDesc 127 127 ANYMUX ANYMUX V3D_QPU_A_ROR
  ; OpcodeDesc 128 175 ANYMUX ANYMUX V3D_QPU_A_FMIN
  ; OpcodeDesc 128 175 ANYMUX ANYMUX V3D_QPU_A_FMAX
  ; OpcodeDesc 176 180 ANYMUX ANYMUX V3D_QPU_A_VFMIN
  ; OpcodeDesc 181 181 ANYMUX ANYMUX V3D_QPU_A_AND
  ; OpcodeDesc 182 182 ANYMUX ANYMUX V3D_QPU_A_OR
  ; OpcodeDesc 183 183 ANYMUX ANYMUX V3D_QPU_A_XOR
  ; OpcodeDesc 184 184 ANYMUX ANYMUX V3D_QPU_A_VADD
  ; OpcodeDesc 185 185 ANYMUX ANYMUX V3D_QPU_A_VSUB
  ; OpcodeDesc 186 186 (Z.shiftl 1 0) ANYMUX V3D_QPU_A_NOT
  ; OpcodeDesc 186 186 (Z.shiftl 1 1) ANYMUX V3D_QPU_A_NEG
  ; OpcodeDesc 186 186 (Z.shiftl 1 2) ANYMUX V3D_QPU_A_FLAPUSH
  ; OpcodeDesc 186 186 (Z.shiftl 1 3) ANYMUX V3D_QPU_A_FLBPUSH
  ; OpcodeDesc 186 186 (Z.shiftl 1 4) ANYMUX V3D_QPU_A_FLBPOP
  ; OpcodeDesc 186 186 (Z.shiftl 1 6) ANYMUX V3D_QPU_A_SETMSF
  ; OpcodeDesc 186 186 (Z.shiftl 1 7) ANYMUX V3D_QPU_A_SETREVF
  ; OpcodeDesc 187 187 (Z.shiftl 1 0) (Z.shiftl 1 0) V3D_QPU_A_NOP
  ; OpcodeDesc 187 187 (Z.shiftl 1 0) (Z.shiftl 1 1) V3D_QPU_A_TIDX
  ; OpcodeDesc 187 187 (Z.shiftl 1 0) (Z.shiftl 1 2) V3D_QPU_A_EIDX
  ; OpcodeDesc 187 187 (Z.shiftl 1 0) (Z.shiftl 1 3) V3D_QPU_A_LR
  ; OpcodeDesc 187 187 (Z.shiftl 1 0) (Z.shiftl 1 4) V3D_QPU_A_VFLA
  ; OpcodeDesc 187 187 (Z.shiftl 1 0) (Z.shiftl 1 5) V3D_QPU_A_VFLNA
  ; OpcodeDesc 187 187 (Z.shiftl 1 0) (Z.shiftl 1 6) V3D_QPU_A_VFLB
  ; OpcodeDesc 187 187 (Z.shiftl 1 0) (Z.shiftl 1 7) V3D_QPU_A_VFLNB
  ; OpcodeDesc 187 187 (Z.shiftl 1 1) (MUX_MASK 0 2) V3D_QPU_A_FXCD
  ; OpcodeDesc 187 187 (Z.shiftl 1 1) (Z.shiftl 1 3) V3D_QPU_A_XCD
  ; OpcodeDesc 187 187 (Z.shiftl 1 1) (MUX_MASK 4 6) V3D_QPU_A_FYCD
  ; OpcodeDesc 187 187 (Z.shiftl 1 1) (Z.shiftl 1 7) V3D_QPU_A_YCD
  ; OpcodeDesc 187 187 (Z.shiftl 1 2) (Z.shiftl 1 0) V3D_QPU_A_MSF
  ; OpcodeDesc 187 187 (Z.shiftl 1 2) (Z.shiftl 1 1) V3D_QPU_A_REVF
  ; OpcodeDesc 187 187 (Z.shiftl 1 2) (Z.shiftl 1 2) V3D_QPU_A_VDWWT
  ; OpcodeDesc 187 187 (Z.shiftl 1 2) (Z.shiftl 1 5) V3D_QPU_A_TMUWT
  ; OpcodeDesc 187 187 (Z.shiftl 1 2) (Z.shiftl 1 6) V3D_QPU_A_VPMWT
  ; OpcodeDesc 187 187 (Z.shiftl 1 3) ANYMUX V3D_QPU_A_VPMSETUP
  ; OpcodeDesc 192 239 ANYMUX ANYMUX V3D_QPU_A_FCMP
  ; OpcodeDesc 240 244 ANYMUX ANYMUX V3D_QPU_A_VFMAX
  ; OpcodeDesc 245 245 (MUX_MASK 0 2) ANYMUX V3D_QPU_A_FROUND
  ; OpcodeDesc 245 245 (Z.shiftl 1 3) ANYMUX V3D_QPU_A_FTOIN
  ; OpcodeDesc 245 245 (MUX_MASK 4 6) ANYMUX V3D_QPU_A_FTRUNC
  ; OpcodeDesc 245 245 (Z.shiftl 1 7) ANYMUX V3D_QPU_A_FTOIZ
  ; OpcodeDesc 246 246 (MUX_MASK 0 2) ANYMUX V3D_QPU_A_FFLOOR
  ; OpcodeDesc 246 246 (Z.shiftl 1 3) ANYMUX V3D_QPU_A_FTOUZ
  ; OpcodeDesc 246 246 (MUX_MASK 4 6) ANYMUX V3D_QPU_A_FCEIL
  ; OpcodeDesc 246 246 (Z.shiftl 1 7) ANYMUX V3D_QPU_A_FTOC
  ; OpcodeDesc 247 247 (MUX_MASK 0 2) ANYMUX V3D_QPU_A_FDX
  ; OpcodeDesc 247 247 (MUX_MASK 4 6) ANYMUX V3D_QPU_A_FDY
  ; OpcodeDesc 248 248 ANYMUX ANYMUX V3D_QPU_A_STVPMV
  ; OpcodeDesc 248 248 ANYMUX ANYMUX V3D_QPU_A_STVPMD
  ; OpcodeDesc 248 248 ANYMUX ANYMUX V3D_QPU_A_STVPMP
  ; OpcodeDesc 252 252 (MUX_MASK 0 2) ANYMUX V3D_QPU_A_ITOF
  ; OpcodeDesc 252 252 (Z.shiftl 1 3) ANYMUX V3D_QPU_A_CLZ
  ; OpcodeDesc 252 252 (MUX_MASK 4 6) ANYMUX V3D_QPU_A_UTOF
  ].

Definition mul_ops : list opcode_desc :=
  [ OpcodeDesc 1 1 ANYMUX ANYMUX V3D_QPU_M_ADD
  ; OpcodeDesc 2 2 ANYMUX ANYMUX V3D_QPU_M_SUB
  ; OpcodeDesc 3 3 ANYMUX ANYMUX V3D_QPU_M_UMUL24
  ; OpcodeDesc 4 8 ANYMUX ANYMUX V3D_QPU_M_VFMUL
  ; OpcodeDesc 9 9 ANYMUX ANYMUX V3D_QPU_M_SMUL24
  ; OpcodeDesc 10 10 ANYMUX ANYMUX V3D_QPU_M_MULTOP
  ; OpcodeDesc 14 14 ANYMUX ANYMUX V3D_QPU_M_FMOV
  ; OpcodeDesc 15 15 (MUX_MASK 0 3) ANYMUX V3D_QPU_M_FMOV
  ; OpcodeDesc 15 15 (Z.shiftl 1 4) (Z.shiftl 1 0) V3D_QPU_M_NOP
  ; OpcodeDesc 15 15 (Z.shiftl 1 7) ANYMUX V3D_QPU_M_MOV
  ; OpcodeDesc 16 63 ANYMUX ANYMUX V3D_QPU_M_FMUL
  ].

Fixpoint lookup_opcode (opcodes : list opcode_desc) (opcode mux_a mux_b : Z)
    : option opcode_desc :=
  match opcodes with
  | [] => None
  | op_desc :: opcodes =>
    if (opcode <? opcode_first op_desc) || (opcode_last op_desc <? opcode)
    then lookup_opcode opcodes opcode mux_a mux_b
    else if Z.land (mux_b_mask op_desc) (Z.shiftl 1 mux_b) =? 0
    then lookup_opcode opcodes opcode mux_a mux_b
    else if Z.land (mux_a_mask op_desc) (Z.shiftl 1 mux_a) =? 0
    then lookup_opcode opcodes opcode mux_a mux_b
    else Some op_desc
  end.

(** ** Input and output modifiers: [None] is the returned false *)

Definition v3d_qpu_float32_unpack_unpack (packed : Z) : option Z :=
  if packed =? 0 then Some V3D_QPU_UNPACK_ABS
  else if packed =? 1 then Some V3D_QPU_UNPACK_NONE
  else if packed =? 2 then Some V3D_QPU_UNPACK_L
  else if packed =? 3 then Some V3D_QPU_UNPACK_H
  else None.

Definition v3d_qpu_float32_unpack_pack (unpacked : Z) : option Z :=
  if unpacked =? V3D_QPU_UNPACK_ABS then Some 0
  else if unpacked =? V3D_QPU_UNPACK_NONE then Some 1
  else if unpacked =? V3D_QPU_UNPACK_L then Some 2
  else if unpacked =? V3D_QPU_UNPACK_H then Some 3
  else None.

Definition v3d_qpu_float16_unpack_unpack (packed : Z) : option Z :=
  if packed =? 0 then Some V3D_QPU_UNPACK_NONE
  else if packed =? 1 then Some V3D_QPU_UNPACK_REPLICATE_32F_16
  else if packed =? 2 then Some V3D_QPU_UNPACK_REPLICATE_L_16
  else if packed =? 3 then Some V3D_QPU_UNPACK_REPLICATE_H_16
  else if packed =? 4 then Some V3D_QPU_UNPACK_SWAP_16
  else None.

Definition v3d_qpu_float16_unpack_pack (unpacked : Z) : option Z :=
  if unpacked =? V3D_QPU_UNPACK_NONE then Some 0
  else if unpacked =? V3D_QPU_UNPACK_REPLICATE_32F_16 then Some 1
  else if unpacked =? V3D_QPU_UNPACK_REPLICATE_L_16 then Some 2
  else if unpacked =? V3D_QPU_UNPACK_REPLICATE_H_16 then Some 3
  else if unpacked =? V3D_QPU_UNPACK_SWAP_16 then Some 4
  else None.

Definition v3d_qpu_float32_pack_pack (unpacked : Z) : option Z :=
  if unpacked =? V3D_QPU_PACK_NONE then Some 0
  else if unpacked =? V3D_QPU_PACK_L then Some 1
  else if unpacked =? V3D_QPU_PACK_H then Some 2
  else None.

(** ** The groups of operations that the [switch] statements distinguish *)

Definition is_float32_op (op : Z) : bool :=
  (op =? V3D_QPU_A_FADD) || (op =? V3D_QPU_A_FADDNF) || (op =? V3D_QPU_A_FSUB)
  || (op =? V3D_QPU_A_FMIN) || (op =? V3D_QPU_A_FMAX) || (op =? V3D_QPU_A_FCMP).

Definition is_round_op (op : Z) : bool :=
  (op =? V3D_QPU_A_FFLOOR) || (op =? V3D_QPU_A_FROUND) || (op =? V3D_QPU_A_FTRUNC)
  || (op =? V3D_QPU_A_FCEIL) || (op =? V3D_QPU_A_FDX) || (op =? V3D_QPU_A_FDY).

Definition is_ftoi_op (op : Z) : bool :=
  (op =? V3D_QPU_A_FTOIN) || (op =? V3D_QPU_A_FTOIZ) || (op =? V3D_QPU_A_FTOUZ)
  || (op =? V3D_QPU_A_FTOC).

Definition is_vf_op (op : Z) : bool := (op =? V3D_QPU_A_VFMIN) || (op =? V3D_QPU_A_VFMAX).

Definition is_stvpm_op (op : Z) : bool :=
  (op =? V3D_QPU_A_STVPMV) || (op =? V3D_QPU_A_STVPMD) || (op =? V3D_QPU_A_STVPMP).

(** ** Unpacking the add half *)

(** The first part of [v3d_qpu_add_unpack]: which operation it is. *)
Definition add_unpack_op (op mux_a mux_b waddr : Z) : option Z :=
  let map_op := op in
  let map_op := if (249 <=? map_op) && (map_op <=? 251) then map_op - 249 + 245 else map_op in
  let map_op := if (253 <=? map_op) && (map_op <=? 255) then map_op - 253 + 245 else map_op in
  desc ← lookup_opcode add_ops map_op mux_a mux_b;
  let aop := od_op desc in
  let aop :=
    if Z.land op 3 * 8 + mux_b <? Z.land (Z.shiftr op 2) 3 * 8 + mux_a then
      let aop := if aop =? V3D_QPU_A_FMIN then V3D_QPU_A_FMAX else aop in
      if aop =? V3D_QPU_A_FADD then V3D_QPU_A_FADDNF else aop
    else aop in
  if is_stvpm_op aop then
    if waddr =? 0 then Some V3D_QPU_A_STVPMV
    else if waddr =? 1 then Some V3D_QPU_A_STVPMD
    else if waddr =? 2 then Some V3D_QPU_A_STVPMP
    else None
  else Some aop.

(** The second part: output pack, unpack of a, unpack of b (given their old values). *)
Definition add_unpack_modes (aop op mux_b old_b_unpack : Z) : option (Z * Z * Z) :=
  if is_float32_op aop then
    a ← v3d_qpu_float32_unpack_unpack (Z.land (Z.shiftr op 2) 3);
    b ← v3d_qpu_float32_unpack_unpack (Z.land (Z.shiftr op 0) 3);
    Some (Z.land (Z.shiftr op 4) 3, a, b)
  else if is_round_op aop then
    a ← v3d_qpu_float32_unpack_unpack (Z.land (Z.shiftr op 2) 3);
    Some (Z.land mux_b 3, a, old_b_unpack)
  else if is_ftoi_op aop then
    a ← v3d_qpu_float32_unpack_unpack (Z.land (Z.shiftr op 2) 3);
    Some (V3D_QPU_PACK_NONE, a, old_b_unpack)
  else if is_vf_op aop then
    a ← v3d_qpu_float16_unpack_unpack (Z.land op 7);
    Some (V3D_QPU_PACK_NONE, a, V3D_QPU_UNPACK_NONE)
  else Some (V3D_QPU_PACK_NONE, V3D_QPU_UNPACK_NONE, V3D_QPU_UNPACK_NONE).

(** [None]: the function returned false (the instruction is then of no use to
    the caller, so what was already written of it is not kept). *)
Definition v3d_qpu_add_unpack (packed_inst : Z) (add : alu_half) : option alu_half :=
  let op := QPU_GET_FIELD packed_inst 31 24 in
  let mux_a := QPU_GET_FIELD packed_inst 14 12 in
  let mux_b := QPU_GET_FIELD packed_inst 17 15 in
  let waddr := QPU_GET_FIELD packed_inst 37 32 in
  aop ← add_unpack_op op mux_a mux_b waddr;
  '(output_pack, a_unpack, b_unpack) ← add_unpack_modes aop op mux_b (al_b_unpack add);
  Some {| al_op := aop; al_a := mux_a; al_b := mux_b;
          al_waddr := u8 (QPU_GET_FIELD packed_inst 37 32);
          al_magic_write := negb (Z.land packed_inst (QPU_MASK 44 44) =? 0);
          al_output_pack := output_pack; al_a_unpack := a_unpack; al_b_unpack := b_unpack |}.

(** ** Unpacking the mul half *)

Definition mul_unpack_modes (mop op mux_b old_b_unpack : Z) : option (Z * Z * Z) :=
  if mop =? V3D_QPU_M_FMUL then
    a ← v3d_qpu_float32_unpack_unpack (Z.land (Z.shiftr op 2) 3);
    b ← v3d_qpu_float32_unpack_unpack (Z.land (Z.shiftr op 0) 3);
    Some (u32 (Z.land (Z.shiftr op 4) 3 - 1), a, b)
  else if mop =? V3D_QPU_M_FMOV then
    a ← v3d_qpu_float32_unpack_unpack (Z.land mux_b 3);
    Some (Z.shiftl (Z.land op 1) 1 + Z.land (Z.shiftr mux_b 2) 1, a, old_b_unpack)
  else Some (V3D_QPU_PACK_NONE, V3D_QPU_UNPACK_NONE, V3D_QPU_UNPACK_NONE).

Definition v3d_qpu_mul_unpack (packed_inst : Z) (mul : alu_half) : option alu_half :=
  let op := QPU_GET_FIELD packed_inst 63 58 in
  let mux_a := QPU_GET_FIELD packed_inst 20 18 in
  let mux_b := QPU_GET_FIELD packed_inst 23 21 in
  desc ← lookup_opcode mul_ops op mux_a mux_b;
  '(output_pack, a_unpack, b_unpack) ← mul_unpack_modes (od_op desc) op mux_b (al_b_unpack mul);
  Some {| al_op := od_op desc; al_a := mux_a; al_b := mux_b;
          al_waddr := u8 (QPU_GET_FIELD packed_inst 43 38);
          al_magic_write := negb (Z.land packed_inst (QPU_MASK 45 45) =? 0);
          al_output_pack := output_pack; al_a_unpack := a_unpack; al_b_unpack := b_unpack |}.

(** ** Packing the add half *)

Fixpoint find_op (ops : list opcode_desc) (op : Z) : option opcode_desc :=
  match ops with
  | [] => None
  | desc :: ops => if od_op desc =? op then Some desc else find_op ops op
  end.

(** What packing computes for a half: opcode, mux a, mux b. *)
Record half_code := HalfCode { hc_opcode : Z; hc_mux_a : Z; hc_mux_b : Z }.

(** The [switch] on the operation in [v3d_qpu_add_pack]; [None] is the returned false. *)
Definition add_pack_modes (add : alu_half) (opcode mux_a mux_b : Z) : option half_code :=
  let op := al_op add in
  if is_float32_op op then
    output_pack ← v3d_qpu_float32_pack_pack (al_output_pack add);
    let opcode := Z.lor opcode (Z.shiftl output_pack 4) in
    a_unpack ← v3d_qpu_float32_unpack_pack (al_a_unpack add);
    b_unpack ← v3d_qpu_float32_unpack_pack (al_b_unpack add);
    let ordering := b_unpack * 8 + mux_b <? a_unpack * 8 + mux_a in
    if (((op =? V3D_QPU_A_FMIN) || (op =? V3D_QPU_A_FADD)) && ordering)
       || (((op =? V3D_QPU_A_FMAX) || (op =? V3D_QPU_A_FADDNF)) && negb ordering)
    then Some (HalfCode (Z.lor (Z.lor opcode (Z.shiftl b_unpack 2)) (Z.shiftl a_unpack 0))
                 mux_b mux_a)
    else Some (HalfCode (Z.lor (Z.lor opcode (Z.shiftl a_unpack 2)) (Z.shiftl b_unpack 0))
                 mux_a mux_b)
  else if is_round_op op then
    packed ← v3d_qpu_float32_pack_pack (al_output_pack add);
    let mux_b := Z.lor mux_b packed in
    packed ← v3d_qpu_float32_unpack_pack (al_a_unpack add);
    if packed =? 0 then None else
    Some (HalfCode (Z.lor opcode (Z.shiftl packed 2)) mux_a mux_b)
  else if is_ftoi_op op then
    if negb (al_output_pack add =? V3D_QPU_PACK_NONE) then None else
    packed ← v3d_qpu_float32_unpack_pack (al_a_unpack add);
    if packed =? 0 then None else
    Some (HalfCode (Z.lor opcode (Z.shiftl packed 2)) mux_a mux_b)
  else if is_vf_op op then
    if negb (al_output_pack add =? V3D_QPU_PACK_NONE)
       || negb (al_b_unpack add =? V3D_QPU_UNPACK_NONE) then None else
    packed ← v3d_qpu_float16_unpack_pack (al_a_unpack add);
    Some (HalfCode (Z.lor opcode packed) mux_a mux_b)
  else
    if negb (op =? V3D_QPU_A_NOP)
       && (negb (al_output_pack add =? V3D_QPU_PACK_NONE)
           || negb (al_a_unpack add =? V3D_QPU_UNPACK_NONE)
           || negb (al_b_unpack add =? V3D_QPU_UNPACK_NONE))
    then None else Some (HalfCode opcode mux_a mux_b).

(** Muxes an operation does not use select the operation instead. *)
Definition op_muxes (desc : opcode_desc) (nsrc mux_a mux_b : Z) : Z * Z :=
  (if nsrc <? 1 then ffs (mux_a_mask desc) - 1 else mux_a,
   if nsrc <? 2 then ffs (mux_b_mask desc) - 1 else mux_b).

Definition v3d_qpu_add_pack (add : alu_half) (packed_instr : Z) : option (option Z) :=
  nsrc ← v3d_qpu_add_op_num_src (al_op add);
  match find_op add_ops (al_op add) with
  | None => Some None
  | Some desc =>
    let opcode := opcode_first desc in
    let '(mux_a, mux_b) := op_muxes desc nsrc (al_a add) (al_b add) in
    let waddr :=
      if al_op add =? V3D_QPU_A_STVPMV then 0
      else if al_op add =? V3D_QPU_A_STVPMD then 1
      else if al_op add =? V3D_QPU_A_STVPMP then 2
      else al_waddr add in
    match add_pack_modes add opcode mux_a mux_b with
    | None => Some None
    | Some hc =>
      w ← or_field packed_instr (hc_mux_a hc) 14 12;
      w ← or_field w (hc_mux_b hc) 17 15;
      w ← or_field w (hc_opcode hc) 31 24;
      w ← or_field w waddr 37 32;
      Some (Some (if al_magic_write add then Z.lor w (QPU_MASK 44 44) else w))
    end
  end.

(** ** Packing the mul half *)

Definition mul_pack_modes (mul : alu_half) (opcode mux_a mux_b : Z) : option half_code :=
  let op := al_op mul in
  if op =? V3D_QPU_M_FMUL then
    packed ← v3d_qpu_float32_pack_pack (al_output_pack mul);
    let opcode := opcode + Z.shiftl packed 4 in
    packed ← v3d_qpu_float32_unpack_pack (al_a_unpack mul);
    let opcode := Z.lor opcode (Z.shiftl packed 2) in
    packed ← v3d_qpu_float32_unpack_pack (al_b_unpack mul);
    Some (HalfCode (Z.lor opcode (Z.shiftl packed 0)) mux_a mux_b)
  else if op =? V3D_QPU_M_FMOV then
    packed ← v3d_qpu_float32_pack_pack (al_output_pack mul);
    let opcode := Z.lor opcode (Z.land (Z.shiftr packed 1) 1) in
    let mux_b := Z.shiftl (Z.land packed 1) 2 in
    packed ← v3d_qpu_float32_unpack_pack (al_a_unpack mul);
    Some (HalfCode opcode mux_a (Z.lor mux_b packed))
  else Some (HalfCode opcode mux_a mux_b).

Definition v3d_qpu_mul_pack (mul : alu_half) (packed_instr : Z) : option (option Z) :=
  nsrc ← v3d_qpu_mul_op_num_src (al_op mul);
  match find_op mul_ops (al_op mul) with
  | None => Some None
  | Some desc =>
    let opcode := opcode_first desc in
    let '(mux_a, mux_b) := op_muxes desc nsrc (al_a mul) (al_b mul) in
    match mul_pack_modes mul opcode mux_a mux_b with
    | None => Some None
    | Some hc =>
      w ← or_field packed_instr (hc_mux_a hc) 20 18;
      w ← or_field w (hc_mux_b hc) 23 21;
      w ← or_field w (hc_opcode hc) 63 58;
      w ← or_field w (al_waddr mul) 43 38;
      Some (Some (if al_magic_write mul then Z.lor w (QPU_MASK 45 45) else w))
    end
  end.

(** ** Whole instructions *)

Definition v3d_qpu_instr_unpack_alu (packed_instr : Z) (instr : v3d_qpu_instr)
    : option v3d_qpu_instr :=
  let '(sig, ok) := v3d_qpu_sig_unpack (QPU_GET_FIELD packed_instr 57 53) (in_sig instr) in
  if negb ok then None else
  '(flags, ok) ← v3d_qpu_flags_unpack (QPU_GET_FIELD packed_instr 52 46);
  if negb ok then None else
  add ← v3d_qpu_add_unpack packed_instr (alu_add (in_alu instr));
  mul ← v3d_qpu_mul_unpack packed_instr (alu_mul (in_alu instr));
  Some {| in_type := V3D_QPU_INSTR_TYPE_ALU; in_sig := sig;
          in_raddr_a := u8 (QPU_GET_FIELD packed_instr 11 6);
          in_raddr_b := u8 (QPU_GET_FIELD packed_instr 5 0);
          in_flags := flags; in_alu := V3dQpuAlu add mul; in_branch := in_branch instr |}.

Definition v3d_qpu_instr_unpack_branch (packed_instr : Z) (instr : v3d_qpu_instr)
    : option v3d_qpu_instr :=
  let cond := QPU_GET_FIELD packed_instr 34 32 in
  cond ← (if cond =? 0 then Some V3D_QPU_BRANCH_COND_ALWAYS
          else if u32 (V3D_QPU_BRANCH_COND_A0 + (cond - 2)) <=? V3D_QPU_BRANCH_COND_ALLNA
          then Some (u32 (V3D_QPU_BRANCH_COND_A0 + (cond - 2)))
          else None);
  let msfign := QPU_GET_FIELD packed_instr 22 21 in
  if msfign =? 3 then None else
  let ub := negb (Z.land packed_instr (QPU_MASK 14 14) =? 0) in
  Some {| in_type := V3D_QPU_INSTR_TYPE_BRANCH; in_sig := in_sig instr;
          in_raddr_a := in_raddr_a instr; in_raddr_b := in_raddr_b instr;
          in_flags := in_flags instr; in_alu := in_alu instr;
          in_branch :=
            {| br_cond := cond; br_msfign := msfign;
               br_bdi := QPU_GET_FIELD packed_instr 13 12;
               br_bdu := if ub then QPU_GET_FIELD packed_instr 17 15
                         else br_bdu (in_branch instr);
               br_ub := ub;
               br_raddr_a := u8 (QPU_GET_FIELD packed_instr 11 6);
               br_offset := u32 (u32 (0 + u32 (Z.shiftl (QPU_GET_FIELD packed_instr 55 35) 3))
                                 + u32 (Z.shiftl (QPU_GET_FIELD packed_instr 31 24) 24)) |} |}.

Definition v3d_qpu_instr_unpack (packed_instr : Z) (instr : v3d_qpu_instr)
    : option v3d_qpu_instr :=
  if negb (QPU_GET_FIELD packed_instr 63 58 =? 0) then
    v3d_qpu_instr_unpack_alu packed_instr instr
  else if Z.land (QPU_GET_FIELD packed_instr 57 53) 24 =? 16 then
    v3d_qpu_instr_unpack_branch packed_instr instr
  else None.

Definition v3d_qpu_instr_pack_alu (instr : v3d_qpu_instr) (packed_instr : Z)
    : option (option Z) :=
  match v3d_qpu_sig_pack (in_sig instr) with
  | None => Some None
  | Some sig =>
    w ← or_field packed_instr sig 57 53;
    if in_type instr =? V3D_QPU_INSTR_TYPE_ALU then
      w ← or_field w (in_raddr_a instr) 11 6;
      w ← or_field w (in_raddr_b instr) 5 0;
      r ← v3d_qpu_add_pack (alu_add (in_alu instr)) w;
      match r with
      | None => Some None
      | Some w =>
        r ← v3d_qpu_mul_pack (alu_mul (in_alu instr)) w;
        match r with
        | None => Some None
        | Some w =>
          match v3d_qpu_flags_pack (in_flags instr) with
          | None => Some None
          | Some flags => w ← or_field w flags 52 46; Some (Some w)
          end
        end
      end
    else Some (Some w)
  end.

Definition v3d_qpu_instr_pack_branch (instr : v3d_qpu_instr) (packed_instr : Z)
    : option (option Z) :=
  let branch := in_branch instr in
  w ← or_field packed_instr 16 57 53;
  w ← (if negb (br_cond branch =? V3D_QPU_BRANCH_COND_ALWAYS)
       then or_field w (2 + (br_cond branch - V3D_QPU_BRANCH_COND_A0)) 34 32 else Some w);
  w ← or_field w (br_msfign branch) 22 21;
  w ← or_field w (br_bdi branch) 13 12;
  w ← (if br_ub branch
       then or_field (Z.lor w (QPU_MASK 14 14)) (br_bdu branch) 17 15 else Some w);
  if (br_bdi branch =? V3D_QPU_BRANCH_DEST_ABS) || (br_bdi branch =? V3D_QPU_BRANCH_DEST_REL)
  then
    w ← or_field w (br_msfign branch) 22 21;
    w ← or_field w (Z.shiftr (Z.land (br_offset branch) (u32 (Z.lnot 4278190080))) 3) 55 35;
    w ← or_field w (Z.shiftr (br_offset branch) 24) 31 24;
    (* falls through *)
    w ← or_field w (br_raddr_a branch) 11 6;
    Some (Some w)
  else if br_bdi branch =? V3D_QPU_BRANCH_DEST_REGFILE then
    w ← or_field w (br_raddr_a branch) 11 6; Some (Some w)
  else Some (Some w).

Definition v3d_qpu_instr_pack (instr : v3d_qpu_instr) : option (option Z) :=
  if in_type instr =? V3D_QPU_INSTR_TYPE_ALU then v3d_qpu_instr_pack_alu instr 0
  else if in_type instr =? V3D_QPU_INSTR_TYPE_BRANCH then v3d_qpu_instr_pack_branch instr 0
  else Some None.
