(* ===== verification/QpuFields.v ===== *)
(** * Bit fields of QPU instruction words

    [QPU_SET_FIELD] and [QPU_GET_FIELD] on 64-bit words: setting disjoint fields
    and reading them back, and the layout of ALU and branch words. *)
From S2P Require Import Prelude Bitset QpuInstr QpuPack.

(** The field of width [k] at bit [l]. *)
Definition get (w l k : Z) : Z := Z.land (Z.shiftr w l) (Z.ones k).

Lemma mask_spec h l : 0 <= l <= h -> h < 64 -> QPU_MASK h l = Z.shiftl (Z.ones (h - l + 1)) l.
Proof.
  intros Hl Hh. unfold QPU_MASK. rewrite Z.shiftl_1_l.
  replace (2 ^ (h - l + 1) - 1) with (Z.ones (h - l + 1)) by (rewrite Z.ones_equiv; lia).
  apply u64_small. rewrite Z.shiftl_mul_pow2, Z.ones_equiv by lia.
  assert (0 < 2 ^ (h - l + 1)) by (apply Z.pow_pos_nonneg; lia).
  assert (0 < 2 ^ l) by (apply Z.pow_pos_nonneg; lia).
  split; [nia|]. assert (2 ^ (h - l + 1) * 2 ^ l <= 2 ^ 64); [|nia].
  rewrite <- Z.pow_add_r by lia. apply Z.pow_le_mono_r; lia.
Qed.

Lemma GET_spec w h l : 0 <= l <= h -> h < 64 -> h - l < 32 ->
  QPU_GET_FIELD w h l = get w l (h - l + 1).
Proof.
  intros Hl Hh Hw. unfold QPU_GET_FIELD, get. rewrite mask_spec by lia.
  rewrite Z.shiftr_land, Z.shiftr_shiftl_l, Z.sub_diag, Z.shiftl_0_r by lia.
  rewrite Z.land_ones by lia. apply u32_small.
  pose proof (Z.mod_pos_bound (Z.shiftr w l) (2 ^ (h - l + 1))).
  assert (0 < 2 ^ (h - l + 1) <= 2 ^ 32) by
    (split; [apply Z.pow_pos_nonneg|apply Z.pow_le_mono_r]; lia). lia.
Qed.

Lemma SET_spec v h l : 0 <= l <= h -> h < 64 -> 0 <= v < 2 ^ (h - l + 1) ->
  QPU_SET_FIELD v h l = Some (Z.shiftl v l).
Proof.
  intros Hl Hh Hv. unfold QPU_SET_FIELD.
  assert (0 <= Z.shiftl v l < 2 ^ 64) as Hb.
  { rewrite Z.shiftl_mul_pow2 by lia. assert (0 < 2 ^ l) by (apply Z.pow_pos_nonneg; lia).
    split; [nia|]. assert (2 ^ (h - l + 1) * 2 ^ l <= 2 ^ 64); [|nia].
    rewrite <- Z.pow_add_r by lia. apply Z.pow_le_mono_r; lia. }
  assert (0 <= v < 2 ^ 64) as Hv64.
  { split; [lia|]. eapply Z.lt_le_trans; [apply Hv|]. apply Z.pow_le_mono_r; lia. }
  rewrite (u64_small v), (u64_small (Z.shiftl v l)) by done. rewrite mask_spec by lia.
  assert (Z.land (Z.shiftl v l) (Z.shiftl (Z.ones (h - l + 1)) l) = Z.shiftl v l) as Hin.
  { rewrite <- Z.shiftl_land, Z.land_ones, Z.mod_small by lia. done. }
  assert (Z.land (Z.shiftl v l) (u64 (Z.lnot (Z.shiftl (Z.ones (h - l + 1)) l))) = 0) as ->.
  { apply Z.bits_inj'. intros i Hi. rewrite Z.land_spec, Z.bits_0.
    destruct (Z.lt_ge_cases i 64).
    - unfold u64. rewrite Z.mod_pow2_bits_low, Z.lnot_spec by lia.
      rewrite <- Hin at 1. rewrite Z.land_spec. by destruct (Z.testbit _ i), (Z.testbit _ i).
    - unfold u64. rewrite (Z.mod_pow2_bits_high _ 64) by lia. apply andb_false_r. }
  by rewrite Hin.
Qed.

Lemma or_field_spec w v h l : 0 <= l <= h -> h < 64 -> 0 <= v < 2 ^ (h - l + 1) ->
  or_field w v h l = Some (Z.lor w (Z.shiftl v l)).
Proof. intros. unfold or_field. by rewrite SET_spec. Qed.

(** ** Reading fields of a combined word *)

Lemma get_lor x y l k : get (Z.lor x y) l k = Z.lor (get x l k) (get y l k).
Proof. unfold get. by rewrite Z.shiftr_lor, Z.land_lor_distr_l. Qed.

Lemma get_same v l k : 0 <= l -> 0 <= k -> 0 <= v < 2 ^ k -> get (Z.shiftl v l) l k = v.
Proof.
  intros. unfold get. rewrite Z.shiftr_shiftl_l, Z.sub_diag, Z.shiftl_0_r by lia.
  rewrite Z.land_ones, Z.mod_small by lia. done.
Qed.

Lemma get_below v l k l' k' :
  0 <= l' -> 0 <= k' -> l' + k' <= l -> 0 <= k -> 0 <= v < 2 ^ k' -> get (Z.shiftl v l') l k = 0.
Proof.
  intros Hl' Hk' Hl Hk Hv. unfold get.
  assert (Z.shiftr (Z.shiftl v l') l = 0) as ->; [|apply Z.land_0_l].
  rewrite Z.shiftr_shiftl_r, Z.shiftr_div_pow2 by lia. apply Z.div_small. split; [lia|].
  eapply Z.lt_le_trans; [apply Hv|]. apply Z.pow_le_mono_r; lia.
Qed.

Lemma get_above v l k l' : 0 <= l -> 0 <= k -> l + k <= l' -> get (Z.shiftl v l') l k = 0.
Proof.
  intros Hl Hk Hl'. unfold get. rewrite Z.shiftr_shiftl_l by lia.
  apply Z.bits_inj'. intros i Hi. rewrite Z.land_spec, Z.bits_0.
  destruct (Z.lt_ge_cases i k).
  - rewrite Z.shiftl_spec_low by lia. done.
  - rewrite Z.ones_spec_high by lia. apply andb_false_r.
Qed.

Lemma get_0 l k : get 0 l k = 0.
Proof. unfold get. by rewrite Z.shiftr_0_l. Qed.

(** A one-bit field, tested through its mask. *)
Lemma flag_spec w b : 0 <= b < 64 -> negb (Z.land w (QPU_MASK b b) =? 0) = negb (get w b 1 =? 0).
Proof.
  intros Hb. rewrite mask_spec by lia. replace (b - b + 1) with 1 by lia.
  change (Z.ones 1) with 1. rewrite land_bit by lia. unfold get.
  transitivity (Z.testbit (Z.shiftr w b) 0).
  - rewrite Z.shiftr_spec by lia. done.
  - symmetry. apply (land_bit (Z.shiftr w b) 0). lia.
Qed.

Lemma flag_bit (b : bool) w l : 0 <= l < 64 ->
  (if b then Z.lor w (QPU_MASK l l) else w) = Z.lor w (Z.shiftl (Z.b2z b) l).
Proof.
  intros Hl. destruct b; cbn [Z.b2z].
  - rewrite mask_spec by lia. by replace (l - l + 1) with 1 by lia.
  - by rewrite Z.shiftl_0_l, Z.lor_0_r.
Qed.

(** Reads one field out of a word given as a disjunction of shifted fields whose
    widths are known from the context. *)
Ltac read_field :=
  rewrite ?get_lor;
  repeat match goal with
  | |- context [get 0 ?l ?k] => rewrite (get_0 l k)
  | |- context [get (Z.shiftl ?v ?l) ?l ?k] => rewrite (get_same v l k) by lia
  | |- context [get (Z.shiftl ?v ?l') ?l ?k] =>
      first [ rewrite (get_above v l k l') by lia
            | match goal with H : 0 <= v < 2 ^ ?k' |- _ =>
                rewrite (get_below v l k l' k') by lia end ]
  end; rewrite ?Z.lor_0_l, ?Z.lor_0_r.

(** The word of an ALU instruction. *)
Definition alu_word (sig raddr_a raddr_b a_mux_a a_mux_b a_opcode a_waddr : Z) (a_magic : bool)
    (m_mux_a m_mux_b m_opcode m_waddr : Z) (m_magic : bool) (flags : Z) : Z :=
  Z.lor (Z.lor (Z.lor (Z.lor (Z.lor (Z.lor (Z.lor (Z.lor (Z.lor (Z.lor (Z.lor (Z.lor (Z.lor
    (Z.lor 0 (Z.shiftl sig 53)) (Z.shiftl raddr_a 6)) (Z.shiftl raddr_b 0))
    (Z.shiftl a_mux_a 12)) (Z.shiftl a_mux_b 15)) (Z.shiftl a_opcode 24)) (Z.shiftl a_waddr 32))
    (Z.shiftl (Z.b2z a_magic) 44))
    (Z.shiftl m_mux_a 18)) (Z.shiftl m_mux_b 21)) (Z.shiftl m_opcode 58)) (Z.shiftl m_waddr 38))
    (Z.shiftl (Z.b2z m_magic) 45)) (Z.shiftl flags 46).

Lemma alu_word_fields sig ra rb ama amb aop awa am mma mmb mop mwa mm flags :
  let w := alu_word sig ra rb ama amb aop awa am mma mmb mop mwa mm flags in
  0 <= sig < 2 ^ 5 -> 0 <= ra < 2 ^ 6 -> 0 <= rb < 2 ^ 6 ->
  0 <= ama < 2 ^ 3 -> 0 <= amb < 2 ^ 3 -> 0 <= aop < 2 ^ 8 -> 0 <= awa < 2 ^ 6 ->
  0 <= mma < 2 ^ 3 -> 0 <= mmb < 2 ^ 3 -> 0 <= mop < 2 ^ 6 -> 0 <= mwa < 2 ^ 6 ->
  0 <= flags < 2 ^ 7 ->
  get w 53 5 = sig /\ get w 6 6 = ra /\ get w 0 6 = rb /\ get w 12 3 = ama /\ get w 15 3 = amb /\
  get w 24 8 = aop /\ get w 32 6 = awa /\ get w 44 1 = Z.b2z am /\ get w 18 3 = mma /\
  get w 21 3 = mmb /\ get w 58 6 = mop /\ get w 38 6 = mwa /\ get w 45 1 = Z.b2z mm /\
  get w 46 7 = flags.
Proof.
  intros w. intros. assert (0 <= Z.b2z am < 2 ^ 1) by (destruct am; cbn; lia).
  assert (0 <= Z.b2z mm < 2 ^ 1) by (destruct mm; cbn; lia).
  subst w. unfold alu_word. split_and!; read_field; done.
Qed.

Lemma field_bound v l k :
  0 <= l -> 0 <= k -> l + k <= 64 -> 0 <= v < 2 ^ k -> 0 <= Z.shiftl v l < 2 ^ 64.
Proof.
  intros Hl Hk Hlk Hv. rewrite Z.shiftl_mul_pow2 by lia.
  assert (0 < 2 ^ l) by (apply Z.pow_pos_nonneg; lia). split; [nia|].
  assert (2 ^ k * 2 ^ l <= 2 ^ 64); [|nia].
  rewrite <- Z.pow_add_r by lia. apply Z.pow_le_mono_r; lia.
Qed.

(** Bounds a disjunction of fields by 64 bits. *)
Ltac word_bound :=
  repeat match goal with
  | |- 0 <= Z.lor _ _ < _ => apply lor_bound; [lia| |]
  | H : 0 <= ?v < 2 ^ ?n |- 0 <= Z.shiftl ?v ?s < _ => apply (field_bound v s n); [lia|lia|lia|exact H]
  | |- 0 <= 0 < _ => lia
  end.

Lemma alu_word_range sig ra rb ama amb aop awa am mma mmb mop mwa mm flags :
  0 <= sig < 2 ^ 5 -> 0 <= ra < 2 ^ 6 -> 0 <= rb < 2 ^ 6 ->
  0 <= ama < 2 ^ 3 -> 0 <= amb < 2 ^ 3 -> 0 <= aop < 2 ^ 8 -> 0 <= awa < 2 ^ 6 ->
  0 <= mma < 2 ^ 3 -> 0 <= mmb < 2 ^ 3 -> 0 <= mop < 2 ^ 6 -> 0 <= mwa < 2 ^ 6 ->
  0 <= flags < 2 ^ 7 ->
  0 <= alu_word sig ra rb ama amb aop awa am mma mmb mop mwa mm flags < 2 ^ 64.
Proof.
  intros. assert (0 <= Z.b2z am < 2 ^ 1) by (destruct am; cbn; lia).
  assert (0 <= Z.b2z mm < 2 ^ 1) by (destruct mm; cbn; lia).
  unfold alu_word. word_bound.
Qed.
