(* ===== verification/QpuCorrect.v ===== *)
(** * Round trips of the parts of QPU instructions

    Signals, flags, and the add and mul halves: what packing produces, unpacking
    gives back, with the exact cases where the source loses information. *)
From S2P Require Import Prelude Bitset QpuInstr QpuPack QpuFields.

(** ** Signals *)

Lemma sig_bytes_inj s1 s2 : sig_bytes s1 = sig_bytes s2 -> s1 = s2.
Proof.
  set (decode := fun l : list Z =>
    let b := nth 0 l 0 in let c := nth 1 l 0 in
    V3dQpuSig (Z.testbit b 0) (Z.testbit b 1) (Z.testbit b 2) (Z.testbit b 3) (Z.testbit b 4)
      (Z.testbit b 5) (Z.testbit b 6) (Z.testbit b 7) (Z.testbit c 0) (Z.testbit c 1)
      (Z.testbit c 2)).
  assert (forall s, decode (sig_bytes s) = s) as H.
  { intros [[] [] [] [] [] [] [] [] [] [] []]; reflexivity. }
  intros E. by rewrite <- (H s1), <- (H s2), E.
Qed.

Lemma sig_pack_loop_spec s map i k :
  sig_pack_loop s map i = Some k ->
  i <= k < i + Z.of_nat (length map) /\ map !! Z.to_nat (k - i) = Some s.
Proof.
  revert i. induction map as [|m map IH]; intros i H; [done|]. cbn [sig_pack_loop length] in *.
  unfold memcmp_ne in H. rewrite negb_involutive in H.
  case_bool_decide as E.
  - injection H as <-. apply sig_bytes_inj in E as ->. rewrite Z.sub_diag. split; [lia|done].
  - destruct (IH _ H) as [Hk Hl]. split; [lia|].
    replace (Z.to_nat (k - i)) with (S (Z.to_nat (k - (i + 1)))) by lia. done.
Qed.

Lemma sig_pack_spec s k :
  v3d_qpu_sig_pack s = Some k -> 0 <= k < 32 /\ array_get v33_sig_map k = Some s.
Proof.
  intros [Hk Hl]%sig_pack_loop_spec. cbn [length v33_sig_map] in Hk. split; [lia|].
  apply array_get_Some. split; [lia|]. by rewrite Z.sub_0_r in Hl.
Qed.

(** The signals whose first byte is zero although they are not empty. *)
Definition sig_second_byte_only (k : Z) : bool := (k =? 22) || (k =? 23).

Lemma sig_roundtrip s k old :
  v3d_qpu_sig_pack s = Some k -> sig_second_byte_only k = false ->
  v3d_qpu_sig_unpack k old = (s, true).
Proof.
  intros Hp Hk. destruct (sig_pack_spec s k Hp) as [Hr Hget].
  assert (forallb (fun k => sig_second_byte_only k || match array_get v33_sig_map k with
    | Some s => (k =? 0) || memcmp_ne (sig_bytes s) (sig_bytes no_sig) 1
                || negb (bool_decide (v3d_qpu_sig_pack s = Some k))
    | None => false end) (zrange 0 32) = true) as Hall by (vm_compute; reflexivity).
  rewrite forallb_forall in Hall.
  specialize (Hall k ltac:(apply list_elem_of_In, elem_of_zrange; lia)).
  rewrite Hk, Hget, (bool_decide_true (v3d_qpu_sig_pack s = Some k) Hp) in Hall.
  unfold v3d_qpu_sig_unpack. rewrite Hget. cbn [negb orb] in Hall.
  rewrite orb_false_r in Hall. by rewrite Hall.
Qed.

(** ** Flags *)

Record flags_ok (f : v3d_qpu_flags) : Prop := {
  fo_ac : 0 <= ac f <= V3D_QPU_COND_IFNB;
  fo_mc : 0 <= mc f <= V3D_QPU_COND_IFNB;
  fo_apf : 0 <= apf f <= V3D_QPU_PF_PUSHC;
  fo_mpf : 0 <= mpf f <= V3D_QPU_PF_PUSHC;
  fo_auf : 0 <= auf f <= V3D_QPU_UF_NORC;
  fo_muf : 0 <= muf f <= V3D_QPU_UF_NORC }.

(** Conditions on both halves: the condition of the add half is written to the
    wrong bits unless it is [IFA]. *)
Definition both_conds (f : v3d_qpu_flags) : bool :=
  negb (mc f =? V3D_QPU_COND_NONE) && negb (ac f =? V3D_QPU_COND_NONE)
  && negb (ac f =? V3D_QPU_COND_IFA).

#[export] Instance flags_eq_dec : EqDecision v3d_qpu_flags.
Proof. solve_decision. Defined.

Definition flags_check (f : v3d_qpu_flags) : bool :=
  match v3d_qpu_flags_pack f with
  | Some p => (0 <=? p) && (p <? 128)
      && (both_conds f || bool_decide (v3d_qpu_flags_unpack p = Some (f, true)))
  | None => true
  end.

(** The [bits] of the row for a set of flags. *)
Fixpoint row_bits (present : Z) (table : list (Z * Z)) : option Z :=
  match table with
  | [] => None
  | (row, bits) :: table => if negb (row =? present) then row_bits present table else Some bits
  end.

Lemma flags_pack_loop_row f present table :
  flags_pack_loop f present table = flags_bits f present <$> row_bits present table.
Proof.
  induction table as [|[row bits] table IH]; [done|]. cbn [flags_pack_loop row_bits].
  by destruct (negb (row =? present)).
Qed.

(** Splits on the values of a nonzero bounded variable. *)
Ltac each_value x :=
  match goal with
  | H : 0 <= x <= 3 |- _ => assert (x = 1 \/ x = 2 \/ x = 3) as [->|[->| ->]] by lia
  | H : 0 <= x <= 4 |- _ => assert (x = 1 \/ x = 2 \/ x = 3 \/ x = 4) as [->|[->|[->| ->]]] by lia
  | H : 0 <= x <= 12 |- _ =>
      assert (x = 1 \/ x = 2 \/ x = 3 \/ x = 4 \/ x = 5 \/ x = 6 \/ x = 7 \/ x = 8 \/ x = 9 \/
              x = 10 \/ x = 11 \/ x = 12)
        as [->|[->|[->|[->|[->|[->|[->|[->|[->|[->|[->| ->]]]]]]]]]]] by lia
  end.

Lemma flags_check_true f : flags_ok f -> flags_check f = true.
Proof.
  intros [H1 H2 H3 H4 H5 H6]. destruct f as [a m pa pm ua um]. cbn in *.
  unfold V3D_QPU_COND_IFNB, V3D_QPU_PF_PUSHC, V3D_QPU_UF_NORC in *.
  destruct (row_bits (flags_present (V3dQpuFlags a m pa pm ua um)) flags_table) as [p|] eqn:Hp;
    [|unfold flags_check, v3d_qpu_flags_pack; by rewrite flags_pack_loop_row, Hp].
  unfold flags_present in Hp. cbn [ac mc apf mpf auf muf] in Hp.
  unfold V3D_QPU_COND_NONE, V3D_QPU_PF_NONE, V3D_QPU_UF_NONE in Hp.
  destruct (Z.eqb_spec a 0) as [E1|E1], (Z.eqb_spec m 0) as [E2|E2],
    (Z.eqb_spec pa 0) as [E3|E3], (Z.eqb_spec pm 0) as [E4|E4],
    (Z.eqb_spec ua 0) as [E5|E5], (Z.eqb_spec um 0) as [E6|E6];
    try (exfalso; vm_compute in Hp; discriminate Hp); clear Hp;
    try rewrite E1 in *; try rewrite E2 in *; try rewrite E3 in *; try rewrite E4 in *;
    try rewrite E5 in *; try rewrite E6 in *;
    repeat match goal with E : ?x <> 0 |- _ => each_value x; clear E end;
    vm_compute; reflexivity.
Qed.

Lemma flags_roundtrip f p :
  flags_ok f -> v3d_qpu_flags_pack f = Some p ->
  0 <= p < 128 /\ (both_conds f = false -> v3d_qpu_flags_unpack p = Some (f, true)).
Proof.
  intros Hok Hp. pose proof (flags_check_true f Hok) as Hall. unfold flags_check in Hall. rewrite Hp in Hall.
  apply andb_prop in Hall as [[H1 H2]%andb_prop H3]. split; [lia|]. intros Hb.
  rewrite Hb in H3. by apply bool_decide_eq_true_1 in H3.
Qed.

(** ** The add half *)

Record half_ok (h : alu_half) : Prop := {
  ho_a : 0 <= al_a h < 8;
  ho_b : 0 <= al_b h < 8;
  ho_waddr : 0 <= al_waddr h < 64 }.

(** The write address packing stores. *)
Definition add_waddr (add : alu_half) : Z :=
  if al_op add =? V3D_QPU_A_STVPMV then 0
  else if al_op add =? V3D_QPU_A_STVPMD then 1
  else if al_op add =? V3D_QPU_A_STVPMP then 2
  else al_waddr add.

Definition is_commutative (op : Z) : bool :=
  (op =? V3D_QPU_A_FADD) || (op =? V3D_QPU_A_FADDNF) || (op =? V3D_QPU_A_FMIN)
  || (op =? V3D_QPU_A_FMAX).

(** The sources an operation with [nsrc] sources uses are those of [h], in order or,
    if [comm], exchanged. *)
Definition same_sources (comm : bool) (nsrc : Z) (h : alu_half) (a b au bu : Z) : Prop :=
  if 2 <=? nsrc then
    (a = al_a h /\ b = al_b h /\ au = al_a_unpack h /\ bu = al_b_unpack h) \/
    (comm = true /\ a = al_b h /\ b = al_a h /\ au = al_b_unpack h /\ bu = al_a_unpack h)
  else if 1 <=? nsrc then a = al_a h /\ au = al_a_unpack h
  else True.

(** What packing the add half must produce for unpacking to give it back. *)
Definition add_decodes (add : alu_half) (nsrc : Z) (hc : half_code) : Prop :=
  0 <= hc_opcode hc < 2 ^ 8 /\ 0 <= hc_mux_a hc < 2 ^ 3 /\ 0 <= hc_mux_b hc < 2 ^ 3 /\
  add_unpack_op (hc_opcode hc) (hc_mux_a hc) (hc_mux_b hc) (add_waddr add) = Some (al_op add) /\
  forall old, exists au bu,
    add_unpack_modes (al_op add) (hc_opcode hc) (hc_mux_b hc) old = Some (al_output_pack add, au, bu) /\
    same_sources (is_commutative (al_op add)) nsrc add (hc_mux_a hc) (hc_mux_b hc) au bu.

(** The cases in which the encoding of the add half loses information: the L
    unpack of the rounding and conversion operations (encoded like H), and the
    operations that differ from another one by operand order only, on equal
    operands. *)
Definition add_lossless (add : alu_half) : bool :=
  negb ((is_round_op (al_op add) || is_ftoi_op (al_op add))
        && (al_a_unpack add =? V3D_QPU_UNPACK_L))
  && negb (((al_op add =? V3D_QPU_A_FADDNF) || (al_op add =? V3D_QPU_A_FMAX))
           && (al_a add =? al_b add) && (al_a_unpack add =? al_b_unpack add))
  && implb (al_op add =? V3D_QPU_A_NOP) (al_output_pack add =? V3D_QPU_PACK_NONE).

(** Only the stores to the VPM look at the write address. *)
Lemma add_unpack_op_waddr op a b w w' r :
  add_unpack_op op a b w = Some r -> is_stvpm_op r = false -> add_unpack_op op a b w' = Some r.
Proof.
  unfold add_unpack_op. destruct (lookup_opcode _ _ _ _) as [desc|]; [|done]. cbn [mbind option_bind].
  set (aop := if _ <? _ then _ else od_op desc). clearbody aop.
  destruct (is_stvpm_op aop) eqn:E; [|done].
  repeat case_match; try done; intros [= <-]; done.
Qed.

(** Exhaustive checks over mux values. *)
Definition eight : list Z := zrange 0 8.

Lemma in_eight x : 0 <= x < 8 -> In x eight.
Proof. intros H. apply list_elem_of_In, elem_of_zrange. lia. Qed.

Lemma forallb2_eight (f : Z -> Z -> bool) a b :
  forallb (fun a => forallb (f a) eight) eight = true -> 0 <= a < 8 -> 0 <= b < 8 -> f a b = true.
Proof.
  intros H Ha Hb. rewrite forallb_forall in H. specialize (H a (in_eight a Ha)).
  rewrite forallb_forall in H. exact (H b (in_eight b Hb)).
Qed.

Definition small (x : Z) (n : Z) : bool := (0 <=? x) && (x <? n).

(** Operations without modifiers. *)
Definition plain_op (op : Z) : bool :=
  negb (is_float32_op op || is_round_op op || is_ftoi_op op || is_vf_op op).

Definition plain_check (op a b : Z) : bool :=
  match v3d_qpu_add_op_num_src op, find_op add_ops op with
  | Some nsrc, Some desc =>
    let '(ma, mb) := op_muxes desc nsrc a b in
    small (opcode_first desc) 256 && small ma 8 && small mb 8
    && bool_decide (add_unpack_op (opcode_first desc) ma mb
         (if op =? V3D_QPU_A_STVPMD then 1 else if op =? V3D_QPU_A_STVPMP then 2 else 0) = Some op)
    && implb (1 <=? nsrc) (ma =? a) && implb (2 <=? nsrc) (mb =? b)
  | _, _ => true
  end.

Lemma plain_check_all :
  forallb (fun op => negb (plain_op op) ||
    forallb (fun a => forallb (plain_check op a) eight) eight)
    (zrange 0 72) = true.
Proof. vm_compute. reflexivity. Qed.

Lemma num_src_range op nsrc : v3d_qpu_add_op_num_src op = Some nsrc -> 0 <= op < 72.
Proof.
  unfold v3d_qpu_add_op_num_src. destruct (array_get add_op_args op) eqn:E; [|done].
  intros _. apply array_get_lt in E. exact E.
Qed.

Lemma plain_decodes add nsrc desc ma mb hc :
  plain_op (al_op add) = true -> half_ok add ->
  v3d_qpu_add_op_num_src (al_op add) = Some nsrc -> find_op add_ops (al_op add) = Some desc ->
  op_muxes desc nsrc (al_a add) (al_b add) = (ma, mb) ->
  add_pack_modes add (opcode_first desc) ma mb = Some hc -> add_lossless add = true ->
  add_decodes add nsrc hc.
Proof.
  intros Hplain [Ha Hb _] Hn Hf Hm Hp Hl.
  pose proof plain_check_all as Hall. rewrite forallb_forall in Hall.
  specialize (Hall (al_op add) ltac:(apply list_elem_of_In, elem_of_zrange;
    pose proof (num_src_range _ _ Hn); lia)).
  rewrite Hplain in Hall. cbn [negb orb] in Hall.
  pose proof (forallb2_eight _ _ _ Hall Ha Hb) as Hc. clear Hall. unfold plain_check in Hc.
  rewrite Hn, Hf, Hm in Hc.
  apply andb_prop in Hc as [[[[[H1 H2]%andb_prop H3]%andb_prop H4]%andb_prop H5]%andb_prop H6].
  unfold small in *. unfold plain_op in Hplain.
  apply negb_true_iff, orb_false_iff in Hplain as [[[G1 G2]%orb_false_iff G3]%orb_false_iff G4].
  unfold add_pack_modes in Hp. rewrite G1, G2, G3, G4 in Hp.
  assert (hc = HalfCode (opcode_first desc) ma mb /\ al_output_pack add = V3D_QPU_PACK_NONE /\
    (al_op add = V3D_QPU_A_NOP \/ (al_a_unpack add = V3D_QPU_UNPACK_NONE /\
      al_b_unpack add = V3D_QPU_UNPACK_NONE))) as (-> & Ho & Hu).
  { unfold add_lossless in Hl. apply andb_prop in Hl as [_ Hl].
    destruct (Z.eqb_spec (al_op add) V3D_QPU_A_NOP) as [E|E].
    - cbn in Hl, Hp. injection Hp as <-. apply Z.eqb_eq in Hl. auto.
    - cbn [negb andb] in Hp. destruct (Z.eqb_spec (al_output_pack add) V3D_QPU_PACK_NONE),
        (Z.eqb_spec (al_a_unpack add) V3D_QPU_UNPACK_NONE),
        (Z.eqb_spec (al_b_unpack add) V3D_QPU_UNPACK_NONE); cbn in Hp; try done.
      injection Hp as <-. auto. }
  unfold add_decodes. cbn [hc_opcode hc_mux_a hc_mux_b]. split; [lia|]. split; [lia|]. split; [lia|].
  split.
  - apply bool_decide_eq_true_1 in H4. unfold add_waddr.
    destruct (Z.eqb_spec (al_op add) V3D_QPU_A_STVPMV) as [E|E]; [by rewrite E in *|].
    destruct (Z.eqb_spec (al_op add) V3D_QPU_A_STVPMD) as [E'|E']; [done|].
    destruct (Z.eqb_spec (al_op add) V3D_QPU_A_STVPMP) as [E''|E'']; [done|].
    eapply add_unpack_op_waddr; [exact H4|]. unfold is_stvpm_op.
    by rewrite !(proj2 (Z.eqb_neq _ _)).
  - intros old. unfold add_unpack_modes. rewrite G1, G2, G3, G4, Ho. do 2 eexists. split; [done|].
    unfold same_sources. destruct Hu as [Hu|[-> ->]].
    + rewrite Hu in Hn. vm_compute in Hn. injection Hn as <-. done.
    + destruct (Z.leb_spec 2 nsrc); cbn [implb] in *.
      * left. assert (1 <=? nsrc = true) as E by lia. rewrite E in H5. cbn in H5. lia.
      * destruct (Z.leb_spec 1 nsrc); cbn [implb] in *; [|done]. lia.
Qed.

(** Rounding and conversion operations. *)
Definition round_check (op a out packed : Z) : bool :=
  match find_op add_ops op with
  | Some desc =>
    let mb := Z.lor (ffs (mux_b_mask desc) - 1) out in
    let opc := Z.lor (opcode_first desc) (Z.shiftl packed 2) in
    small opc 256 && small mb 8
    && bool_decide (add_unpack_op opc a mb 0 = Some op)
    && (Z.land (Z.shiftr opc 2) 3 =? packed) && (Z.land mb 3 =? out)
  | None => false
  end.

Definition ftoi_check (op a packed : Z) : bool :=
  match find_op add_ops op with
  | Some desc =>
    let mb := ffs (mux_b_mask desc) - 1 in
    let opc := Z.lor (opcode_first desc) (Z.shiftl packed 2) in
    small opc 256 && small mb 8 && bool_decide (add_unpack_op opc a mb 0 = Some op)
    && (Z.land (Z.shiftr opc 2) 3 =? packed)
  | None => false
  end.

Lemma round_check_all :
  forallb (fun op => forallb (fun a => forallb (fun out => forallb (fun packed =>
      implb (is_round_op op) (round_check op a out packed) &&
      implb (is_ftoi_op op) (ftoi_check op a packed))
    [1; 3]) [0; 1; 2]) eight)
    (zrange 0 72) = true.
Proof. vm_compute. reflexivity. Qed.

(** How the groups of operations relate, and how many sources they have. *)
Lemma op_groups op :
  0 <= op < 72 ->
  (is_round_op op = true -> is_float32_op op = false /\ v3d_qpu_add_op_num_src op = Some 1 /\
     is_stvpm_op op = false) /\
  (is_ftoi_op op = true -> is_float32_op op = false /\ is_round_op op = false /\
     v3d_qpu_add_op_num_src op = Some 1 /\ is_stvpm_op op = false) /\
  (is_vf_op op = true -> is_float32_op op = false /\ is_round_op op = false /\
     is_ftoi_op op = false /\ v3d_qpu_add_op_num_src op = Some 2 /\ is_stvpm_op op = false) /\
  (is_float32_op op = true -> v3d_qpu_add_op_num_src op = Some 2 /\ is_stvpm_op op = false).
Proof.
  intros Hop.
  assert (forallb (fun op =>
    implb (is_round_op op) (negb (is_float32_op op) && negb (is_stvpm_op op)
      && bool_decide (v3d_qpu_add_op_num_src op = Some 1)) &&
    implb (is_ftoi_op op) (negb (is_float32_op op) && negb (is_round_op op)
      && negb (is_stvpm_op op) && bool_decide (v3d_qpu_add_op_num_src op = Some 1)) &&
    implb (is_vf_op op) (negb (is_float32_op op) && negb (is_round_op op) && negb (is_ftoi_op op)
      && negb (is_stvpm_op op) && bool_decide (v3d_qpu_add_op_num_src op = Some 2)) &&
    implb (is_float32_op op) (negb (is_stvpm_op op)
      && bool_decide (v3d_qpu_add_op_num_src op = Some 2))) (zrange 0 72) = true) as Hall
    by (vm_compute; reflexivity).
  rewrite forallb_forall in Hall.
  specialize (Hall op ltac:(apply list_elem_of_In, elem_of_zrange; lia)).
  apply andb_prop in Hall as [[[H1 H2]%andb_prop H3]%andb_prop H4].
  split_and!; intros Hg; rewrite Hg in *; cbn [implb] in *;
    repeat match goal with H : _ && _ = true |- _ => apply andb_prop in H as [? ?] end;
    repeat match goal with H : negb _ = true |- _ => apply negb_true_iff in H end;
    split_and!; try done; by eapply bool_decide_eq_true_1.
Qed.

Lemma add_waddr_plain add : is_stvpm_op (al_op add) = false -> add_waddr add = al_waddr add.
Proof.
  unfold is_stvpm_op, add_waddr. intros [[-> ->]%orb_false_iff ->]%orb_false_iff. done.
Qed.

Lemma unpack_pack_32 u p :
  v3d_qpu_float32_unpack_pack u = Some p ->
  0 <= p <= 3 /\ v3d_qpu_float32_unpack_unpack p = Some u /\ (p = 2 <-> u = V3D_QPU_UNPACK_L).
Proof.
  unfold v3d_qpu_float32_unpack_pack. intros H.
  destruct (Z.eqb_spec u V3D_QPU_UNPACK_ABS) as [->|]; [injection H as <-; by vm_compute|].
  destruct (Z.eqb_spec u V3D_QPU_UNPACK_NONE) as [->|]; [injection H as <-; by vm_compute|].
  destruct (Z.eqb_spec u V3D_QPU_UNPACK_L) as [->|]; [injection H as <-; by vm_compute|].
  destruct (Z.eqb_spec u V3D_QPU_UNPACK_H) as [->|]; [injection H as <-; by vm_compute|done].
Qed.

Lemma output_pack_32 u p : v3d_qpu_float32_pack_pack u = Some p -> p = u /\ 0 <= p <= 2.
Proof.
  unfold v3d_qpu_float32_pack_pack. intros H.
  destruct (Z.eqb_spec u V3D_QPU_PACK_NONE) as [->|]; [injection H as <-; by vm_compute|].
  destruct (Z.eqb_spec u V3D_QPU_PACK_L) as [->|]; [injection H as <-; by vm_compute|].
  destruct (Z.eqb_spec u V3D_QPU_PACK_H) as [->|]; [injection H as <-; by vm_compute|done].
Qed.

Lemma round_check_inst op a out packed :
  0 <= op < 72 -> 0 <= a < 8 -> 0 <= out <= 2 -> packed = 1 \/ packed = 3 ->
  implb (is_round_op op) (round_check op a out packed) = true /\
  implb (is_ftoi_op op) (ftoi_check op a packed) = true.
Proof.
  intros Hop Ha Ho Hp. pose proof round_check_all as H. rewrite forallb_forall in H.
  specialize (H op ltac:(apply list_elem_of_In, elem_of_zrange; lia)). rewrite forallb_forall in H.
  specialize (H a (in_eight a Ha)). rewrite forallb_forall in H.
  specialize (H out ltac:(cbn; lia)). rewrite forallb_forall in H.
  specialize (H packed ltac:(cbn; lia)). by apply andb_prop in H.
Qed.

Lemma op_muxes_1 desc a b : op_muxes desc 1 a b = (a, ffs (mux_b_mask desc) - 1).
Proof. reflexivity. Qed.

Lemma op_muxes_2 desc a b : op_muxes desc 2 a b = (a, b).
Proof. reflexivity. Qed.

Lemma round_decodes add nsrc desc ma mb hc :
  is_round_op (al_op add) || is_ftoi_op (al_op add) = true -> half_ok add ->
  v3d_qpu_add_op_num_src (al_op add) = Some nsrc -> find_op add_ops (al_op add) = Some desc ->
  op_muxes desc nsrc (al_a add) (al_b add) = (ma, mb) ->
  add_pack_modes add (opcode_first desc) ma mb = Some hc -> add_lossless add = true ->
  add_decodes add nsrc hc.
Proof.
  intros Hgrp [Ha Hb Hw] Hn Hf Hm Hp Hl. pose proof (num_src_range _ _ Hn) as Hop.
  destruct (op_groups _ Hop) as (Gr & Gf & _ & _).
  unfold add_lossless in Hl. apply andb_prop in Hl as [[Hl _]%andb_prop _].
  rewrite Hgrp in Hl. cbn in Hl. apply negb_true_iff, Z.eqb_neq in Hl.
  assert (nsrc = 1 /\ is_float32_op (al_op add) = false /\ is_stvpm_op (al_op add) = false)
    as (-> & G32 & Gst).
  { apply orb_true_iff in Hgrp as [H|H]; [apply Gr in H|apply Gf in H]; naive_solver. }
  rewrite op_muxes_1 in Hm. injection Hm as <- <-.
  unfold add_pack_modes in Hp. rewrite G32 in Hp. unfold add_decodes, add_waddr.
  destruct (is_round_op (al_op add)) eqn:Er.
  - destruct (v3d_qpu_float32_pack_pack (al_output_pack add)) as [out|] eqn:Eo; [|done].
    destruct (v3d_qpu_float32_unpack_pack (al_a_unpack add)) as [pa|] eqn:Ea; [|done].
    cbn [mbind option_bind] in Hp. destruct (Z.eqb_spec pa 0); [done|]. injection Hp as <-.
    destruct (output_pack_32 _ _ Eo) as [-> Hout].
    destruct (unpack_pack_32 _ _ Ea) as (Hpa & Hua & H2).
    destruct (round_check_inst (al_op add) (al_a add) (al_output_pack add) pa Hop Ha Hout)
      as [Hc _]; [lia|]. rewrite Er in Hc. cbn [implb] in Hc. unfold round_check in Hc.
    rewrite Hf in Hc. unfold small in Hc.
    apply andb_prop in Hc as [[[[H1 H3]%andb_prop H4]%andb_prop H5]%andb_prop H6].
    apply Z.eqb_eq in H5, H6. apply bool_decide_eq_true_1 in H4.
    cbn [hc_opcode hc_mux_a hc_mux_b]. split; [lia|]. split; [lia|]. split; [lia|]. split.
    + eapply add_unpack_op_waddr; [exact H4|done].
    + intros old. unfold add_unpack_modes. rewrite G32, Er, H5, Hua, H6. do 2 eexists.
      split; [done|]. by unfold same_sources.
  - cbn [orb] in Hgrp. rewrite Hgrp in Hp.
    destruct (Z.eqb_spec (al_output_pack add) V3D_QPU_PACK_NONE) as [Eo|]; [|done]. cbn [negb] in Hp.
    destruct (v3d_qpu_float32_unpack_pack (al_a_unpack add)) as [pa|] eqn:Ea; [|done].
    cbn [mbind option_bind] in Hp. destruct (Z.eqb_spec pa 0); [done|]. injection Hp as <-.
    destruct (unpack_pack_32 _ _ Ea) as (Hpa & Hua & H2).
    destruct (round_check_inst (al_op add) (al_a add) 0 pa Hop Ha) as [_ Hc]; [lia|lia|].
    rewrite Hgrp in Hc. cbn [implb] in Hc. unfold ftoi_check in Hc. rewrite Hf in Hc.
    unfold small in Hc. apply andb_prop in Hc as [[[H1 H3]%andb_prop H4]%andb_prop H5].
    apply Z.eqb_eq in H5. apply bool_decide_eq_true_1 in H4.
    cbn [hc_opcode hc_mux_a hc_mux_b]. split; [lia|]. split; [lia|]. split; [lia|]. split.
    + eapply add_unpack_op_waddr; [exact H4|done].
    + intros old. unfold add_unpack_modes. rewrite G32, Er, Hgrp, H5, Hua, Eo. do 2 eexists.
      split; [done|]. by unfold same_sources.
Qed.

(** Vector minimum and maximum. *)
Definition vf_check (op a b packed : Z) : bool :=
  match find_op add_ops op with
  | Some desc =>
    let opc := Z.lor (opcode_first desc) packed in
    small opc 256 && bool_decide (add_unpack_op opc a b 0 = Some op) && (Z.land opc 7 =? packed)
  | None => false
  end.

Lemma vf_check_all :
  forallb (fun op => forallb (fun packed => forallb (fun a => forallb (fun b =>
    vf_check op a b packed) eight) eight) [0; 1; 2; 3; 4])
    [V3D_QPU_A_VFMIN; V3D_QPU_A_VFMAX] = true.
Proof. vm_compute. reflexivity. Qed.

Lemma unpack_pack_16 u p :
  v3d_qpu_float16_unpack_pack u = Some p ->
  0 <= p <= 4 /\ v3d_qpu_float16_unpack_unpack p = Some u.
Proof.
  unfold v3d_qpu_float16_unpack_pack. intros H.
  destruct (Z.eqb_spec u V3D_QPU_UNPACK_NONE) as [->|]; [injection H as <-; by vm_compute|].
  destruct (Z.eqb_spec u V3D_QPU_UNPACK_REPLICATE_32F_16) as [->|]; [injection H as <-; by vm_compute|].
  destruct (Z.eqb_spec u V3D_QPU_UNPACK_REPLICATE_L_16) as [->|]; [injection H as <-; by vm_compute|].
  destruct (Z.eqb_spec u V3D_QPU_UNPACK_REPLICATE_H_16) as [->|]; [injection H as <-; by vm_compute|].
  destruct (Z.eqb_spec u V3D_QPU_UNPACK_SWAP_16) as [->|]; [injection H as <-; by vm_compute|done].
Qed.

Lemma vf_decodes add nsrc desc ma mb hc :
  is_vf_op (al_op add) = true -> half_ok add ->
  v3d_qpu_add_op_num_src (al_op add) = Some nsrc -> find_op add_ops (al_op add) = Some desc ->
  op_muxes desc nsrc (al_a add) (al_b add) = (ma, mb) ->
  add_pack_modes add (opcode_first desc) ma mb = Some hc -> add_decodes add nsrc hc.
Proof.
  intros Hv [Ha Hb Hw] Hn Hf Hm Hp. pose proof (num_src_range _ _ Hn) as Hop.
  destruct (op_groups _ Hop) as (_ & _ & Gv & _). destruct (Gv Hv) as (G1 & G2 & G3 & Hn' & Gst).
  rewrite Hn' in Hn. injection Hn as <-. rewrite op_muxes_2 in Hm. injection Hm as <- <-.
  unfold add_pack_modes in Hp. rewrite G1, G2, G3, Hv in Hp.
  destruct (Z.eqb_spec (al_output_pack add) V3D_QPU_PACK_NONE) as [Eo|]; [|done].
  destruct (Z.eqb_spec (al_b_unpack add) V3D_QPU_UNPACK_NONE) as [Eb|]; [|done]. cbn [negb orb] in Hp.
  destruct (v3d_qpu_float16_unpack_pack (al_a_unpack add)) as [pa|] eqn:Ea; [|done].
  cbn [mbind option_bind] in Hp. injection Hp as <-. destruct (unpack_pack_16 _ _ Ea) as [Hpa Hua].
  pose proof vf_check_all as H. rewrite forallb_forall in H.
  specialize (H (al_op add) ltac:(unfold is_vf_op in Hv;
    apply orb_true_iff in Hv as [->%Z.eqb_eq| ->%Z.eqb_eq]; cbn; auto)).
  rewrite forallb_forall in H.
  specialize (H pa ltac:(cbn; lia)). pose proof (forallb2_eight _ _ _ H Ha Hb) as Hc.
  unfold vf_check in Hc. rewrite Hf in Hc. unfold small in Hc.
  apply andb_prop in Hc as [[H1 H2]%andb_prop H3]. apply Z.eqb_eq in H3.
  apply bool_decide_eq_true_1 in H2. unfold add_decodes. cbn [hc_opcode hc_mux_a hc_mux_b].
  rewrite add_waddr_plain by done.
  split; [lia|]. split; [lia|]. split; [lia|]. split; [by eapply add_unpack_op_waddr|].
  intros old. unfold add_unpack_modes. rewrite G1, G2, G3, Hv, H3, Hua, Eo. do 2 eexists.
  split; [done|]. unfold same_sources. cbn. left. by rewrite Eb.
Qed.

(** Floating-point operations with two sources: every combination of modifiers and
    muxes, decided by evaluation. *)
Definition same_sources_b (comm : bool) (h : alu_half) (a b au bu : Z) : bool :=
  (a =? al_a h) && (b =? al_b h) && (au =? al_a_unpack h) && (bu =? al_b_unpack h) ||
  comm && (a =? al_b h) && (b =? al_a h) && (au =? al_b_unpack h) && (bu =? al_a_unpack h).

Definition float_check (h : alu_half) : bool :=
  match find_op add_ops (al_op h) with
  | None => false
  | Some desc =>
    match add_pack_modes h (opcode_first desc) (al_a h) (al_b h) with
    | None => false
    | Some hc =>
      small (hc_opcode hc) 256 && small (hc_mux_a hc) 8 && small (hc_mux_b hc) 8
      && bool_decide (add_unpack_op (hc_opcode hc) (hc_mux_a hc) (hc_mux_b hc) 0 = Some (al_op h))
      && match add_unpack_modes (al_op h) (hc_opcode hc) (hc_mux_b hc) 0 with
         | Some (out, au, bu) =>
           (out =? al_output_pack h)
           && same_sources_b (is_commutative (al_op h)) h (hc_mux_a hc) (hc_mux_b hc) au bu
         | None => false
         end
    end
  end.

Definition float_half (op out au bu a b : Z) : alu_half := AluHalf op a b 0 false out au bu.

Definition float_ops : list Z :=
  [V3D_QPU_A_FADD; V3D_QPU_A_FADDNF; V3D_QPU_A_FSUB; V3D_QPU_A_FMIN; V3D_QPU_A_FMAX;
   V3D_QPU_A_FCMP].

Definition unpacks_32 : list Z :=
  [V3D_QPU_UNPACK_NONE; V3D_QPU_UNPACK_ABS; V3D_QPU_UNPACK_L; V3D_QPU_UNPACK_H].

Lemma float_check_all :
  forallb (fun op => forallb (fun out => forallb (fun au => forallb (fun bu =>
    forallb (fun a => forallb (fun b =>
      let h := float_half op out au bu a b in implb (add_lossless h) (float_check h))
    eight) eight) unpacks_32) unpacks_32) [0; 1; 2]) float_ops = true.
Proof. vm_compute. reflexivity. Qed.

Lemma float_ops_in op : is_float32_op op = true -> In op float_ops.
Proof.
  unfold is_float32_op. intros H. repeat apply orb_true_iff in H as [H|H];
    apply Z.eqb_eq in H as ->; cbn; auto 8.
Qed.

Lemma unpacks_32_in u p : v3d_qpu_float32_unpack_pack u = Some p -> In u unpacks_32.
Proof.
  unfold v3d_qpu_float32_unpack_pack. intros H. repeat case_match; try done;
    match goal with H : (u =? _) = true |- _ => apply Z.eqb_eq in H as -> end; cbn; auto.
Qed.

Lemma float_check_inst op out au bu a b pa pb po :
  is_float32_op op = true -> v3d_qpu_float32_pack_pack out = Some po ->
  v3d_qpu_float32_unpack_pack au = Some pa -> v3d_qpu_float32_unpack_pack bu = Some pb ->
  0 <= a < 8 -> 0 <= b < 8 -> add_lossless (float_half op out au bu a b) = true ->
  float_check (float_half op out au bu a b) = true.
Proof.
  intros Hop Ho Hpa Hpb Ha Hb Hl. pose proof float_check_all as H.
  rewrite forallb_forall in H. specialize (H op (float_ops_in _ Hop)).
  rewrite forallb_forall in H. destruct (output_pack_32 _ _ Ho) as [-> Hout].
  specialize (H out ltac:(cbn; lia)).
  rewrite forallb_forall in H. specialize (H au (unpacks_32_in _ _ Hpa)).
  rewrite forallb_forall in H. specialize (H bu (unpacks_32_in _ _ Hpb)).
  pose proof (forallb2_eight _ _ _ H Ha Hb) as Hc. cbv beta zeta in Hc. by rewrite Hl in Hc.
Qed.

Lemma same_sources_b_spec comm h a b au bu :
  same_sources_b comm h a b au bu = true -> same_sources comm 2 h a b au bu.
Proof.
  unfold same_sources_b, same_sources. cbn [Z.leb Z.compare Pos.compare Pos.compare_cont].
  intros [H|H]%orb_true_iff; rewrite !andb_true_iff, !Z.eqb_eq in H; intuition.
Qed.

Lemma float_decodes add nsrc desc ma mb hc :
  is_float32_op (al_op add) = true -> half_ok add ->
  v3d_qpu_add_op_num_src (al_op add) = Some nsrc -> find_op add_ops (al_op add) = Some desc ->
  op_muxes desc nsrc (al_a add) (al_b add) = (ma, mb) ->
  add_pack_modes add (opcode_first desc) ma mb = Some hc -> add_lossless add = true ->
  add_decodes add nsrc hc.
Proof.
  intros Hg [Ha Hb Hw] Hn Hf Hm Hp Hl. pose proof (num_src_range _ _ Hn) as Hop.
  destruct (op_groups _ Hop) as (_ & _ & _ & Gf). destruct (Gf Hg) as [Hn' Gst].
  rewrite Hn' in Hn. injection Hn as <-. rewrite op_muxes_2 in Hm. injection Hm as <- <-.
  assert (float_check (float_half (al_op add) (al_output_pack add) (al_a_unpack add)
    (al_b_unpack add) (al_a add) (al_b add)) = true) as Hc.
  { unfold add_pack_modes in Hp. rewrite Hg in Hp.
    destruct (v3d_qpu_float32_pack_pack _) eqn:E1; [|done]. cbn [mbind option_bind] in Hp.
    destruct (v3d_qpu_float32_unpack_pack (al_a_unpack add)) eqn:E2; [|done].
    cbn [mbind option_bind] in Hp.
    destruct (v3d_qpu_float32_unpack_pack (al_b_unpack add)) eqn:E3; [|done].
    by eapply float_check_inst. }
  unfold float_check in Hc. cbn [float_half al_op al_a al_b] in Hc. rewrite Hf in Hc.
  change (add_pack_modes (float_half (al_op add) (al_output_pack add) (al_a_unpack add)
    (al_b_unpack add) (al_a add) (al_b add)) (opcode_first desc) (al_a add) (al_b add))
    with (add_pack_modes add (opcode_first desc) (al_a add) (al_b add)) in Hc.
  rewrite Hp in Hc. unfold small in Hc.
  apply andb_prop in Hc as [[[[H1 H2]%andb_prop H3]%andb_prop H4]%andb_prop H5].
  apply bool_decide_eq_true_1 in H4. unfold add_decodes. rewrite add_waddr_plain by done.
  split; [lia|]. split; [lia|]. split; [lia|]. split; [by eapply add_unpack_op_waddr|].
  intros old. unfold add_unpack_modes in *. cbn [float_half al_op al_output_pack] in H5. rewrite Hg in *.
  destruct (v3d_qpu_float32_unpack_unpack (Z.land (Z.shiftr (hc_opcode hc) 2) 3)) as [au|]; [|discriminate H5]. cbn [mbind option_bind] in *.
  destruct (v3d_qpu_float32_unpack_unpack (Z.land (Z.shiftr (hc_opcode hc) 0) 3)) as [bu|]; [|discriminate H5]. cbn [mbind option_bind] in *.
  apply andb_prop in H5 as [->%Z.eqb_eq H6]. do 2 eexists. split; [done|].
  by apply same_sources_b_spec.
Qed.

(** The word [v3d_qpu_add_pack] produces, and that its fields decode. *)
Definition add_bits (w : Z) (hc : half_code) (waddr : Z) (magic : bool) : Z :=
  Z.lor (Z.lor (Z.lor (Z.lor (Z.lor w (Z.shiftl (hc_mux_a hc) 12)) (Z.shiftl (hc_mux_b hc) 15))
    (Z.shiftl (hc_opcode hc) 24)) (Z.shiftl waddr 32)) (Z.shiftl (Z.b2z magic) 44).

Lemma add_half_decodes add nsrc desc ma mb hc :
  half_ok add ->
  v3d_qpu_add_op_num_src (al_op add) = Some nsrc -> find_op add_ops (al_op add) = Some desc ->
  op_muxes desc nsrc (al_a add) (al_b add) = (ma, mb) ->
  add_pack_modes add (opcode_first desc) ma mb = Some hc -> add_lossless add = true ->
  add_decodes add nsrc hc.
Proof.
  intros. destruct (is_float32_op (al_op add)) eqn:E1; [by eapply float_decodes|].
  destruct (is_round_op (al_op add) || is_ftoi_op (al_op add)) eqn:E2; [by eapply round_decodes|].
  destruct (is_vf_op (al_op add)) eqn:E3; [by eapply vf_decodes|].
  eapply plain_decodes; try done. unfold plain_op. apply orb_false_iff in E2 as [E4 E5].
  by rewrite E1, E3, E4, E5.
Qed.

Lemma add_waddr_range add : half_ok add -> 0 <= add_waddr add < 64.
Proof. intros [_ _ H]. unfold add_waddr. repeat case_match; lia. Qed.
