(* ===== verification/QpuMul.v ===== *)
(** * The mul half of QPU ALU instructions

    What [v3d_qpu_mul_pack] encodes is in range and decodes to the same operation,
    modifiers and sources, for every half whose modifiers the encoding can carry;
    the ranges of the codes of both halves hold for every half. *)
From S2P Require Import Prelude Bitset QpuInstr QpuPack QpuFields QpuCorrect.

(** The mul half drops the modifiers of the operations other than [FMUL] and [FMOV]. *)
Definition mul_lossless (nsrc : Z) (mul : alu_half) : bool :=
  (al_op mul =? V3D_QPU_M_FMUL) || (al_op mul =? V3D_QPU_M_FMOV)
  || (al_output_pack mul =? V3D_QPU_PACK_NONE)
     && implb (1 <=? nsrc) (al_a_unpack mul =? V3D_QPU_UNPACK_NONE)
     && implb (2 <=? nsrc) (al_b_unpack mul =? V3D_QPU_UNPACK_NONE).

Definition mul_code_range (hc : half_code) : Prop :=
  0 < hc_opcode hc < 2 ^ 6 /\ 0 <= hc_mux_a hc < 2 ^ 3 /\ 0 <= hc_mux_b hc < 2 ^ 3.

Definition mul_decodes (mul : alu_half) (nsrc : Z) (hc : half_code) : Prop :=
  exists desc, lookup_opcode mul_ops (hc_opcode hc) (hc_mux_a hc) (hc_mux_b hc) = Some desc /\
  od_op desc = al_op mul /\
  forall old, exists au bu,
    mul_unpack_modes (al_op mul) (hc_opcode hc) (hc_mux_b hc) old = Some (al_output_pack mul, au, bu) /\
    same_sources false nsrc mul (hc_mux_a hc) (hc_mux_b hc) au bu.

(** One check decides all of it; [old] only reaches the unpack of b of [FMOV], which
    has no source b. *)
Definition mul_sources_b (nsrc : Z) (h : alu_half) (a b au bu : Z) : bool :=
  implb (1 <=? nsrc) ((a =? al_a h) && (au =? al_a_unpack h)) &&
  implb (2 <=? nsrc) ((b =? al_b h) && (bu =? al_b_unpack h)).

Definition mul_code_of (h : alu_half) : option (Z * half_code) :=
  nsrc ← v3d_qpu_mul_op_num_src (al_op h);
  desc ← find_op mul_ops (al_op h);
  let '(ma, mb) := op_muxes desc nsrc (al_a h) (al_b h) in
  hc ← mul_pack_modes h (opcode_first desc) ma mb;
  Some (nsrc, hc).

Definition mul_check (h : alu_half) : bool :=
  match mul_code_of h with
  | None => false
  | Some (nsrc, hc) =>
    small (hc_opcode hc) 64 && negb (hc_opcode hc =? 0) && small (hc_mux_a hc) 8
    && small (hc_mux_b hc) 8 &&
    match lookup_opcode mul_ops (hc_opcode hc) (hc_mux_a hc) (hc_mux_b hc),
          mul_unpack_modes (al_op h) (hc_opcode hc) (hc_mux_b hc) 0 with
    | Some desc, Some (out, au, bu) =>
      (od_op desc =? al_op h) && (out =? al_output_pack h)
      && mul_sources_b nsrc h (hc_mux_a hc) (hc_mux_b hc) au bu
      && implb (al_op h =? V3D_QPU_M_FMOV) (nsrc =? 1)
    | _, _ => false
    end
  end.

Definition mul_plain_ops : list Z :=
  [V3D_QPU_M_ADD; V3D_QPU_M_SUB; V3D_QPU_M_UMUL24; V3D_QPU_M_VFMUL; V3D_QPU_M_SMUL24;
   V3D_QPU_M_MULTOP; V3D_QPU_M_MOV; V3D_QPU_M_NOP].

Lemma mul_check_all :
  forallb (fun out => forallb (fun au => forallb (fun bu =>
    forallb (fun a => forallb (fun b =>
      mul_check (float_half V3D_QPU_M_FMUL out au bu a b) &&
      mul_check (float_half V3D_QPU_M_FMOV out au bu a b)) eight) eight)
    unpacks_32) unpacks_32) [0; 1; 2] &&
  forallb (fun op => forallb (fun a => forallb (fun b =>
      mul_check (float_half op V3D_QPU_PACK_NONE V3D_QPU_UNPACK_NONE V3D_QPU_UNPACK_NONE a b))
    eight) eight) mul_plain_ops = true.
Proof. vm_compute. reflexivity. Qed.

Lemma mul_num_src_range op nsrc : v3d_qpu_mul_op_num_src op = Some nsrc -> 0 <= op < 10.
Proof.
  unfold v3d_qpu_mul_op_num_src. destruct (array_get mul_op_args op) eqn:E; [|done].
  intros _. apply array_get_lt in E. exact E.
Qed.

(** A half whose code is computed is checked above, up to the modifiers the
    encoding drops. *)
Definition mul_covers (h h' : alu_half) (nsrc : Z) : Prop :=
  mul_check h' = true /\ mul_code_of h' = mul_code_of h /\
  al_op h' = al_op h /\ al_a h' = al_a h /\ al_b h' = al_b h /\
  (mul_lossless nsrc h = true ->
   al_output_pack h' = al_output_pack h /\
   (1 <= nsrc -> al_a_unpack h' = al_a_unpack h) /\ (2 <= nsrc -> al_b_unpack h' = al_b_unpack h)).

Lemma mul_check_float out au bu a b pa pb po :
  v3d_qpu_float32_pack_pack out = Some po -> v3d_qpu_float32_unpack_pack au = Some pa ->
  v3d_qpu_float32_unpack_pack bu = Some pb -> 0 <= a < 8 -> 0 <= b < 8 ->
  mul_check (float_half V3D_QPU_M_FMUL out au bu a b) = true /\
  mul_check (float_half V3D_QPU_M_FMOV out au bu a b) = true.
Proof.
  intros Ho Hpa Hpb Ha Hb. pose proof mul_check_all as H. apply andb_prop in H as [H _].
  rewrite forallb_forall in H. destruct (output_pack_32 _ _ Ho) as [-> Hout].
  specialize (H out ltac:(cbn; lia)).
  rewrite forallb_forall in H. specialize (H au (unpacks_32_in _ _ Hpa)).
  rewrite forallb_forall in H. specialize (H bu (unpacks_32_in _ _ Hpb)).
  pose proof (forallb2_eight _ _ _ H Ha Hb) as Hc. cbv beta in Hc. by apply andb_prop.
Qed.

Lemma mul_check_plain op a b :
  In op mul_plain_ops -> 0 <= a < 8 -> 0 <= b < 8 ->
  mul_check (float_half op V3D_QPU_PACK_NONE V3D_QPU_UNPACK_NONE V3D_QPU_UNPACK_NONE a b) = true.
Proof.
  intros Hop Ha Hb. pose proof mul_check_all as H. apply andb_prop in H as [_ H].
  rewrite forallb_forall in H. specialize (H op Hop).
  exact (forallb2_eight _ _ _ H Ha Hb).
Qed.

Lemma mul_covered h nsrc hc :
  half_ok h -> mul_code_of h = Some (nsrc, hc) -> exists h', mul_covers h h' nsrc.
Proof.
  intros [Ha Hb _] Hc. pose proof Hc as Hc'. unfold mul_code_of in Hc'.
  destruct (v3d_qpu_mul_op_num_src (al_op h)) as [n|] eqn:Hn; [|done].
  pose proof (mul_num_src_range _ _ Hn) as Hop. cbn [mbind option_bind] in Hc'.
  destruct (find_op mul_ops (al_op h)) as [desc|] eqn:Hf; [|done]. cbn [mbind option_bind] in Hc'.
  destruct (op_muxes desc n (al_a h) (al_b h)) as [ma mb] eqn:Hm.
  destruct (mul_pack_modes h (opcode_first desc) ma mb) as [c|] eqn:Hp; [|done].
  cbn [mbind option_bind] in Hc'. injection Hc' as -> ->.
  unfold mul_pack_modes in Hp.
  destruct (Z.eqb_spec (al_op h) V3D_QPU_M_FMUL) as [E|E].
  - destruct (v3d_qpu_float32_pack_pack (al_output_pack h)) eqn:E1; [|done].
    destruct (v3d_qpu_float32_unpack_pack (al_a_unpack h)) eqn:E2; [|done].
    destruct (v3d_qpu_float32_unpack_pack (al_b_unpack h)) eqn:E3; [|done].
    exists (float_half (al_op h) (al_output_pack h) (al_a_unpack h) (al_b_unpack h) (al_a h) (al_b h)).
    split; [rewrite E; by eapply mul_check_float|]. done.
  - destruct (Z.eqb_spec (al_op h) V3D_QPU_M_FMOV) as [E'|E'].
    + destruct (v3d_qpu_float32_pack_pack (al_output_pack h)) eqn:E1; [|done].
      destruct (v3d_qpu_float32_unpack_pack (al_a_unpack h)) eqn:E2; [|done].
      exists (float_half (al_op h) (al_output_pack h) (al_a_unpack h) V3D_QPU_UNPACK_NONE (al_a h) (al_b h)).
      assert (nsrc = 1) as -> by (rewrite E' in Hn; vm_compute in Hn; congruence).
      split; [rewrite E'; eapply mul_check_float; done|].
      split; [unfold mul_code_of, mul_pack_modes; cbn [float_half al_op al_a al_b al_output_pack al_a_unpack];
        by rewrite E'|]. split_and!; try done.
    + exists (float_half (al_op h) V3D_QPU_PACK_NONE V3D_QPU_UNPACK_NONE V3D_QPU_UNPACK_NONE (al_a h) (al_b h)).
      split; [apply mul_check_plain; try done|].
      { unfold V3D_QPU_M_FMUL, V3D_QPU_M_FMOV in *. change (In (al_op h) [0; 1; 2; 3; 4; 5; 7; 8]). cbn. lia. }
      apply Z.eqb_neq in E, E'.
      split; [unfold mul_code_of, mul_pack_modes; cbn [float_half al_op al_a al_b];
        by rewrite E, E'|]. split_and!; try done.
      unfold mul_lossless. rewrite E, E'. cbn [orb]. intros [[H1 H2]%andb_prop H3]%andb_prop.
      cbn. apply Z.eqb_eq in H1. split_and!; [done| |]; intros Hs.
      * destruct (Z.leb_spec 1 nsrc); [|lia]. by apply Z.eqb_eq in H2.
      * destruct (Z.leb_spec 2 nsrc); [|lia]. by apply Z.eqb_eq in H3.
Qed.

Lemma mul_half_decodes h nsrc hc :
  half_ok h -> mul_code_of h = Some (nsrc, hc) ->
  mul_code_range hc /\ (mul_lossless nsrc h = true -> mul_decodes h nsrc hc).
Proof.
  intros Hok Hc. destruct (mul_covered h nsrc hc Hok Hc) as (h' & Hchk & Hcode & Hop & Ha & Hb & Hl).
  unfold mul_check in Hchk. rewrite Hcode, Hc in Hchk. unfold small in Hchk.
  apply andb_prop in Hchk as [[[[H1 H2]%andb_prop H3]%andb_prop H4]%andb_prop H5].
  apply negb_true_iff, Z.eqb_neq in H2. split; [unfold mul_code_range; lia|].
  intros [Hout [Hau Hbu]]%Hl. unfold mul_decodes.
  destruct (lookup_opcode _ _ _ _) as [desc|]; [|done]. exists desc. split; [done|].
  rewrite Hop in H5.
  destruct (mul_unpack_modes (al_op h) (hc_opcode hc) (hc_mux_b hc) 0) as [[[out au] bu]|] eqn:Em; [|done].
  apply andb_prop in H5 as [[[->%Z.eqb_eq ->%Z.eqb_eq]%andb_prop Hs]%andb_prop Hmov].
  split; [done|]. intros old. rewrite Hout in Em.
  assert (exists bu', mul_unpack_modes (al_op h) (hc_opcode hc) (hc_mux_b hc) old
    = Some (al_output_pack h, au, bu') /\ (nsrc <> 1 -> bu' = bu)) as (bu' & Em' & Hbu').
  { unfold mul_unpack_modes in *. destruct (al_op h =? V3D_QPU_M_FMUL); [eauto|].
    destruct (al_op h =? V3D_QPU_M_FMOV); [|eauto].
    destruct (v3d_qpu_float32_unpack_unpack _); [|done]. cbn [mbind option_bind implb] in *.
    exists old. split; [congruence|lia]. }
  exists au, bu'. split; [done|]. unfold same_sources, mul_sources_b in *.
  destruct (Z.leb_spec 2 nsrc); cbn [implb] in *.
  - destruct (Z.leb_spec 1 nsrc); [|lia]. cbn [implb] in *. left.
    rewrite !andb_true_iff, !Z.eqb_eq in Hs. rewrite Hbu' by lia.
    rewrite <- Ha, <- Hb, <- Hau, <- Hbu by lia. tauto.
  - destruct (Z.leb_spec 1 nsrc); [|done]. cbn [implb] in *.
    rewrite !andb_true_iff, !Z.eqb_eq in Hs. rewrite <- Ha, <- Hau by lia. tauto.
Qed.

(** ** Ranges of the add code, whatever the modifiers *)

Definition desc_in_range (desc : opcode_desc) : bool :=
  small (opcode_first desc) 256 && small (ffs (mux_a_mask desc) - 1) 8
  && small (ffs (mux_b_mask desc) - 1) 8.

Lemma add_ops_in_range : forallb desc_in_range add_ops = true.
Proof. vm_compute. reflexivity. Qed.

Lemma find_op_in ops op desc : find_op ops op = Some desc -> In desc ops.
Proof.
  induction ops as [|d ops IH]; [done|]. cbn [find_op]. destruct (od_op d =? op).
  - intros [= ->]. by left.
  - intros H. right. auto.
Qed.

Lemma add_desc_range op desc nsrc a b ma mb :
  find_op add_ops op = Some desc -> 0 <= a < 8 -> 0 <= b < 8 ->
  op_muxes desc nsrc a b = (ma, mb) ->
  0 <= opcode_first desc < 2 ^ 8 /\ 0 <= ma < 2 ^ 3 /\ 0 <= mb < 2 ^ 3.
Proof.
  intros Hf Ha Hb Hm. pose proof add_ops_in_range as H. rewrite forallb_forall in H.
  specialize (H desc (find_op_in _ _ _ Hf)). unfold desc_in_range, small in H.
  unfold op_muxes in Hm. injection Hm as <- <-. destruct (nsrc <? 1), (nsrc <? 2); lia.
Qed.

Definition add_code_range (hc : half_code) : Prop :=
  0 <= hc_opcode hc < 2 ^ 8 /\ 0 <= hc_mux_a hc < 2 ^ 3 /\ 0 <= hc_mux_b hc < 2 ^ 3.

Lemma shifted_range p n k : 0 <= p < 4 -> 0 <= n -> n + 2 <= k -> 0 <= Z.shiftl p n < 2 ^ k.
Proof.
  intros Hp Hn Hk. rewrite Z.shiftl_mul_pow2 by lia.
  assert (0 < 2 ^ n) by (apply Z.pow_pos_nonneg; lia). split; [lia|].
  assert (4 * 2 ^ n <= 2 ^ k); [|nia]. change 4 with (2 ^ 2). rewrite <- Z.pow_add_r by lia.
  apply Z.pow_le_mono_r; lia.
Qed.

Lemma add_pack_modes_range add opcode ma mb hc :
  0 <= opcode < 2 ^ 8 -> 0 <= ma < 2 ^ 3 -> 0 <= mb < 2 ^ 3 ->
  add_pack_modes add opcode ma mb = Some hc -> add_code_range hc.
Proof.
  intros Ho Ha Hb Hp. unfold add_pack_modes in Hp.
  repeat match type of Hp with
  | (if ?b then _ else _) = _ => destruct b
  | ?x ≫= _ = _ => destruct x eqn:?; [|discriminate Hp]; cbn [mbind option_bind] in Hp
  | None = _ => discriminate Hp
  | Some _ = _ => injection Hp as <-
  end;
  repeat match goal with
  | H : v3d_qpu_float32_pack_pack _ = Some _ |- _ => apply output_pack_32 in H as [? ?]
  | H : v3d_qpu_float32_unpack_pack _ = Some _ |- _ => apply unpack_pack_32 in H as (? & _ & _)
  | H : v3d_qpu_float16_unpack_pack _ = Some _ |- _ => apply unpack_pack_16 in H as [? _]
  end; unfold add_code_range; cbn [hc_opcode hc_mux_a hc_mux_b]; (split; [|split]);
  repeat match goal with
  | |- 0 <= Z.lor _ _ < _ => apply lor_bound; [lia| |]
  | |- 0 <= Z.shiftl _ _ < _ => apply shifted_range; lia
  end; unfold V3D_QPU_PACK_NONE in *; lia.
Qed.
