(* ===== verification/QpuWord.v ===== *)
(** * Whole QPU instructions

    The word that packing an ALU or a branch instruction produces, field by field,
    and what unpacking reads from it. *)
From Stdlib Require Import Btauto.
From S2P Require Import Prelude Bitset QpuInstr QpuPack QpuFields QpuCorrect QpuMul.

(** ** The halves *)

Definition add_code_of (h : alu_half) : option (Z * half_code) :=
  nsrc ← v3d_qpu_add_op_num_src (al_op h);
  desc ← find_op add_ops (al_op h);
  let '(ma, mb) := op_muxes desc nsrc (al_a h) (al_b h) in
  hc ← add_pack_modes h (opcode_first desc) ma mb;
  Some (nsrc, hc).

Lemma add_code_facts h nsrc hc :
  half_ok h -> add_code_of h = Some (nsrc, hc) ->
  v3d_qpu_add_op_num_src (al_op h) = Some nsrc /\ add_code_range hc /\
  (add_lossless h = true -> add_decodes h nsrc hc).
Proof.
  intros Hok Hc. unfold add_code_of in Hc.
  destruct (v3d_qpu_add_op_num_src (al_op h)) as [n|] eqn:Hn; [|done]. cbn [mbind option_bind] in Hc.
  destruct (find_op add_ops (al_op h)) as [desc|] eqn:Hf; [|done]. cbn [mbind option_bind] in Hc.
  destruct (op_muxes desc n (al_a h) (al_b h)) as [ma mb] eqn:Hm.
  destruct (add_pack_modes h (opcode_first desc) ma mb) as [c|] eqn:Hp; [|done].
  cbn [mbind option_bind] in Hc. injection Hc as -> ->. split; [done|]. split.
  - destruct (add_desc_range _ _ _ _ _ _ _ Hf (ho_a _ Hok) (ho_b _ Hok) Hm) as (H1 & H2 & H3).
    exact (add_pack_modes_range _ _ _ _ _ H1 H2 H3 Hp).
  - intros Hl. by eapply add_half_decodes.
Qed.

Definition mul_bits (w : Z) (hc : half_code) (waddr : Z) (magic : bool) : Z :=
  Z.lor (Z.lor (Z.lor (Z.lor (Z.lor w (Z.shiftl (hc_mux_a hc) 18)) (Z.shiftl (hc_mux_b hc) 21))
    (Z.shiftl (hc_opcode hc) 58)) (Z.shiftl waddr 38)) (Z.shiftl (Z.b2z magic) 45).

Lemma add_pack_spec h w :
  half_ok h -> 0 <= al_op h < 72 ->
  v3d_qpu_add_pack h w =
    Some (match add_code_of h with
          | Some (_, hc) => Some (add_bits w hc (add_waddr h) (al_magic_write h))
          | None => None
          end).
Proof.
  intros Hok Hop. pose proof (add_code_facts h) as Hfacts. unfold v3d_qpu_add_pack, add_code_of in *.
  destruct (v3d_qpu_add_op_num_src (al_op h)) as [nsrc|] eqn:Hn.
  2:{ exfalso. unfold v3d_qpu_add_op_num_src in Hn.
      destruct (array_get_is_Some add_op_args (al_op h)) as [x E]; [cbn [length add_op_args]; lia|].
      by rewrite E in Hn. }
  cbn [mbind option_bind] in *. destruct (find_op add_ops (al_op h)) as [desc|]; [|done].
  cbn [mbind option_bind] in *. destruct (op_muxes desc nsrc (al_a h) (al_b h)) as [ma mb].
  fold (add_waddr h).
  destruct (add_pack_modes h (opcode_first desc) ma mb) as [hc|]; [|done].
  destruct (Hfacts nsrc hc Hok eq_refl) as (_ & (H1 & H2 & H3) & _).
  pose proof (add_waddr_range h Hok). cbn [mbind option_bind].
  rewrite !or_field_spec by lia. cbn [mbind option_bind]. rewrite or_field_spec by lia.
  cbn [mbind option_bind]. rewrite or_field_spec by lia. cbn [mbind option_bind].
  rewrite or_field_spec by lia. cbn [mbind option_bind]. by rewrite flag_bit by lia.
Qed.

Lemma mul_pack_spec h w :
  half_ok h -> 0 <= al_op h < 10 ->
  v3d_qpu_mul_pack h w =
    Some (match mul_code_of h with
          | Some (_, hc) => Some (mul_bits w hc (al_waddr h) (al_magic_write h))
          | None => None
          end).
Proof.
  intros Hok Hop. pose proof (mul_half_decodes h) as Hfacts. unfold v3d_qpu_mul_pack, mul_code_of in *.
  destruct (v3d_qpu_mul_op_num_src (al_op h)) as [nsrc|] eqn:Hn.
  2:{ exfalso. unfold v3d_qpu_mul_op_num_src in Hn.
      destruct (array_get_is_Some mul_op_args (al_op h)) as [x E]; [cbn [length mul_op_args]; lia|].
      by rewrite E in Hn. }
  cbn [mbind option_bind] in *. destruct (find_op mul_ops (al_op h)) as [desc|]; [|done].
  cbn [mbind option_bind] in *. destruct (op_muxes desc nsrc (al_a h) (al_b h)) as [ma mb].
  destruct (mul_pack_modes h (opcode_first desc) ma mb) as [hc|]; [|done].
  destruct (Hfacts nsrc hc Hok eq_refl) as ((H1 & H2 & H3) & _).
  pose proof (ho_waddr h Hok). cbn [mbind option_bind].
  rewrite !or_field_spec by lia. cbn [mbind option_bind]. rewrite or_field_spec by lia.
  cbn [mbind option_bind]. rewrite or_field_spec by lia. cbn [mbind option_bind].
  rewrite or_field_spec by lia. cbn [mbind option_bind]. by rewrite flag_bit by lia.
Qed.

(** ** ALU instructions *)

(** Every member is in the range of its C type and field. *)
Record alu_ok (i : v3d_qpu_instr) : Prop := {
  ao_type : in_type i = V3D_QPU_INSTR_TYPE_ALU;
  ao_raddr_a : 0 <= in_raddr_a i < 64;
  ao_raddr_b : 0 <= in_raddr_b i < 64;
  ao_flags : flags_ok (in_flags i);
  ao_add : half_ok (alu_add (in_alu i));
  ao_add_op : 0 <= al_op (alu_add (in_alu i)) < 72;
  ao_mul : half_ok (alu_mul (in_alu i));
  ao_mul_op : 0 <= al_op (alu_mul (in_alu i)) < 10 }.

(** What packing an ALU instruction computes. *)
Definition alu_code (i : v3d_qpu_instr) : option Z :=
  let add := alu_add (in_alu i) in
  let mul := alu_mul (in_alu i) in
  sig ← v3d_qpu_sig_pack (in_sig i);
  '(_, a) ← add_code_of add;
  '(_, m) ← mul_code_of mul;
  flags ← v3d_qpu_flags_pack (in_flags i);
  Some (alu_word sig (in_raddr_a i) (in_raddr_b i)
    (hc_mux_a a) (hc_mux_b a) (hc_opcode a) (add_waddr add) (al_magic_write add)
    (hc_mux_a m) (hc_mux_b m) (hc_opcode m) (al_waddr mul) (al_magic_write mul) flags).

Lemma pack_alu_spec i : alu_ok i -> v3d_qpu_instr_pack i = Some (alu_code i).
Proof.
  intros [Ht Hra Hrb Hfl Ha Hao Hm Hmo]. unfold v3d_qpu_instr_pack, v3d_qpu_instr_pack_alu, alu_code.
  rewrite Ht. cbn [Z.eqb V3D_QPU_INSTR_TYPE_ALU].
  destruct (v3d_qpu_sig_pack (in_sig i)) as [sig|] eqn:Hs; [|done].
  destruct (sig_pack_spec _ _ Hs) as [Hsig _].
  rewrite or_field_spec by lia. cbn [mbind option_bind].
  rewrite or_field_spec by lia. cbn [mbind option_bind].
  rewrite or_field_spec by lia. cbn [mbind option_bind].
  rewrite add_pack_spec by done. cbn [mbind option_bind].
  destruct (add_code_of _) as [[na ca]|]; [|done]. cbn [mbind option_bind].
  rewrite mul_pack_spec by done. cbn [mbind option_bind].
  destruct (mul_code_of _) as [[nm cm]|]; [|done]. cbn [mbind option_bind].
  destruct (v3d_qpu_flags_pack _) as [fl|] eqn:Hf; [|done]. cbn [mbind option_bind].
  destruct (flags_roundtrip _ _ Hfl Hf) as [Hfr _]. rewrite or_field_spec by lia.
  cbn [mbind option_bind]. unfold alu_word, add_bits, mul_bits. reflexivity.
Qed.

(** The half [h'] stands for the same operation as [h]: same operation, write
    address [waddr], modifiers and used sources, these possibly exchanged where the
    operation is commutative. *)
Record half_same (comm : bool) (nsrc waddr : Z) (h h' : alu_half) : Prop := {
  hs_op : al_op h' = al_op h;
  hs_waddr : al_waddr h' = waddr;
  hs_magic : al_magic_write h' = al_magic_write h;
  hs_output : al_output_pack h' = al_output_pack h;
  hs_sources : same_sources comm nsrc h (al_a h') (al_b h') (al_a_unpack h') (al_b_unpack h') }.

(** The fields of [w] that the add half occupies. *)
Definition add_fields (w : Z) (hc : half_code) (waddr : Z) (magic : bool) : Prop :=
  get w 12 3 = hc_mux_a hc /\ get w 15 3 = hc_mux_b hc /\ get w 24 8 = hc_opcode hc /\
  get w 32 6 = waddr /\ get w 44 1 = Z.b2z magic.

Definition mul_fields (w : Z) (hc : half_code) (waddr : Z) (magic : bool) : Prop :=
  get w 18 3 = hc_mux_a hc /\ get w 21 3 = hc_mux_b hc /\ get w 58 6 = hc_opcode hc /\
  get w 38 6 = waddr /\ get w 45 1 = Z.b2z magic.

Lemma magic_bit w b l : 0 <= l < 64 -> get w l 1 = Z.b2z b -> negb (Z.land w (QPU_MASK l l) =? 0) = b.
Proof. intros Hl H. rewrite flag_spec, H by lia. by destruct b. Qed.

Lemma u8_small6 x : 0 <= x < 64 -> u8 x = x.
Proof. intros. unfold u8. apply Z.mod_small. lia. Qed.

Lemma add_unpack_fields w h nsrc hc old :
  half_ok h -> add_decodes h nsrc hc -> add_fields w hc (add_waddr h) (al_magic_write h) ->
  exists h', v3d_qpu_add_unpack w old = Some h' /\
    half_same (is_commutative (al_op h)) nsrc (add_waddr h) h h'.
Proof.
  intros Hok (H1 & H2 & H3 & Hop & Hmodes) (F1 & F2 & F3 & F4 & F5).
  destruct (Hmodes (al_b_unpack old)) as (au & bu & Hm & Hs).
  unfold v3d_qpu_add_unpack. rewrite !GET_spec by lia. cbn [Z.sub Z.add Z.opp Z.pos_sub Pos.add].
  change (31 - 24 + 1) with 8. change (14 - 12 + 1) with 3. change (17 - 15 + 1) with 3.
  change (37 - 32 + 1) with 6. rewrite F1, F2, F3, F4, Hop. cbn [mbind option_bind].
  rewrite Hm. cbn [mbind option_bind]. eexists. split; [reflexivity|].
  pose proof (add_waddr_range h Hok). split; cbn; try done.
  - by rewrite u8_small6.
  - apply magic_bit; [lia|done].
Qed.

Lemma mul_unpack_fields w h nsrc hc old :
  half_ok h -> mul_decodes h nsrc hc -> mul_fields w hc (al_waddr h) (al_magic_write h) ->
  exists h', v3d_qpu_mul_unpack w old = Some h' /\ half_same false nsrc (al_waddr h) h h'.
Proof.
  intros Hok (desc & Hl & Hop & Hmodes) (F1 & F2 & F3 & F4 & F5).
  destruct (Hmodes (al_b_unpack old)) as (au & bu & Hm & Hs).
  unfold v3d_qpu_mul_unpack. rewrite !GET_spec by lia.
  change (63 - 58 + 1) with 6. change (20 - 18 + 1) with 3. change (23 - 21 + 1) with 3.
  change (43 - 38 + 1) with 6. rewrite F1, F2, F3, F4, Hl. cbn [mbind option_bind].
  rewrite Hop, Hm. cbn [mbind option_bind]. eexists. split; [reflexivity|].
  pose proof (ho_waddr h Hok). split; cbn; try done.
  - by rewrite u8_small6.
  - apply magic_bit; [lia|done].
Qed.

(** Exactly what an ALU instruction decodes to. *)
Record alu_same (i i' : v3d_qpu_instr) : Prop := {
  as_type : in_type i' = V3D_QPU_INSTR_TYPE_ALU;
  as_sig : in_sig i' = in_sig i;
  as_raddr_a : in_raddr_a i' = in_raddr_a i;
  as_raddr_b : in_raddr_b i' = in_raddr_b i;
  as_flags : in_flags i' = in_flags i;
  as_add : exists nsrc, v3d_qpu_add_op_num_src (al_op (alu_add (in_alu i))) = Some nsrc /\
    half_same (is_commutative (al_op (alu_add (in_alu i)))) nsrc (add_waddr (alu_add (in_alu i)))
      (alu_add (in_alu i)) (alu_add (in_alu i'));
  as_mul : exists nsrc, v3d_qpu_mul_op_num_src (al_op (alu_mul (in_alu i))) = Some nsrc /\
    half_same false nsrc (al_waddr (alu_mul (in_alu i)))
      (alu_mul (in_alu i)) (alu_mul (in_alu i')) }.

(** The instructions whose encoding keeps everything. *)
Definition mul_keeps (mul : alu_half) : bool :=
  match v3d_qpu_mul_op_num_src (al_op mul) with
  | Some nsrc => mul_lossless nsrc mul
  | None => false
  end.

Definition alu_lossless (i : v3d_qpu_instr) : bool :=
  negb (ucb (in_sig i)) && negb (rotate (in_sig i)) && negb (both_conds (in_flags i))
  && add_lossless (alu_add (in_alu i)) && mul_keeps (alu_mul (in_alu i)).

Lemma sig_keeps s k :
  v3d_qpu_sig_pack s = Some k -> ucb s = false -> rotate s = false -> sig_second_byte_only k = false.
Proof.
  intros [_ Hg]%sig_pack_spec Hu Hr. unfold sig_second_byte_only.
  destruct (Z.eqb_spec k 22) as [->|]; [vm_compute in Hg; by injection Hg as <-|].
  destruct (Z.eqb_spec k 23) as [->|]; [vm_compute in Hg; by injection Hg as <-|]. done.
Qed.

Lemma mul_code_num_src h nsrc hc :
  mul_code_of h = Some (nsrc, hc) -> v3d_qpu_mul_op_num_src (al_op h) = Some nsrc.
Proof.
  unfold mul_code_of. destruct (v3d_qpu_mul_op_num_src (al_op h)) as [n|]; [|done].
  cbn [mbind option_bind]. destruct (find_op _ _); [|done]. cbn [mbind option_bind].
  destruct (op_muxes _ _ _ _). destruct (mul_pack_modes _ _ _ _); [|done]. by intros [= -> _].
Qed.

(** Taking a packed ALU instruction apart. *)
Lemma alu_code_fields i w :
  alu_ok i -> alu_code i = Some w ->
  exists sig na a nm m flags,
    v3d_qpu_sig_pack (in_sig i) = Some sig /\ add_code_of (alu_add (in_alu i)) = Some (na, a) /\
    mul_code_of (alu_mul (in_alu i)) = Some (nm, m) /\
    v3d_qpu_flags_pack (in_flags i) = Some flags /\
    get w 53 5 = sig /\ get w 6 6 = in_raddr_a i /\ get w 0 6 = in_raddr_b i /\ get w 46 7 = flags /\
    add_fields w a (add_waddr (alu_add (in_alu i))) (al_magic_write (alu_add (in_alu i))) /\
    mul_fields w m (al_waddr (alu_mul (in_alu i))) (al_magic_write (alu_mul (in_alu i))) /\
    mul_code_range m /\ 0 <= w < 2 ^ 64.
Proof.
  intros [Ht Hra Hrb Hfl Ha Hao Hm Hmo] Hc. unfold alu_code in Hc.
  destruct (v3d_qpu_sig_pack (in_sig i)) as [sig|] eqn:Hs; [|done]. cbn [mbind option_bind] in Hc.
  destruct (add_code_of _) as [[na a]|] eqn:Hac; [|done]. cbn [mbind option_bind] in Hc.
  destruct (mul_code_of _) as [[nm m]|] eqn:Hmc; [|done]. cbn [mbind option_bind] in Hc.
  destruct (v3d_qpu_flags_pack _) as [fl|] eqn:Hf; [|done]. cbn [mbind option_bind] in Hc.
  injection Hc as <-. exists sig, na, a, nm, m, fl.
  destruct (sig_pack_spec _ _ Hs) as [Hsig _]. destruct (flags_roundtrip _ _ Hfl Hf) as [Hfr _].
  destruct (add_code_facts _ _ _ Ha Hac) as (_ & (A1 & A2 & A3) & _).
  destruct (mul_half_decodes _ _ _ Hm Hmc) as ((M1 & M2 & M3) & _).
  pose proof (add_waddr_range _ Ha). pose proof (ho_waddr _ Hm).
  do 4 (split; [done|]). unfold add_fields, mul_fields.
  destruct (alu_word_fields sig (in_raddr_a i) (in_raddr_b i) (hc_mux_a a) (hc_mux_b a) (hc_opcode a)
    (add_waddr (alu_add (in_alu i))) (al_magic_write (alu_add (in_alu i))) (hc_mux_a m) (hc_mux_b m)
    (hc_opcode m) (al_waddr (alu_mul (in_alu i))) (al_magic_write (alu_mul (in_alu i))) fl)
    as (?&?&?&?&?&?&?&?&?&?&?&?&?&?); try lia.
  do 4 (split; [done|]). split; [done|]. split; [done|]. split; [done|].
  apply alu_word_range; lia.
Qed.

Lemma unpack_alu_parts w old sig flags add mul :
  QPU_GET_FIELD w 63 58 <> 0 ->
  v3d_qpu_sig_unpack (QPU_GET_FIELD w 57 53) (in_sig old) = (sig, true) ->
  v3d_qpu_flags_unpack (QPU_GET_FIELD w 52 46) = Some (flags, true) ->
  v3d_qpu_add_unpack w (alu_add (in_alu old)) = Some add ->
  v3d_qpu_mul_unpack w (alu_mul (in_alu old)) = Some mul ->
  v3d_qpu_instr_unpack w old =
    Some (V3dQpuInstr V3D_QPU_INSTR_TYPE_ALU sig (u8 (QPU_GET_FIELD w 11 6))
            (u8 (QPU_GET_FIELD w 5 0)) flags (V3dQpuAlu add mul) (in_branch old)).
Proof.
  intros Hop Hs Hf Ha Hm. unfold v3d_qpu_instr_unpack. apply Z.eqb_neq in Hop. rewrite Hop.
  cbn [negb]. unfold v3d_qpu_instr_unpack_alu. rewrite Hs, Hf, Ha, Hm. reflexivity.
Qed.

Lemma unpack_alu_spec i w old :
  alu_ok i -> alu_lossless i = true -> alu_code i = Some w ->
  exists i', v3d_qpu_instr_unpack w old = Some i' /\ alu_same i i'.
Proof.
  intros Hok Hl Hc. destruct (alu_code_fields i w Hok Hc) as
    (sig & na & a & nm & m & fl & Hs & Ha & Hm & Hf & F1 & F2 & F3 & F4 & Fa & Fm & Hmr & _).
  unfold alu_lossless in Hl. rewrite !andb_true_iff, !negb_true_iff in Hl.
  destruct Hl as [[[[Hu Hr] Hb] Hal] Hml].
  destruct Hok as [Ht Hra Hrb Hfl Hadd Hao Hmul Hmo].
  destruct (add_code_facts _ _ _ Hadd Ha) as (Hna & _ & Hdec). specialize (Hdec Hal).
  destruct (mul_half_decodes _ _ _ Hmul Hm) as (_ & Hmdec).
  pose proof (mul_code_num_src _ _ _ Hm) as Hnm. unfold mul_keeps in Hml. rewrite Hnm in Hml.
  specialize (Hmdec Hml). destruct (flags_roundtrip _ _ Hfl Hf) as [Hfr Hfu].
  destruct (add_unpack_fields w _ na a (alu_add (in_alu old)) Hadd Hdec Fa) as (add' & Eadd & Sadd).
  destruct (mul_unpack_fields w _ nm m (alu_mul (in_alu old)) Hmul Hmdec Fm) as (mul' & Emul & Smul).
  destruct Fm as (_ & _ & Fop & _). destruct Hmr as [Hmr _].
  eexists. split.
  - apply (unpack_alu_parts w old (in_sig i) (in_flags i) add' mul'); [| | |exact Eadd|exact Emul];
      rewrite GET_spec by lia.
    + change (63 - 58 + 1) with 6. lia.
    + change (57 - 53 + 1) with 5. rewrite F1. exact (sig_roundtrip _ _ _ Hs (sig_keeps _ _ Hs Hu Hr)).
    + change (52 - 46 + 1) with 7. rewrite F4. exact (Hfu Hb).
  - split; cbn [in_type in_sig in_raddr_a in_raddr_b in_flags in_alu alu_add alu_mul];
      [done|done| | |done|eauto|eauto]; rewrite GET_spec by lia.
    + change (11 - 6 + 1) with 6. rewrite F2. by apply u8_small6.
    + change (5 - 0 + 1) with 6. rewrite F3. by apply u8_small6.
Qed.

(** ** Branch instructions *)

Record branch_ok (i : v3d_qpu_instr) : Prop := {
  bo_type : in_type i = V3D_QPU_INSTR_TYPE_BRANCH;
  bo_cond : 0 <= br_cond (in_branch i) <= V3D_QPU_BRANCH_COND_ALLNA;
  bo_msfign : 0 <= br_msfign (in_branch i) <= 2;
  bo_bdi : 0 <= br_bdi (in_branch i) <= V3D_QPU_BRANCH_DEST_REGFILE;
  bo_bdu : 0 <= br_bdu (in_branch i) <= V3D_QPU_BRANCH_DEST_REGFILE;
  bo_raddr_a : 0 <= br_raddr_a (in_branch i) < 64;
  bo_offset : 0 <= br_offset (in_branch i) < 2 ^ 32 }.

Definition stores_offset (b : v3d_qpu_branch_instr) : bool :=
  (br_bdi b =? V3D_QPU_BRANCH_DEST_ABS) || (br_bdi b =? V3D_QPU_BRANCH_DEST_REL).

Definition stores_raddr (b : v3d_qpu_branch_instr) : bool :=
  stores_offset b || (br_bdi b =? V3D_QPU_BRANCH_DEST_REGFILE).

Definition branch_word (cond msfign bdi bdu : Z) (ub : bool) (low high raddr : Z) : Z :=
  Z.lor (Z.lor (Z.lor (Z.lor (Z.lor (Z.lor (Z.lor (Z.lor (Z.lor 0
    (Z.shiftl 16 53)) (Z.shiftl cond 32)) (Z.shiftl msfign 21)) (Z.shiftl bdi 12))
    (Z.shiftl (Z.b2z ub) 14)) (Z.shiftl bdu 15)) (Z.shiftl low 35)) (Z.shiftl high 24))
    (Z.shiftl raddr 6).

Definition branch_cond_code (cond : Z) : Z :=
  if cond =? V3D_QPU_BRANCH_COND_ALWAYS then 0 else cond + 1.

(** The parts of the offset: bits 3 to 23 and bits 24 to 31. *)
Definition offset_low (offset : Z) : Z := Z.shiftr (Z.land offset (u32 (Z.lnot 4278190080))) 3.
Definition offset_high (offset : Z) : Z := Z.shiftr offset 24.

Definition branch_code (b : v3d_qpu_branch_instr) : Z :=
  branch_word (branch_cond_code (br_cond b)) (br_msfign b) (br_bdi b)
    (if br_ub b then br_bdu b else 0) (br_ub b)
    (if stores_offset b then offset_low (br_offset b) else 0)
    (if stores_offset b then offset_high (br_offset b) else 0)
    (if stores_raddr b then br_raddr_a b else 0).

Lemma offset_parts o :
  0 <= o < 2 ^ 32 ->
  offset_low o = o mod 2 ^ 24 / 8 /\ offset_high o = o / 2 ^ 24 /\
  0 <= offset_low o < 2 ^ 21 /\ 0 <= offset_high o < 2 ^ 8.
Proof.
  intros Ho. unfold offset_low, offset_high.
  change (u32 (Z.lnot 4278190080)) with (Z.ones 24). rewrite Z.land_ones, !Z.shiftr_div_pow2 by lia.
  change (2 ^ 3) with 8. pose proof (Z.mod_pos_bound o (2 ^ 24)).
  split; [done|]. split; [done|]. split.
  - split; [apply Z.div_pos; lia|]. apply Z.div_lt_upper_bound; lia.
  - split; [apply Z.div_pos; lia|]. apply Z.div_lt_upper_bound; lia.
Qed.

Lemma pack_branch_spec i : branch_ok i -> v3d_qpu_instr_pack i = Some (Some (branch_code (in_branch i))).
Proof.
  intros [Ht Hc Hms Hbdi Hbdu Hra Ho]. unfold v3d_qpu_instr_pack. rewrite Ht.
  cbn [Z.eqb V3D_QPU_INSTR_TYPE_BRANCH V3D_QPU_INSTR_TYPE_ALU].
  unfold v3d_qpu_instr_pack_branch. generalize dependent (in_branch i). intros b **.
  fold (stores_offset b) (offset_low (br_offset b)) (offset_high (br_offset b)).
  unfold V3D_QPU_BRANCH_COND_ALLNA, V3D_QPU_BRANCH_DEST_REGFILE in *.
  rewrite or_field_spec by lia. cbn [mbind option_bind].
  set (w0 := Z.lor 0 (Z.shiftl 16 53)).
  assert ((if negb (br_cond b =? V3D_QPU_BRANCH_COND_ALWAYS)
    then or_field w0 (2 + (br_cond b - V3D_QPU_BRANCH_COND_A0)) 34 32 else Some w0)
    = Some (Z.lor w0 (Z.shiftl (branch_cond_code (br_cond b)) 32))) as ->.
  { unfold branch_cond_code, V3D_QPU_BRANCH_COND_ALWAYS, V3D_QPU_BRANCH_COND_A0.
    destruct (Z.eqb_spec (br_cond b) 0); cbn [negb]; [by rewrite Z.shiftl_0_l, Z.lor_0_r|].
    rewrite or_field_spec by lia. do 3 f_equal. lia. }
  cbn [mbind option_bind]. rewrite or_field_spec by lia. cbn [mbind option_bind].
  rewrite or_field_spec by lia. cbn [mbind option_bind].
  set (w1 := Z.lor (Z.lor (Z.lor w0 _) _) _).
  assert ((if br_ub b then or_field (Z.lor w1 (QPU_MASK 14 14)) (br_bdu b) 17 15 else Some w1)
    = Some (Z.lor (Z.lor w1 (Z.shiftl (Z.b2z (br_ub b)) 14))
              (Z.shiftl (if br_ub b then br_bdu b else 0) 15))) as ->.
  { destruct (br_ub b); [|by rewrite !Z.shiftl_0_l, !Z.lor_0_r].
    rewrite or_field_spec by lia. by rewrite mask_spec by lia. }
  cbn [mbind option_bind]. destruct (offset_parts _ Ho) as (_ & _ & Hlo & Hhi).
  unfold branch_code, stores_raddr, branch_word, V3D_QPU_BRANCH_DEST_REGFILE. fold w0.
  change (Z.lor (Z.lor (Z.lor w0 (Z.shiftl (branch_cond_code (br_cond b)) 32))
    (Z.shiftl (br_msfign b) 21)) (Z.shiftl (br_bdi b) 12)) with w1.
  destruct (stores_offset b); cbn [orb].
  - rewrite or_field_spec by lia. cbn [mbind option_bind]. rewrite or_field_spec by lia.
    cbn [mbind option_bind]. rewrite or_field_spec by lia. cbn [mbind option_bind].
    rewrite or_field_spec by lia. cbn [mbind option_bind]. do 2 f_equal. subst w1.
    apply Z.bits_inj'. intros k _. rewrite !Z.lor_spec. btauto.
  - destruct (br_bdi b =? 3); [rewrite or_field_spec by lia; cbn [mbind option_bind]|];
      by rewrite ?Z.shiftl_0_l, ?Z.lor_0_r.
Qed.

(** The low part of the offset reaches into the low bits of the signal field. *)
Lemma sig_overlap low :
  0 <= low < 2 ^ 21 -> Z.land (Z.lor 16 (get (Z.shiftl low 35) 53 5)) 24 = 16.
Proof.
  intros Hl. unfold get. rewrite Z.shiftr_shiftl_r by lia. change (53 - 35) with 18.
  rewrite Z.shiftr_div_pow2, Z.land_ones by lia.
  assert (0 <= low / 2 ^ 18 < 8) as Hy
    by (split; [apply Z.div_pos; lia|apply Z.div_lt_upper_bound; lia]).
  revert Hy. generalize (low / 2 ^ 18). intros y Hy. rewrite Z.mod_small by lia.
  pose proof (in_eight y Hy) as Hin. cbn in Hin.
  repeat destruct Hin as [<-|Hin]; try done.
Qed.

Lemma branch_word_fields cond ms bdi bdu ub low high ra :
  let w := branch_word cond ms bdi bdu ub low high ra in
  0 <= cond < 2 ^ 3 -> 0 <= ms < 2 ^ 2 -> 0 <= bdi < 2 ^ 2 -> 0 <= bdu < 2 ^ 3 ->
  0 <= low < 2 ^ 21 -> 0 <= high < 2 ^ 8 -> 0 <= ra < 2 ^ 6 ->
  get w 58 6 = 0 /\ Z.land (get w 53 5) 24 = 16 /\ get w 32 3 = cond /\ get w 21 2 = ms /\ get w 12 2 = bdi /\
  get w 14 1 = Z.b2z ub /\ get w 15 3 = bdu /\ get w 35 21 = low /\ get w 24 8 = high /\
  get w 6 6 = ra /\ 0 <= w < 2 ^ 64.
Proof.
  intros w. intros. assert (0 <= Z.b2z ub < 2 ^ 1) by (destruct ub; cbn; lia).
  assert (0 <= 16 < 2 ^ 5) by lia. subst w. unfold branch_word.
  split; [read_field; done|]. split; [read_field; by apply sig_overlap|].
  do 8 (split; [read_field; done|]). word_bound.
Qed.

(** What a branch decodes to. *)
Record branch_same (b b' : v3d_qpu_branch_instr) : Prop := {
  bs_cond : br_cond b' = br_cond b;
  bs_msfign : br_msfign b' = br_msfign b;
  bs_bdi : br_bdi b' = br_bdi b;
  bs_ub : br_ub b' = br_ub b;
  bs_bdu : br_ub b = true -> br_bdu b' = br_bdu b;
  bs_offset : br_offset b' = if stores_offset b then br_offset b - br_offset b mod 8 else 0;
  bs_raddr : br_raddr_a b' = if stores_raddr b then br_raddr_a b else 0 }.

Lemma offset_join low high :
  0 <= low < 2 ^ 21 -> 0 <= high < 2 ^ 8 ->
  u32 (u32 (0 + u32 (Z.shiftl low 3)) + u32 (Z.shiftl high 24)) = low * 8 + high * 2 ^ 24.
Proof.
  intros Hl Hh. rewrite !Z.shiftl_mul_pow2 by lia.
  assert (2 ^ 3 = 8 /\ 2 ^ 24 = 16777216 /\ 2 ^ 21 = 2097152 /\ 2 ^ 8 = 256) as (E1 & E2 & E3 & E4)
    by (vm_compute; auto). rewrite E1, E2, E3, E4 in *.
  unfold u32. change (2 ^ 32) with 4294967296.
  rewrite (Z.mod_small (low * 8)), (Z.mod_small (high * 16777216)) by lia.
  rewrite Z.add_0_l, (Z.mod_small (low * 8)) by lia. apply Z.mod_small. lia.
Qed.

Lemma offset_split o : 0 <= o < 2 ^ 32 -> offset_low o * 8 + offset_high o * 2 ^ 24 = o - o mod 8.
Proof.
  intros Ho. destruct (offset_parts o Ho) as (-> & -> & _ & _).
  change (2 ^ 24) with 16777216. Z.to_euclidean_division_equations; lia.
Qed.

Lemma branch_cond_decodes cond :
  0 <= cond <= 6 ->
  (if branch_cond_code cond =? 0 then Some V3D_QPU_BRANCH_COND_ALWAYS
   else if u32 (V3D_QPU_BRANCH_COND_A0 + (branch_cond_code cond - 2)) <=? V3D_QPU_BRANCH_COND_ALLNA
   then Some (u32 (V3D_QPU_BRANCH_COND_A0 + (branch_cond_code cond - 2))) else None) = Some cond.
Proof.
  intros H. assert (In cond eight) as Hin by (apply in_eight; lia). cbn in Hin.
  repeat destruct Hin as [<-|Hin]; try done; lia.
Qed.

Lemma unpack_branch_spec i old :
  branch_ok i ->
  0 <= branch_code (in_branch i) < 2 ^ 64 /\
  exists i', v3d_qpu_instr_unpack (branch_code (in_branch i)) old = Some i' /\
    in_type i' = V3D_QPU_INSTR_TYPE_BRANCH /\ branch_same (in_branch i) (in_branch i').
Proof.
  intros [Ht Hc Hms Hbdi Hbdu Hra Ho]. generalize dependent (in_branch i). intros b **.
  unfold V3D_QPU_BRANCH_COND_ALLNA, V3D_QPU_BRANCH_DEST_REGFILE in *.
  destruct (offset_parts _ Ho) as (_ & _ & Hlo & Hhi).
  assert (0 <= branch_cond_code (br_cond b) < 2 ^ 3) as Hcc
    by (unfold branch_cond_code; case_match; lia).
  unfold branch_code.
  destruct (branch_word_fields (branch_cond_code (br_cond b)) (br_msfign b) (br_bdi b)
    (if br_ub b then br_bdu b else 0) (br_ub b) (if stores_offset b then offset_low (br_offset b) else 0)
    (if stores_offset b then offset_high (br_offset b) else 0)
    (if stores_raddr b then br_raddr_a b else 0))
    as (F1 & F2 & F3 & F4 & F5 & F6 & F7 & F8 & F9 & F10 & F11); try (case_match; lia); try lia.
  split; [exact F11|]. clear F11. generalize dependent (branch_word (branch_cond_code (br_cond b))
    (br_msfign b) (br_bdi b) (if br_ub b then br_bdu b else 0) (br_ub b)
    (if stores_offset b then offset_low (br_offset b) else 0)
    (if stores_offset b then offset_high (br_offset b) else 0)
    (if stores_raddr b then br_raddr_a b else 0)). intros w **.
  unfold v3d_qpu_instr_unpack. rewrite !GET_spec by lia.
  change (63 - 58 + 1) with 6. change (57 - 53 + 1) with 5. rewrite F1, F2.
  cbn [negb Z.eqb Pos.eqb]. cbv iota.
  unfold v3d_qpu_instr_unpack_branch. rewrite !GET_spec by lia.
  change (34 - 32 + 1) with 3. change (22 - 21 + 1) with 2. change (13 - 12 + 1) with 2.
  change (17 - 15 + 1) with 3. change (11 - 6 + 1) with 6. change (55 - 35 + 1) with 21.
  change (31 - 24 + 1) with 8. rewrite F3, F4, F5, F7, F8, F9, F10, (magic_bit w (br_ub b)) by (lia || done).
  rewrite branch_cond_decodes by lia. cbn [mbind option_bind].
  destruct (Z.eqb_spec (br_msfign b) 3); [lia|]. eexists. split; [reflexivity|]. split; [reflexivity|].
  split; cbn [in_branch br_cond br_msfign br_bdi br_ub br_bdu br_offset br_raddr_a]; try done.
  - intros ->. done.
  - destruct (stores_offset b); [|reflexivity]. rewrite offset_join by done. by apply offset_split.
  - apply u8_small6. destruct (stores_raddr b); lia.
Qed.

(** ** Encodings that lose information *)

(** The entries of the signal table other than 22 and 23 have neither signal. *)
Lemma sig_of_entry s k :
  array_get v33_sig_map k = Some s -> sig_second_byte_only k = false ->
  ucb s = false /\ rotate s = false.
Proof.
  intros Hg Hk. pose proof (array_get_lt _ _ _ Hg) as Hr. cbn [length v33_sig_map] in Hr.
  assert (forallb (fun k => sig_second_byte_only k || match array_get v33_sig_map k with
    | Some s => negb (ucb s) && negb (rotate s) | None => false end) (zrange 0 32) = true)
    as Hall by (vm_compute; reflexivity).
  rewrite forallb_forall in Hall.
  specialize (Hall k ltac:(apply list_elem_of_In, elem_of_zrange; lia)).
  rewrite Hk, Hg in Hall. apply andb_prop in Hall as [?%negb_true_iff ?%negb_true_iff]. done.
Qed.

(** What flags decode to after packing. *)
Definition flags_decoded (f : v3d_qpu_flags) : v3d_qpu_flags :=
  if both_conds f
  then V3dQpuFlags V3D_QPU_COND_NONE (mc f) V3D_QPU_PF_NONE V3D_QPU_PF_NONE
         (V3D_QPU_UF_ANDZ + 4 * (ac f - V3D_QPU_COND_IFB)) V3D_QPU_UF_NONE
  else f.

Lemma flags_both_conds f p :
  flags_ok f -> v3d_qpu_flags_pack f = Some p -> both_conds f = true ->
  v3d_qpu_flags_unpack p =
    Some (V3dQpuFlags V3D_QPU_COND_NONE (mc f) V3D_QPU_PF_NONE V3D_QPU_PF_NONE
            (V3D_QPU_UF_ANDZ + 4 * (ac f - V3D_QPU_COND_IFB)) V3D_QPU_UF_NONE, true).
Proof.
  intros [H1 H2 H3 H4 H5 H6] Hp Hb. destruct f as [a m pa pm ua um]. cbn [ac mc apf mpf auf muf] in *.
  unfold both_conds, V3D_QPU_COND_NONE, V3D_QPU_COND_IFA in Hb. cbn [ac mc] in Hb.
  unfold V3D_QPU_COND_IFNB in *.
  destruct (Z.eqb_spec m 0), (Z.eqb_spec a 0), (Z.eqb_spec a 1); try done.
  destruct (row_bits (flags_present (V3dQpuFlags a m pa pm ua um)) flags_table) as [r|] eqn:Hr;
    [|unfold v3d_qpu_flags_pack in Hp; by rewrite flags_pack_loop_row, Hr in Hp].
  unfold flags_present in Hr. cbn [ac mc apf mpf auf muf] in Hr.
  unfold V3D_QPU_COND_NONE, V3D_QPU_PF_NONE, V3D_QPU_UF_NONE in Hr.
  destruct (Z.eqb_spec a 0); [done|]. destruct (Z.eqb_spec m 0); [done|].
  destruct (Z.eqb_spec pa 0) as [->|], (Z.eqb_spec pm 0) as [->|], (Z.eqb_spec ua 0) as [->|],
    (Z.eqb_spec um 0) as [->|]; try (exfalso; vm_compute in Hr; discriminate Hr). clear Hr.
  each_value a; try done; each_value m; vm_compute in Hp; injection Hp as <-; reflexivity.
Qed.

Definition with_a_unpack (h : alu_half) (u : Z) : alu_half :=
  AluHalf (al_op h) (al_a h) (al_b h) (al_waddr h) (al_magic_write h) (al_output_pack h) u
    (al_b_unpack h).

Lemma round_low_high add desc ma mb :
  is_round_op (al_op add) || is_ftoi_op (al_op add) = true ->
  find_op add_ops (al_op add) = Some desc ->
  add_pack_modes (with_a_unpack add V3D_QPU_UNPACK_L) (opcode_first desc) ma mb =
  add_pack_modes (with_a_unpack add V3D_QPU_UNPACK_H) (opcode_first desc) ma mb.
Proof.
  intros Hop Hf.
  assert (Z.testbit (opcode_first desc) 2 = true) as Hbit.
  { unfold is_round_op, is_ftoi_op in Hop. rewrite !orb_true_iff, !Z.eqb_eq in Hop.
    decompose [or] Hop; match goal with H : al_op add = _ |- _ => rewrite H in Hf end;
    vm_compute in Hf; injection Hf as <-; reflexivity. }
  assert (Z.lor (opcode_first desc) (Z.shiftl 2 2) = Z.lor (opcode_first desc) (Z.shiftl 3 2)) as E.
  { change (Z.shiftl 3 2) with (Z.lor (Z.shiftl 2 2) (2 ^ 2)). rewrite Z.lor_assoc.
    apply Z.bits_inj'. intros k Hk. rewrite (Z.lor_spec _ (2 ^ 2)), Z.pow2_bits_eqb by lia.
    destruct (Z.eqb_spec 2 k) as [<-|]; [|by rewrite orb_false_r].
    by rewrite Z.lor_spec, Hbit. }
  unfold add_pack_modes.
  cbn [al_op al_output_pack al_a_unpack al_b_unpack with_a_unpack].
  destruct (is_float32_op (al_op add)) eqn:E32.
  - exfalso. unfold is_float32_op, is_round_op, is_ftoi_op in *.
    rewrite !orb_true_iff, !Z.eqb_eq in *.
    decompose [or] E32; match goal with H : al_op add = _ |- _ => rewrite H in Hop end;
      vm_compute in Hop; intuition discriminate.
  - change (v3d_qpu_float32_unpack_pack V3D_QPU_UNPACK_L) with (Some 2).
    change (v3d_qpu_float32_unpack_pack V3D_QPU_UNPACK_H) with (Some 3). cbn [mbind option_bind].
    rewrite E. destruct (is_round_op (al_op add)); [done|]. cbn [orb] in Hop. by rewrite Hop.
Qed.
