(* ===== verification/QpuTheorems.v ===== *)
(** * Correctness of the QPU instruction encoding

    Round trips of ALU and branch instructions, absence of assertion failures, the
    exact round trips of signals and flags, and the encodings that lose
    information. *)
From S2P Require Import Prelude Bitset QpuInstr QpuPack QpuFields QpuCorrect QpuMul QpuWord.

(** C18: an ALU instruction whose members are in range and whose encoding loses nothing
    is given back by unpacking what packing produced, whatever the instruction
    structure held before: same signals, read addresses, flags, and for both halves the
    same operation, write address, magic bit, output modifier and used sources with
    their modifiers (exchanged at most for FADD, FADDNF, FMIN and FMAX). *)
Theorem qpu_alu_roundtrip i w old :
  alu_ok i -> alu_lossless i = true -> v3d_qpu_instr_pack i = Some (Some w) ->
  exists i', v3d_qpu_instr_unpack w old = Some i' /\ alu_same i i'.
Proof.
  intros Hok Hl Hp. rewrite pack_alu_spec in Hp by done. injection Hp as Hp.
  by apply unpack_alu_spec.
Qed.

Definition zero_half : alu_half := AluHalf 0 0 0 0 false 0 0 0.
Definition zero_branch : v3d_qpu_branch_instr := V3dQpuBranch 0 0 0 0 false 0 0.
Definition zero_instr : v3d_qpu_instr :=
  V3dQpuInstr 0 no_sig 0 0 (V3dQpuFlags 0 0 0 0 0 0) (V3dQpuAlu zero_half zero_half) zero_branch.

(** fmax (exchanged sources in the encoding) with fmul, both with modifiers. *)
Definition sample_alu : v3d_qpu_instr :=
  V3dQpuInstr V3D_QPU_INSTR_TYPE_ALU
    (mk_sig true true false false false false false false false false) 17 42
    (V3dQpuFlags V3D_QPU_COND_IFB 0 0 V3D_QPU_PF_PUSHN 0 0)
    (V3dQpuAlu
       (AluHalf V3D_QPU_A_FMAX 2 5 33 true V3D_QPU_PACK_L V3D_QPU_UNPACK_ABS V3D_QPU_UNPACK_H)
       (AluHalf V3D_QPU_M_FMUL 6 1 12 false V3D_QPU_PACK_H V3D_QPU_UNPACK_L V3D_QPU_UNPACK_NONE))
    zero_branch.

Lemma sample_alu_ok : alu_ok sample_alu.
Proof. by repeat split. Qed.

Definition sample_alu_word : Z :=
  match v3d_qpu_instr_pack sample_alu with Some (Some w) => w | _ => 0 end.

Lemma qpu_alu_roundtrip_witness :
  exists i', v3d_qpu_instr_unpack sample_alu_word zero_instr = Some i' /\ alu_same sample_alu i'.
Proof.
  apply (qpu_alu_roundtrip sample_alu sample_alu_word zero_instr sample_alu_ok);
    vm_compute; reflexivity.
Defined.

(** C19: every branch instruction with members in range is packed, into 64 bits, and
    unpacks to the same condition, multisample mode, destination kinds and uniform
    branch; the offset comes back rounded down to a multiple of 8 where the destination
    uses it, and the register where it uses one. *)
Theorem qpu_branch_roundtrip i old :
  branch_ok i ->
  exists w i', v3d_qpu_instr_pack i = Some (Some w) /\ 0 <= w < 2 ^ 64 /\
    v3d_qpu_instr_unpack w old = Some i' /\ in_type i' = V3D_QPU_INSTR_TYPE_BRANCH /\
    branch_same (in_branch i) (in_branch i').
Proof.
  intros Hok. destruct (unpack_branch_spec i old Hok) as (Hr & i' & Hu & Ht & Hs).
  exists (branch_code (in_branch i)), i'. by rewrite pack_branch_spec.
Qed.

Definition sample_branch : v3d_qpu_instr :=
  V3dQpuInstr V3D_QPU_INSTR_TYPE_BRANCH no_sig 0 0 (V3dQpuFlags 0 0 0 0 0 0)
    (V3dQpuAlu zero_half zero_half)
    (V3dQpuBranch V3D_QPU_BRANCH_COND_ANYNA V3D_QPU_MSFIGN_Q V3D_QPU_BRANCH_DEST_REL
       V3D_QPU_BRANCH_DEST_ABS true 9 4294967208).

Lemma qpu_branch_roundtrip_witness :
  exists w i', v3d_qpu_instr_pack sample_branch = Some (Some w) /\ 0 <= w < 2 ^ 64 /\
    v3d_qpu_instr_unpack w zero_instr = Some i' /\ in_type i' = V3D_QPU_INSTR_TYPE_BRANCH /\
    branch_same (in_branch sample_branch) (in_branch i').
Proof. apply (qpu_branch_roundtrip sample_branch zero_instr). by repeat split. Defined.

(** C20: packing an ALU instruction whose members are in range never fails an assertion
    of [QPU_SET_FIELD] nor reads a table out of bounds: it returns false or a word of 64
    bits, even for the combinations it cannot represent faithfully. *)
Theorem qpu_pack_never_asserts i :
  alu_ok i -> exists r, v3d_qpu_instr_pack i = Some r /\ forall w, r = Some w -> 0 <= w < 2 ^ 64.
Proof.
  intros Hok. exists (alu_code i). rewrite pack_alu_spec by done. split; [done|].
  intros w Hw. destruct (alu_code_fields i w Hok Hw) as (?&?&?&?&?&?&?&?&?&?&?&?&?&?&?&?&?&?). done.
Qed.

Lemma qpu_pack_never_asserts_witness :
  exists r, v3d_qpu_instr_pack sample_alu = Some r /\ forall w, r = Some w -> 0 <= w < 2 ^ 64.
Proof. apply (qpu_pack_never_asserts sample_alu sample_alu_ok). Defined.

(** A signal combination that packs is given back by unpacking, which accepts it
    unless it is the uniform cache or the rotate signal: these two, which packing
    accepts, are always refused. *)
Theorem qpu_sig_roundtrip s k old :
  v3d_qpu_sig_pack s = Some k ->
  v3d_qpu_sig_unpack k old = (s, negb (ucb s || rotate s)).
Proof.
  intros Hp. destruct (sig_pack_spec s k Hp) as [Hk Hg].
  destruct (sig_second_byte_only k) eqn:E.
  - unfold sig_second_byte_only in E. apply orb_true_iff in E as [->%Z.eqb_eq| ->%Z.eqb_eq];
      vm_compute in Hg; injection Hg as <-; reflexivity.
  - rewrite (sig_roundtrip s k old Hp E). f_equal. symmetry.
    apply negb_true_iff, orb_false_iff. by apply (sig_of_entry s k).
Qed.

Lemma qpu_sig_roundtrip_witness :
  v3d_qpu_sig_unpack 13 no_sig =
    (mk_sig true false true true false false false false false false, negb (false || false)).
Proof.
  apply (qpu_sig_roundtrip (mk_sig true false true true false false false false false false) 13).
  reflexivity.
Defined.

(** C22: what the flags of an instruction decode to. Every combination that packs is
    decoded, and to itself, except that with conditions on both halves a condition of
    the add half other than IFA is lost and comes back as a flags update. *)
Theorem qpu_flags_roundtrip f p :
  flags_ok f -> v3d_qpu_flags_pack f = Some p ->
  0 <= p < 128 /\ v3d_qpu_flags_unpack p = Some (flags_decoded f, true).
Proof.
  intros Hok Hp. destruct (flags_roundtrip f p Hok Hp) as [Hr Hu]. split; [done|].
  unfold flags_decoded. destruct (both_conds f) eqn:E; [|auto].
  by apply (flags_both_conds f p Hok).
Qed.

Lemma qpu_flags_roundtrip_witness :
  0 <= 68 < 128 /\
  v3d_qpu_flags_unpack 68 =
    Some (flags_decoded (V3dQpuFlags V3D_QPU_COND_IFB V3D_QPU_COND_IFA 0 0 0 0), true).
Proof.
  apply (qpu_flags_roundtrip (V3dQpuFlags V3D_QPU_COND_IFB V3D_QPU_COND_IFA 0 0 0 0) 68);
    [by repeat split|reflexivity].
Defined.

(** The rounding, derivative and conversion operations encode the unpack of the
    low half exactly as the unpack of the high half: the instruction that packs "low"
    is the one that reads "high". *)
Theorem qpu_round_low_is_high add w :
  is_round_op (al_op add) || is_ftoi_op (al_op add) = true ->
  v3d_qpu_add_pack (with_a_unpack add V3D_QPU_UNPACK_L) w =
  v3d_qpu_add_pack (with_a_unpack add V3D_QPU_UNPACK_H) w.
Proof.
  intros Hop. unfold v3d_qpu_add_pack. cbn [al_op al_a al_b al_waddr al_magic_write with_a_unpack].
  destruct (v3d_qpu_add_op_num_src (al_op add)) as [nsrc|]; [|done]. cbn [mbind option_bind].
  destruct (find_op add_ops (al_op add)) as [desc|] eqn:Hf; [|done].
  destruct (op_muxes desc nsrc (al_a add) (al_b add)) as [ma mb].
  by rewrite (round_low_high add desc ma mb Hop Hf).
Qed.

