(* ===== verification/Vc4Defines.v ===== *)
(** * VC4 shader instructions and bitmaps

    The enumerations and fields of a 64-bit VC4 QPU instruction
    ([src/gallium/drivers/vc4/vc4_qpu_defines.h]) and the kernel-style bitmaps of
    [vc4_simulator_validate.h].  [QPU_MASK] and [QPU_GET_FIELD] are the same macros
    as in [qpu_pack.c]; a field is given by its highest and lowest bit. *)
From S2P Require Import Prelude Bitset QpuPack.

(** Operations of the add unit *)
Definition QPU_A_NOP : Z := 0.
Definition QPU_A_ADD : Z := 12.
Definition QPU_A_MIN : Z := 18.
Definition QPU_A_MAX : Z := 19.

(** Read addresses *)
Definition QPU_R_FRAG_PAYLOAD_ZW : Z := 15.
Definition QPU_R_UNIF : Z := 32.
Definition QPU_R_VARY : Z := 35.
Definition QPU_R_ELEM_QPU : Z := 38.
Definition QPU_R_NOP : Z := 39.
Definition QPU_R_XY_PIXEL_COORD : Z := 41.
Definition QPU_R_MS_REV_FLAGS : Z := 42.
Definition QPU_R_VPM : Z := 48.
Definition QPU_R_VPM_LD_BUSY : Z := 49.
Definition QPU_R_VPM_LD_WAIT : Z := 50.
Definition QPU_R_MUTEX_ACQUIRE : Z := 51.

(** Write addresses *)
Definition QPU_W_ACC0 : Z := 32.
Definition QPU_W_ACC1 : Z := 33.
Definition QPU_W_ACC2 : Z := 34.
Definition QPU_W_ACC3 : Z := 35.
Definition QPU_W_TMU_NOSWAP : Z := 36.
Definition QPU_W_ACC5 : Z := 37.
Definition QPU_W_HOST_INT : Z := 38.
Definition QPU_W_NOP : Z := 39.
Definition QPU_W_UNIFORMS_ADDRESS : Z := 40.
Definition QPU_W_QUAD_XY : Z := 41.
Definition QPU_W_MS_FLAGS : Z := 42.
Definition QPU_W_REV_FLAG : Z := 42.
Definition QPU_W_TLB_STENCIL_SETUP : Z := 43.
Definition QPU_W_TLB_Z : Z := 44.
Definition QPU_W_TLB_COLOR_MS : Z := 45.
Definition QPU_W_TLB_COLOR_ALL : Z := 46.
Definition QPU_W_TLB_ALPHA_MASK : Z := 47.
Definition QPU_W_VPM : Z := 48.
Definition QPU_W_VPMVCD_SETUP : Z := 49.
Definition QPU_W_VPM_ADDR : Z := 50.
Definition QPU_W_MUTEX_RELEASE : Z := 51.
Definition QPU_W_SFU_RECIP : Z := 52.
Definition QPU_W_SFU_RECIPSQRT : Z := 53.
Definition QPU_W_SFU_EXP : Z := 54.
Definition QPU_W_SFU_LOG : Z := 55.
Definition QPU_W_TMU0_S : Z := 56.
Definition QPU_W_TMU0_T : Z := 57.
Definition QPU_W_TMU0_R : Z := 58.
Definition QPU_W_TMU0_B : Z := 59.
Definition QPU_W_TMU1_S : Z := 60.
Definition QPU_W_TMU1_T : Z := 61.
Definition QPU_W_TMU1_R : Z := 62.
Definition QPU_W_TMU1_B : Z := 63.

(** Signals *)
Definition QPU_SIG_SW_BREAKPOINT : Z := 0.
Definition QPU_SIG_NONE : Z := 1.
Definition QPU_SIG_THREAD_SWITCH : Z := 2.
Definition QPU_SIG_PROG_END : Z := 3.
Definition QPU_SIG_WAIT_FOR_SCOREBOARD : Z := 4.
Definition QPU_SIG_SCOREBOARD_UNLOCK : Z := 5.
Definition QPU_SIG_LAST_THREAD_SWITCH : Z := 6.
Definition QPU_SIG_COVERAGE_LOAD : Z := 7.
Definition QPU_SIG_COLOR_LOAD : Z := 8.
Definition QPU_SIG_COLOR_LOAD_END : Z := 9.
Definition QPU_SIG_LOAD_TMU0 : Z := 10.
Definition QPU_SIG_LOAD_TMU1 : Z := 11.
Definition QPU_SIG_ALPHA_MASK_LOAD : Z := 12.
Definition QPU_SIG_SMALL_IMM : Z := 13.
Definition QPU_SIG_LOAD_IMM : Z := 14.
Definition QPU_SIG_BRANCH : Z := 15.

(** Input muxes *)
Definition QPU_MUX_R0 : Z := 0.
Definition QPU_MUX_R1 : Z := 1.
Definition QPU_MUX_R2 : Z := 2.
Definition QPU_MUX_R3 : Z := 3.
Definition QPU_MUX_R4 : Z := 4.
Definition QPU_MUX_R5 : Z := 5.
Definition QPU_MUX_A : Z := 6.
Definition QPU_MUX_B : Z := 7.

(** Conditions *)
Definition QPU_COND_NEVER : Z := 0.
Definition QPU_COND_ALWAYS : Z := 1.

(** Packing *)
Definition QPU_PACK_A_NOP : Z := 0.

(** ** Fields *)

Definition QPU_SIG (inst : Z) : Z := QPU_GET_FIELD inst 63 60.
Definition QPU_PACK (inst : Z) : Z := QPU_GET_FIELD inst 55 52.
Definition QPU_COND_ADD (inst : Z) : Z := QPU_GET_FIELD inst 51 49.
Definition QPU_COND_MUL (inst : Z) : Z := QPU_GET_FIELD inst 48 46.
Definition QPU_WADDR_ADD (inst : Z) : Z := QPU_GET_FIELD inst 43 38.
Definition QPU_WADDR_MUL (inst : Z) : Z := QPU_GET_FIELD inst 37 32.
Definition QPU_RADDR_A (inst : Z) : Z := QPU_GET_FIELD inst 23 18.
Definition QPU_RADDR_B (inst : Z) : Z := QPU_GET_FIELD inst 17 12.
Definition QPU_ADD_A (inst : Z) : Z := QPU_GET_FIELD inst 11 9.
Definition QPU_ADD_B (inst : Z) : Z := QPU_GET_FIELD inst 8 6.
Definition QPU_OP_ADD (inst : Z) : Z := QPU_GET_FIELD inst 28 24.
Definition QPU_LOAD_IMM (inst : Z) : Z := QPU_GET_FIELD inst 31 0.
Definition QPU_BRANCH_TARGET (inst : Z) : Z := QPU_GET_FIELD inst 31 0.

Definition QPU_PM (inst : Z) : bool := negb (Z.land inst (Z.shiftl 1 56) =? 0).
Definition QPU_BRANCH_REL (inst : Z) : bool := negb (Z.land inst (Z.shiftl 1 51) =? 0).
Definition QPU_BRANCH_REG (inst : Z) : bool := negb (Z.land inst (Z.shiftl 1 50) =? 0).
Definition QPU_WS (inst : Z) : bool := negb (Z.land inst (Z.shiftl 1 44) =? 0).

(** ** Bitmaps of [unsigned long] *)

Definition BITMAP_WORDBITS : Z := 8 * 8.

(** [align] on [int], for powers of two [y]. *)
Definition roundup (x y : Z) : Z := Z.land (i32 x + y - 1) (Z.lnot (y - 1)).

(** The number of longs: divides by the size of a long in bytes. *)
Definition BITS_TO_LONGS (bits : Z) : Z := roundup bits BITMAP_WORDBITS / 8.

Definition test_bit (bit : Z) (addr : list Z) : option bool :=
  w ← array_get addr (bit / BITMAP_WORDBITS);
  Some (negb (Z.land w (Z.shiftl 1 (bit mod BITMAP_WORDBITS)) =? 0)).

Definition set_bit (bit : Z) (addr : list Z) : option (list Z) :=
  w ← array_get addr (bit / BITMAP_WORDBITS);
  array_set addr (bit / BITMAP_WORDBITS) (Z.lor w (Z.shiftl 1 (bit mod BITMAP_WORDBITS))).
