(* ===== verification/Vc4Shader.v ===== *)
(** * Validation of VC4 shaders ([src/gallium/drivers/vc4/kernel/vc4_validate_shaders.c])

    The functions of the source take pointers to the information collected about
    the shader and to the validation state; here both are in [st], with [mem], the
    number of allocations that still succeed (the first failing one ends validation,
    so this describes every pattern of failures).  A function that returns [bool]
    gives [Some (b, s)]; [None] is an access outside an array.  On failure the
    state reached is kept, as in the source, since the caller may go on with it. *)
From S2P Require Import Prelude Bitset QpuPack Vc4Defines.

Definition LIVE_REG_COUNT : Z := 32 + 32 + 4.

Record vc4_texture_sample_info := SampleInfo { is_direct : bool; p_offset : list Z }.

Record vc4_validated_shader_info := ShaderInfo {
  uniforms_size : Z; uniforms_src_size : Z; num_texture_samples : Z;
  texture_samples : list vc4_texture_sample_info;
  num_uniform_addr_offsets : Z; uniform_addr_offsets : list Z; is_threaded : bool }.

Record vc4_shader_validation_state := ValidationState {
  vs_ip : Z; max_ip : Z; shader : list Z;
  tmu_setup : list vc4_texture_sample_info; tmu_write_count : list Z;
  live_min_clamp_offsets : list Z; live_max_clamp_regs : list bool; live_immediates : list Z;
  branch_targets : list Z;
  needs_uniform_address_update : bool; needs_uniform_address_for_loop : bool;
  all_registers_used : bool }.

Record st := St {
  info : vc4_validated_shader_info; vs : vc4_shader_validation_state; mem : nat }.

(** ** Assignments to members *)

Definition set_info (s : st) (i : vc4_validated_shader_info) : st := St i (vs s) (mem s).
Definition set_vs (s : st) (v : vc4_shader_validation_state) : st := St (info s) v (mem s).

Definition add_uniforms (s : st) (n : Z) : st :=
  let i := info s in
  set_info s (ShaderInfo (u32 (uniforms_size i + n)) (uniforms_src_size i) (num_texture_samples i)
    (texture_samples i) (num_uniform_addr_offsets i) (uniform_addr_offsets i) (is_threaded i)).

Definition set_threaded (s : st) : st :=
  let i := info s in
  set_info s (ShaderInfo (uniforms_size i) (uniforms_src_size i) (num_texture_samples i)
    (texture_samples i) (num_uniform_addr_offsets i) (uniform_addr_offsets i) true).

Definition set_src_size (s : st) (n : Z) : st :=
  let i := info s in
  set_info s (ShaderInfo (uniforms_size i) n (num_texture_samples i)
    (texture_samples i) (num_uniform_addr_offsets i) (uniform_addr_offsets i) (is_threaded i)).

Definition set_ip (s : st) (ip : Z) : st :=
  let v := vs s in
  set_vs s (ValidationState ip (max_ip v) (shader v) (tmu_setup v) (tmu_write_count v)
    (live_min_clamp_offsets v) (live_max_clamp_regs v) (live_immediates v) (branch_targets v)
    (needs_uniform_address_update v) (needs_uniform_address_for_loop v) (all_registers_used v)).

Definition set_tmu (s : st) (setup : list vc4_texture_sample_info) (counts : list Z) : st :=
  let v := vs s in
  set_vs s (ValidationState (vs_ip v) (max_ip v) (shader v) setup counts
    (live_min_clamp_offsets v) (live_max_clamp_regs v) (live_immediates v) (branch_targets v)
    (needs_uniform_address_update v) (needs_uniform_address_for_loop v) (all_registers_used v)).

Definition set_live (s : st) (min_clamp : list Z) (max_clamp : list bool) (imm : list Z) : st :=
  let v := vs s in
  set_vs s (ValidationState (vs_ip v) (max_ip v) (shader v) (tmu_setup v) (tmu_write_count v)
    min_clamp max_clamp imm (branch_targets v)
    (needs_uniform_address_update v) (needs_uniform_address_for_loop v) (all_registers_used v)).

(** [needs_uniform_address_update], [needs_uniform_address_for_loop], [all_registers_used] *)
Definition set_needs (s : st) (update loop regs : bool) : st :=
  let v := vs s in
  set_vs s (ValidationState (vs_ip v) (max_ip v) (shader v) (tmu_setup v) (tmu_write_count v)
    (live_min_clamp_offsets v) (live_max_clamp_regs v) (live_immediates v) (branch_targets v)
    update loop regs).

Definition use_all_registers (s : st) : st :=
  set_needs s (needs_uniform_address_update (vs s)) (needs_uniform_address_for_loop (vs s)) true.

(** [tmu_setup[tmu].p_offset[k] = x] *)
Definition set_p_offset (s : st) (tmu k x : Z) : option st :=
  t ← array_get (tmu_setup (vs s)) tmu;
  p ← array_set (p_offset t) k x;
  setup ← array_set (tmu_setup (vs s)) tmu (SampleInfo (is_direct t) p);
  Some (set_tmu s setup (tmu_write_count (vs s))).

Definition set_is_direct (s : st) (tmu : Z) : option st :=
  t ← array_get (tmu_setup (vs s)) tmu;
  setup ← array_set (tmu_setup (vs s)) tmu (SampleInfo true (p_offset t));
  Some (set_tmu s setup (tmu_write_count (vs s))).

Definition set_write_count (s : st) (tmu n : Z) : option st :=
  counts ← array_set (tmu_write_count (vs s)) tmu n;
  Some (set_tmu s (tmu_setup (vs s)) counts).

(** ** Registers *)

Definition waddr_to_live_reg_index (waddr : Z) (is_b : bool) : Z :=
  if waddr <? 32 then (if is_b then 32 + waddr else waddr)
  else if waddr <=? QPU_W_ACC3 then u32 (64 + waddr - QPU_W_ACC0)
  else UINT_MAX.

Definition raddr_add_a_to_live_reg_index (inst : Z) : Z :=
  let sig := QPU_SIG inst in
  let add_a := QPU_ADD_A inst in
  let raddr_a := QPU_RADDR_A inst in
  let raddr_b := QPU_RADDR_B inst in
  if add_a =? QPU_MUX_A then raddr_a
  else if (add_a =? QPU_MUX_B) && negb (sig =? QPU_SIG_SMALL_IMM) then 32 + raddr_b
  else if add_a <=? QPU_MUX_R3 then 64 + add_a
  else UINT_MAX.

Definition live_reg_is_upper_half (lri : Z) : bool :=
  (16 <=? lri) && (lri <? 32) || (32 + 16 <=? lri) && (lri <? 32 + 32).

Definition is_tmu_submit (waddr : Z) : bool := (waddr =? QPU_W_TMU0_S) || (waddr =? QPU_W_TMU1_S).

Definition is_tmu_write (waddr : Z) : bool := (QPU_W_TMU0_S <=? waddr) && (waddr <=? QPU_W_TMU1_B).

(** The write address of the add or mul half. *)
Definition half_waddr (inst : Z) (is_mul : bool) : Z :=
  if is_mul then QPU_WADDR_MUL inst else QPU_WADDR_ADD inst.

(** The second argument of the add unit is a uniform. *)
Definition add_b_is_uniform (inst : Z) : bool :=
  (QPU_ADD_B inst =? QPU_MUX_A) && (QPU_RADDR_A inst =? QPU_R_UNIF)
  || (QPU_ADD_B inst =? QPU_MUX_B) && (QPU_RADDR_B inst =? QPU_R_UNIF).

(** ** Texture units *)

Definition reset_p_offsets (s : st) (tmu : Z) : option st :=
  foldM (fun s i => set_p_offset s tmu i UINT_MAX) s (zrange 0 4).

Definition record_texture_sample (s : st) (tmu : Z) : option (bool * st) :=
  let i := info s in
  let n := num_texture_samples i in
  match mem s with
  | O => Some (false, s)
  | S mem =>
    setup ← array_get (tmu_setup (vs s)) tmu;
    let i := ShaderInfo (uniforms_size i) (uniforms_src_size i) (u32 (n + 1))
      (take (Z.to_nat n) (texture_samples i) ++ [setup])
      (num_uniform_addr_offsets i) (uniform_addr_offsets i) (is_threaded i) in
    s ← reset_p_offsets (St i (vs s) mem) tmu;
    Some (true, s)
  end.

(** The checks of a direct memory read. *)
Definition check_direct_write (s : st) (inst : Z) (is_mul : bool) (tmu : Z)
    : option (bool * st) :=
  if QPU_SIG inst =? QPU_SIG_SMALL_IMM then Some (false, s)
  else if is_mul || negb (QPU_OP_ADD inst =? QPU_A_ADD) then Some (false, s)
  else
    let clamp_reg := raddr_add_a_to_live_reg_index inst in
    if clamp_reg =? UINT_MAX then Some (false, s) else
    clamp_offset ← array_get (live_min_clamp_offsets (vs s)) clamp_reg;
    if clamp_offset =? UINT_MAX then Some (false, s) else
    s ← set_p_offset s tmu 1 clamp_offset;
    if negb (add_b_is_uniform inst) then Some (false, s) else
    s ← set_is_direct s tmu;
    Some (true, s).

(** A texture parameter may not share its instruction with a uniform read. *)
Definition check_indirect_write (inst : Z) : bool :=
  negb ((QPU_RADDR_A inst =? QPU_R_UNIF)
        || negb (QPU_SIG inst =? QPU_SIG_SMALL_IMM) && (QPU_RADDR_B inst =? QPU_R_UNIF)).

(** The checks on the operands of a texture write. *)
Definition tmu_check (s : st) (inst : Z) (is_mul : bool) (tmu : Z) (direct : bool)
    : option (bool * st) :=
  if direct then check_direct_write s inst is_mul tmu else Some (check_indirect_write inst, s).

(** Stores the offset of the next parameter and counts its uniform. *)
Definition tmu_store (s : st) (tmu : Z) (direct : bool) : option (bool * st) :=
  count ← array_get (tmu_write_count (vs s)) tmu;
  if 4 <=? count then Some (false, s) else
  s ← set_p_offset s tmu count (uniforms_size (info s));
  s ← set_write_count s tmu (count + 1);
  if negb direct && needs_uniform_address_update (vs s) then Some (false, s) else
  Some (true, if negb direct then add_uniforms s 4 else s).

(** Records the sample and starts over. *)
Definition tmu_submit (s : st) (tmu : Z) : option (bool * st) :=
  '(ok, s) ← record_texture_sample s tmu;
  if negb ok then Some (false, s) else
  s ← set_write_count s tmu 0;
  Some (true, s).

Definition check_tmu_write (s : st) (is_mul : bool) : option (bool * st) :=
  inst ← array_get (shader (vs s)) (vs_ip (vs s));
  let waddr := half_waddr inst is_mul in
  let tmu := Z.b2z (QPU_W_TMU0_B <? waddr) in
  let submit := is_tmu_submit waddr in
  count ← array_get (tmu_write_count (vs s)) tmu;
  let direct := submit && (count =? 0) in
  '(ok, s) ← tmu_check s inst is_mul tmu direct;
  if negb ok then Some (false, s) else
  '(ok, s) ← tmu_store s tmu direct;
  if negb ok then Some (false, s) else
  if submit then tmu_submit s tmu else Some (true, s).

(** ** Uniform addresses *)

Definition require_uniform_address_uniform (s : st) : option (bool * st) :=
  let i := info s in
  let o := num_uniform_addr_offsets i in
  let num_uniforms := uniforms_size i / 4 in
  match mem s with
  | O => Some (false, s)
  | S mem =>
    let i := ShaderInfo (uniforms_size i) (uniforms_src_size i) (num_texture_samples i)
      (texture_samples i) (u32 (o + 1))
      (take (Z.to_nat o) (uniform_addr_offsets i) ++ [num_uniforms]) (is_threaded i) in
    Some (true, St i (vs s) mem)
  end.

Definition validate_uniform_address_write (s : st) (is_mul : bool) : option (bool * st) :=
  inst ← array_get (shader (vs s)) (vs_ip (vs s));
  let add_lri := raddr_add_a_to_live_reg_index inst in
  let expected_offset := u32 (uniforms_size (info s) + 4) in
  if negb (QPU_SIG inst =? QPU_SIG_NONE) then Some (false, s)
  else if is_mul || negb (QPU_OP_ADD inst =? QPU_A_ADD) then Some (false, s)
  else if negb (QPU_COND_ADD inst =? QPU_COND_ALWAYS) then Some (false, s)
  else if negb (QPU_PACK inst =? QPU_PACK_A_NOP) && negb (QPU_PM inst) then Some (false, s)
  else if add_lri =? UINT_MAX then Some (false, s)
  else
    imm ← array_get (live_immediates (vs s)) add_lri;
    if negb (imm =? expected_offset) then Some (false, s)
    else if negb (add_b_is_uniform inst) then Some (false, s)
    else require_uniform_address_uniform (set_needs s false false (all_registers_used (vs s))).

(** ** Register writes *)

(** What is known of the register written: an immediate or nothing. *)
Definition track_immediate (s : st) (inst : Z) (is_mul : bool) (lri : Z) : option st :=
  let v := vs s in
  let imm :=
    if (QPU_SIG inst =? QPU_SIG_LOAD_IMM) && (QPU_PACK inst =? QPU_PACK_A_NOP)
       && (is_mul && (QPU_COND_MUL inst =? QPU_COND_ALWAYS)
           || negb is_mul && (QPU_COND_ADD inst =? QPU_COND_ALWAYS))
    then QPU_LOAD_IMM inst else UINT_MAX in
  imms ← array_set (live_immediates v) lri imm;
  let s := set_live s (live_min_clamp_offsets v) (live_max_clamp_regs v) imms in
  Some (if live_reg_is_upper_half lri then use_all_registers s else s).

Definition check_reg_write (s : st) (is_mul : bool) : option (bool * st) :=
  inst ← array_get (shader (vs s)) (vs_ip (vs s));
  let waddr := half_waddr inst is_mul in
  let is_b := xorb is_mul (QPU_WS inst) in
  let lri := waddr_to_live_reg_index waddr is_b in
  s ← (if negb (lri =? UINT_MAX) then track_immediate s inst is_mul lri else Some s);
  if waddr =? QPU_W_UNIFORMS_ADDRESS then
    if is_b then Some (false, s) else validate_uniform_address_write s is_mul
  else if (waddr =? QPU_W_TLB_COLOR_MS) || (waddr =? QPU_W_TLB_COLOR_ALL)
          || (waddr =? QPU_W_TLB_Z) then Some (true, s)
  else if (waddr =? QPU_W_TMU0_S) || (waddr =? QPU_W_TMU0_T) || (waddr =? QPU_W_TMU0_R)
          || (waddr =? QPU_W_TMU0_B) || (waddr =? QPU_W_TMU1_S) || (waddr =? QPU_W_TMU1_T)
          || (waddr =? QPU_W_TMU1_R) || (waddr =? QPU_W_TMU1_B) then check_tmu_write s is_mul
  else if (waddr =? QPU_W_HOST_INT) || (waddr =? QPU_W_TMU_NOSWAP)
          || (waddr =? QPU_W_TLB_ALPHA_MASK) || (waddr =? QPU_W_MUTEX_RELEASE) then Some (false, s)
  else if waddr =? QPU_W_VPM_ADDR then Some (false, s)
  else if (waddr =? QPU_W_VPM) || (waddr =? QPU_W_VPMVCD_SETUP) then Some (true, s)
  else if waddr =? QPU_W_TLB_STENCIL_SETUP then Some (true, s)
  else Some (true, s).

(** Forgets the clamps of a register. *)
Definition clear_clamps (s : st) (lri : Z) : option st :=
  let v := vs s in
  maxs ← array_set (live_max_clamp_regs v) lri false;
  mins ← array_set (live_min_clamp_offsets v) lri UINT_MAX;
  Some (set_live s mins maxs (live_immediates v)).

Definition track_live_clamps (s : st) : option st :=
  inst ← array_get (shader (vs s)) (vs_ip (vs s));
  let ws := QPU_WS inst in
  let sig := QPU_SIG inst in
  let lri_add_a := raddr_add_a_to_live_reg_index inst in
  add_a_is_min_0 ← (if lri_add_a =? UINT_MAX then Some false
                    else array_get (live_max_clamp_regs (vs s)) lri_add_a);
  let lri_add := waddr_to_live_reg_index (QPU_WADDR_ADD inst) ws in
  let lri_mul := waddr_to_live_reg_index (QPU_WADDR_MUL inst) (negb ws) in
  s ← (if negb (lri_mul =? UINT_MAX) then clear_clamps s lri_mul else Some s);
  if lri_add =? UINT_MAX then Some s else
  s ← clear_clamps s lri_add;
  let v := vs s in
  if negb (QPU_COND_ADD inst =? QPU_COND_ALWAYS) then Some s
  else if QPU_OP_ADD inst =? QPU_A_MAX then
    if negb (sig =? QPU_SIG_SMALL_IMM) || negb (QPU_RADDR_B inst =? 0)
       || negb (QPU_ADD_A inst =? QPU_MUX_B) && negb (QPU_ADD_B inst =? QPU_MUX_B)
    then Some s
    else
      maxs ← array_set (live_max_clamp_regs v) lri_add true;
      Some (set_live s (live_min_clamp_offsets v) maxs (live_immediates v))
  else if QPU_OP_ADD inst =? QPU_A_MIN then
    if negb add_a_is_min_0 then Some s
    else if negb ((QPU_ADD_B inst =? QPU_MUX_A) && (QPU_RADDR_A inst =? QPU_R_UNIF))
            && negb ((QPU_ADD_B inst =? QPU_MUX_B) && (QPU_RADDR_B inst =? QPU_R_UNIF)
                     && negb (sig =? QPU_SIG_SMALL_IMM))
    then Some s
    else
      mins ← array_set (live_min_clamp_offsets v) lri_add (uniforms_size (info s));
      Some (set_live s mins (live_max_clamp_regs v) (live_immediates v))
  else Some s.

Definition check_instruction_writes (s : st) : option (bool * st) :=
  inst ← array_get (shader (vs s)) (vs_ip (vs s));
  if is_tmu_write (QPU_WADDR_ADD inst) && is_tmu_write (QPU_WADDR_MUL inst) then Some (false, s)
  else
    '(ok, s) ← check_reg_write s false;
    '(ok, s) ← (if (ok : bool) then check_reg_write s true else Some (false, s));
    s ← track_live_clamps s;
    Some (ok, s).

Definition check_branch (s : st) (inst : Z) : bool * st :=
  let branch_imm := i32 (QPU_BRANCH_TARGET inst) in
  let v := vs s in
  let s := if branch_imm <? 0
           then set_needs s (needs_uniform_address_update v) true (all_registers_used v) else s in
  if negb (QPU_WADDR_ADD inst =? QPU_W_NOP) || negb (QPU_WADDR_MUL inst =? QPU_W_NOP)
  then (false, s) else (true, s).

(** The instruction reads the uniform stream. *)
Definition reads_uniform (inst : Z) : bool :=
  (QPU_RADDR_A inst =? QPU_R_UNIF)
  || (QPU_RADDR_B inst =? QPU_R_UNIF) && negb (QPU_SIG inst =? QPU_SIG_SMALL_IMM).

(** The instruction reads the upper half of a register file. *)
Definition reads_upper_half (inst : Z) : bool :=
  (16 <=? QPU_RADDR_A inst) && (QPU_RADDR_A inst <? 32)
  || (16 <=? QPU_RADDR_B inst) && (QPU_RADDR_B inst <? 32)
     && negb (QPU_SIG inst =? QPU_SIG_SMALL_IMM).

Definition check_instruction_reads (s : st) : option (bool * st) :=
  inst ← array_get (shader (vs s)) (vs_ip (vs s));
  let s := if reads_uniform inst then add_uniforms s 4 else s in
  if reads_uniform inst && needs_uniform_address_update (vs s) then Some (false, s) else
  Some (true, if reads_upper_half inst then use_all_registers s else s).

(** ** Branches *)

(** The loop state of [vc4_validate_branches]. *)
Record branch_state := BranchState {
  bs_max_ip : Z; bs_targets : list Z; bs_max_target : Z; bs_last : Z }.

Definition branch_target (inst ip : Z) : Z :=
  u32 (u32 (ip + 4) + Z.shiftr (i32 (QPU_BRANCH_TARGET inst)) 3).

(** One iteration; the boolean is false where the source returns false. *)
Definition validate_branch (shader : list Z) (ip : Z) (b : branch_state)
    : option (bool * branch_state) :=
  inst ← array_get shader ip;
  let branch_imm := i32 (QPU_BRANCH_TARGET inst) in
  let sig := QPU_SIG inst in
  let after_delay_ip := u32 (ip + 4) in
  if sig =? QPU_SIG_PROG_END then
    Some (true, BranchState (u32 (ip + 3)) (bs_targets b) (bs_max_target b) (bs_last b))
  else if negb (sig =? QPU_SIG_BRANCH) then Some (true, b)
  else if ip - bs_last b <? 4 then Some (false, b)
  else
    let b := BranchState (bs_max_ip b) (bs_targets b) (bs_max_target b) ip in
    if QPU_BRANCH_REG inst then Some (false, b)
    else if negb (QPU_BRANCH_REL inst) then Some (false, b)
    else if negb (u64 branch_imm mod 8 =? 0) then Some (false, b)
    else
      let branch_target_ip := branch_target inst ip in
      if bs_max_ip b <=? branch_target_ip then Some (false, b) else
      targets ← set_bit branch_target_ip (bs_targets b);
      let b := BranchState (bs_max_ip b) targets (bs_max_target b) (bs_last b) in
      if bs_max_ip b <=? after_delay_ip then Some (false, b) else
      targets ← set_bit after_delay_ip (bs_targets b);
      Some (true, BranchState (bs_max_ip b) targets (Z.max (bs_max_target b) after_delay_ip)
                    (bs_last b)).

(** The loop, which ends when [ip] reaches the (changing) [max_ip]. *)
Fixpoint validate_branches_loop (fuel : nat) (shader : list Z) (ip : Z) (b : branch_state)
    : option (bool * branch_state) :=
  match fuel with
  | O => None
  | S fuel =>
    if bs_max_ip b <=? ip then Some (true, b) else
    '(ok, b) ← validate_branch shader ip b;
    if negb ok then Some (false, b) else validate_branches_loop fuel shader (ip + 1) b
  end.

Definition vc4_validate_branches (s : st) : option (bool * st) :=
  let v := vs s in
  '(ok, b) ← validate_branches_loop (S (S (length (shader v)))) (shader v) 0
               (BranchState (max_ip v) (branch_targets v) 0 (-2));
  let v' := ValidationState (vs_ip v) (bs_max_ip b) (shader v) (tmu_setup v) (tmu_write_count v)
    (live_min_clamp_offsets v) (live_max_clamp_regs v) (live_immediates v) (bs_targets b)
    (needs_uniform_address_update v) (needs_uniform_address_for_loop v) (all_registers_used v) in
  Some (ok && negb (u32 (bs_max_ip b - 3) <? bs_max_target b), set_vs s v').

(** ** Basic blocks *)

(** Forgets what is known of the registers from [from] on. *)
Definition reset_live (s : st) (from : Z) : option st :=
  foldM (fun s i =>
    let v := vs s in
    mins ← array_set (live_min_clamp_offsets v) i UINT_MAX;
    maxs ← array_set (live_max_clamp_regs v) i false;
    imms ← array_set (live_immediates v) i UINT_MAX;
    Some (set_live s mins maxs imms)) s (zrange from (Z.to_nat (LIVE_REG_COUNT - from))).

Definition reset_validation_state (s : st) : option st :=
  s ← foldM (fun s i => set_p_offset s (i / 4) (i mod 4) UINT_MAX) s (zrange 0 8);
  reset_live s 0.

Definition texturing_in_progress (s : st) : option bool :=
  a ← array_get (tmu_write_count (vs s)) 0;
  b ← array_get (tmu_write_count (vs s)) 1;
  Some (negb (a =? 0) || negb (b =? 0)).

Definition vc4_handle_branch_target (s : st) : option (bool * st) :=
  target ← test_bit (vs_ip (vs s)) (branch_targets (vs s));
  if negb target then Some (true, s) else
  busy ← texturing_in_progress s;
  if (busy : bool) then Some (false, s) else
  s ← reset_validation_state s;
  Some (true, set_needs s true (needs_uniform_address_for_loop (vs s)) (all_registers_used (vs s))).

(** ** The whole shader *)

(** The local variables of [vc4_validate_shader]. *)
Record walk := Walk {
  found_shader_end : bool; shader_end_ip : Z; last_thread_switch_ip : Z }.

Definition is_math_sig (sig : Z) : bool :=
  (sig =? QPU_SIG_NONE) || (sig =? QPU_SIG_WAIT_FOR_SCOREBOARD)
  || (sig =? QPU_SIG_SCOREBOARD_UNLOCK) || (sig =? QPU_SIG_COLOR_LOAD)
  || (sig =? QPU_SIG_LOAD_TMU0) || (sig =? QPU_SIG_LOAD_TMU1) || (sig =? QPU_SIG_PROG_END)
  || (sig =? QPU_SIG_SMALL_IMM) || (sig =? QPU_SIG_THREAD_SWITCH)
  || (sig =? QPU_SIG_LAST_THREAD_SWITCH).

Definition is_switch_sig (sig : Z) : bool :=
  (sig =? QPU_SIG_THREAD_SWITCH) || (sig =? QPU_SIG_LAST_THREAD_SWITCH).

(** The signals with normal math. *)
Definition check_math (s : st) (w : walk) (sig ip : Z) : option (bool * st * walk) :=
  '(ok, s) ← check_instruction_writes s;
  if negb ok then Some (false, s, w) else
  '(ok, s) ← check_instruction_reads s;
  if negb ok then Some (false, s, w) else
  let w := if sig =? QPU_SIG_PROG_END then Walk true ip (last_thread_switch_ip w) else w in
  if is_switch_sig sig then
    let s := set_threaded s in
    if ip <? u32 (last_thread_switch_ip w + 3) then Some (false, s, w)
    else Some (true, s, Walk (found_shader_end w) (shader_end_ip w) ip)
  else Some (true, s, w).

(** The body of the loop over the instructions, up to the test for the end. *)
Definition check_instruction (s : st) (w : walk) (ip : Z) : option (bool * st * walk) :=
  inst ← array_get (shader (vs s)) ip;
  let sig := QPU_SIG inst in
  let s := set_ip s ip in
  '(ok, s) ← vc4_handle_branch_target s;
  if negb ok then Some (false, s, w) else
  s ← (if ip =? u32 (last_thread_switch_ip w + 3) then reset_live s 64 else Some s);
  if is_math_sig sig then check_math s w sig ip
  else if sig =? QPU_SIG_LOAD_IMM then
    '(ok, s) ← check_instruction_writes s; Some (ok, s, w)
  else if sig =? QPU_SIG_BRANCH then
    let '(ok, s) := check_branch s inst in
    Some (ok && negb (ip <? u32 (last_thread_switch_ip w + 3)), s, w)
  else Some (false, s, w).

(** The loop: the boolean is false after [goto fail]; the last component is the value
    of [ip] at the exit of the loop. *)
Fixpoint check_instructions (fuel : nat) (s : st) (w : walk) (ip : Z) : option (bool * st * Z) :=
  match fuel with
  | O => None
  | S fuel =>
    if max_ip (vs s) <=? ip then Some (true, s, ip) else
    '(ok, s, w) ← check_instruction s w ip;
    if negb ok then Some (false, s, ip)
    else if found_shader_end w && (ip =? u32 (shader_end_ip w + 2)) then Some (true, s, ip)
    else check_instructions fuel s w (u32 (ip + 1))
  end.

Definition initial_state (shader : list Z) (mem : nat) : st :=
  St (ShaderInfo 0 0 0 [] 0 [] false)
    (ValidationState 0 (u32 (Z.of_nat (length shader))) shader
       (replicate 2 (SampleInfo false (replicate 4 0))) (replicate 2 0)
       (replicate (Z.to_nat LIVE_REG_COUNT) 0) (replicate (Z.to_nat LIVE_REG_COUNT) false)
       (replicate (Z.to_nat LIVE_REG_COUNT) 0) [] false false false)
    mem.

(** An allocation that is released again on every path. *)
Definition kcalloc (s : st) : option st :=
  match mem s with O => None | S mem => Some (St (info s) (vs s) mem) end.

Definition set_branch_targets (s : st) (targets : list Z) : st :=
  let v := vs s in
  set_vs s (ValidationState (vs_ip v) (max_ip v) (shader v) (tmu_setup v) (tmu_write_count v)
    (live_min_clamp_offsets v) (live_max_clamp_regs v) (live_immediates v) targets
    (needs_uniform_address_update v) (needs_uniform_address_for_loop v) (all_registers_used v)).

(** After the loop: the checks on the whole shader and the size of the uniforms. *)
Definition finish_shader (s : st) (ip : Z) : option (option vc4_validated_shader_info) :=
  if ip =? max_ip (vs s) then Some None
  else if is_threaded (info s) && all_registers_used (vs s) then Some None
  else
    '(ok, s) ← (if needs_uniform_address_for_loop (vs s)
                then '(ok, s) ← require_uniform_address_uniform s;
                     Some (ok, if (ok : bool) then add_uniforms s 4 else s)
                else Some (true, s));
    if negb ok then Some None else
    Some (Some (info (set_src_size s
      (u32 (uniforms_size (info s) + 4 * num_texture_samples (info s)))))).

(** Resets the initial state and makes the two allocations; [Some None] if one of them fails. *)
Definition start_shader (s : st) : option (option st) :=
  s ← reset_validation_state s;
  match kcalloc s with
  | None => Some None
  | Some s =>
    Some (kcalloc (set_branch_targets s
      (replicate (Z.to_nat (BITS_TO_LONGS (max_ip (vs s)))) 0)))
  end.

(** Both passes over the instructions. *)
Definition run_shader (s : st) : option (option vc4_validated_shader_info) :=
  '(ok, s) ← vc4_validate_branches s;
  if negb ok then Some None else
  '(ok, s, ip) ← check_instructions (S (S (S (length (shader (vs s)))))) s
                   (Walk false 0 (u32 (-3))) 0;
  if negb ok then Some None else finish_shader s ip.

(** [None]: an access out of bounds; [Some None]: the null pointer. *)
Definition validate_from (s : st) : option (option vc4_validated_shader_info) :=
  s ← start_shader s;
  match s with
  | None => Some None
  | Some s => run_shader s
  end.

Definition vc4_validate_shader (shader : list Z) (mem : nat)
    : option (option vc4_validated_shader_info) := validate_from (initial_state shader mem).
