(* ===== verification/Vc4ShaderFrame.v ===== *)
(** * What the operations of shader validation change

    Well-formedness of the validation state (the sizes of its arrays and the range
    of its counters), which every operation preserves, and the frame of the
    operations: no operation changes the shader, the instruction pointer, the end
    of the shader or the set of branch targets, and none clears the record that the
    upper registers are used. *)
From S2P Require Import Prelude Bitset QpuPack Vc4Defines Vc4Shader.

(** Takes a successful computation in the option monad apart. *)
Ltac crunch H :=
  repeat match type of H with
  | None = Some _ => discriminate H
  | Some _ = Some _ => first [discriminate H | injection H as H; try subst]
  | _ ≫= _ = Some _ =>
      match type of H with ?x ≫= _ = _ =>
        let E := fresh "E" in destruct x eqn:E; cbn [mbind option_bind] in H; [|discriminate H] end
  | (let '(_, _) := ?p in _) = Some _ => destruct p
  | (if ?b then _ else _) = Some _ => let E := fresh "B" in destruct b eqn:E
  end.

(** ** Well-formed states *)

Definition sample_wf (t : vc4_texture_sample_info) : Prop := length (p_offset t) = 4%nat.

Record wf (s : st) : Prop := {
  wf_setup : length (tmu_setup (vs s)) = 2%nat;
  wf_samples : Forall sample_wf (tmu_setup (vs s));
  wf_counts : length (tmu_write_count (vs s)) = 2%nat;
  wf_count_range : Forall (fun c => 0 <= c <= 4) (tmu_write_count (vs s));
  wf_mins : length (live_min_clamp_offsets (vs s)) = 68%nat;
  wf_maxs : length (live_max_clamp_regs (vs s)) = 68%nat;
  wf_imms : length (live_immediates (vs s)) = 68%nat }.

(** ** Frames *)

Definition static (s : st) : Z * Z * list Z * list Z :=
  (vs_ip (vs s), max_ip (vs s), shader (vs s), branch_targets (vs s)).

Record keeps (s s' : st) : Prop := {
  kp_static : static s' = static s;
  kp_regs : all_registers_used (vs s) = true -> all_registers_used (vs s') = true;
  kp_threaded : is_threaded (info s') = is_threaded (info s);
  kp_wf : wf s -> wf s' }.

Lemma keeps_refl s : keeps s s.
Proof. by split. Qed.

Lemma keeps_trans s1 s2 s3 : keeps s1 s2 -> keeps s2 s3 -> keeps s1 s3.
Proof.
  intros [A1 A2 A3 A4] [B1 B2 B3 B4]. split; [congruence|auto|congruence|auto].
Qed.

#[export] Instance keeps_preorder : PreOrder keeps.
Proof. split; [exact keeps_refl|exact keeps_trans]. Qed.

Create HintDb frame.
#[export] Hint Resolve keeps_refl : frame.

Lemma keeps_foldM {A} (f : st -> A -> option st) l s s' :
  (forall s x s', f s x = Some s' -> keeps s s') -> foldM f s l = Some s' -> keeps s s'.
Proof.
  intros Hf. revert s. induction l as [|x l IH]; intros s H; cbn [foldM] in H.
  - injection H as <-. apply keeps_refl.
  - destruct (f s x) as [s1|] eqn:E; [|discriminate H]. cbn [mbind option_bind] in H.
    eapply keeps_trans; [by eapply Hf|]. by apply IH.
Qed.

Lemma Forall_array_set {A} (P : A -> Prop) l i x l' :
  Forall P l -> P x -> array_set l i x = Some l' -> Forall P l'.
Proof. intros Hl Hx [_ ->]%array_set_inv. by apply Forall_insert. Qed.

Lemma Forall_array_get {A} (P : A -> Prop) l i x : Forall P l -> array_get l i = Some x -> P x.
Proof. intros Hl [_ H]%array_get_Some. by eapply Forall_lookup_1. Qed.

Lemma add_uniforms_keeps s n : keeps s (add_uniforms s n).
Proof. split; try done. intros []. by split. Qed.

Lemma set_needs_keeps s u l : keeps s (set_needs s u l (all_registers_used (vs s))).
Proof. split; try done. intros []. by split. Qed.

Lemma use_all_registers_keeps s : keeps s (use_all_registers s).
Proof. split; try done. intros []. by split. Qed.

Lemma set_p_offset_keeps s tmu k x s' : set_p_offset s tmu k x = Some s' -> keeps s s'.
Proof.
  unfold set_p_offset. intros H. crunch H. split; try done.
  intros []. split; cbn; try done.
  - by rewrite (array_set_length _ _ _ _ E1).
  - eapply Forall_array_set; [done| |done]. unfold sample_wf. cbn.
    rewrite (array_set_length _ _ _ _ E0). by eapply (Forall_array_get sample_wf).
Qed.

Lemma set_is_direct_keeps s tmu s' : set_is_direct s tmu = Some s' -> keeps s s'.
Proof.
  unfold set_is_direct. intros H. crunch H. split; try done.
  intros []. split; cbn; try done.
  - by rewrite (array_set_length _ _ _ _ E0).
  - eapply Forall_array_set; [done| |done]. unfold sample_wf. cbn.
    by eapply (Forall_array_get sample_wf).
Qed.

Lemma set_write_count_keeps s tmu n s' :
  (wf s -> 0 <= n <= 4) -> set_write_count s tmu n = Some s' -> keeps s s'.
Proof.
  unfold set_write_count. intros Hn H. crunch H. split; try done.
  intros Hwf. specialize (Hn Hwf). destruct Hwf. split; cbn; try done.
  - by rewrite (array_set_length _ _ _ _ E).
  - eapply Forall_array_set; [done| |done]. lia.
Qed.

Lemma set_live_keeps s mins maxs imms :
  length mins = length (live_min_clamp_offsets (vs s)) ->
  length maxs = length (live_max_clamp_regs (vs s)) ->
  length imms = length (live_immediates (vs s)) ->
  keeps s (set_live s mins maxs imms).
Proof. intros H1 H2 H3. split; try done. intros []. split; cbn; congruence. Qed.

#[export] Hint Resolve add_uniforms_keeps set_needs_keeps use_all_registers_keeps
  set_p_offset_keeps set_is_direct_keeps set_write_count_keeps : frame.

Lemma reset_p_offsets_keeps s tmu s' : reset_p_offsets s tmu = Some s' -> keeps s s'.
Proof. unfold reset_p_offsets. apply keeps_foldM. eauto with frame. Qed.

(** Changes to the collected information only. *)
Lemma info_keeps s i m : is_threaded i = is_threaded (info s) -> keeps s (St i (vs s) m).
Proof. intros H. split; try done. intros []. by split. Qed.

Lemma record_texture_sample_keeps s tmu b s' :
  record_texture_sample s tmu = Some (b, s') -> keeps s s'.
Proof.
  unfold record_texture_sample. destruct (mem s) as [|m]; intros H; crunch H; [reflexivity|].
  etransitivity; [|by eapply reset_p_offsets_keeps]. by apply info_keeps.
Qed.

Lemma require_uniform_keeps s b s' : require_uniform_address_uniform s = Some (b, s') -> keeps s s'.
Proof.
  unfold require_uniform_address_uniform. destruct (mem s) as [|m]; intros H; crunch H; [reflexivity|].
  by apply info_keeps.
Qed.

Lemma check_direct_write_keeps s inst is_mul tmu b s' :
  check_direct_write s inst is_mul tmu = Some (b, s') -> keeps s s'.
Proof.
  unfold check_direct_write. intros H. crunch H; eauto with frame.
  transitivity s0; eauto with frame.
Qed.
#[export] Hint Resolve record_texture_sample_keeps require_uniform_keeps
  check_direct_write_keeps : frame.


Lemma tmu_check_keeps s inst is_mul tmu d b s' :
  tmu_check s inst is_mul tmu d = Some (b, s') -> keeps s s'.
Proof. unfold tmu_check. intros H. crunch H; eauto with frame. Qed.

Lemma set_p_offset_counts s tmu k x s' :
  set_p_offset s tmu k x = Some s' ->
  tmu_write_count (vs s') = tmu_write_count (vs s) /\ info s' = info s /\ mem s' = mem s.
Proof. unfold set_p_offset. intros H. by crunch H. Qed.

Lemma tmu_store_keeps s tmu d b s' : tmu_store s tmu d = Some (b, s') -> keeps s s'.
Proof.
  unfold tmu_store. intros H. destruct (array_get _ tmu) as [c|] eqn:Hc; [|discriminate H].
  cbn [mbind option_bind] in H. destruct (Z.leb_spec 4 c); [by crunch H|].
  destruct (set_p_offset _ _ _ _) as [s1|] eqn:E1; [|discriminate H]. cbn [mbind option_bind] in H.
  destruct (set_write_count _ _ _) as [s2|] eqn:E2; [|discriminate H]. cbn [mbind option_bind] in H.
  assert (keeps s s2) as K.
  { transitivity s1; [eauto with frame|]. eapply set_write_count_keeps; [|done]. intros [].
    destruct (set_p_offset_counts _ _ _ _ _ E1) as [Hcs _]. rewrite <- Hcs in Hc.
    pose proof (Forall_array_get _ _ _ _ wf_count_range0 Hc). cbn in *. lia. }
  crunch H; [done|]. transitivity s2; [done|]. destruct d; cbn [negb]; eauto with frame.
Qed.

Lemma tmu_submit_keeps s tmu b s' : tmu_submit s tmu = Some (b, s') -> keeps s s'.
Proof.
  unfold tmu_submit. intros H. crunch H; [eauto with frame|].
  transitivity s0; [eauto with frame|]. eapply set_write_count_keeps; [|done]. lia.
Qed.
#[export] Hint Resolve tmu_check_keeps tmu_store_keeps tmu_submit_keeps : frame.

(** Chains the frames of the steps in the context. *)
Ltac frames :=
  match goal with
  | |- keeps ?s ?s => reflexivity
  | |- keeps ?s ?s' => solve [eauto 2 with frame]
  | E : _ = Some (_, ?s') |- keeps ?s ?s' =>
      match type of E with context [?m] =>
        match type of m with st => first [unify m s; fail 1 | (transitivity m; [frames|eauto 2 with frame])] end end
  | E : _ = Some ?s' |- keeps ?s ?s' =>
      match type of E with context [?m] =>
        match type of m with st => first [unify m s; fail 1 | (transitivity m; [frames|eauto 2 with frame])] end end
  end.

Lemma check_tmu_write_keeps s is_mul b s' : check_tmu_write s is_mul = Some (b, s') -> keeps s s'.
Proof. unfold check_tmu_write. intros H. crunch H; frames. Qed.

Lemma validate_uniform_address_write_keeps s is_mul b s' :
  validate_uniform_address_write s is_mul = Some (b, s') -> keeps s s'.
Proof.
  unfold validate_uniform_address_write. intros H. crunch H; try reflexivity.
  etransitivity; [apply set_needs_keeps|eauto with frame].
Qed.

Lemma track_immediate_keeps s inst is_mul lri s' :
  track_immediate s inst is_mul lri = Some s' -> keeps s s'.
Proof.
  unfold track_immediate. intros H. crunch H.
  assert (keeps s (set_live s (live_min_clamp_offsets (vs s)) (live_max_clamp_regs (vs s)) l)) as K.
  { apply set_live_keeps; try done. by rewrite (array_set_length _ _ _ _ E). }
  destruct (live_reg_is_upper_half lri); [|exact K]. etransitivity; [exact K|]. eauto with frame.
Qed.
#[export] Hint Resolve check_tmu_write_keeps validate_uniform_address_write_keeps
  track_immediate_keeps : frame.

Lemma check_reg_write_keeps s is_mul b s' : check_reg_write s is_mul = Some (b, s') -> keeps s s'.
Proof.
  unfold check_reg_write. intros H.
  destruct (array_get _ _) as [inst|]; [|discriminate H]. cbn [mbind option_bind] in H.
  match type of H with ?x ≫= _ = _ => destruct x as [s1|] eqn:E1; [|discriminate H] end.
  cbn [mbind option_bind] in H. assert (keeps s s1) as K by (crunch E1; eauto with frame).
  transitivity s1; [done|]. crunch H; eauto with frame.
Qed.

Lemma clear_clamps_keeps s lri s' : clear_clamps s lri = Some s' -> keeps s s'.
Proof.
  unfold clear_clamps. intros H. crunch H.
  apply set_live_keeps; try done; by erewrite array_set_length.
Qed.
#[export] Hint Resolve check_reg_write_keeps clear_clamps_keeps : frame.

Lemma track_live_clamps_keeps s s' : track_live_clamps s = Some s' -> keeps s s'.
Proof.
  unfold track_live_clamps. intros H.
  destruct (array_get (shader (vs s)) _) as [inst|]; [|discriminate H]. cbn [mbind option_bind] in H.
  match type of H with ?x ≫= _ = _ => destruct x as [m0|]; [|discriminate H] end.
  cbn [mbind option_bind] in H.
  match type of H with ?x ≫= _ = _ => destruct x as [s1|] eqn:E1; [|discriminate H] end.
  cbn [mbind option_bind] in H. assert (keeps s s1) as K by (crunch E1; eauto with frame).
  transitivity s1; [done|]. clear K E1. crunch H; eauto with frame.
  all: match goal with E : clear_clamps _ _ = Some ?s2 |- _ => transitivity s2; [eauto with frame|] end.
  all: apply set_live_keeps; try done; by erewrite array_set_length.
Qed.
#[export] Hint Resolve track_live_clamps_keeps : frame.

Lemma check_instruction_writes_keeps s b s' : check_instruction_writes s = Some (b, s') -> keeps s s'.
Proof.
  unfold check_instruction_writes. intros H. crunch H; [reflexivity|].
  match goal with E : check_reg_write s false = Some (_, ?s1) |- _ =>
    transitivity s1; [eauto with frame|] end.
  match goal with E : track_live_clamps ?s2 = Some _ |- _ => transitivity s2; [|eauto with frame] end.
  crunch E1; eauto with frame.
Qed.

Lemma check_branch_keeps s inst b s' : check_branch s inst = (b, s') -> keeps s s'.
Proof.
  unfold check_branch. intros H. repeat case_match; injection H as <- <-; eauto with frame.
Qed.

Lemma check_instruction_reads_keeps s b s' : check_instruction_reads s = Some (b, s') -> keeps s s'.
Proof.
  unfold check_instruction_reads. intros H.
  destruct (array_get _ _) as [inst|]; [|discriminate H]. cbn [mbind option_bind] in H.
  set (s1 := if reads_uniform inst then _ else _) in H.
  assert (keeps s s1) as K by (unfold s1; destruct (reads_uniform inst); eauto with frame).
  transitivity s1; [done|]. clearbody s1. destruct (reads_upper_half inst); crunch H; eauto with frame.
Qed.

Lemma reset_live_keeps s from s' : reset_live s from = Some s' -> keeps s s'.
Proof.
  unfold reset_live. apply keeps_foldM. intros s1 x s2 H. crunch H.
  apply set_live_keeps; by erewrite array_set_length.
Qed.
#[export] Hint Resolve check_instruction_writes_keeps check_branch_keeps
  check_instruction_reads_keeps reset_live_keeps : frame.

Lemma reset_validation_state_keeps s s' : reset_validation_state s = Some s' -> keeps s s'.
Proof.
  unfold reset_validation_state. intros H. crunch H. transitivity s0; [|eauto with frame].
  eapply keeps_foldM; [|exact E]. intros ? ? ? He. exact (set_p_offset_keeps _ _ _ _ _ He).
Qed.

Lemma vc4_handle_branch_target_keeps s b s' : vc4_handle_branch_target s = Some (b, s') -> keeps s s'.
Proof.
  unfold vc4_handle_branch_target. intros H. crunch H; try reflexivity.
  match goal with E : reset_validation_state _ = Some ?s1 |- _ => transitivity s1 end;
    [by apply reset_validation_state_keeps|eauto with frame].
Qed.
#[export] Hint Resolve reset_validation_state_keeps vc4_handle_branch_target_keeps : frame.
