(* ===== verification/Vc4ShaderSafe.v ===== *)
(** * Safety of accepted shaders

    What acceptance of one instruction says about it, and what acceptance of the
    whole shader says about all its instructions up to the end. *)
From S2P Require Import Prelude Bitset QpuPack Vc4Defines Vc4Shader Vc4ShaderFrame.

(** ** Instructions that acceptance allows *)

(** Write addresses that interrupt the host, change TMU assignment, set the alpha mask,
    release mutexes or start DMA. *)
Definition forbidden_waddr (waddr : Z) : bool :=
  (waddr =? QPU_W_HOST_INT) || (waddr =? QPU_W_TMU_NOSWAP) || (waddr =? QPU_W_TLB_ALPHA_MASK)
  || (waddr =? QPU_W_MUTEX_RELEASE) || (waddr =? QPU_W_VPM_ADDR).

Definition half_lri (inst : Z) (is_mul : bool) : Z :=
  waddr_to_live_reg_index (half_waddr inst is_mul) (xorb is_mul (QPU_WS inst)).

Definition writes_upper_half (inst : Z) : bool :=
  live_reg_is_upper_half (half_lri inst false) || live_reg_is_upper_half (half_lri inst true).

(** Uniform addresses are only set by an unconditional ADD of an accumulator or
    register and a uniform in the add unit, to the regfile a side. *)
Definition uniform_address_ok (inst : Z) (is_mul : bool) : bool :=
  negb (half_waddr inst is_mul =? QPU_W_UNIFORMS_ADDRESS)
  || negb is_mul && negb (QPU_WS inst) && (QPU_SIG inst =? QPU_SIG_NONE)
     && (QPU_OP_ADD inst =? QPU_A_ADD) && (QPU_COND_ADD inst =? QPU_COND_ALWAYS)
     && add_b_is_uniform inst.

Definition write_ok (inst : Z) (is_mul : bool) : bool :=
  negb (forbidden_waddr (half_waddr inst is_mul)) && uniform_address_ok inst is_mul.

Definition writes_ok (inst : Z) : bool :=
  write_ok inst false && write_ok inst true
  && negb (is_tmu_write (QPU_WADDR_ADD inst) && is_tmu_write (QPU_WADDR_MUL inst)).

Definition branch_writes_ok (inst : Z) : bool :=
  (QPU_WADDR_ADD inst =? QPU_W_NOP) && (QPU_WADDR_MUL inst =? QPU_W_NOP).

Definition inst_ok (inst : Z) : bool :=
  if QPU_SIG inst =? QPU_SIG_BRANCH then branch_writes_ok inst
  else (is_math_sig (QPU_SIG inst) || (QPU_SIG inst =? QPU_SIG_LOAD_IMM)) && writes_ok inst.

(** The upper registers an instruction uses; a LOAD_IMM reads none. *)
Definition uses_upper_half (inst : Z) : bool :=
  negb (QPU_SIG inst =? QPU_SIG_BRANCH)
  && (writes_upper_half inst || is_math_sig (QPU_SIG inst) && reads_upper_half inst).

(** ** Writes *)

Lemma upper_not_max lri : live_reg_is_upper_half lri = true -> lri =? UINT_MAX = false.
Proof. unfold live_reg_is_upper_half, UINT_MAX. lia. Qed.

Lemma validate_uniform_address_write_ok s is_mul s' inst :
  array_get (shader (vs s)) (vs_ip (vs s)) = Some inst ->
  validate_uniform_address_write s is_mul = Some (true, s') ->
  is_mul = false /\ QPU_SIG inst = QPU_SIG_NONE /\ QPU_OP_ADD inst = QPU_A_ADD /\
  QPU_COND_ADD inst = QPU_COND_ALWAYS /\ add_b_is_uniform inst = true.
Proof.
  unfold validate_uniform_address_write. intros Hi H. rewrite Hi in H. cbn [mbind option_bind] in H.
  crunch H. rewrite ?negb_false_iff in *.
  match goal with E : is_mul || _ = false |- _ => apply orb_false_iff in E as [-> ?] end.
  rewrite negb_false_iff, Z.eqb_eq in *. done.
Qed.

Lemma track_immediate_upper s inst is_mul lri s' :
  track_immediate s inst is_mul lri = Some s' -> live_reg_is_upper_half lri = true ->
  all_registers_used (vs s') = true.
Proof. unfold track_immediate. intros H Hu. rewrite Hu in H. by crunch H. Qed.

Lemma check_reg_write_ok s is_mul s' inst :
  array_get (shader (vs s)) (vs_ip (vs s)) = Some inst ->
  check_reg_write s is_mul = Some (true, s') ->
  write_ok inst is_mul = true /\
  (live_reg_is_upper_half (half_lri inst is_mul) = true -> all_registers_used (vs s') = true).
Proof.
  intros Hi H. unfold check_reg_write in H. rewrite Hi in H. cbn [mbind option_bind] in H.
  fold (half_lri inst is_mul) in H.
  match type of H with ?x ≫= _ = _ => destruct x as [s1|] eqn:E1; [|discriminate H] end.
  cbn [mbind option_bind] in H.
  assert (keeps s s1 /\ (live_reg_is_upper_half (half_lri inst is_mul) = true ->
    all_registers_used (vs s1) = true)) as [K Hu].
  { split; [crunch E1; eauto with frame|]. intros Hu. rewrite (upper_not_max _ Hu) in E1. cbn [negb] in E1.
    by eapply track_immediate_upper. }
  assert (array_get (shader (vs s1)) (vs_ip (vs s1)) = Some inst) as Hi1.
  { destruct K as [Hs _ _ _]. unfold static in Hs. by injection Hs as -> _ -> _. }
  clear E1. split.
  - unfold write_ok, uniform_address_ok, forbidden_waddr.
    destruct (Z.eqb_spec (half_waddr inst is_mul) QPU_W_UNIFORMS_ADDRESS) as [Ew|Ew].
    + destruct (xorb is_mul (QPU_WS inst)) eqn:Ex; [discriminate H|].
      destruct (validate_uniform_address_write_ok _ _ _ _ Hi1 H) as (-> & -> & -> & -> & ->).
      rewrite Ew. destruct (QPU_WS inst); [discriminate Ex|reflexivity].
    + cbn [negb orb]. rewrite andb_true_r.
      unfold QPU_W_TLB_COLOR_MS, QPU_W_TLB_COLOR_ALL, QPU_W_TLB_Z, QPU_W_TMU0_S, QPU_W_TMU0_T,
        QPU_W_TMU0_R, QPU_W_TMU0_B, QPU_W_TMU1_S, QPU_W_TMU1_T, QPU_W_TMU1_R, QPU_W_TMU1_B,
        QPU_W_HOST_INT, QPU_W_TMU_NOSWAP, QPU_W_TLB_ALPHA_MASK, QPU_W_MUTEX_RELEASE,
        QPU_W_VPM_ADDR in *.
      crunch H; lia.
  - intros Hr. assert (keeps s1 s') as K1 by (crunch H; eauto with frame).
    exact (kp_regs _ _ K1 (Hu Hr)).
Qed.

Lemma keeps_inst s s' inst :
  keeps s s' -> array_get (shader (vs s)) (vs_ip (vs s)) = Some inst ->
  array_get (shader (vs s')) (vs_ip (vs s')) = Some inst.
Proof. intros [Hs _ _ _] Hi. unfold static in Hs. by injection Hs as -> _ -> _. Qed.

Lemma check_instruction_writes_ok s s' inst :
  array_get (shader (vs s)) (vs_ip (vs s)) = Some inst ->
  check_instruction_writes s = Some (true, s') ->
  writes_ok inst = true /\ (writes_upper_half inst = true -> all_registers_used (vs s') = true).
Proof.
  intros Hi H. unfold check_instruction_writes in H. rewrite Hi in H. cbn [mbind option_bind] in H.
  destruct (is_tmu_write _ && is_tmu_write _) eqn:Et; [discriminate H|].
  destruct (check_reg_write s false) as [[ok1 s1]|] eqn:E1; [|discriminate H].
  cbn [mbind option_bind] in H. destruct ok1; [|cbn [mbind option_bind] in H; crunch H].
  destruct (check_reg_write s1 true) as [[ok2 s2]|] eqn:E2; [|discriminate H].
  cbn [mbind option_bind] in H. destruct ok2; [|crunch H].
  destruct (track_live_clamps s2) as [s3|] eqn:E3; [|discriminate H]. cbn [mbind option_bind] in H.
  injection H as <-.
  destruct (check_reg_write_ok _ _ _ _ Hi E1) as [W1 U1].
  pose proof (check_reg_write_keeps _ _ _ _ E1) as K1.
  destruct (check_reg_write_ok _ _ _ _ (keeps_inst _ _ _ K1 Hi) E2) as [W2 U2].
  pose proof (check_reg_write_keeps _ _ _ _ E2) as K2. pose proof (track_live_clamps_keeps _ _ E3) as K3.
  unfold writes_ok. rewrite W1, W2, Et. split; [done|].
  unfold writes_upper_half. intros [Hu|Hu]%orb_true_iff; apply (kp_regs _ _ K3).
  - apply (kp_regs _ _ K2). auto.
  - auto.
Qed.

(** ** One instruction *)

Definition same_program (s s' : st) : Prop :=
  shader (vs s') = shader (vs s) /\ max_ip (vs s') = max_ip (vs s) /\
  branch_targets (vs s') = branch_targets (vs s).

(** The bookkeeping of program ends: [w'] after instruction [inst] at [ip]. *)
Definition walk_step (w w' : walk) (inst ip : Z) : Prop :=
  found_shader_end w' = found_shader_end w || (QPU_SIG inst =? QPU_SIG_PROG_END) /\
  shader_end_ip w' = (if QPU_SIG inst =? QPU_SIG_PROG_END then ip else shader_end_ip w).

Record accepted_step (s s' : st) (w w' : walk) (inst ip : Z) : Prop := {
  sp_ok : inst_ok inst = true;
  sp_same : same_program s s';
  sp_walk : walk_step w w' inst ip;
  sp_regs : all_registers_used (vs s) || uses_upper_half inst = true -> all_registers_used (vs s') = true;
  sp_threaded : is_threaded (info s') = is_threaded (info s) || is_switch_sig (QPU_SIG inst);
  sp_wf : wf s -> wf s' }.

Lemma keeps_same s s' : keeps s s' -> same_program s s'.
Proof. intros [H _ _ _]. unfold static in H. injection H as _ ? ? ?. by repeat split. Qed.

Lemma check_math_ok s w sig ip s' w' inst :
  array_get (shader (vs s)) (vs_ip (vs s)) = Some inst -> sig = QPU_SIG inst ->
  is_math_sig sig = true ->
  check_math s w sig ip = Some (true, s', w') -> accepted_step s s' w w' inst ip.
Proof.
  intros Hi -> Hm H. unfold check_math in H.
  destruct (check_instruction_writes s) as [[ok1 s1]|] eqn:E1; [|discriminate H].
  cbn [mbind option_bind] in H. destruct ok1; cbn [negb] in H; [|discriminate H].
  destruct (check_instruction_reads s1) as [[ok2 s2]|] eqn:E2; [|discriminate H].
  cbn [mbind option_bind] in H. destruct ok2; cbn [negb] in H; [|discriminate H].
  destruct (check_instruction_writes_ok _ _ _ Hi E1) as [W1 U1].
  pose proof (check_instruction_writes_keeps _ _ _ E1) as K1.
  pose proof (check_instruction_reads_keeps _ _ _ E2) as K2.
  assert (reads_upper_half inst = true -> all_registers_used (vs s2) = true) as U2.
  { intros Hu. unfold check_instruction_reads in E2. rewrite (keeps_inst _ _ _ K1 Hi) in E2.
    cbn [mbind option_bind] in E2. rewrite Hu in E2.
    destruct (reads_uniform inst && _); [discriminate E2|]. destruct (reads_uniform inst);
      by injection E2 as <-. }
  set (w1 := if QPU_SIG inst =? QPU_SIG_PROG_END then _ else w) in H.
  assert (walk_step w w1 inst ip) as Hw.
  { unfold walk_step, w1. destruct (QPU_SIG inst =? QPU_SIG_PROG_END); cbn; [by rewrite orb_true_r|].
    by rewrite orb_false_r. }
  assert (QPU_SIG inst =? QPU_SIG_BRANCH = false) as Hb.
  { unfold is_math_sig in Hm. destruct (Z.eqb_spec (QPU_SIG inst) QPU_SIG_BRANCH) as [Eb|]; [|done].
    by rewrite Eb in Hm. }
  assert (keeps s s2) as K by (by transitivity s1).
  assert (inst_ok inst = true) as Hok by (unfold inst_ok; by rewrite Hb, Hm, W1).
  assert (all_registers_used (vs s) || uses_upper_half inst = true ->
    all_registers_used (vs s2) = true) as Hregs.
  { intros [Hr|Hr]%orb_true_iff; [by apply (kp_regs _ _ K)|]. unfold uses_upper_half in Hr.
    rewrite Hb, Hm in Hr. cbn [negb andb] in Hr. apply orb_true_iff in Hr as [Hr|Hr]; [|auto].
    by apply (kp_regs _ _ K2), U1. }
  clearbody w1.
  destruct (is_switch_sig (QPU_SIG inst)) eqn:Es.
  - destruct (ip <? _); [discriminate H|]. injection H as <- <-.
    split; [exact Hok|exact (keeps_same _ _ K)|exact Hw|exact Hregs| |].
    + cbn. by rewrite Es, orb_true_r.
    + intros Hwf. destruct (kp_wf _ _ K Hwf). by split.
  - injection H as <- <-.
    split; [exact Hok|exact (keeps_same _ _ K)|exact Hw|exact Hregs| |exact (kp_wf _ _ K)].
    rewrite Es, orb_false_r. exact (kp_threaded _ _ K).
Qed.

Lemma set_ip_facts s ip :
  same_program s (set_ip s ip) /\ all_registers_used (vs (set_ip s ip)) = all_registers_used (vs s) /\
  is_threaded (info (set_ip s ip)) = is_threaded (info s) /\ (wf s -> wf (set_ip s ip)).
Proof. split; [by repeat split|]. split; [done|]. split; [done|]. intros []. by split. Qed.

Lemma accepted_step_pre s0 s s' w w' inst ip :
  same_program s0 s -> all_registers_used (vs s0) = all_registers_used (vs s) \/
    (all_registers_used (vs s0) = true -> all_registers_used (vs s) = true) ->
  is_threaded (info s) = is_threaded (info s0) -> (wf s0 -> wf s) ->
  accepted_step s s' w w' inst ip -> accepted_step s0 s' w w' inst ip.
Proof.
  intros (P1 & P2 & P3) Hr Ht Hwf [A1 (A2 & A3 & A4) A5 A6 A7 A8]. split; try done.
  - repeat split; congruence.
  - intros H. apply A6. destruct Hr as [<-|Hr]; [done|].
    apply orb_true_iff in H as [H|H]; [by rewrite (Hr H)|by rewrite H, orb_true_r].
  - congruence.
  - auto.
Qed.

Lemma check_instruction_ok s w ip s' w' :
  check_instruction s w ip = Some (true, s', w') ->
  exists inst, array_get (shader (vs s)) ip = Some inst /\ accepted_step s s' w w' inst ip.
Proof.
  unfold check_instruction. intros H.
  destruct (array_get (shader (vs s)) ip) as [inst|] eqn:Hi; [|discriminate H].
  cbn [mbind option_bind] in H. exists inst. split; [done|].
  destruct (vc4_handle_branch_target (set_ip s ip)) as [[ok1 s1]|] eqn:E1; [|discriminate H].
  cbn [mbind option_bind] in H. destruct ok1; cbn [negb] in H; [|discriminate H].
  match type of H with ?x ≫= _ = _ => destruct x as [s2|] eqn:E2; [|discriminate H] end.
  cbn [mbind option_bind] in H.
  assert (keeps (set_ip s ip) s2) as K.
  { transitivity s1; [eauto with frame|]. crunch E2; eauto with frame. }
  assert (array_get (shader (vs s2)) (vs_ip (vs s2)) = Some inst) as Hi2 by (by eapply keeps_inst).
  destruct (set_ip_facts s ip) as (P1 & P2 & P3 & P4).
  eapply (accepted_step_pre s s2).
  { destruct P1 as (?&?&?), (keeps_same _ _ K) as (?&?&?). repeat split; congruence. }
  { right. rewrite <- P2. apply (kp_regs _ _ K). }
  { rewrite (kp_threaded _ _ K). exact P3. }
  { intros Hwf. by apply (kp_wf _ _ K), P4. }
  clear E1 E2 K P1 P2 P3 P4.
  destruct (is_math_sig (QPU_SIG inst)) eqn:Hm; [by eapply check_math_ok|].
  assert (QPU_SIG inst =? QPU_SIG_PROG_END = false /\ is_switch_sig (QPU_SIG inst) = false) as [Hp Hs].
  { unfold is_math_sig, is_switch_sig in *. rewrite !orb_false_iff in *. tauto. }
  destruct (QPU_SIG inst =? QPU_SIG_LOAD_IMM) eqn:Hl.
  - destruct (check_instruction_writes s2) as [[ok3 s3]|] eqn:E3; [|discriminate H].
    cbn [mbind option_bind] in H. injection H as -> <- <-.
    destruct (check_instruction_writes_ok _ _ _ Hi2 E3) as [W U].
    pose proof (check_instruction_writes_keeps _ _ _ E3) as K. apply Z.eqb_eq in Hl.
    split; [|exact (keeps_same _ _ K)| | | |exact (kp_wf _ _ K)].
    + unfold inst_ok. rewrite Hl. exact W.
    + unfold walk_step. by rewrite Hp, orb_false_r.
    + unfold uses_upper_half. rewrite Hm. cbn [andb]. rewrite orb_false_r.
      intros [Hr|[_ Hr]%andb_prop]%orb_true_iff; [by apply (kp_regs _ _ K)|auto].
    + rewrite Hs, orb_false_r. apply (kp_threaded _ _ K).
  - destruct (QPU_SIG inst =? QPU_SIG_BRANCH) eqn:Hb; [|discriminate H].
    destruct (check_branch s2 inst) as [ok3 s3] eqn:E3. injection H as Hok <- <-.
    apply andb_prop in Hok as [-> _]. pose proof (check_branch_keeps _ _ _ _ E3) as K.
    split; [|exact (keeps_same _ _ K)| | | |exact (kp_wf _ _ K)].
    + unfold inst_ok, branch_writes_ok. rewrite Hb. unfold check_branch in E3.
      destruct (QPU_WADDR_ADD inst =? QPU_W_NOP), (QPU_WADDR_MUL inst =? QPU_W_NOP);
        try reflexivity; discriminate E3.
    + unfold walk_step. by rewrite Hp, orb_false_r.
    + unfold uses_upper_half. rewrite Hb. cbn [negb andb]. rewrite orb_false_r. apply (kp_regs _ _ K).
    + rewrite Hs, orb_false_r. apply (kp_threaded _ _ K).
Qed.

(** ** All instructions *)

Definition at_ip (sh : list Z) (ip : Z) (P : Z -> Prop) : Prop :=
  exists inst, array_get sh ip = Some inst /\ P inst.

(** What a run of the loop from [ip] that ends with a [break] at [e] says. *)
Record accepted_run (s s' : st) (ip e : Z) : Prop := {
  ar_same : same_program s s';
  ar_le : ip <= e;
  ar_insts : forall k, ip <= k <= e ->
    at_ip (shader (vs s)) k (fun inst => inst_ok inst = true /\
      (uses_upper_half inst = true -> all_registers_used (vs s') = true) /\
      (is_switch_sig (QPU_SIG inst) = true -> is_threaded (info s') = true));
  ar_regs : all_registers_used (vs s) = true -> all_registers_used (vs s') = true;
  ar_threaded : is_threaded (info s) = true -> is_threaded (info s') = true;
  ar_wf : wf s -> wf s' }.

Definition program_end (sh : list Z) (p : Z) : Prop :=
  at_ip sh p (fun inst => QPU_SIG inst = QPU_SIG_PROG_END).

(** The end recorded is the last one met so far. *)
Definition walk_inv (s : st) (w : walk) (ip : Z) : Prop :=
  (found_shader_end w = true ->
   0 <= shader_end_ip w < ip /\ program_end (shader (vs s)) (shader_end_ip w) /\
   forall k, shader_end_ip w < k < ip -> ~ program_end (shader (vs s)) k) /\
  (found_shader_end w = false -> forall k, k < ip -> ~ program_end (shader (vs s)) k) /\
  forall k, k + 2 < ip -> program_end (shader (vs s)) k ->
    program_end (shader (vs s)) (k + 1) \/ program_end (shader (vs s)) (k + 2).

(** Where the shader ends: the first program end without another one in its two delay slots. *)
Record last_end (sh : list Z) (p : Z) : Prop := {
  le_end : program_end sh p;
  le_slot1 : ~ program_end sh (p + 1);
  le_slot2 : ~ program_end sh (p + 2);
  le_first : forall k, k < p -> program_end sh k -> program_end sh (k + 1) \/ program_end sh (k + 2) }.

Lemma program_end_dec sh k : program_end sh k \/ ~ program_end sh k.
Proof.
  unfold program_end. destruct (array_get sh k) as [i|] eqn:E.
  - destruct (Z.eq_dec (QPU_SIG i) QPU_SIG_PROG_END); [left; by exists i|right]. intros (i' & Hi & ?). congruence.
  - right. intros (i' & Hi & _). congruence.
Qed.

Lemma last_end_unique sh p q : last_end sh p -> last_end sh q -> p = q.
Proof.
  assert (forall p q, last_end sh p -> last_end sh q -> ~ p < q) as H.
  { intros a b [Ha N1 N2 _] [_ _ _ Hb] Hlt. by destruct (Hb a Hlt Ha). }
  intros Hp Hq. pose proof (H p q Hp Hq). pose proof (H q p Hq Hp). lia.
Qed.

(** One more instruction that does not end the walk. *)
Lemma walk_inv_step s s1 w w1 inst ip :
  array_get (shader (vs s)) ip = Some inst -> ip < 2 ^ 31 -> accepted_step s s1 w w1 inst ip -> walk_inv s w ip ->
  (found_shader_end w1 = true ->
     0 <= shader_end_ip w1 < ip + 1 /\ program_end (shader (vs s)) (shader_end_ip w1) /\
     forall k, shader_end_ip w1 < k < ip + 1 -> ~ program_end (shader (vs s)) k) /\
  (found_shader_end w1 && (ip =? u32 (shader_end_ip w1 + 2)) = false -> walk_inv s1 w1 (ip + 1)).
Proof.
  intros Hi Hlt Hstep (W1 & W2 & W3). pose proof (array_get_lt _ _ _ Hi) as Hr.
  destruct Hstep as [_ (Hsh & _) [Hf He] _ _ _]. unfold walk_inv. rewrite Hf, He, Hsh.
  set (ended := QPU_SIG inst =? QPU_SIG_PROG_END).
  assert (ended = true <-> program_end (shader (vs s)) ip) as Hend.
  { unfold ended. rewrite Z.eqb_eq. split; [by exists inst|]. intros (i' & Hi' & ?). congruence. }
  assert (found_shader_end w || ended = true ->
    let p := if ended then ip else shader_end_ip w in
    0 <= p < ip + 1 /\ program_end (shader (vs s)) p /\
    forall k, p < k < ip + 1 -> ~ program_end (shader (vs s)) k) as H1.
  { destruct ended; cbv zeta.
    - intros _. split; [lia|]. split; [by apply Hend|lia].
    - rewrite orb_false_r. intros Hf'. destruct (W1 Hf') as (? & ? & Hno). split; [lia|]. split; [done|].
      intros k Hk. destruct (Z.eq_dec k ip) as [->|]; [|apply Hno; lia]. intros Hp%Hend. done. }
  split; [exact H1|]. intros Hstop. split; [exact H1|].
  assert (forall k, program_end (shader (vs s)) k -> k <= ip -> found_shader_end w || ended = true) as Hseen.
  { intros k Hk Hle. destruct (found_shader_end w); [done|]. cbn [orb].
    destruct (Z.eq_dec k ip) as [->|]; [by apply Hend|]. exfalso. apply (W2 eq_refl k); [lia|done]. }
  split.
  - intros Hn k Hk Hp. by rewrite (Hseen k Hp) in Hn by lia.
  - intros k Hk Hp. destruct (Z.eq_dec (k + 2) ip) as [E|]; [|apply W3; [lia|done]].
    destruct (program_end_dec (shader (vs s)) (k + 1)) as [|N1]; [by left|].
    destruct (program_end_dec (shader (vs s)) (k + 2)) as [|N2]; [by right|]. exfalso.
    destruct (H1 (Hseen k Hp ltac:(lia))) as (P1 & P2 & P3). set (p := if ended then _ else _) in *.
    assert (p = k) as Epk.
    { destruct (Z.lt_trichotomy p k) as [|[|]]; [exfalso; by apply (P3 k); [lia|]|done|].
      assert (p = k + 1 \/ p = k + 2) as [-> | ->] by lia; done. }
    rewrite (Hseen k Hp ltac:(lia)), Epk, u32_small, <- E, Z.eqb_refl in Hstop by lia. done.
Qed.

Lemma accepted_run_cons s s1 s' w w1 inst ip e :
  array_get (shader (vs s)) ip = Some inst -> accepted_step s s1 w w1 inst ip ->
  accepted_run s1 s' (ip + 1) e -> accepted_run s s' ip e.
Proof.
  intros Hi [A1 (A2 & A3 & A4) A5 A6 A7 A8] [(B1 & B1' & B1'') B2 B3 B4 B5 B6].
  split.
  - repeat split; congruence.
  - lia.
  - intros k Hk. destruct (Z.eq_dec k ip) as [->|].
    + exists inst. split; [done|]. split; [done|]. split.
      * intros Hu. apply B4, A6. by rewrite Hu, orb_true_r.
      * intros Hs. apply B5. by rewrite A7, Hs, orb_true_r.
    + rewrite <- A2. apply B3. lia.
  - intros Hr. apply B4, A6. by rewrite Hr.
  - intros Ht. apply B5. by rewrite A7, Ht.
  - auto.
Qed.

Lemma accepted_run_last s s' w w' inst ip :
  array_get (shader (vs s)) ip = Some inst -> accepted_step s s' w w' inst ip ->
  accepted_run s s' ip ip.
Proof.
  intros Hi [A1 A2 A5 A6 A7 A8]. split; [done|lia| | | |done].
  - intros k Hk. replace k with ip by lia. exists inst. split; [done|]. split; [done|]. split.
    + intros Hu. apply A6. by rewrite Hu, orb_true_r.
    + intros Hs. by rewrite A7, Hs, orb_true_r.
  - intros Hr. apply A6. by rewrite Hr.
  - intros Ht. by rewrite A7, Ht.
Qed.

Lemma check_instructions_ok fuel s w ip s' e :
  Z.of_nat (length (shader (vs s))) < 2 ^ 31 -> 0 <= ip -> walk_inv s w ip ->
  check_instructions fuel s w ip = Some (true, s', e) ->
  ip <= max_ip (vs s) -> e <> max_ip (vs s') ->
  accepted_run s s' ip e /\ exists p, 0 <= p /\ e = p + 2 /\ last_end (shader (vs s)) p /\ e < max_ip (vs s).
Proof.
  revert s w ip. induction fuel as [|fuel IH]; [done|].
  intros s w ip Hlen Hip Hw H Hmax Hne. cbn [check_instructions] in H.
  destruct (Z.leb_spec (max_ip (vs s)) ip); [exfalso; injection H as <- <-; lia|].
  destruct (check_instruction s w ip) as [[[ok s1] w1]|] eqn:E; [|discriminate H].
  cbn [mbind option_bind] in H. destruct ok; cbn [negb] in H; [|discriminate H].
  destruct (check_instruction_ok _ _ _ _ _ E) as (inst & Hi & Hstep).
  pose proof (array_get_lt _ _ _ Hi) as Hlt.
  destruct (walk_inv_step _ _ _ _ _ _ Hi ltac:(lia) Hstep Hw) as [Hend Hw1].
  destruct (found_shader_end w1 && (ip =? u32 (shader_end_ip w1 + 2))) eqn:Ef.
  - injection H as <- <-. split; [by eapply accepted_run_last|].
    apply andb_prop in Ef as [Ef Ee]. destruct (Hend Ef) as (Hr & Hp & Hno).
    rewrite u32_small in Ee by lia. exists (shader_end_ip w1). split; [lia|]. split; [lia|].
    split; [|lia]. split; [exact Hp|apply Hno; lia|apply Hno; lia|].
    intros k Hk. apply Hw. lia.
  - rewrite u32_small in H by lia. pose proof (sp_same _ _ _ _ _ _ Hstep) as (Hsh & Hmx & _).
    destruct (IH s1 w1 (ip + 1)) as [Hrun Hp]; try done; try lia; [by rewrite Hsh|by apply Hw1|].
    split; [by eapply accepted_run_cons|]. by rewrite <- Hsh, <- Hmx.
Qed.
