(* ===== verification/Vc4ShaderRun.v ===== *)
(** * Branches and runs of accepted shaders

    What [vc4_validate_branches] establishes: every branch before the end of the
    shader is relative to the instruction pointer, aligned, stays inside the shader
    object, and its target and fall-through are marked.  Then the parts of a run of
    [vc4_validate_shader] that accepts its shader, and what they say together. *)
From S2P Require Import Prelude Bitset QpuPack Vc4Defines Vc4Shader Vc4ShaderFrame Vc4ShaderSafe.

(** ** Bitmaps *)

Definition marked (targets : list Z) (bit : Z) : Prop := test_bit bit targets = Some true.

Lemma set_bit_marked bit targets targets' :
  0 <= bit -> set_bit bit targets = Some targets' -> marked targets' bit.
Proof.
  unfold set_bit, marked, test_bit. intros Hb H. crunch H.
  rewrite (array_get_set_eq _ _ _ _ H). cbn [mbind option_bind].
  pose proof (Z.mod_pos_bound bit BITMAP_WORDBITS ltac:(done)).
  rewrite land_bit by lia. rewrite Z.lor_spec, Z.shiftl_1_l, Z.pow2_bits_true by lia.
  by rewrite orb_true_r.
Qed.

Lemma set_bit_keeps bit targets targets' k :
  set_bit bit targets = Some targets' -> marked targets k -> marked targets' k.
Proof.
  unfold set_bit, marked, test_bit. intros H Hk. crunch H.
  rewrite (array_get_set _ _ _ (k / BITMAP_WORDBITS) _ H).
  destruct (Z.eqb_spec (bit / BITMAP_WORDBITS) (k / BITMAP_WORDBITS)) as [E'|]; [|done].
  rewrite <- E', E in Hk. cbn [mbind option_bind] in *.
  pose proof (Z.mod_pos_bound k BITMAP_WORDBITS ltac:(done)).
  pose proof (Z.mod_pos_bound bit BITMAP_WORDBITS ltac:(done)).
  rewrite land_bit in Hk |- * by lia. rewrite Z.lor_spec. injection Hk as ->. done.
Qed.

Lemma set_bit_length bit targets targets' :
  set_bit bit targets = Some targets' -> length targets' = length targets.
Proof. unfold set_bit. intros H. crunch H. by eapply array_set_length. Qed.

(** ** One iteration *)

(** What is required of a branch instruction itself. *)
Definition branch_form_ok (inst : Z) : bool :=
  negb (QPU_BRANCH_REG inst) && QPU_BRANCH_REL inst
  && (u64 (i32 (QPU_BRANCH_TARGET inst)) mod 8 =? 0).

(** The branch at [ip] lands in the first [len] instructions, at marked places. *)
Definition branch_lands (targets : list Z) (len inst ip : Z) : Prop :=
  0 <= branch_target inst ip < len /\ ip + 4 < len /\
  marked targets (branch_target inst ip) /\ marked targets (ip + 4).

Record branch_step (sh : list Z) (ip inst : Z) (b b' : branch_state) : Prop := {
  bt_max : bs_max_ip b' = if QPU_SIG inst =? QPU_SIG_PROG_END then ip + 3 else bs_max_ip b;
  bt_keeps : forall k, marked (bs_targets b) k -> marked (bs_targets b') k;
  bt_branch : QPU_SIG inst = QPU_SIG_BRANCH ->
    branch_form_ok inst = true /\ branch_lands (bs_targets b') (bs_max_ip b) inst ip;
  bt_target : QPU_SIG inst = QPU_SIG_BRANCH -> ip + 4 <= bs_max_target b';
  bt_target_mono : bs_max_target b <= bs_max_target b' }.

Lemma validate_branch_ok sh ip b b' :
  0 <= ip < 2 ^ 31 -> validate_branch sh ip b = Some (true, b') ->
  exists inst, array_get sh ip = Some inst /\ branch_step sh ip inst b b'.
Proof.
  intros Hip H. unfold validate_branch in H.
  destruct (array_get sh ip) as [inst|]; [|discriminate H]. cbn [mbind option_bind] in H.
  exists inst. split; [done|].
  destruct (Z.eqb_spec (QPU_SIG inst) QPU_SIG_PROG_END) as [Ep|Ep].
  { injection H as <-. split; cbn; try done; try lia; rewrite ?Ep; try done.
    rewrite u32_small by lia. done. }
  destruct (Z.eqb_spec (QPU_SIG inst) QPU_SIG_BRANCH) as [Eb|Eb]; cbn [negb] in H.
  2:{ injection H as <-. split; try done. by apply Z.eqb_neq in Ep as ->. }
  cbv zeta in H. cbn [bs_max_ip bs_targets bs_max_target bs_last] in H.
  rewrite u32_small in H by lia. fold (branch_target inst ip) in H.
  destruct (ip - bs_last b <? 4); [discriminate H|].
  destruct (QPU_BRANCH_REG inst) eqn:Er; [discriminate H|].
  destruct (QPU_BRANCH_REL inst) eqn:El; cbn [negb] in H; [|discriminate H].
  destruct (u64 (i32 (QPU_BRANCH_TARGET inst)) mod 8 =? 0) eqn:Ea; cbn [negb] in H; [|discriminate H].
  destruct (Z.leb_spec (bs_max_ip b) (branch_target inst ip)); [discriminate H|].
  destruct (set_bit (branch_target inst ip) (bs_targets b)) as [t1|] eqn:E1; [|discriminate H].
  cbn [mbind option_bind] in H. destruct (Z.leb_spec (bs_max_ip b) (ip + 4)); [discriminate H|].
  destruct (set_bit (ip + 4) t1) as [t2|] eqn:E2; [|discriminate H].
  cbn [mbind option_bind] in H. injection H as <-.
  assert (0 <= branch_target inst ip) as Ht by (unfold branch_target; apply u32_range).
  split; cbn [bs_max_ip bs_targets bs_max_target bs_last].
  - by apply Z.eqb_neq in Ep as ->.
  - intros k Hk. by eapply set_bit_keeps, set_bit_keeps.
  - intros _. unfold branch_form_ok, branch_lands. rewrite Er, El, Ea. split; [done|].
    split; [lia|]. split; [lia|]. split.
    + eapply set_bit_keeps; [done|]. by eapply set_bit_marked.
    + eapply set_bit_marked; [lia|done].
  - intros _. lia.
  - lia.
Qed.

(** ** The loop *)

Lemma branches_loop_step fuel sh ip b b' :
  0 <= ip -> Z.of_nat (length sh) < 2 ^ 31 ->
  validate_branches_loop (S fuel) sh ip b = Some (true, b') ->
  (bs_max_ip b <= ip /\ b' = b) \/
  (ip < bs_max_ip b /\ exists inst b1, array_get sh ip = Some inst /\ branch_step sh ip inst b b1 /\
     validate_branches_loop fuel sh (ip + 1) b1 = Some (true, b')).
Proof.
  intros Hip Hlen H. cbn [validate_branches_loop] in H.
  destruct (Z.leb_spec (bs_max_ip b) ip); [left; by injection H as <-|right]. split; [done|].
  destruct (validate_branch sh ip b) as [[ok b1]|] eqn:E; [|discriminate H].
  cbn [mbind option_bind] in H. destruct ok; cbn [negb] in H; [|discriminate H].
  assert (ip < 2 ^ 31) as Hr.
  { unfold validate_branch in E. destruct (array_get sh ip) eqn:Hg; [|discriminate E].
    apply array_get_lt in Hg. lia. }
  destruct (validate_branch_ok _ _ _ _ (conj Hip Hr) E) as (inst & Hi & Hs). eauto 10.
Qed.

(** A shader end that is near is never moved to the front. *)
Lemma branches_loop_final fuel sh ip b b' :
  0 <= ip -> Z.of_nat (length sh) < 2 ^ 31 ->
  validate_branches_loop fuel sh ip b = Some (true, b') ->
  ip <= bs_max_ip b <= ip + 2 -> bs_max_ip b <= bs_max_ip b'.
Proof.
  intros Hip Hlen. revert ip b Hip. induction fuel as [|fuel IH]; [done|]. intros ip b Hip H Hm.
  destruct (branches_loop_step _ _ _ _ _ Hip Hlen H) as [[? ->]|(? & inst & b1 & Hi & Hs & H1)]; [lia|].
  pose proof (bt_max _ _ _ _ _ Hs) as Hmax.
  destruct (QPU_SIG inst =? QPU_SIG_PROG_END); specialize (IH (ip + 1) b1 ltac:(lia) H1); lia.
Qed.

Record branches_run (sh : list Z) (ip : Z) (b b' : branch_state) : Prop := {
  br_keeps : forall k, marked (bs_targets b) k -> marked (bs_targets b') k;
  br_target_mono : bs_max_target b <= bs_max_target b';
  br_all : forall k, ip <= k < bs_max_ip b' ->
    at_ip sh k (fun inst => QPU_SIG inst = QPU_SIG_BRANCH ->
      branch_form_ok inst = true /\ k + 4 <= bs_max_target b' /\
      branch_lands (bs_targets b') (Z.of_nat (length sh)) inst k) }.

Lemma branches_loop_ok fuel sh ip b b' :
  0 <= ip -> Z.of_nat (length sh) < 2 ^ 31 ->
  validate_branches_loop fuel sh ip b = Some (true, b') ->
  bs_max_ip b <= Z.of_nat (length sh) \/ bs_max_ip b <= ip + 2 ->
  branches_run sh ip b b'.
Proof.
  intros Hip Hlen. revert ip b Hip. induction fuel as [|fuel IH]; [done|]. intros ip b Hip H Hm.
  pose proof (branches_loop_final _ _ _ _ _ Hip Hlen H) as Hfin.
  destruct (branches_loop_step _ _ _ _ _ Hip Hlen H) as [[? ->]|(? & inst & b1 & Hi & Hs & H1)].
  { split; [done|done|lia]. }
  destruct Hs as [Smax Skeep Sbr Star Smono]. pose proof (array_get_lt _ _ _ Hi) as Hlt.
  destruct (IH (ip + 1) b1 ltac:(lia) H1) as [Rkeep Rmono Rall].
  { rewrite Smax. destruct (QPU_SIG inst =? QPU_SIG_PROG_END); lia. }
  split; [auto|lia|]. intros k Hk. destruct (Z.eq_dec k ip) as [->|]; [|apply Rall; lia].
  exists inst. split; [done|]. intros Eb. destruct (Sbr Eb) as [Hform (L1 & L2 & L3 & L4)].
  split; [done|]. split; [specialize (Star Eb); lia|].
  assert (bs_max_ip b <= Z.of_nat (length sh)) as Hle.
  { destruct Hm as [?|Hnear]; [done|]. specialize (Hfin ltac:(lia)).
    destruct (Z.eq_dec (bs_max_ip b') (ip + 1)) as [He|]; [lia|].
    destruct (Rall (bs_max_ip b' - 1)) as (i' & Hi' & _); [lia|]. apply array_get_lt in Hi'. lia. }
  split; [lia|]. split; [lia|]. auto.
Qed.

(** ** Where the shader ends *)

(** After a program end with none in its delay slots, the end of the shader stays. *)
Lemma branches_loop_settled fuel sh ip b b' :
  0 <= ip -> Z.of_nat (length sh) < 2 ^ 31 ->
  validate_branches_loop fuel sh ip b = Some (true, b') -> bs_max_ip b <= ip + 2 ->
  (forall k, ip <= k < bs_max_ip b -> ~ program_end sh k) -> bs_max_ip b' = bs_max_ip b.
Proof.
  intros Hip Hlen. revert ip b Hip. induction fuel as [|fuel IH]; [done|]. intros ip b Hip H Hm Hno.
  destruct (branches_loop_step _ _ _ _ _ Hip Hlen H) as [[? ->]|(? & inst & b1 & Hi & Hs & H1)]; [done|].
  pose proof (bt_max _ _ _ _ _ Hs) as Hmax.
  destruct (Z.eqb_spec (QPU_SIG inst) QPU_SIG_PROG_END) as [Ep|].
  - exfalso. apply (Hno ip); [lia|]. by exists inst.
  - rewrite <- Hmax. apply (IH (ip + 1)); [lia|done|lia|]. intros k Hk. apply Hno. lia.
Qed.

Lemma branches_loop_end fuel sh ip b b' p :
  0 <= ip -> Z.of_nat (length sh) < 2 ^ 31 ->
  validate_branches_loop fuel sh ip b = Some (true, b') ->
  ip <= p < bs_max_ip b' -> program_end sh p ->
  ~ program_end sh (p + 1) -> ~ program_end sh (p + 2) -> bs_max_ip b' = p + 3.
Proof.
  intros Hip Hlen. revert ip b Hip. induction fuel as [|fuel IH]; [done|].
  intros ip b Hip H Hp (pinst & Hpi & Hpe) Hn1 Hn2.
  destruct (branches_loop_step _ _ _ _ _ Hip Hlen H) as [[? ->]|(? & inst & b1 & Hi & Hs & H1)]; [lia|].
  pose proof (bt_max _ _ _ _ _ Hs) as Hmax.
  destruct (Z.eq_dec p ip) as [->|].
  - assert (inst = pinst) as -> by congruence. rewrite Hpe, Z.eqb_refl in Hmax. rewrite <- Hmax.
    apply (branches_loop_settled _ _ (ip + 1) _ _ ltac:(lia) Hlen H1); [lia|].
    intros k Hk. assert (k = ip + 1 \/ k = ip + 2) as [-> | ->] by lia; done.
  - apply (IH (ip + 1) b1); try done; try lia. by exists pinst.
Qed.

(** ** The function *)

Lemma vc4_validate_branches_ok s s' :
  max_ip (vs s) = Z.of_nat (length (shader (vs s))) -> Z.of_nat (length (shader (vs s))) < 2 ^ 31 ->
  vc4_validate_branches s = Some (true, s') ->
  exists b, validate_branches_loop (S (S (length (shader (vs s))))) (shader (vs s)) 0
      (BranchState (max_ip (vs s)) (branch_targets (vs s)) 0 (-2)) = Some (true, b) /\
    branches_run (shader (vs s)) 0 (BranchState (max_ip (vs s)) (branch_targets (vs s)) 0 (-2)) b /\
    s' = set_vs s (ValidationState (vs_ip (vs s)) (bs_max_ip b) (shader (vs s)) (tmu_setup (vs s))
      (tmu_write_count (vs s)) (live_min_clamp_offsets (vs s)) (live_max_clamp_regs (vs s))
      (live_immediates (vs s)) (bs_targets b) (needs_uniform_address_update (vs s))
      (needs_uniform_address_for_loop (vs s)) (all_registers_used (vs s))) /\
    bs_max_target b <= u32 (bs_max_ip b - 3).
Proof.
  intros Hmax Hlen H. unfold vc4_validate_branches in H.
  destruct (validate_branches_loop _ _ _ _) as [[ok b]|] eqn:E; [|discriminate H].
  cbn [mbind option_bind] in H. injection H as Hok <-. apply andb_prop in Hok as [-> Ht].
  exists b. split; [done|]. split; [|split; [done|lia]].
  apply (branches_loop_ok _ _ _ _ _ (Z.le_refl 0) Hlen E). cbn [bs_max_ip]. lia.
Qed.

Lemma branches_loop_max_nonneg fuel sh ip b b' :
  0 <= ip -> Z.of_nat (length sh) < 2 ^ 31 ->
  validate_branches_loop fuel sh ip b = Some (true, b') -> 0 <= bs_max_ip b -> 0 <= bs_max_ip b'.
Proof.
  intros Hip Hlen. revert ip b Hip. induction fuel as [|fuel IH]; [done|]. intros ip b Hip H Hm.
  destruct (branches_loop_step _ _ _ _ _ Hip Hlen H) as [[? ->]|(? & inst & b1 & Hi & Hs & H1)]; [done|].
  apply (IH (ip + 1) b1); [lia|done|]. rewrite (bt_max _ _ _ _ _ Hs). case_match; lia.
Qed.

(** ** The start *)

Record started (sh : list Z) (s : st) : Prop := {
  sd_shader : shader (vs s) = sh;
  sd_max_ip : max_ip (vs s) = Z.of_nat (length sh);
  sd_targets : branch_targets (vs s) =
    replicate (Z.to_nat (BITS_TO_LONGS (Z.of_nat (length sh)))) 0;
  sd_info : info s = ShaderInfo 0 0 0 [] 0 [] false;
  sd_counts : tmu_write_count (vs s) = [0; 0];
  sd_setup : tmu_setup (vs s) = replicate 2 (SampleInfo false (replicate 4 UINT_MAX));
  sd_mins : live_min_clamp_offsets (vs s) = replicate 68 UINT_MAX;
  sd_wf : wf s;
  sd_loop : needs_uniform_address_for_loop (vs s) = false }.

(** Resetting never touches the collected information nor the counters. *)
Lemma reset_live_other s from s' :
  reset_live s from = Some s' ->
  info s' = info s /\ mem s' = mem s /\ tmu_write_count (vs s') = tmu_write_count (vs s) /\
  tmu_setup (vs s') = tmu_setup (vs s).
Proof.
  unfold reset_live. generalize (zrange from (Z.to_nat (LIVE_REG_COUNT - from))). intros l.
  revert s. induction l as [|x l IH]; intros s H; cbn [foldM] in H; [by injection H as <-|].
  match type of H with ?x ≫= _ = _ => destruct x as [s1|] eqn:E; [|discriminate H] end.
  cbn [mbind option_bind] in H. destruct (IH _ H) as (-> & -> & -> & ->). by crunch E.
Qed.

Lemma reset_validation_state_other s s' :
  reset_validation_state s = Some s' ->
  info s' = info s /\ mem s' = mem s /\ tmu_write_count (vs s') = tmu_write_count (vs s).
Proof.
  unfold reset_validation_state. intros H. crunch H.
  destruct (reset_live_other _ _ _ H) as (-> & -> & -> & _). clear H. revert s E.
  generalize (zrange 0 8). intros l. induction l as [|x l IH]; intros s E; cbn [foldM] in E;
    [by injection E as <-|].
  match type of E with ?x ≫= _ = _ => destruct x as [s1|] eqn:E1; [|discriminate E] end.
  cbn [mbind option_bind] in E. destruct (IH _ E) as (-> & -> & ->).
  destruct (set_p_offset_counts _ _ _ _ _ E1) as (-> & -> & ->). done.
Qed.

(** ** The parts of an accepting run *)

Record accepting_run (sh : list Z) (r : vc4_validated_shader_info)
    (s0 s1 s2 : st) (b : branch_state) (e : Z) : Prop := {
  ac_start : started sh s0;
  ac_loop : validate_branches_loop (S (S (length sh))) sh 0
    (BranchState (Z.of_nat (length sh)) (branch_targets (vs s0)) 0 (-2)) = Some (true, b);
  ac_branches : branches_run sh 0
    (BranchState (Z.of_nat (length sh)) (branch_targets (vs s0)) 0 (-2)) b;
  ac_shader : shader (vs s1) = sh;
  ac_max_ip : max_ip (vs s1) = bs_max_ip b;
  ac_targets : branch_targets (vs s1) = bs_targets b;
  ac_info : info s1 = info s0;
  ac_counts : tmu_write_count (vs s1) = [0; 0];
  ac_setup : tmu_setup (vs s1) = replicate 2 (SampleInfo false (replicate 4 UINT_MAX));
  ac_mins : live_min_clamp_offsets (vs s1) = replicate 68 UINT_MAX;
  ac_wf : wf s1;
  ac_max_target : bs_max_target b <= u32 (bs_max_ip b - 3);
  ac_walk : check_instructions (S (S (S (length sh)))) s1 (Walk false 0 (u32 (-3))) 0
    = Some (true, s2, e);
  ac_finish : finish_shader s2 e = Some (Some r);
  ac_loop_flag : needs_uniform_address_for_loop (vs s1) = false }.

(** What resetting the zeroed state gives. *)
Lemma reset_zeroed mx sh m :
  reset_validation_state
    (St (ShaderInfo 0 0 0 [] 0 [] false)
       (ValidationState 0 mx sh (replicate 2 (SampleInfo false (replicate 4 0))) (replicate 2 0)
          (replicate (Z.to_nat LIVE_REG_COUNT) 0) (replicate (Z.to_nat LIVE_REG_COUNT) false)
          (replicate (Z.to_nat LIVE_REG_COUNT) 0) [] false false false) m) =
    Some (St (ShaderInfo 0 0 0 [] 0 [] false)
      (ValidationState 0 mx sh
         (replicate 2 (SampleInfo false (replicate 4 UINT_MAX))) [0; 0]
         (replicate 68 UINT_MAX) (replicate 68 false) (replicate 68 UINT_MAX) [] false false false) m).
Proof. vm_compute. reflexivity. Qed.

Lemma reset_initial sh m :
  reset_validation_state (initial_state sh m) =
    Some (St (ShaderInfo 0 0 0 [] 0 [] false)
      (ValidationState 0 (u32 (Z.of_nat (length sh))) sh
         (replicate 2 (SampleInfo false (replicate 4 UINT_MAX))) [0; 0]
         (replicate 68 UINT_MAX) (replicate 68 false) (replicate 68 UINT_MAX) [] false false false) m).
Proof. exact (reset_zeroed _ _ _). Qed.

Lemma start_shader_eq s s1 :
  reset_validation_state s = Some s1 ->
  start_shader s =
    Some (match kcalloc s1 with
          | None => None
          | Some s2 => kcalloc (set_branch_targets s2
              (replicate (Z.to_nat (BITS_TO_LONGS (max_ip (vs s2)))) 0))
          end).
Proof. intros H. unfold start_shader. rewrite H. cbn [mbind option_bind]. by destruct (kcalloc s1). Qed.

Lemma start_shader_ok sh m s :
  Z.of_nat (length sh) < 2 ^ 31 -> start_shader (initial_state sh m) = Some (Some s) ->
  started sh s.
Proof.
  intros Hlen H. rewrite (start_shader_eq _ _ (reset_initial sh m)) in H. unfold kcalloc in H.
  cbn [mem] in H. destruct m as [|m]; [discriminate H|].
  cbn [mem set_branch_targets set_vs vs info] in H. destruct m as [|m]; [discriminate H|].
  injection H as <-.
  split; cbn [vs info shader max_ip branch_targets tmu_write_count tmu_setup live_min_clamp_offsets];
    rewrite ?u32_small by lia; try reflexivity.
  split; cbn [vs tmu_write_count tmu_setup live_min_clamp_offsets live_max_clamp_regs live_immediates];
    rewrite ?length_replicate; try reflexivity.
  - by repeat constructor.
  - repeat constructor; lia.
Qed.

Lemma run_shader_ok sh s r :
  Z.of_nat (length sh) < 2 ^ 31 -> started sh s -> run_shader s = Some (Some r) ->
  exists s1 s2 b e, accepting_run sh r s s1 s2 b e.
Proof.
  intros Hlen Hst H. unfold run_shader in H.
  destruct (vc4_validate_branches s) as [[ok s1]|] eqn:Ev; [|discriminate H].
  cbn [mbind option_bind] in H. destruct ok; cbn [negb] in H; [|discriminate H].
  pose proof Hst as [Ssh Smx Sta Sin Sco Sse Smi Swf Slo].
  destruct (vc4_validate_branches_ok s s1) as (b & Hl & Hr & Hs1 & Ht); [congruence|congruence|done|].
  assert (shader (vs s1) = sh) as Hsh1 by (rewrite Hs1; exact Ssh).
  destruct (check_instructions _ s1 _ 0) as [[[ok s2] e]|] eqn:Ec; [|discriminate H].
  cbn [mbind option_bind] in H. destruct ok; cbn [negb] in H; [|discriminate H].
  rewrite Hsh1 in Ec. rewrite Ssh, Smx in Hl, Hr. exists s1, s2, b, e.
  split; [exact Hst|exact Hl|exact Hr|exact Hsh1| | | | | | | |exact Ht|exact Ec|exact H|]; rewrite Hs1;
    cbn [vs info shader max_ip branch_targets tmu_write_count tmu_setup live_min_clamp_offsets set_vs];
    [reflexivity|reflexivity|reflexivity|exact Sco|exact Sse|exact Smi| |exact Slo].
  destruct Swf. by split.
Qed.

Lemma validate_from_inv s r :
  validate_from s = Some (Some r) ->
  exists s', start_shader s = Some (Some s') /\ run_shader s' = Some (Some r).
Proof.
  unfold validate_from. destruct (start_shader s) as [[s'|]|]; [|done|done]. eauto.
Qed.

(** Conversion unfolds the entry point before the functions it calls. *)
#[local] Strategy -10 [vc4_validate_shader].

Lemma accepting_run_of sh m r :
  Z.of_nat (length sh) < 2 ^ 31 -> vc4_validate_shader sh m = Some (Some r) ->
  exists s0 s1 s2 b e, accepting_run sh r s0 s1 s2 b e.
Proof.
  intros Hlen H. unfold vc4_validate_shader in H.
  destruct (validate_from_inv _ _ H) as (s & Hst & Hrun). clear H. exists s.
  eapply run_shader_ok; [done| |exact Hrun]. by eapply start_shader_ok.
Qed.

(** ** What acceptance says *)

(** Everything the checks establish about the instruction at [k] of a shader whose
    program end is at [e]. *)
Definition inst_safe (sh : list Z) (e k inst : Z) : Prop :=
  inst_ok inst = true /\
  (QPU_SIG inst = QPU_SIG_BRANCH ->
     branch_form_ok inst = true /\ k + 4 <= e /\ 0 <= branch_target inst k < Z.of_nat (length sh)).

Lemma accepting_run_end sh r s0 s1 s2 b e :
  Z.of_nat (length sh) < 2 ^ 31 -> accepting_run sh r s0 s1 s2 b e ->
  accepted_run s1 s2 0 e /\ last_end sh (e - 2) /\ 2 <= e < Z.of_nat (length sh) /\ bs_max_ip b = e + 1.
Proof.
  intros Hlen [Hst Hl Hbr Hsh Hmx Hta Hin Hco Hse Hmi Hwf Htg Hwk Hfin].
  assert (0 <= bs_max_ip b) as Hb0.
  { apply (branches_loop_max_nonneg _ _ _ _ _ (Z.le_refl 0) Hlen Hl). cbn. lia. }
  assert (e <> max_ip (vs s2)) as Hne.
  { intros ->. unfold finish_shader in Hfin. by rewrite Z.eqb_refl in Hfin. }
  assert (walk_inv s1 (Walk false 0 (u32 (-3))) 0) as Hw0
    by (split; [done|]; split; [intros _ k Hk (i & Hi & _); apply array_get_lt in Hi; lia|];
        intros k Hk (i & Hi & _); apply array_get_lt in Hi; lia).
  destruct (check_instructions_ok _ _ _ _ _ _ ltac:(by rewrite Hsh) (Z.le_refl 0) Hw0 Hwk)
    as (Hrun & p & Hp & -> & Hend & Hlt); [by rewrite Hmx|done|].
  rewrite Hsh in *. split; [done|]. replace (p + 2 - 2) with p by lia. split; [done|].
  pose proof (ar_insts _ _ _ _ Hrun) as Hall. rewrite Hsh in Hall. split.
  - destruct (Hall (p + 2)) as (i & Hi & _); [lia|]. apply array_get_lt in Hi. lia.
  - replace (p + 2 + 1) with (p + 3) by lia.
    apply (branches_loop_end _ _ 0 _ _ p (Z.le_refl 0) Hlen Hl); [lia|by destruct Hend..].
Qed.

Lemma accepting_run_safe sh r s0 s1 s2 b e :
  Z.of_nat (length sh) < 2 ^ 31 -> accepting_run sh r s0 s1 s2 b e ->
  accepted_run s1 s2 0 e /\ last_end sh (e - 2) /\ 2 <= e < Z.of_nat (length sh) /\
  forall k, 0 <= k <= e -> at_ip sh k (inst_safe sh (e - 2) k).
Proof.
  intros Hlen Hr. destruct (accepting_run_end _ _ _ _ _ _ _ Hlen Hr) as (Hrun & Hend & He & Hmax).
  destruct Hr as [Hst Hl Hbr Hsh Hmx Hta Hin Hco Hse Hmi Hwf Htg Hwk Hfin].
  split; [done|]. split; [done|]. split; [done|]. pose proof (ar_insts _ _ _ _ Hrun) as Hall. rewrite Hsh in Hall.
  intros k Hk. destruct (Hall k Hk) as (inst & Hi & Hok & _). exists inst. split; [done|].
  split; [done|]. intros Eb. destruct (br_all _ _ _ _ Hbr k) as (inst' & Hi' & Hbk); [lia|].
  assert (inst' = inst) as -> by congruence. destruct (Hbk Eb) as (Hf & Ht & Hld & _).
  split; [done|]. split; [|done]. rewrite Hmax, u32_small in Htg by lia. lia.
Qed.
