(* ===== verification/Vc4ShaderUniforms.v ===== *)
(** * The uniform stream of a shader

    [usage] is the reference: how many bytes of uniforms the instructions of a shader
    consume, how many texture samples they submit, and whether they branch back after the last
    reset of the uniform address.  Validation computes exactly
    that, and every offset it records points into the uniforms consumed so far. *)
From S2P Require Import Prelude Bitset QpuPack Vc4Defines Vc4Shader Vc4ShaderFrame Vc4ShaderSafe Vc4ShaderRun.

(** ** Reference *)

Record usage := Usage { us_counts : list Z; us_uniforms : Z; us_samples : Z; us_loop : bool }.

(** A write of a texture parameter takes one uniform (the texture setup word), except
    that a submission without any parameter is a direct memory read; a write of the uniform
    address makes the next iteration of a loop start with its own uniforms. *)
Definition usage_write (u : usage) (waddr : Z) : usage :=
  if is_tmu_write waddr then
    let tmu := Z.b2z (QPU_W_TMU0_B <? waddr) in
    let count := default 0 (array_get (us_counts u) tmu) in
    let submit := is_tmu_submit waddr in
    Usage (<[Z.to_nat tmu := if submit then 0 else count + 1]> (us_counts u))
      (us_uniforms u + (if submit && (count =? 0) then 0 else 4))
      (us_samples u + Z.b2z submit) (us_loop u)
  else if waddr =? QPU_W_UNIFORMS_ADDRESS then Usage (us_counts u) (us_uniforms u) (us_samples u) false
  else u.

Definition usage_read (u : usage) (inst : Z) : usage :=
  if is_math_sig (QPU_SIG inst) && reads_uniform inst
  then Usage (us_counts u) (us_uniforms u + 4) (us_samples u) (us_loop u) else u.

Definition usage_inst (u : usage) (inst : Z) : usage :=
  if QPU_SIG inst =? QPU_SIG_BRANCH
  then Usage (us_counts u) (us_uniforms u) (us_samples u) (us_loop u || (i32 (QPU_BRANCH_TARGET inst) <? 0))
  else usage_read (usage_write (usage_write u (QPU_WADDR_ADD inst)) (QPU_WADDR_MUL inst)) inst.

Definition usage_of (insts : list Z) : usage := foldl usage_inst (Usage [0; 0] 0 0 false) insts.

Lemma usage_write_bound u waddr :
  us_uniforms u <= us_uniforms (usage_write u waddr) <= us_uniforms u + 4 /\
  us_samples u <= us_samples (usage_write u waddr) <= us_samples u + 1.
Proof.
  unfold usage_write. destruct (is_tmu_write waddr); [|destruct (waddr =? _); cbn; lia]. cbn [us_uniforms us_samples].
  split; [destruct (_ && _); lia|]. destruct (is_tmu_submit waddr); cbn [Z.b2z]; lia.
Qed.

Lemma usage_inst_bound u inst :
  us_uniforms u <= us_uniforms (usage_inst u inst) <= us_uniforms u + 12 /\
  us_samples u <= us_samples (usage_inst u inst) <= us_samples u + 2.
Proof.
  unfold usage_inst. destruct (QPU_SIG inst =? QPU_SIG_BRANCH); [cbn; lia|]. unfold usage_read.
  pose proof (usage_write_bound u (QPU_WADDR_ADD inst)).
  pose proof (usage_write_bound (usage_write u (QPU_WADDR_ADD inst)) (QPU_WADDR_MUL inst)).
  destruct (_ && _); cbn [us_uniforms us_samples]; lia.
Qed.

Lemma usage_write_align u waddr :
  us_uniforms u mod 4 = 0 -> us_uniforms (usage_write u waddr) mod 4 = 0.
Proof.
  unfold usage_write. destruct (is_tmu_write waddr); [|by destruct (waddr =? _)]. cbn [us_uniforms].
  destruct (_ && _); intros H; Z.to_euclidean_division_equations; lia.
Qed.

Lemma usage_inst_align u inst :
  us_uniforms u mod 4 = 0 -> us_uniforms (usage_inst u inst) mod 4 = 0.
Proof.
  intros H. unfold usage_inst, usage_read. destruct (QPU_SIG inst =? QPU_SIG_BRANCH); [done|].
  pose proof (usage_write_align _ (QPU_WADDR_MUL inst) (usage_write_align u (QPU_WADDR_ADD inst) H)).
  destruct (_ && _); cbn [us_uniforms]; Z.to_euclidean_division_equations; lia.
Qed.

(** ** Accounting *)

(** The state has consumed what [u] says. *)
Record acct (u : usage) (s : st) : Prop := {
  ac_us_counts : tmu_write_count (vs s) = us_counts u;
  ac_us_uniforms : uniforms_size (info s) = us_uniforms u;
  ac_us_samples : num_texture_samples (info s) = us_samples u;
  ac_us_list : Z.of_nat (length (texture_samples (info s))) = us_samples u;
  ac_us_loop : needs_uniform_address_for_loop (vs s) = us_loop u }.

(** The operation consumes nothing. *)
Definition same_use (s s' : st) : Prop :=
  tmu_write_count (vs s') = tmu_write_count (vs s) /\
  uniforms_size (info s') = uniforms_size (info s) /\
  num_texture_samples (info s') = num_texture_samples (info s) /\
  texture_samples (info s') = texture_samples (info s) /\
  needs_uniform_address_for_loop (vs s') = needs_uniform_address_for_loop (vs s).

Lemma same_use_refl s : same_use s s.
Proof. done. Qed.

Lemma same_use_trans s1 s2 s3 : same_use s1 s2 -> same_use s2 s3 -> same_use s1 s3.
Proof. unfold same_use. intuition congruence. Qed.

#[export] Instance same_use_preorder : PreOrder same_use.
Proof. split; [exact same_use_refl|exact same_use_trans]. Qed.

Lemma same_use_acct u s s' : same_use s s' -> acct u s -> acct u s'.
Proof. intros (H1 & H2 & H3 & H4 & H5) [A1 A2 A3 A4 A5]. split; congruence. Qed.

Lemma same_use_info s s' :
  tmu_write_count (vs s') = tmu_write_count (vs s) -> info s' = info s ->
  needs_uniform_address_for_loop (vs s') = needs_uniform_address_for_loop (vs s) -> same_use s s'.
Proof. intros H1 H2 H3. unfold same_use. by rewrite H1, H2, H3. Qed.

Lemma same_use_foldM {A} (f : st -> A -> option st) l s s' :
  (forall s x s', f s x = Some s' -> same_use s s') -> foldM f s l = Some s' -> same_use s s'.
Proof.
  intros Hf. revert s. induction l as [|x l IH]; intros s H; cbn [foldM] in H; [by injection H as <-|].
  destruct (f s x) as [s1|] eqn:E; [|discriminate H]. cbn [mbind option_bind] in H.
  transitivity s1; [by eapply Hf|auto].
Qed.

Create HintDb acct.
#[export] Hint Resolve same_use_refl : acct.

Lemma set_p_offset_same s tmu k x s' : set_p_offset s tmu k x = Some s' -> same_use s s'.
Proof. unfold set_p_offset. intros H. by crunch H. Qed.

Lemma set_is_direct_same s tmu s' : set_is_direct s tmu = Some s' -> same_use s s'.
Proof. unfold set_is_direct. intros H. by crunch H. Qed.

Lemma track_immediate_same s inst is_mul lri s' :
  track_immediate s inst is_mul lri = Some s' -> same_use s s'.
Proof. unfold track_immediate. intros H. crunch H. by destruct (live_reg_is_upper_half lri). Qed.

Lemma require_uniform_same s b s' : require_uniform_address_uniform s = Some (b, s') -> same_use s s'.
Proof. unfold require_uniform_address_uniform. destruct (mem s); intros H; by crunch H. Qed.

Lemma validate_uniform_address_write_use u s is_mul s' :
  acct u s -> validate_uniform_address_write s is_mul = Some (true, s') ->
  acct (Usage (us_counts u) (us_uniforms u) (us_samples u) false) s'.
Proof.
  unfold validate_uniform_address_write. intros [A1 A2 A3 A4 A5] H. crunch H.
  apply require_uniform_same in H as (H1 & H2 & H3 & H4 & H5). by split; cbn in *; rewrite ?H1, ?H2, ?H3, ?H4, ?H5.
Qed.

Lemma check_direct_write_same s inst is_mul tmu b s' :
  check_direct_write s inst is_mul tmu = Some (b, s') -> same_use s s'.
Proof.
  unfold check_direct_write. intros H. crunch H; try reflexivity.
  - by eapply set_p_offset_same.
  - transitivity s0; [by eapply set_p_offset_same|by eapply set_is_direct_same].
Qed.

Lemma clear_clamps_same s lri s' : clear_clamps s lri = Some s' -> same_use s s'.
Proof. unfold clear_clamps. intros H. by crunch H. Qed.

Lemma track_live_clamps_same s s' : track_live_clamps s = Some s' -> same_use s s'.
Proof.
  unfold track_live_clamps. intros H.
  destruct (array_get (shader (vs s)) _) as [inst|]; [|discriminate H]. cbn [mbind option_bind] in H.
  match type of H with ?x ≫= _ = _ => destruct x as [m0|]; [|discriminate H] end.
  cbn [mbind option_bind] in H.
  match type of H with ?x ≫= _ = _ => destruct x as [s1|] eqn:E1; [|discriminate H] end.
  cbn [mbind option_bind] in H.
  transitivity s1; [crunch E1; [by eapply clear_clamps_same|reflexivity]|]. clear E1.
  destruct (_ =? UINT_MAX); [by injection H as <-|].
  destruct (clear_clamps s1 _) as [s2|] eqn:E2; [|discriminate H]. cbn [mbind option_bind] in H.
  transitivity s2; [by eapply clear_clamps_same|]. by crunch H.
Qed.

Lemma reset_live_same s from s' : reset_live s from = Some s' -> same_use s s'.
Proof. unfold reset_live. apply same_use_foldM. intros s1 x s2 H. by crunch H. Qed.

Lemma handle_branch_target_same s b s' : vc4_handle_branch_target s = Some (b, s') -> same_use s s'.
Proof.
  unfold vc4_handle_branch_target. intros H. crunch H; try reflexivity.
  match goal with E : reset_validation_state _ = Some ?s1 |- _ => transitivity s1; [|done]; clear - E; rename E into H end.
  unfold reset_validation_state in H. destruct (foldM _ s _) as [s2|] eqn:E; [|discriminate H].
  cbn [mbind option_bind] in H. transitivity s2; [|exact (reset_live_same _ _ _ H)].
  eapply same_use_foldM; [|exact E]. intros ? ? ? He. exact (set_p_offset_same _ _ _ _ _ He).
Qed.

Lemma reset_p_offsets_same s tmu s' : reset_p_offsets s tmu = Some s' -> same_use s s'.
Proof. unfold reset_p_offsets. apply same_use_foldM. intros ? ? ? He. exact (set_p_offset_same _ _ _ _ _ He). Qed.

Lemma tmu_check_same s inst is_mul tmu d b s' :
  tmu_check s inst is_mul tmu d = Some (b, s') -> same_use s s'.
Proof.
  unfold tmu_check. intros H. destruct d; [by eapply check_direct_write_same|by injection H as <- <-].
Qed.

Lemma set_write_count_spec s tmu n s' :
  set_write_count s tmu n = Some s' ->
  tmu_write_count (vs s') = <[Z.to_nat tmu := n]> (tmu_write_count (vs s)) /\
  0 <= tmu < Z.of_nat (length (tmu_write_count (vs s))) /\ info s' = info s /\ mem s' = mem s /\
  tmu_setup (vs s') = tmu_setup (vs s) /\
  live_min_clamp_offsets (vs s') = live_min_clamp_offsets (vs s) /\
  needs_uniform_address_for_loop (vs s') = needs_uniform_address_for_loop (vs s).
Proof.
  unfold set_write_count. intros H. crunch H. apply array_set_inv in E as [? ->]. split; [done|]. split; [done|]. by repeat split.
Qed.

Lemma tmu_store_use s tmu d s' :
  tmu_store s tmu d = Some (true, s') ->
  exists c, array_get (tmu_write_count (vs s)) tmu = Some c /\
    tmu_write_count (vs s') = <[Z.to_nat tmu := c + 1]> (tmu_write_count (vs s)) /\
    uniforms_size (info s') = (if d then uniforms_size (info s) else u32 (uniforms_size (info s) + 4)) /\
    num_texture_samples (info s') = num_texture_samples (info s) /\
    texture_samples (info s') = texture_samples (info s) /\
    needs_uniform_address_for_loop (vs s') = needs_uniform_address_for_loop (vs s).
Proof.
  unfold tmu_store. intros H. destruct (array_get _ tmu) as [c|]; [|discriminate H].
  cbn [mbind option_bind] in H. destruct (4 <=? c); [discriminate H|].
  destruct (set_p_offset _ _ _ _) as [s1|] eqn:E1; [|discriminate H]. cbn [mbind option_bind] in H.
  destruct (set_write_count _ _ _) as [s2|] eqn:E2; [|discriminate H]. cbn [mbind option_bind] in H.
  destruct (negb d && _); [discriminate H|]. injection H as <-. exists c. split; [done|].
  apply set_p_offset_same in E1 as (P1 & P2 & P3 & P4 & P5).
  apply set_write_count_spec in E2 as (W1 & _ & W2 & _ & _ & _ & W3). destruct d;
    cbn [negb add_uniforms set_info vs info uniforms_size num_texture_samples texture_samples];
    rewrite W1, W2, W3, P1, P2, P3, P4, P5; done.
Qed.

Lemma record_texture_sample_use s tmu s' :
  record_texture_sample s tmu = Some (true, s') ->
  tmu_write_count (vs s') = tmu_write_count (vs s) /\
  uniforms_size (info s') = uniforms_size (info s) /\
  num_texture_samples (info s') = u32 (num_texture_samples (info s) + 1) /\
  needs_uniform_address_for_loop (vs s') = needs_uniform_address_for_loop (vs s) /\
  exists t, array_get (tmu_setup (vs s)) tmu = Some t /\
    texture_samples (info s') =
      take (Z.to_nat (num_texture_samples (info s))) (texture_samples (info s)) ++ [t].
Proof.
  unfold record_texture_sample. destruct (mem s) as [|m]; [done|]. intros H.
  destruct (array_get (tmu_setup (vs s)) tmu) as [t|]; [|discriminate H]. cbn [mbind option_bind] in H.
  destruct (reset_p_offsets _ _) as [s1|] eqn:E; [|discriminate H]. cbn [mbind option_bind] in H.
  injection H as <-. apply reset_p_offsets_same in E as (P1 & P2 & P3 & P4 & P5).
  rewrite P1, P2, P3, P4, P5. do 4 (split; [done|]). by exists t.
Qed.

Lemma tmu_submit_use u s tmu s' :
  acct u s -> us_samples u + 1 < 2 ^ 32 -> tmu_submit s tmu = Some (true, s') ->
  acct (Usage (<[Z.to_nat tmu := 0]> (us_counts u)) (us_uniforms u) (us_samples u + 1) (us_loop u)) s'.
Proof.
  intros [A1 A2 A3 A4 A5] Hb H. unfold tmu_submit in H.
  destruct (record_texture_sample s tmu) as [[ok s1]|] eqn:E1; [|discriminate H].
  cbn [mbind option_bind] in H. destruct ok; cbn [negb] in H; [|discriminate H].
  destruct (set_write_count s1 tmu 0) as [s2|] eqn:E2; [|discriminate H]. cbn [mbind option_bind] in H.
  injection H as <-. apply record_texture_sample_use in E1 as (P1 & P2 & P3 & P5 & t & _ & P4).
  apply set_write_count_spec in E2 as (W1 & _ & W2 & _ & _ & _ & W3).
  split; cbn; rewrite ?W1, ?W2, ?W3, ?P1, ?P2, ?P3, ?P4, ?P5; [congruence|congruence| | |done].
  - rewrite A3, u32_small by lia. done.
  - rewrite A3, length_app, length_take. cbn [length]. lia.
Qed.

Lemma check_tmu_write_use u s is_mul s' inst :
  array_get (shader (vs s)) (vs_ip (vs s)) = Some inst ->
  acct u s -> 0 <= us_uniforms u < 2 ^ 32 - 4 -> us_samples u + 1 < 2 ^ 32 ->
  is_tmu_write (half_waddr inst is_mul) = true ->
  check_tmu_write s is_mul = Some (true, s') -> acct (usage_write u (half_waddr inst is_mul)) s'.
Proof.
  intros Hi Ha Hu Hn Ht H. unfold check_tmu_write in H. rewrite Hi in H. cbn [mbind option_bind] in H.
  unfold usage_write. rewrite Ht. set (tmu := Z.b2z (QPU_W_TMU0_B <? half_waddr inst is_mul)) in *.
  destruct (array_get (tmu_write_count (vs s)) tmu) as [c|] eqn:Hc; [|discriminate H].
  cbn [mbind option_bind] in H. set (submit := is_tmu_submit (half_waddr inst is_mul)) in *.
  destruct (tmu_check _ _ _ _ _) as [[ok s1]|] eqn:E1; [|discriminate H].
  cbn [mbind option_bind] in H. destruct ok; cbn [negb] in H; [|discriminate H].
  destruct (tmu_store s1 tmu _) as [[ok s2]|] eqn:E2; [|discriminate H].
  cbn [mbind option_bind] in H. destruct ok; cbn [negb] in H; [|discriminate H].
  pose proof (same_use_acct u _ _ (tmu_check_same _ _ _ _ _ _ _ E1) Ha) as Ha1.
  destruct (tmu_store_use _ _ _ _ E2) as (c' & Hc' & S1 & S2 & S3 & S4 & S5).
  destruct Ha as [A1 _ _ _ _]. destruct Ha1 as [B1 B2 B3 B4 B5].
  rewrite B1, <- A1, Hc in Hc'. injection Hc' as <-. rewrite A1 in Hc. rewrite Hc. cbn [default from_option id].
  assert (acct (Usage (<[Z.to_nat tmu := c + 1]> (us_counts u))
    (us_uniforms u + (if submit && (c =? 0) then 0 else 4)) (us_samples u) (us_loop u)) s2) as Ha2.
  { split; cbn [us_counts us_uniforms us_samples us_loop]; [congruence| |congruence|congruence|congruence].
    rewrite S2, B2. destruct (submit && (c =? 0)); [lia|]. apply u32_small. lia. }
  destruct submit; cbn [Z.b2z].
  - pose proof (tmu_submit_use _ _ _ _ Ha2 Hn H) as Ha3. cbn [us_counts us_uniforms us_samples us_loop] in Ha3.
    by rewrite list_insert_insert_eq in Ha3.
  - injection H as <-. by rewrite Z.add_0_r.
Qed.

(** ** Whole instructions *)

Lemma check_reg_write_use u s is_mul s' inst :
  array_get (shader (vs s)) (vs_ip (vs s)) = Some inst ->
  acct u s -> 0 <= us_uniforms u < 2 ^ 32 - 4 -> us_samples u + 1 < 2 ^ 32 ->
  check_reg_write s is_mul = Some (true, s') -> acct (usage_write u (half_waddr inst is_mul)) s'.
Proof.
  intros Hi Ha Hu Hn H. unfold check_reg_write in H. rewrite Hi in H. cbn [mbind option_bind] in H.
  match type of H with ?x ≫= _ = _ => destruct x as [s1|] eqn:E1; [|discriminate H] end.
  cbn [mbind option_bind] in H.
  assert (same_use s s1 /\ keeps s s1) as [Hs K].
  { destruct (negb _); [|by injection E1 as <-]. split; [by eapply track_immediate_same|eauto with frame]. }
  pose proof (same_use_acct u _ _ Hs Ha) as Ha1. pose proof (keeps_inst _ _ _ K Hi) as Hi1. clear E1.
  set (w := half_waddr inst is_mul) in *.
  destruct (is_tmu_write w) eqn:Et.
  - revert H. unfold is_tmu_write, QPU_W_TMU0_S, QPU_W_TMU1_B in Et.
    unfold QPU_W_UNIFORMS_ADDRESS, QPU_W_TLB_COLOR_MS, QPU_W_TLB_COLOR_ALL, QPU_W_TLB_Z, QPU_W_TMU0_S,
      QPU_W_TMU0_T, QPU_W_TMU0_R, QPU_W_TMU0_B, QPU_W_TMU1_S, QPU_W_TMU1_T, QPU_W_TMU1_R, QPU_W_TMU1_B.
    destruct (Z.eqb_spec w 40); [lia|].
    destruct ((w =? 45) || (w =? 46) || (w =? 44)) eqn:E2; [lia|].
    destruct (_ || (w =? 63)) eqn:E3; [|lia]. intros H.
    apply (check_tmu_write_use u s1); try done.
  - unfold usage_write. rewrite Et. destruct (w =? QPU_W_UNIFORMS_ADDRESS).
    { destruct (xorb _ _); [discriminate H|]. by eapply validate_uniform_address_write_use. }
    apply (same_use_acct u s1); [|done]. unfold is_tmu_write, QPU_W_TMU0_S, QPU_W_TMU1_B in Et.
    destruct (_ || (w =? QPU_W_TLB_Z)); [by injection H as <-|].
    destruct (_ || (w =? QPU_W_TMU1_B)) eqn:E3.
    { exfalso. unfold QPU_W_TMU0_S, QPU_W_TMU0_T, QPU_W_TMU0_R, QPU_W_TMU0_B, QPU_W_TMU1_S,
        QPU_W_TMU1_T, QPU_W_TMU1_R, QPU_W_TMU1_B in E3. lia. }
    crunch H; reflexivity.
Qed.

Lemma check_instruction_writes_use u s s' inst :
  array_get (shader (vs s)) (vs_ip (vs s)) = Some inst ->
  acct u s -> 0 <= us_uniforms u < 2 ^ 32 - 12 -> us_samples u + 2 < 2 ^ 32 ->
  check_instruction_writes s = Some (true, s') ->
  acct (usage_write (usage_write u (QPU_WADDR_ADD inst)) (QPU_WADDR_MUL inst)) s'.
Proof.
  intros Hi Ha Hu Hn H. unfold check_instruction_writes in H. rewrite Hi in H. cbn [mbind option_bind] in H.
  destruct (is_tmu_write _ && is_tmu_write _); [discriminate H|].
  destruct (check_reg_write s false) as [[ok1 s1]|] eqn:E1; [|discriminate H].
  cbn [mbind option_bind] in H. destruct ok1; [|cbn [mbind option_bind] in H; crunch H].
  destruct (check_reg_write s1 true) as [[ok2 s2]|] eqn:E2; [|discriminate H].
  cbn [mbind option_bind] in H. destruct ok2; [|crunch H].
  destruct (track_live_clamps s2) as [s3|] eqn:E3; [|discriminate H]. cbn [mbind option_bind] in H.
  injection H as <-. pose proof (usage_write_bound u (QPU_WADDR_ADD inst)).
  assert (acct (usage_write u (QPU_WADDR_ADD inst)) s1) as Ha1
    by (apply (check_reg_write_use u s false s1 inst); done || lia).
  apply (same_use_acct _ s2); [by eapply track_live_clamps_same|].
  apply (check_reg_write_use _ s1 true s2 inst); try done; try lia.
  eapply keeps_inst; [by eapply check_reg_write_keeps|done].
Qed.

Lemma check_instruction_reads_use u s s' inst :
  array_get (shader (vs s)) (vs_ip (vs s)) = Some inst ->
  acct u s -> 0 <= us_uniforms u < 2 ^ 32 - 4 ->
  check_instruction_reads s = Some (true, s') ->
  acct (if reads_uniform inst then Usage (us_counts u) (us_uniforms u + 4) (us_samples u) (us_loop u) else u) s'.
Proof.
  intros Hi [A1 A2 A3 A4 A5] Hu H. unfold check_instruction_reads in H. rewrite Hi in H.
  cbn [mbind option_bind] in H. destruct (reads_uniform inst && _); [discriminate H|].
  destruct (reads_uniform inst), (reads_upper_half inst); injection H as <-; split;
    cbn [us_counts us_uniforms us_samples use_all_registers set_needs add_uniforms set_info set_vs vs info
      tmu_write_count uniforms_size num_texture_samples texture_samples]; try done;
    rewrite A2; apply u32_small; lia.
Qed.

Lemma check_math_use u s w ip s' w' inst :
  array_get (shader (vs s)) (vs_ip (vs s)) = Some inst -> is_math_sig (QPU_SIG inst) = true ->
  acct u s -> 0 <= us_uniforms u < 2 ^ 32 - 12 -> us_samples u + 2 < 2 ^ 32 ->
  check_math s w (QPU_SIG inst) ip = Some (true, s', w') -> acct (usage_inst u inst) s'.
Proof.
  intros Hi Hm Ha Hu Hn H. unfold check_math in H.
  destruct (check_instruction_writes s) as [[ok1 s1]|] eqn:E1; [|discriminate H].
  cbn [mbind option_bind] in H. destruct ok1; cbn [negb] in H; [|discriminate H].
  destruct (check_instruction_reads s1) as [[ok2 s2]|] eqn:E2; [|discriminate H].
  cbn [mbind option_bind] in H. destruct ok2; cbn [negb] in H; [|discriminate H].
  assert (acct (usage_inst u inst) s2) as Ha2.
  { unfold usage_inst, usage_read. rewrite Hm. cbn [andb].
    destruct (Z.eqb_spec (QPU_SIG inst) QPU_SIG_BRANCH) as [Eb|_]; [by rewrite Eb in Hm|].
    pose proof (usage_write_bound u (QPU_WADDR_ADD inst)).
    pose proof (usage_write_bound (usage_write u (QPU_WADDR_ADD inst)) (QPU_WADDR_MUL inst)).
    apply (check_instruction_reads_use _ s1); [|by eapply check_instruction_writes_use|lia|done].
    eapply keeps_inst; [by eapply check_instruction_writes_keeps|done]. }
  set (w1 := if QPU_SIG inst =? QPU_SIG_PROG_END then _ else w) in H. clearbody w1.
  destruct (is_switch_sig (QPU_SIG inst)).
  - destruct (ip <? _); [discriminate H|]. injection H as <- _. destruct Ha2. by split.
  - by injection H as <- _.
Qed.

Lemma check_instruction_use u s w ip s' w' inst :
  array_get (shader (vs s)) ip = Some inst ->
  acct u s -> 0 <= us_uniforms u < 2 ^ 32 - 12 -> us_samples u + 2 < 2 ^ 32 ->
  check_instruction s w ip = Some (true, s', w') -> acct (usage_inst u inst) s'.
Proof.
  intros Hi Ha Hu Hn H. unfold check_instruction in H. rewrite Hi in H. cbn [mbind option_bind] in H.
  destruct (vc4_handle_branch_target (set_ip s ip)) as [[ok1 s1]|] eqn:E1; [|discriminate H].
  cbn [mbind option_bind] in H. destruct ok1; cbn [negb] in H; [|discriminate H].
  match type of H with ?x ≫= _ = _ => destruct x as [s2|] eqn:E2; [|discriminate H] end.
  cbn [mbind option_bind] in H.
  assert (acct u s2 /\ keeps (set_ip s ip) s2) as [Ha2 K].
  { split.
    - apply (same_use_acct u (set_ip s ip)); [|by destruct Ha; split].
      transitivity s1; [by eapply handle_branch_target_same|].
      destruct (ip =? _); [by eapply reset_live_same|by injection E2 as <-].
    - transitivity s1; [eauto with frame|]. destruct (ip =? _); [eauto with frame|by injection E2 as <-]. }
  assert (array_get (shader (vs s2)) (vs_ip (vs s2)) = Some inst) as Hi2 by (by eapply keeps_inst).
  clear E1 E2. destruct (is_math_sig (QPU_SIG inst)) eqn:Hm; [by eapply check_math_use|].
  destruct (Z.eqb_spec (QPU_SIG inst) QPU_SIG_LOAD_IMM) as [El|El].
  - destruct (check_instruction_writes s2) as [[ok3 s3]|] eqn:E3; [|discriminate H].
    cbn [mbind option_bind] in H. injection H as -> <- _. unfold usage_inst, usage_read.
    rewrite Hm, El. by eapply check_instruction_writes_use.
  - destruct (Z.eqb_spec (QPU_SIG inst) QPU_SIG_BRANCH) as [Eb|Eb]; [|discriminate H].
    destruct (check_branch s2 inst) as [ok3 s3] eqn:E3. injection H as Hok <- _.
    unfold usage_inst. rewrite Eb, Z.eqb_refl. destruct Ha2 as [A1 A2 A3 A4 A5].
    unfold check_branch in E3. destruct (_ <? 0), (_ || _); injection E3 as _ <-; split; cbn;
      rewrite ?orb_true_r, ?orb_false_r; done.
Qed.

(** The instructions [ip .. e]. *)
Definition insts_from (sh : list Z) (ip e : Z) : list Z :=
  take (Z.to_nat (e + 1 - ip)) (drop (Z.to_nat ip) sh).

Lemma insts_from_cons sh ip e inst :
  0 <= ip <= e -> array_get sh ip = Some inst ->
  insts_from sh ip e = inst :: insts_from sh (ip + 1) e.
Proof.
  intros Hip [_ Hi]%array_get_Some. unfold insts_from.
  rewrite (drop_S _ _ _ Hi). replace (Z.to_nat (e + 1 - ip)) with (S (Z.to_nat (e + 1 - (ip + 1)))) by lia.
  cbn [take]. do 3 f_equal. lia.
Qed.

Lemma check_instructions_use fuel u s w ip s' e :
  Z.of_nat (length (shader (vs s))) < 2 ^ 28 -> 0 <= ip <= max_ip (vs s) ->
  acct u s -> 0 <= us_uniforms u <= 12 * ip -> us_samples u <= 2 * ip ->
  check_instructions fuel s w ip = Some (true, s', e) -> e <> max_ip (vs s') ->
  acct (foldl usage_inst u (insts_from (shader (vs s)) ip e)) s' /\ ip <= e.
Proof.
  revert u s w ip. induction fuel as [|fuel IH]; [done|].
  intros u s w ip Hlen Hip Ha Hu Hn H Hne. cbn [check_instructions] in H.
  destruct (Z.leb_spec (max_ip (vs s)) ip); [exfalso; injection H as <- <-; lia|].
  destruct (check_instruction s w ip) as [[[ok s1] w1]|] eqn:E; [|discriminate H].
  cbn [mbind option_bind] in H. destruct ok; cbn [negb] in H; [|discriminate H].
  destruct (check_instruction_ok _ _ _ _ _ E) as (inst & Hi & Hstep).
  pose proof (array_get_lt _ _ _ Hi) as Hlt. pose proof (usage_inst_bound u inst) as Hub.
  assert (acct (usage_inst u inst) s1) as Ha1 by (eapply check_instruction_use; done || lia).
  pose proof (sp_same _ _ _ _ _ _ Hstep) as (Hsh & Hmx & _).
  destruct (found_shader_end w1 && (ip =? u32 (shader_end_ip w1 + 2))) eqn:Ef.
  - injection H as <- <-. split; [|lia]. rewrite (insts_from_cons _ _ _ inst) by (lia || done).
    unfold insts_from. replace (ip + 1 - (ip + 1)) with 0 by lia. done.
  - rewrite u32_small in H by lia.
    destruct (IH (usage_inst u inst) s1 w1 (ip + 1)) as [Hacc Hle]; try done; try lia; [by rewrite Hsh|].
    rewrite Hsh in Hacc. split; [|lia]. by rewrite (insts_from_cons _ _ _ inst) by (lia || done).
Qed.
