(* ===== verification/Vc4ShaderOffsets.v ===== *)
(** * The offsets recorded for texture samples

    Command list validation later patches the uniforms at the offsets that shader
    validation records for each texture sample.  The offsets that validation keeps
    (texture setup of both units, clamps, recorded samples) always lie in the
    uniforms consumed so far. *)
From S2P Require Import Prelude Bitset QpuPack Vc4Defines Vc4Shader Vc4ShaderFrame Vc4ShaderSafe Vc4ShaderRun Vc4ShaderUniforms.

(** An offset is unused, or that of a word below [bound]. *)
Definition off_ok (bound o : Z) : Prop := o = UINT_MAX \/ (0 <= o < bound /\ o mod 4 = 0).

Definition sample_ok (bound : Z) (t : vc4_texture_sample_info) : Prop :=
  Forall (off_ok bound) (p_offset t).

Record offs (bound : Z) (s : st) : Prop := {
  of_setup : Forall (sample_ok bound) (tmu_setup (vs s));
  of_mins : Forall (off_ok bound) (live_min_clamp_offsets (vs s));
  of_samples : Forall (fun t => sample_wf t /\ sample_ok bound t) (texture_samples (info s)) }.

Lemma off_ok_mono b b' o : b <= b' -> off_ok b o -> off_ok b' o.
Proof. unfold off_ok. intros Hb [?|[? ?]]; [by left|right; lia]. Qed.

Lemma sample_ok_mono b b' t : b <= b' -> sample_ok b t -> sample_ok b' t.
Proof.
  intros Hb H. unfold sample_ok. eapply Forall_impl; [exact H|]. intros o. by apply off_ok_mono.
Qed.

Lemma offs_mono b b' s : b <= b' -> offs b s -> offs b' s.
Proof.
  intros Hb [H1 H2 H3]. split; (eapply Forall_impl; [done|]); cbn.
  - intros t. by apply sample_ok_mono.
  - intros o. by apply off_ok_mono.
  - intros t [? ?]. split; [done|]. by eapply sample_ok_mono.
Qed.

Lemma off_ok_unused b : off_ok b UINT_MAX.
Proof. by left. Qed.

(** Only these parts of the state matter. *)
Lemma offs_ext b s s' :
  tmu_setup (vs s') = tmu_setup (vs s) ->
  live_min_clamp_offsets (vs s') = live_min_clamp_offsets (vs s) ->
  texture_samples (info s') = texture_samples (info s) -> offs b s -> offs b s'.
Proof. intros E1 E2 E3 [H1 H2 H3]. split; congruence. Qed.

Create HintDb offs.
#[export] Hint Resolve off_ok_unused : offs.

Lemma set_p_offset_offs b s tmu k x s' :
  off_ok b x -> set_p_offset s tmu k x = Some s' -> offs b s -> offs b s'.
Proof.
  unfold set_p_offset. intros Hx H [H1 H2 H3]. crunch H. split; [|done|done]. cbn [vs set_tmu set_vs tmu_setup].
  eapply Forall_array_set; [exact H1| |exact E1]. unfold sample_ok. cbn [p_offset].
  eapply Forall_array_set; [|exact Hx|exact E0]. exact (Forall_array_get _ _ _ _ H1 E).
Qed.

Lemma set_is_direct_offs b s tmu s' : set_is_direct s tmu = Some s' -> offs b s -> offs b s'.
Proof.
  unfold set_is_direct. intros H [H1 H2 H3]. crunch H. split; [|done|done].
  cbn [vs set_tmu set_vs tmu_setup]. eapply Forall_array_set; [exact H1| |exact E0].
  exact (Forall_array_get _ _ _ _ H1 E).
Qed.

Lemma set_write_count_offs b s tmu n s' : set_write_count s tmu n = Some s' -> offs b s -> offs b s'.
Proof.
  intros (_ & _ & H1 & _ & H2 & H3 & _)%set_write_count_spec. apply offs_ext; [done|done|by rewrite H1].
Qed.

Lemma foldM_offs {A} b (f : st -> A -> option st) l s s' :
  (forall s x s', f s x = Some s' -> offs b s -> offs b s') -> foldM f s l = Some s' ->
  offs b s -> offs b s'.
Proof.
  intros Hf. revert s. induction l as [|x l IH]; intros s H Ho; cbn [foldM] in H.
  - by injection H as <-.
  - destruct (f s x) as [s1|] eqn:E; [|discriminate H]. cbn [mbind option_bind] in H. eauto.
Qed.

Lemma reset_p_offsets_offs b s tmu s' : reset_p_offsets s tmu = Some s' -> offs b s -> offs b s'.
Proof.
  unfold reset_p_offsets. apply foldM_offs. intros s1 x s2. apply set_p_offset_offs. apply off_ok_unused.
Qed.

Lemma reset_live_offs b s from s' : reset_live s from = Some s' -> offs b s -> offs b s'.
Proof.
  unfold reset_live. apply foldM_offs. intros s1 x s2 H [H1 H2 H3]. crunch H. split; [done| |done].
  cbn [vs set_live set_vs live_min_clamp_offsets]. eapply Forall_array_set; [exact H2| |exact E].
  apply off_ok_unused.
Qed.

Lemma reset_validation_state_offs b s s' : reset_validation_state s = Some s' -> offs b s -> offs b s'.
Proof.
  unfold reset_validation_state. intros H Ho. crunch H. eapply reset_live_offs; [exact H|].
  eapply foldM_offs; [|exact E|exact Ho]. intros s1 x s2. apply set_p_offset_offs. apply off_ok_unused.
Qed.

(** ** Texture writes *)

(** A direct read takes its second operand from the uniforms. *)
Lemma check_direct_write_offs b s inst is_mul tmu s' :
  check_direct_write s inst is_mul tmu = Some (true, s') ->
  add_b_is_uniform inst = true /\ QPU_SIG inst <> QPU_SIG_SMALL_IMM /\ (offs b s -> offs b s').
Proof.
  unfold check_direct_write. intros H.
  destruct (Z.eqb_spec (QPU_SIG inst) QPU_SIG_SMALL_IMM) as [|Hs]; [discriminate H|].
  destruct (is_mul || _); [discriminate H|]. destruct (_ =? UINT_MAX); [discriminate H|].
  destruct (array_get _ _) as [c|] eqn:Hc; [|discriminate H]. cbn [mbind option_bind] in H.
  destruct (c =? UINT_MAX); [discriminate H|].
  destruct (set_p_offset s tmu 1 c) as [s1|] eqn:E1; [|discriminate H]. cbn [mbind option_bind] in H.
  destruct (add_b_is_uniform inst); cbn [negb] in H; [|discriminate H].
  destruct (set_is_direct s1 tmu) as [s2|] eqn:E2; [|discriminate H]. cbn [mbind option_bind] in H.
  injection H as <-. split; [done|]. split; [done|]. intros Ho.
  eapply set_is_direct_offs; [exact E2|]. eapply set_p_offset_offs; [|exact E1|done].
  exact (Forall_array_get _ _ _ _ (of_mins _ _ Ho) Hc).
Qed.

Lemma tmu_store_offs b s tmu d s' :
  tmu_store s tmu d = Some (true, s') -> off_ok b (uniforms_size (info s)) -> offs b s -> offs b s'.
Proof.
  unfold tmu_store. intros H Hu Ho. destruct (array_get _ tmu) as [c|]; [|discriminate H].
  cbn [mbind option_bind] in H. destruct (4 <=? c); [discriminate H|].
  destruct (set_p_offset _ _ _ _) as [s1|] eqn:E1; [|discriminate H]. cbn [mbind option_bind] in H.
  destruct (set_write_count _ _ _) as [s2|] eqn:E2; [|discriminate H]. cbn [mbind option_bind] in H.
  destruct (negb d && _); [discriminate H|]. injection H as <-.
  assert (offs b s2) as Ho2.
  { eapply set_write_count_offs; [exact E2|]. by eapply set_p_offset_offs. }
  destruct d; cbn [negb]; [done|]. by apply (offs_ext b s2).
Qed.

Lemma tmu_submit_offs b s tmu s' :
  wf s -> tmu_submit s tmu = Some (true, s') -> offs b s -> offs b s'.
Proof.
  intros Hwf H Ho. unfold tmu_submit in H.
  destruct (record_texture_sample s tmu) as [[ok s1]|] eqn:E1; [|discriminate H].
  cbn [mbind option_bind] in H. destruct ok; cbn [negb] in H; [|discriminate H].
  destruct (set_write_count s1 tmu 0) as [s2|] eqn:E2; [|discriminate H]. cbn [mbind option_bind] in H.
  injection H as <-. eapply set_write_count_offs; [exact E2|]. clear E2.
  unfold record_texture_sample in E1. destruct (mem s) as [|m]; [discriminate E1|].
  destruct (array_get (tmu_setup (vs s)) tmu) as [t|] eqn:Ht; [|discriminate E1].
  cbn [mbind option_bind] in E1.
  destruct (reset_p_offsets _ _) as [s3|] eqn:E3; [|discriminate E1]. cbn [mbind option_bind] in E1.
  injection E1 as <-. eapply reset_p_offsets_offs; [exact E3|]. destruct Ho as [H1 H2 H3].
  split; [done|done|]. cbn [info texture_samples]. apply Forall_app. split; [by apply Forall_take|].
  constructor; [|done]. split; [exact (Forall_array_get _ _ _ _ (wf_samples _ Hwf) Ht)|].
  exact (Forall_array_get _ _ _ _ H1 Ht).
Qed.

(** Immediates that look like an operand taken from the uniforms are excluded: the
    validator reads their bits as operand fields. *)
Definition load_imm_benign (inst : Z) : bool :=
  negb (QPU_SIG inst =? QPU_SIG_LOAD_IMM) || negb (add_b_is_uniform inst).

(** The bytes an instruction reads from the uniforms after its writes. *)
Definition read_size (inst : Z) : Z :=
  if is_math_sig (QPU_SIG inst) && reads_uniform inst then 4 else 0.

Lemma add_b_reads_uniform inst :
  add_b_is_uniform inst = true -> QPU_SIG inst <> QPU_SIG_SMALL_IMM -> reads_uniform inst = true.
Proof.
  unfold add_b_is_uniform, reads_uniform. intros H Hs. apply Z.eqb_neq in Hs. rewrite Hs. cbn [negb].
  apply orb_true_iff in H as [[_ ->]%andb_prop|[_ ->]%andb_prop]; [done|]. cbn [andb]. apply orb_true_r.
Qed.

(** An instruction accepted for its writes is math or an immediate load. *)
Lemma operand_read_size inst :
  is_math_sig (QPU_SIG inst) || (QPU_SIG inst =? QPU_SIG_LOAD_IMM) = true ->
  load_imm_benign inst = true -> add_b_is_uniform inst = true ->
  QPU_SIG inst <> QPU_SIG_SMALL_IMM -> read_size inst = 4.
Proof.
  intros Hsig Hb Hu Hs. unfold read_size, load_imm_benign in *. rewrite Hu in Hb. cbn [negb] in Hb.
  rewrite orb_false_r in Hb. apply negb_true_iff in Hb. rewrite Hb, orb_false_r in Hsig.
  by rewrite Hsig, (add_b_reads_uniform _ Hu Hs).
Qed.

Section Instruction.
(** One instruction whose writes are accepted. *)
Context (inst : Z).
Hypothesis Hsig : is_math_sig (QPU_SIG inst) || (QPU_SIG inst =? QPU_SIG_LOAD_IMM) = true.
Hypothesis Hbenign : load_imm_benign inst = true.

Lemma check_tmu_write_offs b u s is_mul s' :
  array_get (shader (vs s)) (vs_ip (vs s)) = Some inst ->
  acct u s -> 0 <= us_uniforms u -> us_uniforms u mod 4 = 0 ->
  us_uniforms (usage_write u (half_waddr inst is_mul)) + read_size inst <= b ->
  is_tmu_write (half_waddr inst is_mul) = true -> wf s ->
  check_tmu_write s is_mul = Some (true, s') -> offs b s -> offs b s'.
Proof.
  intros Hi Ha Hu Hal Hb Ht Hwf H Ho. unfold check_tmu_write in H. rewrite Hi in H.
  cbn [mbind option_bind] in H. unfold usage_write in Hb. rewrite Ht in Hb. cbn [us_uniforms] in Hb.
  set (tmu := Z.b2z (QPU_W_TMU0_B <? half_waddr inst is_mul)) in *.
  destruct (array_get (tmu_write_count (vs s)) tmu) as [c|] eqn:Hc; [|discriminate H].
  cbn [mbind option_bind] in H. set (submit := is_tmu_submit (half_waddr inst is_mul)) in *.
  rewrite <- (ac_us_counts _ _ Ha), Hc in Hb. cbn [default from_option id] in Hb.
  destruct (tmu_check _ _ _ _ _) as [[ok s1]|] eqn:E1; [|discriminate H].
  cbn [mbind option_bind] in H. destruct ok; cbn [negb] in H; [|discriminate H].
  destruct (tmu_store s1 tmu _) as [[ok s2]|] eqn:E2; [|discriminate H].
  cbn [mbind option_bind] in H. destruct ok; cbn [negb] in H; [|discriminate H].
  assert (offs b s1 /\ us_uniforms u < b) as [Ho1 Hlt].
  { unfold tmu_check in E1. destruct (submit && (c =? 0)) eqn:Ed.
    - destruct (check_direct_write_offs b _ _ _ _ _ E1) as (Hub & Hns & Hof).
      rewrite (operand_read_size inst) in Hb by done. split; [auto|lia].
    - injection E1 as _ <-. split; [done|]. unfold read_size in Hb. destruct (_ && reads_uniform _); lia. }
  assert (offs b s2) as Ho2.
  { eapply tmu_store_offs; [exact E2| |done]. pose proof (tmu_check_same _ _ _ _ _ _ _ E1) as (_ & Hus & _).
    rewrite Hus, (ac_us_uniforms _ _ Ha). right. lia. }
  destruct submit; [|by injection H as <-]. eapply tmu_submit_offs; [|exact H|done].
  apply (kp_wf _ _ (tmu_store_keeps _ _ _ _ _ E2)), (kp_wf _ _ (tmu_check_keeps _ _ _ _ _ _ _ E1)). done.
Qed.

Lemma track_immediate_offs b s is_mul lri s' :
  track_immediate s inst is_mul lri = Some s' -> offs b s -> offs b s'.
Proof.
  unfold track_immediate. intros H Ho. crunch H. destruct (live_reg_is_upper_half lri); by apply (offs_ext b s).
Qed.

Lemma validate_uniform_address_write_offs b s is_mul s' :
  validate_uniform_address_write s is_mul = Some (true, s') -> offs b s -> offs b s'.
Proof.
  unfold validate_uniform_address_write. intros H Ho. crunch H.
  unfold require_uniform_address_uniform in H. cbn [mem set_needs set_vs] in H.
  destruct (mem s); [discriminate H|]. injection H as <-. by apply (offs_ext b s).
Qed.

Lemma check_reg_write_offs b u s is_mul s' :
  array_get (shader (vs s)) (vs_ip (vs s)) = Some inst ->
  acct u s -> 0 <= us_uniforms u -> us_uniforms u mod 4 = 0 ->
  us_uniforms (usage_write u (half_waddr inst is_mul)) + read_size inst <= b -> wf s ->
  check_reg_write s is_mul = Some (true, s') -> offs b s -> offs b s'.
Proof.
  intros Hi Ha Hu Hal Hb Hwf H Ho. unfold check_reg_write in H. rewrite Hi in H.
  cbn [mbind option_bind] in H.
  match type of H with ?x ≫= _ = _ => destruct x as [s1|] eqn:E1; [|discriminate H] end.
  cbn [mbind option_bind] in H.
  assert (same_use s s1 /\ keeps s s1 /\ offs b s1) as (Hs & K & Ho1).
  { destruct (negb _); [|by injection E1 as <-]. split; [by eapply track_immediate_same|].
    split; [eauto with frame|]. by eapply track_immediate_offs. }
  pose proof (same_use_acct u _ _ Hs Ha) as Ha1. pose proof (keeps_inst _ _ _ K Hi) as Hi1. clear E1.
  set (w := half_waddr inst is_mul) in *.
  destruct (w =? QPU_W_UNIFORMS_ADDRESS).
  { destruct (xorb _ _); [discriminate H|]. by eapply validate_uniform_address_write_offs. }
  destruct (_ || (w =? QPU_W_TLB_Z)); [by injection H as <-|].
  destruct (_ || (w =? QPU_W_TMU1_B)) eqn:E3.
  { eapply (check_tmu_write_offs b u s1 is_mul); try done; [|by apply (kp_wf _ _ K)]. fold w.
    unfold is_tmu_write, QPU_W_TMU0_S, QPU_W_TMU0_T, QPU_W_TMU0_R, QPU_W_TMU0_B, QPU_W_TMU1_S,
      QPU_W_TMU1_T, QPU_W_TMU1_R, QPU_W_TMU1_B in *. lia. }
  crunch H; done.
Qed.

Lemma clear_clamps_offs b s lri s' : clear_clamps s lri = Some s' -> offs b s -> offs b s'.
Proof.
  unfold clear_clamps. intros H [H1 H2 H3]. crunch H. split; [done| |done].
  cbn [vs set_live set_vs live_min_clamp_offsets]. eapply Forall_array_set; [exact H2| |eassumption].
  apply off_ok_unused.
Qed.

Lemma track_live_clamps_offs b s s' :
  array_get (shader (vs s)) (vs_ip (vs s)) = Some inst ->
  0 <= uniforms_size (info s) -> uniforms_size (info s) mod 4 = 0 ->
  uniforms_size (info s) + read_size inst <= b ->
  track_live_clamps s = Some s' -> offs b s -> offs b s'.
Proof.
  intros Hi Hu Hal Hb H Ho. unfold track_live_clamps in H. rewrite Hi in H. cbn [mbind option_bind] in H.
  match type of H with ?x ≫= _ = _ => destruct x as [m0|]; [|discriminate H] end.
  cbn [mbind option_bind] in H.
  match type of H with ?x ≫= _ = _ => destruct x as [s1|] eqn:E1; [|discriminate H] end.
  cbn [mbind option_bind] in H.
  assert (offs b s1 /\ same_use s s1) as [Ho1 Hs1].
  { destruct (negb _); [|by injection E1 as <-].
    split; [by eapply clear_clamps_offs|by eapply clear_clamps_same]. }
  clear E1. destruct (_ =? UINT_MAX); [by injection H as <-|].
  destruct (clear_clamps s1 _) as [s2|] eqn:E2; [|discriminate H]. cbn [mbind option_bind] in H.
  assert (offs b s2 /\ uniforms_size (info s2) = uniforms_size (info s)) as [Ho2 Hs2].
  { split; [by eapply clear_clamps_offs|]. apply clear_clamps_same in E2 as (_ & E2 & _).
    destruct Hs1 as (_ & Hs1 & _). congruence. }
  clear E2. destruct (negb (_ =? QPU_COND_ALWAYS)); [by injection H as <-|].
  destruct (_ =? QPU_A_MAX).
  { match type of H with (if ?c then _ else _) = _ => destruct c; [by injection H as <-|] end.
    destruct (array_set _ _ true); [|discriminate H]. cbn [mbind option_bind] in H. injection H as <-.
    by apply (offs_ext b s2). }
  destruct (_ =? QPU_A_MIN); [|by injection H as <-].
  destruct (negb m0); [by injection H as <-|].
  match type of H with (if ?c then _ else _) = _ => destruct c eqn:Ec; [by injection H as <-|] end.
  destruct (array_set _ _ _) as [mins|] eqn:Em; [|discriminate H]. cbn [mbind option_bind] in H.
  injection H as <-. destruct Ho2 as [O1 O2 O3]. split; [done| |done].
  cbn [vs set_live set_vs live_min_clamp_offsets]. eapply Forall_array_set; [exact O2| |exact Em].
  rewrite Hs2. right. split; [|done]. split; [done|].
  assert (add_b_is_uniform inst = true /\ reads_uniform inst = true) as [Ha Hr].
  { unfold add_b_is_uniform, reads_uniform.
    destruct (QPU_ADD_B inst =? QPU_MUX_A), (QPU_RADDR_A inst =? QPU_R_UNIF),
      (QPU_ADD_B inst =? QPU_MUX_B), (QPU_RADDR_B inst =? QPU_R_UNIF),
      (QPU_SIG inst =? QPU_SIG_SMALL_IMM); try done. }
  unfold read_size in Hb. rewrite Hr, andb_true_r in Hb. unfold load_imm_benign in Hbenign.
  rewrite Ha in Hbenign. cbn [negb] in Hbenign. rewrite orb_false_r in Hbenign.
  apply negb_true_iff in Hbenign. rewrite Hbenign, orb_false_r in Hsig. rewrite Hsig in Hb. lia.
Qed.

Lemma check_instruction_writes_offs b u s s' :
  array_get (shader (vs s)) (vs_ip (vs s)) = Some inst ->
  acct u s -> 0 <= us_uniforms u < 2 ^ 32 - 12 -> us_samples u + 2 < 2 ^ 32 ->
  us_uniforms u mod 4 = 0 -> wf s ->
  us_uniforms (usage_write (usage_write u (QPU_WADDR_ADD inst)) (QPU_WADDR_MUL inst))
    + read_size inst <= b ->
  check_instruction_writes s = Some (true, s') -> offs b s -> offs b s'.
Proof.
  intros Hi Ha Hu Hn Hal Hwf Hb H Ho. unfold check_instruction_writes in H. rewrite Hi in H.
  cbn [mbind option_bind] in H. destruct (is_tmu_write _ && is_tmu_write _); [discriminate H|].
  destruct (check_reg_write s false) as [[ok1 s1]|] eqn:E1; [|discriminate H].
  cbn [mbind option_bind] in H. destruct ok1; [|cbn [mbind option_bind] in H; crunch H].
  destruct (check_reg_write s1 true) as [[ok2 s2]|] eqn:E2; [|discriminate H].
  cbn [mbind option_bind] in H. destruct ok2; [|crunch H].
  destruct (track_live_clamps s2) as [s3|] eqn:E3; [|discriminate H]. cbn [mbind option_bind] in H.
  injection H as <-.
  pose proof (usage_write_bound u (QPU_WADDR_ADD inst)) as [Hb1 Hn1].
  pose proof (usage_write_bound (usage_write u (QPU_WADDR_ADD inst)) (QPU_WADDR_MUL inst)) as [Hb2 _].
  pose proof (check_reg_write_keeps _ _ _ _ E1) as K1. pose proof (check_reg_write_keeps _ _ _ _ E2) as K2.
  pose proof (keeps_inst _ _ _ K1 Hi) as Hi1. pose proof (keeps_inst _ _ _ K2 Hi1) as Hi2.
  assert (acct (usage_write u (QPU_WADDR_ADD inst)) s1) as Ha1
    by (apply (check_reg_write_use u s false s1 inst); done || lia).
  assert (acct (usage_write (usage_write u (QPU_WADDR_ADD inst)) (QPU_WADDR_MUL inst)) s2) as Ha2
    by (apply (check_reg_write_use _ s1 true s2 inst); done || lia).
  assert (offs b s1) as Ho1.
  { eapply (check_reg_write_offs b u s false); try done; cbn [half_waddr]; lia. }
  assert (us_uniforms (usage_write u (QPU_WADDR_ADD inst)) mod 4 = 0) as Hal1 by (by apply usage_write_align).
  assert (offs b s2) as Ho2.
  { eapply (check_reg_write_offs b _ s1 true); try done; cbn [half_waddr]; try lia.
    by apply (kp_wf _ _ K1). }
  pose proof (ac_us_uniforms _ _ Ha2) as Hs2.
  eapply track_live_clamps_offs; try done; rewrite Hs2; [lia|by apply usage_write_align|lia].
Qed.
End Instruction.

Lemma check_branch_offs b s inst ok s' : check_branch s inst = (ok, s') -> offs b s -> offs b s'.
Proof.
  unfold check_branch. intros H Ho. destruct (_ <? 0), (_ || _); injection H as _ <-;
    try done; by apply (offs_ext b s).
Qed.

Lemma check_instruction_reads_offs b s ok s' :
  check_instruction_reads s = Some (ok, s') -> offs b s -> offs b s'.
Proof.
  unfold check_instruction_reads. intros H Ho.
  destruct (array_get _ _) as [inst|]; [|discriminate H]. cbn [mbind option_bind] in H.
  destruct (reads_uniform inst), (reads_upper_half inst); cbn [andb] in H;
    try (destruct (needs_uniform_address_update _); injection H as _ <-; by apply (offs_ext b s));
    injection H as _ <-; by apply (offs_ext b s).
Qed.

Lemma handle_branch_target_offs b s ok s' :
  vc4_handle_branch_target s = Some (ok, s') -> offs b s -> offs b s'.
Proof.
  unfold vc4_handle_branch_target. intros H Ho. crunch H; try done.
  match goal with E : reset_validation_state s = Some ?s1 |- _ =>
    apply (offs_ext b s1); try done; by eapply reset_validation_state_offs end.
Qed.

Lemma usage_inst_math u inst :
  is_math_sig (QPU_SIG inst) || (QPU_SIG inst =? QPU_SIG_LOAD_IMM) = true ->
  us_uniforms (usage_inst u inst) =
  us_uniforms (usage_write (usage_write u (QPU_WADDR_ADD inst)) (QPU_WADDR_MUL inst)) + read_size inst.
Proof.
  intros Hs. unfold usage_inst, usage_read, read_size.
  destruct (Z.eqb_spec (QPU_SIG inst) QPU_SIG_BRANCH) as [Eb|_]; [by rewrite Eb in Hs|].
  destruct (_ && _); cbn [us_uniforms]; lia.
Qed.

Lemma check_instruction_offs u s w ip s' w' inst :
  array_get (shader (vs s)) ip = Some inst -> load_imm_benign inst = true ->
  acct u s -> 0 <= us_uniforms u < 2 ^ 32 - 12 -> us_samples u + 2 < 2 ^ 32 ->
  us_uniforms u mod 4 = 0 -> wf s ->
  check_instruction s w ip = Some (true, s', w') -> offs (us_uniforms u) s ->
  offs (us_uniforms (usage_inst u inst)) s'.
Proof.
  intros Hi Hben Ha Hu Hn Hal Hwf H Ho. pose proof (usage_inst_bound u inst) as [Hub _].
  unfold check_instruction in H. rewrite Hi in H. cbn [mbind option_bind] in H.
  destruct (vc4_handle_branch_target (set_ip s ip)) as [[ok1 s1]|] eqn:E1; [|discriminate H].
  cbn [mbind option_bind] in H. destruct ok1; cbn [negb] in H; [|discriminate H].
  match type of H with ?x ≫= _ = _ => destruct x as [s2|] eqn:E2; [|discriminate H] end.
  cbn [mbind option_bind] in H. set (b := us_uniforms (usage_inst u inst)) in *.
  assert (acct u s2 /\ keeps (set_ip s ip) s2 /\ offs b s2) as (Ha2 & K & Ho2).
  { split; [|split].
    - apply (same_use_acct u (set_ip s ip)); [|by destruct Ha; split].
      transitivity s1; [by eapply handle_branch_target_same|].
      destruct (ip =? _); [by eapply reset_live_same|by injection E2 as <-].
    - transitivity s1; [eauto with frame|]. destruct (ip =? _); [eauto with frame|by injection E2 as <-].
    - assert (offs b s1) as Ho1.
      { eapply handle_branch_target_offs; [exact E1|]. apply (offs_ext b s); try done.
        eapply offs_mono; [|exact Ho]. lia. }
      destruct (ip =? _); [by eapply reset_live_offs|by injection E2 as <-]. }
  assert (array_get (shader (vs s2)) (vs_ip (vs s2)) = Some inst) as Hi2 by (by eapply keeps_inst).
  assert (wf s2) as Hwf2 by (apply (kp_wf _ _ K); destruct Hwf; by split). clear E1 E2.
  assert (is_math_sig (QPU_SIG inst) || (QPU_SIG inst =? QPU_SIG_LOAD_IMM) = true -> forall s3,
    check_instruction_writes s2 = Some (true, s3) -> offs b s3) as Hwr.
  { intros Hs s3 E3. eapply (check_instruction_writes_offs inst Hs Hben b u s2 s3); try done.
    unfold b. rewrite usage_inst_math by done. lia. }
  destruct (is_math_sig (QPU_SIG inst)) eqn:Hm.
  - unfold check_math in H.
    destruct (check_instruction_writes s2) as [[ok3 s3]|] eqn:E3; [|discriminate H].
    cbn [mbind option_bind] in H. destruct ok3; cbn [negb] in H; [|discriminate H].
    destruct (check_instruction_reads s3) as [[ok4 s4]|] eqn:E4; [|discriminate H].
    cbn [mbind option_bind] in H. destruct ok4; cbn [negb] in H; [|discriminate H].
    assert (offs b s4) as Ho4 by (eapply check_instruction_reads_offs; [exact E4|]; auto).
    set (w1 := if QPU_SIG inst =? QPU_SIG_PROG_END then _ else w) in H. clearbody w1.
    destruct (is_switch_sig (QPU_SIG inst)); [|by injection H as <- _].
    destruct (ip <? _); [discriminate H|]. injection H as <- _. by apply (offs_ext b s4).
  - destruct (QPU_SIG inst =? QPU_SIG_LOAD_IMM).
    + destruct (check_instruction_writes s2) as [[ok3 s3]|] eqn:E3; [|discriminate H].
      cbn [mbind option_bind] in H. injection H as -> <- _. auto.
    + destruct (QPU_SIG inst =? QPU_SIG_BRANCH); [|discriminate H].
      destruct (check_branch s2 inst) as [ok3 s3] eqn:E3. injection H as _ <- _.
      by eapply check_branch_offs.
Qed.

Lemma check_instructions_offs fuel u s w ip s' e :
  Z.of_nat (length (shader (vs s))) < 2 ^ 28 -> 0 <= ip <= max_ip (vs s) ->
  (forall k inst, array_get (shader (vs s)) k = Some inst -> load_imm_benign inst = true) ->
  acct u s -> 0 <= us_uniforms u <= 12 * ip -> us_samples u <= 2 * ip ->
  us_uniforms u mod 4 = 0 -> wf s -> offs (us_uniforms u) s ->
  check_instructions fuel s w ip = Some (true, s', e) -> e <> max_ip (vs s') ->
  offs (us_uniforms (foldl usage_inst u (insts_from (shader (vs s)) ip e))) s'.
Proof.
  revert u s w ip. induction fuel as [|fuel IH]; [done|].
  intros u s w ip Hlen Hip Hben Ha Hu Hn Hal Hwf Ho H Hne.
  pose proof (check_instructions_use (S fuel) u s w ip s' e Hlen Hip Ha Hu Hn H Hne) as [_ Hle].
  cbn [check_instructions] in H.
  destruct (Z.leb_spec (max_ip (vs s)) ip); [exfalso; injection H as <- <-; lia|].
  destruct (check_instruction s w ip) as [[[ok s1] w1]|] eqn:E; [|discriminate H].
  cbn [mbind option_bind] in H. destruct ok; cbn [negb] in H; [|discriminate H].
  destruct (check_instruction_ok _ _ _ _ _ E) as (inst & Hi & Hstep).
  pose proof (array_get_lt _ _ _ Hi) as Hlt. pose proof (usage_inst_bound u inst) as Hub.
  pose proof (Hben _ _ Hi) as Hbi.
  assert (acct (usage_inst u inst) s1) as Ha1 by (eapply check_instruction_use; done || lia).
  assert (offs (us_uniforms (usage_inst u inst)) s1) as Ho1 by (eapply check_instruction_offs; done || lia).
  pose proof (sp_same _ _ _ _ _ _ Hstep) as (Hsh & Hmx & _). pose proof (sp_wf _ _ _ _ _ _ Hstep Hwf) as Hwf1.
  rewrite (insts_from_cons _ _ _ inst) by (lia || done). cbn [foldl].
  destruct (found_shader_end w1 && (ip =? u32 (shader_end_ip w1 + 2))) eqn:Ef.
  - injection H as <- <-. unfold insts_from. by replace (ip + 1 - (ip + 1)) with 0 by lia.
  - rewrite u32_small in H by lia. rewrite <- Hsh.
    apply (IH (usage_inst u inst) s1 w1 (ip + 1)); try done; try lia; rewrite ?Hsh; try done.
    by apply usage_inst_align.
Qed.

(** ** Accepting runs *)

Lemma finish_shader_inv s ip r :
  finish_shader s ip = Some (Some r) ->
  is_threaded r = is_threaded (info s) /\
  is_threaded (info s) && all_registers_used (vs s) = false /\
  uniforms_size r = (if needs_uniform_address_for_loop (vs s) then u32 (uniforms_size (info s) + 4)
                     else uniforms_size (info s)) /\
  num_texture_samples r = num_texture_samples (info s) /\
  texture_samples r = texture_samples (info s) /\
  uniforms_src_size r =
    u32 ((if needs_uniform_address_for_loop (vs s) then u32 (uniforms_size (info s) + 4)
          else uniforms_size (info s)) + 4 * num_texture_samples (info s)).
Proof.
  unfold finish_shader. intros H. destruct (ip =? _); [discriminate H|].
  destruct (is_threaded (info s) && all_registers_used (vs s)) eqn:Et; [discriminate H|].
  destruct (needs_uniform_address_for_loop (vs s)).
  - unfold require_uniform_address_uniform in H. destruct (mem s); cbn [mbind option_bind negb] in H;
      [discriminate H|]. injection H as <-. done.
  - cbn [mbind option_bind negb] in H. injection H as <-. done.
Qed.

Lemma accepting_run_facts sh r s0 s1 s2 b e :
  Z.of_nat (length sh) < 2 ^ 28 -> accepting_run sh r s0 s1 s2 b e ->
  acct (Usage [0; 0] 0 0 false) s1 /\ e <> max_ip (vs s2) /\ 0 <= max_ip (vs s1).
Proof.
  intros Hlen Hrun. destruct Hrun as [Hst Hl Hbr Hsh Hmx Hta Hin Hco Hse Hmi Hwf Htg Hwk Hfin Hlo].
  split; [|split].
  - split; rewrite ?Hin, ?(sd_info _ _ Hst); done.
  - intros ->. unfold finish_shader in Hfin. by rewrite Z.eqb_refl in Hfin.
  - rewrite Hmx. assert (Z.of_nat (length sh) < 2 ^ 31) as Hlen' by lia.
    apply (branches_loop_max_nonneg _ _ _ _ _ (Z.le_refl 0) Hlen' Hl). cbn. lia.
Qed.

Lemma usage_of_bound insts :
  0 <= us_uniforms (usage_of insts) <= 12 * Z.of_nat (length insts) /\
  0 <= us_samples (usage_of insts) <= 2 * Z.of_nat (length insts).
Proof.
  unfold usage_of. assert (forall u, 
    us_uniforms u <= us_uniforms (foldl usage_inst u insts) <= us_uniforms u + 12 * Z.of_nat (length insts) /\
    us_samples u <= us_samples (foldl usage_inst u insts) <= us_samples u + 2 * Z.of_nat (length insts)) as H.
  { induction insts as [|i insts IH]; intros u; cbn [foldl length]; [lia|].
    specialize (IH (usage_inst u i)). pose proof (usage_inst_bound u i). lia. }
  specialize (H (Usage [0; 0] 0 0 false)). cbn [us_uniforms us_samples] in H. lia.
Qed.

Lemma accepting_run_use sh r s0 s1 s2 b e :
  Z.of_nat (length sh) < 2 ^ 28 -> accepting_run sh r s0 s1 s2 b e ->
  acct (usage_of (insts_from sh 0 e)) s2 /\
  0 <= us_uniforms (usage_of (insts_from sh 0 e)) <= 12 * Z.of_nat (length sh) /\
  0 <= us_samples (usage_of (insts_from sh 0 e)) <= 2 * Z.of_nat (length sh).
Proof.
  intros Hlen Hrun. destruct (accepting_run_facts _ _ _ _ _ _ _ Hlen Hrun) as (Ha & Hne & Hm).
  pose proof (ac_shader _ _ _ _ _ _ _ Hrun) as Hsh.
  destruct (check_instructions_use _ _ _ _ _ _ _ ltac:(by rewrite Hsh) (conj (Z.le_refl 0) Hm) Ha
    ltac:(cbn; lia) ltac:(cbn; lia) (ac_walk _ _ _ _ _ _ _ Hrun) Hne) as [Hacc _].
  rewrite Hsh in Hacc. split; [exact Hacc|].
  pose proof (usage_of_bound (insts_from sh 0 e)).
  assert (length (insts_from sh 0 e) <= length sh)%nat.
  { unfold insts_from. rewrite length_take, length_drop. lia. }
  lia.
Qed.

Lemma accepting_run_offs sh r s0 s1 s2 b e :
  Z.of_nat (length sh) < 2 ^ 28 ->
  (forall k inst, array_get sh k = Some inst -> load_imm_benign inst = true) ->
  accepting_run sh r s0 s1 s2 b e -> offs (us_uniforms (usage_of (insts_from sh 0 e))) s2.
Proof.
  intros Hlen Hben Hrun. destruct (accepting_run_facts _ _ _ _ _ _ _ Hlen Hrun) as (Ha & Hne & Hm).
  pose proof (ac_shader _ _ _ _ _ _ _ Hrun) as Hsh.
  assert (offs (us_uniforms (Usage [0; 0] 0 0 false)) s1) as Ho.
  { split; [rewrite (ac_setup _ _ _ _ _ _ _ Hrun)|rewrite (ac_mins _ _ _ _ _ _ _ Hrun)|].
    - repeat constructor.
    - apply Forall_replicate. by left.
    - rewrite (ac_info _ _ _ _ _ _ _ Hrun), (sd_info _ _ (ac_start _ _ _ _ _ _ _ Hrun)). constructor. }
  rewrite <- Hsh. apply (check_instructions_offs _ _ _ _ _ _ _ ltac:(by rewrite Hsh)
    (conj (Z.le_refl 0) Hm) ltac:(by rewrite Hsh) Ha ltac:(cbn; lia) ltac:(cbn; lia) ltac:(done)
    (ac_wf _ _ _ _ _ _ _ Hrun) Ho (ac_walk _ _ _ _ _ _ _ Hrun) Hne).
Qed.
