(* ===== verification/Vc4ShaderTotal.v ===== *)
(** * Shader validation stays inside its arrays

    Under two conditions on the shader (the register the first operand of the add
    unit selects is tracked, and every program end is followed by its two delay
    slots) validation always returns, without an access out of bounds. *)
From S2P Require Import Prelude Bitset QpuPack QpuFields Vc4Defines Vc4Shader Vc4ShaderFrame Vc4ShaderSafe Vc4ShaderRun.

(** [raddr_add_a_to_live_reg_index] stays within the tracked registers. *)
Definition operand_tracked (inst : Z) : bool :=
  negb ((QPU_ADD_A inst =? QPU_MUX_B) && negb (QPU_SIG inst =? QPU_SIG_SMALL_IMM)
        && (36 <=? QPU_RADDR_B inst)).

Definition shader_in_bounds (sh : list Z) : Prop :=
  Z.of_nat (length sh) < 2 ^ 31 /\
  forall k inst, array_get sh k = Some inst ->
    operand_tracked inst = true /\
    (QPU_SIG inst = QPU_SIG_PROG_END -> k + 2 < Z.of_nat (length sh)).

(** ** Register indices *)

Lemma get_field_range inst h l :
  0 <= l <= h -> h < 64 -> h - l < 32 -> 0 <= QPU_GET_FIELD inst h l < 2 ^ (h - l + 1).
Proof.
  intros. rewrite GET_spec by lia. unfold get. rewrite Z.land_ones by lia.
  apply Z.mod_pos_bound, Z.pow_pos_nonneg; lia.
Qed.

Lemma waddr_lri_range waddr is_b :
  0 <= waddr < 64 ->
  waddr_to_live_reg_index waddr is_b =? UINT_MAX = false ->
  0 <= waddr_to_live_reg_index waddr is_b < 68.
Proof.
  unfold waddr_to_live_reg_index, QPU_W_ACC3, QPU_W_ACC0. intros Hw Hne.
  destruct (Z.ltb_spec waddr 32); [destruct is_b; lia|].
  destruct (Z.leb_spec waddr 35); [rewrite u32_small; lia|]. by rewrite Z.eqb_refl in Hne.
Qed.

Lemma half_waddr_range inst is_mul : 0 <= half_waddr inst is_mul < 64.
Proof. destruct is_mul; [apply (get_field_range inst 37 32)|apply (get_field_range inst 43 38)]; lia. Qed.

Lemma raddr_lri_range inst :
  operand_tracked inst = true ->
  raddr_add_a_to_live_reg_index inst =? UINT_MAX = false ->
  0 <= raddr_add_a_to_live_reg_index inst < 68.
Proof.
  unfold operand_tracked, raddr_add_a_to_live_reg_index, QPU_MUX_A, QPU_MUX_B, QPU_MUX_R3. intros Ht Hne.
  assert (0 <= QPU_RADDR_A inst < 64) by (apply (get_field_range inst 23 18); lia).
  assert (0 <= QPU_RADDR_B inst < 64) by (apply (get_field_range inst 17 12); lia).
  assert (0 <= QPU_ADD_A inst < 8) by (apply (get_field_range inst 11 9); lia).
  destruct (QPU_ADD_A inst =? 6); [lia|].
  destruct ((QPU_ADD_A inst =? 7) && negb (QPU_SIG inst =? QPU_SIG_SMALL_IMM)).
  - cbn [andb] in Ht. lia.
  - destruct (Z.leb_spec (QPU_ADD_A inst) 3); [lia|]. by rewrite Z.eqb_refl in Hne.
Qed.

(** ** Operations *)

Definition total {A} (o : option A) : Prop := is_Some o.

Lemma total_bind {A B} (o : option A) (f : A -> option B) :
  total o -> (forall a, o = Some a -> total (f a)) -> total (o ≫= f).
Proof. intros [a ->] H. by apply H. Qed.

Lemma total_get {A} (l : list A) i : 0 <= i < Z.of_nat (length l) -> total (array_get l i).
Proof. intros H. destruct (array_get_is_Some l i H) as [x ->]. by eexists. Qed.

Lemma total_set {A} (l : list A) i (x : A) : 0 <= i < Z.of_nat (length l) -> total (array_set l i x).
Proof. intros H. rewrite array_set_Some by done. by eexists. Qed.

Lemma total_Some {A} (a : A) : total (Some a).
Proof. by eexists. Qed.

Lemma total_if {A} (b : bool) (x y : option A) :
  (b = true -> total x) -> (b = false -> total y) -> total (if b then x else y).
Proof. destruct b; auto. Qed.

Create HintDb total.
#[export] Hint Resolve total_Some : total.

Section Wf.
Context (s : st) (Hwf : wf s).

Lemma set_p_offset_total tmu k x : 0 <= tmu < 2 -> 0 <= k < 4 -> total (set_p_offset s tmu k x).
Proof.
  intros Ht Hk. destruct Hwf as [W1 W2 W3 W4 W5 W6 W7]. unfold set_p_offset. apply total_bind; [apply total_get; lia|].
  intros t Hg. pose proof (Forall_array_get sample_wf _ _ _ W2 Hg) as Hl. unfold sample_wf in Hl.
  apply total_bind; [apply total_set; lia|]. intros p _.
  apply total_bind; [apply total_set; lia|]. eauto with total.
Qed.

Lemma set_is_direct_total tmu : 0 <= tmu < 2 -> total (set_is_direct s tmu).
Proof.
  intros Ht. destruct Hwf as [W1 W2 W3 W4 W5 W6 W7]. unfold set_is_direct. apply total_bind; [apply total_get; lia|].
  intros t _. apply total_bind; [apply total_set; lia|]. eauto with total.
Qed.

Lemma set_write_count_total tmu n : 0 <= tmu < 2 -> total (set_write_count s tmu n).
Proof.
  intros Ht. destruct Hwf as [W1 W2 W3 W4 W5 W6 W7]. unfold set_write_count. apply total_bind; [apply total_set; lia|].
  eauto with total.
Qed.

Lemma clear_clamps_total lri : 0 <= lri < 68 -> total (clear_clamps s lri).
Proof.
  intros Hl. destruct Hwf as [W1 W2 W3 W4 W5 W6 W7]. unfold clear_clamps. apply total_bind; [apply total_set; lia|]. intros m _.
  apply total_bind; [apply total_set; lia|]. eauto with total.
Qed.

Lemma track_immediate_total inst is_mul lri : 0 <= lri < 68 -> total (track_immediate s inst is_mul lri).
Proof.
  intros Hl. destruct Hwf as [W1 W2 W3 W4 W5 W6 W7]. unfold track_immediate. apply total_bind; [apply total_set; lia|].
  eauto with total.
Qed.
End Wf.

(** A loop of steps that keep well-formedness. *)
Lemma foldM_total {A} (f : st -> A -> option st) l s :
  wf s -> (forall s x, wf s -> In x l -> total (f s x)) ->
  (forall s x s', f s x = Some s' -> keeps s s') -> total (foldM f s l).
Proof.
  revert s. induction l as [|x l IH]; intros s Hwf Hf Hk; cbn [foldM]; [eauto with total|].
  apply total_bind; [apply Hf; [done|by left]|]. intros s1 E. apply IH; [|intros; apply Hf; [done|by right]|done].
  by apply (kp_wf _ _ (Hk _ _ _ E)).
Qed.

Lemma reset_p_offsets_total s tmu : wf s -> 0 <= tmu < 2 -> total (reset_p_offsets s tmu).
Proof.
  intros Hwf Ht. unfold reset_p_offsets. apply foldM_total; [done| |eauto with frame].
  intros s1 x Hw Hx. apply list_elem_of_In, elem_of_zrange in Hx. apply set_p_offset_total; [done|done|lia].
Qed.

Lemma reset_live_total s from : wf s -> 0 <= from <= 68 -> total (reset_live s from).
Proof.
  intros Hwf Hfr. unfold reset_live, LIVE_REG_COUNT. apply foldM_total; [done| |].
  - intros s1 x Hw Hx. apply list_elem_of_In, elem_of_zrange in Hx. destruct Hw.
    apply total_bind; [apply total_set; lia|]. intros m _. apply total_bind; [apply total_set; lia|].
    intros m' _. apply total_bind; [apply total_set; lia|]. eauto with total.
  - intros s1 x s2 H. crunch H. apply set_live_keeps; by erewrite array_set_length.
Qed.

Lemma reset_validation_state_total s : wf s -> total (reset_validation_state s).
Proof.
  intros Hwf. unfold reset_validation_state. apply total_bind.
  - apply foldM_total; [done| |intros ??? H; exact (set_p_offset_keeps _ _ _ _ _ H)].
    intros s1 x Hw Hx. apply list_elem_of_In, elem_of_zrange in Hx.
    apply set_p_offset_total; [done| |]; Z.to_euclidean_division_equations; lia.
  - intros s1 E. apply reset_live_total; [|lia].
    apply (kp_wf s s1); [|done]. eapply keeps_foldM; [|exact E].
    intros ??? H. exact (set_p_offset_keeps _ _ _ _ _ H).
Qed.

Lemma record_texture_sample_total s tmu : wf s -> 0 <= tmu < 2 -> total (record_texture_sample s tmu).
Proof.
  intros Hwf Ht. unfold record_texture_sample. destruct (mem s) as [|m]; [eauto with total|].
  apply total_bind; [destruct Hwf; apply total_get; lia|]. intros t _.
  apply total_bind; [|eauto with total]. apply reset_p_offsets_total; [|done].
  by apply (kp_wf s); [apply info_keeps|].
Qed.

Lemma check_direct_write_total s inst is_mul tmu :
  wf s -> 0 <= tmu < 2 -> operand_tracked inst = true ->
  total (check_direct_write s inst is_mul tmu).
Proof.
  intros Hwf Ht Hop. unfold check_direct_write.
  apply total_if; [eauto with total|intros _]. apply total_if; [eauto with total|intros _].
  apply total_if; [eauto with total|intros Hne]. pose proof (raddr_lri_range _ Hop Hne).
  apply total_bind; [destruct Hwf; apply total_get; lia|]. intros c _.
  apply total_if; [eauto with total|intros _].
  apply total_bind; [apply set_p_offset_total; (done || lia)|]. intros s1 E1.
  apply total_if; [eauto with total|intros _]. apply total_bind; [|eauto with total].
  apply set_is_direct_total; [|done]. by apply (kp_wf _ _ (set_p_offset_keeps _ _ _ _ _ E1)).
Qed.

Lemma tmu_store_total s tmu d : wf s -> 0 <= tmu < 2 -> total (tmu_store s tmu d).
Proof.
  intros Hwf Ht. unfold tmu_store. apply total_bind; [destruct Hwf; apply total_get; lia|].
  intros c Hc. pose proof (Forall_array_get _ _ _ _ (wf_count_range _ Hwf) Hc) as Hcr. cbn in Hcr.
  apply total_if; [eauto with total|intros Hlt].
  apply total_bind; [apply set_p_offset_total; (done || lia)|]. intros s1 E1.
  apply total_bind; [apply set_write_count_total; [|done]|].
  { by apply (kp_wf _ _ (set_p_offset_keeps _ _ _ _ _ E1)). }
  intros s2 _. apply total_if; eauto with total.
Qed.

Lemma tmu_submit_total s tmu : wf s -> 0 <= tmu < 2 -> total (tmu_submit s tmu).
Proof.
  intros Hwf Ht. unfold tmu_submit. apply total_bind; [by apply record_texture_sample_total|].
  intros [ok s1] E1. apply total_if; [eauto with total|intros _]. apply total_bind; [|eauto with total].
  apply set_write_count_total; [|done]. by apply (kp_wf _ _ (record_texture_sample_keeps _ _ _ _ E1)).
Qed.

Section Inst.
Context (inst : Z) (Hop : operand_tracked inst = true).

Lemma check_tmu_write_total s is_mul :
  wf s -> array_get (shader (vs s)) (vs_ip (vs s)) = Some inst -> total (check_tmu_write s is_mul).
Proof.
  intros Hwf Hi. unfold check_tmu_write. rewrite Hi. cbn [mbind option_bind].
  set (tmu := Z.b2z _). assert (0 <= tmu < 2) as Ht by (unfold tmu; destruct (_ <? _); cbn; lia).
  apply total_bind; [destruct Hwf; apply total_get; lia|]. intros c _.
  apply total_bind.
  { unfold tmu_check. apply total_if; [intros _; by apply check_direct_write_total|eauto with total]. }
  intros [ok s1] E1. apply total_if; [eauto with total|intros _].
  pose proof (kp_wf _ _ (tmu_check_keeps _ _ _ _ _ _ _ E1) Hwf) as Hwf1.
  apply total_bind; [by apply tmu_store_total|]. intros [ok2 s2] E2.
  apply total_if; [eauto with total|intros _]. apply total_if; [intros _|eauto with total].
  apply tmu_submit_total; [|done]. by apply (kp_wf _ _ (tmu_store_keeps _ _ _ _ _ E2)).
Qed.

Lemma validate_uniform_address_write_total s is_mul :
  wf s -> array_get (shader (vs s)) (vs_ip (vs s)) = Some inst ->
  total (validate_uniform_address_write s is_mul).
Proof.
  intros Hwf Hi. unfold validate_uniform_address_write. rewrite Hi. cbn [mbind option_bind].
  do 4 (apply total_if; [eauto with total|intros _]).
  apply total_if; [eauto with total|intros Hne]. pose proof (raddr_lri_range _ Hop Hne).
  apply total_bind; [destruct Hwf; apply total_get; lia|]. intros imm _.
  do 2 (apply total_if; [eauto with total|intros _]).
  unfold require_uniform_address_uniform. cbn [mem set_needs set_vs]. destruct (mem s); eauto with total.
Qed.

Lemma check_reg_write_total s is_mul :
  wf s -> array_get (shader (vs s)) (vs_ip (vs s)) = Some inst -> total (check_reg_write s is_mul).
Proof.
  intros Hwf Hi. unfold check_reg_write. rewrite Hi. cbn [mbind option_bind].
  apply total_bind.
  { apply total_if; [|eauto with total]. intros Hne. apply negb_true_iff in Hne.
    apply track_immediate_total; [done|]. apply waddr_lri_range; [apply half_waddr_range|done]. }
  intros s1 E1. assert (keeps s s1) as K.
  { destruct (negb _); [eauto with frame|by injection E1 as <-]. }
  pose proof (keeps_inst _ _ _ K Hi) as Hi1. pose proof (kp_wf _ _ K Hwf) as Hwf1.
  apply total_if; [intros _; apply total_if; [eauto with total|intros _]; by apply validate_uniform_address_write_total|].
  intros _. apply total_if; [eauto with total|intros _].
  apply total_if; [intros _; by apply check_tmu_write_total|intros _].
  repeat (apply total_if; [eauto with total|intros _]). eauto with total.
Qed.

Lemma track_live_clamps_total s :
  wf s -> array_get (shader (vs s)) (vs_ip (vs s)) = Some inst -> total (track_live_clamps s).
Proof.
  intros Hwf Hi. unfold track_live_clamps. rewrite Hi. cbn [mbind option_bind].
  apply total_bind.
  { apply total_if; [eauto with total|intros Hne]. pose proof (raddr_lri_range _ Hop Hne).
    destruct Hwf. apply total_get. lia. }
  intros m0 _. apply total_bind.
  { apply total_if; [|eauto with total]. intros Hne. apply negb_true_iff in Hne.
    apply clear_clamps_total; [done|]. apply waddr_lri_range; [apply (half_waddr_range inst true)|done]. }
  intros s1 E1. assert (wf s1) as Hwf1.
  { destruct (negb _); [by apply (kp_wf _ _ (clear_clamps_keeps _ _ _ E1))|by injection E1 as <-]. }
  apply total_if; [eauto with total|intros Hne].
  pose proof (waddr_lri_range _ _ (half_waddr_range inst false) Hne) as Hlri. cbn [half_waddr] in Hlri.
  apply total_bind; [by apply clear_clamps_total|]. intros s2 E2.
  destruct (kp_wf _ _ (clear_clamps_keeps _ _ _ E2) Hwf1).
  apply total_if; [eauto with total|intros _]. apply total_if; [intros _|intros _].
  - apply total_if; [eauto with total|intros _]. apply total_bind; [apply total_set; lia|]. eauto with total.
  - apply total_if; [intros _|eauto with total]. do 2 (apply total_if; [eauto with total|intros _]).
    apply total_bind; [apply total_set; lia|]. eauto with total.
Qed.

Lemma check_instruction_writes_total s :
  wf s -> array_get (shader (vs s)) (vs_ip (vs s)) = Some inst -> total (check_instruction_writes s).
Proof.
  intros Hwf Hi. unfold check_instruction_writes. rewrite Hi. cbn [mbind option_bind].
  apply total_if; [eauto with total|intros _].
  apply total_bind; [by apply check_reg_write_total|]. intros [ok1 s1] E1.
  pose proof (check_reg_write_keeps _ _ _ _ E1) as K1.
  pose proof (keeps_inst _ _ _ K1 Hi) as Hi1. pose proof (kp_wf _ _ K1 Hwf) as Hwf1.
  apply total_bind; [apply total_if; [intros _; by apply check_reg_write_total|eauto with total]|].
  intros [ok2 s2] E2. assert (keeps s1 s2) as K2 by (destruct ok1; [eauto with frame|by injection E2 as _ <-]).
  apply total_bind; [|eauto with total].
  apply track_live_clamps_total; [by apply (kp_wf _ _ K2)|by eapply keeps_inst].
Qed.
End Inst.

(** ** The passes *)

(** Bitmaps are long enough for the instructions of the shader. *)
Definition bitmap_covers (targets : list Z) (n : Z) : Prop :=
  forall k, 0 <= k < n -> 0 <= k / BITMAP_WORDBITS < Z.of_nat (length targets).

Lemma initial_bitmap n :
  0 <= n < 2 ^ 31 - 63 -> bitmap_covers (replicate (Z.to_nat (BITS_TO_LONGS n)) 0) n.
Proof.
  intros Hn k Hk. rewrite length_replicate. unfold BITS_TO_LONGS, roundup, BITMAP_WORDBITS, i32.
  change (8 * 8) with 64. change (Z.lnot (64 - 1)) with (- 2 ^ 6).
  rewrite (Z.mod_small (n + 2 ^ 31)) by lia. replace (n + 2 ^ 31 - 2 ^ 31 + 64 - 1) with (n + 63) by lia.
  assert (Z.land (n + 63) (- 2 ^ 6) = (n + 63) / 64 * 64) as ->.
  { change (- 2 ^ 6) with (Z.lnot (Z.ones 6)). rewrite <- Z.ldiff_land, Z.ldiff_ones_r by lia.
    rewrite Z.shiftr_div_pow2, Z.shiftl_mul_pow2 by lia. done. }
  rewrite Z2Nat.id by (apply Z.div_pos; Z.to_euclidean_division_equations; lia).
  Z.to_euclidean_division_equations; lia.
Qed.

Lemma bitmap_covers_length t t' n : length t' = length t -> bitmap_covers t n -> bitmap_covers t' n.
Proof. unfold bitmap_covers. by intros ->. Qed.

Lemma test_bit_total t n k : bitmap_covers t n -> 0 <= k < n -> total (test_bit k t).
Proof. intros Ht Hk. unfold test_bit. apply total_bind; [apply total_get; auto|eauto with total]. Qed.

Lemma set_bit_total t n k : bitmap_covers t n -> 0 <= k < n -> total (set_bit k t).
Proof.
  intros Ht Hk. unfold set_bit. apply total_bind; [apply total_get; auto|]. intros w _. apply total_set; auto.
Qed.

Lemma validate_branch_targets sh ip b ok b' :
  validate_branch sh ip b = Some (ok, b') -> length (bs_targets b') = length (bs_targets b).
Proof.
  unfold validate_branch. intros H.
  destruct (array_get sh ip) as [inst|]; [|discriminate H]. cbn [mbind option_bind] in H. cbv zeta in H.
  cbn [bs_max_ip bs_targets bs_max_target bs_last] in H.
  do 6 (match type of H with (if ?c then _ else _) = _ => destruct c; [by injection H as _ <-|] end).
  match type of H with (if ?c then _ else _) = _ => destruct c; [by injection H as _ <-|] end.
  destruct (set_bit _ (bs_targets b)) as [t1|] eqn:E1; [|discriminate H]. cbn [mbind option_bind] in H.
  apply set_bit_length in E1.
  match type of H with (if ?c then _ else _) = _ => destruct c; [by injection H as _ <-|] end.
  destruct (set_bit _ t1) as [t2|] eqn:E2; [|discriminate H]. cbn [mbind option_bind] in H.
  apply set_bit_length in E2. injection H as _ <-. cbn [bs_targets]. congruence.
Qed.

Section Shader.
Context (sh : list Z) (Hsh : shader_in_bounds sh).
Let len : Z := Z.of_nat (length sh).

Lemma validate_branch_total ip b :
  0 <= ip < bs_max_ip b -> bs_max_ip b <= len -> bitmap_covers (bs_targets b) len ->
  total (validate_branch sh ip b).
Proof.
  intros Hip Hm Hc. destruct Hsh as [Hlen Hi]. fold len in Hlen. unfold validate_branch.
  apply total_bind; [apply total_get; fold len; lia|]. intros inst _. cbv zeta.
  cbn [bs_max_ip bs_targets bs_max_target bs_last].
  do 6 (apply total_if; [eauto with total|intros _]).
  apply total_if; [eauto with total|intros Hlt]. apply Z.leb_gt in Hlt.
  assert (0 <= branch_target inst ip) by (unfold branch_target; apply u32_range).
  apply total_bind; [eapply set_bit_total; [exact Hc|lia]|]. intros t1 E1.
  apply total_if; [eauto with total|intros Hlt2]. rewrite u32_small in * by lia.
  apply total_bind; [|eauto with total].
  eapply (set_bit_total _ len); [|lia].
  exact (bitmap_covers_length _ _ _ (set_bit_length _ _ _ E1) Hc).
Qed.

Lemma validate_branches_loop_total fuel ip b :
  0 <= ip <= len -> len - ip < Z.of_nat fuel -> bs_max_ip b <= len ->
  bitmap_covers (bs_targets b) len ->
  exists ok b', validate_branches_loop fuel sh ip b = Some (ok, b') /\
    (ok = true -> bs_max_ip b' <= len /\ bitmap_covers (bs_targets b') len).
Proof.
  revert ip b. induction fuel as [|fuel IH]; intros ip b Hip Hf Hm Hc; [lia|].
  cbn [validate_branches_loop]. destruct (Z.leb_spec (bs_max_ip b) ip); [by exists true, b|].
  destruct (validate_branch_total ip b) as [[ok b1] E]; [lia|done|done|]. rewrite E.
  cbn [mbind option_bind]. destruct ok; cbn [negb]; [|by exists false, b1].
  destruct Hsh as [Hlen Hin]. fold len in Hlen, Hin.
  destruct (validate_branch_ok sh ip b b1) as (inst & Hi & Hs); [lia|done|].
  pose proof (bt_max _ _ _ _ _ Hs) as Hmax.
  apply IH; [lia|lia| |].
  - rewrite Hmax. destruct (Z.eqb_spec (QPU_SIG inst) QPU_SIG_PROG_END) as [Ep|]; [|done].
    destruct (Hin _ _ Hi) as [_ Hend]. specialize (Hend Ep). lia.
  - exact (bitmap_covers_length _ _ _ (validate_branch_targets _ _ _ _ _ E) Hc).
Qed.

Record run_wf (s : st) : Prop := {
  rw_wf : wf s;
  rw_shader : shader (vs s) = sh;
  rw_max : 0 <= max_ip (vs s) <= len;
  rw_bitmap : bitmap_covers (branch_targets (vs s)) len }.

Lemma run_wf_keeps s s' : keeps s s' -> run_wf s -> run_wf s'.
Proof.
  intros [K1 _ _ K4] [R1 R2 R3 R4]. unfold static in K1. injection K1 as _ E2 E3 E4.
  split; [auto|congruence|by rewrite E2|by rewrite E4].
Qed.

Lemma set_ip_run_wf s ip : run_wf s -> run_wf (set_ip s ip).
Proof. intros [[] R2 R3 R4]. split; [by split|done|done|done]. Qed.

Lemma vc4_handle_branch_target_total s :
  run_wf s -> 0 <= vs_ip (vs s) < len -> total (vc4_handle_branch_target s).
Proof.
  intros [R1 R2 R3 R4] Hip. unfold vc4_handle_branch_target.
  apply total_bind; [by eapply test_bit_total|]. intros t _.
  apply total_if; [eauto with total|intros _].
  apply total_bind.
  { unfold texturing_in_progress. destruct R1. apply total_bind; [apply total_get; lia|]. intros a _.
    apply total_bind; [apply total_get; lia|]. eauto with total. }
  intros busy _. apply total_if; [eauto with total|intros _].
  apply total_bind; [by apply reset_validation_state_total|]. eauto with total.
Qed.

Lemma check_instruction_total s w ip :
  run_wf s -> 0 <= ip < len -> total (check_instruction s w ip).
Proof.
  intros R Hip. unfold check_instruction. rewrite (rw_shader _ R).
  apply total_bind; [apply total_get; fold len; lia|]. intros inst Hi.
  destruct Hsh as [Hlen Hin]. destruct (Hin _ _ Hi) as [Hop _].
  apply total_bind; [by apply vc4_handle_branch_target_total; [apply set_ip_run_wf|]|].
  intros [ok1 s1] E1. apply total_if; [eauto with total|intros _].
  pose proof (vc4_handle_branch_target_keeps _ _ _ E1) as K1.
  pose proof (run_wf_keeps _ _ K1 (set_ip_run_wf _ ip R)) as R1.
  apply total_bind; [apply total_if; [intros _; apply reset_live_total; [apply R1|lia]|eauto with total]|].
  intros s2 E2. assert (keeps s1 s2) as K2 by (destruct (ip =? _); [eauto with frame|by injection E2 as <-]).
  pose proof (rw_wf _ (run_wf_keeps _ _ K2 R1)) as Hwf2.
  assert (array_get (shader (vs s2)) (vs_ip (vs s2)) = Some inst) as Hi2.
  { eapply keeps_inst; [exact K2|]. eapply keeps_inst; [exact K1|]. cbn [set_ip set_vs vs vs_ip shader].
    by rewrite (rw_shader _ R). }
  destruct (check_instruction_writes_total inst Hop s2 Hwf2 Hi2) as [[ok3 s3] E3].
  apply total_if; [intros _|intros _].
  - unfold check_math. rewrite E3. cbn [mbind option_bind]. apply total_if; [eauto with total|intros _].
    unfold check_instruction_reads.
    rewrite (keeps_inst _ _ _ (check_instruction_writes_keeps _ _ _ E3) Hi2). cbn [mbind option_bind].
    destruct (reads_uniform inst && _); cbn [mbind option_bind negb]; [eauto with total|].
    destruct (is_switch_sig _); [destruct (ip <? _)|]; eauto with total.
  - apply total_if; [intros _; rewrite E3; cbn [mbind option_bind]; eauto with total|intros _].
    apply total_if; [intros _|eauto with total]. destruct (check_branch s2 inst). eauto with total.
Qed.

Lemma check_instructions_total fuel s w ip :
  run_wf s -> 0 <= ip <= len -> len - ip < Z.of_nat fuel -> total (check_instructions fuel s w ip).
Proof.
  revert s w ip. induction fuel as [|fuel IH]; intros s w ip R Hip Hf; [lia|].
  cbn [check_instructions]. destruct (Z.leb_spec (max_ip (vs s)) ip); [eauto with total|].
  pose proof (rw_max _ R). destruct (check_instruction_total s w ip R ltac:(lia)) as [[[ok s1] w1] E].
  rewrite E. cbn [mbind option_bind]. destruct ok; cbn [negb]; [|eauto with total].
  apply total_if; [eauto with total|intros _].
  destruct (check_instruction_ok _ _ _ _ _ E) as (inst & Hi & Hs).
  destruct Hsh as [Hlen _]. fold len in Hlen. rewrite u32_small by lia. apply IH; [|lia|lia].
  destruct R as [R1 R2 R3 R4], Hs as [_ (S1 & S2 & S3) _ _ _ S6].
  split; [auto|congruence|by rewrite S2|by rewrite S3].
Qed.
End Shader.

Lemma finish_shader_total s ip : total (finish_shader s ip).
Proof.
  unfold finish_shader. do 2 (apply total_if; [eauto with total|intros _]).
  apply total_bind.
  - apply total_if; [intros _|eauto with total]. unfold require_uniform_address_uniform.
    destruct (mem s); cbn [mbind option_bind]; eauto with total.
  - intros [ok s1] _. apply total_if; eauto with total.
Qed.

Lemma run_shader_total sh s :
  shader_in_bounds sh -> Z.of_nat (length sh) < 2 ^ 31 - 63 -> started sh s -> total (run_shader s).
Proof.
  intros Hsh Hlen [S1 S2 S3 S4 S5 _ _ S6]. unfold run_shader.
  destruct (validate_branches_loop_total sh Hsh (S (S (length sh))) 0
    (BranchState (Z.of_nat (length sh)) (branch_targets (vs s)) 0 (-2))) as (ok & b & E & Hb);
    [lia|lia|cbn; lia|cbn [bs_targets]; rewrite S3; apply initial_bitmap; lia|].
  assert (vc4_validate_branches s = Some (ok && negb (u32 (bs_max_ip b - 3) <? bs_max_target b),
    set_vs s (ValidationState (vs_ip (vs s)) (bs_max_ip b) (shader (vs s)) (tmu_setup (vs s))
      (tmu_write_count (vs s)) (live_min_clamp_offsets (vs s)) (live_max_clamp_regs (vs s))
      (live_immediates (vs s)) (bs_targets b) (needs_uniform_address_update (vs s))
      (needs_uniform_address_for_loop (vs s)) (all_registers_used (vs s))))) as ->.
  { unfold vc4_validate_branches. by rewrite S1, S2, E. }
  cbn [mbind option_bind]. destruct ok; cbn [andb negb]; [|eauto with total].
  apply total_if; [eauto with total|intros _]. destruct (Hb eq_refl) as [Hm Hc].
  apply total_bind; [|intros [[ok2 s2] e] _; apply total_if; [eauto with total|intros _; apply finish_shader_total]].
  cbn [vs set_vs shader]. rewrite S1. apply (check_instructions_total sh Hsh); [|lia|lia].
  split; cbn [vs set_vs shader max_ip branch_targets]; [destruct S6; by split|done| |done].
  split; [|done]. destruct Hsh as [Hl _].
  apply (branches_loop_max_nonneg _ _ _ _ _ (Z.le_refl 0) Hl E). cbn. lia.
Qed.

Lemma validate_from_total s :
  total (start_shader s) -> (forall s', start_shader s = Some (Some s') -> total (run_shader s')) ->
  total (validate_from s).
Proof.
  intros [[s'|] H] Hr; unfold validate_from; rewrite H; cbn [mbind option_bind]; [auto|eauto with total].
Qed.

Lemma start_shader_total sh m : total (start_shader (initial_state sh m)).
Proof. rewrite (start_shader_eq _ _ (reset_initial sh m)). eauto with total. Qed.
