(* ===== verification/Vc4ShaderRest.v ===== *)
(** * What shader validation does not read

    Validation of a shader depends only on the instructions up to the two delay slots of its end, and on the
    length of the rest.  The proof is a simulation: the state of the run on another shader is the state of the run
    on the first one with the shader and the bitmap of branch targets replaced, and every operation
    keeps it so as long as the instruction it looks at is the same. *)
From S2P Require Import Prelude Bitset QpuPack Vc4Defines Vc4Shader Vc4ShaderFrame Vc4ShaderSafe Vc4ShaderRun.

(** ** Runs in step *)

Lemma mirror_same {A B C} (x : option A) (g : A -> option C) (k : A -> option B) (h : B -> C) :
  (forall a, x = Some a -> g a = h <$> k a) -> x ≫= g = h <$> (x ≫= k).
Proof. destruct x; cbn; auto. Qed.

Lemma mirror_bind {A A' B C} (x' : option A') (x : option A) (f : A -> A') (g : A' -> option C) (k : A -> option B)
    (h : B -> C) :
  x' = f <$> x -> (forall a, x = Some a -> g (f a) = h <$> k a) -> x' ≫= g = h <$> (x ≫= k).
Proof. intros ->. destruct x; cbn; auto. Qed.

Lemma foldM_mirror {S S' A} (r : S -> S') (f : S -> A -> option S) (f' : S' -> A -> option S') l s :
  (forall s x, f' (r s) x = r <$> f s x) -> foldM f' (r s) l = r <$> foldM f s l.
Proof.
  intros Hf. revert s. induction l as [|x l IH]; intros s; [done|]. cbn [foldM].
  eapply mirror_bind; [apply Hf|]. intros s1 _. apply IH.
Qed.

Section Mirror.

Context (sh targets : list Z).

(** The same state for another shader. *)
Definition reshape (s : st) : st :=
  let v := vs s in
  St (info s) (ValidationState (vs_ip v) (max_ip v) sh (tmu_setup v) (tmu_write_count v)
    (live_min_clamp_offsets v) (live_max_clamp_regs v) (live_immediates v) targets
    (needs_uniform_address_update v) (needs_uniform_address_for_loop v) (all_registers_used v)) (mem s).

Definition with_ok (x : bool * st) : bool * st := (x.1, reshape x.2).
Definition with_walk (x : bool * st * walk) : bool * st * walk := (x.1.1, reshape x.1.2, x.2).

(** The instruction pointed at is the same. *)
Definition same_inst (s : st) : Prop := array_get sh (vs_ip (vs s)) = array_get (shader (vs s)) (vs_ip (vs s)).

Lemma same_inst_keeps s s' : keeps s s' -> same_inst s -> same_inst s'.
Proof. intros K. unfold same_inst. pose proof (kp_static _ _ K) as E. unfold static in E. congruence. Qed.

Create HintDb mirror.

Ltac mirror_step :=
  match goal with
  | |- _ ≫= _ = _ <$> (_ ≫= _) => first
      [ apply mirror_same; intros ? ?
      | eapply mirror_bind; [solve [eauto with mirror]|intros ? ?] ]
  | |- (if ?b then _ else _) = _ <$> (if ?b' then _ else _) => change b with b'; destruct b'
  | |- context [let '(_, _) := ?p in _] => is_var p; destruct p; cbn [with_ok fst snd]
  end.
Ltac mirror := repeat mirror_step; try reflexivity; eauto with mirror.

Lemma set_p_offset_mirror s tmu k x : set_p_offset (reshape s) tmu k x = reshape <$> set_p_offset s tmu k x.
Proof. unfold set_p_offset. mirror. Qed.

Lemma set_is_direct_mirror s tmu : set_is_direct (reshape s) tmu = reshape <$> set_is_direct s tmu.
Proof. unfold set_is_direct. mirror. Qed.

Lemma set_write_count_mirror s tmu n : set_write_count (reshape s) tmu n = reshape <$> set_write_count s tmu n.
Proof. unfold set_write_count. mirror. Qed.

Lemma reset_p_offsets_mirror s tmu : reset_p_offsets (reshape s) tmu = reshape <$> reset_p_offsets s tmu.
Proof. unfold reset_p_offsets. apply foldM_mirror. intros. apply set_p_offset_mirror. Qed.
#[local] Hint Resolve set_p_offset_mirror set_is_direct_mirror set_write_count_mirror reset_p_offsets_mirror : mirror.

Lemma record_texture_sample_mirror s tmu :
  record_texture_sample (reshape s) tmu = with_ok <$> record_texture_sample s tmu.
Proof.
  unfold record_texture_sample. cbn [mem reshape]. destruct (mem s) as [|m]; [done|]. apply mirror_same. intros t _.
  cbn zeta. eapply mirror_bind; [|by intros]. apply (reset_p_offsets_mirror (St _ (vs s) m)).
Qed.

Lemma require_uniform_mirror s :
  require_uniform_address_uniform (reshape s) = with_ok <$> require_uniform_address_uniform s.
Proof. unfold require_uniform_address_uniform. cbn [mem reshape]. by destruct (mem s). Qed.

Lemma check_direct_write_mirror s inst is_mul tmu :
  check_direct_write (reshape s) inst is_mul tmu = with_ok <$> check_direct_write s inst is_mul tmu.
Proof. unfold check_direct_write. mirror. Qed.
#[local] Hint Resolve record_texture_sample_mirror require_uniform_mirror check_direct_write_mirror : mirror.

Lemma tmu_check_mirror s inst is_mul tmu d :
  tmu_check (reshape s) inst is_mul tmu d = with_ok <$> tmu_check s inst is_mul tmu d.
Proof. unfold tmu_check. mirror. Qed.

Lemma tmu_store_mirror s tmu d : tmu_store (reshape s) tmu d = with_ok <$> tmu_store s tmu d.
Proof. unfold tmu_store. mirror. by destruct d. Qed.

Lemma tmu_submit_mirror s tmu : tmu_submit (reshape s) tmu = with_ok <$> tmu_submit s tmu.
Proof. unfold tmu_submit. mirror. Qed.
#[local] Hint Resolve tmu_check_mirror tmu_store_mirror tmu_submit_mirror : mirror.

(** The operations that look at the instruction. *)
Ltac fetch Hs :=
  match goal with |- array_get _ _ ≫= _ = _ =>
    match type of Hs with same_inst ?s =>
      change (array_get (shader (vs (reshape s))) (vs_ip (vs (reshape s)))) with (array_get sh (vs_ip (vs s)));
      rewrite Hs; apply mirror_same; intros inst _ end end.

Lemma check_tmu_write_mirror s is_mul :
  same_inst s -> check_tmu_write (reshape s) is_mul = with_ok <$> check_tmu_write s is_mul.
Proof. intros Hs. unfold check_tmu_write. fetch Hs. cbv zeta. mirror. Qed.

Lemma validate_uniform_address_write_mirror s is_mul :
  same_inst s ->
  validate_uniform_address_write (reshape s) is_mul = with_ok <$> validate_uniform_address_write s is_mul.
Proof.
  intros Hs. unfold validate_uniform_address_write. fetch Hs. cbv zeta. mirror.
  apply (require_uniform_mirror (set_needs s false false (all_registers_used (vs s)))).
Qed.

Lemma track_immediate_mirror s inst is_mul lri :
  track_immediate (reshape s) inst is_mul lri = reshape <$> track_immediate s inst is_mul lri.
Proof. unfold track_immediate. cbv zeta. mirror. by destruct (live_reg_is_upper_half lri). Qed.
#[local] Hint Resolve check_tmu_write_mirror validate_uniform_address_write_mirror track_immediate_mirror : mirror.

Lemma check_reg_write_mirror s is_mul :
  same_inst s -> check_reg_write (reshape s) is_mul = with_ok <$> check_reg_write s is_mul.
Proof.
  intros Hs. unfold check_reg_write. fetch Hs. cbv zeta.
  eapply (mirror_bind _ _ reshape); [by mirror|]. intros s1 E.
  assert (same_inst s1) as Hs1.
  { eapply same_inst_keeps; [|exact Hs]. destruct (negb _); [by eapply track_immediate_keeps|by injection E as <-]. }
  mirror.
Qed.

Lemma clear_clamps_mirror s lri : clear_clamps (reshape s) lri = reshape <$> clear_clamps s lri.
Proof. unfold clear_clamps. cbv zeta. mirror. Qed.
#[local] Hint Resolve check_reg_write_mirror clear_clamps_mirror : mirror.

Lemma track_live_clamps_mirror s :
  same_inst s -> track_live_clamps (reshape s) = reshape <$> track_live_clamps s.
Proof.
  intros Hs. unfold track_live_clamps. fetch Hs. cbv zeta. apply mirror_same. intros add_a_is_min_0 _.
  eapply (mirror_bind _ _ reshape); [by mirror|]. intros s1 _. mirror.
Qed.
#[local] Hint Resolve track_live_clamps_mirror : mirror.

Lemma check_instruction_writes_mirror s :
  same_inst s -> check_instruction_writes (reshape s) = with_ok <$> check_instruction_writes s.
Proof.
  intros Hs. unfold check_instruction_writes. fetch Hs. destruct (_ && _); [done|].
  eapply mirror_bind; [by apply check_reg_write_mirror|]. intros [ok s1] E1. cbn [with_ok fst snd].
  assert (same_inst s1) as Hs1 by (eapply same_inst_keeps; [by eapply check_reg_write_keeps|done]).
  eapply (mirror_bind _ _ with_ok); [by destruct ok; [apply check_reg_write_mirror|]|].
  intros [ok2 s2] E2. cbn [with_ok fst snd].
  assert (same_inst s2) as Hs2.
  { destruct ok; [eapply same_inst_keeps; [by eapply check_reg_write_keeps|done]|by injection E2 as _ <-]. }
  eapply mirror_bind; [by apply track_live_clamps_mirror|]. done.
Qed.

Lemma check_branch_mirror s inst : check_branch (reshape s) inst = with_ok (check_branch s inst).
Proof. unfold check_branch. cbv zeta. by destruct (_ <? 0), (_ || _). Qed.

Lemma check_instruction_reads_mirror s :
  same_inst s -> check_instruction_reads (reshape s) = with_ok <$> check_instruction_reads s.
Proof.
  intros Hs. unfold check_instruction_reads. fetch Hs. cbv zeta.
  destruct (reads_uniform inst), (reads_upper_half inst); cbn [andb]; mirror.
Qed.

Lemma reset_live_mirror s from : reset_live (reshape s) from = reshape <$> reset_live s from.
Proof. unfold reset_live. apply foldM_mirror. intros. cbv zeta. mirror. Qed.

Lemma reset_validation_state_mirror s : reset_validation_state (reshape s) = reshape <$> reset_validation_state s.
Proof.
  unfold reset_validation_state. eapply mirror_bind; [|intros; apply reset_live_mirror].
  apply foldM_mirror. intros. apply set_p_offset_mirror.
Qed.

(** The bit of the instruction pointed at is the same. *)
Definition same_target (s : st) : Prop :=
  test_bit (vs_ip (vs s)) targets = test_bit (vs_ip (vs s)) (branch_targets (vs s)).

Lemma handle_branch_target_mirror s :
  same_target s -> vc4_handle_branch_target (reshape s) = with_ok <$> vc4_handle_branch_target s.
Proof.
  intros Ht. unfold vc4_handle_branch_target.
  change (test_bit (vs_ip (vs (reshape s))) (branch_targets (vs (reshape s)))) with (test_bit (vs_ip (vs s)) targets).
  rewrite Ht. apply mirror_same. intros [|] _; [|done]. cbn [negb]. apply mirror_same. intros [|] _; [done|].
  eapply mirror_bind; [apply reset_validation_state_mirror|]. done.
Qed.

Lemma check_math_mirror s w sig ip :
  same_inst s -> check_math (reshape s) w sig ip = with_walk <$> check_math s w sig ip.
Proof.
  intros Hs. unfold check_math.
  eapply mirror_bind; [by apply check_instruction_writes_mirror|]. intros [ok s1] E1. cbn [with_ok fst snd].
  assert (same_inst s1) as Hs1 by (eapply same_inst_keeps; [by eapply check_instruction_writes_keeps|done]).
  destruct ok; [|done]. cbn [negb].
  eapply mirror_bind; [by apply check_instruction_reads_mirror|]. intros [ok2 s2] E2. cbn [with_ok fst snd].
  destruct ok2; [|done]. cbn [negb]. cbv zeta. destruct (is_switch_sig sig); [|done]. by destruct (ip <? _).
Qed.

Lemma check_instruction_mirror s w ip :
  array_get sh ip = array_get (shader (vs s)) ip -> test_bit ip targets = test_bit ip (branch_targets (vs s)) ->
  check_instruction (reshape s) w ip = with_walk <$> check_instruction s w ip.
Proof.
  intros Hi Ht. unfold check_instruction. change (shader (vs (reshape s))) with sh. rewrite Hi.
  apply mirror_same. intros inst _. cbv zeta. change (set_ip (reshape s) ip) with (reshape (set_ip s ip)).
  eapply mirror_bind; [by apply handle_branch_target_mirror|]. intros [ok s1] E1. cbn [with_ok fst snd].
  apply vc4_handle_branch_target_keeps in E1. destruct ok; [|done]. cbn [negb].
  eapply (mirror_bind _ _ reshape); [destruct (ip =? _); [apply reset_live_mirror|done]|]. intros s2 E2.
  assert (same_inst s2) as Hs2.
  { apply (same_inst_keeps (set_ip s ip)); [|exact Hi]. transitivity s1; [done|].
    destruct (ip =? _); [by eapply reset_live_keeps|by injection E2 as <-]. }
  destruct (is_math_sig _); [by apply check_math_mirror|]. destruct (_ =? QPU_SIG_LOAD_IMM).
  - eapply mirror_bind; [by apply check_instruction_writes_mirror|]. by intros [ok3 s3] _.
  - destruct (_ =? QPU_SIG_BRANCH); [|done]. rewrite check_branch_mirror. by destruct (check_branch s2 inst).
Qed.

Lemma check_instructions_mirror fuel fuel' s w ip s' e :
  (fuel <= fuel')%nat -> 0 <= ip -> max_ip (vs s) < 2 ^ 31 ->
  (forall k, 0 <= k < max_ip (vs s) -> array_get sh k = array_get (shader (vs s)) k) ->
  (forall k t, test_bit k (branch_targets (vs s)) = Some t -> test_bit k targets = Some t) ->
  check_instructions fuel s w ip = Some (true, s', e) ->
  check_instructions fuel' (reshape s) w ip = Some (true, reshape s', e).
Proof.
  revert fuel' s w ip. induction fuel as [|fuel IH]; [done|]. intros [|fuel'] s w ip Hf Hip Hmax Hi Ht H; [lia|].
  cbn [check_instructions] in *. change (max_ip (vs (reshape s))) with (max_ip (vs s)).
  destruct (Z.leb_spec (max_ip (vs s)) ip); [by injection H as <- <-|].
  destruct (check_instruction s w ip) as [[[ok s1] w1]|] eqn:E; [|discriminate H].
  assert (exists t, test_bit ip (branch_targets (vs s)) = Some t) as [t Et].
  { unfold check_instruction in E. destruct (array_get _ ip); [|discriminate E]. cbn [mbind option_bind] in E.
    unfold vc4_handle_branch_target in E. change (vs_ip (vs (set_ip s ip))) with ip in E.
    change (branch_targets (vs (set_ip s ip))) with (branch_targets (vs s)) in E.
    destruct (test_bit ip _); [by eexists|discriminate E]. }
  rewrite (check_instruction_mirror s w ip), E by (rewrite ?Et; auto with lia).
  cbn [fmap option_fmap option_map mbind option_bind with_walk fst snd] in *.
  destruct ok; cbn [negb] in *; [|discriminate H].
  destruct (check_instruction_ok _ _ _ _ _ E) as (inst & _ & Hstep).
  pose proof (sp_same _ _ _ _ _ _ Hstep) as (Hsh & Hmx & Hta).
  destruct (found_shader_end w1 && _); [by injection H as <- <-|].
  rewrite u32_small in * by lia. apply IH; [lia|lia|by rewrite Hmx| | |done].
  - intros k. rewrite Hsh, Hmx. apply Hi.
  - intros k t'. rewrite Hta. apply Ht.
Qed.

Lemma finish_shader_mirror s ip : finish_shader (reshape s) ip = finish_shader s ip.
Proof.
  unfold finish_shader. change (max_ip (vs (reshape s))) with (max_ip (vs s)). destruct (ip =? _); [done|].
  change (is_threaded (info (reshape s)) && all_registers_used (vs (reshape s)))
    with (is_threaded (info s) && all_registers_used (vs s)). destruct (is_threaded _ && _); [done|].
  change (needs_uniform_address_for_loop (vs (reshape s))) with (needs_uniform_address_for_loop (vs s)).
  destruct (needs_uniform_address_for_loop _); [|done]. rewrite require_uniform_mirror.
  unfold require_uniform_address_uniform. by destruct (mem s).
Qed.

End Mirror.

(** ** Branches *)

Lemma array_get_prefix {A} (l rest : list A) i x : array_get l i = Some x -> array_get (l ++ rest) i = Some x.
Proof.
  intros [Hi Hx]%array_get_Some. apply array_get_Some. split; [done|]. by apply lookup_app_l_Some.
Qed.

Lemma test_bit_app k l rest t : test_bit k l = Some t -> test_bit k (l ++ rest) = Some t.
Proof.
  unfold test_bit. destruct (array_get l _) as [x|] eqn:E; [|done]. by rewrite (array_get_prefix _ rest _ _ E).
Qed.

Lemma set_bit_app k l rest l' : set_bit k l = Some l' -> set_bit k (l ++ rest) = Some (l' ++ rest).
Proof.
  unfold set_bit. intros H. destruct (array_get l _) as [x|] eqn:E; [|discriminate H].
  rewrite (array_get_prefix _ rest _ _ E). cbn [mbind option_bind] in *. apply array_set_inv in H as [Hr ->].
  rewrite array_set_Some by (rewrite length_app; lia). by rewrite insert_app_l by lia.
Qed.

(** Every instruction looked at lies before the end found. *)
Lemma branches_loop_visited fuel sh ip b b' :
  0 <= ip -> Z.of_nat (length sh) < 2 ^ 31 ->
  validate_branches_loop fuel sh ip b = Some (true, b') -> ip < bs_max_ip b -> ip < bs_max_ip b'.
Proof.
  intros Hip Hlen. revert ip b Hip. induction fuel as [|fuel IH]; [done|]. intros ip b Hip H Hm.
  destruct (branches_loop_step _ _ _ _ _ Hip Hlen H) as [[? ->]|(? & inst & b1 & Hi & Hs & H1)]; [lia|].
  pose proof (bt_max _ _ _ _ _ Hs) as Hmax. destruct (QPU_SIG inst =? QPU_SIG_PROG_END).
  - pose proof (branches_loop_final _ _ (ip + 1) _ _ ltac:(lia) Hlen H1). lia.
  - destruct (Z.eq_dec (ip + 1) (bs_max_ip b)) as [E|].
    + destruct fuel as [|fuel]; [done|]. cbn [validate_branches_loop] in H1.
      destruct (Z.leb_spec (bs_max_ip b1) (ip + 1)); [injection H1 as <-; lia|lia].
    + specialize (IH (ip + 1) b1 ltac:(lia) H1). lia.
Qed.

Section Branches.

Context (sh sh' rest : list Z).

(** The states of the two loops at [ip]: until a program end is met, the limits are the lengths. *)
Record branches_same (ip : Z) (b c : branch_state) : Prop := {
  bm_targets : bs_targets c = bs_targets b ++ rest;
  bm_target : bs_max_target c = bs_max_target b;
  bm_last : bs_last c = bs_last b;
  bm_max : bs_max_ip c = bs_max_ip b \/
    bs_max_ip b = Z.of_nat (length sh) /\ bs_max_ip c = Z.of_nat (length sh') /\
    forall k, k < ip -> ~ program_end sh k }.

Hypothesis longer : (length sh <= length sh')%nat.
Hypothesis short : Z.of_nat (length sh') < 2 ^ 31.

Lemma validate_branch_mirror ip b c b' :
  0 <= ip -> array_get sh' ip = array_get sh ip -> branches_same ip b c -> validate_branch sh ip b = Some (true, b') ->
  exists c', validate_branch sh' ip c = Some (true, c') /\ branches_same (ip + 1) b' c'.
Proof.
  intros Hip Hi [T1 T2 T3 T4] H. unfold validate_branch in *. rewrite Hi.
  destruct (array_get sh ip) as [inst|] eqn:Eg; [|discriminate H]. cbn [mbind option_bind] in *.
  assert (bs_max_ip b <= bs_max_ip c) as Hle by lia.
  assert (QPU_SIG inst <> QPU_SIG_PROG_END -> forall b1 c1 : branch_state, bs_max_ip b1 = bs_max_ip b ->
    bs_max_ip c1 = bs_max_ip c -> bs_max_ip c1 = bs_max_ip b1 \/
    bs_max_ip b1 = Z.of_nat (length sh) /\ bs_max_ip c1 = Z.of_nat (length sh') /\
    forall k, k < ip + 1 -> ~ program_end sh k) as Hmx.
  { intros Hn b1 c1 -> ->. destruct T4 as [->|(-> & -> & Hno)]; [by left|right]. split; [done|]. split; [done|].
    intros k Hk. destruct (Z.eq_dec k ip) as [->|]; [|apply Hno; lia]. intros (i & Hg & Hp). congruence. }
  destruct (Z.eqb_spec (QPU_SIG inst) QPU_SIG_PROG_END) as [Ep|Ep].
  { injection H as <-. eexists. split; [done|]. by split; cbn; [| | |left]. }
  specialize (Hmx Ep). destruct (QPU_SIG inst =? QPU_SIG_BRANCH); cbn [negb] in *.
  2:{ injection H as <-. exists c. split; [done|]. split; auto. }
  cbv zeta in *. cbn [bs_max_ip bs_targets bs_max_target bs_last] in *. rewrite T3.
  destruct (ip - bs_last b <? 4); [discriminate H|].
  destruct (QPU_BRANCH_REG inst); [discriminate H|].
  destruct (negb (QPU_BRANCH_REL inst)); [discriminate H|].
  destruct (negb (_ =? 0)); [discriminate H|].
  destruct (Z.leb_spec (bs_max_ip b) (branch_target inst ip)); [discriminate H|].
  destruct (Z.leb_spec (bs_max_ip c) (branch_target inst ip)); [lia|].
  destruct (set_bit (branch_target inst ip) (bs_targets b)) as [t1|] eqn:E1; [|discriminate H].
  rewrite T1, (set_bit_app _ _ rest _ E1). cbn [mbind option_bind] in *.
  destruct (Z.leb_spec (bs_max_ip b) (u32 (ip + 4))); [discriminate H|].
  destruct (Z.leb_spec (bs_max_ip c) (u32 (ip + 4))); [lia|].
  destruct (set_bit (u32 (ip + 4)) t1) as [t2|] eqn:E2; [|discriminate H].
  rewrite (set_bit_app _ _ rest _ E2). cbn [mbind option_bind] in *. injection H as <-.
  eexists. split; [done|]. split; cbn; [done|by rewrite T2|done|auto].
Qed.

Lemma branches_loop_mirror fuel fuel' ip b c b' :
  (fuel <= fuel')%nat -> 0 <= ip -> (exists p, program_end sh p) ->
  (forall k, 0 <= k < bs_max_ip b' -> array_get sh' k = array_get sh k) -> branches_same ip b c ->
  validate_branches_loop fuel sh ip b = Some (true, b') ->
  exists c', validate_branches_loop fuel' sh' ip c = Some (true, c') /\ bs_targets c' = bs_targets b' ++ rest /\
    bs_max_target c' = bs_max_target b' /\ bs_max_ip c' = bs_max_ip b'.
Proof.
  revert fuel' ip b c. induction fuel as [|fuel IH]; [done|]. intros [|fuel'] ip b c Hf Hip Hend Hsame Hbc H; [lia|].
  pose proof (branches_loop_visited _ sh _ _ _ Hip ltac:(lia) H) as Hv.
  cbn [validate_branches_loop] in *. destruct (Z.leb_spec (bs_max_ip b) ip) as [Hle|Hlt].
  - injection H as <-. exists c. destruct Hbc as [T1 T2 T3 [T4|(T4 & _ & Hno)]].
    + rewrite T4. destruct (Z.leb_spec (bs_max_ip b) ip); [done|lia].
    + exfalso. destruct Hend as (p & i & Hi & Hp). apply (Hno p); [apply array_get_lt in Hi; lia|by exists i].
  - destruct (validate_branch sh ip b) as [[ok b1]|] eqn:E; [|discriminate H].
    cbn [mbind option_bind] in H. destruct ok; cbn [negb] in H; [|discriminate H].
    destruct (validate_branch_mirror ip b c b1 Hip (Hsame ip ltac:(lia)) Hbc E) as (c1 & E' & Hbc1).
    destruct (Z.leb_spec (bs_max_ip c) ip); [destruct Hbc as [_ _ _ [?|(? & ? & _)]]; lia|].
    rewrite E'. cbn [mbind option_bind negb]. apply (IH fuel' (ip + 1) b1 c1); try done; lia.
Qed.

End Branches.

(** ** The whole validation *)

(** The state after the start, with room for two allocations. *)
Definition started_state (sh : list Z) (m : nat) : st :=
  St (ShaderInfo 0 0 0 [] 0 [] false)
    (ValidationState 0 (Z.of_nat (length sh)) sh (replicate 2 (SampleInfo false (replicate 4 UINT_MAX))) [0; 0]
       (replicate 68 UINT_MAX) (replicate 68 false) (replicate 68 UINT_MAX)
       (replicate (Z.to_nat (BITS_TO_LONGS (Z.of_nat (length sh)))) 0) false false false) m.

Lemma start_shader_state sh m :
  Z.of_nat (length sh) < 2 ^ 31 ->
  start_shader (initial_state sh m) =
    Some (match m with S (S m) => Some (started_state sh m) | _ => None end).
Proof.
  intros Hlen. rewrite (start_shader_eq _ _ (reset_initial sh m)). unfold kcalloc. cbn [mem].
  destruct m as [|[|m]]; [done|done|]. cbn [mem set_branch_targets set_vs vs info max_ip].
  rewrite u32_small by lia. reflexivity.
Qed.

Lemma started_state_started sh m : Z.of_nat (length sh) < 2 ^ 31 -> started sh (started_state sh m).
Proof. intros Hlen. apply (start_shader_ok sh (S (S m))); [done|]. by rewrite start_shader_state. Qed.

Lemma bits_to_longs_mono n n' : 0 <= n <= n' -> n' < 2 ^ 31 -> BITS_TO_LONGS n <= BITS_TO_LONGS n'.
Proof.
  intros Hn Hn'. assert (forall x, 0 <= x < 2 ^ 31 -> roundup x BITMAP_WORDBITS = (x + 63) / 64 * 64) as Hr.
  { intros x Hx. unfold roundup, BITMAP_WORDBITS. assert (i32 x = x) as -> by (unfold i32; rewrite Z.mod_small; lia).
    change (Z.lnot (8 * 8 - 1)) with (Z.lnot (Z.ones 6)).
    rewrite <- Z.ldiff_land, Z.ldiff_ones_r, Z.shiftl_mul_pow2, Z.shiftr_div_pow2 by lia.
    change (2 ^ 6) with 64. by replace (x + 8 * 8 - 1) with (x + 63) by lia. }
  unfold BITS_TO_LONGS. rewrite !Hr by lia. apply Z.div_le_mono; [lia|]. apply Z.mul_le_mono_nonneg_r; [lia|].
  apply Z.div_le_mono; lia.
Qed.

(** The bitmap of the longer shader is the other one with more words. *)
Lemma targets_longer (sh sh' : list Z) :
  (length sh <= length sh')%nat -> Z.of_nat (length sh') < 2 ^ 31 ->
  exists rest, replicate (Z.to_nat (BITS_TO_LONGS (Z.of_nat (length sh')))) 0 =
    replicate (Z.to_nat (BITS_TO_LONGS (Z.of_nat (length sh)))) 0 ++ rest.
Proof.
  intros Hle Hlen. pose proof (bits_to_longs_mono (Z.of_nat (length sh)) (Z.of_nat (length sh')) ltac:(lia) Hlen).
  set (n := Z.to_nat (BITS_TO_LONGS (Z.of_nat (length sh)))). eexists.
  replace (Z.to_nat (BITS_TO_LONGS (Z.of_nat (length sh')))) with
    (n + (Z.to_nat (BITS_TO_LONGS (Z.of_nat (length sh'))) - n))%nat by lia.
  by rewrite replicate_add.
Qed.

Lemma run_shader_mirror sh sh' m r :
  (length sh <= length sh')%nat -> Z.of_nat (length sh') < 2 ^ 31 ->
  (forall e, last_end sh e -> forall k, 0 <= k <= e + 2 -> array_get sh' k = array_get sh k) ->
  run_shader (started_state sh m) = Some (Some r) -> run_shader (started_state sh' m) = Some (Some r).
Proof.
  intros Hle Hlen Hsame H. assert (Z.of_nat (length sh) < 2 ^ 31) as Hlen0 by lia.
  destruct (run_shader_ok sh _ _ Hlen0 (started_state_started sh m Hlen0) H) as (s1 & s2 & b & e & Hrun).
  destruct (accepting_run_end _ _ _ _ _ _ _ Hlen0 Hrun) as (_ & Hend & He & Hmax).
  pose proof (ac_loop _ _ _ _ _ _ _ Hrun) as Hl. destruct (targets_longer sh sh' Hle Hlen) as [rest Hrest].
  assert (forall k, 0 <= k < bs_max_ip b -> array_get sh' k = array_get sh k) as Hi.
  { intros k Hk. apply (Hsame _ Hend). lia. }
  set (b0 := BranchState _ _ 0 (-2)) in Hl.
  set (c0 := BranchState (Z.of_nat (length sh')) (replicate (Z.to_nat (BITS_TO_LONGS (Z.of_nat (length sh')))) 0) 0 (-2)).
  assert (branches_same sh sh' rest 0 b0 c0) as Hbc.
  { split; cbn; [by rewrite Hrest|done|done|right]. split; [done|]. split; [done|].
    intros k Hk (i & Hg & _). apply array_get_lt in Hg. lia. }
  destruct (branches_loop_mirror sh sh' rest Hle Hlen _ (S (S (length sh'))) 0 b0 c0 b
    (le_n_S _ _ (le_n_S _ _ Hle)) (Z.le_refl 0) (ex_intro _ _ (le_end _ _ Hend)) Hi Hbc Hl) as (c & Hc & C1 & C2 & C3).
  subst b0 c0. unfold run_shader, vc4_validate_branches in *. cbn [started_state vs shader max_ip branch_targets] in *.
  rewrite Hl in H. rewrite Hc. cbn [mbind option_bind andb] in *. rewrite C2, C3.
  destruct (negb (negb (_ <? _))); [discriminate H|].
  match type of H with context [check_instructions ?f ?s ?w 0] =>
    destruct (check_instructions f s w 0) as [[[ok s3] e3]|] eqn:Ec; [|discriminate H] end.
  cbn [mbind option_bind] in H. destruct ok; cbn [negb] in H; [|discriminate H].
  eapply (check_instructions_mirror sh' (bs_targets c) _ (S (S (S (length sh'))))) in Ec.
  - match type of Ec with ?x = _ => match goal with |- (?y ≫= _) = _ => change y with x end end.
    rewrite Ec. cbn [mbind option_bind negb]. by rewrite finish_shader_mirror.
  - cbn [set_vs vs shader]. lia.
  - lia.
  - cbn [set_vs vs max_ip]. lia.
  - exact Hi.
  - intros k t Hk. rewrite C1. by apply test_bit_app.
Qed.

Lemma validation_rest sh sh' m r :
  (length sh <= length sh')%nat -> Z.of_nat (length sh') < 2 ^ 31 ->
  (forall e, last_end sh e -> take (Z.to_nat (e + 3)) sh' = take (Z.to_nat (e + 3)) sh) ->
  vc4_validate_shader sh m = Some (Some r) -> vc4_validate_shader sh' m = Some (Some r).
Proof.
  intros Hle Hlen Hsame. unfold vc4_validate_shader, validate_from.
  rewrite !start_shader_state by lia. cbn [mbind option_bind]. destruct m as [|[|m]]; [done|done|].
  apply run_shader_mirror; [done|done|]. intros e He k Hk. pose proof (Hsame e He) as Ht.
  unfold array_get. destruct (0 <=? k); [|done]. rewrite <- (lookup_take_lt sh' (Z.to_nat (e + 3))), Ht by lia.
  by rewrite lookup_take_lt by lia.
Qed.
