(* ===== verification/Vc4ShaderTheorems.v ===== *)
(** * Correctness of shader validation

    What an accepted shader is guaranteed to be, how much of the uniform stream it
    uses, when validation itself stays in bounds, and what it does not look at. *)
From S2P Require Import Prelude Bitset QpuPack Vc4Defines Vc4Shader Vc4ShaderFrame Vc4ShaderSafe Vc4ShaderRun Vc4ShaderUniforms Vc4ShaderOffsets Vc4ShaderTotal Vc4ShaderRest.

(** Sample instructions: signal, condition of the add unit, write side, write
    addresses, operation, read addresses and muxes of the add unit. *)
Definition encode (sig ws wadd wmul op ra rb a b : Z) : Z :=
  Z.shiftl sig 60 + Z.shiftl QPU_COND_ALWAYS 49 + Z.shiftl QPU_COND_ALWAYS 46 + Z.shiftl ws 44
  + Z.shiftl wadd 38 + Z.shiftl wmul 32 + Z.shiftl op 24 + Z.shiftl ra 18 + Z.shiftl rb 12
  + Z.shiftl a 9 + Z.shiftl b 6.

Definition i_sig (sig : Z) : Z := encode sig 0 QPU_W_NOP QPU_W_NOP 0 QPU_R_NOP QPU_R_NOP 0 0.
Definition i_nop : Z := i_sig QPU_SIG_NONE.
Definition i_end : Z := i_sig QPU_SIG_PROG_END.
Definition i_switch : Z := i_sig QPU_SIG_THREAD_SWITCH.
(** A branch to [n] instructions after its delay slots. *)
Definition i_branch (n : Z) : Z :=
  Z.shiftl QPU_SIG_BRANCH 60 + Z.shiftl 15 52 + Z.shiftl 1 51 + Z.shiftl QPU_W_NOP 38
  + Z.shiftl QPU_W_NOP 32 + (8 * n) mod 2 ^ 32.
(** r0 := max(r0, 0); the result to register [waddr] of file [ws] := min(r0, uniform). *)
Definition i_max : Z := encode QPU_SIG_SMALL_IMM 0 QPU_W_ACC0 QPU_W_NOP QPU_A_MAX QPU_R_NOP 0 0 QPU_MUX_B.
Definition i_min (ws waddr : Z) : Z :=
  encode QPU_SIG_NONE ws waddr QPU_W_NOP QPU_A_MIN QPU_R_UNIF QPU_R_NOP 0 QPU_MUX_A.
(** Memory read at r0 + uniform. *)
Definition i_load : Z :=
  encode QPU_SIG_NONE 0 QPU_W_TMU0_S QPU_W_NOP QPU_A_ADD QPU_R_UNIF QPU_R_NOP 0 QPU_MUX_A.
Definition i_tex (waddr : Z) : Z := encode QPU_SIG_NONE 0 waddr QPU_W_NOP 0 QPU_R_NOP QPU_R_NOP 0 0.
Definition i_dma : Z := encode QPU_SIG_NONE 0 QPU_W_VPM_ADDR QPU_W_NOP 0 QPU_R_NOP QPU_R_NOP 0 0.

Definition sample_shader : list Z :=
  [i_nop; i_nop; i_branch 1; i_nop; i_nop; i_nop; i_nop; i_end; i_nop; i_nop].

(** An accepted direct read followed by a texture sample. *)
Definition sample_texture_shader : list Z :=
  [i_max; i_min 0 QPU_W_ACC0; i_load; i_sig QPU_SIG_LOAD_TMU0; i_tex QPU_W_TMU0_T; i_tex QPU_W_TMU0_S;
   i_sig QPU_SIG_LOAD_TMU0; i_end; i_nop; i_nop].

Definition info_of (sh : list Z) : vc4_validated_shader_info :=
  match vc4_validate_shader sh 10 with
  | Some (Some r) => r
  | _ => ShaderInfo 0 0 0 [] 0 [] false
  end.

(** C24: in an accepted shader every instruction up to the program end and its two delay
    slots has an allowed signal and harmless writes (no host interrupt, DMA start, mutex
    release, alpha mask or TMU swap; uniform addresses only by an unconditional add of a
    uniform), and every branch among them is relative, aligned, falls through before the program
    end and lands inside the shader object.  The program end is the first one without another in its delay slots.
    Instructions after the delay slots are not looked at (C30), although a branch may land there. *)
Theorem accepted_shader_safe sh m r :
  Z.of_nat (length sh) < 2 ^ 31 -> vc4_validate_shader sh m = Some (Some r) ->
  exists e, last_end sh e /\ 0 <= e /\ e + 2 < Z.of_nat (length sh) /\
    forall k, 0 <= k <= e + 2 -> at_ip sh k (inst_safe sh e k).
Proof.
  intros Hlen H. destruct (accepting_run_of _ _ _ Hlen H) as (s0 & s1 & s2 & b & e & Hrun).
  destruct (accepting_run_safe _ _ _ _ _ _ _ Hlen Hrun) as (_ & Hend & He & Hall).
  exists (e - 2). split; [done|]. split; [lia|]. split; [lia|]. intros k Hk. apply Hall. lia.
Qed.

Lemma accepted_shader_safe_witness :
  exists e, last_end sample_shader e /\ 0 <= e /\ e + 2 < Z.of_nat (length sample_shader) /\
    forall k, 0 <= k <= e + 2 -> at_ip sample_shader k (inst_safe sample_shader e k).
Proof.
  apply (accepted_shader_safe sample_shader 10 (info_of sample_shader)); vm_compute; reflexivity.
Defined.

(** C25: if one of the instructions of an accepted shader up to the delay slots of its program end switches threads, the
    shader is marked as threaded, and if it is marked none of these instructions reads or writes the upper
    half of the register files.  Instructions after the delay slots are not covered. *)
Theorem accepted_shader_threads sh m r :
  Z.of_nat (length sh) < 2 ^ 31 -> vc4_validate_shader sh m = Some (Some r) ->
  exists e, last_end sh e /\ forall k, 0 <= k <= e + 2 ->
    at_ip sh k (fun inst =>
      (is_switch_sig (QPU_SIG inst) = true -> is_threaded r = true) /\
      (is_threaded r = true -> uses_upper_half inst = false)).
Proof.
  intros Hlen H. destruct (accepting_run_of _ _ _ Hlen H) as (s0 & s1 & s2 & b & e & Hrun).
  destruct (accepting_run_safe _ _ _ _ _ _ _ Hlen Hrun) as (Hacc & Hend & He & _).
  destruct (finish_shader_inv _ _ _ (ac_finish _ _ _ _ _ _ _ Hrun)) as (Ht & Hr & _).
  exists (e - 2). split; [done|]. intros k Hk.
  destruct (ar_insts _ _ _ _ Hacc k ltac:(lia)) as (inst & Hi & _ & Hu & Hs).
  rewrite (ac_shader _ _ _ _ _ _ _ Hrun) in Hi. exists inst. split; [done|]. rewrite Ht. split; [done|].
  intros Hth. destruct (uses_upper_half inst); [|done]. by rewrite Hth, Hu in Hr.
Qed.

Lemma accepted_shader_threads_witness :
  exists e, last_end [i_switch; i_nop; i_end; i_nop; i_nop] e /\ forall k, 0 <= k <= e + 2 ->
    at_ip [i_switch; i_nop; i_end; i_nop; i_nop] k (fun inst =>
      (is_switch_sig (QPU_SIG inst) = true ->
         is_threaded (info_of [i_switch; i_nop; i_end; i_nop; i_nop]) = true) /\
      (is_threaded (info_of [i_switch; i_nop; i_end; i_nop; i_nop]) = true ->
         uses_upper_half inst = false)).
Proof. apply (accepted_shader_threads _ 10); vm_compute; reflexivity. Defined.

(** C26: the sizes reported for an accepted shader are those of the reference: one word of
    uniforms for every instruction that reads the uniform stream and every texture
    parameter that is not a direct read, one more word exactly if the shader branches back after
    its last write of the uniform address, one sample per submission, and one word of texture handle
    per sample in the source stream.  Shaders of fewer than 2^27 instructions. *)
Theorem accepted_shader_uniforms sh m r :
  Z.of_nat (length sh) < 2 ^ 27 -> vc4_validate_shader sh m = Some (Some r) ->
  exists e, last_end sh e /\ 0 <= e /\ e + 2 < Z.of_nat (length sh) /\
    let u := usage_of (insts_from sh 0 (e + 2)) in
    uniforms_size r = us_uniforms u + (if us_loop u then 4 else 0) /\
    num_texture_samples r = us_samples u /\
    Z.of_nat (length (texture_samples r)) = us_samples u /\
    uniforms_src_size r = uniforms_size r + 4 * num_texture_samples r.
Proof.
  intros Hlen H. assert (Z.of_nat (length sh) < 2 ^ 31) as Hlen' by lia.
  assert (Z.of_nat (length sh) < 2 ^ 28) as Hlen'' by lia.
  destruct (accepting_run_of _ _ _ Hlen' H) as (s0 & s1 & s2 & b & e & Hrun).
  destruct (accepting_run_safe _ _ _ _ _ _ _ Hlen' Hrun) as (Hacc & Hend & He & _).
  destruct (accepting_run_use _ _ _ _ _ _ _ Hlen'' Hrun) as (Hu & Hub & Hus).
  destruct (finish_shader_inv _ _ _ (ac_finish _ _ _ _ _ _ _ Hrun)) as (_ & _ & Hfin).
  exists (e - 2). replace (e - 2 + 2) with e by lia. split; [done|]. split; [lia|]. split; [lia|].
  cbv zeta. destruct Hu as [_ A2 A3 A4 A5]. destruct Hfin as (F1 & F2 & F3 & F4). rewrite A5 in *.
  assert (uniforms_size r = us_uniforms (usage_of (insts_from sh 0 e))
          + (if us_loop (usage_of (insts_from sh 0 e)) then 4 else 0)) as Hsize.
  { rewrite F1, A2. destruct (us_loop _); [apply u32_small|]; lia. }
  split; [exact Hsize|]. rewrite F3, F2, A3, A4. split; [done|]. split; [done|].
  rewrite F4, <- F1, Hsize, A3. destruct (us_loop _); apply u32_small; lia.
Qed.

Lemma accepted_shader_uniforms_witness :
  exists e, last_end sample_texture_shader e /\ 0 <= e /\ e + 2 < Z.of_nat (length sample_texture_shader) /\
    let u := usage_of (insts_from sample_texture_shader 0 (e + 2)) in
    uniforms_size (info_of sample_texture_shader) = us_uniforms u + (if us_loop u then 4 else 0) /\
    num_texture_samples (info_of sample_texture_shader) = us_samples u /\
    Z.of_nat (length (texture_samples (info_of sample_texture_shader))) = us_samples u /\
    uniforms_src_size (info_of sample_texture_shader) =
      uniforms_size (info_of sample_texture_shader)
      + 4 * num_texture_samples (info_of sample_texture_shader).
Proof. apply (accepted_shader_uniforms sample_texture_shader 10); vm_compute; reflexivity. Defined.

(** A loop takes the word, also when nothing else reads the stream. *)
Example loop_takes_word :
  let sh := [i_nop; i_nop; i_branch (-6); i_nop; i_nop; i_nop; i_nop; i_end; i_nop; i_nop] in
  us_loop (usage_of sh) = true /\ uniforms_size (info_of sh) = 4.
Proof. vm_compute. done. Qed.

(** C27: every sample recorded for an accepted shader has four offsets, each unused or that
    of a whole word of the uniforms, provided no immediate has the bit pattern of an
    operand taken from the uniforms. *)
Theorem accepted_sample_offsets sh m r :
  Z.of_nat (length sh) < 2 ^ 28 ->
  (forall k inst, array_get sh k = Some inst -> load_imm_benign inst = true) ->
  vc4_validate_shader sh m = Some (Some r) ->
  Forall (fun t => sample_wf t /\ sample_ok (uniforms_size r) t) (texture_samples r).
Proof.
  intros Hlen Hben H. assert (Z.of_nat (length sh) < 2 ^ 31) as Hlen' by lia.
  destruct (accepting_run_of _ _ _ Hlen' H) as (s0 & s1 & s2 & b & e & Hrun).
  destruct (accepting_run_use _ _ _ _ _ _ _ Hlen Hrun) as (Hu & Hub & Hus).
  pose proof (accepting_run_offs _ _ _ _ _ _ _ Hlen Hben Hrun) as [_ _ Ho].
  destruct (finish_shader_inv _ _ _ (ac_finish _ _ _ _ _ _ _ Hrun)) as (_ & _ & F1 & F2 & F3 & F4).
  rewrite F3. eapply Forall_impl; [exact Ho|]. cbn. intros t [Hw Hs]. split; [done|].
  eapply sample_ok_mono; [|exact Hs]. rewrite F1, (ac_us_uniforms _ _ Hu).
  destruct (needs_uniform_address_for_loop _); [|lia]. rewrite u32_small; lia.
Qed.

Lemma accepted_sample_offsets_witness :
  Forall (fun t => sample_wf t /\ sample_ok (uniforms_size (info_of sample_texture_shader)) t)
    (texture_samples (info_of sample_texture_shader)).
Proof.
  apply (accepted_sample_offsets sample_texture_shader 10); [vm_compute; reflexivity| |vm_compute; reflexivity].
  intros k inst [_ Hi]%array_get_Some. apply list_elem_of_lookup_2, list_elem_of_In in Hi.
  revert inst Hi. apply forallb_forall. vm_compute. reflexivity.
Defined.

(** C28: on a shader whose first add operands are tracked registers and whose program ends
    are followed by two instructions, validation returns without leaving its arrays or
    the shader, whichever allocation fails.  Of other shaders this is not claimed: an operand above 35 of file B indexes the
    arrays of tracked registers past their end, and a program end among the last two instructions moves the limit of the loops
    past the end of the shader. *)
Theorem shader_validation_in_bounds sh m :
  shader_in_bounds sh -> Z.of_nat (length sh) < 2 ^ 31 - 63 ->
  exists r, vc4_validate_shader sh m = Some r.
Proof.
  intros Hsh Hlen. apply validate_from_total; [apply start_shader_total|].
  intros s Hs. apply (run_shader_total sh); [done|done|]. apply (start_shader_ok sh m); [lia|done].
Qed.

Lemma shader_validation_in_bounds_witness : exists r, vc4_validate_shader sample_shader 10 = Some r.
Proof.
  apply (shader_validation_in_bounds sample_shader 10); [|vm_compute; reflexivity].
  split; [vm_compute; reflexivity|]. intros k inst Hi. pose proof (array_get_lt _ _ _ Hi) as Hk.
  change (length sample_shader) with 10%nat in *.
  assert (In k (zrange 0 10)) as Hin by (apply list_elem_of_In, elem_of_zrange; lia).
  vm_compute in Hin. repeat destruct Hin as [<-|Hin]; try done; vm_compute in Hi; injection Hi as <-;
    (split; [vm_compute; reflexivity|vm_compute; intros; congruence]).
Defined.

(** C30: validation reads nothing after the delay slots of the program end: a shader is accepted, with the same
    information, whenever some shader that is not longer is accepted and has the same instructions up to there.  So
    whatever stands after the end was not validated. *)
Theorem accepted_shader_rest_unread sh sh' m r e :
  vc4_validate_shader sh m = Some (Some r) -> last_end sh e ->
  take (Z.to_nat (e + 3)) sh' = take (Z.to_nat (e + 3)) sh ->
  (length sh <= length sh')%nat -> Z.of_nat (length sh') < 2 ^ 31 ->
  vc4_validate_shader sh' m = Some (Some r).
Proof.
  intros H He Ht Hle Hlen. apply (validation_rest sh); [done|done| |done].
  intros e' He'. by rewrite <- (last_end_unique _ _ _ He He').
Qed.

Lemma accepted_shader_rest_unread_witness :
  vc4_validate_shader (sample_shader ++ [i_dma; i_switch]) 10 = Some (Some (info_of sample_shader)).
Proof.
  apply (accepted_shader_rest_unread sample_shader _ 10 _ 7); [vm_compute; reflexivity| |reflexivity|cbn; lia|vm_compute; reflexivity].
  assert (forall k, program_end sample_shader k -> k = 7) as Hu.
  { intros k (inst & Hi & Hp). pose proof (array_get_lt _ _ _ Hi) as Hk. change (length sample_shader) with 10%nat in Hk.
    assert (In k (zrange 0 10)) as Hin by (apply list_elem_of_In, elem_of_zrange; lia).
    vm_compute in Hin. repeat destruct Hin as [<-|Hin]; try done; vm_compute in Hi; injection Hi as <-; discriminate Hp. }
  split; [by exists i_end|intros H%Hu; discriminate H|intros H%Hu; discriminate H|]. intros k Hk H%Hu. lia.
Defined.

(** ** Shaders that escape the checks *)

(** The check that branches do not land after the
    program end only looks at the fall-through address: a shader is accepted whose branch
    lands on an instruction that was never validated, here one that starts a DMA
    transfer. And three accepted shaders have wrong texture records. After a direct memory read the
    next, ordinary texture sample of the same unit is still recorded as direct; a direct
    read whose address comes from the VPM is accepted because register b16 is clamped;
    and an immediate load counts as a direct read whose offset lies just after the
    uniforms. *)
Example shader_checks_escape :
  (let sh := [i_nop; i_nop; i_branch 3; i_nop; i_nop; i_nop; i_end; i_nop; i_nop; i_dma] in
   (exists r, vc4_validate_shader sh 10 = Some (Some r)) /\
   branch_target (i_branch 3) 2 = 9 /\ array_get sh 9 = Some i_dma /\
   forbidden_waddr (QPU_WADDR_ADD i_dma) = true) /\
  (exists r t1 t2, vc4_validate_shader sample_texture_shader 10 = Some (Some r) /\
     texture_samples r = [t1; t2] /\ is_direct t2 = true /\
     p_offset t2 = [8; 12; UINT_MAX; UINT_MAX]) /\
  (let load := encode QPU_SIG_NONE 0 QPU_W_TMU0_S QPU_W_NOP QPU_A_ADD QPU_R_VPM QPU_R_UNIF
                 QPU_MUX_A QPU_MUX_B in
   exists r, vc4_validate_shader [i_max; i_min 1 16; load; i_end; i_nop; i_nop] 10 = Some (Some r)) /\
  (let load := encode QPU_SIG_LOAD_IMM 0 QPU_W_TMU0_S QPU_W_NOP QPU_A_ADD QPU_R_UNIF QPU_R_NOP
                 0 QPU_MUX_A in
   exists r t, vc4_validate_shader [i_max; i_min 0 QPU_W_ACC0; load; i_end; i_nop; i_nop] 10
     = Some (Some r) /\ texture_samples r = [t] /\ head (p_offset t) = Some (uniforms_size r)).
Proof.
  split; [|split; [|split]].
  - split; [eexists; vm_compute; reflexivity|]. vm_compute. done.
  - do 3 eexists. split; [vm_compute; reflexivity|]. done.
  - eexists. vm_compute. reflexivity.
  - do 2 eexists. split; [vm_compute; reflexivity|]. done.
Qed.
