(* ===== verification/Vc4Packet.v ===== *)
(** * VC4 command list packets and error results

    The packet numbers, packet sizes and bit fields of
    [src/gallium/drivers/vc4/kernel/vc4_packet.h], and the results of functions that
    return 0 or a negative error code. *)
From S2P Require Import Prelude.

(** ** Results *)

(** [Done]: returned 0 (with the new state); [Fail]: returned an error code, after which
    the callers give the whole job up; [Undefined]: accessed memory outside the object it
    has a pointer to, or a null pointer. *)
Inductive res (A : Type) :=
  | Done (a : A)
  | Fail (ret : Z)
  | Undefined.
Arguments Done {A}.
Arguments Fail {A}.
Arguments Undefined {A}.

#[export] Instance res_ret : MRet res := @Done.
#[export] Instance res_bind : MBind res := fun A B f r =>
  match r with Done a => f a | Fail e => Fail e | Undefined => Undefined end.

(** A memory access. *)
Definition access {A} (o : option A) : res A :=
  match o with Some a => Done a | None => Undefined end.

Definition EINVAL : Z := 22.
Definition ENOMEM : Z := 12.

(** [if (bad) return -EINVAL;] *)
Definition reject_if (bad : bool) : res unit := if bad then Fail (- EINVAL) else Done tt.

Lemma bind_Done {A B} (r : res A) (f : A -> res B) b :
  r ≫= f = Done b -> exists a, r = Done a /\ f a = Done b.
Proof. destruct r; cbn; naive_solver. Qed.

Lemma access_Done {A} (o : option A) a : access o = Done a -> o = Some a.
Proof. destruct o; cbn; congruence. Qed.

Lemma reject_if_Done bad u : reject_if bad = Done u -> bad = false.
Proof. by destruct bad. Qed.

(** Takes a successful run apart. *)
Ltac run_inv H :=
  repeat first
    [ match type of H with
      | _ ≫= _ = Done _ =>
        let a := fresh "a" in let E := fresh "E" in
        apply bind_Done in H as (a & E & H)
      | (match ?x with inl _ => _ | inr _ => _ end) = Done _ => destruct x; [discriminate H|]
      | Done _ = Done _ => injection H as H
      | Fail _ = Done _ => discriminate H
      | Undefined = Done _ => discriminate H
      end ].
Ltac run_inv_all :=
  repeat match goal with
  | E : access _ = Done _ |- _ => apply access_Done in E
  | E : reject_if _ = Done _ |- _ => apply reject_if_Done in E
  end.

(** ** Fields of words *)

Definition VC4_MASK (high low : Z) : Z := u32 (Z.shiftl (Z.shiftl 1 (high - low + 1) - 1) low).
Definition VC4_GET_FIELD (word high low : Z) : Z := Z.shiftr (Z.land word (VC4_MASK high low)) low.
Definition VC4_SET_FIELD (value high low : Z) : Z := Z.land (u32 (Z.shiftl value low)) (VC4_MASK high low).

(** ** Packets *)

Definition VC4_PACKET_HALT : Z := 0.
Definition VC4_PACKET_NOP : Z := 1.
Definition VC4_PACKET_FLUSH : Z := 4.
Definition VC4_PACKET_FLUSH_ALL : Z := 5.
Definition VC4_PACKET_START_TILE_BINNING : Z := 6.
Definition VC4_PACKET_INCREMENT_SEMAPHORE : Z := 7.
Definition VC4_PACKET_GL_INDEXED_PRIMITIVE : Z := 32.
Definition VC4_PACKET_GL_ARRAY_PRIMITIVE : Z := 33.
Definition VC4_PACKET_PRIMITIVE_LIST_FORMAT : Z := 56.
Definition VC4_PACKET_GL_SHADER_STATE : Z := 64.
Definition VC4_PACKET_CONFIGURATION_BITS : Z := 96.
Definition VC4_PACKET_FLAT_SHADE_FLAGS : Z := 97.
Definition VC4_PACKET_POINT_SIZE : Z := 98.
Definition VC4_PACKET_LINE_WIDTH : Z := 99.
Definition VC4_PACKET_RHT_X_BOUNDARY : Z := 100.
Definition VC4_PACKET_DEPTH_OFFSET : Z := 101.
Definition VC4_PACKET_CLIP_WINDOW : Z := 102.
Definition VC4_PACKET_VIEWPORT_OFFSET : Z := 103.
Definition VC4_PACKET_CLIPPER_XY_SCALING : Z := 105.
Definition VC4_PACKET_CLIPPER_Z_SCALING : Z := 106.
Definition VC4_PACKET_TILE_BINNING_MODE_CONFIG : Z := 112.
Definition VC4_PACKET_GEM_HANDLES : Z := 254.

Definition VC4_PACKET_HALT_SIZE : Z := 1.
Definition VC4_PACKET_NOP_SIZE : Z := 1.
Definition VC4_PACKET_FLUSH_SIZE : Z := 1.
Definition VC4_PACKET_FLUSH_ALL_SIZE : Z := 1.
Definition VC4_PACKET_START_TILE_BINNING_SIZE : Z := 1.
Definition VC4_PACKET_INCREMENT_SEMAPHORE_SIZE : Z := 1.
Definition VC4_PACKET_GL_INDEXED_PRIMITIVE_SIZE : Z := 14.
Definition VC4_PACKET_GL_ARRAY_PRIMITIVE_SIZE : Z := 10.
Definition VC4_PACKET_PRIMITIVE_LIST_FORMAT_SIZE : Z := 2.
Definition VC4_PACKET_GL_SHADER_STATE_SIZE : Z := 5.
Definition VC4_PACKET_CONFIGURATION_BITS_SIZE : Z := 4.
Definition VC4_PACKET_FLAT_SHADE_FLAGS_SIZE : Z := 5.
Definition VC4_PACKET_POINT_SIZE_SIZE : Z := 5.
Definition VC4_PACKET_LINE_WIDTH_SIZE : Z := 5.
Definition VC4_PACKET_RHT_X_BOUNDARY_SIZE : Z := 3.
Definition VC4_PACKET_DEPTH_OFFSET_SIZE : Z := 5.
Definition VC4_PACKET_CLIP_WINDOW_SIZE : Z := 9.
Definition VC4_PACKET_VIEWPORT_OFFSET_SIZE : Z := 5.
Definition VC4_PACKET_CLIPPER_XY_SCALING_SIZE : Z := 9.
Definition VC4_PACKET_CLIPPER_Z_SCALING_SIZE : Z := 9.
Definition VC4_PACKET_TILE_BINNING_MODE_CONFIG_SIZE : Z := 16.
Definition VC4_PACKET_GEM_HANDLES_SIZE : Z := 9.

Definition VC4_TILING_FORMAT_LINEAR : Z := 0.
Definition VC4_TILING_FORMAT_T : Z := 1.
Definition VC4_TILING_FORMAT_LT : Z := 2.

Definition VC4_SHADER_FLAG_FS_SINGLE_THREAD : Z := Z.shiftl 1 0.
Definition VC4_BIN_CONFIG_DB_NON_MS : Z := Z.shiftl 1 7.
Definition VC4_BIN_CONFIG_ALLOC_BLOCK_SIZE_MASK : Z := VC4_MASK 6 5.
Definition VC4_BIN_CONFIG_ALLOC_BLOCK_SIZE_SHIFT : Z := 5.
Definition VC4_BIN_CONFIG_ALLOC_BLOCK_SIZE_128 : Z := 2.
Definition VC4_BIN_CONFIG_ALLOC_INIT_BLOCK_SIZE_MASK : Z := VC4_MASK 4 3.
Definition VC4_BIN_CONFIG_ALLOC_INIT_BLOCK_SIZE_SHIFT : Z := 3.
Definition VC4_BIN_CONFIG_ALLOC_INIT_BLOCK_SIZE_32 : Z := 0.
Definition VC4_BIN_CONFIG_AUTO_INIT_TSDA : Z := Z.shiftl 1 2.
Definition VC4_BIN_CONFIG_TILE_BUFFER_64BIT : Z := Z.shiftl 1 1.

(** ** Textures *)

Definition VC4_TEXTURE_TYPE_RGBA8888 : Z := 0.
Definition VC4_TEXTURE_TYPE_RGBX8888 : Z := 1.
Definition VC4_TEXTURE_TYPE_RGBA4444 : Z := 2.
Definition VC4_TEXTURE_TYPE_RGBA5551 : Z := 3.
Definition VC4_TEXTURE_TYPE_RGB565 : Z := 4.
Definition VC4_TEXTURE_TYPE_LUMINANCE : Z := 5.
Definition VC4_TEXTURE_TYPE_ALPHA : Z := 6.
Definition VC4_TEXTURE_TYPE_LUMALPHA : Z := 7.
Definition VC4_TEXTURE_TYPE_ETC1 : Z := 8.
Definition VC4_TEXTURE_TYPE_S16F : Z := 9.
Definition VC4_TEXTURE_TYPE_S8 : Z := 10.
Definition VC4_TEXTURE_TYPE_S16 : Z := 11.
Definition VC4_TEXTURE_TYPE_BW1 : Z := 12.
Definition VC4_TEXTURE_TYPE_A4 : Z := 13.
Definition VC4_TEXTURE_TYPE_A1 : Z := 14.
Definition VC4_TEXTURE_TYPE_RGBA64 : Z := 15.
Definition VC4_TEXTURE_TYPE_RGBA32R : Z := 16.
Definition VC4_TEXTURE_TYPE_YUV422R : Z := 17.

Definition VC4_TEX_P0_OFFSET_MASK : Z := VC4_MASK 31 12.
Definition VC4_TEX_P0_CMMODE_MASK : Z := VC4_MASK 9 9.
Definition VC4_TEX_P0_TYPE (p0 : Z) : Z := VC4_GET_FIELD p0 7 4.
Definition VC4_TEX_P0_MIPLVLS (p0 : Z) : Z := VC4_GET_FIELD p0 3 0.
Definition VC4_TEX_P1_TYPE4 (p1 : Z) : Z := VC4_GET_FIELD p1 31 31.
Definition VC4_TEX_P1_HEIGHT (p1 : Z) : Z := VC4_GET_FIELD p1 30 20.
Definition VC4_TEX_P1_WIDTH (p1 : Z) : Z := VC4_GET_FIELD p1 18 8.
Definition VC4_TEX_P2_PTYPE (p : Z) : Z := VC4_GET_FIELD p 31 30.
Definition VC4_TEX_P2_PTYPE_CUBE_MAP_STRIDE : Z := 1.
Definition VC4_TEX_P2_CMST_MASK : Z := VC4_MASK 29 12.

(** ** Rendering *)

Definition VC4_PACKET_WAIT_ON_SEMAPHORE : Z := 8.
Definition VC4_PACKET_BRANCH_TO_SUB_LIST : Z := 17.
Definition VC4_PACKET_STORE_MS_TILE_BUFFER : Z := 24.
Definition VC4_PACKET_STORE_MS_TILE_BUFFER_AND_EOF : Z := 25.
Definition VC4_PACKET_STORE_FULL_RES_TILE_BUFFER : Z := 26.
Definition VC4_PACKET_LOAD_FULL_RES_TILE_BUFFER : Z := 27.
Definition VC4_PACKET_STORE_TILE_BUFFER_GENERAL : Z := 28.
Definition VC4_PACKET_LOAD_TILE_BUFFER_GENERAL : Z := 29.
Definition VC4_PACKET_TILE_RENDERING_MODE_CONFIG : Z := 113.
Definition VC4_PACKET_CLEAR_COLORS : Z := 114.
Definition VC4_PACKET_TILE_COORDINATES : Z := 115.

Definition VC4_PACKET_WAIT_ON_SEMAPHORE_SIZE : Z := 1.
Definition VC4_PACKET_BRANCH_TO_SUB_LIST_SIZE : Z := 5.
Definition VC4_PACKET_STORE_MS_TILE_BUFFER_SIZE : Z := 1.
Definition VC4_PACKET_STORE_FULL_RES_TILE_BUFFER_SIZE : Z := 5.
Definition VC4_PACKET_LOAD_FULL_RES_TILE_BUFFER_SIZE : Z := 5.
Definition VC4_PACKET_STORE_TILE_BUFFER_GENERAL_SIZE : Z := 7.
Definition VC4_PACKET_LOAD_TILE_BUFFER_GENERAL_SIZE : Z := 7.
Definition VC4_PACKET_TILE_RENDERING_MODE_CONFIG_SIZE : Z := 11.
Definition VC4_PACKET_CLEAR_COLORS_SIZE : Z := 14.
Definition VC4_PACKET_TILE_COORDINATES_SIZE : Z := 3.

Definition VC4_TILE_BUFFER_SIZE : Z := 64 * 64 * 4.

Definition VC4_LOADSTORE_FULL_RES_EOF : Z := Z.shiftl 1 3.
Definition VC4_LOADSTORE_FULL_RES_DISABLE_CLEAR_ALL : Z := Z.shiftl 1 2.
Definition VC4_LOADSTORE_FULL_RES_DISABLE_ZS : Z := Z.shiftl 1 1.
Definition VC4_LOADSTORE_FULL_RES_DISABLE_COLOR : Z := Z.shiftl 1 0.
Definition VC4_LOADSTORE_TILE_BUFFER_EOF : Z := Z.shiftl 1 3.
Definition VC4_STORE_TILE_BUFFER_DISABLE_VG_MASK_CLEAR : Z := Z.shiftl 1 15.
Definition VC4_STORE_TILE_BUFFER_DISABLE_ZS_CLEAR : Z := Z.shiftl 1 14.
Definition VC4_STORE_TILE_BUFFER_DISABLE_COLOR_CLEAR : Z := Z.shiftl 1 13.
Definition VC4_LOADSTORE_TILE_BUFFER_FORMAT_MASK : Z := VC4_MASK 9 8.
Definition VC4_LOADSTORE_TILE_BUFFER_RGBA8888 : Z := 0.
Definition VC4_LOADSTORE_TILE_BUFFER_BGR565_DITHER : Z := 1.
Definition VC4_LOADSTORE_TILE_BUFFER_BGR565 : Z := 2.
Definition VC4_LOADSTORE_TILE_BUFFER_TILING_MASK : Z := VC4_MASK 5 4.
Definition VC4_LOADSTORE_TILE_BUFFER_BUFFER_MASK : Z := VC4_MASK 2 0.
Definition VC4_LOADSTORE_TILE_BUFFER_NONE : Z := 0.
Definition VC4_LOADSTORE_TILE_BUFFER_COLOR : Z := 1.
Definition VC4_LOADSTORE_TILE_BUFFER_ZS : Z := 2.
Definition VC4_RENDER_CONFIG_MEMORY_FORMAT_MASK : Z := VC4_MASK 7 6.
Definition VC4_RENDER_CONFIG_DECIMATE_MODE_4X : Z := Z.shiftl 1 4.
Definition VC4_RENDER_CONFIG_FORMAT_MASK : Z := VC4_MASK 3 2.
Definition VC4_RENDER_CONFIG_FORMAT_BGR565_DITHERED : Z := 0.
Definition VC4_RENDER_CONFIG_FORMAT_RGBA8888 : Z := 1.
Definition VC4_RENDER_CONFIG_FORMAT_BGR565 : Z := 2.
Definition VC4_RENDER_CONFIG_MS_MODE_4X : Z := Z.shiftl 1 0.
