(* ===== verification/Vc4Validate.v ===== *)
(** * Validation of VC4 command lists
    ([src/gallium/drivers/vc4/kernel/vc4_validate.c] and [vc4_gem.c])

    A job comes with a binning command list, shader records and uniforms, all
    untrusted.  Validation copies them into a buffer object the hardware reads,
    replacing buffer handles by addresses.

    The three untrusted inputs are byte lists, and pointers into them are offsets: an
    access outside its own input is [Undefined].  The object for the hardware is one
    byte list, [vmem], so that its three parts (command list, shader records,
    uniforms) can run into each other.  Addresses the hardware sees are 32-bit
    integers.  [drm_gem_cma_create], which asks the simulator for memory, is a
    parameter. *)
From S2P Require Import Prelude Bitset QpuPack Vc4Defines Vc4Shader Bytes Vc4Packet.

(** ** Data *)

(** [struct drm_gem_cma_object] with the shader information of [struct drm_vc4_bo]. *)
Record cma_object := CmaObject {
  obj_size : Z; obj_paddr : Z; validated_shader : option vc4_validated_shader_info }.

Record vc4_shader_state := ShaderState { ss_addr : Z; ss_max_index : Z }.

(** The members of [struct vc4_exec_info] that validation only reads, with the input. *)
Record job := Job {
  bo : list (option cma_object); bo_count : Z;
  bin : list Z; bin_cl_size : Z; recs : list Z; uniforms : list Z; job_uniforms_size : Z;
  shader_state_size : Z; ct0ca : Z }.

(** The members that the binning command list changes. *)
Record bin_state := BinState {
  vmem : list Z;
  bo_index : list Z;
  shader_state : list vc4_shader_state; shader_state_count : Z; shader_rec_p : Z;
  found_tile_binning_mode_config_packet : bool; found_start_tile_binning_packet : bool;
  found_increment_semaphore_packet : bool; found_flush : bool;
  bin_tiles_x : Z; bin_tiles_y : Z; tile_bo : option cma_object; tile_alloc_offset : Z }.

(** The members that the shader records change. *)
Record rec_state := RecState {
  rmem : list Z; shader_rec_u : Z; shader_rec_v : Z; shader_rec_size : Z;
  uniforms_u : Z; uniforms_v : Z; uniforms_p : Z }.

(** ** Assignments *)

Definition set_vmem (s : bin_state) (m : list Z) : bin_state :=
  BinState m (bo_index s) (shader_state s) (shader_state_count s) (shader_rec_p s)
    (found_tile_binning_mode_config_packet s) (found_start_tile_binning_packet s)
    (found_increment_semaphore_packet s) (found_flush s)
    (bin_tiles_x s) (bin_tiles_y s) (tile_bo s) (tile_alloc_offset s).

Definition set_bo_index (s : bin_state) (ix : list Z) : bin_state :=
  BinState (vmem s) ix (shader_state s) (shader_state_count s) (shader_rec_p s)
    (found_tile_binning_mode_config_packet s) (found_start_tile_binning_packet s)
    (found_increment_semaphore_packet s) (found_flush s)
    (bin_tiles_x s) (bin_tiles_y s) (tile_bo s) (tile_alloc_offset s).

Definition set_shader_state (s : bin_state) (a : list vc4_shader_state) (count rec_p : Z) : bin_state :=
  BinState (vmem s) (bo_index s) a count rec_p
    (found_tile_binning_mode_config_packet s) (found_start_tile_binning_packet s)
    (found_increment_semaphore_packet s) (found_flush s)
    (bin_tiles_x s) (bin_tiles_y s) (tile_bo s) (tile_alloc_offset s).

(** The four [found_] members, in the order of the structure. *)
Definition set_found (s : bin_state) (config start semaphore flush : bool) : bin_state :=
  BinState (vmem s) (bo_index s) (shader_state s) (shader_state_count s) (shader_rec_p s)
    config start semaphore flush
    (bin_tiles_x s) (bin_tiles_y s) (tile_bo s) (tile_alloc_offset s).

Definition set_tiles (s : bin_state) (x y : Z) (tb : option cma_object) (offset : Z) : bin_state :=
  BinState (vmem s) (bo_index s) (shader_state s) (shader_state_count s) (shader_rec_p s)
    (found_tile_binning_mode_config_packet s) (found_start_tile_binning_packet s)
    (found_increment_semaphore_packet s) (found_flush s) x y tb offset.

(** A store to the memory of the hardware. *)
Definition store (s : bin_state) (m : option (list Z)) : res bin_state :=
  m ← access m; Done (set_vmem s m).

(** ** Sizes *)

Definition utile_width (cpp : Z) : Z :=
  if (cpp =? 1) || (cpp =? 2) then 8 else if cpp =? 4 then 4 else if cpp =? 8 then 2 else 1.

Definition utile_height (cpp : Z) : Z :=
  if cpp =? 1 then 8 else if (cpp =? 2) || (cpp =? 4) || (cpp =? 8) then 4 else 1.

Definition size_is_lt (width height cpp : Z) : bool :=
  (width <=? 4 * utile_width cpp) || (height <=? 4 * utile_height cpp).

Definition gl_shader_rec_size (pointer_bits : Z) : Z :=
  let attribute_count := Z.land pointer_bits 7 in
  let extended := negb (Z.land pointer_bits 8 =? 0) in
  let attribute_count := if attribute_count =? 0 then 8 else attribute_count in
  if extended then 100 + attribute_count * 4 else 36 + attribute_count * 8.

(** The aligned width and height of a surface; [None]: unsupported tiling. *)
Definition aligned_size (tiling_format width height cpp : Z) : option (Z * Z) :=
  let utile_w := utile_width cpp in
  let utile_h := utile_height cpp in
  if tiling_format =? VC4_TILING_FORMAT_LINEAR then
    Some (u32 (roundup width utile_w), height)
  else if tiling_format =? VC4_TILING_FORMAT_T then
    Some (u32 (roundup width (utile_w * 8)), u32 (roundup height (utile_h * 8)))
  else if tiling_format =? VC4_TILING_FORMAT_LT then
    Some (u32 (roundup width utile_w), u32 (roundup height utile_h))
  else None.

Definition vc4_check_tex_size (fbo : cma_object) (offset tiling_format width height cpp : Z) : bool :=
  if (4096 <? width) || (4096 <? height) then false else
  match aligned_size tiling_format width height cpp with
  | None => false
  | Some (aligned_width, aligned_height) =>
    let stride := u32 (aligned_width * cpp) in
    let size := u32 (stride * aligned_height) in
    negb ((u32 (size + offset) <? size) || (obj_size fbo <? u32 (size + offset)))
  end.

(** ** Buffer objects *)

(** The null pointer is refused here with [-EINVAL], as every caller does. *)
Definition vc4_use_bo (j : job) (hindex : Z) : res cma_object :=
  if bo_count j <=? hindex then Fail (- EINVAL) else
  o ← access (array_get (bo j) hindex);
  obj ← access o;
  if (match validated_shader obj with Some _ => true | None => false end)
  then Fail (- EINVAL) else Done obj.

Definition vc4_use_handle (j : job) (s : bin_state) (gem_handles_packet_index : Z) : res cma_object :=
  h ← access (array_get (bo_index s) gem_handles_packet_index);
  vc4_use_bo j h.

Definition validate_bin_pos (untrusted pos : Z) : bool := untrusted - 1 =? pos.

(** ** Packets *)

(** What a packet does: the offsets of the packet after its first byte in the memory of
    the hardware and in the input, and the new state. *)
Definition handler : Type := job -> bin_state -> Z -> Z -> res bin_state.

Definition validate_flush : handler := fun j s validated untrusted =>
  _ ← reject_if (negb (validate_bin_pos untrusted (u32 (bin_cl_size j - 1))));
  Done (set_found s (found_tile_binning_mode_config_packet s) (found_start_tile_binning_packet s)
          (found_increment_semaphore_packet s) true).

Definition validate_start_tile_binning : handler := fun j s validated untrusted =>
  _ ← reject_if (found_start_tile_binning_packet s);
  let s := set_found s (found_tile_binning_mode_config_packet s) true
             (found_increment_semaphore_packet s) (found_flush s) in
  _ ← reject_if (negb (found_tile_binning_mode_config_packet s));
  Done s.

Definition validate_increment_semaphore : handler := fun j s validated untrusted =>
  _ ← reject_if (negb (validate_bin_pos untrusted (u32 (bin_cl_size j - 2))));
  Done (set_found s (found_tile_binning_mode_config_packet s) (found_start_tile_binning_packet s)
          true (found_flush s)).

(** Raises the maximal index of the last shader state. *)
Definition raise_max_index (s : bin_state) (max_index : Z) : res bin_state :=
  let i := u32 (shader_state_count s - 1) in
  state ← access (array_get (shader_state s) i);
  if ss_max_index state <? max_index then
    a ← access (array_set (shader_state s) i (ShaderState (ss_addr state) max_index));
    Done (set_shader_state s a (shader_state_count s) (shader_rec_p s))
  else Done s.

Definition validate_indexed_prim_list : handler := fun j s validated untrusted =>
  length ← access (read32 (bin j) (untrusted + 1));
  offset ← access (read32 (bin j) (untrusted + 5));
  max_index ← access (read32 (bin j) (untrusted + 9));
  b ← access (read8 (bin j) (untrusted + 0));
  let index_size := if Z.shiftr b 4 =? 0 then 1 else 2 in
  _ ← reject_if (shader_state_count s =? 0);
  s ← raise_max_index s max_index;
  ib ← vc4_use_handle j s 0;
  _ ← reject_if ((obj_size ib <? offset) || ((obj_size ib - offset) / index_size <? length));
  store s (write32 (vmem s) (validated + 5) (u32 (obj_paddr ib + offset))).

Definition validate_gl_array_primitive : handler := fun j s validated untrusted =>
  length ← access (read32 (bin j) (untrusted + 1));
  base_index ← access (read32 (bin j) (untrusted + 5));
  _ ← reject_if (shader_state_count s =? 0);
  _ ← reject_if (u32 (length + base_index) <? length);
  raise_max_index s (u32 (length + base_index - 1)).

Definition validate_gl_shader_state : handler := fun j s validated untrusted =>
  let i := shader_state_count s in
  let count := u32 (i + 1) in
  _ ← reject_if (shader_state_size j <=? i);
  addr ← access (read32 (bin j) untrusted);
  a ← access (array_set (shader_state s) i (ShaderState addr 0));
  _ ← reject_if (negb (Z.land addr (u32 (Z.lnot 15)) =? 0));
  s ← store s (write32 (vmem s) validated (u32 (shader_rec_p s + addr)));
  Done (set_shader_state s a count (u32 (shader_rec_p s + roundup (gl_shader_rec_size addr) 16))).

(** The bits of the configuration the hardware gets. *)
Definition bin_config_flags (flags : Z) : Z :=
  Z.lor (Z.lor (Z.lor
    (Z.land flags (Z.lnot (Z.lor VC4_BIN_CONFIG_ALLOC_INIT_BLOCK_SIZE_MASK
                                 VC4_BIN_CONFIG_ALLOC_BLOCK_SIZE_MASK)))
    VC4_BIN_CONFIG_AUTO_INIT_TSDA)
    (Z.shiftl VC4_BIN_CONFIG_ALLOC_INIT_BLOCK_SIZE_32 VC4_BIN_CONFIG_ALLOC_INIT_BLOCK_SIZE_SHIFT))
    (Z.shiftl VC4_BIN_CONFIG_ALLOC_BLOCK_SIZE_128 VC4_BIN_CONFIG_ALLOC_BLOCK_SIZE_SHIFT).

Definition tile_state_bytes (tile_count : Z) : Z := u32 (roundup (48 * tile_count) 4096).
Definition tile_alloc_bytes (tile_count : Z) : Z :=
  u32 (u32 (roundup (32 * tile_count) 256) + 1024 * 1024).

Section Validate.

(** The object created by the [n]-th call for a size; [None]: the null pointer. *)
Context (drm_gem_cma_create : nat -> Z -> option cma_object).

Definition validate_tile_binning_config : handler := fun j s validated untrusted =>
  _ ← reject_if (found_tile_binning_mode_config_packet s);
  let s := set_found s true (found_start_tile_binning_packet s)
             (found_increment_semaphore_packet s) (found_flush s) in
  x ← access (read8 (bin j) (untrusted + 12));
  y ← access (read8 (bin j) (untrusted + 13));
  let tile_count := x * y in
  flags ← access (read8 (bin j) (untrusted + 14));
  _ ← reject_if ((x =? 0) || (y =? 0));
  _ ← reject_if (negb (Z.land flags (Z.lor VC4_BIN_CONFIG_DB_NON_MS
                                           VC4_BIN_CONFIG_TILE_BUFFER_64BIT) =? 0));
  let tile_alloc_offset := tile_state_bytes tile_count in
  s ← store s (write8 (vmem s) (validated + 14) (u8 (bin_config_flags flags)));
  let tile_alloc_size := tile_alloc_bytes tile_count in
  match drm_gem_cma_create 1 (u32 (tile_alloc_offset + tile_alloc_size)) with
  | None => Fail (- ENOMEM)
  | Some tile =>
    let s := set_tiles s x y (Some tile) tile_alloc_offset in
    s ← store s (write32 (vmem s) (validated + 0) (u32 (obj_paddr tile + tile_alloc_offset)));
    s ← store s (write32 (vmem s) (validated + 4) tile_alloc_size);
    store s (write32 (vmem s) (validated + 8) (obj_paddr tile))
  end.

Definition validate_gem_handles : handler := fun j s validated untrusted =>
  a ← access (read32 (bin j) untrusted);
  b ← access (read32 (bin j) (untrusted + 4));
  Done (set_bo_index s [a; b]).

(** *** The table of packets *)

Record cmd_info := CmdInfo { cmd_len : Z; cmd_func : option handler }.

Definition cmd_table : list (Z * cmd_info) :=
  [ (VC4_PACKET_HALT, CmdInfo VC4_PACKET_HALT_SIZE None);
    (VC4_PACKET_NOP, CmdInfo VC4_PACKET_NOP_SIZE None);
    (VC4_PACKET_FLUSH, CmdInfo VC4_PACKET_FLUSH_SIZE (Some validate_flush));
    (VC4_PACKET_FLUSH_ALL, CmdInfo VC4_PACKET_FLUSH_ALL_SIZE None);
    (VC4_PACKET_START_TILE_BINNING,
      CmdInfo VC4_PACKET_START_TILE_BINNING_SIZE (Some validate_start_tile_binning));
    (VC4_PACKET_INCREMENT_SEMAPHORE,
      CmdInfo VC4_PACKET_INCREMENT_SEMAPHORE_SIZE (Some validate_increment_semaphore));
    (VC4_PACKET_GL_INDEXED_PRIMITIVE,
      CmdInfo VC4_PACKET_GL_INDEXED_PRIMITIVE_SIZE (Some validate_indexed_prim_list));
    (VC4_PACKET_GL_ARRAY_PRIMITIVE,
      CmdInfo VC4_PACKET_GL_ARRAY_PRIMITIVE_SIZE (Some validate_gl_array_primitive));
    (VC4_PACKET_PRIMITIVE_LIST_FORMAT, CmdInfo VC4_PACKET_PRIMITIVE_LIST_FORMAT_SIZE None);
    (VC4_PACKET_GL_SHADER_STATE,
      CmdInfo VC4_PACKET_GL_SHADER_STATE_SIZE (Some validate_gl_shader_state));
    (VC4_PACKET_CONFIGURATION_BITS, CmdInfo VC4_PACKET_CONFIGURATION_BITS_SIZE None);
    (VC4_PACKET_FLAT_SHADE_FLAGS, CmdInfo VC4_PACKET_FLAT_SHADE_FLAGS_SIZE None);
    (VC4_PACKET_POINT_SIZE, CmdInfo VC4_PACKET_POINT_SIZE_SIZE None);
    (VC4_PACKET_LINE_WIDTH, CmdInfo VC4_PACKET_LINE_WIDTH_SIZE None);
    (VC4_PACKET_RHT_X_BOUNDARY, CmdInfo VC4_PACKET_RHT_X_BOUNDARY_SIZE None);
    (VC4_PACKET_DEPTH_OFFSET, CmdInfo VC4_PACKET_DEPTH_OFFSET_SIZE None);
    (VC4_PACKET_CLIP_WINDOW, CmdInfo VC4_PACKET_CLIP_WINDOW_SIZE None);
    (VC4_PACKET_VIEWPORT_OFFSET, CmdInfo VC4_PACKET_VIEWPORT_OFFSET_SIZE None);
    (VC4_PACKET_CLIPPER_XY_SCALING, CmdInfo VC4_PACKET_CLIPPER_XY_SCALING_SIZE None);
    (VC4_PACKET_CLIPPER_Z_SCALING, CmdInfo VC4_PACKET_CLIPPER_Z_SCALING_SIZE None);
    (VC4_PACKET_TILE_BINNING_MODE_CONFIG,
      CmdInfo VC4_PACKET_TILE_BINNING_MODE_CONFIG_SIZE (Some validate_tile_binning_config));
    (VC4_PACKET_GEM_HANDLES, CmdInfo VC4_PACKET_GEM_HANDLES_SIZE (Some validate_gem_handles)) ].

Fixpoint cmd_lookup (table : list (Z * cmd_info)) (cmd : Z) : option cmd_info :=
  match table with
  | [] => None
  | (c, info) :: table => if cmd =? c then Some info else cmd_lookup table cmd
  end.

(** [-EINVAL] whatever error the packet gave. *)
Definition run_handler (f : option handler) (j : job) (s : bin_state) (validated untrusted : Z)
    : res bin_state :=
  match f with
  | None => Done s
  | Some f => match f j s validated untrusted with Fail _ => Fail (- EINVAL) | r => r end
  end.

(** The packet at [src_offset]: its command, its length and the new state. *)
Definition bin_packet (j : job) (s : bin_state) (dst_offset src_offset : Z)
    : res (Z * Z * bin_state) :=
  cmd ← access (read8 (bin j) src_offset);
  match cmd_lookup cmd_table cmd with
  | None => Fail (- EINVAL)
  | Some info =>
    _ ← reject_if (bin_cl_size j <? u32 (src_offset + cmd_len info));
    s ← (if negb (cmd =? VC4_PACKET_GEM_HANDLES)
         then store s (memcpy (vmem s) dst_offset (bin j) src_offset (cmd_len info))
         else Done s);
    s ← run_handler (cmd_func info) j s (dst_offset + 1) (src_offset + 1);
    Done (cmd, cmd_len info, s)
  end.

(** The loop over the packets: the final state and the final [dst_offset]. *)
Fixpoint bin_loop (fuel : nat) (j : job) (s : bin_state) (dst_offset src_offset : Z)
    : res (bin_state * Z) :=
  match fuel with
  | O => Undefined
  | S fuel =>
    if src_offset <? bin_cl_size j then
      '(cmd, len, s) ← bin_packet j s dst_offset src_offset;
      let src_offset := u32 (src_offset + len) in
      let dst_offset := if negb (cmd =? VC4_PACKET_GEM_HANDLES)
                        then u32 (dst_offset + len) else dst_offset in
      if cmd =? VC4_PACKET_HALT then Done (s, dst_offset)
      else bin_loop fuel j s dst_offset src_offset
    else Done (s, dst_offset)
  end.

(** The final state and the end [ct0ea] of the validated list. *)
Definition vc4_validate_bin_cl (j : job) (s : bin_state) : res (bin_state * Z) :=
  '(s, dst_offset) ← bin_loop (S (length (bin j))) j s 0 0;
  let ct0ea := u32 (ct0ca j + dst_offset) in
  _ ← reject_if (negb (found_start_tile_binning_packet s));
  _ ← reject_if (negb (found_increment_semaphore_packet s) || negb (found_flush s));
  Done (s, ct0ea).

End Validate.
