(* ===== verification/Vc4ShaderRec.v ===== *)
(** * Validation of VC4 shader records
    ([vc4_validate.c], from [reloc_tex] on, and [vc4_get_bcl] of [vc4_gem.c])

    A shader record names the three shaders of a draw call and its vertex buffers.  Its
    validation copies the record and the uniforms of the shaders to the memory of the
    hardware, and replaces handles by addresses.  [vc4_get_bcl] lays the memory out
    and runs both validations. *)
From S2P Require Import Prelude Bitset QpuPack Vc4Defines Vc4Shader Bytes Vc4Packet Vc4Validate.

(** ** Textures *)

(** Bytes per pixel (or block), width and height in pixels (or blocks); [None]: the
    format is not supported. *)
Definition texture_layout (type width height : Z) : option (Z * Z * Z) :=
  if (type =? VC4_TEXTURE_TYPE_RGBA8888) || (type =? VC4_TEXTURE_TYPE_RGBX8888)
     || (type =? VC4_TEXTURE_TYPE_RGBA32R) then Some (4, width, height)
  else if (type =? VC4_TEXTURE_TYPE_RGBA4444) || (type =? VC4_TEXTURE_TYPE_RGBA5551)
     || (type =? VC4_TEXTURE_TYPE_RGB565) || (type =? VC4_TEXTURE_TYPE_LUMALPHA)
     || (type =? VC4_TEXTURE_TYPE_S16F) || (type =? VC4_TEXTURE_TYPE_S16) then Some (2, width, height)
  else if (type =? VC4_TEXTURE_TYPE_LUMINANCE) || (type =? VC4_TEXTURE_TYPE_ALPHA)
     || (type =? VC4_TEXTURE_TYPE_S8) then Some (1, width, height)
  else if type =? VC4_TEXTURE_TYPE_ETC1 then
    Some (8, Z.shiftr (u32 (width + 3)) 2, Z.shiftr (u32 (height + 3)) 2)
  else None.

(** The stride between the faces of a cube map, 0 if the texture is not one; [None]: set
    twice or not at all. *)
Definition cube_map_stride (p0 p2 p3 : Z) : option Z :=
  if negb (Z.land p0 VC4_TEX_P0_CMMODE_MASK =? 0) then
    let stride := if VC4_TEX_P2_PTYPE p2 =? VC4_TEX_P2_PTYPE_CUBE_MAP_STRIDE
                  then Z.land p2 VC4_TEX_P2_CMST_MASK else 0 in
    if (VC4_TEX_P2_PTYPE p3 =? VC4_TEX_P2_PTYPE_CUBE_MAP_STRIDE) && negb (stride =? 0) then None else
    let stride := if VC4_TEX_P2_PTYPE p3 =? VC4_TEX_P2_PTYPE_CUBE_MAP_STRIDE
                  then Z.land p3 VC4_TEX_P2_CMST_MASK else stride in
    if stride =? 0 then None else Some stride
  else Some 0.

(** The tiling of a mipmap level and its size in bytes. *)
Definition level_tiling (tiling width height cpp : Z) : Z :=
  if (tiling =? VC4_TILING_FORMAT_T) && size_is_lt width height cpp
  then VC4_TILING_FORMAT_LT else tiling.

Definition level_size (tiling width height cpp : Z) : Z :=
  let utile_w := utile_width cpp in
  let utile_h := utile_height cpp in
  let '(aligned_width, aligned_height) :=
    if tiling =? VC4_TILING_FORMAT_T then
      (u32 (roundup width (utile_w * 8)), u32 (roundup height (utile_h * 8)))
    else if tiling =? VC4_TILING_FORMAT_LT then
      (u32 (roundup width utile_w), u32 (roundup height utile_h))
    else (u32 (roundup width utile_w), height) in
  u32 (u32 (aligned_width * cpp) * aligned_height).

(** The loop over the levels [i], [i + 1], ..., [i + n - 1]. *)
Fixpoint check_levels (n : nat) (i offset tiling width height cpp : Z) : bool :=
  match n with
  | O => true
  | S n =>
    let level_width := Z.max (Z.shiftr width i) 1 in
    let level_height := Z.max (Z.shiftr height i) 1 in
    let tiling := level_tiling tiling level_width level_height cpp in
    let size := level_size tiling level_width level_height cpp in
    if offset <? size then false
    else check_levels n (i + 1) (offset - size) tiling width height cpp
  end.

(** The checks on an ordinary texture. *)
Definition check_texture (tex : cma_object) (p0 p1 p2 p3 : Z) : bool :=
  let offset := Z.land p0 VC4_TEX_P0_OFFSET_MASK in
  let miplevels := VC4_TEX_P0_MIPLVLS p0 in
  let width := VC4_TEX_P1_WIDTH p1 in
  let height := VC4_TEX_P1_HEIGHT p1 in
  let width := if width =? 0 then 2048 else width in
  let height := if height =? 0 then 2048 else height in
  match cube_map_stride p0 p2 p3 with
  | None => false
  | Some stride =>
    let type := Z.lor (VC4_TEX_P0_TYPE p0) (Z.shiftl (VC4_TEX_P1_TYPE4 p1) 4) in
    match texture_layout type width height with
    | None => false
    | Some (cpp, width, height) =>
      let tiling := if type =? VC4_TEXTURE_TYPE_RGBA32R then VC4_TILING_FORMAT_LINEAR
                    else if size_is_lt width height cpp then VC4_TILING_FORMAT_LT
                    else VC4_TILING_FORMAT_T in
      vc4_check_tex_size tex (u32 (offset + u32 (stride * 5))) tiling width height cpp
      && check_levels (Z.to_nat miplevels) 1 offset tiling width height cpp
    end
  end.

(** The checks on a memory buffer read directly. *)
Definition check_direct (tex : cma_object) (p0 p1 : Z) : bool :=
  let remaining_size := u32 (obj_size tex - p0) in
  negb (u64 (obj_size tex - 4) <? p0) && negb (u32 (remaining_size - 4) <? p1).

(** A parameter of a sample, 0 if it has none at this offset. *)
Definition optional_param (uniforms : list Z) (uniform_data_u o : Z) : res Z :=
  if o =? UINT_MAX then Done 0 else access (read32 uniforms (uniform_data_u + o)).

Definition reloc_tex (j : job) (m : list Z) (uniforms_v uniform_data_u : Z)
    (sample : vc4_texture_sample_info) (texture_handle_index : Z) : res (list Z) :=
  o0 ← access (array_get (p_offset sample) 0);
  o1 ← access (array_get (p_offset sample) 1);
  o2 ← access (array_get (p_offset sample) 2);
  o3 ← access (array_get (p_offset sample) 3);
  p0 ← access (read32 (uniforms j) (uniform_data_u + o0));
  p1 ← access (read32 (uniforms j) (uniform_data_u + o1));
  p2 ← optional_param (uniforms j) uniform_data_u o2;
  p3 ← optional_param (uniforms j) uniform_data_u o3;
  tex ← vc4_use_bo j texture_handle_index;
  _ ← reject_if (negb (if is_direct sample then check_direct tex p0 p1
                       else check_texture tex p0 p1 p2 p3));
  access (write32 m (uniforms_v + o0) (u32 (obj_paddr tex + p0))).

(** ** Shader records *)

(** A loop whose body may fail. *)
Fixpoint for_each {S A} (f : S -> A -> res S) (s : S) (l : list A) : res S :=
  match l with
  | [] => Done s
  | x :: l => s ← f s x; for_each f s l
  end.

Definition shader_reloc_offsets : list Z := [4; 16; 28].

Definition rec_attributes (addr : Z) : Z :=
  if Z.land addr 7 =? 0 then 8 else Z.land addr 7.

(** The object of a shader: the index is compared with [>]. *)
Definition shader_bo (j : job) (handle : Z) : res cma_object :=
  _ ← reject_if (bo_count j <? handle);
  o ← access (array_get (bo j) handle);
  match o with None => Fail (- EINVAL) | Some obj => Done obj end.

(** The [n] objects whose handles start at [o]. *)
Fixpoint handle_bos (use : Z -> res cma_object) (recs : list Z) (o : Z) (n : nat)
    : res (list cma_object) :=
  match n with
  | O => Done []
  | S n =>
    h ← access (read32 recs o);
    obj ← use h;
    rest ← handle_bos use recs (o + 4) n;
    Done (obj :: rest)
  end.

(** Whether the shader of an object is threaded; without a shader, a null pointer is read. *)
Definition bo_is_threaded (obj : cma_object) : res bool :=
  info ← access (validated_shader obj); Done (is_threaded info).

(** Copies and relocates the uniforms of one shader of the record at [pkt_u]/[pkt_v]. *)
Definition reloc_shader (j : job) (pkt_u pkt_v : Z) (s : rec_state) (oo : Z * cma_object)
    : res rec_state :=
  let '(o, obj) := oo in
  src_offset ← access (read32 (recs j) (pkt_u + o));
  m ← access (write32 (rmem s) (pkt_v + o) (u32 (obj_paddr obj + src_offset)));
  _ ← reject_if (negb (src_offset =? 0));
  match validated_shader obj with
  | None => Fail (- EINVAL)
  | Some info =>
    _ ← reject_if (job_uniforms_size j <? uniforms_src_size info);
    let texture_handles_u := uniforms_u s in
    let uniform_data_u := texture_handles_u + 4 * num_texture_samples info in
    m ← access (memcpy m (uniforms_v s) (uniforms j) uniform_data_u (uniforms_size info));
    m ← for_each (fun m tex =>
          sample ← access (array_get (texture_samples info) tex);
          handle ← access (read32 (uniforms j) (texture_handles_u + 4 * tex));
          reloc_tex j m (uniforms_v s) uniform_data_u sample handle)
        m (zrange 0 (Z.to_nat (num_texture_samples info)));
    m ← for_each (fun m uni =>
          o ← access (array_get (uniform_addr_offsets info) uni);
          access (write32 m (uniforms_v s + 4 * o) (uniforms_p s)))
        m (zrange 0 (Z.to_nat (num_uniform_addr_offsets info)));
    m ← access (write32 m (pkt_v + o + 4) (uniforms_p s));
    Done (RecState m (shader_rec_u s) (shader_rec_v s) (shader_rec_size s)
            (uniforms_u s + uniforms_src_size info) (uniforms_v s + uniforms_size info)
            (u32 (uniforms_p s + uniforms_size info)))
  end.

(** The vertex buffer of attribute [i]. *)
Definition reloc_attribute (j : job) (state : vc4_shader_state) (pkt_u pkt_v : Z) (s : rec_state)
    (ivbo : Z * cma_object) : res rec_state :=
  let '(i, vbo) := ivbo in
  let o := 36 + i * 8 in
  offset ← access (read32 (recs j) (pkt_u + o + 0));
  size_byte ← access (read8 (recs j) (pkt_u + o + 4));
  let attr_size := size_byte + 1 in
  stride ← access (read8 (recs j) (pkt_u + o + 5));
  stride ← (if negb (Z.land (ss_addr state) 8 =? 0)
            then x ← access (read32 (recs j) (pkt_u + 100 + i * 4));
                 Done (Z.lor stride (Z.land x (u32 (Z.lnot 255))))
            else Done stride);
  _ ← reject_if ((obj_size vbo <? offset) || (obj_size vbo - offset <? attr_size));
  _ ← reject_if (negb (stride =? 0)
                 && (u32 ((obj_size vbo - offset - attr_size) / stride) <? ss_max_index state));
  m ← access (write32 (rmem s) (pkt_v + o) (u32 (obj_paddr vbo + offset)));
  Done (RecState m (shader_rec_u s) (shader_rec_v s) (shader_rec_size s)
          (uniforms_u s) (uniforms_v s) (uniforms_p s)).

(** Copies the record: the state and the offsets [src_handles], [pkt_u], [pkt_v]. *)
Definition copy_shader_rec (j : job) (s : rec_state) (addr : Z) : res (rec_state * (Z * Z * Z)) :=
  let packet_size := gl_shader_rec_size addr in
  let nr_relocs := 3 + rec_attributes addr in
  _ ← reject_if (shader_rec_size s <? nr_relocs * 4);
  let src_handles := shader_rec_u s in
  let pkt_u := shader_rec_u s + nr_relocs * 4 in
  let size := u32 (shader_rec_size s - nr_relocs * 4) in
  _ ← reject_if (size <? packet_size);
  let pkt_v := shader_rec_v s in
  m ← access (memcpy (rmem s) pkt_v (recs j) pkt_u packet_size);
  if nr_relocs * 4 <? roundup packet_size 16 - packet_size then Undefined else
  Done (RecState m (pkt_u + packet_size) (pkt_v + roundup packet_size 16) (u32 (size - packet_size))
          (uniforms_u s) (uniforms_v s) (uniforms_p s), (src_handles, pkt_u, pkt_v)).

(** The thread modes of the fragment, vertex and coordinate shaders. *)
Definition check_threads (j : job) (pkt_u : Z) (shaders : list cma_object) : res unit :=
  fs ← access (array_get shaders 0);
  vs ← access (array_get shaders 1);
  cs ← access (array_get shaders 2);
  flags ← access (read16 (recs j) pkt_u);
  fs_threaded ← bo_is_threaded fs;
  _ ← reject_if (negb (Bool.eqb (Z.land flags VC4_SHADER_FLAG_FS_SINGLE_THREAD =? 0) fs_threaded));
  vs_threaded ← bo_is_threaded vs;
  if (vs_threaded : bool) then Fail (- EINVAL) else
  cs_threaded ← bo_is_threaded cs;
  reject_if cs_threaded.

Definition validate_gl_shader_rec (j : job) (s : rec_state) (state : vc4_shader_state)
    : res rec_state :=
  '(s, (src_handles, pkt_u, pkt_v)) ← copy_shader_rec j s (ss_addr state);
  shaders ← handle_bos (shader_bo j) (recs j) src_handles 3;
  vbos ← handle_bos (vc4_use_bo j) (recs j) (src_handles + 12) (Z.to_nat (rec_attributes (ss_addr state)));
  _ ← check_threads j pkt_u shaders;
  s ← for_each (reloc_shader j pkt_u pkt_v) s (zip shader_reloc_offsets shaders);
  for_each (reloc_attribute j state pkt_u pkt_v) s
    (zip (zrange 0 (Z.to_nat (rec_attributes (ss_addr state)))) vbos).

Definition vc4_validate_shader_recs (j : job) (s : rec_state) (b : bin_state) : res rec_state :=
  for_each (fun s i =>
    state ← access (array_get (shader_state b) i);
    validate_gl_shader_rec j s state)
  s (zrange 0 (Z.to_nat (shader_state_count b))).

(** ** The whole job *)

(** The arguments of the submit call that validation uses. *)
Record submit_cl := SubmitCl {
  arg_bin_cl : list Z; arg_shader_rec : list Z; arg_uniforms : list Z;
  arg_bin_cl_size : Z; arg_shader_rec_size : Z; arg_uniforms_size : Z; arg_shader_rec_count : Z }.

(** Where the parts of the memory of the hardware start, and the sizes of the two
    allocations. *)
Record layout := Layout {
  shader_rec_offset : Z; uniforms_offset : Z; exec_size : Z; temp_size : Z }.

Definition bcl_layout (a : submit_cl) : layout :=
  let shader_rec_offset := u32 (roundup (arg_bin_cl_size a) 16) in
  let uniforms_offset := u32 (shader_rec_offset + arg_shader_rec_size a) in
  let exec_size := u32 (uniforms_offset + arg_uniforms_size a) in
  Layout shader_rec_offset uniforms_offset exec_size (u32 (exec_size + 8 * arg_shader_rec_count a)).

Definition layout_overflows (a : submit_cl) : bool :=
  let l := bcl_layout a in
  (uniforms_offset l <? shader_rec_offset l) || (exec_size l <? uniforms_offset l)
  || (UINT_MAX / 8 <=? arg_shader_rec_count a) || (temp_size l <? exec_size l).

Definition bcl_job (bos : list (option cma_object)) (a : submit_cl) (paddr : Z) : job :=
  Job bos (Z.of_nat (length bos)) (arg_bin_cl a) (arg_bin_cl_size a) (arg_shader_rec a)
    (arg_uniforms a) (arg_uniforms_size a) (arg_shader_rec_count a) paddr.

(** The state at the start; [contents] is what the new memory holds and [states] what the
    array of shader states holds. *)
Definition bcl_bin_state (a : submit_cl) (contents : list Z) (states : list vc4_shader_state)
    (paddr : Z) : bin_state :=
  BinState contents [0; 0] states 0 (u32 (paddr + shader_rec_offset (bcl_layout a)))
    false false false false 0 0 None 0.

Definition bcl_rec_state (a : submit_cl) (m : list Z) (paddr : Z) : rec_state :=
  let l := bcl_layout a in
  RecState m 0 (shader_rec_offset l) (arg_shader_rec_size a)
    0 (uniforms_offset l) (u32 (paddr + uniforms_offset l)).

Section GetBcl.

Context (drm_gem_cma_create : nat -> Z -> option cma_object).

(** [kmalloc_ok]: whether the temporary buffer can be allocated.  The result is [None] when
    0 is returned before anything was validated. *)
Definition vc4_get_bcl (kmalloc_ok : bool) (bos : list (option cma_object)) (a : submit_cl)
    (contents : list Z) (states : list vc4_shader_state) : res (option (bin_state * Z * rec_state)) :=
  if layout_overflows a then Done None
  else if negb kmalloc_ok then Fail (- ENOMEM)
  else
    exec_bo ← access (drm_gem_cma_create 0 (exec_size (bcl_layout a)));
    let paddr := obj_paddr exec_bo in
    let j := bcl_job bos a paddr in
    '(b, ct0ea) ← vc4_validate_bin_cl drm_gem_cma_create j (bcl_bin_state a contents states paddr);
    r ← vc4_validate_shader_recs j (bcl_rec_state a (vmem b) paddr) b;
    Done (Some (b, ct0ea, r)).

End GetBcl.
