(* ===== verification/Vc4BinSteps.v ===== *)
(** * The binning command list as a sequence of packets

    Validation works on two byte buffers with running offsets.  Here its runs are related to a
    machine on whole packets: each step takes a packet of the input, gives the packet the
    hardware sees, and changes the handles loaded, the shader states seen so far and the
    address of the next shader record.  Every packet handler is a step of this machine. *)
From S2P Require Import Prelude Bitset Bytes QpuPack Vc4Defines Vc4Shader Vc4Packet Vc4Validate.

(** ** The packet machine *)

Definition opcode (p : list Z) : Z := match p with [] => -1 | c :: _ => c end.

Record cl_abs := ClAbs {
  ab_handles : list Z; ab_states : list vc4_shader_state; ab_rec_p : Z }.

(** The object behind a handle, which must not be a shader. *)
Definition data_bo (j : job) (handle : Z) (obj : cma_object) : Prop :=
  0 <= handle < bo_count j /\ array_get (bo j) handle = Some (Some obj) /\ validated_shader obj = None.

(** A draw call raises the maximal index of the last shader state. *)
Definition draw (states : list vc4_shader_state) (index : Z) (states' : list vc4_shader_state) : Prop :=
  exists l st, states = l ++ [st] /\
    states' = l ++ [ShaderState (ss_addr st) (Z.max (ss_max_index st) index)].

Definition is_plain (cmd : Z) : bool :=
  negb (existsb (Z.eqb cmd) [VC4_PACKET_GEM_HANDLES; VC4_PACKET_GL_SHADER_STATE;
    VC4_PACKET_GL_ARRAY_PRIMITIVE; VC4_PACKET_GL_INDEXED_PRIMITIVE;
    VC4_PACKET_TILE_BINNING_MODE_CONFIG]).

(** The stores into a tile binning configuration. *)
Definition config_stores (p : list Z) (flags tile_address alloc_size state_address : Z)
    : option (list Z) :=
  p ← write8 p 15 flags; p ← write32 p 1 tile_address; p ← write32 p 5 alloc_size;
  write32 p 9 state_address.

Section Machine.

Context (drm_gem_cma_create : nat -> Z -> option cma_object).
Context (j : job).

(** [packet_step a p out a']: the packet [p] is replaced by the bytes [out]. *)
Inductive packet_step : cl_abs -> list Z -> list Z -> cl_abs -> Prop :=
  | step_plain a p : is_plain (opcode p) = true -> packet_step a p p a
  | step_handles a p h0 h1 :
      opcode p = VC4_PACKET_GEM_HANDLES -> read32 p 1 = Some h0 -> read32 p 5 = Some h1 ->
      packet_step a p [] (ClAbs [h0; h1] (ab_states a) (ab_rec_p a))
  | step_state a p out addr :
      opcode p = VC4_PACKET_GL_SHADER_STATE -> read32 p 1 = Some addr ->
      Z.of_nat (length (ab_states a)) < shader_state_size j -> Z.land addr (u32 (Z.lnot 15)) = 0 ->
      write32 p 1 (u32 (ab_rec_p a + addr)) = Some out ->
      packet_step a p out (ClAbs (ab_handles a) (ab_states a ++ [ShaderState addr 0])
                             (u32 (ab_rec_p a + roundup (gl_shader_rec_size addr) 16)))
  | step_array a p len base states' :
      opcode p = VC4_PACKET_GL_ARRAY_PRIMITIVE -> read32 p 2 = Some len -> read32 p 6 = Some base ->
      len <= u32 (len + base) -> draw (ab_states a) (u32 (len + base - 1)) states' ->
      packet_step a p p (ClAbs (ab_handles a) states' (ab_rec_p a))
  | step_indexed a p out b len offset index handle ib states' :
      opcode p = VC4_PACKET_GL_INDEXED_PRIMITIVE -> read8 p 1 = Some b ->
      read32 p 2 = Some len -> read32 p 6 = Some offset -> read32 p 10 = Some index ->
      draw (ab_states a) index states' -> array_get (ab_handles a) 0 = Some handle ->
      data_bo j handle ib ->
      offset <= obj_size ib ->
      len <= (obj_size ib - offset) / (if Z.shiftr b 4 =? 0 then 1 else 2) ->
      write32 p 6 (u32 (obj_paddr ib + offset)) = Some out ->
      packet_step a p out (ClAbs (ab_handles a) states' (ab_rec_p a))
  | step_config a p out x y flags tile :
      opcode p = VC4_PACKET_TILE_BINNING_MODE_CONFIG ->
      read8 p 13 = Some x -> read8 p 14 = Some y -> read8 p 15 = Some flags ->
      x <> 0 -> y <> 0 ->
      Z.land flags (Z.lor VC4_BIN_CONFIG_DB_NON_MS VC4_BIN_CONFIG_TILE_BUFFER_64BIT) = 0 ->
      drm_gem_cma_create 1 (u32 (tile_state_bytes (x * y) + tile_alloc_bytes (x * y))) = Some tile ->
      config_stores p (u8 (bin_config_flags flags)) (u32 (obj_paddr tile + tile_state_bytes (x * y)))
        (tile_alloc_bytes (x * y)) (obj_paddr tile) = Some out ->
      packet_step a p out a.

(** A whole list: the packets the hardware sees are those with output. *)
Inductive packet_run : cl_abs -> list (list Z) -> list (list Z) -> cl_abs -> Prop :=
  | run_nil a : packet_run a [] [] a
  | run_cons a p out a1 ps outs a2 :
      packet_step a p out a1 -> packet_run a1 ps outs a2 -> packet_run a (p :: ps) (out :: outs) a2.

(** A packet of the table with its length. *)
Definition packet_wf (p : list Z) : Prop :=
  exists info, cmd_lookup (cmd_table drm_gem_cma_create) (opcode p) = Some info /\
    Z.of_nat (length p) = cmd_len info.

(** ** The [found_] members *)

Record found := Found { f_config : bool; f_start : bool; f_semaphore : bool; f_flush : bool }.

Definition found_of (s : bin_state) : found :=
  Found (found_tile_binning_mode_config_packet s) (found_start_tile_binning_packet s)
    (found_increment_semaphore_packet s) (found_flush s).

(** What command [cmd] at position [pos] does to them. *)
Inductive found_step (pos cmd : Z) : found -> found -> Prop :=
  | found_config b c d : cmd = VC4_PACKET_TILE_BINNING_MODE_CONFIG ->
      found_step pos cmd (Found false b c d) (Found true b c d)
  | found_start c d : cmd = VC4_PACKET_START_TILE_BINNING ->
      found_step pos cmd (Found true false c d) (Found true true c d)
  | found_semaphore a b c d : cmd = VC4_PACKET_INCREMENT_SEMAPHORE -> pos = u32 (bin_cl_size j - 2) ->
      found_step pos cmd (Found a b c d) (Found a b true d)
  | found_flushed a b c d : cmd = VC4_PACKET_FLUSH -> pos = u32 (bin_cl_size j - 1) ->
      found_step pos cmd (Found a b c d) (Found a b c true)
  | found_other f : cmd <> VC4_PACKET_TILE_BINNING_MODE_CONFIG -> cmd <> VC4_PACKET_START_TILE_BINNING ->
      cmd <> VC4_PACKET_INCREMENT_SEMAPHORE -> cmd <> VC4_PACKET_FLUSH -> found_step pos cmd f f.

(** ** Handlers on one packet *)

Definition abs_of (s : bin_state) : cl_abs :=
  ClAbs (bo_index s) (take (Z.to_nat (shader_state_count s)) (shader_state s)) (shader_rec_p s).

Record cl_wf (s : bin_state) : Prop := {
  wf_states : Z.of_nat (length (shader_state s)) = shader_state_size j;
  wf_size : shader_state_size j < 2 ^ 32 - 1;
  wf_count : 0 <= shader_state_count s <= shader_state_size j }.

(** The outcome of a handler for the packet [p] between [l1] and [l2]. *)
Definition handled (l1 p l2 : list Z) (s s' : bin_state) : Prop :=
  exists out, vmem s' = l1 ++ out ++ l2 /\ length out = length p /\ opcode out = opcode p /\
    packet_step (abs_of s) p out (abs_of s') /\ cl_wf s'.

(** The handler runs on packet [p], read at [src] and copied to [dst]. *)
Record at_packet (s : bin_state) (l1 p l2 : list Z) (dst src : Z) : Prop := {
  ap_mem : vmem s = l1 ++ p ++ l2;
  ap_dst : Z.of_nat (length l1) = dst;
  ap_src : exists b1 b2, bin j = b1 ++ p ++ b2 /\ Z.of_nat (length b1) = src }.

Lemma at_read8 s l1 p l2 dst src k :
  at_packet s l1 p l2 dst src -> 0 <= k -> k + 1 < Z.of_nat (length p) ->
  read8 (bin j) (src + 1 + k) = read8 p (1 + k).
Proof.
  intros [_ _ (b1 & b2 & -> & <-)] H1 H2. rewrite <- Z.add_assoc. apply read8_mid. lia.
Qed.

Lemma at_read32 s l1 p l2 dst src k :
  at_packet s l1 p l2 dst src -> 0 <= k -> k + 5 <= Z.of_nat (length p) ->
  read32 (bin j) (src + 1 + k) = read32 p (1 + k).
Proof.
  intros [_ _ (b1 & b2 & -> & <-)] H1 H2. rewrite <- Z.add_assoc. apply read32_mid; lia.
Qed.

Lemma opcode_write p o bs p' : write_bytes p o bs = Some p' -> 1 <= o -> opcode p' = opcode p.
Proof.
  intros (_ & Hl & ->)%write_bytes_inv Ho. destruct p as [|c p]; [cbn [length] in Hl; lia|].
  destruct (Z.to_nat o) eqn:E; [lia|]. done.
Qed.

(** A store to the copy of the packet. *)
Lemma store_mid s l1 p l2 dst o bs s' :
  vmem s = l1 ++ p ++ l2 -> Z.of_nat (length l1) = dst ->
  0 <= o -> o + 1 + Z.of_nat (length bs) <= Z.of_nat (length p) ->
  store s (write_bytes (vmem s) (dst + 1 + o) bs) = Done s' ->
  exists p', write_bytes p (1 + o) bs = Some p' /\ length p' = length p /\ opcode p' = opcode p /\
    s' = set_vmem s (l1 ++ p' ++ l2).
Proof.
  intros Hm <- Ho Hl H. destruct (write_bytes p (1 + o) bs) as [p'|] eqn:Ep.
  2: { rewrite write_bytes_Some in Ep by lia. discriminate Ep. }
  exists p'. split; [done|]. split; [by eapply write_bytes_length|].
  split; [eapply opcode_write; [exact Ep|lia]|]. unfold store in H. rewrite Hm, <- Z.add_assoc in H.
  rewrite (write_bytes_mid _ _ _ _ _ _ Ep) in H. cbn in H. by injection H as <-.
Qed.

End Machine.

Section Steps.

Context (drm_gem_cma_create : nat -> Z -> option cma_object).
Context (j : job).

Notation packet_step := (packet_step drm_gem_cma_create j).
Notation handled := (handled drm_gem_cma_create j).
Notation cl_wf := (cl_wf j).

(** What a handler must satisfy on a copied packet. *)
Definition handler_ok (cmd len : Z) (h : handler) : Prop :=
  forall s s' l1 p l2 dst src,
    at_packet j s l1 p l2 dst src -> cl_wf s -> opcode p = cmd -> Z.of_nat (length p) = len ->
    h j s (dst + 1) (src + 1) = Done s' ->
    handled l1 p l2 s s' /\ found_step j src cmd (found_of s) (found_of s').

(** A handler that leaves memory alone. *)
Lemma handled_same s s' l1 p l2 dst src :
  at_packet j s l1 p l2 dst src -> vmem s' = vmem s -> packet_step (abs_of s) p p (abs_of s') ->
  cl_wf s' -> handled l1 p l2 s s'.
Proof. intros [Hm _ _] Hv Hs Hw. exists p. rewrite Hv, Hm. done. Qed.

Lemma flush_ok : handler_ok VC4_PACKET_FLUSH VC4_PACKET_FLUSH_SIZE validate_flush.
Proof.
  intros s s' l1 p l2 dst src Hat Hwf Hop Hlen H. unfold validate_flush, validate_bin_pos in H.
  run_inv H. subst s'. run_inv_all. apply negb_false_iff, Z.eqb_eq in E. split.
  - apply (handled_same _ _ _ _ _ _ _ Hat); [done| |by destruct Hwf].
    apply step_plain. by rewrite Hop.
  - apply found_flushed; [done|]. lia.
Qed.

Lemma start_ok :
  handler_ok VC4_PACKET_START_TILE_BINNING VC4_PACKET_START_TILE_BINNING_SIZE validate_start_tile_binning.
Proof.
  intros s s' l1 p l2 dst src Hat Hwf Hop Hlen H. unfold validate_start_tile_binning in H.
  run_inv H. subst s'. run_inv_all. cbn in E0. apply negb_false_iff in E0. split.
  - apply (handled_same _ _ _ _ _ _ _ Hat); [done| |by destruct Hwf].
    apply step_plain. by rewrite Hop.
  - unfold found_of. cbn. rewrite E, E0. by apply found_start.
Qed.

Lemma semaphore_ok :
  handler_ok VC4_PACKET_INCREMENT_SEMAPHORE VC4_PACKET_INCREMENT_SEMAPHORE_SIZE
    validate_increment_semaphore.
Proof.
  intros s s' l1 p l2 dst src Hat Hwf Hop Hlen H. unfold validate_increment_semaphore, validate_bin_pos in H.
  run_inv H. subst s'. run_inv_all. apply negb_false_iff, Z.eqb_eq in E. split.
  - apply (handled_same _ _ _ _ _ _ _ Hat); [done| |by destruct Hwf].
    apply step_plain. by rewrite Hop.
  - apply found_semaphore; [done|]. lia.
Qed.

(** The flags do not change. *)
Lemma found_same pos cmd s s' :
  found_of s' = found_of s ->
  existsb (Z.eqb cmd) [VC4_PACKET_TILE_BINNING_MODE_CONFIG; VC4_PACKET_START_TILE_BINNING;
    VC4_PACKET_INCREMENT_SEMAPHORE; VC4_PACKET_FLUSH] = false ->
  found_step j pos cmd (found_of s) (found_of s').
Proof.
  intros -> H. cbn in H. rewrite !orb_false_iff, !Z.eqb_neq in H.
  destruct H as (H1 & H2 & H3 & H4 & _). by apply found_other.
Qed.

Lemma raise_max_index_draw s i s' :
  cl_wf s -> shader_state_count s <> 0 -> raise_max_index s i = Done s' ->
  draw (ab_states (abs_of s)) i (ab_states (abs_of s')) /\ cl_wf s' /\
  vmem s' = vmem s /\ bo_index s' = bo_index s /\ shader_rec_p s' = shader_rec_p s /\
  shader_state_count s' = shader_state_count s /\ found_of s' = found_of s.
Proof.
  intros [Hst Hsz Hc] Hne H. unfold raise_max_index in H. run_inv H. run_inv_all.
  rewrite u32_small in E by lia. apply array_get_Some in E as [_ Hl].
  remember (shader_state_count s) as n eqn:En.
  assert (take (Z.to_nat n) (shader_state s) = take (Z.to_nat (n - 1)) (shader_state s) ++ [a]) as Ht.
  { replace (Z.to_nat n) with (S (Z.to_nat (n - 1))) by lia. by apply take_S_r. }
  destruct (Z.ltb_spec (ss_max_index a) i).
  - run_inv H. subst s'. run_inv_all. rewrite u32_small in E by lia.
    apply array_set_inv in E as [Hb ->]. cbn. rewrite <- En. split.
    + exists (take (Z.to_nat (n - 1)) (shader_state s)), a. split; [done|].
      replace (Z.to_nat n) with (S (Z.to_nat (n - 1))) by lia.
      rewrite (take_S_r _ _ (ShaderState (ss_addr a) i)) by (apply list_lookup_insert_eq; lia).
      rewrite take_insert_ge by lia. rewrite Z.max_r by lia. done.
    + repeat split; cbn; rewrite ?length_insert; lia.
  - run_inv H. subst s'. split; [|repeat split; lia]. unfold abs_of. cbn. rewrite <- En.
    exists (take (Z.to_nat (n - 1)) (shader_state s)), a. split; [done|].
    rewrite Ht, Z.max_l by lia. by destruct a.
Qed.

Lemma use_bo_data h ib : vc4_use_bo j h = Done ib -> data_bo j h ib.
Proof.
  unfold vc4_use_bo. intros H. destruct (Z.leb_spec (bo_count j) h); [discriminate H|].
  run_inv H. run_inv_all. destruct (validated_shader _) eqn:Ev in H; [discriminate H|].
  injection H as <-. subst. pose proof (array_get_lt _ _ _ E). split; [lia|done].
Qed.

Lemma array_primitive_ok :
  handler_ok VC4_PACKET_GL_ARRAY_PRIMITIVE VC4_PACKET_GL_ARRAY_PRIMITIVE_SIZE
    validate_gl_array_primitive.
Proof.
  intros s s' l1 p l2 dst src Hat Hwf Hop Hlen H. unfold validate_gl_array_primitive in H.
  run_inv H. run_inv_all. apply Z.eqb_neq in E1. apply Z.ltb_ge in E2.
  unfold VC4_PACKET_GL_ARRAY_PRIMITIVE_SIZE in Hlen.
  rewrite (at_read32 _ _ _ _ _ _ _ _ Hat) in E by lia. rewrite (at_read32 _ _ _ _ _ _ _ _ Hat) in E0 by lia.
  destruct (raise_max_index_draw _ _ _ Hwf E1 H) as (Hd & Hw & Hv & Hb & Hp & _ & Hf). split.
  - apply (handled_same _ _ _ _ _ _ _ Hat); [done| |done].
    replace (abs_of s') with (ClAbs (bo_index s) (ab_states (abs_of s')) (shader_rec_p s))
      by (unfold abs_of; cbn; by rewrite Hb, Hp).
    by apply (step_array _ _ (abs_of s) p a a0).
  - by apply found_same.
Qed.

Lemma gem_handles_step s s' p v src :
  (exists b1 b2, bin j = b1 ++ p ++ b2 /\ Z.of_nat (length b1) = src) ->
  opcode p = VC4_PACKET_GEM_HANDLES -> Z.of_nat (length p) = VC4_PACKET_GEM_HANDLES_SIZE ->
  cl_wf s -> validate_gem_handles j s v (src + 1) = Done s' ->
  packet_step (abs_of s) p [] (abs_of s') /\ cl_wf s' /\ vmem s' = vmem s /\ found_of s' = found_of s.
Proof.
  intros Hb Hop Hlen Hwf H. unfold validate_gem_handles in H. run_inv H. subst s'. run_inv_all.
  assert (at_packet j (set_vmem s ([] ++ p ++ [])) [] p [] 0 src) as Hat by done.
  unfold VC4_PACKET_GEM_HANDLES_SIZE in Hlen. rewrite <- (Z.add_0_r (src + 1)) in E.
  rewrite (at_read32 _ _ _ _ _ _ _ _ Hat) in E by lia. rewrite (at_read32 _ _ _ _ _ _ _ _ Hat) in E0 by lia.
  split; [|by destruct Hwf]. by apply (step_handles _ _ (abs_of s) p a a0).
Qed.


Lemma shader_state_ok :
  handler_ok VC4_PACKET_GL_SHADER_STATE VC4_PACKET_GL_SHADER_STATE_SIZE validate_gl_shader_state.
Proof.
  intros s s' l1 p l2 dst src Hat Hwf Hop Hlen H. unfold validate_gl_shader_state in H.
  run_inv H. subst s'. run_inv_all. apply Z.leb_gt in E. apply negb_false_iff, Z.eqb_eq in E2.
  unfold VC4_PACKET_GL_SHADER_STATE_SIZE in Hlen. rewrite <- (Z.add_0_r (src + 1)) in E0.
  rewrite (at_read32 _ _ _ _ _ _ _ _ Hat) in E0 by lia. rewrite <- (Z.add_0_r (dst + 1)) in E3.
  eapply store_mid in E3 as (out & Hout & Hol & Hoo & ->);
    [|exact (ap_mem _ _ _ _ _ _ _ Hat)|exact (ap_dst _ _ _ _ _ _ _ Hat)|lia|rewrite le32_length; lia].
  apply array_set_inv in E1 as [Hb ->]. destruct Hwf as [Hst Hsz Hc]. split.
  - exists out. split; [done|]. split; [done|]. split; [done|]. split; [|split; cbn; rewrite ?length_insert, ?u32_small; lia].
    unfold abs_of. cbn. rewrite u32_small by lia.
    replace (Z.to_nat (shader_state_count s + 1)) with (S (Z.to_nat (shader_state_count s))) by lia.
    rewrite (take_S_r _ _ (ShaderState a0 0)) by (apply list_lookup_insert_eq; lia).
    rewrite take_insert_ge by lia.
    apply (step_state _ _ (abs_of s) p out a0); [done|done| |done|done]. cbn. rewrite length_take. lia.
  - by apply found_same.
Qed.

Lemma indexed_prim_ok :
  handler_ok VC4_PACKET_GL_INDEXED_PRIMITIVE VC4_PACKET_GL_INDEXED_PRIMITIVE_SIZE
    validate_indexed_prim_list.
Proof.
  intros s s' l1 p l2 dst src Hat Hwf Hop Hlen H. unfold validate_indexed_prim_list in H.
  run_inv H. run_inv_all. apply Z.eqb_neq in E3. unfold VC4_PACKET_GL_INDEXED_PRIMITIVE_SIZE in Hlen.
  rewrite (at_read32 _ _ _ _ _ _ _ _ Hat) in E by lia. rewrite (at_read32 _ _ _ _ _ _ _ _ Hat) in E0 by lia.
  rewrite (at_read32 _ _ _ _ _ _ _ _ Hat) in E1 by lia. rewrite (at_read8 _ _ _ _ _ _ _ _ Hat) in E2 by lia.
  destruct (raise_max_index_draw _ _ _ Hwf E3 E4) as (Hd & Hw & Hv & Hb & Hp & _ & Hf).
  assert (at_packet j a4 l1 p l2 dst src) as Hat' by (destruct Hat as [Hm ? ?]; split; [by rewrite Hv|done..]).
  eapply store_mid in H as (out & Hout & Hol & Hoo & ->);
    [|exact (ap_mem _ _ _ _ _ _ _ Hat')|exact (ap_dst _ _ _ _ _ _ _ Hat')|lia|rewrite le32_length; lia].
  unfold vc4_use_handle in E5. run_inv E5. run_inv_all. apply use_bo_data in E5.
  apply orb_false_iff in E6 as [E6 E8]. apply Z.ltb_ge in E6, E8. split; [|by apply found_same].
  exists out. split; [done|]. split; [done|]. split; [done|]. split; [|by destruct Hw].
  replace (abs_of (set_vmem a4 (l1 ++ out ++ l2)))
    with (ClAbs (bo_index s) (ab_states (abs_of a4)) (shader_rec_p s)) by (unfold abs_of; cbn; by rewrite Hb, Hp).
  rewrite Hb in E7. by eapply (step_indexed _ _ (abs_of s) p out).
Qed.

Lemma config_ok :
  handler_ok VC4_PACKET_TILE_BINNING_MODE_CONFIG VC4_PACKET_TILE_BINNING_MODE_CONFIG_SIZE
    (validate_tile_binning_config drm_gem_cma_create).
Proof.
  intros s s' l1 p l2 dst src Hat Hwf Hop Hlen H. unfold validate_tile_binning_config in H.
  run_inv H. run_inv_all. unfold VC4_PACKET_TILE_BINNING_MODE_CONFIG_SIZE in Hlen.
  destruct (drm_gem_cma_create _ _) as [tile|] eqn:Et in H; [|discriminate H]. run_inv H.
  rewrite (at_read8 _ _ _ _ _ _ _ _ Hat) in E0 by lia. rewrite (at_read8 _ _ _ _ _ _ _ _ Hat) in E1 by lia.
  rewrite (at_read8 _ _ _ _ _ _ _ _ Hat) in E2 by lia.
  apply orb_false_iff in E3 as [Hx%Z.eqb_neq Hy%Z.eqb_neq]. apply negb_false_iff, Z.eqb_eq in E4.
  destruct Hat as [Hm Hd _].
  eapply store_mid in E5 as (p1 & Hp1 & Hl1 & Ho1 & Hs1); [|exact Hm|exact Hd|lia|cbn [length]; lia]. subst a5.
  eapply store_mid in E6 as (p2 & Hp2 & Hl2 & Ho2 & Hs2); [|reflexivity|exact Hd|lia|rewrite le32_length; lia]. subst a6.
  eapply store_mid in E7 as (p3 & Hp3 & Hl3 & Ho3 & Hs3); [|reflexivity|exact Hd|lia|rewrite le32_length; lia]. subst a7.
  eapply store_mid in H as (p4 & Hp4 & Hl4 & Ho4 & ->); [|reflexivity|exact Hd|lia|rewrite le32_length; lia].
  split.
  - exists p4. split; [done|]. split; [congruence|]. split; [congruence|]. split; [|by destruct Hwf].
    change (abs_of (set_vmem _ _)) with (abs_of s). eapply (step_config _ _ (abs_of s) p p4); try done.
    unfold config_stores, write8, write32. change (1 + 14) with 15 in Hp1. change (1 + 0) with 1 in Hp2.
    change (1 + 4) with 5 in Hp3. rewrite Hp1. obind. rewrite Hp2. obind. rewrite Hp3. done.
  - unfold found_of. cbn. rewrite E. by apply found_config.
Qed.


End Steps.
