(* ===== verification/Vc4BinRun.v ===== *)
(** * The loop over the command list is a run of the packet machine

    And the order of the packets in an accepted command list. *)
From S2P Require Import Prelude Bitset Bytes QpuPack Vc4Defines Vc4Shader Vc4Packet Vc4Validate Vc4BinSteps.

Section Run.

Context (drm_gem_cma_create : nat -> Z -> option cma_object).
Context (j : job).

Notation packet_step := (packet_step drm_gem_cma_create j).
Notation packet_run := (packet_run drm_gem_cma_create j).
Notation packet_wf := (packet_wf drm_gem_cma_create).
Notation table := (cmd_table drm_gem_cma_create).
Notation cl_wf := (cl_wf j).

Lemma cmd_lookup_In t cmd info : cmd_lookup t cmd = Some info -> In (cmd, info) t.
Proof.
  induction t as [|[c i] t IH]; cbn; [discriminate|].
  destruct (Z.eqb_spec cmd c) as [->|]; [|auto]. intros H. injection H as <-. by left.
Qed.

(** What the table promises for a command. *)
Definition entry_ok (e : Z * cmd_info) : Prop :=
  1 <= cmd_len (snd e) <= 16 /\
  match cmd_func (snd e) with
  | None => is_plain (fst e) = true /\
      existsb (Z.eqb (fst e)) [VC4_PACKET_TILE_BINNING_MODE_CONFIG; VC4_PACKET_START_TILE_BINNING;
        VC4_PACKET_INCREMENT_SEMAPHORE; VC4_PACKET_FLUSH] = false
  | Some h =>
      if fst e =? VC4_PACKET_GEM_HANDLES then h = validate_gem_handles /\ cmd_len (snd e) = 9
      else handler_ok drm_gem_cma_create j (fst e) (cmd_len (snd e)) h
  end.

Lemma table_ok : Forall entry_ok table.
Proof.
  unfold cmd_table. repeat apply Forall_cons_2; [..|apply Forall_nil_2].
  all: (split; [cbn [snd cmd_len]; vm_compute; split; congruence|]; cbn [fst snd cmd_len cmd_func]).
  all: try (split; reflexivity).
  all: first [apply flush_ok | apply start_ok | apply semaphore_ok | apply indexed_prim_ok
    | apply array_primitive_ok | apply shader_state_ok | apply config_ok].
Qed.

Lemma lookup_entry_ok cmd info : cmd_lookup table cmd = Some info -> entry_ok (cmd, info).
Proof.
  intros H%cmd_lookup_In%list_elem_of_In. pose proof table_ok as Ht.
  rewrite Forall_forall in Ht. by apply Ht.
Qed.

(** The outcome of a packet read at [src] and written at [dst]. *)
Record packet_done (s : bin_state) (dst src cmd len : Z) (s' : bin_state) (p out : list Z) : Prop := {
  pd_src : exists b1 b2, bin j = b1 ++ p ++ b2 /\ Z.of_nat (length b1) = src;
  pd_len : Z.of_nat (length p) = len /\ 1 <= len <= 16;
  pd_cmd : opcode p = cmd;
  pd_wf : packet_wf p;
  pd_step : packet_step (abs_of s) p out (abs_of s');
  pd_found : found_step j src cmd (found_of s) (found_of s');
  pd_cl : cl_wf s';
  pd_mem : length (vmem s') = length (vmem s) /\
           take (Z.to_nat (dst + Z.of_nat (length out))) (vmem s') = take (Z.to_nat dst) (vmem s) ++ out;
  pd_out : Z.of_nat (length out) = if cmd =? VC4_PACKET_GEM_HANDLES then 0 else len }.

Lemma read_bytes_head m o n bs c :
  read_bytes m o n = Some bs -> 1 <= n -> read8 m o = Some c -> opcode bs = c.
Proof.
  intros (Ho & Hl & l1 & l2 & -> & <-)%read_bytes_inv Hn Hc.
  rewrite <- (Z.add_0_r (Z.of_nat (length l1))), read8_mid in Hc by lia.
  destruct bs as [|b bs]; [done|]. cbn in Hc. by injection Hc as <-.
Qed.

Lemma bin_packet_copied s dst src info s0 s' p :
  cl_wf s -> 0 <= dst -> read_bytes (bin j) src (cmd_len info) = Some p ->
  entry_ok (opcode p, info) -> opcode p <> VC4_PACKET_GEM_HANDLES ->
  store s (memcpy (vmem s) dst (bin j) src (cmd_len info)) = Done s0 ->
  run_handler (cmd_func info) j s0 (dst + 1) (src + 1) = Done s' ->
  exists l1 l2 out,
    take (Z.to_nat dst) (vmem s) = l1 /\ Z.of_nat (length l1) = dst /\
    length (l1 ++ p ++ l2) = length (vmem s) /\ vmem s' = l1 ++ out ++ l2 /\ length out = length p /\
    packet_step (abs_of s) p out (abs_of s') /\
    found_step j src (opcode p) (found_of s) (found_of s') /\ cl_wf s'.
Proof.
  intros Hwf Hdst Hp [Hlen Hent] Hne Hst Hrun. cbn [fst snd] in *. unfold store in Hst. run_inv Hst. subst s0.
  run_inv_all. pose proof (memcpy_length _ _ _ _ _ _ E) as Hml.
  apply memcpy_inv in E as (p' & Hp' & _ & Hd & ->). rewrite Hp in Hp'. injection Hp' as <-.
  set (l1 := take (Z.to_nat dst) (vmem s)) in *. set (l2 := drop _ _) in *.
  assert (Z.of_nat (length l1) = dst) as Hl1 by (unfold l1; rewrite length_take; lia).
  assert (exists b1 b2, bin j = b1 ++ p ++ b2 /\ Z.of_nat (length b1) = src) as Hb.
  { apply read_bytes_inv in Hp as (_ & _ & b1 & b2 & ? & ?). eauto. }
  pose proof (read_bytes_inv _ _ _ _ Hp) as (_ & Hpl & _).
  set (s0 := set_vmem s (l1 ++ p ++ l2)) in *.
  assert (at_packet j s0 l1 p l2 dst src) as Hat by done.
  assert (cl_wf s0) as Hwf0 by (by destruct Hwf).
  exists l1, l2. unfold run_handler in Hrun. destruct (cmd_func info) as [h|].
  - destruct (h _ _ _ _) as [s''| |] eqn:Eh; try discriminate Hrun. injection Hrun as ->.
    destruct (Z.eqb_spec (opcode p) VC4_PACKET_GEM_HANDLES); [done|].
    destruct (Hent _ _ _ _ _ _ _ Hat Hwf0 eq_refl Hpl Eh) as [(out & ? & ? & ? & ? & ?) ?]. exists out. done.
  - injection Hrun as <-. destruct Hent as [Hpl' Hf]. exists p.
    repeat (split; [done|]). split; [by apply step_plain|]. split; [by apply found_same|done].
Qed.

Lemma bin_packet_done s dst src cmd len s' :
  cl_wf s -> Z.of_nat (length (bin j)) = bin_cl_size j -> bin_cl_size j < 2 ^ 31 ->
  0 <= dst -> 0 <= src < bin_cl_size j ->
  bin_packet drm_gem_cma_create j s dst src = Done (cmd, len, s') ->
  src + len <= bin_cl_size j /\ exists p out, packet_done s dst src cmd len s' p out.
Proof.
  intros Hwf Hbl Hsz Hdst Hsrc H. unfold bin_packet in H. run_inv H. run_inv_all.
  destruct (cmd_lookup table a) as [info|] eqn:El; [|discriminate H]. run_inv H.
  subst a len a2. run_inv_all. pose proof (lookup_entry_ok _ _ El) as Hent.
  pose proof Hent as [Hlen Hent']. cbn [fst snd] in *.
  rewrite u32_small in E0 by lia. apply Z.ltb_ge in E0. split; [done|].
  destruct (read_bytes_is_Some (bin j) src (cmd_len info)) as [p Hp]; [lia..|].
  pose proof (read_bytes_head _ _ _ _ _ Hp (proj1 Hlen) E) as Hop. subst cmd.
  pose proof (read_bytes_inv _ _ _ _ Hp) as (_ & Hpl & Hb).
  destruct (Z.eqb_spec (opcode p) VC4_PACKET_GEM_HANDLES) as [Eg|Hne]; cbn [negb] in E1.
  - injection E1 as <-. unfold run_handler in E2. destruct (cmd_func info) as [h|].
    2: { rewrite Eg in Hent'. destruct Hent' as [Hpl' _]. discriminate Hpl'. }
    cbn in Hent'. destruct Hent' as [-> Hl9].
    destruct (validate_gem_handles _ _ _ _) as [s''| |] eqn:Eh in E2; try discriminate E2. injection E2 as ->.
    apply (gem_handles_step drm_gem_cma_create _ _ _ p) in Eh as (Hs & Hw & Hv & Hf);
      [|destruct Hb as (b1 & b2 & ? & ?); eauto|done|unfold VC4_PACKET_GEM_HANDLES_SIZE; lia|done].
    exists p, []. split; try done.
    + exists info. done.
    + rewrite Eg. by apply found_same.
    + rewrite Hv, app_nil_r. split; [done|]. f_equal. cbn [length]. lia.
    + by rewrite Eg.
  - destruct (bin_packet_copied _ _ _ _ _ _ _ Hwf Hdst Hp Hent Hne E1 E2)
      as (l1 & l2 & out & Hl1 & Hd & Hml & Hv & Ho & Hs & Hf & Hw).
    exists p, out. split; try done.
    + exists info. done.
    + rewrite Hv, Hl1. split; [rewrite <- Hml, !length_app; lia|].
      replace (Z.to_nat (dst + Z.of_nat (length out))) with (length (l1 ++ out)) by (rewrite length_app; lia).
      rewrite app_assoc. apply take_app_length.
    + destruct (Z.eqb_spec (opcode p) VC4_PACKET_GEM_HANDLES); [done|lia].
Qed.

(** ** Runs over several packets *)

(** The commands with their lengths, from position [pos] to position [pos']. *)
Inductive found_run : Z -> found -> list (Z * Z) -> found -> Z -> Prop :=
  | found_nil pos f : found_run pos f [] f pos
  | found_cons pos f cmd len f1 cs f2 pos' :
      found_step j pos cmd f f1 -> 1 <= len ->
      (cmd = VC4_PACKET_INCREMENT_SEMAPHORE \/ cmd = VC4_PACKET_FLUSH -> len = 1) ->
      found_run (pos + len) f1 cs f2 pos' -> found_run pos f ((cmd, len) :: cs) f2 pos'.

Definition commands (ps : list (list Z)) : list (Z * Z) :=
  (fun p => (opcode p, Z.of_nat (length p))) <$> ps.

Record cl_run (s : bin_state) (dst src : Z) (s' : bin_state) (dst' : Z) (ps outs : list (list Z))
    (src' : Z) : Prop := {
  cr_src : src <= src' <= bin_cl_size j;
  cr_bytes : drop (Z.to_nat src) (bin j) = concat ps ++ drop (Z.to_nat src') (bin j);
  cr_wf : Forall packet_wf ps;
  cr_run : packet_run (abs_of s) ps outs (abs_of s');
  cr_found : found_run src (found_of s) (commands ps) (found_of s') src';
  cr_cl : cl_wf s';
  cr_dst : dst' = dst + Z.of_nat (length (concat outs)) /\ dst <= dst' /\ dst' - dst <= src' - src;
  cr_mem : length (vmem s') = length (vmem s) /\
           take (Z.to_nat dst') (vmem s') = take (Z.to_nat dst) (vmem s) ++ concat outs;
  cr_halt : Forall (fun p => opcode p <> VC4_PACKET_HALT) (removelast ps) }.

Lemma cl_run_nil s dst src :
  cl_wf s -> src <= bin_cl_size j -> cl_run s dst src s dst [] [] src.
Proof.
  intros Hwf Hsrc. split; try done; try lia.
  - constructor.
  - constructor.
  - cbn. lia.
  - by rewrite app_nil_r.
Qed.

Lemma length_one_table cmd info :
  cmd = VC4_PACKET_INCREMENT_SEMAPHORE \/ cmd = VC4_PACKET_FLUSH ->
  cmd_lookup table cmd = Some info -> cmd_len info = 1.
Proof. intros [-> | ->] H; cbn in H; by injection H as <-. Qed.

Lemma cl_run_cons s dst src s1 cmd len p out s' dst' ps outs src' :
  0 <= dst -> 0 <= src -> packet_done s dst src cmd len s1 p out ->
  (ps <> [] -> cmd <> VC4_PACKET_HALT) ->
  cl_run s1 (dst + Z.of_nat (length out)) (src + len) s' dst' ps outs src' ->
  cl_run s dst src s' dst' (p :: ps) (out :: outs) src'.
Proof.
  intros Hdst Hsrc [Hb [Hpl Hlen] Hc Hw Hs Hf Hcl Hm Ho] Hh [H1 H2 H3 H4 H5 H6 H7 H8 H9].
  destruct Hb as (b1 & b2 & Eb & Hb1). split.
  - lia.
  - assert (drop (Z.to_nat (src + len)) (bin j) = b2) as E2.
    { rewrite Eb. replace (Z.to_nat (src + len)) with (length b1 + length p)%nat by lia.
      by rewrite drop_app_add, drop_app_length. }
    cbn [concat]. rewrite <- app_assoc, <- H2, E2, Eb.
    replace (Z.to_nat src) with (length b1) by lia. apply drop_app_length.
  - by constructor.
  - by econstructor.
  - cbn. rewrite Hc. eapply found_cons; [exact Hf|lia| |by rewrite Hpl].
    destruct Hw as (info & Hi & Hil). rewrite Hc in Hi. intros Hcmd. rewrite Hil.
    by eapply length_one_table.
  - done.
  - cbn [concat]. rewrite length_app. destruct (cmd =? VC4_PACKET_GEM_HANDLES); lia.
  - destruct H8 as [H8 H8'], Hm as [Hm Hm']. split; [congruence|]. rewrite H8', Hm'. cbn [concat].
    by rewrite <- app_assoc.
  - destruct ps as [|p' ps]; [constructor|]. change (removelast (p :: p' :: ps)) with (p :: removelast (p' :: ps)).
    constructor; [|done]. rewrite Hc. by apply Hh.
Qed.

Lemma bin_loop_run fuel s dst src s' dst' :
  Z.of_nat (length (bin j)) = bin_cl_size j -> bin_cl_size j < 2 ^ 31 ->
  cl_wf s -> 0 <= dst <= src -> src <= bin_cl_size j ->
  bin_loop drm_gem_cma_create fuel j s dst src = Done (s', dst') ->
  exists ps outs src', cl_run s dst src s' dst' ps outs src'.
Proof.
  intros Hbl Hsz. revert s dst src. induction fuel as [|fuel IH]; intros s dst src Hwf Hd Hs H; [discriminate H|].
  cbn [bin_loop] in H. destruct (Z.ltb_spec src (bin_cl_size j)).
  2: { injection H as <- <-. exists [], [], src. by apply cl_run_nil. }
  run_inv H. destruct a as [[cmd len] s1].
  apply bin_packet_done in E as (Hle & p & out & Hpd); [|done|done|done|lia|lia].
  pose proof (pd_len _ _ _ _ _ _ _ _ Hpd) as [_ Hlen]. pose proof (pd_out _ _ _ _ _ _ _ _ Hpd) as Ho.
  rewrite (u32_small (src + len)) in H by lia.
  assert ((if negb (cmd =? VC4_PACKET_GEM_HANDLES) then u32 (dst + len) else dst)
          = dst + Z.of_nat (length out)) as Ed.
  { destruct (cmd =? VC4_PACKET_GEM_HANDLES); cbn [negb]; [lia|]. rewrite u32_small; lia. }
  rewrite Ed in H. pose proof (pd_cl _ _ _ _ _ _ _ _ Hpd) as Hcl.
  destruct (Z.eqb_spec cmd VC4_PACKET_HALT).
  - injection H as <- <-. exists [p], [out], (src + len).
    eapply cl_run_cons; [lia|lia|exact Hpd|done|]. by apply cl_run_nil.
  - apply IH in H as (ps & outs & src' & H); [|done| |lia].
    2: { destruct (cmd =? VC4_PACKET_GEM_HANDLES); lia. }
    exists (p :: ps), (out :: outs), src'. eapply cl_run_cons; [lia|lia|exact Hpd|done|exact H].
Qed.

End Run.

Section Shape.

Context (j : job).
Notation size := (bin_cl_size j).

Lemma found_run_le pos f cs f' pos' :
  found_run j pos f cs f' pos' -> pos <= pos' /\ (pos' <= pos -> cs = [] /\ f' = f).
Proof. induction 1 as [|pos f cmd len f1 cs f2 pos' Hs Hl _ _ [IH _]]; [split; [lia|done]|lia]. Qed.

(** After the semaphore only the flush fits. *)
Lemma found_run_flush f cs f' pos' :
  found_run j (size - 1) f cs f' pos' -> 0 < size < 2 ^ 31 -> pos' <= size ->
  f_flush f = false -> f_flush f' = true -> map fst cs = [VC4_PACKET_FLUSH] /\ pos' = size.
Proof.
  intros Hr Hsz Hp Hf Hf'. inversion Hr as [|? ? cmd len f1 cs' ? ? Hs Hl _ Hr']; subst; [congruence|].
  pose proof (found_run_le _ _ _ _ _ Hr') as [Hle Hnil]. destruct Hnil as [-> ->]; [lia|].
  split; [|lia]. cbn. inversion Hs; subst; cbn in *; congruence.
Qed.

Lemma found_run_end pos f cs f' pos' :
  found_run j pos f cs f' pos' -> 0 <= pos -> 0 < size < 2 ^ 31 -> pos' <= size ->
  f_semaphore f = false -> f_flush f = false -> f_semaphore f' = true -> f_flush f' = true ->
  pos' = size /\ exists body, map fst cs = body ++ [VC4_PACKET_INCREMENT_SEMAPHORE; VC4_PACKET_FLUSH] /\
    VC4_PACKET_INCREMENT_SEMAPHORE ∉ body /\ VC4_PACKET_FLUSH ∉ body.
Proof.
  intros Hr. induction Hr as [|pos f cmd len f1 cs f2 pos' Hs Hl Hone Hr IH]; [congruence|].
  intros Hpos Hsz Hp Hs0 Hf0 Hs2 Hf2. pose proof (found_run_le _ _ _ _ _ Hr) as [Hle Hnil].
  destruct Hs as [b c d ->|c d ->|a b c d -> Hat|a b c d -> Hat|f E1 E2 E3 E4]; cbn in Hs0, Hf0.
  - destruct IH as (Hsize & body & E & Hb1 & Hb2); [lia|done..|]. split; [done|].
    exists (VC4_PACKET_TILE_BINNING_MODE_CONFIG :: body). cbn [map fst]. rewrite E. split; [done|].
    split; apply not_elem_of_cons; done.
  - destruct IH as (Hsize & body & E & Hb1 & Hb2); [lia|done..|]. split; [done|].
    exists (VC4_PACKET_START_TILE_BINNING :: body). cbn [map fst]. rewrite E. split; [done|].
    split; apply not_elem_of_cons; done.
  - assert (size <> 1) by (intros E1; rewrite E1 in Hat; change (u32 (1 - 2)) with 4294967295 in Hat; lia).
    rewrite Hone in Hr, Hle by auto. rewrite u32_small in Hat by lia. rewrite Hat in Hr.
    replace (size - 2 + 1) with (size - 1) in Hr by lia.
    apply found_run_flush in Hr as [E ->]; [|done..]. split; [done|]. exists []. cbn [map fst]. rewrite E.
    split; [done|]. split; apply not_elem_of_nil.
  - rewrite u32_small in Hat by lia. destruct Hnil as [-> ->]; [rewrite Hone by auto; lia|]. cbn in Hs2. congruence.
  - destruct IH as (Hsize & body & E & Hb1 & Hb2); [lia|done..|]. split; [done|].
    exists (cmd :: body). cbn [map fst]. rewrite E. split; [done|].
    split; apply not_elem_of_cons; split; congruence.
Qed.

(** The configuration and the start of binning. *)
Definition no_start (cmds : list Z) : Prop :=
  VC4_PACKET_TILE_BINNING_MODE_CONFIG ∉ cmds /\ VC4_PACKET_START_TILE_BINNING ∉ cmds.

Lemma no_start_nil : no_start [].
Proof. split; apply not_elem_of_nil. Qed.

Lemma no_start_cons c cmds :
  c <> VC4_PACKET_TILE_BINNING_MODE_CONFIG -> c <> VC4_PACKET_START_TILE_BINNING ->
  no_start cmds -> no_start (c :: cmds).
Proof. intros H1 H2 [H3 H4]. split; apply not_elem_of_cons; split; congruence. Qed.

Lemma found_run_started pos f cs f' pos' :
  found_run j pos f cs f' pos' -> f_config f = true -> f_start f = true -> no_start (map fst cs).
Proof.
  induction 1 as [|pos f cmd len f1 cs f2 pos' Hs Hl _ Hr IH]; intros Hc Hst; [apply no_start_nil|].
  cbn [map fst]. destruct Hs; cbn in Hc, Hst; subst; try discriminate; apply no_start_cons; auto; done.
Qed.

Lemma found_run_configured pos f cs f' pos' :
  found_run j pos f cs f' pos' -> f_config f = true -> f_start f = false -> f_start f' = true ->
  exists b1 b2, map fst cs = b1 ++ VC4_PACKET_START_TILE_BINNING :: b2 /\ no_start b1 /\ no_start b2.
Proof.
  induction 1 as [|pos f cmd len f1 cs f2 pos' Hs Hl _ Hr IH]; intros Hc Hst Hst'; [congruence|].
  assert (cmd = VC4_PACKET_START_TILE_BINNING \/
    (f_config f1 = true /\ f_start f1 = false /\ cmd <> VC4_PACKET_TILE_BINNING_MODE_CONFIG /\
     cmd <> VC4_PACKET_START_TILE_BINNING)) as [->|(Hc1 & Hst1 & Hn1 & Hn2)].
  { destruct Hs; cbn in *; subst; try discriminate; auto; right; repeat split; done. }
  - exists [], (map fst cs). split; [done|]. split; [apply no_start_nil|].
    assert (f_config f1 = true /\ f_start f1 = true) as [? ?] by (inversion Hs; subst; try discriminate; done).
    by eapply found_run_started.
  - destruct IH as (b1 & b2 & E & H1 & H2); [done..|]. exists (cmd :: b1), b2. cbn [map fst]. rewrite E.
    split; [done|]. split; [by apply no_start_cons|done].
Qed.

Lemma found_run_start pos f cs f' pos' :
  found_run j pos f cs f' pos' -> f_config f = false -> f_start f = false -> f_start f' = true ->
  exists b1 b2 b3, map fst cs = b1 ++ VC4_PACKET_TILE_BINNING_MODE_CONFIG :: b2
      ++ VC4_PACKET_START_TILE_BINNING :: b3 /\ no_start b1 /\ no_start b2 /\ no_start b3.
Proof.
  induction 1 as [|pos f cmd len f1 cs f2 pos' Hs Hl _ Hr IH]; intros Hc Hst Hst'; [congruence|].
  assert (cmd = VC4_PACKET_TILE_BINNING_MODE_CONFIG \/
    (f_config f1 = false /\ f_start f1 = false /\ cmd <> VC4_PACKET_TILE_BINNING_MODE_CONFIG /\
     cmd <> VC4_PACKET_START_TILE_BINNING)) as [->|(Hc1 & Hst1 & Hn1 & Hn2)].
  { destruct Hs; cbn in *; subst; try discriminate; auto; right; repeat split; done. }
  - assert (f_config f1 = true /\ f_start f1 = false) as [? ?] by (inversion Hs; subst; try discriminate; done).
    destruct (found_run_configured _ _ _ _ _ Hr) as (b2 & b3 & E & H2 & H3); [done..|].
    exists [], b2, b3. cbn [map fst]. rewrite E. split; [done|]. split; [apply no_start_nil|done].
  - destruct IH as (b1 & b2 & b3 & E & H1 & H2); [done..|]. exists (cmd :: b1), b2, b3. cbn [map fst]. rewrite E.
    split; [done|]. split; [by apply no_start_cons|done].
Qed.

(** ** The whole list *)

Context (drm_gem_cma_create : nat -> Z -> option cma_object).

Lemma bin_cl_run s s' e :
  Z.of_nat (length (bin j)) = size -> 0 <= size < 2 ^ 31 -> cl_wf j s ->
  vc4_validate_bin_cl drm_gem_cma_create j s = Done (s', e) ->
  exists ps outs dst' src', cl_run drm_gem_cma_create j s 0 0 s' dst' ps outs src' /\
    e = u32 (ct0ca j + dst') /\ f_start (found_of s') = true /\ f_semaphore (found_of s') = true /\
    f_flush (found_of s') = true.
Proof.
  intros Hbl Hsz Hwf H. unfold vc4_validate_bin_cl in H. run_inv H. destruct a as [s1 d1]. run_inv H.
  subst s1 e. run_inv_all. apply negb_false_iff in E0. apply orb_false_iff in E1 as [E1 E2].
  apply negb_false_iff in E1, E2.
  apply bin_loop_run in E as (ps & outs & src' & Hr); [|done|lia|done|lia|lia].
  exists ps, outs, d1, src'. done.
Qed.

Lemma map_opcode ps : map fst (commands ps) = map opcode ps.
Proof. unfold commands. induction ps as [|p ps IH]; cbn in *; [done|]. by rewrite IH. Qed.

End Shape.
