(* ===== verification/Vc4BinTotal.v ===== *)
(** * Validation of a command list never leaves its buffers *)
From S2P Require Import Prelude Bitset QpuPack Vc4Defines Vc4Shader Bytes Vc4Packet Vc4Validate Vc4BinSteps Vc4BinRun.

Definition defined {A} (r : res A) : Prop := r <> Undefined.

Lemma bind_defined {A B} (r : res A) (f : A -> res B) :
  defined r -> (forall a, r = Done a -> defined (f a)) -> defined (r ≫= f).
Proof. unfold defined. destruct r; cbn; [auto|done|done]. Qed.

Lemma access_defined {A} (o : option A) a : o = Some a -> defined (access o).
Proof. intros ->. done. Qed.

Lemma reject_if_defined b : defined (reject_if b).
Proof. by destruct b. Qed.

Lemma Done_defined {A} (a : A) : defined (Done a).
Proof. done. Qed.

Lemma Fail_defined {A} e : defined (@Fail A e).
Proof. done. Qed.

Create HintDb defined.
#[export] Hint Resolve reject_if_defined Done_defined Fail_defined : defined.

(** A job whose buffer objects exist and whose command list is made of bytes. *)
Record job_ok (j : job) : Prop := {
  jo_bin : Z.of_nat (length (bin j)) = bin_cl_size j;
  jo_size : bin_cl_size j < 2 ^ 31;
  jo_bytes : Forall is_byte (bin j);
  jo_count : bo_count j = Z.of_nat (length (bo j));
  jo_bos : Forall (fun o => is_Some o) (bo j) }.

Section Total.

Context (drm_gem_cma_create : nat -> Z -> option cma_object).
Context (j : job) (Hj : job_ok j).

Record state_ok (s : bin_state) : Prop := {
  so_cl : cl_wf j s;
  so_mem : bin_cl_size j <= Z.of_nat (length (vmem s));
  so_index : exists a b, bo_index s = [a; b] /\ 0 <= a /\ 0 <= b }.

Lemma use_bo_defined h : 0 <= h -> defined (vc4_use_bo j h).
Proof.
  intros Hh. unfold vc4_use_bo. destruct (Z.leb_spec (bo_count j) h); [done|].
  rewrite (jo_count _ Hj) in *. destruct (array_get_is_Some (bo j) h) as [o Ho]; [lia|]. rewrite Ho. cbn.
  apply array_get_Some in Ho as [_ Ho]. pose proof (Forall_lookup_1 _ _ _ _ (jo_bos _ Hj) Ho) as [obj ->]. cbn.
  by destruct (validated_shader obj).
Qed.

(** Reads and stores inside a packet. *)
Lemma packet_read32 src k len :
  0 <= src -> src + len <= bin_cl_size j -> 0 <= k -> k + 5 <= len ->
  exists x, read32 (bin j) (src + 1 + k) = Some x.
Proof. intros. apply read32_is_Some; rewrite ?(jo_bin _ Hj); lia. Qed.

Lemma packet_read8 src k len :
  0 <= src -> src + len <= bin_cl_size j -> 0 <= k -> k + 2 <= len ->
  exists x, read8 (bin j) (src + 1 + k) = Some x.
Proof. intros. apply read8_is_Some. rewrite ?(jo_bin _ Hj). lia. Qed.

Lemma store_defined s m o bs :
  0 <= o -> o + Z.of_nat (length bs) <= Z.of_nat (length m) -> defined (store s (write_bytes m o bs)).
Proof. intros. unfold store. rewrite write_bytes_Some by lia. done. Qed.

Lemma store_length s m o bs s' : store s (write_bytes m o bs) = Done s' -> length (vmem s') = length m.
Proof.
  unfold store. intros H. run_inv H. subst s'. run_inv_all. by eapply write_bytes_length.
Qed.

Lemma raise_defined s i :
  cl_wf j s -> shader_state_count s <> 0 -> defined (raise_max_index s i).
Proof.
  intros [H1 H2 H3] Hne. unfold raise_max_index. rewrite u32_small by lia.
  destruct (array_get_is_Some (shader_state s) (shader_state_count s - 1)) as [st Hst]; [lia|].
  rewrite Hst. cbn. destruct (_ <? _); [|done]. rewrite array_set_Some by lia. done.
Qed.

(** What each handler needs, for a packet of length [len]. *)
Definition handler_defined (len : Z) (h : handler) : Prop :=
  forall s dst src, state_ok s -> 0 <= dst -> 0 <= src -> src + len <= bin_cl_size j ->
    dst + len <= Z.of_nat (length (vmem s)) -> defined (h j s (dst + 1) (src + 1)).

Ltac step := apply bind_defined; [eauto with defined|].

Lemma flush_defined : handler_defined 1 validate_flush.
Proof. intros s dst src _ _ _ _ _. unfold validate_flush. step. done. Qed.

Lemma start_defined : handler_defined 1 validate_start_tile_binning.
Proof.
  intros s dst src _ _ _ _ _. unfold validate_start_tile_binning. step. intros _ _. cbv zeta. step. done.
Qed.

Lemma semaphore_defined : handler_defined 1 validate_increment_semaphore.
Proof. intros s dst src _ _ _ _ _. unfold validate_increment_semaphore. step. done. Qed.

Lemma array_primitive_defined : handler_defined 10 validate_gl_array_primitive.
Proof.
  intros s dst src Hs Hd H0 Hl Hm. unfold validate_gl_array_primitive.
  destruct (packet_read32 src 1 10) as [x Hx]; [lia..|]. destruct (packet_read32 src 5 10) as [y Hy]; [lia..|].
  rewrite Hx, Hy. cbn -[reject_if]. step. intros [] E%reject_if_Done%Z.eqb_neq. step. intros _ _.
  apply raise_defined; [apply Hs|done].
Qed.

Lemma gem_handles_defined : handler_defined 9 validate_gem_handles.
Proof.
  intros s dst src Hs Hd H0 Hl Hm. unfold validate_gem_handles. rewrite <- (Z.add_0_r (src + 1)) at 1.
  destruct (packet_read32 src 0 9) as [x Hx]; [lia..|]. destruct (packet_read32 src 4 9) as [y Hy]; [lia..|].
  rewrite Hx, Hy. done.
Qed.

Lemma shader_state_defined : handler_defined 5 validate_gl_shader_state.
Proof.
  intros s dst src [[H1 H2 H3] Hmem _] Hd H0 Hl Hm. unfold validate_gl_shader_state. cbv zeta.
  step. intros [] E%reject_if_Done%Z.leb_gt.
  destruct (packet_read32 src 0 5) as [x Hx]; [lia..|]. rewrite Z.add_0_r in Hx. rewrite Hx. cbn -[reject_if store].
  rewrite array_set_Some by lia. cbn -[reject_if store]. step. intros _ _.
  apply bind_defined; [|done]. apply store_defined; rewrite ?le32_length; lia.
Qed.

Lemma indexed_prim_defined : handler_defined 14 validate_indexed_prim_list.
Proof.
  intros s dst src [Hcl Hmem Hix] Hd H0 Hl Hm. unfold validate_indexed_prim_list.
  destruct (packet_read32 src 1 14) as [x Hx]; [lia..|]. destruct (packet_read32 src 5 14) as [y Hy]; [lia..|].
  destruct (packet_read32 src 9 14) as [z Hz]; [lia..|]. destruct (packet_read8 src 0 14) as [b Hb]; [lia..|].
  rewrite Hx, Hy, Hz, Hb. cbn -[reject_if store]. step. intros [] E%reject_if_Done%Z.eqb_neq.
  apply bind_defined; [by apply raise_defined|]. intros s1 Hs1.
  destruct (raise_max_index_draw _ _ _ _ Hcl E Hs1) as (_ & _ & Hv & Hbx & _).
  apply bind_defined.
  { unfold vc4_use_handle. destruct Hix as (a & b' & Hix & Ha & _). rewrite Hbx, Hix. cbn. by apply use_bo_defined. }
  intros ib _. step. intros _ _. apply store_defined; rewrite ?Hv, ?le32_length; lia.
Qed.

Lemma config_defined : handler_defined 16 (validate_tile_binning_config drm_gem_cma_create).
Proof.
  intros s dst src _ Hd H0 Hl Hm. unfold validate_tile_binning_config. step. intros _ _. cbv zeta.
  destruct (packet_read8 src 12 16) as [x Hx]; [lia..|]. destruct (packet_read8 src 13 16) as [y Hy]; [lia..|].
  destruct (packet_read8 src 14 16) as [f Hf]; [lia..|]. rewrite Hx, Hy, Hf. cbn -[reject_if store].
  step. intros _ _. step. intros _ _.
  apply bind_defined; [apply store_defined; cbn; lia|]. intros s1 Hs1.
  assert (length (vmem s1) = length (vmem s)) as E1 by exact (store_length _ _ _ _ _ Hs1).
  destruct (drm_gem_cma_create _ _) as [tile|]; [|done].
  apply bind_defined; [apply store_defined; rewrite ?le32_length; cbn; lia|]. intros s2 Hs2.
  assert (length (vmem s2) = length (vmem s)) as E2 by (rewrite (store_length _ _ _ _ _ Hs2); done).
  apply bind_defined; [apply store_defined; rewrite ?le32_length; cbn; lia|]. intros s3 Hs3.
  assert (length (vmem s3) = length (vmem s)) as E3 by (rewrite (store_length _ _ _ _ _ Hs3); done).
  apply store_defined; rewrite ?le32_length; cbn; lia.
Qed.

(** ** The whole list *)

Definition entry_defined (e : Z * cmd_info) : Prop :=
  match cmd_func (snd e) with None => True | Some h => handler_defined (cmd_len (snd e)) h end.

Lemma table_defined : Forall entry_defined (cmd_table drm_gem_cma_create).
Proof.
  unfold cmd_table. repeat apply Forall_cons_2; [..|apply Forall_nil_2]; unfold entry_defined;
    cbn [snd cmd_len cmd_func]; try exact I.
  - exact flush_defined.
  - exact start_defined.
  - exact semaphore_defined.
  - exact indexed_prim_defined.
  - exact array_primitive_defined.
  - exact shader_state_defined.
  - exact config_defined.
  - exact gem_handles_defined.
Qed.

Lemma run_handler_defined f len s dst src :
  match f with None => True | Some h => handler_defined len h end ->
  state_ok s -> 0 <= dst -> 0 <= src -> src + len <= bin_cl_size j ->
  dst + len <= Z.of_nat (length (vmem s)) -> defined (run_handler f j s (dst + 1) (src + 1)).
Proof.
  intros Hf Hs Hd H0 Hl Hm. unfold run_handler. destruct f as [h|]; [|done].
  pose proof (Hf _ _ _ Hs Hd H0 Hl Hm) as Hdef. unfold defined in *. by destruct (h _ _ _ _).
Qed.

Lemma bin_packet_defined s dst src :
  state_ok s -> 0 <= dst <= src -> src < bin_cl_size j ->
  defined (bin_packet drm_gem_cma_create j s dst src).
Proof.
  intros Hs Hd Hl. unfold bin_packet.
  destruct (read8_is_Some (bin j) src) as [c Hc]; [rewrite (jo_bin _ Hj); lia|]. rewrite Hc. cbn [access mbind res_bind].
  destruct (cmd_lookup _ c) as [info|] eqn:El; [|done].
  pose proof (lookup_entry_ok drm_gem_cma_create j _ _ El) as [Hlen _].
  apply cmd_lookup_In, list_elem_of_In in El.
  pose proof table_defined as Ht. rewrite Forall_forall in Ht. specialize (Ht _ El). cbn [fst snd] in *.
  pose proof (jo_size _ Hj). pose proof (so_mem _ Hs) as Hmem.
  step. intros [] E%reject_if_Done%Z.ltb_ge. rewrite u32_small in E by lia.
  apply bind_defined.
  { destruct (negb _); [|done]. destruct (memcpy_is_Some (vmem s) dst (bin j) src (cmd_len info)) as [m Hm];
      rewrite ?(jo_bin _ Hj); try lia. rewrite Hm. done. }
  intros s1 Hs1. apply bind_defined; [|done].
  assert (state_ok s1 /\ length (vmem s1) = length (vmem s)) as [Hok1 Hl1].
  { destruct (negb _); [|injection Hs1 as <-; done]. unfold store in Hs1. run_inv Hs1. subst s1. run_inv_all.
    apply memcpy_length in E0. destruct Hs as [[? ? ?] ? ?]. cbn. split; [|done]. split; cbn; [done|lia|done]. }
  apply (run_handler_defined _ (cmd_len info)); [done|done|lia|lia|lia|lia].
Qed.

Lemma packet_step_handles a p out a' :
  Forall is_byte p -> packet_step drm_gem_cma_create j a p out a' ->
  (exists x y, ab_handles a = [x; y] /\ 0 <= x /\ 0 <= y) ->
  exists x y, ab_handles a' = [x; y] /\ 0 <= x /\ 0 <= y.
Proof.
  intros Hp Hs Ha. destruct Hs as [|a p h0 h1 _ H0 H1| | | |]; try exact Ha. exists h0, h1.
  apply read32_range in H0, H1; [|done|done]. split; [done|lia].
Qed.

Lemma bin_packet_state_ok s dst src cmd len s' :
  state_ok s -> 0 <= dst <= src -> src < bin_cl_size j ->
  bin_packet drm_gem_cma_create j s dst src = Done (cmd, len, s') ->
  state_ok s' /\ 1 <= len /\ src + len <= bin_cl_size j.
Proof.
  intros Hs Hd Hl H. apply bin_packet_done in H as (Hle & p & out & Hpd);
    [|apply Hs|apply Hj|apply Hj|lia|lia].
  destruct Hpd as [(b1 & b2 & Eb & _) [_ Hlen] _ _ Hst _ Hcl [Hm _] _]. split; [|lia].
  assert (Forall is_byte p) as Hp.
  { pose proof (jo_bytes _ Hj) as Hb. rewrite Eb in Hb. by apply Forall_app in Hb as [_ [Hb _]%Forall_app]. }
  split; [done|rewrite Hm; apply Hs|].
  exact (packet_step_handles _ _ _ _ Hp Hst (so_index _ Hs)).
Qed.

Lemma bin_loop_defined fuel s dst src :
  state_ok s -> 0 <= dst <= src -> src <= bin_cl_size j -> bin_cl_size j - src < Z.of_nat fuel ->
  defined (bin_loop drm_gem_cma_create fuel j s dst src).
Proof.
  revert s dst src. induction fuel as [|fuel IH]; intros s dst src Hs Hd Hl Hf; [lia|]. cbn [bin_loop].
  destruct (Z.ltb_spec src (bin_cl_size j)); [|done].
  apply bind_defined; [by apply bin_packet_defined|]. intros [[cmd len] s1] E.
  apply bin_packet_state_ok in E as (Hs1 & Hlen & Hle); [|done..]. pose proof (jo_size _ Hj).
  rewrite (u32_small (src + len)), (u32_small (dst + len)) by lia.
  destruct (cmd =? VC4_PACKET_HALT); [done|]. apply IH; [done| |done|lia]. destruct (negb _); lia.
Qed.

Lemma bin_cl_defined s : state_ok s -> defined (vc4_validate_bin_cl drm_gem_cma_create j s).
Proof.
  intros Hs. unfold vc4_validate_bin_cl. apply bind_defined.
  - apply bin_loop_defined; [done|lia| |]; rewrite <- ?(jo_bin _ Hj); lia.
  - intros [s1 d1] _. step. intros _ _. step. done.
Qed.

End Total.
