(* ===== verification/Vc4Texture.v ===== *)
(** * Texture sizes

    The 32-bit arithmetic of the texture checks never wraps for the sizes textures can
    have, and the loop over the mipmap levels compares the sum of the sizes of the levels
    with the offset of the base level. *)
From S2P Require Import Prelude Bitset QpuPack Vc4Defines Vc4Shader Bytes Vc4Packet Vc4Validate Vc4ShaderRec.

(** ** Reference *)

(** The next multiple of [a]. *)
Definition align_up (x a : Z) : Z := (x + a - 1) / a * a.

(** Bytes of a level in linear, T (32 by 32 blocks of a kilobyte) and LT (64-byte blocks) layout. *)
Definition level_bytes (tiling width height cpp : Z) : Z :=
  if tiling =? VC4_TILING_FORMAT_LINEAR then align_up width (utile_width cpp) * height * cpp
  else if tiling =? VC4_TILING_FORMAT_T then
    align_up width (8 * utile_width cpp) * align_up height (8 * utile_height cpp) * cpp
  else align_up width (utile_width cpp) * align_up height (utile_height cpp) * cpp.

Definition level_dim (size i : Z) : Z := Z.max (size / 2 ^ i) 1.

(** The hardware's choice of layout for one level. *)
Definition mip_tiling (linear : bool) (width height cpp i : Z) : Z :=
  if linear then VC4_TILING_FORMAT_LINEAR
  else if size_is_lt (level_dim width i) (level_dim height i) cpp then VC4_TILING_FORMAT_LT
  else VC4_TILING_FORMAT_T.

Definition mip_bytes (linear : bool) (width height cpp i : Z) : Z :=
  level_bytes (mip_tiling linear width height cpp i) (level_dim width i) (level_dim height i) cpp.

(** Bytes of the levels [i], ..., [i + n - 1]. *)
Fixpoint mips_bytes (linear : bool) (width height cpp : Z) (n : nat) (i : Z) : Z :=
  match n with
  | O => 0
  | S n => mip_bytes linear width height cpp i + mips_bytes linear width height cpp n (i + 1)
  end.

(** ** Rounding *)

Lemma roundup_align_up x k :
  0 <= k <= 16 -> 0 <= x < 2 ^ 30 -> roundup x (2 ^ k) = align_up x (2 ^ k).
Proof.
  intros Hk Hx. unfold roundup, align_up.
  assert (i32 x = x) as -> by (unfold i32; rewrite Z.mod_small; lia).
  replace (Z.lnot (2 ^ k - 1)) with (Z.lnot (Z.ones k)) by (rewrite Z.ones_equiv; f_equal; lia).
  rewrite <- Z.ldiff_land, Z.ldiff_ones_r, Z.shiftl_mul_pow2, Z.shiftr_div_pow2 by lia. done.
Qed.

Lemma align_up_bounds x a : 0 < a -> 0 <= x -> x <= align_up x a < x + a.
Proof.
  intros Ha Hx. unfold align_up. pose proof (Z.div_mod (x + a - 1) a). pose proof (Z.mod_pos_bound (x + a - 1) a). lia.
Qed.

Definition good_cpp (cpp : Z) : Prop := cpp = 1 \/ cpp = 2 \/ cpp = 4 \/ cpp = 8.

Lemma utile_pow2 cpp : good_cpp cpp ->
  exists a b, 1 <= a <= 3 /\ 2 <= b <= 3 /\ utile_width cpp = 2 ^ a /\ utile_height cpp = 2 ^ b.
Proof.
  intros [-> | [-> | [-> | ->]]].
  - by exists 3, 3.
  - by exists 3, 2.
  - by exists 2, 2.
  - by exists 1, 2.
Qed.

(** Rounding to microtiles and to tiles. *)
Lemma roundup_utile x k :
  1 <= k <= 3 -> 0 <= x <= 4096 ->
  u32 (roundup x (2 ^ k)) = align_up x (2 ^ k) /\ 0 <= align_up x (2 ^ k) < 8192 /\
  u32 (roundup x (2 ^ k * 8)) = align_up x (8 * 2 ^ k) /\ 0 <= align_up x (8 * 2 ^ k) < 8192.
Proof.
  intros Hk Hx. assert (2 ^ k * 8 = 2 ^ (k + 3)) as E8 by (rewrite Z.pow_add_r; lia).
  rewrite (Z.mul_comm 8), E8.
  assert (2 ^ k <= 2 ^ 3) by (apply Z.pow_le_mono_r; lia). assert (0 < 2 ^ k) by (apply Z.pow_pos_nonneg; lia).
  assert (2 ^ (k + 3) <= 2 ^ 6) by (apply Z.pow_le_mono_r; lia).
  assert (0 < 2 ^ (k + 3)) by (apply Z.pow_pos_nonneg; lia).
  pose proof (align_up_bounds x (2 ^ k)). pose proof (align_up_bounds x (2 ^ (k + 3))).
  rewrite !roundup_align_up by lia. rewrite !u32_small by lia. lia.
Qed.

Lemma surface_bytes w h cpp :
  0 <= w < 8192 -> 0 <= h < 8192 -> 1 <= cpp <= 8 ->
  u32 (u32 (w * cpp) * h) = w * h * cpp /\ 0 <= w * h * cpp < 2 ^ 30.
Proof.
  intros Hw Hh Hc. assert (0 <= w * cpp <= 8192 * 8) by nia. rewrite (u32_small (w * cpp)) by lia.
  assert (0 <= w * cpp * h <= 8192 * 8 * 8192) by nia. rewrite u32_small by lia. lia.
Qed.

(** The size computed for a level. *)
Lemma level_size_bytes tiling w h cpp :
  good_cpp cpp -> 0 <= w <= 4096 -> 0 <= h <= 4096 ->
  (tiling = VC4_TILING_FORMAT_LINEAR \/ tiling = VC4_TILING_FORMAT_T \/ tiling = VC4_TILING_FORMAT_LT) ->
  level_size tiling w h cpp = level_bytes tiling w h cpp /\ 0 <= level_bytes tiling w h cpp < 2 ^ 30.
Proof.
  intros Hc Hw Hh Ht. destruct (utile_pow2 cpp Hc) as (a & b & Ha & Hb & Ea & Eb).
  unfold level_size, level_bytes. rewrite Ea, Eb.
  destruct (roundup_utile w a) as (R1 & B1 & R2 & B2); [lia..|].
  destruct (roundup_utile h b) as (R3 & B3 & R4 & B4); [lia..|].
  rewrite R1, R2, R3, R4. assert (1 <= cpp <= 8) by (destruct Hc as [-> | [-> | [-> | ->]]]; lia).
  destruct Ht as [-> | [-> | ->]]; cbn -[Z.mul align_up Z.pow]; apply surface_bytes; lia.
Qed.

(** ** Mipmap levels *)

Lemma level_dim_shift w i : 0 <= i -> Z.max (Z.shiftr w i) 1 = level_dim w i.
Proof. intros Hi. unfold level_dim. by rewrite Z.shiftr_div_pow2. Qed.

Lemma level_dim_bounds w i : 0 <= w <= 4096 -> 0 <= i -> 1 <= level_dim w i <= 4096.
Proof.
  intros Hw Hi. unfold level_dim. assert (0 < 2 ^ i) by (apply Z.pow_pos_nonneg; lia).
  pose proof (Z.div_le_upper_bound w (2 ^ i) 4096). nia.
Qed.

Lemma level_dim_S w i : 0 <= w -> 0 <= i -> level_dim w (i + 1) <= level_dim w i.
Proof.
  intros Hw Hi. unfold level_dim. rewrite Z.pow_add_r by lia. change (2 ^ 1) with 2.
  assert (0 < 2 ^ i) by (apply Z.pow_pos_nonneg; lia). rewrite <- Z.div_div by lia.
  pose proof (Z.div_pos w (2 ^ i)). assert (w / 2 ^ i / 2 <= w / 2 ^ i) by (apply Z.div_le_upper_bound; lia). lia.
Qed.

(** Once a level is small enough for the LT layout, so are the following ones. *)
Lemma size_is_lt_mono w h w' h' cpp :
  w' <= w -> h' <= h -> size_is_lt w h cpp = true -> size_is_lt w' h' cpp = true.
Proof. unfold size_is_lt. intros Hw Hh. rewrite !orb_true_iff, !Z.leb_le. lia. Qed.

Lemma level_tiling_mip linear w h cpp i :
  0 <= w -> 0 <= h -> 0 <= i ->
  level_tiling (mip_tiling linear w h cpp i) (level_dim w (i + 1)) (level_dim h (i + 1)) cpp
  = mip_tiling linear w h cpp (i + 1).
Proof.
  intros Hw Hh Hi. unfold level_tiling, mip_tiling. destruct linear; [done|].
  destruct (size_is_lt (level_dim w i) (level_dim h i) cpp) eqn:E; cbn [Z.eqb andb].
  - rewrite (size_is_lt_mono _ _ _ _ _ (level_dim_S w i Hw Hi) (level_dim_S h i Hh Hi) E). done.
  - change (VC4_TILING_FORMAT_T =? VC4_TILING_FORMAT_T) with true. cbn [andb].
    by destruct (size_is_lt (level_dim w (i + 1)) (level_dim h (i + 1)) cpp).
Qed.

Lemma mip_tiling_cases linear w h cpp i :
  mip_tiling linear w h cpp i = VC4_TILING_FORMAT_LINEAR \/ mip_tiling linear w h cpp i = VC4_TILING_FORMAT_T \/
  mip_tiling linear w h cpp i = VC4_TILING_FORMAT_LT.
Proof. unfold mip_tiling. destruct linear; [auto|]. destruct (size_is_lt _ _ _); auto. Qed.

Lemma mip_bytes_nonneg linear w h cpp i :
  good_cpp cpp -> 0 <= w <= 4096 -> 0 <= h <= 4096 -> 0 <= i -> 0 <= mip_bytes linear w h cpp i.
Proof.
  intros Hc Hw Hh Hi. pose proof (level_dim_bounds w i Hw Hi). pose proof (level_dim_bounds h i Hh Hi).
  apply level_size_bytes; [done|lia|lia|apply mip_tiling_cases].
Qed.

Lemma mips_bytes_nonneg linear w h cpp n i :
  good_cpp cpp -> 0 <= w <= 4096 -> 0 <= h <= 4096 -> 0 <= i -> 0 <= mips_bytes linear w h cpp n i.
Proof.
  intros Hc Hw Hh. revert i. induction n as [|n IH]; intros i Hi; cbn [mips_bytes]; [lia|].
  pose proof (mip_bytes_nonneg linear w h cpp i Hc Hw Hh Hi). specialize (IH (i + 1)). lia.
Qed.

(** The loop accepts exactly when the levels fit before the base level. *)
Lemma check_levels_spec linear w h cpp n i offset :
  good_cpp cpp -> 0 <= w <= 4096 -> 0 <= h <= 4096 -> 0 <= i -> 0 <= offset ->
  check_levels n (i + 1) offset (mip_tiling linear w h cpp i) w h cpp
  = (mips_bytes linear w h cpp n (i + 1) <=? offset).
Proof.
  intros Hc Hw Hh. revert i offset. induction n as [|n IH]; intros i offset Hi Ho; cbn [check_levels mips_bytes].
  - symmetry. by apply Z.leb_le.
  - rewrite !level_dim_shift, level_tiling_mip by lia.
    pose proof (level_dim_bounds w (i + 1) Hw). pose proof (level_dim_bounds h (i + 1) Hh).
    destruct (level_size_bytes (mip_tiling linear w h cpp (i + 1)) (level_dim w (i + 1))
      (level_dim h (i + 1)) cpp) as [E Hb]; [done|lia|lia|apply mip_tiling_cases|].
    rewrite E. fold (mip_bytes linear w h cpp (i + 1)) in *.
    pose proof (mips_bytes_nonneg linear w h cpp n (i + 1 + 1)) as Hn. specialize (Hn Hc Hw Hh).
    destruct (Z.ltb_spec offset (mip_bytes linear w h cpp (i + 1))).
    + symmetry. apply Z.leb_gt. lia.
    + rewrite IH by lia. apply eq_true_iff_eq. rewrite !Z.leb_le. lia.
Qed.

(** ** Whole textures *)

(** [vc4_check_tex_size] without wrap-around. *)
Lemma check_tex_size_fits tex off t w h cpp :
  good_cpp cpp -> 0 <= w <= 4096 -> 0 <= h <= 4096 -> 0 <= off < 2 ^ 32 -> obj_size tex < 2 ^ 32 ->
  (t = VC4_TILING_FORMAT_LINEAR \/ t = VC4_TILING_FORMAT_T \/ t = VC4_TILING_FORMAT_LT) ->
  vc4_check_tex_size tex off t w h cpp = (off + level_bytes t w h cpp <=? obj_size tex).
Proof.
  intros Hc Hw Hh Ho Hs Ht. unfold vc4_check_tex_size.
  destruct (Z.ltb_spec 4096 w), (Z.ltb_spec 4096 h); try lia. cbn [orb].
  destruct (level_size_bytes t w h cpp Hc) as [E Hb]; [lia|lia|done|].
  assert (exists aw ah, aligned_size t w h cpp = Some (aw, ah) /\ u32 (u32 (aw * cpp) * ah) = level_size t w h cpp)
    as (aw & ah & -> & ->).
  { clear -Ht. unfold aligned_size, level_size. destruct Ht as [-> | [-> | ->]]; eauto. }
  rewrite E. generalize dependent (level_bytes t w h cpp). intros z _ Hz.
  apply eq_true_iff_eq. rewrite negb_true_iff, orb_false_iff, !Z.ltb_ge, Z.leb_le.
  unfold u32. destruct (Z.le_gt_cases (2 ^ 32) (z + off)).
  - rewrite (Z.mod_eq (z + off)) by lia.
    rewrite <- (Z.div_unique (z + off) (2 ^ 32) 1 (z + off - 2 ^ 32)) by lia. lia.
  - rewrite Z.mod_small by lia. lia.
Qed.

Lemma check_tex_size_spec tex off linear w h cpp :
  good_cpp cpp -> 1 <= w <= 4096 -> 1 <= h <= 4096 -> 0 <= off < 2 ^ 32 -> obj_size tex < 2 ^ 32 ->
  vc4_check_tex_size tex off (mip_tiling linear w h cpp 0) w h cpp
  = (off + mip_bytes linear w h cpp 0 <=? obj_size tex).
Proof.
  intros Hc Hw Hh Ho Hs. unfold mip_bytes. rewrite check_tex_size_fits by (lia || done || apply mip_tiling_cases).
  assert (level_dim w 0 = w) as -> by (unfold level_dim; rewrite Z.div_1_r; lia).
  assert (level_dim h 0 = h) as -> by (unfold level_dim; rewrite Z.div_1_r; lia). done.
Qed.

Lemma vc4_field_range x high low :
  0 <= low <= high -> high < 32 -> 0 <= x < 2 ^ 32 -> 0 <= VC4_GET_FIELD x high low < 2 ^ (high - low + 1).
Proof.
  intros H1 H2 Hx. unfold VC4_GET_FIELD, VC4_MASK.
  replace (Z.shiftl 1 (high - low + 1) - 1) with (Z.ones (high - low + 1))
    by (rewrite Z.ones_equiv, Z.shiftl_mul_pow2; lia).
  assert (0 <= Z.shiftl (Z.ones (high - low + 1)) low < 2 ^ 32) as Hm.
  { rewrite Z.shiftl_mul_pow2, Z.ones_equiv by lia.
    assert (0 < 2 ^ (high - low + 1)) by (apply Z.pow_pos_nonneg; lia). assert (0 < 2 ^ low) by (apply Z.pow_pos_nonneg; lia).
    assert (2 ^ (high - low + 1) * 2 ^ low = 2 ^ (high + 1)) by (rewrite <- Z.pow_add_r by lia; f_equal; lia).
    assert (2 ^ (high + 1) <= 2 ^ 32) by (apply Z.pow_le_mono_r; lia). nia. }
  rewrite u32_small by done. rewrite Z.shiftr_land, Z.shiftr_shiftl_l, Z.sub_diag, Z.shiftl_0_r by lia.
  rewrite Z.land_ones by lia. apply Z.mod_pos_bound, Z.pow_pos_nonneg; lia.
Qed.

(** Width and height in the texture parameters. *)
Definition tex_width (p1 : Z) : Z := if VC4_TEX_P1_WIDTH p1 =? 0 then 2048 else VC4_TEX_P1_WIDTH p1.
Definition tex_height (p1 : Z) : Z := if VC4_TEX_P1_HEIGHT p1 =? 0 then 2048 else VC4_TEX_P1_HEIGHT p1.
Definition tex_type (p0 p1 : Z) : Z := Z.lor (VC4_TEX_P0_TYPE p0) (Z.shiftl (VC4_TEX_P1_TYPE4 p1) 4).

Lemma tex_width_range p1 : 0 <= p1 < 2 ^ 32 -> 1 <= tex_width p1 <= 2048.
Proof.
  intros H. unfold tex_width, VC4_TEX_P1_WIDTH. pose proof (vc4_field_range p1 18 8 ltac:(lia) ltac:(lia) H) as Hr.
  destruct (Z.eqb_spec (VC4_GET_FIELD p1 18 8) 0); lia.
Qed.

Lemma tex_height_range p1 : 0 <= p1 < 2 ^ 32 -> 1 <= tex_height p1 <= 2048.
Proof.
  intros H. unfold tex_height, VC4_TEX_P1_HEIGHT. pose proof (vc4_field_range p1 30 20 ltac:(lia) ltac:(lia) H) as Hr.
  destruct (Z.eqb_spec (VC4_GET_FIELD p1 30 20) 0); lia.
Qed.

Lemma texture_layout_range type w h cpp w' h' :
  1 <= w <= 2048 -> 1 <= h <= 2048 -> texture_layout type w h = Some (cpp, w', h') ->
  good_cpp cpp /\ 1 <= w' <= 2048 /\ 1 <= h' <= 2048.
Proof.
  intros Hw Hh H. unfold texture_layout in H.
  destruct (_ || _ || _) in H; [injection H as <- <- <-; split; [right; right; by left|lia]|].
  destruct (_ || _ || _ || _ || _ || _) in H; [injection H as <- <- <-; split; [right; by left|lia]|].
  destruct (_ || _ || _) in H; [injection H as <- <- <-; split; [by left|lia]|].
  destruct (_ =? _) in H; [|discriminate H]. injection H as <- <- <-. split; [by do 3 right|].
  rewrite !u32_small, !Z.shiftr_div_pow2 by lia. change (2 ^ 2) with 4.
  Z.to_euclidean_division_equations. lia.
Qed.

(** The texture lies in its buffer: the base level of all faces after the offset, and the other
    levels before it. *)
Definition texture_fits (tex : cma_object) (p0 p1 p2 p3 : Z) : Prop :=
  exists stride cpp w h,
    cube_map_stride p0 p2 p3 = Some stride /\
    texture_layout (tex_type p0 p1) (tex_width p1) (tex_height p1) = Some (cpp, w, h) /\
    let linear := tex_type p0 p1 =? VC4_TEXTURE_TYPE_RGBA32R in
    let offset := Z.land p0 VC4_TEX_P0_OFFSET_MASK in
    offset + 5 * stride + mip_bytes linear w h cpp 0 <= obj_size tex /\
    mips_bytes linear w h cpp (Z.to_nat (VC4_TEX_P0_MIPLVLS p0)) 1 <= offset.

Lemma cube_map_stride_nonneg p0 p2 p3 stride : cube_map_stride p0 p2 p3 = Some stride -> 0 <= stride.
Proof.
  unfold cube_map_stride. assert (forall p, 0 <= Z.land p VC4_TEX_P2_CMST_MASK) as Hl.
  { intros p. apply Z.land_nonneg. right. vm_compute. congruence. }
  pose proof (Hl p2) as H2. pose proof (Hl p3) as H3.
  generalize dependent (Z.land p2 VC4_TEX_P2_CMST_MASK). generalize dependent (Z.land p3 VC4_TEX_P2_CMST_MASK).
  intros x Hx y Hy H. destruct (negb _); [|injection H as <-; lia].
  destruct (VC4_TEX_P2_PTYPE p3 =? _), (VC4_TEX_P2_PTYPE p2 =? _); cbn [andb] in H;
    destruct (y =? 0) eqn:Ey, (x =? 0) eqn:Ex; cbn [negb andb Z.eqb] in H; rewrite ?Ey, ?Ex in H;
    try discriminate H; injection H as <-; done.
Qed.

Lemma check_texture_fits tex p0 p1 p2 p3 :
  0 <= p0 < 2 ^ 32 -> 0 <= p1 < 2 ^ 32 -> obj_size tex < 2 ^ 32 ->
  (forall stride, cube_map_stride p0 p2 p3 = Some stride ->
     0 <= stride /\ Z.land p0 VC4_TEX_P0_OFFSET_MASK + 5 * stride < 2 ^ 32) ->
  check_texture tex p0 p1 p2 p3 = true <-> texture_fits tex p0 p1 p2 p3.
Proof.
  intros H0 H1 Hs Hst. unfold check_texture, texture_fits.
  fold (tex_width p1) (tex_height p1) (tex_type p0 p1).
  assert (0 <= Z.land p0 VC4_TEX_P0_OFFSET_MASK) as Hoff by (apply Z.land_nonneg; lia).
  destruct (cube_map_stride p0 p2 p3) as [stride|]; [|naive_solver].
  destruct (Hst stride eq_refl) as [Hst0 Hsum].
  destruct (texture_layout _ _ _) as [[[cpp w] h]|] eqn:El; [|naive_solver].
  destruct (texture_layout_range _ _ _ _ _ _ (tex_width_range p1 H1) (tex_height_range p1 H1) El) as (Hc & Hw & Hh).
  set (linear := tex_type p0 p1 =? VC4_TEXTURE_TYPE_RGBA32R).
  set (offset := Z.land p0 VC4_TEX_P0_OFFSET_MASK) in *.
  assert ((if linear then VC4_TILING_FORMAT_LINEAR
           else if size_is_lt w h cpp then VC4_TILING_FORMAT_LT else VC4_TILING_FORMAT_T)
          = mip_tiling linear w h cpp 0) as ->.
  { unfold mip_tiling, level_dim. rewrite !Z.div_1_r, !Z.max_l by lia. done. }
  rewrite (u32_small (stride * 5)), (u32_small (offset + stride * 5)) by lia.
  rewrite check_tex_size_spec by (done || lia).
  change 1 with (0 + 1) at 1. rewrite check_levels_spec by (done || lia).
  rewrite andb_true_iff, !Z.leb_le. split.
  - intros [? ?]. exists stride, cpp, w, h. split; [done|]. split; [done|]. cbv zeta. split; [lia|done].
  - intros (stride' & cpp' & w' & h' & E1 & E2 & H2 & H3). injection E1 as <-. injection E2 as <- <- <-.
    cbv zeta in H2. split; [lia|done].
Qed.

(** Direct reads: every address the shader can form is inside the buffer. *)
Lemma check_direct_fits tex p0 p1 :
  0 <= p0 < 2 ^ 32 -> 0 <= p1 < 2 ^ 32 -> 4 <= obj_size tex < 2 ^ 32 ->
  check_direct tex p0 p1 = true <-> p0 + p1 + 4 <= obj_size tex.
Proof.
  intros H0 H1 Hs. unfold check_direct. rewrite andb_true_iff, !negb_true_iff, !Z.ltb_ge.
  rewrite u64_small by lia. destruct (Z.le_gt_cases p0 (obj_size tex - 4)).
  - rewrite (u32_small (obj_size tex - p0)), u32_small by lia. lia.
  - lia.
Qed.
