(* ===== verification/Vc4JobCorrect.v ===== *)
(** * Accepted shader records, and from draw calls to vertex buffers

    What an accepted shader record guarantees; then the two validations together: the maximal index that the command list
    records for a shader state bounds every draw call that uses it, and the shader record of that state is
    checked against this index. *)
From S2P Require Import Prelude Bitset Bytes QpuPack Vc4Defines Vc4Shader Vc4Packet Vc4Validate Vc4ShaderRec Vc4BinSteps Vc4BinRun Vc4BinTotal Vc4Texture.

(** ** Loops *)

Lemma for_each_ind {S A} (P : S -> Prop) (f : S -> A -> res S) l s s' :
  P s -> (forall s1 x s2, x ∈ l -> P s1 -> f s1 x = Done s2 -> P s2) -> for_each f s l = Done s' -> P s'.
Proof.
  revert s. induction l as [|x l IH]; intros s Hs Hf H; cbn [for_each] in H; run_inv H; [by subst|].
  apply (IH a); [|intros; eapply Hf; [by right|done|done]|done]. eapply Hf; [by left|done|done].
Qed.

(** Every iteration of a successful loop succeeded. *)
Lemma for_each_all {S A} (f : S -> A -> res S) l s s' x :
  for_each f s l = Done s' -> x ∈ l -> exists s1 s2, f s1 x = Done s2.
Proof.
  revert s. induction l as [|y l IH]; intros s H Hx; [by apply not_elem_of_nil in Hx|].
  cbn [for_each] in H. run_inv H. apply elem_of_cons in Hx as [->|Hx]; eauto.
Qed.

(** A loop over the numbers of the elements of an array. *)
Lemma for_each_array {S A} (f : S -> A -> res S) (l : list A) s n a :
  (a + n <= length l)%nat ->
  for_each (fun s i => x ← access (array_get l i); f s x) s (zrange (Z.of_nat a) n)
  = for_each f s (take n (drop a l)).
Proof.
  revert a s. induction n as [|n IH]; intros a s Hn; [done|]. rewrite zrange_S. cbn [for_each].
  rewrite array_get_nat. destruct (lookup_lt_is_Some_2 l a) as [x Hx]; [lia|]. rewrite Hx.
  rewrite (drop_S _ _ _ Hx). cbn [take for_each access mbind res_bind].
  destruct (f s x) as [s1| |]; cbn [mbind res_bind]; [|done|done].
  replace (Z.of_nat a + 1) with (Z.of_nat (Datatypes.S a)) by lia. apply IH. lia.
Qed.

Lemma handle_bos_inv use recs o n objs :
  handle_bos use recs o n = Done objs ->
  length objs = n /\ forall i obj, objs !! i = Some obj ->
    exists h, read32 recs (o + 4 * Z.of_nat i) = Some h /\ use h = Done obj.
Proof.
  revert o objs. induction n as [|n IH]; intros o objs H; cbn [handle_bos] in H; run_inv H; [by subst|].
  subst objs. run_inv_all. apply IH in E1 as [El Hall]. split; [cbn; lia|].
  intros [|i] obj Hi; cbn in Hi.
  - injection Hi as <-. exists a. by rewrite Z.add_0_r.
  - destruct (Hall _ _ Hi) as (h & Hh & Hu). exists h. split; [|done]. rewrite <- Hh. f_equal. lia.
Qed.

(** ** Attributes *)

(** The fields of attribute [i] of the record at [pkt]. *)
Definition attr_fields (recs : list Z) (pkt addr i offset size stride : Z) : Prop :=
  read32 recs (pkt + 36 + 8 * i) = Some offset /\
  (exists b, read8 recs (pkt + 36 + 8 * i + 4) = Some b /\ size = b + 1) /\
  exists low, read8 recs (pkt + 36 + 8 * i + 5) = Some low /\
    if Z.land addr 8 =? 0 then stride = low
    else exists x, read32 recs (pkt + 100 + 4 * i) = Some x /\
           stride = Z.lor low (Z.land x (u32 (Z.lnot 255))).

(** Fetching attribute [i] for vertex [index] stays in its vertex buffer; the record with its
    handles starts at [start]. *)
Definition fetch_in_bounds (j : job) (start addr i index : Z) : Prop :=
  exists handle vbo offset size stride,
    read32 (recs j) (start + 12 + 4 * i) = Some handle /\ data_bo j handle vbo /\
    attr_fields (recs j) (start + 4 * (3 + rec_attributes addr)) addr i offset size stride /\
    0 <= offset + index * stride /\ offset + index * stride + size <= obj_size vbo.

Section Record.

Context (j : job).

Lemma reloc_attribute_inv st pkt_u pkt_v s i vbo s' :
  Forall is_byte (recs j) -> obj_size vbo < 2 ^ 32 ->
  reloc_attribute j st pkt_u pkt_v s (i, vbo) = Done s' ->
  exists offset size stride, attr_fields (recs j) pkt_u (ss_addr st) i offset size stride /\
    forall index, 0 <= index <= ss_max_index st ->
      0 <= offset + index * stride /\ offset + index * stride + size <= obj_size vbo.
Proof.
  intros Hb Hs H. unfold reloc_attribute in H. run_inv H. run_inv_all.
  exists a, (a0 + 1), a2. rewrite Z.add_0_r, (Z.mul_comm i 8), Z.add_assoc in *.
  assert (attr_fields (recs j) pkt_u (ss_addr st) i a (a0 + 1) a2 /\ 0 <= a2) as [Hf Ha2].
  { pose proof (read8_byte _ _ _ Hb E1) as Hb1. unfold attr_fields.
    destruct (Z.land (ss_addr st) 8 =? 0) eqn:E8; cbn [negb] in E2; run_inv E2; subst a2; run_inv_all.
    - split; [naive_solver|unfold is_byte in Hb1; lia].
    - match goal with E : read32 _ (_ + i * 4) = _ |- _ => rename E into Ex end.
      rewrite (Z.mul_comm i 4) in Ex. pose proof (read32_range _ _ _ Hb Ex) as Hr.
      split; [naive_solver|]. apply Z.lor_nonneg. split; [unfold is_byte in Hb1; lia|]. apply Z.land_nonneg. lia. }
  split; [done|]. apply orb_false_iff in E3 as [E3 E6]. apply Z.ltb_ge in E3, E6.
  apply read32_range in E; [|done]. intros index Hi. split; [nia|].
  destruct (Z.eqb_spec a2 0) as [->|Hne]; [lia|]. cbn [negb andb] in E4. apply Z.ltb_ge in E4.
  assert (0 <= (obj_size vbo - a - (a0 + 1)) / a2) by (apply Z.div_pos; lia).
  assert ((obj_size vbo - a - (a0 + 1)) / a2 <= obj_size vbo - a - (a0 + 1)) by (apply Z.div_le_upper_bound; nia).
  pose proof (read8_byte _ _ _ Hb E0) as Hb0. unfold is_byte in Hb0.
  rewrite u32_small in E4 by lia. pose proof (Z.mul_div_le (obj_size vbo - a - (a0 + 1)) a2). nia.
Qed.

(** The position of the record after copying. *)
Lemma copy_shader_rec_inv s addr s' src_handles pkt_u pkt_v :
  copy_shader_rec j s addr = Done (s', (src_handles, pkt_u, pkt_v)) ->
  0 <= shader_rec_size s < 2 ^ 32 -> 0 <= gl_shader_rec_size addr -> 0 <= rec_attributes addr ->
  src_handles = shader_rec_u s /\ pkt_u = shader_rec_u s + 4 * (3 + rec_attributes addr) /\
  pkt_v = shader_rec_v s /\
  shader_rec_u s' = pkt_u + gl_shader_rec_size addr /\
  shader_rec_v s' = pkt_v + roundup (gl_shader_rec_size addr) 16 /\
  roundup (gl_shader_rec_size addr) 16 <= gl_shader_rec_size addr + 4 * (3 + rec_attributes addr) /\
  shader_rec_size s' = shader_rec_size s - 4 * (3 + rec_attributes addr) - gl_shader_rec_size addr /\
  0 <= shader_rec_size s' /\
  uniforms_u s' = uniforms_u s /\ uniforms_v s' = uniforms_v s /\ uniforms_p s' = uniforms_p s /\
  memcpy (rmem s) pkt_v (recs j) pkt_u (gl_shader_rec_size addr) = Some (rmem s').
Proof.
  intros H Hs Hg Hr. unfold copy_shader_rec in H. run_inv H. run_inv_all.
  apply Z.ltb_ge in E, E0. rewrite u32_small in E0 by lia.
  destruct (Z.ltb_spec ((3 + rec_attributes addr) * 4) (roundup (gl_shader_rec_size addr) 16 - gl_shader_rec_size addr));
    [discriminate H|]. injection H as <- <- <- <-. cbn. rewrite !(u32_small (shader_rec_size s - _)) by lia.
  rewrite u32_small by lia. repeat split; try lia. exact E1.
Qed.

(** ** Sizes *)

Lemma land_7_range x : 0 <= Z.land x 7 <= 7.
Proof.
  replace (Z.land x 7) with (x mod 2 ^ 3) by (rewrite <- Z.land_ones; done).
  pose proof (Z.mod_pos_bound x (2 ^ 3)). lia.
Qed.

Lemma rec_attributes_range addr : 1 <= rec_attributes addr <= 8.
Proof. unfold rec_attributes. pose proof (land_7_range addr). destruct (Z.eqb_spec (Z.land addr 7) 0); lia. Qed.

Lemma gl_shader_rec_size_range addr : 44 <= gl_shader_rec_size addr <= 132.
Proof.
  unfold gl_shader_rec_size. pose proof (land_7_range addr).
  destruct (Z.eqb_spec (Z.land addr 7) 0), (negb _); lia.
Qed.

(** Bytes of a record with its handles in the input, and of its copy. *)
Definition rec_bytes (addr : Z) : Z := 4 * (3 + rec_attributes addr) + gl_shader_rec_size addr.
Definition rec_room (addr : Z) : Z := roundup (gl_shader_rec_size addr) 16.

Lemma rec_room_bounds addr : gl_shader_rec_size addr <= rec_room addr < gl_shader_rec_size addr + 16.
Proof.
  unfold rec_room. pose proof (gl_shader_rec_size_range addr).
  rewrite (roundup_align_up _ 4) by lia. apply align_up_bounds; lia.
Qed.

(** ** Stores keep what lies before *)

(** The members of the shader information are unsigned. *)
Record info_u32 (info : vc4_validated_shader_info) : Prop := {
  iu_size : 0 <= uniforms_size info;
  iu_src : 0 <= uniforms_src_size info;
  iu_offsets : Forall (Z.le 0) (uniform_addr_offsets info);
  iu_samples : Forall (fun t => Forall (Z.le 0) (p_offset t)) (texture_samples info) }.

(** [m] is [m0] below [n] and has its length. *)
Definition same_below (n : nat) (m0 m : list Z) : Prop := length m = length m0 /\ take n m = take n m0.

Lemma same_below_write n m0 m o bs m' :
  same_below n m0 m -> Z.of_nat n <= o -> write_bytes m o bs = Some m' -> same_below n m0 m'.
Proof.
  intros [Hl Ht] Ho Hw. split; [rewrite (write_bytes_length _ _ _ _ Hw); done|].
  by rewrite (write_bytes_take _ _ _ _ _ Hw).
Qed.

Lemma same_below_memcpy n m0 m d src sr k m' :
  same_below n m0 m -> Z.of_nat n <= d -> memcpy m d src sr k = Some m' -> same_below n m0 m'.
Proof.
  intros Hs Hd Hw. unfold memcpy in Hw. destruct (read_bytes src sr k); [|discriminate Hw].
  by eapply same_below_write.
Qed.

Lemma reloc_tex_below n m0 m uv ud sample h m' :
  Forall (Z.le 0) (p_offset sample) -> Z.of_nat n <= uv ->
  reloc_tex j m uv ud sample h = Done m' -> same_below n m0 m -> same_below n m0 m'.
Proof.
  intros Hp Hn H Hs. unfold reloc_tex in H. run_inv H. run_inv_all.
  eapply same_below_write; [exact Hs| |exact H].
  apply array_get_Some in E as [_ E]. pose proof (Forall_lookup_1 _ _ _ _ Hp E). cbn in *. lia.
Qed.

Lemma reloc_shader_below n m0 pkt_u pkt_v s oo s' :
  (forall info, validated_shader (snd oo) = Some info -> info_u32 info) -> 0 <= fst oo ->
  Z.of_nat n <= pkt_v -> Z.of_nat n <= uniforms_v s ->
  reloc_shader j pkt_u pkt_v s oo = Done s' -> same_below n m0 (rmem s) ->
  same_below n m0 (rmem s') /\ uniforms_v s <= uniforms_v s' /\
  shader_rec_u s' = shader_rec_u s /\ shader_rec_v s' = shader_rec_v s /\ shader_rec_size s' = shader_rec_size s.
Proof.
  destruct oo as [o obj]. cbn [fst snd]. intros Hi Ho Hn Hu H Hs. unfold reloc_shader in H. run_inv H.
  run_inv_all. destruct (validated_shader obj) as [info|]; [|discriminate H]. destruct (Hi info eq_refl) as [I1 I2 I3 I4].
  run_inv H. subst s'. run_inv_all. cbn. split; [|lia].
  assert (same_below n m0 a0) as B0 by (eapply same_below_write; [exact Hs| |exact E0]; lia).
  assert (same_below n m0 a3) as B1 by (eapply same_below_memcpy; [exact B0| |exact E3]; lia).
  assert (same_below n m0 a4) as B2.
  { revert E4. apply for_each_ind; [done|]. intros m1 x m2 _ Hm1 Hf. run_inv Hf. run_inv_all.
    eapply reloc_tex_below; [|exact Hu|exact Hf|exact Hm1].
    match goal with E : array_get (texture_samples info) x = Some _ |- _ => apply array_get_Some in E as [_ E];
      exact (Forall_lookup_1 _ _ _ _ I4 E) end. }
  assert (same_below n m0 a5) as B3.
  { revert E5. apply for_each_ind; [done|]. intros m1 x m2 _ Hm1 Hf. run_inv Hf. run_inv_all.
    eapply same_below_write; [exact Hm1| |exact Hf].
    match goal with E : array_get (uniform_addr_offsets info) x = Some _ |- _ => apply array_get_Some in E as [_ E];
      pose proof (Forall_lookup_1 _ _ _ _ I3 E) as Hx; cbn in Hx; lia end. }
  eapply same_below_write; [exact B3| |exact E6]. lia.
Qed.

(** ** A whole record *)

(** Memory below [n] and the positions of the records are those of [s]. *)
Definition kept (n : nat) (m0 : list Z) (s s' : rec_state) : Prop :=
  same_below n m0 (rmem s') /\ uniforms_v s <= uniforms_v s' /\
  shader_rec_u s' = shader_rec_u s /\ shader_rec_v s' = shader_rec_v s /\ shader_rec_size s' = shader_rec_size s.

Lemma kept_trans n m0 s1 s2 s3 : kept n m0 s1 s2 -> kept n m0 s2 s3 -> kept n m0 s1 s3.
Proof. intros (_ & ? & ? & ? & ?) (? & ? & ? & ? & ?). split; [done|]. repeat split; lia. Qed.

(** The records are bytes; buffers are smaller than the address space. *)
Record recs_ok : Prop := {
  ro_bytes : Forall is_byte (recs j);
  ro_bos : forall h obj, array_get (bo j) h = Some (Some obj) ->
    obj_size obj < 2 ^ 32 /\ forall info, validated_shader obj = Some info -> info_u32 info }.

Context (Hj : recs_ok).

Lemma shader_bo_inv h obj : shader_bo j h = Done obj -> array_get (bo j) h = Some (Some obj).
Proof.
  unfold shader_bo. intros H. run_inv H. run_inv_all. destruct a0; [|discriminate H]. by injection H as <-.
Qed.

(** What the validation of a record does to the positions. *)
Record rec_moved (s : rec_state) (addr : Z) (s' : rec_state) : Prop := {
  rm_u : shader_rec_u s' = shader_rec_u s + rec_bytes addr;
  rm_v : shader_rec_v s' = shader_rec_v s + rec_room addr;
  rm_size : shader_rec_size s' = shader_rec_size s - rec_bytes addr;
  rm_size_pos : 0 <= shader_rec_size s';
  rm_room : rec_room addr <= rec_bytes addr;
  rm_uniforms : uniforms_v s <= uniforms_v s' }.

Lemma reloc_shaders_below n m0 pkt_u pkt_v shaders s s' :
  Forall (fun obj => forall info, validated_shader obj = Some info -> info_u32 info) shaders ->
  Z.of_nat n <= pkt_v -> Z.of_nat n <= uniforms_v s ->
  for_each (reloc_shader j pkt_u pkt_v) s (zip shader_reloc_offsets shaders) = Done s' ->
  same_below n m0 (rmem s) ->
  kept n m0 s s'.
Proof.
  intros Hsh Hn Hu H Hs. apply (for_each_ind (kept n m0 s) _ _ _ _) in H; [done|split; [done|lia]|].
  intros s1 [o obj] s2 Hin Hk Hf. apply elem_of_zip_r in Hin as Hobj. apply elem_of_zip_l in Hin as Ho.
  pose proof Hk as (B & U & _). apply (kept_trans _ _ _ _ _ Hk). rewrite Forall_forall in Hsh.
  eapply reloc_shader_below; [..|exact Hf|exact B]; [by apply Hsh| |done|lia].
  cbn. unfold shader_reloc_offsets in Ho. rewrite !elem_of_cons in Ho.
  destruct Ho as [->|[->|[->|Ho]]]; [lia|lia|lia|by apply elem_of_nil in Ho].
Qed.

Lemma reloc_attribute_kept st n m0 pkt_u pkt_v s ivbo s' :
  0 <= fst ivbo -> Z.of_nat n <= pkt_v ->
  reloc_attribute j st pkt_u pkt_v s ivbo = Done s' -> same_below n m0 (rmem s) -> kept n m0 s s'.
Proof.
  destruct ivbo as [i vbo]. cbn [fst]. intros Hi Hn H Hs. unfold reloc_attribute in H. run_inv H. subst s'. run_inv_all.
  split; [|cbn; lia]. cbn. eapply same_below_write; [exact Hs| |match goal with E : write32 _ _ _ = _ |- _ => exact E end]. lia.
Qed.

Lemma reloc_attributes_kept st n m0 pkt_u pkt_v l s s' :
  Forall (fun ivbo => 0 <= fst ivbo) l -> Z.of_nat n <= pkt_v ->
  for_each (reloc_attribute j st pkt_u pkt_v) s l = Done s' -> same_below n m0 (rmem s) -> kept n m0 s s'.
Proof.
  intros Hl Hn H Hs. apply (for_each_ind (kept n m0 s) _ _ _ _) in H; [done|split; [done|lia]|].
  intros s1 x s2 Hin Hk Hf. apply (kept_trans _ _ _ _ _ Hk). rewrite Forall_forall in Hl.
  eapply reloc_attribute_kept; [by apply Hl|done|exact Hf|apply Hk].
Qed.

Lemma elem_of_zrange_zip {A} (l : list A) n i x :
  l !! i = Some x -> (i < n)%nat -> (Z.of_nat i, x) ∈ zip (zrange 0 n) l.
Proof.
  intros Hx Hn. apply list_elem_of_lookup. exists i. apply lookup_zip_with_Some. exists (Z.of_nat i), x.
  split; [done|]. split; [|done]. unfold zrange. rewrite list_lookup_fmap, lookup_seq_lt by lia. done.
Qed.

Lemma validate_gl_shader_rec_inv s st s' n m0 :
  validate_gl_shader_rec j s st = Done s' -> 0 <= shader_rec_size s < 2 ^ 32 ->
  Z.of_nat n <= shader_rec_v s -> Z.of_nat n <= uniforms_v s -> same_below n m0 (rmem s) ->
  same_below n m0 (rmem s') /\ rec_moved s (ss_addr st) s' /\
  forall i index, 0 <= i < rec_attributes (ss_addr st) -> 0 <= index <= ss_max_index st ->
    fetch_in_bounds j (shader_rec_u s) (ss_addr st) i index.
Proof.
  intros H Hsz Hn Hu Hs. unfold validate_gl_shader_rec in H. run_inv H.
  destruct a as [s1 [[src_handles pkt_u] pkt_v]]. run_inv H.
  pose proof (rec_attributes_range (ss_addr st)) as Hra. pose proof (gl_shader_rec_size_range (ss_addr st)) as Hgs.
  destruct (copy_shader_rec_inv _ _ _ _ _ _ E) as (-> & Epu & -> & Eu & Ev & Hroom & Esz & Hp & _ & Euv & _ & Em); [lia..|].
  apply (same_below_memcpy n m0) in Em as B1; [|done|done].
  apply handle_bos_inv in E0 as [L0 H0]. apply handle_bos_inv in E1 as [L1 H1].
  eapply reloc_shaders_below in E3 as (B2 & U2 & F1 & F2 & F3); [|..|exact B1]; [|..|lia].
  3: done.
  2: { apply Forall_lookup_2. intros i obj Hi. destruct (H0 _ _ Hi) as (h & _ & Hh%shader_bo_inv).
       apply (ro_bos Hj) in Hh as [_ Hh]. exact Hh. }
  pose proof H as Hloop.
  eapply reloc_attributes_kept in H as (B3 & U3 & G1 & G2 & G3); [|..|exact B2]; [|..|exact Hn].
  2: { apply Forall_forall. intros [i x] Hin%elem_of_zip_l. apply elem_of_zrange in Hin. cbn. lia. }
  split; [exact B3|]. split; [unfold rec_bytes, rec_room in *; split; unfold rec_room, rec_bytes; lia|].
  intros i index Hi Hx. destruct (lookup_lt_is_Some_2 a0 (Z.to_nat i)) as [vbo Hv]; [lia|].
  destruct (H1 _ _ Hv) as (h & Hh & Hd%use_bo_data).
  pose proof (ro_bos Hj _ _ (proj1 (proj2 Hd))) as [Hvs _].
  assert ((i, vbo) ∈ zip (zrange 0 (Z.to_nat (rec_attributes (ss_addr st)))) a0) as Hin.
  { rewrite <- (Z2Nat.id i) by lia. apply elem_of_zrange_zip; [done|lia]. }
  destruct (for_each_all _ _ _ _ _ Hloop Hin) as (t1 & t2 & Ht).
  destruct (reloc_attribute_inv _ _ _ _ _ _ _ (ro_bytes Hj) Hvs Ht) as (off & size & stride & Hf & Hb).
  exists h, vbo, off, size, stride. split; [rewrite <- Hh; f_equal; lia|]. split; [done|].
  rewrite <- Epu. split; [done|]. by apply Hb.
Qed.

End Record.

(** ** All records *)

Definition recs_bytes (states : list vc4_shader_state) : Z :=
  foldr (fun st n => rec_bytes (ss_addr st) + n) 0 states.
Definition recs_room (states : list vc4_shader_state) : Z :=
  foldr (fun st n => rec_room (ss_addr st) + n) 0 states.

Lemma rec_bytes_pos addr : 0 < rec_bytes addr.
Proof.
  unfold rec_bytes. pose proof (gl_shader_rec_size_range addr). pose proof (rec_attributes_range addr). lia.
Qed.

Lemma validate_recs_inv j states s s' n m0 :
  recs_ok j -> for_each (validate_gl_shader_rec j) s states = Done s' -> 0 <= shader_rec_size s < 2 ^ 32 ->
  Z.of_nat n <= shader_rec_v s -> Z.of_nat n <= uniforms_v s -> same_below n m0 (rmem s) ->
  same_below n m0 (rmem s') /\ recs_bytes states <= shader_rec_size s /\
  shader_rec_v s' = shader_rec_v s + recs_room states /\ 0 <= recs_room states <= recs_bytes states /\
  forall k st i index, states !! k = Some st -> 0 <= i < rec_attributes (ss_addr st) ->
    0 <= index <= ss_max_index st ->
    fetch_in_bounds j (shader_rec_u s + recs_bytes (take k states)) (ss_addr st) i index.
Proof.
  intros Hj. revert s. induction states as [|st states IH]; intros s H Hsz Hn Hu Hs; cbn [for_each] in H; run_inv H.
  - subst s'. cbn. split; [done|]. split; [lia|]. split; [lia|]. split; [lia|]. intros k st i index Hk. done.
  - destruct (validate_gl_shader_rec_inv j Hj _ _ _ _ _ E Hsz Hn Hu Hs) as (B & [M1 M2 M3 M4 M5 M6] & Hf).
    pose proof (rec_bytes_pos (ss_addr st)). pose proof (rec_room_bounds (ss_addr st)).
    pose proof (gl_shader_rec_size_range (ss_addr st)).
    destruct (IH _ H) as (B' & R1 & R2 & R3 & Hf'); [lia|lia|lia|done|].
    change (recs_bytes (st :: states)) with (rec_bytes (ss_addr st) + recs_bytes states).
    change (recs_room (st :: states)) with (rec_room (ss_addr st) + recs_room states).
    split; [done|]. split; [lia|]. split; [lia|]. split; [lia|].
    intros [|k] st' i index Hk Hi Hx.
    + injection Hk as <-. cbn. rewrite Z.add_0_r. by apply Hf.
    + change (recs_bytes (take (S k) (st :: states))) with (rec_bytes (ss_addr st) + recs_bytes (take k states)).
      rewrite Z.add_assoc, <- M1. by apply (Hf' k st').
Qed.

(** ** Draw calls *)

(** The largest index of a draw call. *)
Definition draw_index (p : list Z) : option Z :=
  if opcode p =? VC4_PACKET_GL_INDEXED_PRIMITIVE then read32 p 10
  else if opcode p =? VC4_PACKET_GL_ARRAY_PRIMITIVE then
    len ← read32 p 2; base ← read32 p 6; Some (u32 (len + base - 1))
  else None.

(** The draw calls of a list with the number of the shader state they use; [n] states come
    before the list. *)
Fixpoint draws (n : nat) (ps : list (list Z)) : list (nat * Z) :=
  match ps with
  | [] => []
  | p :: ps =>
    if opcode p =? VC4_PACKET_GL_SHADER_STATE then draws (S n) ps
    else match draw_index p with
         | Some index => ((n - 1)%nat, index) :: draws n ps
         | None => draws n ps
         end
  end.

(** Later states extend earlier ones. *)
Definition states_le (l l' : list vc4_shader_state) : Prop :=
  forall k st, l !! k = Some st ->
    exists st', l' !! k = Some st' /\ ss_addr st' = ss_addr st /\ ss_max_index st <= ss_max_index st'.

Lemma states_le_refl l : states_le l l.
Proof. intros k st H. exists st. done. Qed.

Lemma states_le_trans l1 l2 l3 : states_le l1 l2 -> states_le l2 l3 -> states_le l1 l3.
Proof.
  intros H12 H23 k st H. destruct (H12 _ _ H) as (st2 & H2 & E2 & L2). destruct (H23 _ _ H2) as (st3 & H3 & E3 & L3).
  exists st3. split; [done|]. split; [congruence|lia].
Qed.

Lemma draw_le l i l' : draw l i l' -> states_le l l' /\ length l' = length l /\
  exists st, l' !! (length l - 1)%nat = Some st /\ i <= ss_max_index st.
Proof.
  intros (l0 & st & -> & ->). rewrite !length_app. cbn [length].
  replace (length l0 + 1 - 1)%nat with (length l0) by lia. split; [|split; [done|]].
  - intros k st' Hk. apply lookup_app_Some in Hk as [Hk|[Hge Hk]].
    + exists st'. split; [|done]. apply lookup_app_Some. by left.
    + destruct (k - length l0)%nat as [|k'] eqn:Ek; [|done]. cbn in Hk. injection Hk as <-.
      eexists. rewrite lookup_app_r by lia. rewrite Ek. cbn. split; [reflexivity|]. cbn. split; [done|lia].
  - eexists. rewrite lookup_app_r, Nat.sub_diag by lia. cbn. split; [reflexivity|]. cbn. lia.
Qed.

(** One packet. *)
Lemma packet_step_draws create j a p out a' :
  packet_step create j a p out a' ->
  states_le (ab_states a) (ab_states a') /\
  length (ab_states a') = (length (ab_states a) + if (opcode p =? VC4_PACKET_GL_SHADER_STATE)%Z then 1 else 0)%nat /\
  (opcode p <> VC4_PACKET_GL_SHADER_STATE -> forall index, draw_index p = Some index ->
     exists st, ab_states a' !! (length (ab_states a) - 1)%nat = Some st /\ index <= ss_max_index st).
Proof.
  intros Hs. destruct Hs as [a p Hp|a p h0 h1 Hop|a p out addr Hop _ _ _ _|a p len base st' Hop Hl Hb _ Hd
    |a p out b len off ix h ib st' Hop _ _ _ Hx Hd|a p out x y fl t Hop]; unfold draw_index; cbn [ab_states].
  - unfold is_plain in Hp. cbn in Hp. rewrite negb_true_iff, !orb_false_iff, !Z.eqb_neq in Hp.
    destruct Hp as (_ & H2 & H3 & H4 & _). split; [apply states_le_refl|].
    destruct (Z.eqb_spec (opcode p) VC4_PACKET_GL_SHADER_STATE); [done|].
    destruct (Z.eqb_spec (opcode p) VC4_PACKET_GL_INDEXED_PRIMITIVE); [done|].
    destruct (Z.eqb_spec (opcode p) VC4_PACKET_GL_ARRAY_PRIMITIVE); [done|]. split; [lia|]. done.
  - rewrite Hop. cbn. split; [apply states_le_refl|]. split; [lia|done].
  - rewrite Hop. cbn. split; [|split; [rewrite length_app; done|done]].
    intros k st Hk. exists st. split; [|done]. by apply lookup_app_l_Some.
  - rewrite Hop. cbn -[u32 read32]. destruct (draw_le _ _ _ Hd) as (D1 & D2 & D3). split; [done|]. split; [lia|].
    intros _ index Hi. rewrite Hl, Hb in Hi. cbn -[u32] in Hi. injection Hi as <-. done.
  - rewrite Hop. cbn -[u32 read32]. destruct (draw_le _ _ _ Hd) as (D1 & D2 & D3). split; [done|]. split; [lia|].
    intros _ index Hi. rewrite Hx in Hi. injection Hi as <-. done.
  - rewrite Hop. cbn. split; [apply states_le_refl|]. split; [lia|done].
Qed.

Lemma packet_run_states create j a ps outs a' :
  packet_run create j a ps outs a' -> states_le (ab_states a) (ab_states a').
Proof.
  induction 1 as [|a p out a1 ps outs a2 Hs _ IH]; [apply states_le_refl|].
  eapply states_le_trans; [|exact IH]. apply (packet_step_draws _ _ _ _ _ _ Hs).
Qed.

(** Every draw call is below the maximal index of its shader state. *)
Lemma packet_run_draws create j a ps outs a' k index :
  packet_run create j a ps outs a' -> (k, index) ∈ draws (length (ab_states a)) ps ->
  exists st, ab_states a' !! k = Some st /\ index <= ss_max_index st.
Proof.
  intros Hr. induction Hr as [|a p out a1 ps outs a2 Hs Hr IH]; [intros H; by apply not_elem_of_nil in H|].
  destruct (packet_step_draws _ _ _ _ _ _ Hs) as (Hle & Hlen & Hd). cbn [draws].
  destruct (Z.eqb_spec (opcode p) VC4_PACKET_GL_SHADER_STATE) as [E|E].
  - replace (S (length (ab_states a))) with (length (ab_states a1)) by lia. exact IH.
  - replace (length (ab_states a)) with (length (ab_states a1)) by lia.
    destruct (draw_index p) as [ix|]; [|exact IH]. intros [Heq|Hin]%elem_of_cons; [|by apply IH].
    injection Heq as -> ->. destruct (Hd E ix eq_refl) as (st & Hst & Hix).
    replace (length (ab_states a)) with (length (ab_states a1)) in Hst by lia.
    destruct (packet_run_states _ _ _ _ _ _ Hr _ _ Hst) as (st' & Hst' & _ & Hm). exists st'. split; [done|lia].
Qed.

(** ** The layout of the memory *)

Lemma recs_loop j b s :
  cl_wf j b ->
  vc4_validate_shader_recs j s b = for_each (validate_gl_shader_rec j) s (ab_states (abs_of b)).
Proof.
  intros [H1 H2 H3]. unfold vc4_validate_shader_recs. change 0 with (Z.of_nat 0).
  rewrite for_each_array by lia. by rewrite drop_0.
Qed.

(** An accepted layout does not wrap. *)
Lemma layout_fits a :
  layout_overflows a = false -> 0 <= arg_bin_cl_size a < 2 ^ 30 -> 0 <= arg_shader_rec_size a < 2 ^ 32 ->
  0 <= arg_uniforms_size a < 2 ^ 32 ->
  let l := bcl_layout a in
  arg_bin_cl_size a <= shader_rec_offset l /\
  uniforms_offset l = shader_rec_offset l + arg_shader_rec_size a /\
  exec_size l = uniforms_offset l + arg_uniforms_size a /\ exec_size l < 2 ^ 32.
Proof.
  intros H Hb Hr Hu. unfold layout_overflows in H. cbn -[u32 roundup] in H. cbv zeta. cbn -[u32 roundup].
  rewrite !orb_false_iff, !Z.ltb_ge in H. destruct H as (((H1 & H2) & _) & _).
  assert (roundup (arg_bin_cl_size a) 16 = align_up (arg_bin_cl_size a) 16) as Er
    by (apply (roundup_align_up _ 4); lia).
  rewrite Er in *. pose proof (align_up_bounds (arg_bin_cl_size a) 16) as Ha.
  rewrite (u32_small (align_up _ _)) in * by lia. set (x := align_up _ _) in *.
  assert (forall y z, 0 <= y < 2 ^ 32 -> 0 <= z < 2 ^ 32 -> y <= u32 (y + z) -> u32 (y + z) = y + z) as Hno.
  { intros y z Hy Hz Hle. unfold u32 in *. destruct (Z.le_gt_cases (2 ^ 32) (y + z)); [|apply Z.mod_small; lia].
    rewrite (Z.mod_eq (y + z)) in Hle by lia.
    rewrite <- (Z.div_unique (y + z) (2 ^ 32) 1 (y + z - 2 ^ 32)) in Hle by lia. lia. }
  assert (u32 (x + arg_shader_rec_size a) = x + arg_shader_rec_size a) as E1 by (apply Hno; lia).
  rewrite E1 in *. pose proof (u32_range (x + arg_shader_rec_size a)). rewrite E1 in *.
  assert (u32 (x + arg_shader_rec_size a + arg_uniforms_size a) = x + arg_shader_rec_size a + arg_uniforms_size a) as E2
    by (apply Hno; lia).
  pose proof (u32_range (x + arg_shader_rec_size a + arg_uniforms_size a)). lia.
Qed.
