(* ===== verification/Vc4JobTheorems.v ===== *)
(** * Correctness of command list validation *)
From S2P Require Import Prelude Bitset QpuPack Vc4Defines Vc4Shader Bytes Vc4Packet Vc4Validate Vc4ShaderRec Vc4BinSteps Vc4BinRun Vc4BinTotal Vc4Texture Vc4JobCorrect.

(** ** A sample job *)

Definition sample_create (n : nat) (size : Z) : option cma_object :=
  Some (CmaObject size (1048576 * (1 + Z.of_nat n)) None).

Definition sample_info : vc4_validated_shader_info := ShaderInfo 8 8 0 [] 1 [1] false.

Definition sample_bos : list (option cma_object) :=
  [Some (CmaObject 4096 4096 (Some sample_info)); Some (CmaObject 4096 8192 None)].

Definition sample_bin : list Z :=
  VC4_PACKET_TILE_BINNING_MODE_CONFIG :: replicate 12 0 ++ [2; 3; 1]
  ++ [VC4_PACKET_START_TILE_BINNING]
  ++ VC4_PACKET_GL_SHADER_STATE :: le32 1
  ++ VC4_PACKET_GEM_HANDLES :: le32 1 ++ le32 0
  ++ VC4_PACKET_GL_INDEXED_PRIMITIVE :: 20 :: le32 6 ++ le32 64 ++ le32 9
  ++ VC4_PACKET_GL_ARRAY_PRIMITIVE :: 4 :: le32 30 ++ le32 2
  ++ [VC4_PACKET_INCREMENT_SEMAPHORE; VC4_PACKET_FLUSH].

(** Handles of the shaders and of one vertex buffer, then the record: flags, the shaders at offset 0,
    and an attribute of 8 bytes with a stride of 16. *)
Definition sample_recs : list Z :=
  le32 0 ++ le32 0 ++ le32 0 ++ le32 1 ++ 1 :: replicate 35 0 ++ le32 32 ++ [7; 16; 0; 0].

Definition sample_args (uniforms_size : nat) : submit_cl :=
  SubmitCl sample_bin sample_recs (replicate uniforms_size 0)
    (Z.of_nat (length sample_bin)) (Z.of_nat (length sample_recs)) (Z.of_nat uniforms_size) 1.

Definition sample_contents (uniforms_size : nat) : list Z := replicate (144 + uniforms_size) 0.

Definition sample_job : job := bcl_job sample_bos (sample_args 24) 1048576.
Definition sample_state : bin_state :=
  bcl_bin_state (sample_args 24) (sample_contents 24) [ShaderState 0 0] 1048576.

Definition result_of {A} (d : A) (r : res A) : A := match r with Done a => a | _ => d end.
Definition sample_bin_result : bin_state * Z :=
  result_of (sample_state, 0) (vc4_validate_bin_cl sample_create sample_job sample_state).
Definition sample_result : bin_state * Z * rec_state :=
  default (sample_state, 0, RecState [] 0 0 0 0 0 0)
    (result_of None (vc4_get_bcl sample_create true sample_bos (sample_args 24) (sample_contents 24) [ShaderState 0 0])).

Example sample_accepted :
  vc4_get_bcl sample_create true sample_bos (sample_args 24) (sample_contents 24) [ShaderState 0 0]
  = Done (Some sample_result).
Proof. vm_compute. reflexivity. Qed.

(** ** The command list *)

Lemma removelast_map {A B} (f : A -> B) l : map f (removelast l) = removelast (map f l).
Proof. induction l as [|x l IH]; [done|]. destruct l as [|y l]; [done|]. cbn in *. by rewrite IH. Qed.

Lemma bytes_of_run create j s s' dst' ps outs src' :
  Z.of_nat (length (bin j)) = bin_cl_size j ->
  cl_run create j s 0 0 s' dst' ps outs src' -> src' = bin_cl_size j -> concat ps = bin j.
Proof.
  intros Hl Hr ->. pose proof (cr_bytes _ _ _ _ _ _ _ _ _ _ Hr) as Hb. change (Z.to_nat 0) with 0%nat in Hb.
  rewrite drop_0, <- Hl, Nat2Z.id, drop_all, app_nil_r in Hb. done.
Qed.

(** A command list whose validation starts fresh. *)
Record fresh_job (j : job) (s : bin_state) : Prop := {
  fj_length : Z.of_nat (length (bin j)) = bin_cl_size j;
  fj_size : 0 < bin_cl_size j < 2 ^ 31;
  fj_wf : cl_wf j s;
  fj_found : found_of s = Found false false false false }.

(** What both theorems on accepted lists use. *)
Lemma accepted_run create j s s' e :
  fresh_job j s -> vc4_validate_bin_cl create j s = Done (s', e) ->
  exists ps outs dst', cl_run create j s 0 0 s' dst' ps outs (bin_cl_size j) /\
    concat ps = bin j /\ e = u32 (ct0ca j + dst') /\
    (exists body, map opcode ps = body ++ [VC4_PACKET_INCREMENT_SEMAPHORE; VC4_PACKET_FLUSH] /\
       VC4_PACKET_INCREMENT_SEMAPHORE ∉ body /\ VC4_PACKET_FLUSH ∉ body) /\
    (exists b1 b2 b3, map opcode ps = b1 ++ VC4_PACKET_TILE_BINNING_MODE_CONFIG :: b2
         ++ VC4_PACKET_START_TILE_BINNING :: b3 /\ no_start b1 /\ no_start b2 /\ no_start b3).
Proof.
  intros [Hl Hs Hwf Hf] H.
  destruct (bin_cl_run _ _ _ _ _ Hl (conj (Z.lt_le_incl _ _ (proj1 Hs)) (proj2 Hs)) Hwf H)
    as (ps & outs & dst' & src' & Hr & He & Hst & Hse & Hfl).
  pose proof (cr_found _ _ _ _ _ _ _ _ _ _ Hr) as Hfr. pose proof (cr_src _ _ _ _ _ _ _ _ _ _ Hr) as Hsrc.
  rewrite Hf in Hfr.
  destruct (found_run_end _ _ _ _ _ _ Hfr (Z.le_refl 0) Hs (proj2 Hsrc) eq_refl eq_refl Hse Hfl) as [-> Hend].
  pose proof (found_run_start _ _ _ _ _ _ Hfr eq_refl eq_refl Hst) as Hstart. rewrite map_opcode in *.
  exists ps, outs, dst'. split; [done|]. split; [by eapply bytes_of_run|]. done.
Qed.

(** C31: an accepted command list is a sequence of whole packets of the table. It ends with the
    semaphore increment and the flush, which together with halt occur nowhere else, and it has exactly one
    tile binning configuration followed by exactly one start of binning. *)
Theorem accepted_bin_cl_order create j s s' e :
  fresh_job j s -> vc4_validate_bin_cl create j s = Done (s', e) ->
  exists ps, concat ps = bin j /\ Forall (packet_wf create) ps /\
    (exists body, map opcode ps = body ++ [VC4_PACKET_INCREMENT_SEMAPHORE; VC4_PACKET_FLUSH] /\
       VC4_PACKET_INCREMENT_SEMAPHORE ∉ body /\ VC4_PACKET_FLUSH ∉ body /\ VC4_PACKET_HALT ∉ body) /\
    (exists b1 b2 b3, map opcode ps = b1 ++ VC4_PACKET_TILE_BINNING_MODE_CONFIG :: b2
         ++ VC4_PACKET_START_TILE_BINNING :: b3 /\ no_start b1 /\ no_start b2 /\ no_start b3).
Proof.
  intros Hj H. destruct (accepted_run _ _ _ _ _ Hj H) as (ps & outs & dst' & Hr & Hb & _ & (body & E & H1 & H2) & Hst).
  exists ps. split; [done|]. split; [by apply (cr_wf _ _ _ _ _ _ _ _ _ _ Hr)|]. split; [|done].
  exists body. split; [done|]. split; [done|]. split; [done|]. intros Hin.
  pose proof (cr_halt _ _ _ _ _ _ _ _ _ _ Hr) as Hh.
  assert (VC4_PACKET_HALT ∈ map opcode (removelast ps)) as Hin'.
  { rewrite removelast_map, E, removelast_app by done. apply elem_of_app. by left. }
  apply list_elem_of_In, in_map_iff in Hin' as (p & Hp & Hin'). rewrite Forall_forall in Hh.
  apply (Hh p); [by apply list_elem_of_In|done].
Qed.

Lemma sample_fresh : fresh_job sample_job sample_state.
Proof.
  split; [vm_compute; reflexivity|vm_compute; split; reflexivity| |reflexivity].
  split; [vm_compute; reflexivity|vm_compute; reflexivity|vm_compute; split; congruence].
Qed.

Lemma accepted_bin_cl_order_witness :
  exists ps, concat ps = bin sample_job /\ Forall (packet_wf sample_create) ps /\
    (exists body, map opcode ps = body ++ [VC4_PACKET_INCREMENT_SEMAPHORE; VC4_PACKET_FLUSH] /\
       VC4_PACKET_INCREMENT_SEMAPHORE ∉ body /\ VC4_PACKET_FLUSH ∉ body /\ VC4_PACKET_HALT ∉ body) /\
    (exists b1 b2 b3, map opcode ps = b1 ++ VC4_PACKET_TILE_BINNING_MODE_CONFIG :: b2
         ++ VC4_PACKET_START_TILE_BINNING :: b3 /\ no_start b1 /\ no_start b2 /\ no_start b3).
Proof.
  apply (accepted_bin_cl_order sample_create sample_job sample_state (fst sample_bin_result)
    (snd sample_bin_result) sample_fresh). vm_compute. reflexivity.
Defined.

(** C32: validation refines the packet machine: the bytes the hardware gets, up to the end
    [ct0ea], are the packets the machine gives for the input cut into whole packets of the table. In particular every index buffer
    is a data buffer that holds all the indices, and the shader states with their maximal indices are
    those of the packets. *)
Theorem bin_cl_refines_packets create j s s' e :
  fresh_job j s -> vc4_validate_bin_cl create j s = Done (s', e) ->
  exists ps outs, concat ps = bin j /\ Forall (packet_wf create) ps /\ packet_run create j (abs_of s) ps outs (abs_of s') /\
    length (vmem s') = length (vmem s) /\ take (length (concat outs)) (vmem s') = concat outs /\
    e = u32 (ct0ca j + Z.of_nat (length (concat outs))).
Proof.
  intros Hj H. destruct (accepted_run _ _ _ _ _ Hj H) as (ps & outs & dst' & Hr & Hb & -> & _ & _).
  exists ps, outs. split; [done|]. split; [by apply (cr_wf _ _ _ _ _ _ _ _ _ _ Hr)|].
  split; [by apply (cr_run _ _ _ _ _ _ _ _ _ _ Hr)|].
  destruct (cr_mem _ _ _ _ _ _ _ _ _ _ Hr) as [Hl Ht]. destruct (cr_dst _ _ _ _ _ _ _ _ _ _ Hr) as (-> & _).
  split; [done|]. rewrite Z.add_0_l in *. rewrite Nat2Z.id in Ht. done.
Qed.

Lemma bin_cl_refines_packets_witness :
  exists ps outs, concat ps = bin sample_job /\ Forall (packet_wf sample_create) ps /\
    packet_run sample_create sample_job (abs_of sample_state) ps outs (abs_of (fst sample_bin_result)) /\
    length (vmem (fst sample_bin_result)) = length (vmem sample_state) /\
    take (length (concat outs)) (vmem (fst sample_bin_result)) = concat outs /\
    snd sample_bin_result = u32 (ct0ca sample_job + Z.of_nat (length (concat outs))).
Proof.
  apply (bin_cl_refines_packets sample_create sample_job sample_state (fst sample_bin_result)
    (snd sample_bin_result) sample_fresh). vm_compute. reflexivity.
Defined.

(** C33: whatever the bytes of the command list, its validation ends, and stays inside the list, the
    memory of the hardware, the array of shader states and that of buffer objects. *)
Theorem bin_cl_validation_total create j s :
  job_ok j -> state_ok j s ->
  (exists s' e, vc4_validate_bin_cl create j s = Done (s', e)) \/
  (exists ret, vc4_validate_bin_cl create j s = Fail ret).
Proof.
  intros Hj Hs. pose proof (bin_cl_defined create j Hj s Hs) as Hd. unfold defined in Hd.
  destruct (vc4_validate_bin_cl create j s) as [[s' e]|ret|]; [left; eauto|right; eauto|done].
Qed.

Lemma bin_cl_validation_total_witness :
  (exists s' e, vc4_validate_bin_cl sample_create sample_job sample_state = Done (s', e)) \/
  (exists ret, vc4_validate_bin_cl sample_create sample_job sample_state = Fail ret).
Proof.
  apply (bin_cl_validation_total sample_create sample_job sample_state).
  - split; [vm_compute; reflexivity|vm_compute; reflexivity| |vm_compute; reflexivity|].
    + vm_compute. repeat (apply Forall_cons_2; [split; [discriminate|reflexivity]|]). apply Forall_nil_2.
    + repeat (apply Forall_cons_2; [by eexists|]). apply Forall_nil_2.
  - split; [apply sample_fresh|vm_compute; discriminate|]. exists 0, 0. split; [reflexivity|lia].
Defined.

(** ** Shader records *)

(** The parameters of a sample: the first two are read from the uniforms of the shader, the other two
    are 0 if the sample does not have them. *)
Definition texture_params (j : job) (ud : Z) (sample : vc4_texture_sample_info) (p0 p1 p2 p3 : Z) : Prop :=
  exists o0 o1 o2 o3, take 4 (p_offset sample) = [o0; o1; o2; o3] /\
    read32 (uniforms j) (ud + o0) = Some p0 /\ read32 (uniforms j) (ud + o1) = Some p1 /\
    (if o2 =? UINT_MAX then p2 = 0 else read32 (uniforms j) (ud + o2) = Some p2) /\
    (if o3 =? UINT_MAX then p3 = 0 else read32 (uniforms j) (ud + o3) = Some p3).

Lemma texture_params_read j ud sample o0 o1 o2 o3 p0 p1 p2 p3 :
  array_get (p_offset sample) 0 = Some o0 -> array_get (p_offset sample) 1 = Some o1 ->
  array_get (p_offset sample) 2 = Some o2 -> array_get (p_offset sample) 3 = Some o3 ->
  read32 (uniforms j) (ud + o0) = Some p0 -> read32 (uniforms j) (ud + o1) = Some p1 ->
  optional_param (uniforms j) ud o2 = Done p2 -> optional_param (uniforms j) ud o3 = Done p3 ->
  texture_params j ud sample p0 p1 p2 p3.
Proof.
  intros [_ H0]%array_get_Some [_ H1]%array_get_Some [_ H2]%array_get_Some [_ H3]%array_get_Some E0 E1 E2 E3.
  change (Z.to_nat 0) with 0%nat in H0. change (Z.to_nat 1) with 1%nat in H1.
  change (Z.to_nat 2) with 2%nat in H2. change (Z.to_nat 3) with 3%nat in H3. exists o0, o1, o2, o3. split.
  - destruct (p_offset sample) as [|x0 [|x1 [|x2 [|x3 l]]]]; try discriminate H0; try discriminate H1; try discriminate H2; try discriminate H3.
    injection H0 as <-. injection H1 as <-. injection H2 as <-. injection H3 as <-. done.
  - split; [done|]. split; [done|]. unfold optional_param in *. split.
    + destruct (o2 =? UINT_MAX); [by injection E2|]. by apply access_Done in E2.
    + destruct (o3 =? UINT_MAX); [by injection E3|]. by apply access_Done in E3.
Qed.

(** C34: an accepted texture relocation stores the address of a data buffer in which the texture
    lies, with the parameters that the uniforms hold at the offsets of the sample: a buffer read directly holds every
    address below the clamp, and for an ordinary texture the base level
    (for a cube map, that of the last face) ends in the buffer and the mipmap levels, in the layout the
    hardware uses, fit before it, unless the offset of the last face exceeds 32 bits.  Buffers have at least 4 and less
    than 2^32 bytes. *)
Theorem reloc_tex_in_buffer j m uv ud sample h m' :
  Forall is_byte (uniforms j) ->
  (forall i tex, array_get (bo j) i = Some (Some tex) -> 4 <= obj_size tex < 2 ^ 32) ->
  reloc_tex j m uv ud sample h = Done m' ->
  exists tex o0 p0 p1 p2 p3, data_bo j h tex /\ texture_params j ud sample p0 p1 p2 p3 /\
    array_get (p_offset sample) 0 = Some o0 /\ write32 m (uv + o0) (u32 (obj_paddr tex + p0)) = Some m' /\
    if is_direct sample then forall clamped, 0 <= clamped <= p1 -> p0 + clamped + 4 <= obj_size tex
    else (forall stride, cube_map_stride p0 p2 p3 = Some stride ->
            Z.land p0 VC4_TEX_P0_OFFSET_MASK + 5 * stride < 2 ^ 32) -> texture_fits tex p0 p1 p2 p3.
Proof.
  intros Hb Hbo H. unfold reloc_tex in H. run_inv H. run_inv_all.
  match goal with E : vc4_use_bo j h = Done ?x |- _ => apply use_bo_data in E as Hd; rename x into tex end.
  exists tex, a, a3, a4, a5, a6. split; [done|]. split; [by eapply texture_params_read|]. split; [done|]. split; [done|].
  pose proof (Hbo _ _ (proj1 (proj2 Hd))) as Hsz.
  match goal with E : negb _ = false |- _ => apply negb_false_iff in E; rename E into Hc end.
  pose proof (read32_range _ _ _ Hb E3) as R0. pose proof (read32_range _ _ _ Hb E4) as R1.
  destruct (is_direct sample).
  - apply check_direct_fits in Hc; [|done..]. intros c Hcl. lia.
  - intros Hst. apply check_texture_fits in Hc; [done|done|done|lia|]. intros stride Hs.
    split; [|by apply Hst]. by eapply cube_map_stride_nonneg.
Qed.

(** A texture of 16 by 16 pixels at offset 4096 with one more level. *)
Definition texture_job : job :=
  Job [Some (CmaObject 8192 65536 None)] 1 [] 0 [] (le32 (4096 + 1) ++ le32 (16 * 2 ^ 20 + 16 * 2 ^ 8)) 8 0 0.
Definition texture_sample : vc4_texture_sample_info := SampleInfo false [0; 4; UINT_MAX; UINT_MAX].

Lemma reloc_tex_in_buffer_witness :
  exists tex o0 p0 p1 p2 p3, data_bo texture_job 0 tex /\ texture_params texture_job 0 texture_sample p0 p1 p2 p3 /\
    array_get (p_offset texture_sample) 0 = Some o0 /\
    write32 (replicate 8 0) (0 + o0) (u32 (obj_paddr tex + p0)) = Some (le32 (65536 + 4096 + 1) ++ le32 0) /\
    if is_direct texture_sample then forall clamped, 0 <= clamped <= p1 -> p0 + clamped + 4 <= obj_size tex
    else (forall stride, cube_map_stride p0 p2 p3 = Some stride ->
            Z.land p0 VC4_TEX_P0_OFFSET_MASK + 5 * stride < 2 ^ 32) -> texture_fits tex p0 p1 p2 p3.
Proof.
  apply (reloc_tex_in_buffer texture_job (replicate 8 0) 0 0 texture_sample 0).
  - vm_compute. repeat (apply Forall_cons_2; [split; [discriminate|reflexivity]|]). apply Forall_nil_2.
  - intros i tex [Hi H]%array_get_Some. cbn in H. destruct (Z.to_nat i) as [|k]; [|discriminate H].
    injection H as <-. cbn. lia.
  - vm_compute. reflexivity.
Defined.

(** ** The whole job *)

(** The arguments of a job: its inputs have the sizes given, the array of shader states the size
    declared, and no buffer fills the address space. *)
Record args_ok (bos : list (option cma_object)) (a : submit_cl) (states : list vc4_shader_state) : Prop := {
  ao_bin : Z.of_nat (length (arg_bin_cl a)) = arg_bin_cl_size a;
  ao_bin_size : 0 < arg_bin_cl_size a < 2 ^ 30;
  ao_recs : 0 <= arg_shader_rec_size a < 2 ^ 32;
  ao_uniforms : 0 <= arg_uniforms_size a < 2 ^ 32;
  ao_states : Z.of_nat (length states) = arg_shader_rec_count a;
  ao_recs_ok : recs_ok (bcl_job bos a 0) }.

Lemma get_bcl_fresh bos a contents states paddr :
  args_ok bos a states -> layout_overflows a = false ->
  fresh_job (bcl_job bos a paddr) (bcl_bin_state a contents states paddr).
Proof.
  intros [H1 H2 H3 H4 H5 _] Hl. assert (arg_shader_rec_count a < UINT_MAX / 8) as Hc.
  { unfold layout_overflows in Hl. rewrite !orb_false_iff, Z.leb_gt in Hl. tauto. }
  split; [exact H1|cbn; lia| |done]. change (UINT_MAX / 8) with 536870911 in Hc.
  split; cbn; lia.
Qed.

(** An accepted job as runs of the two validations. *)
Lemma get_bcl_inv create ok bos a contents states b e r :
  vc4_get_bcl create ok bos a contents states = Done (Some (b, e, r)) ->
  layout_overflows a = false /\ exists exec_bo, create 0%nat (exec_size (bcl_layout a)) = Some exec_bo /\
    let j := bcl_job bos a (obj_paddr exec_bo) in
    vc4_validate_bin_cl create j (bcl_bin_state a contents states (obj_paddr exec_bo)) = Done (b, e) /\
    vc4_validate_shader_recs j (bcl_rec_state a (vmem b) (obj_paddr exec_bo)) b = Done r.
Proof.
  unfold vc4_get_bcl. intros H. destruct (layout_overflows a); [discriminate H|]. split; [done|].
  destruct (negb ok); [discriminate H|]. run_inv H. destruct a1 as [b' e']. run_inv H. run_inv_all.
  subst. exists a0. done.
Qed.

Lemma get_bcl_run create ok bos a contents states b e r :
  args_ok bos a states -> vc4_get_bcl create ok bos a contents states = Done (Some (b, e, r)) ->
  exists paddr ps outs dst', let j := bcl_job bos a paddr in
    cl_run create j (bcl_bin_state a contents states paddr) 0 0 b dst' ps outs (arg_bin_cl_size a) /\
    concat ps = arg_bin_cl a /\ Forall (packet_wf create) ps /\ e = u32 (paddr + dst') /\ cl_wf j b /\
    for_each (validate_gl_shader_rec j) (bcl_rec_state a (vmem b) paddr) (ab_states (abs_of b)) = Done r.
Proof.
  intros Ha H. apply get_bcl_inv in H as (Hl & exec_bo & _ & Hb & Hr). set (paddr := obj_paddr exec_bo) in *.
  pose proof (get_bcl_fresh bos a contents states paddr Ha Hl) as Hf.
  destruct (accepted_run _ _ _ _ _ Hf Hb) as (ps & outs & dst' & Hrun & Hcat & He & _).
  pose proof (cr_cl _ _ _ _ _ _ _ _ _ _ Hrun) as Hwf. rewrite (recs_loop _ _ _ Hwf) in Hr.
  pose proof (cr_wf _ _ _ _ _ _ _ _ _ _ Hrun). exists paddr, ps, outs, dst'. done.
Qed.

(** Only the inputs and buffers of a job matter for its records. *)
Lemma recs_ok_paddr bos a paddr : recs_ok (bcl_job bos a 0) -> recs_ok (bcl_job bos a paddr).
Proof. intros [H1 H2]. by split. Qed.

(** The state in which the records are validated. *)
Lemma rec_state_bounds bos a states paddr m :
  args_ok bos a states -> layout_overflows a = false ->
  0 <= shader_rec_size (bcl_rec_state a m paddr) < 2 ^ 32 /\
  Z.of_nat (Z.to_nat (shader_rec_offset (bcl_layout a))) <= shader_rec_v (bcl_rec_state a m paddr) /\
  Z.of_nat (Z.to_nat (shader_rec_offset (bcl_layout a))) <= uniforms_v (bcl_rec_state a m paddr).
Proof.
  intros [_ H1 H2 H3 _ _] Hl. destruct (layout_fits a Hl) as (L1 & L2 & L3 & L4); [lia..|].
  cbn -[bcl_layout]. lia.
Qed.

(** C35: in an accepted job the command list is a sequence of whole packets of the table, and for each draw call among
    them every vertex up to its largest index is fetched from inside the vertex buffers that the shader
    record of its shader state names. *)
Theorem draws_in_bounds create ok bos a contents states b e r :
  args_ok bos a states -> vc4_get_bcl create ok bos a contents states = Done (Some (b, e, r)) ->
  exists ps, concat ps = arg_bin_cl a /\ Forall (packet_wf create) ps /\
    forall k index, (k, index) ∈ draws 0 ps ->
    exists st, shader_state b !! k = Some st /\
      forall i vertex, 0 <= i < rec_attributes (ss_addr st) -> 0 <= vertex <= index ->
        fetch_in_bounds (bcl_job bos a 0) (recs_bytes (take k (shader_state b))) (ss_addr st) i vertex.
Proof.
  intros Ha H. pose proof (get_bcl_inv _ _ _ _ _ _ _ _ _ H) as [Hl _].
  destruct (get_bcl_run _ _ _ _ _ _ _ _ _ Ha H) as (paddr & ps & outs & dst' & Hrun & Hcat & Hwf & _ & _ & Hr).
  destruct (rec_state_bounds bos a states paddr (vmem b) Ha Hl) as (B1 & B2 & B3).
  destruct (validate_recs_inv _ _ _ _ _ (vmem b) (recs_ok_paddr _ _ paddr (ao_recs_ok _ _ _ Ha)) Hr B1 B2 B3)
    as (_ & _ & _ & _ & Hf); [done|].
  exists ps. split; [done|]. split; [done|]. intros k index Hin.
  destruct (packet_run_draws _ _ _ _ _ _ _ _ (cr_run _ _ _ _ _ _ _ _ _ _ Hrun) Hin) as (st & Hst & Hix).
  pose proof Hst as Hst'. cbn in Hst'. apply lookup_take_Some in Hst' as [Hst' Hk].
  exists st. split; [done|]. intros i vertex Hi Hv.
  replace (take k (shader_state b)) with (take k (ab_states (abs_of b))) by (cbn; rewrite take_take; f_equal; lia).
  apply (Hf k st i vertex); [done|done|lia].
Qed.

Lemma sample_args_ok : args_ok sample_bos (sample_args 24) [ShaderState 0 0].
Proof.
  split; try (vm_compute; done). split.
  - vm_compute. repeat (apply Forall_cons_2; [split; [discriminate|reflexivity]|]). apply Forall_nil_2.
  - intros h obj [_ H]%array_get_Some. cbn in H. destruct (Z.to_nat h) as [|[|k]]; [| |discriminate H];
        injection H as <-; (split; [cbn; lia|]); intros info Hi; [|discriminate Hi]. injection Hi as <-.
      split; cbn; try lia; repeat constructor. lia.
Qed.

Lemma draws_in_bounds_witness :
  exists ps, concat ps = sample_bin /\ Forall (packet_wf sample_create) ps /\
    forall k index, (k, index) ∈ draws 0 ps ->
    exists st, shader_state (fst (fst sample_result)) !! k = Some st /\
      forall i vertex, 0 <= i < rec_attributes (ss_addr st) -> 0 <= vertex <= index ->
        fetch_in_bounds (bcl_job sample_bos (sample_args 24) 0)
          (recs_bytes (take k (shader_state (fst (fst sample_result))))) (ss_addr st) i vertex.
Proof.
  apply (draws_in_bounds sample_create true sample_bos (sample_args 24) (sample_contents 24) [ShaderState 0 0]
    (fst (fst sample_result)) (snd (fst sample_result)) (snd sample_result) sample_args_ok).
  vm_compute. reflexivity.
Defined.

(** C36: the untrusted shader records and uniforms cannot change the validated command list: what the
    hardware finally reads from the start of the memory to [ct0ea] are the packets that were validated, which end
    before the shader records, and the records end before the uniforms. *)
Theorem validated_list_kept create ok bos a contents states b e r :
  args_ok bos a states -> vc4_get_bcl create ok bos a contents states = Done (Some (b, e, r)) ->
  exists paddr ps outs, concat ps = arg_bin_cl a /\ Forall (packet_wf create) ps /\
    packet_run create (bcl_job bos a paddr) (abs_of (bcl_bin_state a contents states paddr)) ps outs (abs_of b) /\
    e = u32 (paddr + Z.of_nat (length (concat outs))) /\
    Z.of_nat (length (concat outs)) <= shader_rec_offset (bcl_layout a) /\
    take (length (concat outs)) (rmem r) = concat outs /\ length (rmem r) = length contents /\
    shader_rec_offset (bcl_layout a) <= shader_rec_v r <= uniforms_offset (bcl_layout a).
Proof.
  intros Ha H. pose proof (get_bcl_inv _ _ _ _ _ _ _ _ _ H) as [Hl _].
  destruct (get_bcl_run _ _ _ _ _ _ _ _ _ Ha H) as (paddr & ps & outs & dst' & Hrun & Hcat & Hwf & He & _ & Hr).
  destruct (rec_state_bounds bos a states paddr (vmem b) Ha Hl) as (B1 & B2 & B3).
  destruct (validate_recs_inv _ _ _ _ _ (vmem b) (recs_ok_paddr _ _ paddr (ao_recs_ok _ _ _ Ha)) Hr B1 B2 B3)
    as ([Hlen Hsame] & Hbytes & Hv & Hroom & _); [done|].
  destruct (cr_mem _ _ _ _ _ _ _ _ _ _ Hrun) as [Hl' Ht]. destruct (cr_dst _ _ _ _ _ _ _ _ _ _ Hrun) as (Ed & _ & Hd).
  pose proof Ha as [_ A1 A2 A3 _ _]. destruct (layout_fits a Hl) as (L1 & L2 & L3 & L4); [lia..|].
  rewrite Z.add_0_l in Ed. subst dst'. rewrite Nat2Z.id in Ht.
  exists paddr, ps, outs. split; [done|]. split; [done|]. split; [by apply (cr_run _ _ _ _ _ _ _ _ _ _ Hrun)|].
  split; [done|]. split; [lia|]. split; [|split; [by rewrite Hlen, Hl'|]].
  - assert (take (length (concat outs)) (rmem r) = take (length (concat outs)) (vmem b)) as ->; [|exact Ht].
    set (n := length (concat outs)) in *.
    replace n with (Nat.min n (Z.to_nat (shader_rec_offset (bcl_layout a)))) by lia.
    rewrite <- !take_take, Hsame. done.
  - rewrite Hv. cbn -[bcl_layout] in *. lia.
Qed.

Lemma validated_list_kept_witness :
  exists paddr ps outs, concat ps = sample_bin /\ Forall (packet_wf sample_create) ps /\
    packet_run sample_create (bcl_job sample_bos (sample_args 24) paddr)
      (abs_of (bcl_bin_state (sample_args 24) (sample_contents 24) [ShaderState 0 0] paddr)) ps outs
      (abs_of (fst (fst sample_result))) /\
    snd (fst sample_result) = u32 (paddr + Z.of_nat (length (concat outs))) /\
    Z.of_nat (length (concat outs)) <= shader_rec_offset (bcl_layout (sample_args 24)) /\
    take (length (concat outs)) (rmem (snd sample_result)) = concat outs /\
    length (rmem (snd sample_result)) = length (sample_contents 24) /\
    shader_rec_offset (bcl_layout (sample_args 24)) <= shader_rec_v (snd sample_result)
      <= uniforms_offset (bcl_layout (sample_args 24)).
Proof.
  apply (validated_list_kept sample_create true sample_bos (sample_args 24) (sample_contents 24) [ShaderState 0 0]
    (fst (fst sample_result)) (snd (fst sample_result)) (snd sample_result) sample_args_ok).
  vm_compute. reflexivity.
Defined.

(** ** Checks that are missing *)

(** The records of the sample with another handle for the fragment shader. *)
Definition args_with_fs (handle : Z) : submit_cl :=
  SubmitCl sample_bin (le32 handle ++ drop 4 sample_recs) (replicate 24 0)
    (Z.of_nat (length sample_bin)) (Z.of_nat (length sample_recs)) 24 1.

(** Jobs that are not refused as they should be. Arguments whose sizes overflow make the function
    return 0 without looking at the command list, here an invalid one; the uniforms of a
    record whose three shaders share a buffer that holds the uniforms of one of them are read past its end, since
    the size left is never reduced; the handle equal to the number of buffers is looked up past the
    end of the array; a buffer that is no shader is used as one through its null shader information; and the stride of a
    cube map is multiplied by 5 in 32 bits: a cube map is accepted whose last face lies beyond its buffer. *)
Example job_checks_escape :
  vc4_get_bcl sample_create true sample_bos (SubmitCl [255] [] [] 1 0 (2 ^ 32 - 1) 0) [] [] = Done None /\
  vc4_get_bcl sample_create true sample_bos (sample_args 8) (sample_contents 8) [ShaderState 0 0] = Undefined /\
  vc4_get_bcl sample_create true sample_bos (args_with_fs 2) (sample_contents 24) [ShaderState 0 0] = Undefined /\
  vc4_get_bcl sample_create true sample_bos (args_with_fs 1) (sample_contents 24) [ShaderState 0 0] = Undefined /\
  let tex := CmaObject 32768 65536 None in
  let p0 := 2 ^ 9 in
  let p1 := 16 * 2 ^ 20 + 16 * 2 ^ 8 in
  let p2 := 2 ^ 30 + 858996736 in
  check_texture tex p0 p1 p2 0 = true /\ cube_map_stride p0 p2 0 = Some 858996736 /\
  ~ texture_fits tex p0 p1 p2 0.
Proof.
  do 4 (split; [vm_compute; reflexivity|]). cbv zeta. do 2 (split; [vm_compute; reflexivity|]).
  intros (stride & cpp & w & h & Es & El & H & _). vm_compute in Es. injection Es as <-.
  vm_compute in El. injection El as <- <- <-. vm_compute in H. by apply H.
Qed.
