(* ===== verification/Vc4Render.v ===== *)
(** * Generation of VC4 rendering command lists
    ([src/gallium/drivers/vc4/kernel/vc4_render_cl.c], and [vc4_cl_validate] of [vc4_gem.c])

    The list of commands for the second half of a job, which renders the tiles, is not
    submitted but written here, from the surfaces and the rectangle of tiles that the
    job names.  The list is written byte by byte into a new buffer object whose size is computed
    first; a write outside it is [Undefined], and so is a failed [BUG_ON]. *)
From S2P Require Import Prelude Bitset QpuPack Vc4Defines Vc4Shader Bytes Vc4Packet Vc4Validate Vc4ShaderRec.

(** ** Data *)

(** [struct drm_vc4_submit_rcl_surface]. *)
Record rcl_surface := RclSurface { sf_hindex : Z; sf_offset : Z; sf_bits : Z; sf_flags : Z }.

Definition VC4_SUBMIT_RCL_SURFACE_READ_IS_FULL_RES : Z := Z.shiftl 1 0.
Definition VC4_SUBMIT_CL_USE_CLEAR_COLOR : Z := Z.shiftl 1 0.
Definition VC4_SUBMIT_CL_FIXED_RCL_ORDER : Z := Z.shiftl 1 1.
Definition VC4_SUBMIT_CL_RCL_ORDER_INCREASING_X : Z := Z.shiftl 1 2.
Definition VC4_SUBMIT_CL_RCL_ORDER_INCREASING_Y : Z := Z.shiftl 1 3.

(** The members of [struct drm_vc4_submit_cl] from [width] on. *)
Record rcl_args := RclArgs {
  width : Z; height : Z; min_x_tile : Z; min_y_tile : Z; max_x_tile : Z; max_y_tile : Z;
  color_read : rcl_surface; color_write : rcl_surface; zs_read : rcl_surface; zs_write : rcl_surface;
  msaa_color_write : rcl_surface; msaa_zs_write : rcl_surface;
  clear_color : Z * Z; clear_z : Z; clear_s : Z; cl_flags : Z }.

(** The members of [struct vc4_exec_info] that the generation reads. *)
Record rcl_exec := RclExec {
  rx_args : rcl_args; rx_job : job; rx_tile_width : Z;
  rx_bin_tiles_x : Z; rx_bin_tiles_y : Z; rx_tile_bo : option cma_object; rx_tile_alloc_offset : Z }.

(** [struct vc4_rcl_setup]: the objects of the surfaces, [None] for those that are not there. *)
Record vc4_rcl_setup := RclSetup {
  st_color_read : option cma_object; st_color_write : option cma_object;
  st_zs_read : option cma_object; st_zs_write : option cma_object;
  st_msaa_color_write : option cma_object; st_msaa_zs_write : option cma_object }.

(** Its last two members: the memory of the list and where the next byte goes. *)
Record rcl_buf := RclBuf { rcl_mem : list Z; next_offset : Z }.

Definition present {A} (o : option A) : bool := match o with Some _ => true | None => false end.

Definition has_bin (x : rcl_exec) : bool := negb (bin_cl_size (rx_job x) =? 0).

Definition is_full_res (s : rcl_surface) : bool :=
  negb (Z.land (sf_flags s) VC4_SUBMIT_RCL_SURFACE_READ_IS_FULL_RES =? 0).

Definition DIV_ROUND_UP (a b : Z) : Z := if a mod b =? 0 then a / b else a / b + 1.

(** ** Writing *)

Definition le16 (x : Z) : list Z := [x mod 256; x / 256 mod 256].

Definition rcl_write (b : rcl_buf) (bs : list Z) : res rcl_buf :=
  m ← access (write_bytes (rcl_mem b) (next_offset b) bs);
  Done (RclBuf m (u32 (next_offset b + Z.of_nat (length bs)))).

Definition rcl_u8 (b : rcl_buf) (val : Z) : res rcl_buf := rcl_write b [u8 val].
Definition rcl_u16 (b : rcl_buf) (val : Z) : res rcl_buf := rcl_write b (le16 (u16 val)).
Definition rcl_u32 (b : rcl_buf) (val : Z) : res rcl_buf := rcl_write b (le32 (u32 val)).

Definition vc4_store_before_load (b : rcl_buf) : res rcl_buf :=
  b ← rcl_u8 b VC4_PACKET_STORE_TILE_BUFFER_GENERAL;
  b ← rcl_u16 b (Z.lor (Z.lor (Z.lor (VC4_SET_FIELD VC4_LOADSTORE_TILE_BUFFER_NONE 2 0)
                   VC4_STORE_TILE_BUFFER_DISABLE_COLOR_CLEAR)
                   VC4_STORE_TILE_BUFFER_DISABLE_ZS_CLEAR)
                   VC4_STORE_TILE_BUFFER_DISABLE_VG_MASK_CLEAR);
  rcl_u32 b 0.

Definition vc4_full_res_offset (x : rcl_exec) (bo : cma_object) (surf : rcl_surface) (tx ty : Z) : Z :=
  u32 (obj_paddr bo + sf_offset surf
       + VC4_TILE_BUFFER_SIZE * (DIV_ROUND_UP (width (rx_args x)) (rx_tile_width x) * ty + tx)).

Definition vc4_tile_coordinates (b : rcl_buf) (tx ty : Z) : res rcl_buf :=
  b ← rcl_u8 b VC4_PACKET_TILE_COORDINATES;
  b ← rcl_u8 b tx;
  rcl_u8 b ty.

(** ** A tile *)

Definition load_color (x : rcl_exec) (st : vc4_rcl_setup) (tx ty : Z) (b : rcl_buf) : res rcl_buf :=
  match st_color_read st with
  | None => Done b
  | Some bo =>
    let surf := color_read (rx_args x) in
    if is_full_res surf then
      b ← rcl_u8 b VC4_PACKET_LOAD_FULL_RES_TILE_BUFFER;
      rcl_u32 b (Z.lor (vc4_full_res_offset x bo surf tx ty) VC4_LOADSTORE_FULL_RES_DISABLE_ZS)
    else
      b ← rcl_u8 b VC4_PACKET_LOAD_TILE_BUFFER_GENERAL;
      b ← rcl_u16 b (sf_bits surf);
      rcl_u32 b (obj_paddr bo + sf_offset surf)
  end.

Definition load_zs (x : rcl_exec) (st : vc4_rcl_setup) (tx ty : Z) (b : rcl_buf) : res rcl_buf :=
  match st_zs_read st with
  | None => Done b
  | Some bo =>
    let surf := zs_read (rx_args x) in
    if is_full_res surf then
      b ← rcl_u8 b VC4_PACKET_LOAD_FULL_RES_TILE_BUFFER;
      rcl_u32 b (Z.lor (vc4_full_res_offset x bo surf tx ty) VC4_LOADSTORE_FULL_RES_DISABLE_COLOR)
    else
      b ← (if present (st_color_read st) then
             b ← vc4_tile_coordinates b tx ty; vc4_store_before_load b
           else Done b);
      b ← rcl_u8 b VC4_PACKET_LOAD_TILE_BUFFER_GENERAL;
      b ← rcl_u16 b (sf_bits surf);
      rcl_u32 b (obj_paddr bo + sf_offset surf)
  end.

(** Waiting for the binner and running the list it made for the tile. *)
Definition run_tile_list (x : rcl_exec) (tx ty : Z) (first : bool) (b : rcl_buf) : res rcl_buf :=
  b ← (if first && has_bin x then rcl_u8 b VC4_PACKET_WAIT_ON_SEMAPHORE else Done b);
  if has_bin x then
    b ← rcl_u8 b VC4_PACKET_BRANCH_TO_SUB_LIST;
    tile_bo ← access (rx_tile_bo x);
    rcl_u32 b (obj_paddr tile_bo + rx_tile_alloc_offset x + (ty * rx_bin_tiles_x x + tx) * 32)
  else Done b.

(** The low bits of a full-resolution store. *)
Definition full_res_bits (bits : Z) (last_tile_write last : bool) : Z :=
  if negb last_tile_write then Z.lor bits VC4_LOADSTORE_FULL_RES_DISABLE_CLEAR_ALL
  else if last then Z.lor bits VC4_LOADSTORE_FULL_RES_EOF else bits.

Definition store_msaa_color (x : rcl_exec) (st : vc4_rcl_setup) (tx ty : Z) (last : bool) (b : rcl_buf)
    : res rcl_buf :=
  match st_msaa_color_write st with
  | None => Done b
  | Some bo =>
    let last_tile_write := negb (present (st_msaa_zs_write st)) && negb (present (st_zs_write st))
                           && negb (present (st_color_write st)) in
    b ← rcl_u8 b VC4_PACKET_STORE_FULL_RES_TILE_BUFFER;
    rcl_u32 b (Z.lor (vc4_full_res_offset x bo (msaa_color_write (rx_args x)) tx ty)
                 (full_res_bits VC4_LOADSTORE_FULL_RES_DISABLE_ZS last_tile_write last))
  end.

Definition store_msaa_zs (x : rcl_exec) (st : vc4_rcl_setup) (tx ty : Z) (last : bool) (b : rcl_buf)
    : res rcl_buf :=
  match st_msaa_zs_write st with
  | None => Done b
  | Some bo =>
    let last_tile_write := negb (present (st_zs_write st)) && negb (present (st_color_write st)) in
    b ← (if present (st_msaa_color_write st) then vc4_tile_coordinates b tx ty else Done b);
    b ← rcl_u8 b VC4_PACKET_STORE_FULL_RES_TILE_BUFFER;
    rcl_u32 b (Z.lor (vc4_full_res_offset x bo (msaa_zs_write (rx_args x)) tx ty)
                 (full_res_bits VC4_LOADSTORE_FULL_RES_DISABLE_COLOR last_tile_write last))
  end.

Definition store_zs (x : rcl_exec) (st : vc4_rcl_setup) (tx ty : Z) (last : bool) (b : rcl_buf)
    : res rcl_buf :=
  match st_zs_write st with
  | None => Done b
  | Some bo =>
    let surf := zs_write (rx_args x) in
    let last_tile_write := negb (present (st_color_write st)) in
    b ← (if present (st_msaa_color_write st) || present (st_msaa_zs_write st)
         then vc4_tile_coordinates b tx ty else Done b);
    b ← rcl_u8 b VC4_PACKET_STORE_TILE_BUFFER_GENERAL;
    b ← rcl_u16 b (Z.lor (sf_bits surf)
                     (if last_tile_write then 0 else VC4_STORE_TILE_BUFFER_DISABLE_COLOR_CLEAR));
    rcl_u32 b (Z.lor (u32 (obj_paddr bo + sf_offset surf))
                 (if last && last_tile_write then VC4_LOADSTORE_TILE_BUFFER_EOF else 0))
  end.

Definition store_color (st : vc4_rcl_setup) (tx ty : Z) (last : bool) (b : rcl_buf) : res rcl_buf :=
  match st_color_write st with
  | None => Done b
  | Some _ =>
    b ← (if present (st_msaa_color_write st) || present (st_msaa_zs_write st) || present (st_zs_write st)
         then vc4_tile_coordinates b tx ty else Done b);
    rcl_u8 b (if last then VC4_PACKET_STORE_MS_TILE_BUFFER_AND_EOF else VC4_PACKET_STORE_MS_TILE_BUFFER)
  end.

Definition emit_tile (x : rcl_exec) (st : vc4_rcl_setup) (b : rcl_buf) (tx ty : Z) (first last : bool)
    : res rcl_buf :=
  b ← load_color x st tx ty b;
  b ← load_zs x st tx ty b;
  b ← vc4_tile_coordinates b tx ty;
  b ← run_tile_list x tx ty first b;
  b ← store_msaa_color x st tx ty last b;
  b ← store_msaa_zs x st tx ty last b;
  b ← store_zs x st tx ty last b;
  store_color st tx ty last b.

(** ** The list *)

(** The sum of the sizes of the packets of a tile. *)
Definition loop_body_size (x : rcl_exec) (st : vc4_rcl_setup) : Z :=
  let a := rx_args x in
  let size := VC4_PACKET_TILE_COORDINATES_SIZE in
  let size := size + (if present (st_color_read st) then
    if is_full_res (color_read a) then VC4_PACKET_LOAD_FULL_RES_TILE_BUFFER_SIZE
    else VC4_PACKET_LOAD_TILE_BUFFER_GENERAL_SIZE else 0) in
  let size := size + (if present (st_zs_read st) then
    if is_full_res (zs_read a) then VC4_PACKET_LOAD_FULL_RES_TILE_BUFFER_SIZE
    else (if present (st_color_read st) && negb (is_full_res (color_read a))
          then VC4_PACKET_TILE_COORDINATES_SIZE + VC4_PACKET_STORE_TILE_BUFFER_GENERAL_SIZE else 0)
         + VC4_PACKET_LOAD_TILE_BUFFER_GENERAL_SIZE else 0) in
  let size := size + (if has_bin x then VC4_PACKET_BRANCH_TO_SUB_LIST_SIZE else 0) in
  let size := size + (if present (st_msaa_color_write st) then VC4_PACKET_STORE_FULL_RES_TILE_BUFFER_SIZE else 0) in
  let size := size + (if present (st_msaa_zs_write st) then VC4_PACKET_STORE_FULL_RES_TILE_BUFFER_SIZE else 0) in
  let size := size + (if present (st_zs_write st) then VC4_PACKET_STORE_TILE_BUFFER_GENERAL_SIZE else 0) in
  let size := size + (if present (st_color_write st) then VC4_PACKET_STORE_MS_TILE_BUFFER_SIZE else 0) in
  u32 (size + VC4_PACKET_TILE_COORDINATES_SIZE *
    (Z.b2z (present (st_msaa_color_write st)) + Z.b2z (present (st_msaa_zs_write st))
     + Z.b2z (present (st_color_write st)) + Z.b2z (present (st_zs_write st)) - 1)).

Definition use_clear_color (x : rcl_exec) : bool :=
  negb (Z.land (cl_flags (rx_args x)) VC4_SUBMIT_CL_USE_CLEAR_COLOR =? 0).

Definition xtiles (x : rcl_exec) : Z := u8 (max_x_tile (rx_args x) - min_x_tile (rx_args x) + 1).
Definition ytiles (x : rcl_exec) : Z := u8 (max_y_tile (rx_args x) - min_y_tile (rx_args x) + 1).

Definition rcl_size (x : rcl_exec) (st : vc4_rcl_setup) : Z :=
  u32 (VC4_PACKET_TILE_RENDERING_MODE_CONFIG_SIZE
    + (if use_clear_color x then VC4_PACKET_CLEAR_COLORS_SIZE + VC4_PACKET_TILE_COORDINATES_SIZE
                                 + VC4_PACKET_STORE_TILE_BUFFER_GENERAL_SIZE else 0)
    + (if has_bin x then VC4_PACKET_WAIT_ON_SEMAPHORE_SIZE else 0)
    + xtiles x * ytiles x * loop_body_size x st).

(** Whether the flags let the coordinate increase. *)
Definition positive (x : rcl_exec) (increasing : Z) : bool :=
  (Z.land (cl_flags (rx_args x)) VC4_SUBMIT_CL_FIXED_RCL_ORDER =? 0)
  || negb (Z.land (cl_flags (rx_args x)) increasing =? 0).

Definition positive_x (x : rcl_exec) : bool := positive x VC4_SUBMIT_CL_RCL_ORDER_INCREASING_X.
Definition positive_y (x : rcl_exec) : bool := positive x VC4_SUBMIT_CL_RCL_ORDER_INCREASING_Y.

Definition emit_config (x : rcl_exec) (st : vc4_rcl_setup) (b : rcl_buf) : res rcl_buf :=
  let a := rx_args x in
  b ← rcl_u8 b VC4_PACKET_TILE_RENDERING_MODE_CONFIG;
  b ← rcl_u32 b (match st_color_write st with
                 | Some bo => obj_paddr bo + sf_offset (color_write a) | None => 0 end);
  b ← rcl_u16 b (width a);
  b ← rcl_u16 b (height a);
  rcl_u16 b (sf_bits (color_write a)).

Definition emit_clear (x : rcl_exec) (b : rcl_buf) : res rcl_buf :=
  let a := rx_args x in
  if use_clear_color x then
    b ← rcl_u8 b VC4_PACKET_CLEAR_COLORS;
    b ← rcl_u32 b (fst (clear_color a));
    b ← rcl_u32 b (snd (clear_color a));
    b ← rcl_u32 b (clear_z a);
    b ← rcl_u8 b (clear_s a);
    b ← vc4_tile_coordinates b 0 0;
    b ← rcl_u8 b VC4_PACKET_STORE_TILE_BUFFER_GENERAL;
    b ← rcl_u16 b VC4_LOADSTORE_TILE_BUFFER_NONE;
    rcl_u32 b 0
  else Done b.

(** The body of the two loops. *)
Definition emit_tile_at (x : rcl_exec) (st : vc4_rcl_setup) (yi : Z) (b : rcl_buf) (xi : Z) : res rcl_buf :=
  let a := rx_args x in
  let ty := if positive_y x then min_y_tile a + yi else max_y_tile a - yi in
  let tx := if positive_x x then min_x_tile a + xi else max_x_tile a - xi in
  let first := (xi =? 0) && (yi =? 0) in
  let last := (xi =? xtiles x - 1) && (yi =? ytiles x - 1) in
  emit_tile x st b (u8 tx) (u8 ty) first last.

Definition emit_tiles (x : rcl_exec) (st : vc4_rcl_setup) (b : rcl_buf) : res rcl_buf :=
  for_each (fun b yi => for_each (emit_tile_at x st yi) b (zrange 0 (Z.to_nat (xtiles x))))
    b (zrange 0 (Z.to_nat (ytiles x))).

Section Render.

(** The object created by the [n]-th call for a size, and what new memory holds. *)
Context (drm_gem_cma_create : nat -> Z -> option cma_object) (contents : Z -> list Z).

(** The list, where the hardware finds it and where it ends. *)
Definition vc4_create_rcl_bo (x : rcl_exec) (st : vc4_rcl_setup) : res (list Z * Z * Z) :=
  let size := rcl_size x st in
  match drm_gem_cma_create 2 size with
  | None => Fail (- ENOMEM)
  | Some rcl =>
    b ← emit_config x st (RclBuf (contents size) 0);
    b ← emit_clear x b;
    b ← emit_tiles x st b;
    if negb (next_offset b =? size) then Undefined else
    Done (rcl_mem b, obj_paddr rcl, u32 (obj_paddr rcl + next_offset b))
  end.

(** ** The surfaces *)

Definition vc4_full_res_bounds_check (x : rcl_exec) (obj : cma_object) (surf : rcl_surface) : res unit :=
  let a := rx_args x in
  let render_tiles_stride := DIV_ROUND_UP (width a) (rx_tile_width x) in
  _ ← reject_if (obj_size obj <? sf_offset surf);
  reject_if ((obj_size obj - sf_offset surf) / VC4_TILE_BUFFER_SIZE
             <? u32 (render_tiles_stride * max_y_tile a + max_x_tile a)).

Definition vc4_rcl_msaa_surface_setup (x : rcl_exec) (surf : rcl_surface) : res (option cma_object) :=
  _ ← reject_if (negb (sf_flags surf =? 0) || negb (sf_bits surf =? 0));
  if sf_hindex surf =? UINT_MAX then Done None else
  obj ← vc4_use_bo (rx_job x) (sf_hindex surf);
  _ ← reject_if (negb (Z.land (sf_offset surf) 15 =? 0));
  _ ← vc4_full_res_bounds_check x obj surf;
  Done (Some obj).

(** Bytes per pixel for the fields of a general load or store. *)
Definition loadstore_cpp (buffer format : Z) : res Z :=
  if buffer =? VC4_LOADSTORE_TILE_BUFFER_ZS then
    if negb (format =? 0) then Fail (- EINVAL) else Done 4
  else if buffer =? VC4_LOADSTORE_TILE_BUFFER_COLOR then
    if (format =? VC4_LOADSTORE_TILE_BUFFER_BGR565) || (format =? VC4_LOADSTORE_TILE_BUFFER_BGR565_DITHER)
    then Done 2
    else if format =? VC4_LOADSTORE_TILE_BUFFER_RGBA8888 then Done 4
    else Fail (- EINVAL)
  else Fail (- EINVAL).

(** [is_zs_write]: whether the surface is that of [zs_write]. *)
Definition vc4_rcl_surface_setup (x : rcl_exec) (surf : rcl_surface) (is_zs_write : bool)
    : res (option cma_object) :=
  let a := rx_args x in
  let bits := sf_bits surf in
  let tiling := VC4_GET_FIELD bits 5 4 in
  let buffer := VC4_GET_FIELD bits 2 0 in
  let format := VC4_GET_FIELD bits 9 8 in
  _ ← reject_if (negb (Z.land (sf_flags surf) (Z.lnot VC4_SUBMIT_RCL_SURFACE_READ_IS_FULL_RES) =? 0));
  if sf_hindex surf =? UINT_MAX then Done None else
  obj ← vc4_use_bo (rx_job x) (sf_hindex surf);
  if is_full_res surf then
    _ ← reject_if is_zs_write;
    _ ← reject_if (negb (bits =? 0));
    match vc4_full_res_bounds_check x obj surf with
    | Undefined => Undefined
    | _ => Done (Some obj)
    end
  else
  _ ← reject_if (negb (Z.land bits (Z.lnot (Z.lor (Z.lor VC4_LOADSTORE_TILE_BUFFER_TILING_MASK
                   VC4_LOADSTORE_TILE_BUFFER_BUFFER_MASK) VC4_LOADSTORE_TILE_BUFFER_FORMAT_MASK)) =? 0));
  _ ← reject_if (VC4_TILING_FORMAT_LT <? tiling);
  cpp ← loadstore_cpp buffer format;
  _ ← reject_if (negb (Z.land (sf_offset surf) 15 =? 0));
  _ ← reject_if (negb (vc4_check_tex_size obj (sf_offset surf) tiling (width a) (height a) cpp));
  Done (Some obj).

Definition render_config_cpp (format : Z) : res Z :=
  if (format =? VC4_RENDER_CONFIG_FORMAT_BGR565_DITHERED) || (format =? VC4_RENDER_CONFIG_FORMAT_BGR565)
  then Done 2
  else if format =? VC4_RENDER_CONFIG_FORMAT_RGBA8888 then Done 4
  else Fail (- EINVAL).

Definition vc4_rcl_render_config_surface_setup (x : rcl_exec) (surf : rcl_surface) : res (option cma_object) :=
  let a := rx_args x in
  let bits := sf_bits surf in
  let tiling := VC4_GET_FIELD bits 7 6 in
  let format := VC4_GET_FIELD bits 3 2 in
  _ ← reject_if (negb (sf_flags surf =? 0));
  _ ← reject_if (negb (Z.land bits (Z.lnot (Z.lor (Z.lor (Z.lor VC4_RENDER_CONFIG_MEMORY_FORMAT_MASK
                   VC4_RENDER_CONFIG_FORMAT_MASK) VC4_RENDER_CONFIG_MS_MODE_4X)
                   VC4_RENDER_CONFIG_DECIMATE_MODE_4X)) =? 0));
  if sf_hindex surf =? UINT_MAX then Done None else
  obj ← vc4_use_bo (rx_job x) (sf_hindex surf);
  _ ← reject_if (VC4_TILING_FORMAT_LT <? tiling);
  cpp ← render_config_cpp format;
  _ ← reject_if (negb (vc4_check_tex_size obj (sf_offset surf) tiling (width a) (height a) cpp));
  Done (Some obj).

(** The objects of all surfaces. *)
Definition rcl_setup (x : rcl_exec) : res vc4_rcl_setup :=
  let a := rx_args x in
  color_write ← vc4_rcl_render_config_surface_setup x (color_write a);
  color_read ← vc4_rcl_surface_setup x (color_read a) false;
  zs_read ← vc4_rcl_surface_setup x (zs_read a) false;
  zs_write ← vc4_rcl_surface_setup x (zs_write a) true;
  msaa_color_write ← vc4_rcl_msaa_surface_setup x (msaa_color_write a);
  msaa_zs_write ← vc4_rcl_msaa_surface_setup x (msaa_zs_write a);
  _ ← reject_if (negb (present color_write) && negb (present zs_write)
                 && negb (present msaa_color_write) && negb (present msaa_zs_write));
  Done (RclSetup color_read color_write zs_read zs_write msaa_color_write msaa_zs_write).

(** ** The whole job *)

Definition vc4_get_rcl (x : rcl_exec) : res (list Z * Z * Z) :=
  let a := rx_args x in
  _ ← reject_if ((max_x_tile a <? min_x_tile a) || (max_y_tile a <? min_y_tile a));
  _ ← reject_if (has_bin x && ((rx_bin_tiles_x x <? max_x_tile a) || (rx_bin_tiles_y x <? max_y_tile a)));
  st ← rcl_setup x;
  vc4_create_rcl_bo x st.

(** What [vc4_get_bcl] leaves for the rendering list. *)
Definition exec_after (ra : rcl_args) (j : job) (b : option bin_state) : rcl_exec :=
  let tile_width := if negb (Z.land (sf_bits (color_write ra)) VC4_RENDER_CONFIG_MS_MODE_4X =? 0) then 32 else 64 in
  match b with
  | Some b => RclExec ra j tile_width (bin_tiles_x b) (bin_tiles_y b) (tile_bo b) (tile_alloc_offset b)
  | None => RclExec ra j tile_width 0 0 None 0
  end.

(** The validated binning part, if there is one, and the rendering list. *)
Definition vc4_cl_validate (kmalloc_ok : bool) (bos : list (option cma_object)) (a : submit_cl) (ra : rcl_args)
    (exec_contents : list Z) (states : list vc4_shader_state)
    : res (option (bin_state * Z * rec_state) * (list Z * Z * Z)) :=
  r ← (if negb (arg_bin_cl_size a =? 0)
       then vc4_get_bcl drm_gem_cma_create kmalloc_ok bos a exec_contents states else Done None);
  rcl ← vc4_get_rcl (exec_after ra (bcl_job bos a 0) (fst ∘ fst <$> r));
  Done (r, rcl).

End Render.
