(* ===== verification/Vc4RenderList.v ===== *)
(** * The bytes of a rendering list

    What the functions that generate a rendering list write, as a sequence of packets.  Each
    function appends the bytes of its packets where the list ends so far, provided the
    buffer has room. *)
From S2P Require Import Prelude Bitset QpuPack Vc4Defines Vc4Shader Bytes Vc4Packet Vc4Validate Vc4ShaderRec Vc4Render.

(** ** Packets *)

Inductive rcl_packet :=
  | RenderingConfig (addr w h bits : Z)
  | ClearColors (c0 c1 z s : Z)
  | TileCoordinates (tx ty : Z)
  | StoreGeneral (bits word : Z)
  | LoadGeneral (bits word : Z)
  | StoreFullRes (word : Z)
  | LoadFullRes (word : Z)
  | StoreMs (eof : bool)
  | WaitSemaphore
  | BranchToSubList (addr : Z).

Definition encode (p : rcl_packet) : list Z :=
  match p with
  | RenderingConfig addr w h bits =>
    VC4_PACKET_TILE_RENDERING_MODE_CONFIG :: le32 (u32 addr) ++ le16 (u16 w) ++ le16 (u16 h) ++ le16 (u16 bits)
  | ClearColors c0 c1 z s => VC4_PACKET_CLEAR_COLORS :: le32 (u32 c0) ++ le32 (u32 c1) ++ le32 (u32 z) ++ [u8 s]
  | TileCoordinates tx ty => [VC4_PACKET_TILE_COORDINATES; u8 tx; u8 ty]
  | StoreGeneral bits word => VC4_PACKET_STORE_TILE_BUFFER_GENERAL :: le16 (u16 bits) ++ le32 (u32 word)
  | LoadGeneral bits word => VC4_PACKET_LOAD_TILE_BUFFER_GENERAL :: le16 (u16 bits) ++ le32 (u32 word)
  | StoreFullRes word => VC4_PACKET_STORE_FULL_RES_TILE_BUFFER :: le32 (u32 word)
  | LoadFullRes word => VC4_PACKET_LOAD_FULL_RES_TILE_BUFFER :: le32 (u32 word)
  | StoreMs eof => [if eof then VC4_PACKET_STORE_MS_TILE_BUFFER_AND_EOF else VC4_PACKET_STORE_MS_TILE_BUFFER]
  | WaitSemaphore => [VC4_PACKET_WAIT_ON_SEMAPHORE]
  | BranchToSubList addr => VC4_PACKET_BRANCH_TO_SUB_LIST :: le32 (u32 addr)
  end.

Definition encode_list (ps : list rcl_packet) : list Z := concat (encode <$> ps).

Lemma encode_list_app ps qs : encode_list (ps ++ qs) = encode_list ps ++ encode_list qs.
Proof. unfold encode_list. by rewrite fmap_app, concat_app. Qed.

(** ** Appending bytes *)

(** The list so far is [pre], and there is room for [n] more bytes. *)
Definition at_pos (b : rcl_buf) (pre : list Z) (n : nat) : Prop :=
  exists rest, rcl_mem b = pre ++ rest /\ length rest = n /\ next_offset b = Z.of_nat (length pre) /\
    Z.of_nat (length pre + n) < 2 ^ 32.

Definition emits (f : rcl_buf -> res rcl_buf) (bs : list Z) : Prop :=
  forall b pre n, at_pos b pre (length bs + n) -> exists b', f b = Done b' /\ at_pos b' (pre ++ bs) n.

Lemma emits_write bs : emits (fun b => rcl_write b bs) bs.
Proof.
  intros [m o] pre n (rest & Em & Hr & Eo & Hl). cbn [rcl_mem next_offset] in *. subst o m.
  unfold rcl_write. cbn [rcl_mem next_offset].
  rewrite write_bytes_Some by (rewrite ?length_app; lia). cbn [access mbind res_bind].
  eexists. split; [done|]. exists (drop (length bs) rest). cbn [rcl_mem next_offset]. split; [|split; [|split]].
  - rewrite Nat2Z.id, take_app_length, drop_app_ge by lia. rewrite <- app_assoc. do 3 f_equal. lia.
  - rewrite length_drop. lia.
  - rewrite u32_small by lia. rewrite length_app. lia.
  - rewrite length_app. lia.
Qed.

Lemma emits_bind f g bs cs : emits f bs -> emits g cs -> emits (fun b => f b ≫= g) (bs ++ cs).
Proof.
  intros Hf Hg b pre n H. rewrite length_app, <- Nat.add_assoc in H. apply Hf in H as (b1 & -> & H).
  apply Hg in H as (b2 & E & H). exists b2. cbn [mbind res_bind]. by rewrite app_assoc.
Qed.

Lemma emits_ret : emits (fun b => Done b) [].
Proof. intros b pre n H. exists b. by rewrite app_nil_r. Qed.

Lemma emits_eq f bs cs : emits f bs -> bs = cs -> emits f cs.
Proof. by intros H <-. Qed.

Lemma emits_for_each {A} (f : rcl_buf -> A -> res rcl_buf) (bs : A -> list Z) l :
  (forall a, a ∈ l -> emits (fun b => f b a) (bs a)) -> emits (fun b => for_each f b l) (concat (bs <$> l)).
Proof.
  induction l as [|a l IH]; intros H; cbn [for_each fmap list_fmap concat]; [apply emits_ret|].
  apply (emits_bind (fun b => f b a) (fun b => for_each f b l)); [apply H; by left|]. apply IH. intros c Hc. apply H. by right.
Qed.

(** Takes a function that writes apart. *)
Ltac emit_step :=
  lazymatch goal with
  | |- emits (fun b => @?f b ≫= ?g) _ => eapply (emits_bind f g)
  | |- emits (fun b => rcl_u8 b ?v) _ => apply (emits_write [u8 v])
  | |- emits (fun b => rcl_u16 b ?v) _ => apply (emits_write (le16 (u16 v)))
  | |- emits (fun b => rcl_u32 b ?v) _ => apply (emits_write (le32 (u32 v)))
  | |- emits (fun b => vc4_tile_coordinates b ?x ?y) _ => unfold vc4_tile_coordinates
  | |- emits (fun b => vc4_store_before_load b) _ => unfold vc4_store_before_load
  | |- emits vc4_store_before_load _ => unfold vc4_store_before_load
  | |- emits (fun b => Done b) _ => apply emits_ret
  end.
Ltac emit := eapply emits_eq; [repeat emit_step|].

(** ** The packets of a tile *)

(** The store of nothing that ends a load. *)
Definition no_store : rcl_packet :=
  StoreGeneral (Z.lor (Z.lor (Z.lor (VC4_SET_FIELD VC4_LOADSTORE_TILE_BUFFER_NONE 2 0)
    VC4_STORE_TILE_BUFFER_DISABLE_COLOR_CLEAR) VC4_STORE_TILE_BUFFER_DISABLE_ZS_CLEAR)
    VC4_STORE_TILE_BUFFER_DISABLE_VG_MASK_CLEAR) 0.

Section Packets.

Context (x : rcl_exec) (st : vc4_rcl_setup).

Definition color_load_packets (tx ty : Z) : list rcl_packet :=
  let surf := color_read (rx_args x) in
  match st_color_read st with
  | None => []
  | Some bo =>
    if is_full_res surf
    then [LoadFullRes (Z.lor (vc4_full_res_offset x bo surf tx ty) VC4_LOADSTORE_FULL_RES_DISABLE_ZS)]
    else [LoadGeneral (sf_bits surf) (obj_paddr bo + sf_offset surf)]
  end.

Definition zs_load_packets (tx ty : Z) : list rcl_packet :=
  let surf := zs_read (rx_args x) in
  match st_zs_read st with
  | None => []
  | Some bo =>
    if is_full_res surf
    then [LoadFullRes (Z.lor (vc4_full_res_offset x bo surf tx ty) VC4_LOADSTORE_FULL_RES_DISABLE_COLOR)]
    else (if present (st_color_read st) then [TileCoordinates tx ty; no_store] else [])
         ++ [LoadGeneral (sf_bits surf) (obj_paddr bo + sf_offset surf)]
  end.

(** The list of the binner for a tile. *)
Definition sub_list (tile : cma_object) (tx ty : Z) : Z :=
  obj_paddr tile + rx_tile_alloc_offset x + (ty * rx_bin_tiles_x x + tx) * 32.

Definition bin_packets (tx ty : Z) (first : bool) : list rcl_packet :=
  match rx_tile_bo x with
  | Some tile => if has_bin x
    then (if first then [WaitSemaphore] else []) ++ [BranchToSubList (sub_list tile tx ty)] else []
  | None => []
  end.

(** The coordinates again, before a store that is not the first. *)
Definition again (other : bool) (tx ty : Z) : list rcl_packet := if other then [TileCoordinates tx ty] else [].

Definition msaa_color_packets (tx ty : Z) (last : bool) : list rcl_packet :=
  match st_msaa_color_write st with
  | None => []
  | Some bo =>
    [StoreFullRes (Z.lor (vc4_full_res_offset x bo (msaa_color_write (rx_args x)) tx ty)
       (full_res_bits VC4_LOADSTORE_FULL_RES_DISABLE_ZS
          (negb (present (st_msaa_zs_write st)) && negb (present (st_zs_write st)) && negb (present (st_color_write st)))
          last))]
  end.

Definition msaa_zs_packets (tx ty : Z) (last : bool) : list rcl_packet :=
  match st_msaa_zs_write st with
  | None => []
  | Some bo =>
    again (present (st_msaa_color_write st)) tx ty ++
    [StoreFullRes (Z.lor (vc4_full_res_offset x bo (msaa_zs_write (rx_args x)) tx ty)
       (full_res_bits VC4_LOADSTORE_FULL_RES_DISABLE_COLOR
          (negb (present (st_zs_write st)) && negb (present (st_color_write st))) last))]
  end.

Definition zs_packets (tx ty : Z) (last : bool) : list rcl_packet :=
  let surf := zs_write (rx_args x) in
  match st_zs_write st with
  | None => []
  | Some bo =>
    again (present (st_msaa_color_write st) || present (st_msaa_zs_write st)) tx ty ++
    [StoreGeneral (Z.lor (sf_bits surf)
        (if negb (present (st_color_write st)) then 0 else VC4_STORE_TILE_BUFFER_DISABLE_COLOR_CLEAR))
      (Z.lor (u32 (obj_paddr bo + sf_offset surf))
        (if last && negb (present (st_color_write st)) then VC4_LOADSTORE_TILE_BUFFER_EOF else 0))]
  end.

Definition color_packets (tx ty : Z) (last : bool) : list rcl_packet :=
  match st_color_write st with
  | None => []
  | Some _ =>
    again (present (st_msaa_color_write st) || present (st_msaa_zs_write st) || present (st_zs_write st)) tx ty
    ++ [StoreMs last]
  end.

Definition tile_packets (tx ty : Z) (first last : bool) : list rcl_packet :=
  color_load_packets tx ty ++ zs_load_packets tx ty ++ [TileCoordinates tx ty] ++ bin_packets tx ty first ++
  msaa_color_packets tx ty last ++ msaa_zs_packets tx ty last ++ zs_packets tx ty last ++ color_packets tx ty last.

(** ** What is written for a tile *)

Lemma load_color_emits tx ty : emits (load_color x st tx ty) (encode_list (color_load_packets tx ty)).
Proof.
  unfold load_color, color_load_packets. destruct (st_color_read st); [|apply emits_ret].
  destruct (is_full_res _); emit; done.
Qed.

Lemma load_zs_emits tx ty : emits (load_zs x st tx ty) (encode_list (zs_load_packets tx ty)).
Proof.
  unfold load_zs, zs_load_packets. destruct (st_zs_read st); [|apply emits_ret].
  destruct (is_full_res _); [emit; done|]. destruct (present (st_color_read st)); emit; done.
Qed.

Lemma run_tile_list_emits tx ty first :
  (has_bin x = true -> is_Some (rx_tile_bo x)) ->
  emits (run_tile_list x tx ty first) (encode_list (bin_packets tx ty first)).
Proof.
  intros Ht. unfold run_tile_list, bin_packets. destruct (has_bin x).
  - destruct Ht as [tile ->]; [done|]. cbn [access mbind res_bind]. destruct first; cbn [andb]; emit; done.
  - rewrite andb_false_r. replace (match rx_tile_bo x with Some _ => [] | None => [] end) with (@nil rcl_packet)
      by (by destruct (rx_tile_bo x)). emit. done.
Qed.

Lemma store_msaa_color_emits tx ty last :
  emits (store_msaa_color x st tx ty last) (encode_list (msaa_color_packets tx ty last)).
Proof. unfold store_msaa_color, msaa_color_packets. destruct (st_msaa_color_write st); [|apply emits_ret]. emit; done. Qed.

Lemma store_msaa_zs_emits tx ty last :
  emits (store_msaa_zs x st tx ty last) (encode_list (msaa_zs_packets tx ty last)).
Proof.
  unfold store_msaa_zs, msaa_zs_packets, again. destruct (st_msaa_zs_write st); [|apply emits_ret].
  destruct (present (st_msaa_color_write st)); emit; done.
Qed.

Lemma store_zs_emits tx ty last : emits (store_zs x st tx ty last) (encode_list (zs_packets tx ty last)).
Proof.
  unfold store_zs, zs_packets, again. destruct (st_zs_write st); [|apply emits_ret].
  destruct (present (st_msaa_color_write st) || present (st_msaa_zs_write st)); emit; done.
Qed.

Lemma store_color_emits tx ty last : emits (store_color st tx ty last) (encode_list (color_packets tx ty last)).
Proof.
  unfold store_color, color_packets, again. destruct (st_color_write st); [|apply emits_ret].
  destruct (present (st_msaa_color_write st) || present (st_msaa_zs_write st) || present (st_zs_write st)), last; emit; done.
Qed.

Lemma emit_tile_emits tx ty first last :
  (has_bin x = true -> is_Some (rx_tile_bo x)) ->
  emits (fun b => emit_tile x st b tx ty first last) (encode_list (tile_packets tx ty first last)).
Proof.
  intros Ht. unfold emit_tile, tile_packets. rewrite !encode_list_app.
  apply (emits_bind (load_color x st tx ty)); [apply load_color_emits|].
  apply (emits_bind (load_zs x st tx ty)); [apply load_zs_emits|].
  apply (emits_bind (fun b => vc4_tile_coordinates b tx ty)); [emit; done|].
  apply (emits_bind (run_tile_list x tx ty first)); [by apply run_tile_list_emits|].
  apply (emits_bind (store_msaa_color x st tx ty last)); [apply store_msaa_color_emits|].
  apply (emits_bind (store_msaa_zs x st tx ty last)); [apply store_msaa_zs_emits|].
  apply (emits_bind (store_zs x st tx ty last)); [apply store_zs_emits|apply store_color_emits].
Qed.

End Packets.

(** ** The packets of all tiles *)

(** The coordinates in the order they are rendered. *)
Definition rcl_coords (increasing : bool) (lo hi : Z) : list Z :=
  (fun i => if increasing then lo + i else hi - i) <$> zrange 0 (Z.to_nat (hi - lo + 1)).

Definition rcl_tiles (x : rcl_exec) : list (Z * Z) :=
  let a := rx_args x in
  concat ((fun ty => (fun tx => (tx, ty)) <$> rcl_coords (positive_x x) (min_x_tile a) (max_x_tile a))
          <$> rcl_coords (positive_y x) (min_y_tile a) (max_y_tile a)).

Definition empty {A} (l : list A) : bool := match l with [] => true | _ => false end.

(** [first] says whether the tiles are the first, [fin] whether they are the last. *)
Fixpoint tiles_packets (x : rcl_exec) (st : vc4_rcl_setup) (first fin : bool) (tiles : list (Z * Z)) : list rcl_packet :=
  match tiles with
  | [] => []
  | (tx, ty) :: tiles =>
    tile_packets x st tx ty first (fin && empty tiles) ++ tiles_packets x st false fin tiles
  end.

Definition config_packets (x : rcl_exec) (st : vc4_rcl_setup) : list rcl_packet :=
  let a := rx_args x in
  [RenderingConfig (match st_color_write st with
                    | Some bo => obj_paddr bo + sf_offset (color_write a) | None => 0 end)
     (width a) (height a) (sf_bits (color_write a))].

Definition clear_packets (x : rcl_exec) : list rcl_packet :=
  let a := rx_args x in
  if use_clear_color x then
    [ClearColors (fst (clear_color a)) (snd (clear_color a)) (clear_z a) (clear_s a);
     TileCoordinates 0 0; StoreGeneral VC4_LOADSTORE_TILE_BUFFER_NONE 0]
  else [].

Definition render_packets (x : rcl_exec) (st : vc4_rcl_setup) : list rcl_packet :=
  config_packets x st ++ clear_packets x ++ tiles_packets x st true true (rcl_tiles x).

Lemma tiles_packets_app x st first fin l1 l2 :
  tiles_packets x st first fin (l1 ++ l2) =
  tiles_packets x st first (fin && empty l2) l1 ++ tiles_packets x st (first && empty l1) fin l2.
Proof.
  revert first. induction l1 as [|[tx ty] l1 IH]; intros first; cbn [app tiles_packets empty].
  - by rewrite andb_true_r.
  - rewrite IH, andb_false_r, <- app_assoc. f_equal. f_equal. by destruct l1, l2, fin.
Qed.

(** One row. *)
Lemma row_packets x st (f : Z -> Z) ty A B n k :
  (0 <= k)%Z ->
  concat ((fun i => tile_packets x st (f i) ty ((i =? 0) && A) ((i =? k + Z.of_nat n - 1) && B)) <$> zrange k n) =
  tiles_packets x st ((k =? 0) && A) B ((fun i => (f i, ty)) <$> zrange k n).
Proof.
  revert k. induction n as [|n IH]; intros k Hk; [done|]. rewrite zrange_S. cbn [fmap list_fmap concat tiles_packets].
  f_equal.
  - f_equal. rewrite andb_comm. f_equal. destruct n as [|n].
    + cbn. apply Z.eqb_eq. lia.
    + rewrite zrange_S. cbn. apply Z.eqb_neq. lia.
  - specialize (IH (k + 1) ltac:(lia)). rewrite (proj2 (Z.eqb_neq (k + 1) 0)) in IH by lia. rewrite andb_false_l in IH.
    rewrite <- IH. f_equal. apply list_fmap_ext. intros _ i _. f_equal. f_equal. f_equal. lia.
Qed.

(** All rows. *)
Lemma rows_packets x st (row : Z -> list (Z * Z)) n k :
  (0 <= k)%Z -> (forall j, row j <> []) ->
  concat ((fun j => tiles_packets x st (j =? 0) (j =? k + Z.of_nat n - 1) (row j)) <$> zrange k n) =
  tiles_packets x st (k =? 0) true (concat (row <$> zrange k n)).
Proof.
  intros Hk Hr. revert k Hk. induction n as [|n IH]; intros k Hk; [done|]. rewrite zrange_S. cbn [fmap list_fmap concat].
  rewrite tiles_packets_app. assert (empty (row k) = false) as -> by (specialize (Hr k); by destruct (row k)).
  rewrite andb_false_r. f_equal.
  - f_equal. destruct n as [|n].
    + cbn. apply Z.eqb_eq. lia.
    + rewrite zrange_S. cbn [fmap list_fmap concat]. specialize (Hr (k + 1)). destruct (row (k + 1)); [done|]. cbn.
      apply Z.eqb_neq. lia.
  - specialize (IH (k + 1) ltac:(lia)). rewrite (proj2 (Z.eqb_neq (k + 1) 0)) in IH by lia.
    rewrite <- IH. f_equal. apply list_fmap_ext. intros _ i _. f_equal. f_equal. lia.
Qed.

(** ** What is written *)

(** A rectangle of tiles whose sides are counted without wrap-around. *)
Definition tiles_ok (a : rcl_args) : Prop :=
  0 <= min_x_tile a <= max_x_tile a /\ max_x_tile a < 256 /\ max_x_tile a - min_x_tile a < 255 /\
  0 <= min_y_tile a <= max_y_tile a /\ max_y_tile a < 256 /\ max_y_tile a - min_y_tile a < 255.

Lemma xtiles_eq x : tiles_ok (rx_args x) -> xtiles x = max_x_tile (rx_args x) - min_x_tile (rx_args x) + 1.
Proof. unfold tiles_ok, xtiles, u8. intros. apply Z.mod_small. lia. Qed.

Lemma ytiles_eq x : tiles_ok (rx_args x) -> ytiles x = max_y_tile (rx_args x) - min_y_tile (rx_args x) + 1.
Proof. unfold tiles_ok, ytiles, u8. intros. apply Z.mod_small. lia. Qed.

Lemma encode_list_concat {A} (f : A -> list rcl_packet) l :
  concat ((fun a => encode_list (f a)) <$> l) = encode_list (concat (f <$> l)).
Proof. induction l as [|a l IH]; [done|]. cbn [fmap list_fmap concat]. by rewrite encode_list_app, <- IH. Qed.

Lemma emit_tiles_emits x st :
  tiles_ok (rx_args x) -> (has_bin x = true -> is_Some (rx_tile_bo x)) ->
  emits (emit_tiles x st) (encode_list (tiles_packets x st true true (rcl_tiles x))).
Proof.
  intros Ht Hb. pose proof (xtiles_eq x Ht) as Ex. pose proof (ytiles_eq x Ht) as Ey. unfold tiles_ok in Ht.
  set (a := rx_args x) in *.
  set (fx := fun i => if positive_x x then min_x_tile a + i else max_x_tile a - i).
  set (fy := fun i => if positive_y x then min_y_tile a + i else max_y_tile a - i).
  set (nx := Z.to_nat (xtiles x)). set (ny := Z.to_nat (ytiles x)).
  assert (rcl_tiles x = concat ((fun j => (fun i => (fx i, fy j)) <$> zrange 0 nx) <$> zrange 0 ny)) as ->.
  { unfold rcl_tiles, rcl_coords. fold a. rewrite <- list_fmap_compose. unfold nx, ny. rewrite Ex, Ey. f_equal.
    apply list_fmap_ext. intros _ j _. cbn. by rewrite <- list_fmap_compose. }
  rewrite <- (rows_packets x st (fun j => (fun i => (fx i, fy j)) <$> zrange 0 nx) ny 0); [|done|].
  2:{ intros j E%(f_equal length). rewrite length_fmap, zrange_length in E. cbn in E. lia. }
  rewrite <- encode_list_concat. apply emits_for_each. intros j Hj%elem_of_zrange.
  pose proof (row_packets x st fx (fy j) (j =? 0) (j =? 0 + Z.of_nat ny - 1) nx 0 ltac:(lia)) as Hrow.
  rewrite Z.eqb_refl, andb_true_l in Hrow. rewrite <- Hrow, <- encode_list_concat.
  apply emits_for_each. intros i Hi%elem_of_zrange. unfold emit_tile_at. fold a. fold (fx i) (fy j).
  replace (0 + Z.of_nat nx - 1) with (xtiles x - 1) by lia. replace (0 + Z.of_nat ny - 1) with (ytiles x - 1) by lia.
  assert (u8 (fx i) = fx i) as -> by (apply Z.mod_small; unfold fx; destruct (positive_x x); lia).
  assert (u8 (fy j) = fy j) as -> by (apply Z.mod_small; unfold fy; destruct (positive_y x); lia).
  by apply emit_tile_emits.
Qed.

Lemma emit_config_emits x st : emits (emit_config x st) (encode_list (config_packets x st)).
Proof. unfold emit_config, config_packets. emit. done. Qed.

Lemma emit_clear_emits x : emits (emit_clear x) (encode_list (clear_packets x)).
Proof. unfold emit_clear, clear_packets. destruct (use_clear_color x); [|apply emits_ret]. emit. done. Qed.
