(* ===== verification/Vc4RenderCorrect.v ===== *)
(** * The rendering list as a whole

    The size computed for a rendering list is that of its packets, and the packets follow the rules of
    the hardware: a machine that reads them and gives up when a rule is broken comes to the end of
    the frame exactly at the end of the list. *)
From S2P Require Import Prelude Bitset QpuPack Vc4Defines Vc4Shader Bytes Vc4Packet Vc4Validate Vc4ShaderRec Vc4Render Vc4RenderList.

(** ** Sizes *)

(** The depth is not loaded from an ordinary surface after the colour from a full-resolution one. *)
Definition loads_ok (x : rcl_exec) (st : vc4_rcl_setup) : bool :=
  negb (present (st_color_read st) && is_full_res (color_read (rx_args x))
        && present (st_zs_read st) && negb (is_full_res (zs_read (rx_args x)))).

Definition some_store (st : vc4_rcl_setup) : bool :=
  present (st_color_write st) || present (st_zs_write st)
  || present (st_msaa_color_write st) || present (st_msaa_zs_write st).

Definition bytes (ps : list rcl_packet) : Z := Z.of_nat (length (encode_list ps)).

Lemma bytes_app ps qs : bytes (ps ++ qs) = bytes ps + bytes qs.
Proof. unfold bytes. rewrite encode_list_app, length_app. lia. Qed.

Lemma loop_body_range x st : some_store st = true -> 0 <= loop_body_size x st < 100.
Proof.
  unfold some_store, loop_body_size.
  destruct (st_color_write st), (st_zs_write st), (st_msaa_color_write st), (st_msaa_zs_write st); try discriminate; intros _;
  destruct (st_color_read st), (st_zs_read st), (is_full_res (color_read (rx_args x))),
    (is_full_res (zs_read (rx_args x))), (has_bin x); vm_compute; split; congruence.
Qed.

Lemma tile_bytes x st tx ty first last :
  some_store st = true -> loads_ok x st = true -> (has_bin x = true -> is_Some (rx_tile_bo x)) ->
  bytes (tile_packets x st tx ty first last) = loop_body_size x st + Z.b2z (first && has_bin x).
Proof.
  intros Hs Hl Hb. unfold tile_packets, color_load_packets, zs_load_packets, bin_packets, msaa_color_packets,
    msaa_zs_packets, zs_packets, color_packets, again, loop_body_size, loads_ok, some_store in *.
  destruct (has_bin x); [destruct Hb as [tile ->]; [done|]|clear Hb; destruct (rx_tile_bo x)];
  destruct (is_full_res (color_read (rx_args x))), (is_full_res (zs_read (rx_args x)));
  destruct (st_color_read st), (st_zs_read st); try discriminate Hl;
  destruct (st_color_write st), (st_zs_write st), (st_msaa_color_write st), (st_msaa_zs_write st); try discriminate Hs;
  destruct first; reflexivity.
Qed.

Section Bytes.

Context (x : rcl_exec) (st : vc4_rcl_setup).
Context (Hs : some_store st = true) (Hl : loads_ok x st = true).
Context (Hb : has_bin x = true -> is_Some (rx_tile_bo x)).

Lemma tiles_bytes first fin tiles :
  bytes (tiles_packets x st first fin tiles) =
  Z.of_nat (length tiles) * loop_body_size x st + Z.b2z (first && has_bin x && negb (empty tiles)).
Proof.
  revert first. induction tiles as [|[tx ty] tiles IH]; intros first; cbn [tiles_packets].
  - by rewrite andb_false_r.
  - rewrite bytes_app, tile_bytes, IH by done. cbn [length empty negb]. rewrite !andb_false_l, andb_true_r. cbn [Z.b2z]. lia.
Qed.

Lemma rcl_tiles_length : tiles_ok (rx_args x) -> Z.of_nat (length (rcl_tiles x)) = xtiles x * ytiles x.
Proof.
  intros Ht. rewrite xtiles_eq, ytiles_eq by done. unfold tiles_ok in Ht. unfold rcl_tiles.
  set (l := rcl_coords (positive_y x) _ _).
  assert (Z.of_nat (length l) = max_y_tile (rx_args x) - min_y_tile (rx_args x) + 1) as <-.
  { unfold l, rcl_coords. rewrite length_fmap, zrange_length. lia. }
  clearbody l. induction l as [|y l IH]; cbn [fmap list_fmap concat length]; [lia|].
  rewrite length_app, Nat2Z.inj_add, IH, length_fmap. unfold rcl_coords.
  rewrite length_fmap, zrange_length, Nat2Z.inj_succ, Z2Nat.id by lia. lia.
Qed.

Lemma xytiles_range : tiles_ok (rx_args x) -> 1 <= xtiles x < 256 /\ 1 <= ytiles x < 256.
Proof. intros Ht. rewrite xtiles_eq, ytiles_eq by done. unfold tiles_ok in Ht. lia. Qed.

Lemma render_bytes : tiles_ok (rx_args x) -> bytes (render_packets x st) = rcl_size x st /\ rcl_size x st < 2 ^ 23.
Proof.
  intros Ht. destruct (xytiles_range Ht) as [Hx Hy]. pose proof (loop_body_range x st Hs) as Hbody.
  assert (0 <= xtiles x * ytiles x <= 255 * 255) as Hxy by nia.
  assert (0 <= xtiles x * ytiles x * loop_body_size x st <= 255 * 255 * 100) as Hr.
  { split; [apply Z.mul_nonneg_nonneg; lia|apply Z.mul_le_mono_nonneg; lia]. }
  assert (bytes (render_packets x st) =
    11 + (if use_clear_color x then 24 else 0) + (if has_bin x then 1 else 0) + xtiles x * ytiles x * loop_body_size x st) as Eb.
  { unfold render_packets. rewrite !bytes_app, tiles_bytes, rcl_tiles_length by done.
    assert (empty (rcl_tiles x) = false) as ->.
    { pose proof (rcl_tiles_length Ht). destruct (rcl_tiles x); [cbn in *; nia|done]. }
    rewrite andb_true_r, andb_true_l. assert (bytes (config_packets x st) = 11) as -> by done.
    assert (bytes (clear_packets x) = if use_clear_color x then 24 else 0) as ->
      by (unfold clear_packets; by destruct (use_clear_color x)).
    destruct (has_bin x); cbn [Z.b2z]; lia. }
  assert (rcl_size x st = bytes (render_packets x st)) as ->; [|split; [done|]].
  - rewrite Eb. unfold rcl_size. rewrite u32_small; unfold VC4_PACKET_TILE_RENDERING_MODE_CONFIG_SIZE,
      VC4_PACKET_CLEAR_COLORS_SIZE, VC4_PACKET_TILE_COORDINATES_SIZE, VC4_PACKET_STORE_TILE_BUFFER_GENERAL_SIZE,
      VC4_PACKET_WAIT_ON_SEMAPHORE_SIZE; destruct (use_clear_color x), (has_bin x); lia.
  - rewrite Eb. destruct (use_clear_color x), (has_bin x); lia.
Qed.

(** The list is exactly its packets. *)
Lemma vc4_create_rcl_bo_ok create contents :
  tiles_ok (rx_args x) -> (forall n, 0 <= n -> Z.of_nat (length (contents n)) = n) ->
  vc4_create_rcl_bo create contents x st =
  match create 2%nat (rcl_size x st) with
  | None => Fail (- ENOMEM)
  | Some rcl => Done (encode_list (render_packets x st), obj_paddr rcl,
                      u32 (obj_paddr rcl + bytes (render_packets x st)))
  end.
Proof.
  intros Ht Hc. destruct (render_bytes Ht) as [Eb Hr]. unfold vc4_create_rcl_bo.
  destruct (create 2%nat (rcl_size x st)) as [rcl|]; [|done].
  assert (emits (fun b => emit_config x st b ≫= (fun b => emit_clear x b ≫= emit_tiles x st))
    (encode_list (render_packets x st))) as He.
  { unfold render_packets. rewrite !encode_list_app. apply (emits_bind (emit_config x st)); [apply emit_config_emits|].
    apply (emits_bind (emit_clear x)); [apply emit_clear_emits|by apply emit_tiles_emits]. }
  destruct (He (RclBuf (contents (rcl_size x st)) 0) [] 0%nat) as (b & E & rest & E1 & E2 & E3 & _).
  { exists (contents (rcl_size x st)). unfold bytes in Eb. specialize (Hc (rcl_size x st) ltac:(lia)).
    cbn [app rcl_mem next_offset length]. split; [done|]. split; [lia|]. split; [done|lia]. }
  cbn [app] in *. destruct rest; [|discriminate]. rewrite app_nil_r in E1.
  destruct (emit_config x st _) as [b1| |]; try discriminate. cbn [mbind res_bind] in *.
  destruct (emit_clear x b1) as [b2| |]; try discriminate. cbn [mbind res_bind] in *. rewrite E. cbn [mbind res_bind].
  rewrite E3, E1. fold (bytes (render_packets x st)). by rewrite Eb, Z.eqb_refl.
Qed.

End Bytes.

(** ** The rules of the hardware *)

(** Whether an ordinary load waits for coordinates; whether coordinates were given and no store followed
    yet; whether the binner was waited for; whether the frame has ended. *)
Record rcl_state := RclState { rs_load : bool; rs_open : bool; rs_waited : bool; rs_done : bool }.

Definition is_eof (word : Z) : bool := Z.testbit word 3.

(** A store needs coordinates of its own. *)
Definition store_step (s : rcl_state) (eof : bool) : option rcl_state :=
  if rs_open s then Some (RclState false false (rs_waited s) eof) else None.

(** One packet; [None]: a rule is broken.  Coordinates execute the load that waits, and must be followed by a
    store before the next load; one ordinary load may wait at a time; the list of a tile runs after the binner
    was waited for, once; nothing follows the end of the frame. *)
Definition rcl_step (s : rcl_state) (p : rcl_packet) : option rcl_state :=
  if rs_done s then None else
  match p with
  | RenderingConfig _ _ _ _ | ClearColors _ _ _ _ => if rs_open s || rs_load s then None else Some s
  | TileCoordinates _ _ => if rs_open s then None else Some (RclState false true (rs_waited s) false)
  | LoadGeneral _ _ => if rs_open s || rs_load s then None else Some (RclState true false (rs_waited s) false)
  | LoadFullRes _ => if rs_open s then None else Some s
  | StoreGeneral _ word => store_step s (is_eof word)
  | StoreFullRes word => store_step s (is_eof word)
  | StoreMs eof => store_step s eof
  | WaitSemaphore => if rs_waited s then None else Some (RclState (rs_load s) (rs_open s) true false)
  | BranchToSubList _ => if rs_open s && rs_waited s then Some s else None
  end.

Fixpoint rcl_run (s : rcl_state) (ps : list rcl_packet) : option rcl_state :=
  match ps with
  | [] => Some s
  | p :: ps => s ← rcl_step s p; rcl_run s ps
  end.

Lemma rcl_run_app s ps qs : rcl_run s (ps ++ qs) = rcl_run s ps ≫= (fun s => rcl_run s qs).
Proof. revert s. induction ps as [|p ps IH]; intros s; cbn; [done|]. destruct (rcl_step s p); cbn; auto. Qed.

(** Addresses whose low bits are free for flags. *)
Definition aligned16 (a : Z) : Prop := a mod 16 = 0.

Lemma eof_lor addr bits : aligned16 addr -> is_eof (Z.lor addr bits) = is_eof bits.
Proof.
  unfold aligned16, is_eof. intros H. rewrite Z.lor_spec. apply Z.div_exact in H; [|lia].
  assert (Z.testbit addr 3 = false) as ->; [|done]. rewrite H, Z.mul_comm. by apply (Z.mul_pow2_bits_low (addr / 16) 4 3).
Qed.

Lemma eof_bits b l last : b = 1 \/ b = 2 -> is_eof (full_res_bits b l last) = l && last.
Proof. by intros [-> | ->]; destruct l, last. Qed.

Lemma u32_aligned a : aligned16 a -> aligned16 (u32 a).
Proof. unfold aligned16, u32. intros H. by rewrite Z.mod_mod_divide by (by exists (2 ^ 28)). Qed.

Lemma aligned_add a b : aligned16 a -> aligned16 b -> aligned16 (a + b).
Proof. unfold aligned16. intros H1 H2. rewrite Z.add_mod, H1, H2 by lia. done. Qed.

Lemma full_res_aligned x bo surf tx ty :
  aligned16 (obj_paddr bo) -> aligned16 (sf_offset surf) -> aligned16 (vc4_full_res_offset x bo surf tx ty).
Proof.
  intros H1 H2. unfold vc4_full_res_offset. apply u32_aligned, aligned_add; [by apply aligned_add|].
  unfold aligned16, VC4_TILE_BUFFER_SIZE. set (i := _ + tx).
  replace (64 * 64 * 4 * i) with (1024 * i * 16) by lia. by rewrite Z.mod_mul by lia.
Qed.

(** The surfaces that are stored to through packets with flags. *)
Definition stores_aligned (x : rcl_exec) (st : vc4_rcl_setup) : Prop :=
  let a := rx_args x in
  (forall bo, st_zs_write st = Some bo -> aligned16 (obj_paddr bo) /\ aligned16 (sf_offset (zs_write a))) /\
  (forall bo, st_msaa_color_write st = Some bo -> aligned16 (obj_paddr bo) /\ aligned16 (sf_offset (msaa_color_write a))) /\
  (forall bo, st_msaa_zs_write st = Some bo -> aligned16 (obj_paddr bo) /\ aligned16 (sf_offset (msaa_zs_write a))).

(** Between the stores of tiles. *)
Definition idle (waited done : bool) : rcl_state := RclState false false waited done.

Section Rules.

Context (x : rcl_exec) (st : vc4_rcl_setup).
Context (Hs : some_store st = true) (Ha : stores_aligned x st).
Context (Hb : has_bin x = true -> is_Some (rx_tile_bo x)).

Lemma load_rules tx ty w :
  exists l, rcl_run (idle w false) (color_load_packets x st tx ty ++ zs_load_packets x st tx ty) =
    Some (RclState l false w false).
Proof.
  unfold color_load_packets, zs_load_packets.
  destruct (st_color_read st), (st_zs_read st), (is_full_res (color_read (rx_args x))), (is_full_res (zs_read (rx_args x)));
    eexists; reflexivity.
Qed.

Lemma bin_rules tx ty first :
  rcl_run (RclState false true (has_bin x && negb first) false) (bin_packets x tx ty first) =
  Some (RclState false true (has_bin x) false).
Proof.
  unfold bin_packets. destruct (has_bin x); [destruct Hb as [t ->]; [done|]|destruct (rx_tile_bo x)]; by destruct first.
Qed.

Lemma store_rules tx ty w last :
  rcl_run (RclState false true w false)
    (msaa_color_packets x st tx ty last ++ msaa_zs_packets x st tx ty last ++ zs_packets x st tx ty last
     ++ color_packets st tx ty last) = Some (idle w last).
Proof.
  destruct Ha as (Az & Ac & Am). unfold msaa_color_packets, msaa_zs_packets, zs_packets, color_packets, again.
  unfold some_store in Hs.
  destruct (st_msaa_color_write st) as [bc|], (st_msaa_zs_write st) as [bm|], (st_zs_write st) as [bz|],
    (st_color_write st) as [bw|]; try discriminate Hs;
  try destruct (Az _ eq_refl); try destruct (Ac _ eq_refl); try destruct (Am _ eq_refl);
  cbn -[is_eof Z.lor vc4_full_res_offset u32 full_res_bits];
  repeat first
    [ rewrite eof_lor by (by apply full_res_aligned)
    | rewrite eof_bits by (by auto)
    | rewrite eof_lor by (by apply u32_aligned, aligned_add)
    | progress cbn -[is_eof Z.lor vc4_full_res_offset u32 full_res_bits] ]; destruct last; try reflexivity.
Qed.

Lemma tile_rules tx ty first last :
  rcl_run (idle (has_bin x && negb first) false) (tile_packets x st tx ty first last) = Some (idle (has_bin x) last).
Proof.
  unfold tile_packets. rewrite app_assoc, rcl_run_app.
  destruct (load_rules tx ty (has_bin x && negb first)) as [l ->]. cbn [mbind option_bind].
  rewrite rcl_run_app. cbn [rcl_run rcl_step rs_done rs_open rs_waited mbind option_bind].
  rewrite rcl_run_app, bin_rules. cbn [mbind option_bind]. apply store_rules.
Qed.

Lemma tiles_rules first tiles :
  tiles <> [] ->
  rcl_run (idle (has_bin x && negb first) false) (tiles_packets x st first true tiles) = Some (idle (has_bin x) true).
Proof.
  revert first. induction tiles as [|[tx ty] tiles IH]; intros first Hne; [done|]. cbn [tiles_packets].
  rewrite rcl_run_app, tile_rules. cbn [mbind option_bind]. destruct tiles as [|t tiles]; [done|].
  specialize (IH false ltac:(done)). cbn [negb] in IH. rewrite andb_true_r in IH. exact IH.
Qed.

Lemma render_rules :
  tiles_ok (rx_args x) -> rcl_run (idle false false) (render_packets x st) = Some (idle (has_bin x) true).
Proof.
  intros Ht. unfold render_packets. rewrite rcl_run_app.
  change (rcl_run (idle false false) (config_packets x st)) with (Some (idle false false)). cbn [mbind option_bind].
  rewrite rcl_run_app. assert (rcl_run (idle false false) (clear_packets x) = Some (idle false false)) as ->
    by (unfold clear_packets; by destruct (use_clear_color x)).
  cbn [mbind option_bind]. pose proof (tiles_rules true (rcl_tiles x)) as H. cbn [negb] in H. rewrite andb_false_r in H. apply H.
  intros E. pose proof (rcl_tiles_length x Ht) as El. rewrite E in El. cbn in El. pose proof (xytiles_range x Ht). nia.
Qed.

End Rules.

(** ** The tiles *)

Lemma elem_of_coords up lo hi i : i ∈ rcl_coords up lo hi <-> lo <= i <= hi.
Proof.
  unfold rcl_coords. rewrite list_elem_of_fmap. setoid_rewrite elem_of_zrange. split.
  - intros (k & -> & Hk). destruct up; lia.
  - intros Hi. destruct up; [exists (i - lo)|exists (hi - i)]; lia.
Qed.

Lemma NoDup_coords up lo hi : NoDup (rcl_coords up lo hi).
Proof. apply NoDup_fmap_2; [intros i k; destruct up; lia|apply NoDup_zrange]. Qed.

Lemma elem_of_tiles x tx ty :
  (tx, ty) ∈ rcl_tiles x <->
  min_x_tile (rx_args x) <= tx <= max_x_tile (rx_args x) /\ min_y_tile (rx_args x) <= ty <= max_y_tile (rx_args x).
Proof.
  unfold rcl_tiles. rewrite <- (elem_of_coords (positive_x x)), <- (elem_of_coords (positive_y x) (min_y_tile _)).
  rewrite list_elem_of_In, in_concat. setoid_rewrite <- list_elem_of_In. split.
  - intros (l & (y & -> & Hy)%list_elem_of_fmap & (i & [= -> ->] & Hi)%list_elem_of_fmap). done.
  - intros [Hx Hy]. eexists. split; [apply list_elem_of_fmap; by exists ty|]. apply list_elem_of_fmap. by exists tx.
Qed.

Lemma NoDup_rows (xs ys : list Z) : NoDup xs -> NoDup ys -> NoDup (concat ((fun y => (fun x => (x, y)) <$> xs) <$> ys)).
Proof.
  intros Hx. induction ys as [|y ys IH]; intros Hy; [constructor|]. apply NoDup_cons in Hy as [Hy Hys].
  cbn [fmap list_fmap concat]. apply NoDup_app. split; [apply NoDup_fmap_2; [by intros ? ? [= ->]|done]|]. split; [|by apply IH].
  intros p (i & -> & _)%list_elem_of_fmap. rewrite list_elem_of_In, in_concat. setoid_rewrite <- list_elem_of_In.
  intros (l & (y' & -> & Hy')%list_elem_of_fmap & (k & [= _ ->] & _)%list_elem_of_fmap). done.
Qed.

Lemma NoDup_tiles x : NoDup (rcl_tiles x).
Proof. apply NoDup_rows; apply NoDup_coords. Qed.
