(* ===== verification/Vc4RenderSurfaces.v ===== *)
(** * The surfaces of a rendering list

    What is known of a surface that was accepted, and where the packets of the list
    access memory. *)
From S2P Require Import Prelude Bitset QpuPack Vc4Defines Vc4Shader Bytes Vc4Packet Vc4Validate Vc4ShaderRec Vc4BinSteps Vc4BinTotal Vc4Texture Vc4Render Vc4RenderList Vc4RenderCorrect.

Lemma div_round_up_eq a b : 0 < b -> DIV_ROUND_UP a b = (a + b - 1) / b.
Proof.
  intros Hb. unfold DIV_ROUND_UP. pose proof (Z_div_mod_eq_full a b). pose proof (Z.mod_pos_bound a b Hb).
  destruct (Z.eqb_spec (a mod b) 0).
  - replace (a + b - 1) with (b - 1 + (a / b) * b) by lia. rewrite Z.div_add, (Z.div_small (b - 1)) by lia. ring.
  - replace (a + b - 1) with (a mod b - 1 + (a / b + 1) * b) by lia. rewrite Z.div_add, (Z.div_small (a mod b - 1)) by lia. ring.
Qed.

(** ** Arguments *)

Definition surface_ok (s : rcl_surface) : Prop := 0 <= sf_hindex s /\ 0 <= sf_offset s < 2 ^ 32 /\ 0 <= sf_bits s < 2 ^ 16.

(** The arguments in the range of their types. *)
Record args_ok (a : rcl_args) : Prop := {
  ao_width : 0 <= width a < 2 ^ 16; ao_height : 0 <= height a < 2 ^ 16;
  ao_min_x : 0 <= min_x_tile a < 256; ao_max_x : 0 <= max_x_tile a < 256;
  ao_min_y : 0 <= min_y_tile a < 256; ao_max_y : 0 <= max_y_tile a < 256;
  ao_color_read : surface_ok (color_read a); ao_color_write : surface_ok (color_write a);
  ao_zs_read : surface_ok (zs_read a); ao_zs_write : surface_ok (zs_write a);
  ao_msaa_color_write : surface_ok (msaa_color_write a); ao_msaa_zs_write : surface_ok (msaa_zs_write a) }.

Lemma land15_aligned o : 0 <= o -> Z.land o 15 =? 0 = true -> aligned16 o.
Proof. intros Ho H%Z.eqb_eq. unfold aligned16. change 15 with (Z.ones 4) in H. by rewrite Z.land_ones in H by lia. Qed.

Lemma check_tex_small obj off t w h cpp : vc4_check_tex_size obj off t w h cpp = true -> w <= 4096 /\ h <= 4096.
Proof. unfold vc4_check_tex_size. destruct (Z.ltb_spec 4096 w), (Z.ltb_spec 4096 h); try discriminate; lia. Qed.

Lemma check_tex_bytes obj off t w h cpp :
  good_cpp cpp -> 0 <= w -> 0 <= h -> 0 <= off < 2 ^ 32 -> obj_size obj < 2 ^ 32 -> 0 <= t <= 2 ->
  vc4_check_tex_size obj off t w h cpp = true -> off + level_bytes t w h cpp <= obj_size obj.
Proof.
  intros Hc Hw Hh Ho Hs Ht H. destruct (check_tex_small _ _ _ _ _ _ H). rewrite check_tex_size_fits in H; [by apply Z.leb_le|done|lia..|].
  assert (t = 0 \/ t = 1 \/ t = 2) by lia. done.
Qed.

(** ** Accepted surfaces *)

Section Surfaces.

Context (x : rcl_exec).
Context (Hj : job_ok (rx_job x)) (Ha : args_ok (rx_args x)).
Context (Hsz : forall i o, array_get (bo (rx_job x)) i = Some (Some o) -> 0 <= obj_size o < 2 ^ 32).

(** Bytes per pixel of an ordinary load or store, and of the rendering target. *)
Definition loadstore_bytes (bits : Z) : Z :=
  match loadstore_cpp (VC4_GET_FIELD bits 2 0) (VC4_GET_FIELD bits 9 8) with
  | Done cpp => level_bytes (VC4_GET_FIELD bits 5 4) (width (rx_args x)) (height (rx_args x)) cpp
  | _ => 0
  end.

Definition target_bytes (bits : Z) : Z :=
  match render_config_cpp (VC4_GET_FIELD bits 3 2) with
  | Done cpp => level_bytes (VC4_GET_FIELD bits 7 6) (width (rx_args x)) (height (rx_args x)) cpp
  | _ => 0
  end.

Lemma loadstore_cpp_good buffer format cpp : loadstore_cpp buffer format = Done cpp -> good_cpp cpp.
Proof.
  unfold loadstore_cpp, good_cpp. repeat (match goal with |- context [if ?c then _ else _] => destruct c end); intros H; inversion H; auto.
Qed.

Lemma render_config_cpp_good format cpp : render_config_cpp format = Done cpp -> good_cpp cpp.
Proof.
  unfold render_config_cpp, good_cpp. repeat (match goal with |- context [if ?c then _ else _] => destruct c end); intros H; inversion H; auto.
Qed.

Lemma data_bo_size hd obj : data_bo (rx_job x) hd obj -> 0 <= obj_size obj < 2 ^ 32.
Proof. intros (_ & H & _). by apply (Hsz hd). Qed.

Lemma full_res_check obj surf u :
  vc4_full_res_bounds_check x obj surf = Done u ->
  sf_offset surf <= obj_size obj /\
  u32 (DIV_ROUND_UP (width (rx_args x)) (rx_tile_width x) * max_y_tile (rx_args x) + max_x_tile (rx_args x))
  <= (obj_size obj - sf_offset surf) / VC4_TILE_BUFFER_SIZE.
Proof.
  unfold vc4_full_res_bounds_check. intros H. run_inv H. run_inv_all. apply Z.ltb_ge in E, H. done.
Qed.

(** An ordinary surface lies in a buffer of the job. *)
Definition surface_in (surf : rcl_surface) (obj : cma_object) : Prop :=
  data_bo (rx_job x) (sf_hindex surf) obj /\ aligned16 (sf_offset surf) /\
  VC4_GET_FIELD (sf_bits surf) 2 0 <> VC4_LOADSTORE_TILE_BUFFER_NONE /\
  sf_offset surf + loadstore_bytes (sf_bits surf) <= obj_size obj.

Lemma surface_setup_ok surf zw o :
  surface_ok surf -> vc4_rcl_surface_setup x surf zw = Done o ->
  match o with
  | None => sf_hindex surf = UINT_MAX
  | Some obj => sf_hindex surf <> UINT_MAX /\ data_bo (rx_job x) (sf_hindex surf) obj /\
      if is_full_res surf then zw = false else surface_in surf obj
  end.
Proof.
  intros (Hh & Ho & Hb) H. unfold vc4_rcl_surface_setup in H. run_inv H.
  destruct (Z.eqb_spec (sf_hindex surf) UINT_MAX) as [Eh|Eh]; [by injection H as <-|].
  apply bind_Done in H as (obj & Eo & H). pose proof (use_bo_data _ _ _ Eo) as Hd. destruct (is_full_res surf) eqn:Ef.
  - run_inv H. destruct (vc4_full_res_bounds_check x obj surf); try discriminate H; injection H as <-; run_inv_all; by destruct zw.
  - run_inv H. run_inv_all. subst o. split; [done|]. split; [done|]. split; [done|]. apply negb_false_iff in E3, E4.
    split; [apply land15_aligned; [apply Ho|done]|]. split.
    { intros En. unfold loadstore_cpp in E2. rewrite En in E2. discriminate E2. }
    unfold loadstore_bytes. rewrite E2. apply Z.ltb_ge in E1. pose proof (vc4_field_range (sf_bits surf) 5 4 ltac:(lia) ltac:(lia) ltac:(lia)).
    apply check_tex_bytes; [by eapply loadstore_cpp_good|apply Ha|apply Ha|done|by eapply data_bo_size| |done].
    unfold VC4_TILING_FORMAT_LT in E1. lia.
Qed.

(** The rendering target. *)
Lemma target_setup_ok surf o :
  surface_ok surf -> vc4_rcl_render_config_surface_setup x surf = Done o ->
  match o with
  | None => True
  | Some obj => data_bo (rx_job x) (sf_hindex surf) obj /\
      sf_offset surf + target_bytes (sf_bits surf) <= obj_size obj
  end.
Proof.
  intros (Hh & Ho & Hb) H. unfold vc4_rcl_render_config_surface_setup in H. run_inv H.
  destruct (sf_hindex surf =? UINT_MAX); [by injection H as <-|]. run_inv H. run_inv_all. subst o.
  pose proof (use_bo_data _ _ _ E1) as Hd. split; [done|]. apply negb_false_iff in E4. apply Z.ltb_ge in E2.
  pose proof (vc4_field_range (sf_bits surf) 7 6 ltac:(lia) ltac:(lia) ltac:(lia)).
  unfold target_bytes. rewrite E3. unfold VC4_TILING_FORMAT_LT in E2.
  apply check_tex_bytes; [by eapply render_config_cpp_good|apply Ha|apply Ha|done|by eapply data_bo_size|lia|done].
Qed.

(** A multisampled surface: the tiles before the last one lie in the buffer. *)
Definition msaa_in (surf : rcl_surface) (obj : cma_object) : Prop :=
  data_bo (rx_job x) (sf_hindex surf) obj /\ aligned16 (sf_offset surf) /\
  sf_offset surf + VC4_TILE_BUFFER_SIZE *
    (DIV_ROUND_UP (width (rx_args x)) (rx_tile_width x) * max_y_tile (rx_args x) + max_x_tile (rx_args x))
  <= obj_size obj.

Context (Htw : rx_tile_width x = 32 \/ rx_tile_width x = 64).

Lemma stride_range : 0 <= DIV_ROUND_UP (width (rx_args x)) (rx_tile_width x) < 2 ^ 16.
Proof.
  pose proof (ao_width _ Ha). rewrite div_round_up_eq by lia. destruct Htw as [-> | ->]; split;
    try (apply Z.div_pos; lia); apply Z.div_lt_upper_bound; lia.
Qed.

Lemma tile_index_small : 0 <= DIV_ROUND_UP (width (rx_args x)) (rx_tile_width x) * max_y_tile (rx_args x)
  + max_x_tile (rx_args x) < 2 ^ 25.
Proof. pose proof stride_range. pose proof (ao_max_x _ Ha). pose proof (ao_max_y _ Ha). nia. Qed.

Lemma msaa_setup_ok surf o :
  surface_ok surf -> vc4_rcl_msaa_surface_setup x surf = Done o ->
  match o with None => True | Some obj => msaa_in surf obj end.
Proof.
  intros (Hh & Ho & Hb) H. unfold vc4_rcl_msaa_surface_setup in H. run_inv H.
  destruct (sf_hindex surf =? UINT_MAX); [by injection H as <-|]. run_inv H. run_inv_all. subst o.
  pose proof (use_bo_data _ _ _ E0) as Hd. split; [done|]. apply negb_false_iff in E1.
  split; [apply land15_aligned; [apply Ho|done]|]. apply full_res_check in E2 as [E2 E3].
  pose proof tile_index_small. rewrite u32_small in E3 by lia. unfold VC4_TILE_BUFFER_SIZE in *.
  pose proof (Z.mul_div_le (obj_size a0 - sf_offset surf) (64 * 64 * 4) ltac:(lia)). lia.
Qed.

(** ** All surfaces *)

Record setup_ok (st : vc4_rcl_setup) : Prop := {
  su_color_write : forall obj, st_color_write st = Some obj ->
    data_bo (rx_job x) (sf_hindex (color_write (rx_args x))) obj /\
    sf_offset (color_write (rx_args x)) + target_bytes (sf_bits (color_write (rx_args x))) <= obj_size obj;
  su_color_read : forall obj, st_color_read st = Some obj -> sf_hindex (color_read (rx_args x)) <> UINT_MAX /\
    (is_full_res (color_read (rx_args x)) = false -> surface_in (color_read (rx_args x)) obj);
  su_zs_read : forall obj, st_zs_read st = Some obj -> sf_hindex (zs_read (rx_args x)) <> UINT_MAX /\
    (is_full_res (zs_read (rx_args x)) = false -> surface_in (zs_read (rx_args x)) obj);
  su_zs_write : forall obj, st_zs_write st = Some obj -> surface_in (zs_write (rx_args x)) obj;
  su_msaa_color : forall obj, st_msaa_color_write st = Some obj -> msaa_in (msaa_color_write (rx_args x)) obj;
  su_msaa_zs : forall obj, st_msaa_zs_write st = Some obj -> msaa_in (msaa_zs_write (rx_args x)) obj;
  su_store : some_store st = true }.

Lemma rcl_setup_ok st : rcl_setup x = Done st -> setup_ok st.
Proof.
  unfold rcl_setup. intros H. run_inv H. subst st.
  apply target_setup_ok in E; [|apply Ha]. apply surface_setup_ok in E0, E1, E2; [|apply Ha..].
  apply msaa_setup_ok in E3, E4; [|apply Ha..]. constructor; cbn [st_color_write st_color_read st_zs_read st_zs_write st_msaa_color_write st_msaa_zs_write].
  - intros obj ->. exact E.
  - intros obj ->. destruct E0 as (? & _ & E0). split; [done|]. intros Ef. by rewrite Ef in E0.
  - intros obj ->. destruct E1 as (? & _ & E1). split; [done|]. intros Ef. by rewrite Ef in E1.
  - intros obj ->. destruct E2 as (_ & _ & E2). by destruct (is_full_res _) in E2.
  - intros obj ->. exact E3.
  - intros obj ->. exact E4.
  - run_inv_all. unfold some_store. cbn. destruct (present a), (present a2), (present a3), (present a4); done.
Qed.

Lemma surface_setup_defined surf zw : surface_ok surf -> defined (vc4_rcl_surface_setup x surf zw).
Proof.
  intros (Hh & _). unfold vc4_rcl_surface_setup. apply bind_defined; [apply reject_if_defined|intros _ _].
  destruct (sf_hindex surf =? UINT_MAX); [done|]. apply bind_defined; [by apply use_bo_defined|intros obj _].
  destruct (is_full_res surf).
  - do 2 (apply bind_defined; [apply reject_if_defined|intros _ _]).
    unfold vc4_full_res_bounds_check. destruct (_ <? sf_offset surf); [done|]. cbn [reject_if mbind res_bind]. by destruct (_ <? _).
  - do 2 (apply bind_defined; [apply reject_if_defined|intros _ _]). apply bind_defined.
    { unfold loadstore_cpp. repeat (match goal with |- context [if ?c then _ else _] => destruct c end); done. }
    intros cpp _. do 2 (apply bind_defined; [apply reject_if_defined|intros _ _]). done.
Qed.

Lemma target_setup_defined surf : surface_ok surf -> defined (vc4_rcl_render_config_surface_setup x surf).
Proof.
  intros (Hh & _). unfold vc4_rcl_render_config_surface_setup. do 2 (apply bind_defined; [apply reject_if_defined|intros _ _]).
  destruct (sf_hindex surf =? UINT_MAX); [done|]. apply bind_defined; [by apply use_bo_defined|intros obj _].
  apply bind_defined; [apply reject_if_defined|intros _ _]. apply bind_defined.
  { unfold render_config_cpp. repeat (match goal with |- context [if ?c then _ else _] => destruct c end); done. }
  intros cpp _. apply bind_defined; [apply reject_if_defined|intros _ _]. done.
Qed.

Lemma msaa_setup_defined surf : surface_ok surf -> defined (vc4_rcl_msaa_surface_setup x surf).
Proof.
  intros (Hh & _). unfold vc4_rcl_msaa_surface_setup, vc4_full_res_bounds_check. apply bind_defined; [apply reject_if_defined|intros _ _].
  destruct (sf_hindex surf =? UINT_MAX); [done|]. apply bind_defined; [by apply use_bo_defined|intros obj _].
  apply bind_defined; [apply reject_if_defined|intros _ _]. apply bind_defined; [|done].
  apply bind_defined; auto with defined.
Qed.

Lemma rcl_setup_defined : defined (rcl_setup x).
Proof.
  unfold rcl_setup. apply bind_defined; [apply target_setup_defined, Ha|intros ? _].
  do 3 (apply bind_defined; [apply surface_setup_defined, Ha|intros ? _]).
  do 2 (apply bind_defined; [apply msaa_setup_defined, Ha|intros ? _]).
  apply bind_defined; auto with defined.
Qed.

End Surfaces.

(** ** Where the packets access memory *)

(** The [n] bytes from [addr] on lie in a buffer of the job that is not a shader. *)
Definition in_buffer (j : job) (addr n : Z) : Prop :=
  exists hd obj, data_bo j hd obj /\ obj_paddr obj <= addr /\ addr + n <= obj_paddr obj + obj_size obj.

(** [whole]: also the end of the tile of a full-resolution store.  Full-resolution loads are left out. *)
Definition packet_in_bounds (x : rcl_exec) (whole : bool) (p : rcl_packet) : Prop :=
  match p with
  | RenderingConfig addr _ _ bits => addr = 0 \/ in_buffer (rx_job x) addr (target_bytes x bits)
  | LoadGeneral bits word => in_buffer (rx_job x) word (loadstore_bytes x bits)
  | StoreGeneral bits word =>
    VC4_GET_FIELD bits 2 0 = VC4_LOADSTORE_TILE_BUFFER_NONE \/
    in_buffer (rx_job x) (Z.ldiff word 15) (loadstore_bytes x bits)
  | StoreFullRes word => in_buffer (rx_job x) (Z.ldiff word 15) (if whole then VC4_TILE_BUFFER_SIZE else 0)
  | BranchToSubList addr => exists tile, rx_tile_bo x = Some tile /\
      obj_paddr tile + rx_tile_alloc_offset x <= addr /\ addr + 32 <= obj_paddr tile + obj_size tile
  | _ => True
  end.

(** The address without the flags in its low bits. *)
Lemma ldiff_flags a bits : aligned16 a -> 0 <= bits < 16 -> Z.ldiff (Z.lor a bits) 15 = a.
Proof.
  intros Ha Hb. rewrite Z.ldiff_land, Z.land_lor_distr_l, <- !Z.ldiff_land. change 15 with (Z.ones 4).
  rewrite !Z.ldiff_ones_r, !Z.shiftr_div_pow2, !Z.shiftl_mul_pow2 by lia. change (2 ^ 4) with 16.
  rewrite (Z.div_small bits 16) by lia. rewrite Z.lor_0_r. unfold aligned16 in Ha. pose proof (Z.div_mod a 16). lia.
Qed.

Lemma full_res_bits_small b l last : b = 1 \/ b = 2 -> 0 <= full_res_bits b l last < 16.
Proof. by intros [-> | ->]; destruct l, last. Qed.

(** The flag for clearing does not touch the fields of the surface. *)
Lemma clear_flag_field bits high low :
  Z.land VC4_STORE_TILE_BUFFER_DISABLE_COLOR_CLEAR (VC4_MASK high low) = 0 ->
  VC4_GET_FIELD (Z.lor bits VC4_STORE_TILE_BUFFER_DISABLE_COLOR_CLEAR) high low = VC4_GET_FIELD bits high low.
Proof. intros H. unfold VC4_GET_FIELD. by rewrite Z.land_lor_distr_l, H, Z.lor_0_r. Qed.

Lemma loadstore_bytes_flag x bits (b : bool) :
  loadstore_bytes x (Z.lor bits (if b then 0 else VC4_STORE_TILE_BUFFER_DISABLE_COLOR_CLEAR)) = loadstore_bytes x bits.
Proof. destruct b; [by rewrite Z.lor_0_r|]. unfold loadstore_bytes. by rewrite !clear_flag_field by reflexivity. Qed.

Section Bounds.

Context (x : rcl_exec) (st : vc4_rcl_setup) (Ho : setup_ok x st).
Context (Hj : job_ok (rx_job x)) (Ha : args_ok (rx_args x)) (Hw : 0 < width (rx_args x)).
Context (Hm : forall i o, array_get (bo (rx_job x)) i = Some (Some o) ->
  0 <= obj_size o /\ 0 <= obj_paddr o /\ obj_paddr o + obj_size o < 2 ^ 32 /\ aligned16 (obj_paddr o)).
Context (Htw : rx_tile_width x = 32 \/ rx_tile_width x = 64).

Lemma data_bo_mem hd obj : data_bo (rx_job x) hd obj ->
  0 <= obj_size obj /\ 0 <= obj_paddr obj /\ obj_paddr obj + obj_size obj < 2 ^ 32 /\ aligned16 (obj_paddr obj).
Proof. intros (_ & H & _). by apply (Hm hd). Qed.

Lemma loadstore_bytes_nonneg bits : 0 <= loadstore_bytes x bits.
Proof.
  unfold loadstore_bytes. destruct (loadstore_cpp _ _) as [cpp| |] eqn:E; [|lia..]. apply loadstore_cpp_good in E.
  destruct (utile_pow2 cpp E) as (a & b & H1 & H2 & Ea & Eb). pose proof (ao_width _ Ha). pose proof (ao_height _ Ha).
  assert (0 < cpp) by (destruct E as [-> | [-> | [-> | ->]]]; lia).
  assert (0 < 2 ^ a) by (apply Z.pow_pos_nonneg; lia). assert (0 < 2 ^ b) by (apply Z.pow_pos_nonneg; lia).
  assert (forall v k, 0 < k -> 0 <= v -> 0 <= align_up v k) as Hp by (intros v k Hk Hv; pose proof (align_up_bounds v k Hk Hv); lia).
  unfold level_bytes. rewrite Ea, Eb.
  repeat match goal with |- context [if ?c then _ else _] => destruct c end; repeat first [apply Hp | apply Z.mul_nonneg_nonneg]; lia.
Qed.

Lemma surface_in_buffer surf obj :
  surface_ok surf -> surface_in x surf obj -> in_buffer (rx_job x) (obj_paddr obj + sf_offset surf) (loadstore_bytes x (sf_bits surf)).
Proof. intros (_ & Hs & _) (Hd & _ & _ & H). exists (sf_hindex surf), obj. split; [done|]. lia. Qed.

Lemma stride_pos : 1 <= DIV_ROUND_UP (width (rx_args x)) (rx_tile_width x).
Proof. rewrite div_round_up_eq by lia. destruct Htw as [-> | ->]; apply Z.div_le_lower_bound; lia. Qed.

(** A full-resolution store to a tile of the rectangle. *)
Lemma msaa_in_buffer surf obj tx ty bits :
  surface_ok surf -> msaa_in x surf obj -> 0 <= bits < 16 ->
  0 <= tx <= max_x_tile (rx_args x) -> 0 <= ty <= max_y_tile (rx_args x) ->
  in_buffer (rx_job x) (Z.ldiff (Z.lor (vc4_full_res_offset x obj surf tx ty) bits) 15)
    (if negb ((tx =? max_x_tile (rx_args x)) && (ty =? max_y_tile (rx_args x))) then VC4_TILE_BUFFER_SIZE else 0).
Proof.
  intros (_ & Hs & _) (Hd & Hal & Hb) Hbits Hx Hy. destruct (data_bo_mem _ _ Hd) as (M1 & M2 & M3 & M4).
  rewrite ldiff_flags by (try apply full_res_aligned; done). pose proof stride_pos as Hst. unfold vc4_full_res_offset.
  set (stride := DIV_ROUND_UP _ _) in *. set (mx := max_x_tile _) in *. set (my := max_y_tile _) in *.
  assert (stride * ty + tx <= stride * my + mx) as Hi by nia. assert (0 <= stride * ty) by nia.
  assert ((tx =? mx) && (ty =? my) = false -> stride * ty + tx + 1 <= stride * my + mx) as Hi1.
  { intros E. apply andb_false_iff in E. rewrite !Z.eqb_neq in E.
    destruct (Z.eq_dec ty my) as [->|]; [lia|]. assert (stride * (ty + 1) <= stride * my) by nia. lia. }
  unfold VC4_TILE_BUFFER_SIZE in *. exists (sf_hindex surf), obj. split; [done|].
  rewrite u32_small by lia. destruct ((tx =? mx) && (ty =? my)); cbn [negb]; [lia|]. specialize (Hi1 eq_refl). lia.
Qed.

Lemma load_packets_in_bounds tx ty whole p :
  p ∈ color_load_packets x st tx ty ++ zs_load_packets x st tx ty -> packet_in_bounds x whole p.
Proof.
  unfold color_load_packets, zs_load_packets. pose proof (su_color_read _ _ Ho) as Hc. pose proof (su_zs_read _ _ Ho) as Hz.
  intros [H|H]%elem_of_app.
  - destruct (st_color_read st) as [bo|]; [|by apply elem_of_nil in H]. destruct (Hc _ eq_refl) as [_ Hc'].
    destruct (is_full_res (color_read (rx_args x))); apply list_elem_of_singleton in H as ->; [done|].
    apply surface_in_buffer; [apply Ha|by apply Hc'].
  - destruct (st_zs_read st) as [bo|]; [|by apply elem_of_nil in H]. destruct (Hz _ eq_refl) as [_ Hz'].
    destruct (is_full_res (zs_read (rx_args x))); [by apply list_elem_of_singleton in H as ->|].
    apply elem_of_app in H as [H|H].
    + destruct (present (st_color_read st)); [|by apply elem_of_nil in H].
      apply elem_of_cons in H as [->|H]; [done|]. apply list_elem_of_singleton in H as ->. by left.
    + apply list_elem_of_singleton in H as ->. apply surface_in_buffer; [apply Ha|by apply Hz'].
Qed.

Lemma again_in_bounds other tx ty whole p : p ∈ again other tx ty -> packet_in_bounds x whole p.
Proof. unfold again. destruct other; intros H; [by apply list_elem_of_singleton in H as ->|by apply elem_of_nil in H]. Qed.

Lemma store_packets_in_bounds tx ty last p :
  0 <= tx <= max_x_tile (rx_args x) -> 0 <= ty <= max_y_tile (rx_args x) ->
  p ∈ msaa_color_packets x st tx ty last ++ msaa_zs_packets x st tx ty last ++ zs_packets x st tx ty last
      ++ color_packets st tx ty last ->
  packet_in_bounds x (negb ((tx =? max_x_tile (rx_args x)) && (ty =? max_y_tile (rx_args x)))) p.
Proof.
  intros Hx Hy. unfold msaa_color_packets, msaa_zs_packets, zs_packets, color_packets.
  pose proof (su_msaa_color _ _ Ho) as Hc. pose proof (su_msaa_zs _ _ Ho) as Hz. pose proof (su_zs_write _ _ Ho) as Hg.
  rewrite !elem_of_app. intros [H|[H|[H|H]]].
  - destruct (st_msaa_color_write st) as [bo|]; [|by apply elem_of_nil in H]. apply list_elem_of_singleton in H as ->.
    apply msaa_in_buffer; [apply Ha|by apply Hc|apply full_res_bits_small; by right|done|done].
  - destruct (st_msaa_zs_write st) as [bo|]; [|by apply elem_of_nil in H].
    apply elem_of_app in H as [H|H]; [by eapply again_in_bounds|]. apply list_elem_of_singleton in H as ->.
    apply msaa_in_buffer; [apply Ha|by apply Hz|apply full_res_bits_small; by left|done|done].
  - destruct (st_zs_write st) as [bo|]; [|by apply elem_of_nil in H].
    apply elem_of_app in H as [H|H]; [by eapply again_in_bounds|]. apply list_elem_of_singleton in H as ->. right.
    specialize (Hg bo eq_refl). pose proof (ao_zs_write _ Ha) as (_ & Hs & _). pose proof Hg as (Hd & Hal & _ & Hb).
    destruct (data_bo_mem _ _ Hd) as (M1 & M2 & M3 & M4).
    rewrite loadstore_bytes_flag, ldiff_flags by (try (by apply u32_aligned, aligned_add); by destruct (last && _)).
    pose proof (loadstore_bytes_nonneg (sf_bits (zs_write (rx_args x)))).
    rewrite u32_small by lia. apply surface_in_buffer; [apply Ha|done].
  - destruct (st_color_write st) as [bo|]; [|by apply elem_of_nil in H].
    apply elem_of_app in H as [H|H]; [by eapply again_in_bounds|]. by apply list_elem_of_singleton in H as ->.
Qed.

(** The binner has a list for every tile of the rectangle. *)
Context (Hbin : has_bin x = true -> exists tile, rx_tile_bo x = Some tile /\
  rx_tile_alloc_offset x + 32 * (rx_bin_tiles_x x * rx_bin_tiles_y x) <= obj_size tile /\
  max_x_tile (rx_args x) < rx_bin_tiles_x x /\ max_y_tile (rx_args x) < rx_bin_tiles_y x).

Lemma bin_packets_in_bounds tx ty first whole p :
  0 <= tx <= max_x_tile (rx_args x) -> 0 <= ty <= max_y_tile (rx_args x) ->
  p ∈ bin_packets x tx ty first -> packet_in_bounds x whole p.
Proof.
  intros Hx Hy. unfold bin_packets. destruct (rx_tile_bo x) as [tile|] eqn:Et; [|by intros H%elem_of_nil].
  destruct (has_bin x); [|by intros H%elem_of_nil]. destruct Hbin as (t & [= <-] & H1 & H2 & H3); [done|].
  intros [H|H]%elem_of_app.
  - destruct first; [by apply list_elem_of_singleton in H as ->|by apply elem_of_nil in H].
  - apply list_elem_of_singleton in H as ->. exists tile. split; [done|]. unfold sub_list.
    assert (ty * rx_bin_tiles_x x + tx + 1 <= rx_bin_tiles_x x * rx_bin_tiles_y x) by nia.
    assert (0 <= ty * rx_bin_tiles_x x) by nia. lia.
Qed.

Lemma tile_packets_in_bounds tx ty first last p :
  (tx, ty) ∈ rcl_tiles x -> p ∈ tile_packets x st tx ty first last ->
  packet_in_bounds x (negb ((tx =? max_x_tile (rx_args x)) && (ty =? max_y_tile (rx_args x)))) p.
Proof.
  intros [Hx Hy]%elem_of_tiles. pose proof (ao_min_x _ Ha) as Hmx. pose proof (ao_min_y _ Ha) as Hmy. unfold tile_packets.
  rewrite app_assoc. intros [H|H]%elem_of_app; [by eapply load_packets_in_bounds|].
  apply elem_of_cons in H as [->|H]; [done|]. apply elem_of_app in H as [H|H].
  - eapply bin_packets_in_bounds; [..|exact H]; lia.
  - eapply store_packets_in_bounds; [..|exact H]; lia.
Qed.

Lemma head_packets_in_bounds p : p ∈ config_packets x st ++ clear_packets x -> packet_in_bounds x true p.
Proof.
  intros [H|H]%elem_of_app.
  - apply list_elem_of_singleton in H as ->. cbn [packet_in_bounds]. destruct (st_color_write st) as [bo|] eqn:E; [right|by left].
    destruct (su_color_write _ _ Ho bo E) as [Hd Hb]. exists (sf_hindex (color_write (rx_args x))), bo. split; [done|].
    pose proof (ao_color_write _ Ha) as (_ & Hs & _). lia.
  - unfold clear_packets in H. destruct (use_clear_color x); [|by apply elem_of_nil in H].
    apply elem_of_cons in H as [->|H]; [done|]. apply elem_of_cons in H as [->|H]; [done|].
    apply list_elem_of_singleton in H as ->. by left.
Qed.

End Bounds.
