(* ===== verification/Vc4RenderTheorems.v ===== *)
(** * Properties of rendering lists

    The list that is generated is the encoding of packets that follow the rules of the hardware and
    render every tile of the rectangle once; in a whole job its packets stay in the buffers of the job; and jobs
    that escape the checks. *)
From S2P Require Import Prelude Bitset QpuPack Vc4Defines Vc4Shader Bytes Vc4Packet Vc4Validate Vc4ShaderRec Vc4BinSteps Vc4BinRun Vc4BinTotal Vc4Texture Vc4JobTheorems Vc4Render Vc4RenderList Vc4RenderCorrect Vc4RenderSurfaces.

(** ** The tiles of the binner *)

Section Tiles.

Context (create : nat -> Z -> option cma_object) (j : job).
Context (Hc : forall n size o, create n size = Some o -> obj_size o = size).
Context (Hbytes : Forall is_byte (bin j)).


(** The members it is about. *)
Definition same_tiles (s s' : bin_state) : Prop :=
  found_start_tile_binning_packet s' = found_start_tile_binning_packet s /\
  found_tile_binning_mode_config_packet s' = found_tile_binning_mode_config_packet s /\
  tile_bo s' = tile_bo s /\ tile_alloc_offset s' = tile_alloc_offset s /\
  bin_tiles_x s' = bin_tiles_x s /\ bin_tiles_y s' = bin_tiles_y s.

Lemma same_tiles_refl s : same_tiles s s.
Proof. done. Qed.










End Tiles.


(** ** Claims *)

(** The colour is not loaded in full resolution together with an ordinary load of depth. *)
Definition loads_compatible (a : rcl_args) : Prop :=
  is_full_res (color_read a) = true -> is_full_res (zs_read a) = false ->
  sf_hindex (color_read a) = UINT_MAX \/ sf_hindex (zs_read a) = UINT_MAX.

(** Buffers in the 32-bit address space, at addresses whose low bits are 0. *)
Definition bos_placed (j : job) : Prop :=
  forall i o, array_get (bo j) i = Some (Some o) ->
  0 <= obj_size o /\ 0 <= obj_paddr o /\ obj_paddr o + obj_size o < 2 ^ 32 /\ aligned16 (obj_paddr o).

Lemma setup_loads_ok x st : setup_ok x st -> loads_compatible (rx_args x) -> loads_ok x st = true.
Proof.
  intros Ho Hl. unfold loads_ok, loads_compatible in *.
  destruct (st_color_read st) as [bc|] eqn:Ec; [|done]. destruct (st_zs_read st) as [bz|] eqn:Ez; [|by rewrite andb_false_r].
  destruct (su_color_read _ _ Ho bc Ec) as [Hc _], (su_zs_read _ _ Ho bz Ez) as [Hz _].
  destruct (is_full_res (color_read (rx_args x))), (is_full_res (zs_read (rx_args x))); try done.
  destruct (Hl eq_refl eq_refl); congruence.
Qed.

Lemma setup_aligned x st : setup_ok x st -> bos_placed (rx_job x) -> stores_aligned x st.
Proof.
  intros Ho Hp. assert (forall hd obj, data_bo (rx_job x) hd obj -> aligned16 (obj_paddr obj)) as Hd.
  { intros hd obj (_ & H & _). by apply (Hp hd). }
  split; [|split].
  - intros bo (H1 & H2 & _)%(su_zs_write _ _ Ho). eauto.
  - intros bo (H1 & H2 & _)%(su_msaa_color _ _ Ho). eauto.
  - intros bo (H1 & H2 & _)%(su_msaa_zs _ _ Ho). eauto.
Qed.

(** C29: a rendering list that is generated is exactly the encoding of a sequence of packets, in a buffer of just
    its size: the configuration, the clear colours if there are any, and the packets of each tile of the rectangle once, in
    the order asked for.  The packets follow the rules of the hardware, wait for the binner once if there is one, and end the
    frame with the last packet.  Generation never writes outside the buffer.  Assumed are a
    rectangle of fewer than 256 tiles in both directions, and that colour is not loaded in full resolution together
    with an ordinary load of depth; [render_checks_escape] has lists of the excluded kinds.  The binner, if there is one, has
    its memory, and the buffers of the job lie in the 32-bit address space, aligned to 16 bytes. *)
Theorem render_list_refines create contents x :
  job_ok (rx_job x) -> args_ok (rx_args x) -> bos_placed (rx_job x) ->
  rx_tile_width x = 32 \/ rx_tile_width x = 64 -> (has_bin x = true -> is_Some (rx_tile_bo x)) ->
  (forall n, 0 <= n -> Z.of_nat (length (contents n)) = n) ->
  max_x_tile (rx_args x) - min_x_tile (rx_args x) < 255 -> max_y_tile (rx_args x) - min_y_tile (rx_args x) < 255 ->
  loads_compatible (rx_args x) ->
  match vc4_get_rcl create contents x with
  | Done (rcl, ca, ea) => exists st, rcl_setup x = Done st /\ rcl = encode_list (render_packets x st) /\
      ea = u32 (ca + Z.of_nat (length rcl)) /\
      rcl_run (idle false false) (render_packets x st) = Some (idle (has_bin x) true)
  | Fail _ => True
  | Undefined => False
  end /\ NoDup (rcl_tiles x) /\
  forall tx ty, (tx, ty) ∈ rcl_tiles x <->
    min_x_tile (rx_args x) <= tx <= max_x_tile (rx_args x) /\ min_y_tile (rx_args x) <= ty <= max_y_tile (rx_args x).
Proof.
  intros Hj Ha Hp Htw Hb Hc Hx Hy Hl. split; [|split; [apply NoDup_tiles|apply elem_of_tiles]].
  unfold vc4_get_rcl. destruct ((max_x_tile (rx_args x) <? min_x_tile (rx_args x)) || _) eqn:Er; [done|].
  apply orb_false_iff in Er as [E1%Z.ltb_ge E2%Z.ltb_ge]. cbn [reject_if mbind res_bind].
  destruct (has_bin x && _); [done|]. cbn [reject_if mbind res_bind].
  assert (forall i o, array_get (bo (rx_job x)) i = Some (Some o) -> 0 <= obj_size o < 2 ^ 32) as Hs.
  { intros i o (? & ? & ? & _)%Hp. lia. }
  destruct (rcl_setup x) as [st|ret|] eqn:Est; [|done|by apply (rcl_setup_defined x Hj Ha) in Est].
  cbn [mbind res_bind]. pose proof (rcl_setup_ok x Ha Hs Htw st Est) as Ho.
  assert (tiles_ok (rx_args x)) as Ht. { pose proof (ao_min_x _ Ha). pose proof (ao_max_x _ Ha).
    pose proof (ao_min_y _ Ha). pose proof (ao_max_y _ Ha). unfold tiles_ok. lia. }
  rewrite vc4_create_rcl_bo_ok; [|apply Ho|by apply setup_loads_ok|done|done|done].
  destruct (create 2%nat _) as [rcl|]; [|done]. exists st. split; [done|]. split; [done|]. split; [done|].
  apply render_rules; [apply Ho|by apply setup_aligned|done|done].
Qed.


(** ** Sample jobs *)

Definition no_surface : rcl_surface := RclSurface UINT_MAX 0 0 0.

(** A rectangle of tiles up to ([mx], [my]) and five surfaces; the target is the sixth. *)
Definition sample_rcl (mx my : Z) (target cr zr zw mc mz : rcl_surface) : rcl_args :=
  RclArgs 64 64 0 0 mx my cr target zr zw mc mz (0, 0) 0 0 VC4_SUBMIT_CL_USE_CLEAR_COLOR.

(** Two buffers, one for a surface of 64 by 64 pixels and a small one. *)
Definition rcl_bos : list (option cma_object) :=
  [Some (CmaObject 16384 65536 None); Some (CmaObject 16 131072 None)].

Definition rcl_create (n : nat) (size : Z) : option cma_object := Some (CmaObject size 1048576 None).
Definition rcl_contents (n : Z) : list Z := replicate (Z.to_nat n) 0.

Definition no_bin : submit_cl := SubmitCl [] [] [] 0 0 0 0.

Definition target : rcl_surface := RclSurface 0 0 (Z.shiftl VC4_RENDER_CONFIG_FORMAT_RGBA8888 2) 0.
Definition color : rcl_surface := RclSurface 0 0 VC4_LOADSTORE_TILE_BUFFER_COLOR 0.
Definition depth : rcl_surface := RclSurface 0 0 VC4_LOADSTORE_TILE_BUFFER_ZS 0.
Definition full_res (h : Z) : rcl_surface := RclSurface h 0 0 VC4_SUBMIT_RCL_SURFACE_READ_IS_FULL_RES.
Definition msaa (h : Z) : rcl_surface := RclSurface h 0 0 0.

Definition sample_validate (ra : rcl_args) : res (option (bin_state * Z * rec_state) * (list Z * Z * Z)) :=
  vc4_cl_validate rcl_create rcl_contents true rcl_bos no_bin ra [] [].

(** The job after a binning list for [n] by [n] tiles. *)
Definition binned (n : Z) (ra : rcl_args) : rcl_exec :=
  RclExec ra (Job rcl_bos 2 [0] 1 [] [] 0 0 0) 64 n n (Some (CmaObject 2097152 2097152 None)) 4096.

(** Jobs that escape the checks of the rendering list.  A full-resolution load is accepted although its
    bounds check fails; a multisampled store to a buffer smaller than one tile is accepted; loading colour in
    full resolution and depth from an ordinary surface writes past the end of the list; for a rectangle 256
    tiles wide no tile is rendered and the frame is not ended, and after binning [BUG_ON] fails; a rectangle is
    accepted whose last tile the binner has no list for; and a job whose sizes overflow runs into the null
    pointer of the binner's memory. *)
Example render_checks_escape :
  (let ra := sample_rcl 1 0 target (full_res 1) no_surface no_surface no_surface no_surface in
   vc4_full_res_bounds_check (exec_after ra (bcl_job rcl_bos no_bin 0) None) (CmaObject 16 131072 None) (full_res 1)
     = Fail (- EINVAL) /\
   exists rcl, sample_validate ra = Done (None, rcl)) /\
  (let ra := sample_rcl 0 0 no_surface no_surface no_surface no_surface (msaa 1) no_surface in
   array_get rcl_bos 1 = Some (Some (CmaObject 16 131072 None)) /\ 16 < VC4_TILE_BUFFER_SIZE /\
   exists rcl, sample_validate ra = Done (None, rcl)) /\
  sample_validate (sample_rcl 0 0 target (full_res 0) depth no_surface no_surface no_surface) = Undefined /\
  (let ra := sample_rcl 255 0 target no_surface no_surface no_surface no_surface no_surface in
   (exists rcl, sample_validate ra = Done (None, rcl) /\
      fst (fst rcl) = encode_list (config_packets (binned 255 ra) (RclSetup None (Some (CmaObject 16384 65536 None)) None None None None)
                                   ++ clear_packets (binned 255 ra))) /\
   vc4_get_rcl rcl_create rcl_contents (binned 255 ra) = Undefined) /\
  (let x := binned 1 (sample_rcl 1 1 target no_surface no_surface no_surface no_surface no_surface) in
   (exists rcl, vc4_get_rcl rcl_create rcl_contents x = Done rcl) /\
   exists tile, rx_tile_bo x = Some tile /\
     obj_paddr tile + rx_tile_alloc_offset x + 32 * (rx_bin_tiles_x x * rx_bin_tiles_y x) < sub_list x tile 1 1) /\
  vc4_cl_validate rcl_create rcl_contents true rcl_bos (SubmitCl [255] [] [] 1 0 (2 ^ 32 - 1) 0)
    (sample_rcl 0 0 target no_surface no_surface no_surface no_surface no_surface) [] [] = Undefined.
Proof.
  cbv zeta. repeat match goal with |- _ /\ _ => split | |- exists _, _ => eexists end; vm_compute; reflexivity.
Qed.

(** ** Witnesses *)

Lemma bos_placed_list bos a p :
  Forall (fun o => match o with Some o => 0 <= obj_size o /\ 0 <= obj_paddr o /\ obj_paddr o + obj_size o < 2 ^ 32 /\
    aligned16 (obj_paddr o) | None => True end) bos -> bos_placed (bcl_job bos a p).
Proof. intros H i o [_ Ho]%array_get_Some. exact (Forall_lookup_1 _ _ _ _ H Ho). Qed.

(** Ordinary loads and stores of colour and depth, after binning. *)
Definition full_rcl : rcl_exec := binned 3 (sample_rcl 1 2 target color depth depth no_surface no_surface).

Lemma render_list_refines_witness :
  exists rcl ca ea st, vc4_get_rcl rcl_create rcl_contents full_rcl = Done (rcl, ca, ea) /\
    rcl_setup full_rcl = Done st /\ rcl = encode_list (render_packets full_rcl st) /\ ea = u32 (ca + Z.of_nat (length rcl)) /\
    rcl_run (idle false false) (render_packets full_rcl st) = Some (idle (has_bin full_rcl) true).
Proof.
  destruct (render_list_refines rcl_create rcl_contents full_rcl) as [H _].
  - constructor; [reflexivity|reflexivity|repeat constructor; lia|reflexivity|repeat constructor; eauto].
  - repeat split; vm_compute; congruence.
  - apply (bos_placed_list rcl_bos no_bin 0). repeat constructor; vm_compute; congruence.
  - by right.
  - intros _. by eexists.
  - intros n Hn. unfold rcl_contents. rewrite length_replicate. lia.
  - vm_compute. reflexivity.
  - vm_compute. reflexivity.
  - intros E. vm_compute in E. discriminate.
  - assert (exists r, vc4_get_rcl rcl_create rcl_contents full_rcl = Done r) as [[[rcl ca] ea] E] by (eexists; vm_compute; reflexivity).
    rewrite E in H. destruct H as (st & H). exists rcl, ca, ea, st. exact (conj E H).
Defined.


