(* ===== verification/MemManager.v ===== *)
(** * The memory manager ([src/gallium/auxiliary/util/u_mm.c])

    A heap is a range of offsets cut into blocks.  Each block is a node on the C heap that is
    linked in two rings through the heap node: all blocks in the order of their offsets, and the
    free blocks in no particular order.  The nodes live in a store from addresses to
    nodes, so that both rings share them; [None] is an access to an address
    without a node, or a failed assertion.  [int] arithmetic is that of two's
    complement. *)
From stdpp Require Import gmap.
From S2P Require Import Prelude.

Record mem_block := MemBlock {
  mb_next : Z; mb_prev : Z; mb_next_free : Z; mb_prev_free : Z; mb_heap : Z;
  mb_ofs : Z; mb_size : Z; mb_free : bool; mb_reserved : bool }.

Definition NULL : Z := 0.

Notation mm_store := (gmap Z mem_block).

(** ** Members *)

Definition set_next (v : Z) (b : mem_block) : mem_block :=
  MemBlock v (mb_prev b) (mb_next_free b) (mb_prev_free b) (mb_heap b) (mb_ofs b) (mb_size b)
    (mb_free b) (mb_reserved b).
Definition set_prev (v : Z) (b : mem_block) : mem_block :=
  MemBlock (mb_next b) v (mb_next_free b) (mb_prev_free b) (mb_heap b) (mb_ofs b) (mb_size b)
    (mb_free b) (mb_reserved b).
Definition set_next_free (v : Z) (b : mem_block) : mem_block :=
  MemBlock (mb_next b) (mb_prev b) v (mb_prev_free b) (mb_heap b) (mb_ofs b) (mb_size b)
    (mb_free b) (mb_reserved b).
Definition set_prev_free (v : Z) (b : mem_block) : mem_block :=
  MemBlock (mb_next b) (mb_prev b) (mb_next_free b) v (mb_heap b) (mb_ofs b) (mb_size b)
    (mb_free b) (mb_reserved b).
(** [ofs], [size], [free], [reserved] and [heap]. *)
Definition set_data (heap ofs size : Z) (free reserved : bool) (b : mem_block) : mem_block :=
  MemBlock (mb_next b) (mb_prev b) (mb_next_free b) (mb_prev_free b) heap ofs size free reserved.
Definition set_size (size : Z) (b : mem_block) : mem_block :=
  set_data (mb_heap b) (mb_ofs b) size (mb_free b) (mb_reserved b) b.
Definition set_free (free : bool) (b : mem_block) : mem_block :=
  set_data (mb_heap b) (mb_ofs b) (mb_size b) free (mb_reserved b) b.
Definition set_reserved (reserved : bool) (b : mem_block) : mem_block :=
  set_data (mb_heap b) (mb_ofs b) (mb_size b) (mb_free b) reserved b.

(** An assignment to members of the node at [p]. *)
Definition upd (m : mm_store) (p : Z) (f : mem_block -> mem_block) : option mm_store :=
  b ← m !! p; Some (<[p := f b]> m).

(** The two pairs of links. *)
Class Links := {
  get_n : mem_block -> Z; get_p : mem_block -> Z;
  set_n : Z -> mem_block -> mem_block; set_p : Z -> mem_block -> mem_block;
  get_n_set_n v b : get_n (set_n v b) = v; get_p_set_p v b : get_p (set_p v b) = v;
  get_n_set_p v b : get_n (set_p v b) = get_n b; get_p_set_n v b : get_p (set_n v b) = get_p b }.

Definition all_links : Links.
Proof. refine {| get_n := mb_next; get_p := mb_prev; set_n := set_next; set_p := set_prev |}; done. Defined.
Definition free_links : Links.
Proof.
  refine {| get_n := mb_next_free; get_p := mb_prev_free; set_n := set_next_free; set_p := set_prev_free |}; done.
Defined.

(** Links the node [n] into a ring after the node [p]:
    [n->next = p->next; n->prev = p; p->next->prev = n; p->next = n]. *)
Definition insert_after (L : Links) (m : mm_store) (p n : Z) : option mm_store :=
  b ← m !! p; m ← upd m n (set_n (get_n b));
  m ← upd m n (set_p p);
  b ← m !! p; m ← upd m (get_n b) (set_p n);
  upd m p (set_n n).

(** Takes the node [p] out of a ring: [p->next->prev = p->prev; p->prev->next = p->next]. *)
Definition unlink (L : Links) (m : mm_store) (p : Z) : option mm_store :=
  b ← m !! p; m ← upd m (get_n b) (set_p (get_p b));
  b ← m !! p; upd m (get_p b) (set_n (get_n b)).

Section MemManager.

(** [CALLOC] during one call: the address of a new node, or nothing.  A call allocates at most twice, in different
    stores; other calls may have other allocators. *)
Context (calloc : mm_store -> option Z).

Definition new_block : mem_block := MemBlock NULL NULL NULL NULL NULL 0 0 false false.

(** A new node filled with zeros. *)
Definition calloc_block (m : mm_store) : option (Z * mm_store) :=
  match calloc m with Some a => Some (a, <[a := new_block]> m) | None => None end.

Definition u_mmInit (m : mm_store) (ofs size : Z) : option (Z * mm_store) :=
  if size <=? 0 then Some (NULL, m) else
  match calloc_block m with
  | None => Some (NULL, m)
  | Some (heap, m) =>
    match calloc_block m with
    | None => Some (NULL, delete heap m)
    | Some (block, m) =>
      m ← upd m heap (set_next block); m ← upd m heap (set_prev block);
      m ← upd m heap (set_next_free block); m ← upd m heap (set_prev_free block);
      m ← upd m block (set_data heap ofs size true false);
      m ← upd m block (set_next heap); m ← upd m block (set_prev heap);
      m ← upd m block (set_next_free heap); m ← upd m block (set_prev_free heap);
      Some (heap, m)
    end
  end.

(** A new free node after the node [p], in both rings; [Some None]: no memory. *)
Definition split_after (m : mm_store) (p ofs size : Z) : option (option (Z * mm_store)) :=
  match calloc_block m with
  | None => Some None
  | Some (n, m) =>
    b ← m !! p;
    m ← upd m n (set_data (mb_heap b) ofs size true false);
    m ← insert_after all_links m p n;
    m ← insert_after free_links m p n;
    Some (Some (n, m))
  end.

(** Breaks the part before [startofs] off: the block that starts there. *)
Definition break_left (m : mm_store) (p startofs : Z) : option (option (Z * mm_store)) :=
  b ← m !! p;
  if mb_ofs b <? startofs then
    r ← split_after m p startofs (i32 (mb_size b - i32 (startofs - mb_ofs b)));
    match r with
    | None => Some None
    | Some (n, m) =>
      nb ← m !! n; b ← m !! p;
      m ← upd m p (set_size (i32 (mb_size b - mb_size nb)));
      Some (Some (n, m))
    end
  else Some (Some (p, m)).

(** Breaks the part after [size] bytes off. *)
Definition break_right (m : mm_store) (p startofs size : Z) : option (option mm_store) :=
  b ← m !! p;
  if size <? mb_size b then
    r ← split_after m p (i32 (startofs + size)) (i32 (mb_size b - size));
    match r with
    | None => Some None
    | Some (n, m) => m ← upd m p (set_size size); Some (Some m)
    end
  else Some (Some m).

(** The block is used from now on. *)
Definition take_block (m : mm_store) (p : Z) (reserved : bool) : option mm_store :=
  m ← upd m p (set_free false);
  m ← unlink free_links m p;
  m ← upd m p (set_next_free NULL); m ← upd m p (set_prev_free NULL);
  upd m p (set_reserved reserved).

Definition SliceBlock (m : mm_store) (p startofs size : Z) (reserved : bool) : option (Z * mm_store) :=
  r ← break_left m p startofs;
  match r with
  | None => Some (NULL, m)
  | Some (p, m) =>
    r ← break_right m p startofs size;
    match r with
    | None => Some (NULL, m)
    | Some m => m ← take_block m p reserved; Some (p, m)
    end
  end.

(** Where an allocation in block [b] would start. *)
Definition start_offset (b : mem_block) (mask startSearch : Z) : Z :=
  let startofs := Z.land (i32 (mb_ofs b + mask)) (Z.lnot mask) in
  if startofs <? startSearch then startSearch else startofs.

(** The loop over the free blocks from [p] on: a block and the start in it, if one is large enough. *)
Fixpoint find_fit (fuel : nat) (m : mm_store) (heap p size mask startSearch : Z) : option (option (Z * Z)) :=
  match fuel with
  | O => None
  | S fuel =>
    if p =? heap then Some None else
    b ← m !! p;
    if negb (mb_free b) then None else
    let startofs := start_offset b mask startSearch in
    let endofs := i32 (startofs + size) in
    if endofs <=? i32 (mb_ofs b + mb_size b) then Some (Some (p, startofs))
    else find_fit fuel m heap (mb_next_free b) size mask startSearch
  end.

(** There are at most as many free blocks as nodes. *)
Definition u_mmAllocMem (m : mm_store) (heap size align2 startSearch : Z) : option (Z * mm_store) :=
  let mask := i32 (i32 (Z.shiftl 1 align2) - 1) in
  if negb ((0 <=? size) && (0 <=? align2) && (align2 <? 32)) then None
  else if (heap =? NULL) || (align2 <? 0) || (size <=? 0) then Some (NULL, m)
  else
    h ← m !! heap;
    r ← find_fit (S (base.size m)) m heap (mb_next_free h) size mask startSearch;
    match r with
    | None => Some (NULL, m)
    | Some (p, startofs) => SliceBlock m p startofs size false
    end.

(** The loop of [u_mmFindBlock]. *)
Fixpoint find_block (fuel : nat) (m : mm_store) (heap p start : Z) : option Z :=
  match fuel with
  | O => None
  | S fuel =>
    if p =? heap then Some NULL else
    b ← m !! p;
    if mb_ofs b =? start then Some p else find_block fuel m heap (mb_next b) start
  end.

Definition u_mmFindBlock (m : mm_store) (heap start : Z) : option Z :=
  h ← m !! heap; find_block (S (base.size m)) m heap (mb_next h) start.

(** Joins the block with the next one if both are free. *)
Definition Join2Blocks (m : mm_store) (p : Z) : option (Z * mm_store) :=
  b ← m !! p;
  if negb (mb_free b) then Some (0, m) else
  q ← m !! mb_next b;
  if negb (mb_free q) then Some (0, m) else
  let qa := mb_next b in
  if negb (i32 (mb_ofs b + mb_size b) =? mb_ofs q) then None else
  m ← upd m p (set_size (i32 (mb_size b + mb_size q)));
  m ← upd m p (set_next (mb_next q));
  m ← upd m (mb_next q) (set_prev p);
  m ← unlink free_links m qa;
  Some (1, delete qa m).

(** Links the block into the free list after the heap node. *)
Definition push_free (m : mm_store) (b heap : Z) : option mm_store :=
  h ← m !! heap;
  m ← upd m b (set_next_free (mb_next_free h));
  m ← upd m b (set_prev_free heap);
  bb ← m !! b; m ← upd m (mb_next_free bb) (set_prev_free b);
  bb ← m !! b; upd m (mb_prev_free bb) (set_next_free b).

Definition u_mmFreeMem (m : mm_store) (b : Z) : option (Z * mm_store) :=
  if b =? NULL then Some (0, m) else
  bb ← m !! b;
  if mb_free bb then Some (-1, m)
  else if mb_reserved bb then Some (-1, m)
  else
    m ← upd m b (set_free true);
    m ← push_free m b (mb_heap bb);
    '(_, m) ← Join2Blocks m b;
    bb ← m !! b;
    if negb (mb_prev bb =? mb_heap bb) then
      '(_, m) ← Join2Blocks m (mb_prev bb); Some (0, m)
    else Some (0, m).

(** Frees the nodes from [p] on. *)
Fixpoint destroy_blocks (fuel : nat) (m : mm_store) (heap p : Z) : option mm_store :=
  match fuel with
  | O => None
  | S fuel =>
    if p =? heap then Some m else
    b ← m !! p;
    destroy_blocks fuel (delete p m) heap (mb_next b)
  end.

Definition u_mmDestroy (m : mm_store) (heap : Z) : option mm_store :=
  if heap =? NULL then Some m else
  h ← m !! heap;
  m ← destroy_blocks (S (base.size m)) m heap (mb_next h);
  Some (delete heap m).

End MemManager.
