(* ===== verification/MemManagerRings.v ===== *)
(** * Rings of nodes

    A ring is a doubly linked list through a sentinel.  The lemmas describe the effect of linking a
    node in and out, for either pair of links, and what assignments to other members leave
    alone. *)
From stdpp Require Import gmap.
From S2P Require Import Prelude MemManager.

(** ** Assignments *)

Lemma upd_inv m p f m' : upd m p f = Some m' -> exists b, m !! p = Some b /\ m' = <[p := f b]> m.
Proof. unfold upd. destruct (m !! p) as [b|]; [|discriminate]. cbn. intros H. injection H as <-. eauto. Qed.

Lemma upd_Some m p f b : m !! p = Some b -> upd m p f = Some (<[p := f b]> m).
Proof. unfold upd. intros ->. done. Qed.

Lemma upd_other m p f m' x : upd m p f = Some m' -> x <> p -> m' !! x = m !! x.
Proof. intros (b & _ & ->)%upd_inv Hx. by rewrite lookup_insert_ne. Qed.

(** Two assignments to one node. *)
Lemma upd_upd m p f g : upd m p f ≫= (fun m => upd m p g) = upd m p (fun b => g (f b)).
Proof.
  unfold upd. destruct (m !! p) as [b|]; [|done]. obind.
  rewrite lookup_insert_eq. obind. by rewrite insert_insert_eq.
Qed.

(** A member seen through a store. *)
Definition view {A} (g : mem_block -> A) (m : mm_store) (x : Z) : option A := g <$> m !! x.

Lemma view_upd_other {A} (g : mem_block -> A) m p f m' x :
  upd m p f = Some m' -> x <> p -> view g m' x = view g m x.
Proof. intros (b & _ & ->)%upd_inv Hx. unfold view. by rewrite lookup_insert_ne. Qed.

Lemma view_upd_same {A} (g : mem_block -> A) m p f m' :
  upd m p f = Some m' -> view g m' p = (fun b => g (f b)) <$> m !! p.
Proof. intros (b & Hb & ->)%upd_inv. unfold view. by rewrite lookup_insert_eq, Hb. Qed.

(** The members an assignment does not touch. *)
Lemma view_upd_frame {A} (g : mem_block -> A) m p f m' x :
  upd m p f = Some m' -> (forall b, g (f b) = g b) -> view g m' x = view g m x.
Proof.
  intros Hu Hg. destruct (decide (x = p)) as [->|Hx]; [|by eapply view_upd_other].
  rewrite (view_upd_same _ _ _ _ _ Hu). unfold view. destruct (m !! p); cbn; [by rewrite Hg|done].
Qed.

Lemma view_upd_set {A} (g : mem_block -> A) m p f m' v x :
  upd m p f = Some m' -> (forall b, g (f b) = v) ->
  view g m' x = if decide (x = p) then Some v else view g m x.
Proof.
  intros Hu Hg. case_decide as Hx; [|by eapply view_upd_other]. subst x.
  rewrite (view_upd_same _ _ _ _ _ Hu). apply upd_inv in Hu as (b & -> & _). cbn. by rewrite Hg.
Qed.

(** ** Chains *)

Section Chain.

Context (L : Links).

(** The nodes [l] between [x] and [y]. *)
Fixpoint chain (m : mm_store) (x : Z) (l : list Z) (y : Z) : Prop :=
  match l with
  | [] => view get_n m x = Some y /\ view get_p m y = Some x
  | z :: l => view get_n m x = Some z /\ view get_p m z = Some x /\ chain m z l y
  end.

Lemma chain_app m x l1 z l2 y : chain m x (l1 ++ z :: l2) y <-> chain m x l1 z /\ chain m z l2 y.
Proof.
  revert x. induction l1 as [|w l1 IH]; intros x; cbn [app chain]; [tauto|]. rewrite IH. tauto.
Qed.

(** Only the links between the nodes matter. *)
Lemma chain_frame m m' x l y :
  (forall z, z ∈ x :: l -> view get_n m' z = view get_n m z) ->
  (forall z, z ∈ l ++ [y] -> view get_p m' z = view get_p m z) -> chain m x l y -> chain m' x l y.
Proof.
  revert x. induction l as [|w l IH]; intros x Hn Hp; cbn [chain app] in *.
  - intros [H1 H2]. rewrite Hn, Hp by set_solver. done.
  - intros (H1 & H2 & H3). rewrite Hn, Hp by set_solver. split; [done|]. split; [done|].
    apply IH; [set_solver..|done].
Qed.

(** The first node after [x]. *)
Lemma chain_next m x l y : chain m x l y -> view get_n m x = Some (hd y l).
Proof. destruct l; cbn; tauto. Qed.

Lemma chain_prev m x l y : chain m x l y -> view get_p m y = Some (List.last l x).
Proof.
  revert x. induction l as [|w l IH]; intros x; cbn [chain]; [tauto|]. intros (_ & _ & H).
  rewrite (IH _ H). destruct l as [|v l]; [done|]. cbn [List.last].
  f_equal. clear. revert v. induction l as [|u l IH]; intros v; [done|]. cbn [List.last]. apply IH.
Qed.

(** A node [n] linked in at the start of a chain. *)
Lemma chain_insert m m' p l y n :
  chain m p l y -> p ∉ l -> n ∉ l -> NoDup l -> y ∉ l -> n <> y -> n <> p ->
  (forall z, view get_n m' z =
     if decide (z = p) then Some n else if decide (z = n) then Some (hd y l) else view get_n m z) ->
  (forall z, view get_p m' z =
     if decide (z = hd y l) then Some n else if decide (z = n) then Some p else view get_p m z) ->
  chain m' p (n :: l) y.
Proof.
  intros Hc Hp Hn Hnd Hy Hny Hnp Vn Vp. destruct l as [|q l]; cbn [chain hd] in *.
  - rewrite !Vn, !Vp. repeat case_decide; naive_solver.
  - apply NoDup_cons in Hnd as [Hq Hnd]. rewrite !not_elem_of_cons in *. destruct Hc as (_ & _ & Hc).
    rewrite !Vn, !Vp.
    assert (chain m' q l y) as Hc'.
    { apply (chain_frame m); [..|exact Hc]; intros z Hz; rewrite ?Vn, ?Vp; rewrite !decide_False; set_solver. }
    repeat case_decide; naive_solver.
Qed.

(** The nodes around [p] linked to each other. *)
Lemma chain_remove m m' x l1 p l2 y :
  chain m x (l1 ++ p :: l2) y -> NoDup (x :: l1 ++ p :: l2) -> y ∉ l1 ++ p :: l2 ->
  (forall z, view get_n m' z = if decide (z = List.last l1 x) then Some (hd y l2) else view get_n m z) ->
  (forall z, view get_p m' z = if decide (z = hd y l2) then Some (List.last l1 x) else view get_p m z) ->
  chain m' x (l1 ++ l2) y.
Proof.
  intros Hc Hnd Hy Vn Vp.
  assert (forall a, chain m a (p :: l2) y -> a = List.last l1 x -> a ∉ l2 -> chain m' a l2 y) as Hr.
  { intros a Ha Ea Hal. apply NoDup_cons in Hnd as [Hx Hnd]. apply NoDup_app in Hnd as (_ & _ & Hnd).
    apply NoDup_cons in Hnd as [_ Hnd]. cbn [chain] in Ha. destruct Ha as (_ & _ & Ha).
    destruct l2 as [|q l2]; cbn [chain hd] in *.
    - rewrite Vn, Vp, !decide_True by done. by rewrite <- Ea.
    - apply NoDup_cons in Hnd as [Hq Hnd]. rewrite Vn, Vp, !decide_True by done. rewrite <- Ea in *.
      split; [done|]. split; [done|]. destruct Ha as (_ & _ & Ha).
      apply (chain_frame m); [..|exact Ha]; intros z Hz; rewrite ?Vn, ?Vp, decide_False; set_solver. }
  destruct l1 as [|w l1] using rev_ind; [|clear IHl1].
  - cbn [app] in *. apply Hr; [done|done|]. apply NoDup_cons in Hnd as [Hx _]. set_solver.
  - rewrite last_last in *. rewrite <- app_assoc in *. cbn [app] in *.
    apply chain_app in Hc as [Hc1 Hc2]. apply chain_app. split.
    + apply NoDup_cons in Hnd as [Hx Hnd]. apply NoDup_app in Hnd as (Hnd1 & Hd & Hnd2).
      apply NoDup_cons in Hnd2 as [Hw Hnd2].
      apply (chain_frame m); [..|exact Hc1]; intros z Hz; rewrite ?Vn, ?Vp, decide_False; try done.
      * intros ->. apply elem_of_cons in Hz as [->|Hz]; [set_solver|]. apply (Hd w); set_solver.
      * intros ->. apply elem_of_app in Hz as [Hz|Hz%list_elem_of_singleton].
        -- destruct l2 as [|q l2]; cbn [hd] in Hz; [set_solver|]. apply (Hd q); set_solver.
        -- destruct l2 as [|q l2]; cbn [hd] in Hz; set_solver.
    + apply Hr; [done|done|]. apply NoDup_cons in Hnd as [_ Hnd]. apply NoDup_app in Hnd as (_ & _ & Hnd2).
      apply NoDup_cons in Hnd2 as [Hw _]. set_solver.
Qed.

End Chain.

(** ** Linking in and out *)

Lemma upd_exists m p f : is_Some (m !! p) -> exists m', upd m p f = Some m'.
Proof. intros [b Hb]. rewrite (upd_Some _ _ _ _ Hb). eauto. Qed.

(** The same nodes exist. *)
Definition same_nodes (m m' : mm_store) : Prop := forall x, is_Some (m' !! x) <-> is_Some (m !! x).

Lemma same_nodes_upd m p f m' : upd m p f = Some m' -> same_nodes m m'.
Proof.
  intros (b & Hb & ->)%upd_inv x. destruct (decide (x = p)) as [->|Hx].
  - rewrite lookup_insert_eq, Hb. by split; eauto.
  - by rewrite lookup_insert_ne.
Qed.

Lemma same_nodes_trans m1 m2 m3 : same_nodes m1 m2 -> same_nodes m2 m3 -> same_nodes m1 m3.
Proof. intros H12 H23 x. rewrite (H23 x). apply H12. Qed.

Lemma view_Some {A} (g : mem_block -> A) m x v : view g m x = Some v <-> exists b, m !! x = Some b /\ g b = v.
Proof. unfold view. rewrite fmap_Some. naive_solver. Qed.

Lemma view_is_node {A} (g : mem_block -> A) m x v : view g m x = Some v -> is_Some (m !! x).
Proof. intros (b & Hb & _)%view_Some. eauto. Qed.

Section Link.

Context (L : Links).

(** A member the links do not touch. *)
Definition unlinked {A} (g : mem_block -> A) : Prop :=
  (forall v b, g (set_n v b) = g b) /\ (forall v b, g (set_p v b) = g b).

Lemma insert_after_ok m p n q :
  view get_n m p = Some q -> is_Some (m !! q) -> is_Some (m !! n) -> n <> p ->
  exists m', insert_after L m p n = Some m' /\ same_nodes m m' /\
    (forall z, view get_n m' z =
       if decide (z = p) then Some n else if decide (z = n) then Some q else view get_n m z) /\
    (forall z, view get_p m' z =
       if decide (z = q) then Some n else if decide (z = n) then Some p else view get_p m z) /\
    (forall A (g : mem_block -> A) z, unlinked g -> view g m' z = view g m z) /\
    forall z, z <> p -> z <> n -> z <> q -> m' !! z = m !! z.
Proof.
  intros Hq Eq En Hnp. unfold insert_after. apply view_Some in Hq as (b & Hb & <-). rewrite Hb. obind.
  destruct (upd_exists m n (set_n (get_n b)) En) as [m1 H1]. rewrite H1. obind.
  pose proof (same_nodes_upd _ _ _ _ H1) as S1.
  destruct (upd_exists m1 n (set_p p)) as [m2 H2]; [by apply S1|]. rewrite H2. obind.
  pose proof (same_nodes_upd _ _ _ _ H2) as S2.
  assert (view get_n m2 p = Some (get_n b)) as (b2 & Hb2 & E2)%view_Some.
  { rewrite (view_upd_other _ _ _ _ _ _ H2), (view_upd_other _ _ _ _ _ _ H1) by done. unfold view. by rewrite Hb. }
  rewrite Hb2. obind. rewrite E2.
  destruct (upd_exists m2 (get_n b) (set_p n)) as [m3 H3]; [by apply S2, S1|]. rewrite H3. obind.
  pose proof (same_nodes_upd _ _ _ _ H3) as S3.
  destruct (upd_exists m3 p (set_n n)) as [m4 H4]; [apply S3; eauto|]. exists m4. split; [done|].
  split; [eapply same_nodes_trans; [|by eapply same_nodes_upd];
          eapply same_nodes_trans; [|exact S3]; by eapply same_nodes_trans|].
  split; [|split; [|split]].
  - intros z. rewrite (view_upd_set _ _ _ _ _ n _ H4) by (intros; apply get_n_set_n).
    rewrite (view_upd_frame _ _ _ _ _ _ H3), (view_upd_frame _ _ _ _ _ _ H2) by (intros; apply get_n_set_p).
    rewrite (view_upd_set _ _ _ _ _ (get_n b) _ H1) by (intros; apply get_n_set_n). done.
  - intros z. rewrite (view_upd_frame _ _ _ _ _ _ H4) by (intros; apply get_p_set_n).
    rewrite (view_upd_set _ _ _ _ _ n _ H3) by (intros; apply get_p_set_p).
    rewrite (view_upd_set _ _ _ _ _ p _ H2) by (intros; apply get_p_set_p).
    rewrite (view_upd_frame _ _ _ _ _ _ H1) by (intros; apply get_p_set_n). done.
  - intros A g z [G1 G2]. rewrite (view_upd_frame _ _ _ _ _ _ H4), (view_upd_frame _ _ _ _ _ _ H3),
      (view_upd_frame _ _ _ _ _ _ H2), (view_upd_frame _ _ _ _ _ _ H1) by done. done.
  - intros z Zp Zn Zq. by rewrite (upd_other _ _ _ _ _ H4), (upd_other _ _ _ _ _ H3),
      (upd_other _ _ _ _ _ H2), (upd_other _ _ _ _ _ H1).
Qed.

Lemma unlink_ok m p q a :
  view get_n m p = Some q -> view get_p m p = Some a -> is_Some (m !! q) -> is_Some (m !! a) -> q <> p ->
  exists m', unlink L m p = Some m' /\ same_nodes m m' /\
    (forall z, view get_n m' z = if decide (z = a) then Some q else view get_n m z) /\
    (forall z, view get_p m' z = if decide (z = q) then Some a else view get_p m z) /\
    (forall A (g : mem_block -> A) z, unlinked g -> view g m' z = view g m z) /\
    forall z, z <> q -> z <> a -> m' !! z = m !! z.
Proof.
  intros Hq Ha Eq Ea Hqp. unfold unlink. pose proof Hq as (b & Hb & Eb)%view_Some. rewrite Hb. obind. rewrite Eb.
  assert (get_p b = a) as -> by (unfold view in Ha; rewrite Hb in Ha; by injection Ha).
  destruct (upd_exists m q (set_p a) Eq) as [m1 H1]. rewrite H1. obind. pose proof (same_nodes_upd _ _ _ _ H1) as S1.
  assert (m1 !! p = m !! p) as ->.
  { apply upd_inv in H1 as (? & _ & ->). by rewrite lookup_insert_ne. }
  rewrite Hb. obind. rewrite Eb. assert (get_p b = a) as -> by (unfold view in Ha; rewrite Hb in Ha; by injection Ha).
  destruct (upd_exists m1 a (set_n q)) as [m2 H2]; [by apply S1|]. exists m2. split; [done|].
  split; [eapply same_nodes_trans; [exact S1|by eapply same_nodes_upd]|]. split; [|split; [|split]].
  - intros z. rewrite (view_upd_set _ _ _ _ _ q _ H2) by (intros; apply get_n_set_n).
    rewrite (view_upd_frame _ _ _ _ _ _ H1) by (intros; apply get_n_set_p). done.
  - intros z. rewrite (view_upd_frame _ _ _ _ _ _ H2) by (intros; apply get_p_set_n).
    rewrite (view_upd_set _ _ _ _ _ a _ H1) by (intros; apply get_p_set_p). done.
  - intros A g z [G1 G2]. rewrite (view_upd_frame _ _ _ _ _ _ H2), (view_upd_frame _ _ _ _ _ _ H1) by done. done.
  - intros z Zq Za. by rewrite (upd_other _ _ _ _ _ H2), (upd_other _ _ _ _ _ H1).
Qed.

(** ** Rings *)

Definition ring (m : mm_store) (h : Z) (l : list Z) : Prop := chain L m h l h /\ NoDup (h :: l).

Lemma ring_nodes m h l x : ring m h l -> x ∈ h :: l -> is_Some (m !! x).
Proof.
  intros [Hc _]. assert (forall y x0, chain L m x0 l y -> x ∈ x0 :: l -> is_Some (m !! x)) as Hg;
    [|exact (Hg h h Hc)].
  clear Hc. induction l as [|z l IH]; intros y x0 Hc Hx.
  - apply list_elem_of_singleton in Hx as ->. destruct Hc as [Hc _]. by eapply view_is_node.
  - destruct Hc as (H1 & H2 & H3). apply elem_of_cons in Hx as [->|Hx]; [by eapply view_is_node|]. by apply (IH y z).
Qed.

(** Only the links matter. *)
Lemma ring_frame m m' h l :
  (forall z, z ∈ h :: l -> view get_n m' z = view get_n m z /\ view get_p m' z = view get_p m z) ->
  ring m h l -> ring m' h l.
Proof.
  intros Hv [Hc Hn]. split; [|done]. apply (chain_frame L m); [..|exact Hc]; intros z Hz; apply Hv; [done|set_solver].
Qed.

Lemma ring_insert_head m m' h l n :
  ring m h l -> n ∉ h :: l ->
  (forall z, view get_n m' z =
     if decide (z = h) then Some n else if decide (z = n) then Some (hd h l) else view get_n m z) ->
  (forall z, view get_p m' z =
     if decide (z = hd h l) then Some n else if decide (z = n) then Some h else view get_p m z) ->
  ring m' h (n :: l).
Proof.
  intros [Hc Hnd] Hn Vn Vp. apply not_elem_of_cons in Hn as [Hnh Hn]. apply NoDup_cons in Hnd as [Hh Hnd].
  split; [by apply (chain_insert L m)|]. apply NoDup_cons. split; [set_solver|]. apply NoDup_cons. done.
Qed.

Lemma ring_insert_mid m m' h l1 p l2 n :
  ring m h (l1 ++ p :: l2) -> n ∉ h :: l1 ++ p :: l2 ->
  (forall z, view get_n m' z =
     if decide (z = p) then Some n else if decide (z = n) then Some (hd h l2) else view get_n m z) ->
  (forall z, view get_p m' z =
     if decide (z = hd h l2) then Some n else if decide (z = n) then Some p else view get_p m z) ->
  ring m' h (l1 ++ p :: n :: l2).
Proof.
  intros [Hc Hnd] Hn Vn Vp. apply NoDup_cons in Hnd as [Hh Hnd]. pose proof Hnd as (Hnd1 & Hd & Hnd2)%NoDup_app.
  apply NoDup_cons in Hnd2 as [Hp Hnd2]. apply chain_app in Hc as [Hc1 Hc2].
  apply not_elem_of_cons in Hn as [Hnh Hn]. apply not_elem_of_app in Hn as [Hn1 Hn2].
  apply not_elem_of_cons in Hn2 as [Hnp Hn2]. apply not_elem_of_app in Hh as [Hh1 Hh2].
  apply not_elem_of_cons in Hh2 as [Hhp Hh2].
  assert (p ∉ l1) as Hp1 by (intros H; by apply (Hd p H), elem_of_cons; left).
  split.
  - apply chain_app. split; [|by apply (chain_insert L m)].
    apply (chain_frame L m); [..|exact Hc1]; intros z Hz; rewrite ?Vn, ?Vp; rewrite !decide_False; try done.
    + intros ->. by apply elem_of_cons in Hz as [?|?].
    + intros ->. by apply elem_of_cons in Hz as [?|?].
    + intros ->. by apply elem_of_app in Hz as [?|?%list_elem_of_singleton].
    + intros ->. apply elem_of_app in Hz as [Hz|Hz%list_elem_of_singleton].
      * destruct l2 as [|q l2]; cbn [hd] in Hz; [done|]. apply (Hd q Hz). apply elem_of_cons. right. by left.
      * destruct l2 as [|q l2]; cbn [hd] in Hz; [done|]. apply Hp. rewrite Hz. by left.
  - apply NoDup_cons. split.
    { rewrite not_elem_of_app, !not_elem_of_cons. auto. }
    apply NoDup_app. split; [done|]. split.
    + intros x Hx. specialize (Hd x Hx). rewrite not_elem_of_cons in Hd. rewrite !not_elem_of_cons.
      split; [apply Hd|]. split; [by intros ->|apply Hd].
    + rewrite !NoDup_cons, not_elem_of_cons. auto.
Qed.

Lemma ring_remove m m' h l1 p l2 :
  ring m h (l1 ++ p :: l2) ->
  (forall z, view get_n m' z = if decide (z = List.last l1 h) then Some (hd h l2) else view get_n m z) ->
  (forall z, view get_p m' z = if decide (z = hd h l2) then Some (List.last l1 h) else view get_p m z) ->
  ring m' h (l1 ++ l2).
Proof.
  intros [Hc Hnd] Vn Vp. pose proof Hnd as [Hh Hnd']%NoDup_cons. split; [by apply (chain_remove L m _ _ _ p)|].
  apply NoDup_cons. split; [set_solver|]. apply NoDup_app in Hnd' as (H1 & H2 & H3). apply NoDup_cons in H3 as [H3 H4].
  apply NoDup_app. split; [done|]. split; [set_solver|done].
Qed.

(** The neighbours of a node of a ring. *)
Lemma ring_neighbours m h l1 p l2 :
  ring m h (l1 ++ p :: l2) ->
  view get_n m p = Some (hd h l2) /\ view get_p m p = Some (List.last l1 h) /\
  hd h l2 <> p /\ hd h l2 ∈ h :: l1 ++ p :: l2 /\ List.last l1 h ∈ h :: l1 ++ p :: l2.
Proof.
  intros [Hc Hnd]. apply chain_app in Hc as [Hc1 Hc2]. split; [by apply chain_next in Hc2|].
  split; [by apply chain_prev in Hc1|]. apply NoDup_cons in Hnd as [Hh Hnd]. apply NoDup_app in Hnd as (_ & _ & Hnd).
  apply NoDup_cons in Hnd as [Hp _]. split; [|split].
  - destruct l2; cbn; set_solver.
  - destruct l2; cbn; set_solver.
  - destruct l1 as [|x l1] using rev_ind; [set_solver|]. rewrite last_last. set_solver.
Qed.

End Link.
