(* ===== verification/MemManagerRep.v ===== *)
(** * What a memory heap represents

    The blocks of a heap in the order of their offsets, each with its extent, and the free ones in
    the order of the free list.  Splitting a block, taking one off the free list, giving one back
    and joining two blocks are operations on these lists; no node outside the heap changes. *)
From stdpp Require Import gmap.
From S2P Require Import Prelude MemManager MemManagerRings.

Record ext := Ext { e_ofs : Z; e_size : Z; e_free : bool; e_reserved : bool }.

Definition ext_of (b : mem_block) : ext := Ext (mb_ofs b) (mb_size b) (mb_free b) (mb_reserved b).

Definition data (b : mem_block) : Z * ext := (mb_heap b, ext_of b).

(** The heap [h] in the store [m], made from nodes that the store [m0] did not have. *)
Record heap_rep (m0 m : mm_store) (h : Z) (l : list (Z * ext)) (fs : list Z) : Prop := {
  rep_all : ring all_links m h l.*1;
  rep_fl : ring free_links m h fs;
  rep_head : view mb_free m h = Some false;
  rep_data : forall a e, (a, e) ∈ l -> view data m a = Some (h, e);
  rep_free : forall a, a ∈ fs <-> exists e, (a, e) ∈ l /\ e_free e = true;
  rep_other : forall x, x ∉ h :: l.*1 -> m !! x = m0 !! x;
  rep_new : forall x, x ∈ h :: l.*1 -> m0 !! x = None /\ x <> NULL }.

(** ** Lists *)

Lemma elem_of_mid_insert {A} (x p n : A) l1 l2 : x ∈ l1 ++ p :: n :: l2 <-> x = n \/ x ∈ l1 ++ p :: l2.
Proof. rewrite !elem_of_app, !elem_of_cons. tauto. Qed.

Lemma elem_of_mid {A} (x p : A) l1 l2 : x ∈ l1 ++ p :: l2 <-> x = p \/ x ∈ l1 ++ l2.
Proof. rewrite !elem_of_app, !elem_of_cons. tauto. Qed.

Lemma fst_mid (l1 : list (Z * ext)) p e l2 : (l1 ++ (p, e) :: l2).*1 = l1.*1 ++ p :: l2.*1.
Proof. by rewrite fmap_app. Qed.

Lemma elem_of_fst (l : list (Z * ext)) a : a ∈ l.*1 <-> exists e, (a, e) ∈ l.
Proof.
  rewrite list_elem_of_fmap. split; [intros ([a' e] & -> & H); by exists e|]. intros [e H]. by exists (a, e).
Qed.

(** In a list without repeated addresses, the entry of an address is unique. *)
Lemma mid_unique (l1 : list (Z * ext)) p e l2 a e' :
  NoDup (l1 ++ (p, e) :: l2).*1 -> (a, e') ∈ l1 ++ (p, e) :: l2 ->
  (a = p /\ e' = e) \/ (a <> p /\ (a, e') ∈ l1 ++ l2).
Proof.
  intros Hn H. apply elem_of_mid in H as [H|H]; [left; by inversion H|]. right. split; [|done]. intros ->.
  rewrite fst_mid in Hn. apply NoDup_app in Hn as (_ & Hd & Hn). apply NoDup_cons in Hn as [Hn _].
  apply elem_of_app in H as [H|H].
  - apply (Hd p); [apply elem_of_fst; eauto|by left].
  - apply Hn, elem_of_fst. eauto.
Qed.

Lemma mid_other (l1 : list (Z * ext)) p e l2 a e' :
  NoDup (l1 ++ (p, e) :: l2).*1 -> (a, e') ∈ l1 ++ l2 -> a <> p.
Proof.
  intros Hn H ->. rewrite fst_mid in Hn. apply NoDup_app in Hn as (_ & Hd & Hn). apply NoDup_cons in Hn as [Hn _].
  apply elem_of_app in H as [H|H].
  - apply (Hd p); [apply elem_of_fst; eauto|by left].
  - apply Hn, elem_of_fst. eauto.
Qed.

(** ** The nodes of a heap *)

Section Rep.

Context (m0 m : mm_store) (h : Z) (l : list (Z * ext)) (fs : list Z).
Context (R : heap_rep m0 m h l fs).

Lemma rep_node x : x ∈ h :: l.*1 -> is_Some (m !! x).
Proof. apply ring_nodes with all_links, R. Qed.

Lemma rep_nodup : NoDup l.*1.
Proof. destruct (rep_all _ _ _ _ _ R) as [_ H]. by apply NoDup_cons in H as [_ H]. Qed.

Lemma rep_head_notin : h ∉ l.*1.
Proof. destruct (rep_all _ _ _ _ _ R) as [_ H]. by apply NoDup_cons in H as [H _]. Qed.

Lemma rep_block a e : (a, e) ∈ l -> exists b, m !! a = Some b /\ mb_heap b = h /\ ext_of b = e.
Proof. intros H%(rep_data _ _ _ _ _ R). apply view_Some in H as (b & Hb & [= Hh He]). eauto. Qed.

Lemma rep_fs_in a : a ∈ fs -> a ∈ l.*1.
Proof. intros (e & H & _)%(rep_free _ _ _ _ _ R). apply elem_of_fst. eauto. Qed.

Lemma rep_fs_nodup : NoDup fs.
Proof. destruct (rep_fl _ _ _ _ _ R) as [_ H]. by apply NoDup_cons in H as [_ H]. Qed.

Lemma rep_fresh n : m !! n = None -> n ∉ h :: l.*1.
Proof. intros Hn H. apply rep_node in H as [b Hb]. congruence. Qed.

(** A fresh node was not in the first store either. *)
Lemma rep_fresh_new n : m !! n = None -> m0 !! n = None.
Proof. intros Hn. rewrite <- (rep_other _ _ _ _ _ R); [done|by apply rep_fresh]. Qed.

(** There are at most as many free blocks as nodes. *)
Lemma rep_fs_length : (length fs <= size m)%nat.
Proof.
  rewrite <- (size_dom (D := gset Z)), <- (size_list_to_set (C := gset Z) fs rep_fs_nodup).
  apply subseteq_size. intros x Hx%elem_of_list_to_set. apply elem_of_dom, rep_node. right. by apply rep_fs_in.
Qed.

Lemma rep_l_length : (length l <= size m)%nat.
Proof.
  rewrite <- (length_fmap fst), <- (size_dom (D := gset Z)), <- (size_list_to_set (C := gset Z) _ rep_nodup).
  apply subseteq_size. intros x Hx%elem_of_list_to_set. apply elem_of_dom, rep_node. by right.
Qed.

End Rep.

(** ** Members and links *)

Lemma unlinked_data_all : unlinked all_links data.
Proof. done. Qed.

Lemma unlinked_data_free : unlinked free_links data.
Proof. done. Qed.

Lemma view_fresh {A} (g : mem_block -> A) (m : mm_store) n b z :
  z <> n -> view g (<[n := b]> m) z = view g m z.
Proof. intros Hz. unfold view. by rewrite lookup_insert_ne. Qed.

Lemma view_compose {A B} (g : mem_block -> A) (k : A -> B) m z v :
  view g m z = Some v -> view (fun b => k (g b)) m z = Some (k v).
Proof. intros (b & Hb & <-)%view_Some. unfold view. by rewrite Hb. Qed.

(** ** One block changes *)

Lemma rep_change m0 m m' h l1 p e e' l2 fs fs' :
  heap_rep m0 m h (l1 ++ (p, e) :: l2) fs ->
  (forall z, view mb_next m' z = view mb_next m z /\ view mb_prev m' z = view mb_prev m z) ->
  ring free_links m' h fs' ->
  (forall z, z <> p -> view data m' z = view data m z) -> view data m' p = Some (h, e') ->
  (forall a, a ∈ fs' <-> exists e1, (a, e1) ∈ l1 ++ (p, e') :: l2 /\ e_free e1 = true) ->
  (forall x, x ∉ h :: l1.*1 ++ p :: l2.*1 -> m' !! x = m !! x) ->
  heap_rep m0 m' h (l1 ++ (p, e') :: l2) fs'.
Proof.
  intros R Ha Hf Hd Hp Hfs Ho. pose proof (rep_nodup _ _ _ _ _ R) as Hn. pose proof (rep_head_notin _ _ _ _ _ R) as Hh.
  destruct R as [Ra _ Rh Rd _ Ro Rn]. rewrite fst_mid in *. constructor; rewrite ?fst_mid; [|done| | |done| |done].
  - apply (ring_frame all_links m); [|done]. intros z _. apply Ha.
  - rewrite <- Rh. assert (h <> p) as Hhp. { intros ->. apply Hh, elem_of_mid. by left. }
    pose proof (Hd h Hhp) as E. unfold view, data, ext_of in *. destruct (m' !! h), (m !! h); cbn in *; congruence.
  - intros a e1 H. apply elem_of_mid in H as [[= -> ->]|H]; [done|]. rewrite Hd.
    + apply Rd, elem_of_mid. by right.
    + rewrite <- (fst_mid _ _ e) in Hn. by eapply mid_other.
  - intros x Hx. rewrite Ho by done. by apply Ro.
Qed.

Lemma rep_set_size m0 m h l1 p e l2 fs v :
  heap_rep m0 m h (l1 ++ (p, e) :: l2) fs ->
  exists m', upd m p (set_size v) = Some m' /\
    heap_rep m0 m' h (l1 ++ (p, Ext (e_ofs e) v (e_free e) (e_reserved e)) :: l2) fs.
Proof.
  intros R. destruct (rep_block _ _ _ _ _ R p e) as (b & Hb & Eh & Ee); [apply elem_of_mid; by left|].
  destruct (upd_exists m p (set_size v)) as [m' Hu]; [eauto|]. exists m'. split; [done|].
  apply (rep_change _ m _ _ _ _ e _ _ fs); [done|..].
  - intros z. split; by apply (view_upd_frame _ _ _ _ _ _ Hu).
  - apply (ring_frame free_links m); [|apply R]. intros z _. split; by apply (view_upd_frame _ _ _ _ _ _ Hu).
  - intros z Hz. by apply (view_upd_other _ _ _ _ _ _ Hu).
  - rewrite (view_upd_same _ _ _ _ _ Hu), Hb. cbn. by rewrite <- Ee, <- Eh.
  - intros a. rewrite (rep_free _ _ _ _ _ R a). split; intros (e1 & H & H1); apply elem_of_mid in H as [[= -> ->]|H];
      eexists; (split; [apply elem_of_mid; (by left) || (right; exact H)|done]).
  - intros x Hx. apply (upd_other _ _ _ _ _ Hu). intros ->. apply Hx. right. apply elem_of_mid. by left.
Qed.

(** ** The free list *)

Lemma free_take (l1 : list (Z * ext)) (p : Z) e l2 (f1 f2 : list Z) e' :
  NoDup (l1 ++ (p, e) :: l2).*1 -> NoDup (f1 ++ p :: f2) ->
  (forall a, a ∈ f1 ++ p :: f2 <-> exists e1, (a, e1) ∈ l1 ++ (p, e) :: l2 /\ e_free e1 = true) ->
  e_free e' = false ->
  forall a, a ∈ f1 ++ f2 <-> exists e1, (a, e1) ∈ l1 ++ (p, e') :: l2 /\ e_free e1 = true.
Proof.
  intros Hn Hf Hfs He a. split.
  - intros H. destruct (proj1 (Hfs a)) as (e1 & H1 & E1); [apply elem_of_mid; by right|].
    apply (mid_unique _ _ _ _ _ _ Hn) in H1 as [[-> _]|[_ H1]].
    + apply NoDup_app in Hf as (_ & Hd & Hf). apply NoDup_cons in Hf as [Hf _]. exfalso.
      apply elem_of_app in H as [H|H]; [apply (Hd p H); by left|done].
    + exists e1. split; [apply elem_of_mid; by right|done].
  - intros (e1 & H1 & E1). apply elem_of_mid in H1 as [[= -> ->]|H1]; [congruence|].
    pose proof (mid_other _ _ _ _ _ _ Hn H1) as Ha.
    assert (a ∈ f1 ++ p :: f2) as H; [|by apply elem_of_mid in H as [H|H]].
    apply Hfs. exists e1. split; [apply elem_of_mid; by right|done].
Qed.

Lemma free_give (l1 : list (Z * ext)) (p : Z) e l2 (fs : list Z) e' :
  (forall a, a ∈ fs <-> exists e1, (a, e1) ∈ l1 ++ (p, e) :: l2 /\ e_free e1 = true) ->
  e_free e = false -> e_free e' = true ->
  forall a, a ∈ p :: fs <-> exists e1, (a, e1) ∈ l1 ++ (p, e') :: l2 /\ e_free e1 = true.
Proof.
  intros Hfs He He' a. rewrite elem_of_cons, (Hfs a). split.
  - intros [->|(e1 & H1 & E1)]; [exists e'; split; [apply elem_of_mid; by left|done]|].
    apply elem_of_mid in H1 as [[= -> ->]|H1]; [congruence|]. exists e1. split; [apply elem_of_mid; by right|done].
  - intros (e1 & H1 & E1). apply elem_of_mid in H1 as [[= -> ->]|H1]; [by left|]. right.
    exists e1. split; [apply elem_of_mid; by right|done].
Qed.

(** ** A new free block *)

Section Calloc.

Context (calloc : mm_store -> option Z).
Context (calloc_fresh : forall m a, calloc m = Some a -> a <> NULL /\ m !! a = None).

(** A fresh node with its data leaves the heap as it is, in the rings of the others. *)
Lemma rep_fresh_ring (L : Links) m h l n b : ring L m h l -> n ∉ h :: l -> ring L (<[n := b]> m) h l.
Proof. intros Hr Hn. apply (ring_frame L m); [|done]. intros z Hz. split; apply view_fresh; by intros ->. Qed.

(** The two insertions of a node after [p]. *)
Lemma link_after_ok m1 h l1 p l2 f1 f2 n :
  ring all_links m1 h (l1 ++ p :: l2) -> ring free_links m1 h (f1 ++ p :: f2) ->
  n ∉ h :: l1 ++ p :: l2 -> n ∉ h :: f1 ++ p :: f2 -> is_Some (m1 !! n) ->
  exists m2 m3, insert_after all_links m1 p n = Some m2 /\ insert_after free_links m2 p n = Some m3 /\
    ring all_links m3 h (l1 ++ p :: n :: l2) /\ ring free_links m3 h (f1 ++ p :: n :: f2) /\
    (forall A (g : mem_block -> A) z, unlinked all_links g -> unlinked free_links g -> view g m3 z = view g m1 z) /\
    forall x, x <> n -> x ∉ h :: l1 ++ p :: l2 -> x ∉ h :: f1 ++ p :: f2 -> m3 !! x = m1 !! x.
Proof.
  intros Ra1 Rf1 Hnl Hnf En. assert (p <> n) as Hpn.
  { intros ->. apply Hnl. right. apply elem_of_mid. by left. }
  destruct (ring_neighbours _ _ _ _ _ _ Ra1) as (Vn & _ & _ & Iq & _).
  destruct (insert_after_ok all_links m1 p n _ Vn) as (m2 & H2 & S2 & Vn2 & Vp2 & Vo2 & Fo2);
    [exact (ring_nodes _ _ _ _ _ Ra1 Iq)|done|done|].
  pose proof (ring_insert_mid all_links m1 m2 _ _ _ _ _ Ra1 Hnl Vn2 Vp2) as Ra2.
  assert (ring free_links m2 h (f1 ++ p :: f2)) as Rf2.
  { apply (ring_frame free_links m1); [|done]. intros z _. split; apply Vo2; done. }
  destruct (ring_neighbours _ _ _ _ _ _ Rf2) as (Un & _ & _ & Iu & _).
  destruct (insert_after_ok free_links m2 p n _ Un) as (m3 & H3 & S3 & Vn3 & Vp3 & Vo3 & Fo3);
    [exact (ring_nodes _ _ _ _ _ Rf2 Iu)|by apply S2|done|].
  exists m2, m3. split; [done|]. split; [done|]. split; [|split; [|split]].
  - apply (ring_frame all_links m2); [|done]. intros z _. split; by apply Vo3.
  - apply (ring_insert_mid free_links m2 m3 _ _ _ _ _ Rf2 Hnf Vn3 Vp3).
  - intros A g z G1 G2. rewrite Vo3, Vo2 by done. done.
  - intros x Hxn Hxl Hxf. assert (x <> p) as Hxp. { intros ->. apply Hxl. right. apply elem_of_mid. by left. }
    rewrite Fo3, Fo2; [done|done|done| |done|done|]; intros ->; by eauto.
Qed.

Lemma split_after_ok m0 m h l1 p e l2 f1 f2 ofs sz :
  heap_rep m0 m h (l1 ++ (p, e) :: l2) (f1 ++ p :: f2) ->
  match calloc m with
  | None => split_after calloc m p ofs sz = Some None
  | Some n => exists m', split_after calloc m p ofs sz = Some (Some (n, m')) /\
      heap_rep m0 m' h (l1 ++ (p, e) :: (n, Ext ofs sz true false) :: l2) (f1 ++ p :: n :: f2)
  end.
Proof.
  intros R. unfold split_after, calloc_block. destruct (calloc m) as [n|] eqn:Hc; [|done].
  apply calloc_fresh in Hc as [Hn0 Hn]. pose proof (rep_fresh _ _ _ _ _ R n Hn) as Hnl.
  pose proof (rep_fresh_new _ _ _ _ _ R n Hn) as Hnew. pose proof (rep_fs_in _ _ _ _ _ R) as Hfs.
  destruct (rep_block _ _ _ _ _ R p e) as (b & Hb & Eh & Ee); [apply elem_of_mid; by left|].
  rewrite lookup_insert_ne, Hb by congruence. obind. rewrite Eh.
  rewrite (upd_Some _ n _ new_block) by apply lookup_insert_eq. obind. rewrite insert_insert_eq.
  set (nb := set_data h ofs sz true false new_block).
  assert (forall x, x ∉ h :: (l1 ++ (p, e) :: l2).*1 -> x ∉ h :: f1 ++ p :: f2) as Hsub.
  { intros x Hx H. apply Hx. apply elem_of_cons in H as [->|H]; [by left|]. right. by apply Hfs. }
  destruct R as [Ra Rf Rh Rd Rfr Ro Rn]. rewrite fst_mid in Ra, Hnl, Hsub, Ro, Rn.
  pose proof (rep_fresh_ring all_links _ _ _ n nb Ra Hnl) as Ra1.
  pose proof (rep_fresh_ring free_links _ _ _ n nb Rf (Hsub _ Hnl)) as Rf1.
  destruct (link_after_ok _ _ _ _ _ _ _ n Ra1 Rf1) as (m2 & m3 & -> & H3 & Ra3 & Rf3 & Hg & Fo); [done|by apply Hsub| |].
  { rewrite lookup_insert_eq. eauto. }
  obind. rewrite H3. obind. exists m3. split; [done|].
  constructor; rewrite ?fst_mid, ?fmap_cons; cbn [fst]; [exact Ra3|exact Rf3|..].
  - rewrite (Hg _ _ _) by done. rewrite view_fresh; [done|]. intros ->. apply Hnl. by left.
  - intros a e1 H. rewrite (Hg _ _ _) by done. apply elem_of_mid_insert in H as [[= -> ->]|H].
    + unfold view. by rewrite lookup_insert_eq.
    + rewrite view_fresh; [by apply Rd|]. intros ->. apply Hnl. rewrite <- fst_mid with (e := e).
      right. apply elem_of_fst. eauto.
  - intros a. rewrite elem_of_mid_insert, (Rfr a). split.
    + intros [->|(e1 & H & H1)]; eexists; (split; [apply elem_of_mid_insert|]); eauto.
    + intros (e1 & H & H1). apply elem_of_mid_insert in H as [[= -> ->]|H]; eauto.
  - intros x Hx. rewrite elem_of_cons, elem_of_mid_insert in Hx.
    assert (x ∉ h :: l1.*1 ++ p :: l2.*1) as Hx1 by (rewrite elem_of_cons; tauto).
    rewrite Fo by (tauto || by apply Hsub). rewrite lookup_insert_ne by (intros ->; tauto). by apply Ro.
  - intros x Hx. rewrite elem_of_cons, elem_of_mid_insert in Hx.
    destruct Hx as [->|[->|Hx]]; [apply Rn; by left|done|apply Rn; by right].
Qed.

End Calloc.

(** ** Taking a block *)

Lemma take_block_eq m p r :
  take_block m p r =
  upd m p (set_free false) ≫= (fun m => unlink free_links m p ≫= (fun m =>
    upd m p (fun b => set_reserved r (set_prev_free NULL (set_next_free NULL b))))).
Proof.
  unfold take_block. destruct (upd m p (set_free false)) as [m1|]; [|done]. obind.
  destruct (unlink free_links m1 p) as [m2|]; [|done]. obind. 
  rewrite <- (upd_upd _ _ _ (set_reserved r)), <- (upd_upd _ _ (set_next_free NULL) (set_prev_free NULL)).
  by destruct (upd m2 p (set_next_free NULL)).
Qed.

Lemma take_block_ok m0 m h l1 p e l2 f1 f2 r :
  heap_rep m0 m h (l1 ++ (p, e) :: l2) (f1 ++ p :: f2) ->
  exists m', take_block m p r = Some m' /\
    heap_rep m0 m' h (l1 ++ (p, Ext (e_ofs e) (e_size e) false r) :: l2) (f1 ++ f2).
Proof.
  intros R. destruct (rep_block _ _ _ _ _ R p e) as (b & Hb & Eh & Ee); [apply elem_of_mid; by left|].
  pose proof (rep_fs_nodup _ _ _ _ _ R) as Hfn. pose proof (rep_fs_in _ _ _ _ _ R) as Hfi.
  rewrite take_block_eq. destruct (upd_exists m p (set_free false)) as [m1 U1]; [eauto|]. rewrite U1. obind.
  assert (ring free_links m1 h (f1 ++ p :: f2)) as Rf1.
  { apply (ring_frame free_links m); [|apply R]. intros z _. split; by apply (view_upd_frame _ _ _ _ _ _ U1). }
  destruct (ring_neighbours _ _ _ _ _ _ Rf1) as (Vn & Vp & Hq & Iq & Ia).
  destruct (unlink_ok free_links m1 p _ _ Vn Vp) as (m2 & -> & S2 & Vn2 & Vp2 & Vo2 & Fo2);
    [exact (ring_nodes _ _ _ _ _ Rf1 Iq)|exact (ring_nodes _ _ _ _ _ Rf1 Ia)|done|]. obind.
  pose proof (ring_remove free_links m1 m2 _ _ _ _ Rf1 Vn2 Vp2) as Rf2.
  edestruct (upd_exists m2 p) as [m3 U3]; [apply S2, (same_nodes_upd _ _ _ _ U1); eauto|].
  exists m3. split; [exact U3|]. apply (rep_change _ m _ _ _ _ e _ _ (f1 ++ p :: f2)); [done|..].
  - intros z. split; (rewrite (view_upd_frame _ _ _ _ _ _ U3), Vo2, (view_upd_frame _ _ _ _ _ _ U1) by done; done).
  - apply (ring_frame free_links m2); [|done]. intros z Hz. assert (z <> p) as Hzp.
    { intros ->. destruct Rf1 as [_ H]. rewrite <- Permutation_middle, (Permutation_swap p h) in H.
      apply NoDup_cons in H as [H _]. done. }
    split; (rewrite (view_upd_other _ _ _ _ _ _ U3) by done; done).
  - intros z Hz. rewrite (view_upd_other _ _ _ _ _ _ U3), Vo2, (view_upd_other _ _ _ _ _ _ U1) by done. done.
  - assert (view data m2 p = Some (h, Ext (e_ofs e) (e_size e) false (e_reserved e))) as (b2 & Hb2 & Eb2)%view_Some.
    { rewrite Vo2, (view_upd_same _ _ _ _ _ U1), Hb by done. cbn. by rewrite <- Ee, <- Eh. }
    rewrite (view_upd_same _ _ _ _ _ U3), Hb2. cbn. unfold data, ext_of in *. cbn. congruence.
  - apply (free_take _ _ e); [apply (rep_nodup _ _ _ _ _ R)|done|apply R|done].
  - intros x Hx. rewrite <- (fst_mid _ _ e) in Hx.
    assert (x <> p). { intros ->. apply Hx. rewrite fst_mid. right. apply elem_of_mid. by left. }
    assert (x ∉ h :: f1 ++ p :: f2) as Hxf.
    { intros H1. apply Hx. apply elem_of_cons in H1 as [->|H1]; [by left|right; by apply Hfi]. }
    rewrite (upd_other _ _ _ _ _ U3), Fo2, (upd_other _ _ _ _ _ U1); [done|done|..|done]; by intros ->.
Qed.

(** ** Giving a block back *)

Lemma push_free_eq m b h hb :
  m !! h = Some hb -> b <> h -> mb_next_free hb <> b -> push_free m b h = insert_after free_links m h b.
Proof.
  intros Hh Hbh Hq. unfold push_free, insert_after. rewrite Hh. obind. cbn [get_n set_n set_p free_links].
  destruct (upd m b (set_next_free (mb_next_free hb))) as [m1|] eqn:U1; [|done]. obind.
  destruct (upd m1 b (set_prev_free h)) as [m2|] eqn:U2; [|done]. obind.
  apply upd_inv in U1 as (bb & Hb & ->). apply upd_inv in U2 as (b1 & Hb1 & ->).
  rewrite lookup_insert_eq in Hb1. injection Hb1 as <-. rewrite lookup_insert_eq, !(lookup_insert_ne _ b h), Hh by done.
  obind. cbn [mb_next_free set_next_free set_prev_free].
  match goal with |- upd ?m ?p ?f ≫= _ = _ => destruct (upd m p f) as [m3|] eqn:U3 end; [|done]. obind.
  apply upd_inv in U3 as (b3 & Hb3 & ->). rewrite lookup_insert_ne, lookup_insert_eq by done. done.
Qed.

Lemma give_block_ok m0 m h l1 p e l2 fs :
  heap_rep m0 m h (l1 ++ (p, e) :: l2) fs -> e_free e = false ->
  exists m1 m2, upd m p (set_free true) = Some m1 /\ push_free m1 p h = Some m2 /\
    heap_rep m0 m2 h (l1 ++ (p, Ext (e_ofs e) (e_size e) true (e_reserved e)) :: l2) (p :: fs).
Proof.
  intros R He. destruct (rep_block _ _ _ _ _ R p e) as (b & Hb & Eh & Ee); [apply elem_of_mid; by left|].
  pose proof (rep_nodup _ _ _ _ _ R) as Hn. pose proof (rep_fs_in _ _ _ _ _ R) as Hfi.
  assert (p <> h) as Hph.
  { intros ->. apply (rep_head_notin _ _ _ _ _ R), elem_of_fst. exists e. apply elem_of_mid. by left. }
  assert (p ∉ h :: fs) as Hpf.
  { intros [->|H]%elem_of_cons; [done|]. apply (rep_free _ _ _ _ _ R) in H as (e1 & H & E1).
    apply (mid_unique _ _ _ _ _ _ Hn) in H as [[_ ->]|[? _]]; congruence. }
  destruct (upd_exists m p (set_free true)) as [m1 U1]; [eauto|]. exists m1.
  assert (ring free_links m1 h fs) as Rf1.
  { apply (ring_frame free_links m); [|apply R]. intros z _. split; by apply (view_upd_frame _ _ _ _ _ _ U1). }
  assert (view mb_next_free m1 h = Some (hd h fs)) as Vh by (destruct Rf1 as [H _]; by apply chain_next in H).
  assert (hd h fs ∈ h :: fs) as Hq by (destruct fs; cbn; [by left|right; by left]).
  destruct (insert_after_ok free_links m1 h p _ Vh) as (m2 & H2 & S2 & Vn2 & Vp2 & Vo2 & Fo2);
    [exact (ring_nodes _ _ _ _ _ Rf1 Hq)|apply (same_nodes_upd _ _ _ _ U1); eauto|done|].
  exists m2. split; [done|]. split.
  { apply view_Some in Vh as (hb & Hhb & Ehb). rewrite (push_free_eq _ _ _ hb), H2; [done..|]. rewrite Ehb. by intros <-. }
  apply (rep_change _ m _ _ _ _ e _ _ fs); [done|..].
  - intros z. split; (rewrite Vo2, (view_upd_frame _ _ _ _ _ _ U1) by done; done).
  - by apply (ring_insert_head free_links m1).
  - intros z Hz. rewrite Vo2, (view_upd_other _ _ _ _ _ _ U1) by done. done.
  - rewrite Vo2, (view_upd_same _ _ _ _ _ U1), Hb by done. cbn. by rewrite <- Ee, <- Eh.
  - apply (free_give _ _ e); [apply R|done|done].
  - intros x Hx. rewrite <- (fst_mid _ _ e) in Hx.
    assert (x <> p). { intros ->. apply Hx. rewrite fst_mid. right. apply elem_of_mid. by left. }
    rewrite Fo2, (upd_other _ _ _ _ _ U1); [done|done| |done|]; intros ->; apply Hx; [by left|].
    apply elem_of_cons in Hq as [->|Hq]; [by left|right; by apply Hfi].
Qed.

(** ** Joining two blocks *)

(** The assignments that take the block after [p] out of the list of blocks. *)
Lemma absorb_next_ok m h l1 p q l2 v :
  ring all_links m h (l1 ++ p :: q :: l2) ->
  exists m1 m2 m3, upd m p (set_size v) = Some m1 /\ upd m1 p (set_next (hd h l2)) = Some m2 /\
    upd m2 (hd h l2) (set_prev p) = Some m3 /\ same_nodes m m3 /\
    ring all_links m3 h (l1 ++ p :: l2) /\
    (forall A (g : mem_block -> A) z, unlinked all_links g -> (forall b, g (set_size v b) = g b) \/ z <> p ->
      view g m3 z = view g m z) /\
    (forall b, m !! p = Some b -> view data m3 p = Some (data (set_size v b))) /\
    forall x, x ∉ h :: l1 ++ p :: q :: l2 -> m3 !! x = m !! x.
Proof.
  intros Ra. assert (l1 ++ p :: q :: l2 = (l1 ++ [p]) ++ q :: l2) as El by by rewrite <- app_assoc.
  rewrite El in Ra. destruct (ring_neighbours _ _ _ _ _ _ Ra) as (_ & Vp & _ & Iq & Ia). rewrite last_last in Vp, Ia.
  destruct (upd_exists m p (set_size v)) as [m1 U1]; [exact (ring_nodes _ _ _ _ _ Ra Ia)|].
  destruct (upd_exists m1 p (set_next (hd h l2))) as [m2 U2];
    [apply (same_nodes_upd _ _ _ _ U1); exact (ring_nodes _ _ _ _ _ Ra Ia)|].
  pose proof (same_nodes_trans _ _ _ (same_nodes_upd _ _ _ _ U1) (same_nodes_upd _ _ _ _ U2)) as S2.
  destruct (upd_exists m2 (hd h l2) (set_prev p)) as [m3 U3]; [apply S2; exact (ring_nodes _ _ _ _ _ Ra Iq)|].
  exists m1, m2, m3. do 3 (split; [done|]). split; [eapply same_nodes_trans; [exact S2|by eapply same_nodes_upd]|].
  split; [|split; [|split]].
  - pose proof (ring_remove all_links m m3 h (l1 ++ [p]) q l2 Ra) as H. rewrite last_last, <- app_assoc in H.
    apply H; intros z.
    + rewrite (view_upd_frame _ _ _ _ _ _ U3), (view_upd_set _ _ _ _ _ (hd h l2) _ U2) by done.
      case_decide; [done|]. by apply (view_upd_frame _ _ _ _ _ _ U1).
    + rewrite (view_upd_set _ _ _ _ _ p _ U3) by done. case_decide; [done|].
      rewrite (view_upd_frame _ _ _ _ _ _ U2), (view_upd_frame _ _ _ _ _ _ U1) by done. done.
  - intros A g z [G1 G2] Hz. rewrite (view_upd_frame _ _ _ _ _ _ U3), (view_upd_frame _ _ _ _ _ _ U2) by done.
    destruct Hz as [Hz|Hz]; [by apply (view_upd_frame _ _ _ _ _ _ U1)|by apply (view_upd_other _ _ _ _ _ _ U1)].
  - intros b Hb. rewrite (view_upd_frame _ _ _ _ _ _ U3), (view_upd_frame _ _ _ _ _ _ U2) by done.
    by rewrite (view_upd_same _ _ _ _ _ U1), Hb.
  - intros x Hx. rewrite El in Hx.
    rewrite (upd_other _ _ _ _ _ U3), (upd_other _ _ _ _ _ U2), (upd_other _ _ _ _ _ U1); [done|..]; by intros ->.
Qed.

(** The node after [p] out of both rings and freed. *)
Lemma absorb_ok m h l1 p q l2 f1 f2 v :
  ring all_links m h (l1 ++ p :: q :: l2) -> ring free_links m h (f1 ++ q :: f2) ->
  exists m1 m2 m3 m4, upd m p (set_size v) = Some m1 /\ upd m1 p (set_next (hd h l2)) = Some m2 /\
    upd m2 (hd h l2) (set_prev p) = Some m3 /\ unlink free_links m3 q = Some m4 /\
    q ∉ h :: l1 ++ p :: l2 /\ q ∉ h :: f1 ++ f2 /\
    ring all_links (delete q m4) h (l1 ++ p :: l2) /\ ring free_links (delete q m4) h (f1 ++ f2) /\
    (forall z, z <> p -> z <> q -> view data (delete q m4) z = view data m z) /\
    (forall b, m !! p = Some b -> view data (delete q m4) p = Some (data (set_size v b))) /\
    forall x, x <> q -> x ∉ h :: l1 ++ p :: q :: l2 -> x ∉ h :: f1 ++ q :: f2 -> delete q m4 !! x = m !! x.
Proof.
  intros Ra Rf. destruct (absorb_next_ok m h _ _ _ _ v Ra) as (m1 & m2 & m3 & U1 & U2 & U3 & S3 & Ra3 & V3 & D3 & O3).
  assert (ring free_links m3 h (f1 ++ q :: f2)) as Rf3.
  { apply (ring_frame free_links m); [|done]. intros z _. split; apply V3; auto; done. }
  destruct (ring_neighbours _ _ _ _ _ _ Rf3) as (Vn & Vp & Hhd & In & Ip).
  destruct (unlink_ok free_links m3 q _ _ Vn Vp) as (m4 & U4 & S4 & Vn4 & Vp4 & Vo4 & Fo4);
    [exact (ring_nodes _ _ _ _ _ Rf3 In)|exact (ring_nodes _ _ _ _ _ Rf3 Ip)|done|].
  exists m1, m2, m3, m4. do 4 (split; [done|]).
  assert (q ∉ h :: l1 ++ p :: l2) as Hq1.
  { destruct Ra as [_ H]. assert (l1 ++ p :: q :: l2 ≡ₚ q :: l1 ++ p :: l2) as E by solve_Permutation.
    rewrite E, (Permutation_swap q h) in H. by apply NoDup_cons in H as [H _]. }
  assert (q ∉ h :: f1 ++ f2) as Hq2.
  { destruct Rf as [_ H]. rewrite <- Permutation_middle, (Permutation_swap q h) in H. by apply NoDup_cons in H as [H _]. }
  assert (forall A (g : mem_block -> A) z, z <> q -> view g (delete q m4) z = view g m4 z) as Vd.
  { intros A g z Hz. unfold view. by rewrite lookup_delete_ne. }
  do 2 (split; [done|]). split; [|split; [|split; [|split]]].
  - apply (ring_frame all_links m3); [|done]. intros z Hz.
    split; (rewrite Vd by (by intros ->); by apply Vo4).
  - apply (ring_frame free_links m4); [|by apply (ring_remove free_links m3 m4 _ _ _ _ Rf3 Vn4 Vp4)].
    intros z Hz. split; apply Vd; by intros ->.
  - intros z Hz Hzq. rewrite Vd, Vo4, V3 by (done || auto). done.
  - intros b Hb. rewrite Vd, Vo4, (D3 b Hb); [done..|]. intros ->. apply Hq1. right. apply elem_of_mid. by left.
  - intros x Hxq Hxl Hxf. rewrite lookup_delete_ne, Fo4, O3; [done|done|..|done]; by intros ->.
Qed.

Lemma free_join (l1 : list (Z * ext)) (p : Z) e q e' l2 (f1 f2 : list Z) en :
  NoDup (l1 ++ (p, e) :: (q, e') :: l2).*1 -> NoDup (f1 ++ q :: f2) ->
  (forall a, a ∈ f1 ++ q :: f2 <-> exists e1, (a, e1) ∈ l1 ++ (p, e) :: (q, e') :: l2 /\ e_free e1 = true) ->
  e_free e = true -> e_free en = true ->
  forall a, a ∈ f1 ++ f2 <-> exists e1, (a, e1) ∈ l1 ++ (p, en) :: l2 /\ e_free e1 = true.
Proof.
  intros Hn Hf Hfs Ee Een a.
  assert (forall x, l1 ++ (p, x) :: (q, e') :: l2 = (l1 ++ [(p, x)]) ++ (q, e') :: l2) as El.
  { intros x. by rewrite <- app_assoc. }
  rewrite El in Hn. setoid_rewrite El in Hfs.
  rewrite (free_take _ _ e' _ _ _ (Ext 0 0 false false) Hn Hf Hfs) by done. rewrite <- app_assoc. cbn [app].
  setoid_rewrite elem_of_mid_insert. setoid_rewrite elem_of_mid. split.
  - intros (e1 & [[= -> ->]|[[= -> ->]|H]] & E1); [done|exists en|exists e1]; auto.
  - intros (e1 & [[= -> ->]|H] & E1); [exists e|exists e1]; auto.
Qed.

Lemma rep_absorb m0 m m' h l1 p e q e' l2 f1 f2 en :
  heap_rep m0 m h (l1 ++ (p, e) :: (q, e') :: l2) (f1 ++ q :: f2) -> e_free e = true -> e_free en = true ->
  ring all_links m' h (l1.*1 ++ p :: l2.*1) -> ring free_links m' h (f1 ++ f2) ->
  (forall z, z <> p -> z <> q -> view data m' z = view data m z) -> view data m' p = Some (h, en) ->
  m' !! q = None -> (forall x, x <> q -> x ∉ h :: l1.*1 ++ p :: q :: l2.*1 -> m' !! x = m !! x) ->
  heap_rep m0 m' h (l1 ++ (p, en) :: l2) (f1 ++ f2).
Proof.
  intros R Ee Een Ra' Rf' Hd Hp Hq Ho. pose proof (rep_nodup _ _ _ _ _ R) as Hn. pose proof (rep_fs_nodup _ _ _ _ _ R) as Hf.
  pose proof (rep_head_notin _ _ _ _ _ R) as Hh. rewrite fst_mid, fmap_cons in Hh. cbn [fst] in Hh.
  assert (forall a e1, (a, e1) ∈ l1 ++ l2 -> a <> p /\ a <> q) as Hne.
  { intros a e1 H. split.
    - apply (mid_other _ _ _ _ _ e1 Hn). apply elem_of_mid. by right.
    - assert (l1 ++ (p, e) :: (q, e') :: l2 = (l1 ++ [(p, e)]) ++ (q, e') :: l2) as El by by rewrite <- app_assoc.
      rewrite El in Hn. apply (mid_other _ _ _ _ _ e1 Hn). rewrite <- app_assoc. apply elem_of_mid. by right. }
  pose proof (free_join _ _ _ _ _ _ _ _ en Hn Hf (rep_free _ _ _ _ _ R) Ee Een) as Hfs.
  destruct R as [_ _ Rh Rd Rfr Ro Rn]. rewrite fst_mid, fmap_cons in Ro, Rn. cbn [fst] in *.
  constructor; rewrite ?fst_mid; [done|done| | |done| |].
  - rewrite <- Rh. assert (view data m' h = view data m h) as E.
    { apply Hd; intros ->; apply Hh; [apply elem_of_mid|apply elem_of_mid_insert]; by left. }
    unfold view, data, ext_of in *. destruct (m' !! h), (m !! h); cbn in *; congruence.
  - intros a e1 H. apply elem_of_mid in H as [[= -> ->]|H]; [done|]. destruct (Hne _ _ H). rewrite Hd by done.
    apply Rd, elem_of_mid_insert. right. apply elem_of_mid. by right.
  - intros x Hx. destruct (decide (x = q)) as [->|Hxq].
    + rewrite Hq. symmetry. apply Rn. right. apply elem_of_mid_insert. by left.
    + assert (x ∉ h :: l1.*1 ++ p :: q :: l2.*1) as Hx'.
      { rewrite elem_of_cons in *. rewrite elem_of_mid_insert. tauto. }
      rewrite Ho by done. by apply Ro.
  - intros x Hx. apply Rn. apply elem_of_cons in Hx as [->|Hx]; [by left|right; apply elem_of_mid_insert; by right].
Qed.

Lemma Join2Blocks_merge m0 m h l1 p e q e' l2 fs :
  heap_rep m0 m h (l1 ++ (p, e) :: (q, e') :: l2) fs -> e_free e = true -> e_free e' = true ->
  i32 (e_ofs e + e_size e) = e_ofs e' ->
  exists m' fs', Join2Blocks m p = Some (1, m') /\
    heap_rep m0 m' h (l1 ++ (p, Ext (e_ofs e) (i32 (e_size e + e_size e')) true (e_reserved e)) :: l2) fs'.
Proof.
  intros R Ee Ee' Eo. assert (Hin : (p, e) ∈ l1 ++ (p, e) :: (q, e') :: l2) by (apply elem_of_mid; by left).
  assert ((q, e') ∈ l1 ++ (p, e) :: (q, e') :: l2) as Iq by (apply elem_of_mid_insert; by left).
  destruct (rep_block _ _ _ _ _ R p e Hin) as (b & Hb & Eh & Eb).
  destruct (rep_block _ _ _ _ _ R q e' Iq) as (qb & Hqb & Eqh & Eqb).
  assert (q ∈ fs) as Hq by (apply (rep_free _ _ _ _ _ R); eauto).
  apply list_elem_of_split in Hq as (f1 & f2 & ->). pose proof (rep_fs_in _ _ _ _ _ R) as Hfi.
  pose proof (rep_all _ _ _ _ _ R) as Ra. pose proof (rep_fl _ _ _ _ _ R) as Rf.
  rewrite fst_mid, fmap_cons in Ra, Hfi. cbn [fst] in *.
  assert (l1.*1 ++ p :: q :: l2.*1 = (l1.*1 ++ [p]) ++ q :: l2.*1) as El by by rewrite <- app_assoc.
  assert (mb_next b = q) as Enb.
  { destruct (ring_neighbours _ _ _ _ _ _ Ra) as ((b' & Hb' & H)%view_Some & _). cbn in H. congruence. }
  assert (mb_next qb = hd h l2.*1) as Enq.
  { pose proof Ra as Ra'. rewrite El in Ra'. destruct (ring_neighbours _ _ _ _ _ _ Ra') as ((b' & Hb' & H)%view_Some & _).
    cbn in H. congruence. }
  destruct (absorb_ok m h _ _ _ _ _ _ (i32 (e_size e + e_size e')) Ra Rf) as
    (m1 & m2 & m3 & m4 & U1 & U2 & U3 & U4 & Hq1 & Hq2 & Ra4 & Rf4 & D4 & Dp4 & O4).
  exists (delete q m4), (f1 ++ f2). split.
  { unfold Join2Blocks. rewrite Hb. obind. rewrite Enb, Hqb. obind. subst e e'. cbn in *.
    rewrite Ee, Ee', Eo, Z.eqb_refl, U1. cbn. rewrite Enq, U2. cbn. rewrite U3. cbn. rewrite U4. done. }
  eapply rep_absorb; [exact R|done..| |apply lookup_delete_eq|].
  - rewrite (Dp4 b Hb). unfold data, set_size, ext_of. cbn. rewrite Eh, <- Eb, <- Ee, <- Eb. done.
  - intros x Hxq Hx. apply O4; [done|done|]. intros H. apply Hx. apply elem_of_cons in H as [->|H]; [by left|].
    right. by apply Hfi.
Qed.

(** Nothing is joined when the block or the one after it is in use. *)
Lemma Join2Blocks_keep m0 m h l1 p e l2 fs :
  heap_rep m0 m h (l1 ++ (p, e) :: l2) fs ->
  e_free e = false \/ match l2 with [] => True | (_, e') :: _ => e_free e' = false end ->
  Join2Blocks m p = Some (0, m).
Proof.
  intros R Hf. destruct (rep_block _ _ _ _ _ R p e) as (b & Hb & _ & Eb); [apply elem_of_mid; by left|].
  unfold Join2Blocks. rewrite Hb. obind. destruct Hf as [Hf|Hf].
  { subst e. cbn in Hf. by rewrite Hf. }
  destruct (mb_free b); [|done]. cbn [negb].
  pose proof (rep_all _ _ _ _ _ R) as Ra. rewrite fst_mid in Ra.
  destruct (ring_neighbours _ _ _ _ _ _ Ra) as ((b' & Hb' & H)%view_Some & _). cbn in H.
  assert (b' = b) as -> by congruence. rewrite H. destruct l2 as [|[q e'] l2]; cbn [hd fmap list_fmap fst].
  - pose proof (rep_head _ _ _ _ _ R) as (hb & -> & Eh)%view_Some. obind. by rewrite Eh.
  - destruct (rep_block _ _ _ _ _ R q e') as (qb & -> & _ & Eq); [apply elem_of_mid_insert; by left|]. obind.
    subst e'. cbn in Hf. by rewrite Hf.
Qed.
