(* ===== verification/MemManagerAlloc.v ===== *)
(** * Allocating and freeing in a memory heap

    The blocks of a heap cover its range without gaps.  Allocation cuts a free block in up to three
    and takes the middle; freeing gives the block back and joins it with its free
    neighbours. *)
From stdpp Require Import gmap.
From S2P Require Import Prelude MemManager MemManagerRings MemManagerRep.

(** ** Contiguous blocks *)

(** The blocks cover the range from [lo] to [hi], and none is reserved. *)
Fixpoint exts_wf (lo hi : Z) (l : list (Z * ext)) : Prop :=
  match l with
  | [] => lo = hi
  | (_, e) :: l => e_ofs e = lo /\ 0 < e_size e /\ e_reserved e = false /\ exts_wf (lo + e_size e) hi l
  end.

Lemma exts_wf_app lo hi l1 l2 :
  exts_wf lo hi (l1 ++ l2) <-> exists mid, exts_wf lo mid l1 /\ exts_wf mid hi l2.
Proof.
  revert lo. induction l1 as [|[a e] l1 IH]; intros lo; cbn [app exts_wf].
  - split; [eauto|]. by intros (mid & <- & H).
  - rewrite IH. naive_solver.
Qed.

Lemma exts_wf_le lo hi l : exts_wf lo hi l -> lo <= hi.
Proof. revert lo. induction l as [|[a e] l IH]; intros lo; cbn; [lia|]. intros (_ & ? & _ & H%IH). lia. Qed.

Lemma exts_wf_mid lo hi l1 p e l2 :
  exts_wf lo hi (l1 ++ (p, e) :: l2) <->
  exts_wf lo (e_ofs e) l1 /\ 0 < e_size e /\ e_reserved e = false /\ exts_wf (e_ofs e + e_size e) hi l2.
Proof. rewrite exts_wf_app. cbn [exts_wf]. split; [intros (mid & ? & <- & ?); tauto|intros ?; exists (e_ofs e); tauto]. Qed.

(** A block lies in the range. *)
Lemma exts_wf_range lo hi l p e :
  exts_wf lo hi l -> (p, e) ∈ l -> lo <= e_ofs e /\ 0 < e_size e /\ e_ofs e + e_size e <= hi /\ e_reserved e = false.
Proof.
  intros H (l1 & l2 & ->)%list_elem_of_split. apply exts_wf_mid in H as (H1 & H2 & H3 & H4).
  apply exts_wf_le in H1, H4. auto.
Qed.

(** Two blocks at different addresses do not overlap. *)
Lemma exts_wf_disjoint lo hi l p e q e' :
  exts_wf lo hi l -> (p, e) ∈ l -> (q, e') ∈ l -> p <> q ->
  e_ofs e + e_size e <= e_ofs e' \/ e_ofs e' + e_size e' <= e_ofs e.
Proof.
  intros H (l1 & l2 & ->)%list_elem_of_split Hq Hpq. apply exts_wf_mid in H as (H1 & H2 & H3 & H4).
  apply elem_of_mid in Hq as [[= -> ->]|[Hq|Hq]%elem_of_app]; [done|right|left].
  - destruct (exts_wf_range _ _ _ _ _ H1 Hq) as (_ & _ & ? & _). lia.
  - destruct (exts_wf_range _ _ _ _ _ H4 Hq) as (? & _). lia.
Qed.

(** ** Coalesced blocks *)

(** No two neighbours are free, where [f] says whether the block before is. *)
Fixpoint coalesced (f : bool) (l : list (Z * ext)) : Prop :=
  match l with
  | [] => True
  | (_, e) :: l => f && e_free e = false /\ coalesced (e_free e) l
  end.

(** Whether the last block is free. *)
Definition last_free (f : bool) (l : list (Z * ext)) : bool := List.last (e_free ∘ snd <$> l) f.

Lemma coalesced_app f l1 l2 : coalesced f (l1 ++ l2) <-> coalesced f l1 /\ coalesced (last_free f l1) l2.
Proof.
  revert f. induction l1 as [|[a e] l1 IH]; intros f; cbn [app coalesced]; [tauto|]. rewrite IH.
  assert (last_free (e_free e) l1 = last_free f ((a, e) :: l1)) as ->; [|tauto].
  unfold last_free. destruct l1 as [|x l1] using rev_ind; [done|]. clear. rewrite app_comm_cons, !fmap_app. cbn [fmap list_fmap].
  by rewrite !last_last.
Qed.

Lemma last_free_snoc f l a e : last_free f (l ++ [(a, e)]) = e_free e.
Proof. unfold last_free. rewrite fmap_app. cbn [fmap list_fmap]. by rewrite last_last. Qed.

Lemma coalesced_false f l : coalesced f l -> coalesced false l.
Proof. destruct l as [|[a e] l]; [done|]. cbn. tauto. Qed.

Lemma coalesced_mid f l1 p e l2 :
  coalesced f (l1 ++ (p, e) :: l2) <->
  coalesced f l1 /\ last_free f l1 && e_free e = false /\ coalesced (e_free e) l2.
Proof. rewrite coalesced_app. done. Qed.

(** ** The blocks in use *)

Definition used (l : list (Z * ext)) (x : Z * ext) : Prop := x ∈ l /\ e_free (snd x) = false.

Lemma used_app l1 l2 x : used (l1 ++ l2) x <-> used l1 x \/ used l2 x.
Proof. unfold used. rewrite elem_of_app. tauto. Qed.

Lemma used_cons y l x : used (y :: l) x <-> (x = y /\ e_free (snd y) = false) \/ used l x.
Proof. unfold used. rewrite elem_of_cons. naive_solver. Qed.

Lemma used_nil x : used [] x <-> False.
Proof. unfold used. rewrite elem_of_nil. tauto. Qed.

(** ** Numbers *)

Definition int_range (x : Z) : Prop := -2 ^ 31 <= x < 2 ^ 31.

Lemma i32_int x : int_range x -> i32 x = x.
Proof. unfold int_range, i32. intros H. rewrite Z.mod_small; lia. Qed.

(** Rounding up to a multiple of a power of two. *)
Lemma align_up x k : 0 <= k -> Z.land x (Z.lnot (Z.ones k)) = x - x mod 2 ^ k.
Proof.
  intros Hk. rewrite <- Z.ldiff_land, Z.ldiff_ones_r, Z.shiftl_mul_pow2, Z.shiftr_div_pow2 by done.
  pose proof (Z.div_mod x (2 ^ k)). nia.
Qed.

Lemma alloc_mask k : 0 <= k < 31 -> i32 (i32 (Z.shiftl 1 k) - 1) = Z.ones k.
Proof.
  intros Hk. rewrite Z.shiftl_1_l, Z.ones_equiv.
  assert (0 < 2 ^ k <= 2 ^ 30) by (split; [apply Z.pow_pos_nonneg; lia|apply Z.pow_le_mono_r; lia]).
  rewrite (i32_int (2 ^ k)), i32_int by (unfold int_range; lia). lia.
Qed.

Lemma start_offset_ok b k start :
  0 <= k < 31 -> int_range (mb_ofs b) -> int_range (mb_ofs b + 2 ^ k) ->
  let s := start_offset b (Z.ones k) start in
  mb_ofs b <= s /\ start <= s /\ (s = start \/ s mod 2 ^ k = 0) /\ s <= Z.max start (mb_ofs b + 2 ^ k).
Proof.
  intros Hk H1 H2. unfold start_offset. assert (0 < 2 ^ k) as Hp by (apply Z.pow_pos_nonneg; lia).
  cbv zeta. set (x := mb_ofs b + Z.ones k). assert (x = mb_ofs b + 2 ^ k - 1) as Ex by (unfold x; rewrite Z.ones_equiv; lia).
  clearbody x. rewrite i32_int, align_up by (unfold int_range in *; lia). pose proof (Z.mod_pos_bound x (2 ^ k) Hp) as Hm.
  assert ((x - x mod 2 ^ k) mod 2 ^ k = 0) as Ha.
  { rewrite (Z.div_mod x (2 ^ k)) at 1 by lia. replace (2 ^ k * (x / 2 ^ k) + x mod 2 ^ k - x mod 2 ^ k) with (x / 2 ^ k * 2 ^ k) by lia.
    apply Z.mod_mul. lia. }
  destruct (Z.ltb_spec (x - x mod 2 ^ k) start); (split; [lia|]); (split; [lia|]); (split; [auto|lia]).
Qed.

Section Heap.

Context (calloc : mm_store -> option Z).
Context (calloc_fresh : forall m a, calloc m = Some a -> a <> NULL /\ m !! a = None).
Context (m0 : mm_store) (h lo hi : Z).
Context (Hlo : int_range lo) (Hhi : int_range hi) (Hsz : hi - lo < 2 ^ 31).

(** ** Cutting a block *)

Lemma break_left_ok m l1 p ofs sz l2 f1 f2 s :
  heap_rep m0 m h (l1 ++ (p, Ext ofs sz true false) :: l2) (f1 ++ p :: f2) ->
  exts_wf lo hi (l1 ++ (p, Ext ofs sz true false) :: l2) -> ofs <= s < ofs + sz ->
  (break_left calloc m p s = Some None /\ calloc m = None) \/
  exists p' m' l1' f1', break_left calloc m p s = Some (Some (p', m')) /\
    heap_rep m0 m' h (l1' ++ (p', Ext s (ofs + sz - s) true false) :: l2) (f1' ++ p' :: f2) /\
    (p' = p \/ m !! p' = None) /\
    (l1' = l1 /\ s = ofs \/ l1' = l1 ++ [(p, Ext ofs (s - ofs) true false)] /\ ofs < s).
Proof.
  intros R Hw Hs. apply exts_wf_mid in Hw as (W1%exts_wf_le & W2 & _ & W3%exts_wf_le). cbn in W1, W2, W3.
  unfold int_range in *.
  destruct (rep_block _ _ _ _ _ R p _ ltac:(apply elem_of_mid; by left)) as (b & Hb & _ & Eb).
  assert (mb_ofs b = ofs /\ mb_size b = sz) as [Eo Es] by (injection Eb; auto).
  unfold break_left. rewrite Hb. obind. rewrite Eo, Es. destruct (Z.ltb_spec ofs s) as [Hlt|Hge].
  - rewrite (i32_int (s - ofs)), i32_int by (unfold int_range; lia).
    pose proof (split_after_ok calloc calloc_fresh _ _ _ _ _ _ _ _ _ s (sz - (s - ofs)) R) as H.
    destruct (calloc m) as [n|] eqn:Hc; [|left; by rewrite H]. apply calloc_fresh in Hc as [_ Hc].
    right. destruct H as (m1 & -> & R1). obind.
    destruct (rep_block _ _ _ _ _ R1 n (Ext s (sz - (s - ofs)) true false)) as (nb & -> & _ & Enb);
      [apply elem_of_mid_insert; by left|].
    destruct (rep_block _ _ _ _ _ R1 p (Ext ofs sz true false)) as (b1 & -> & _ & Eb1); [apply elem_of_mid; by left|].
    obind. assert (mb_size b1 = sz) as -> by (injection Eb1; auto).
    assert (mb_size nb = sz - (s - ofs)) as -> by (injection Enb; auto).
    rewrite i32_int by (unfold int_range; lia).
    destruct (rep_set_size _ _ _ _ _ _ _ _ (sz - (sz - (s - ofs))) R1) as (m2 & -> & R2). obind. cbn in R2.
    exists n, m2, (l1 ++ [(p, Ext ofs (s - ofs) true false)]), (f1 ++ [p]). split; [done|]. split; [|split; [by right|right; split; [done|lia]]].
    rewrite <- !app_assoc. replace (ofs + sz - s) with (sz - (s - ofs)) by lia.
    replace (sz - (sz - (s - ofs))) with (s - ofs) in R2 by lia. exact R2.
  - right. exists p, m, l1, f1. split; [done|]. assert (s = ofs) as -> by lia.
    replace (ofs + sz - ofs) with sz by lia. auto.
Qed.

Lemma break_right_ok m l1 p s sz l2 f1 f2 size :
  heap_rep m0 m h (l1 ++ (p, Ext s sz true false) :: l2) (f1 ++ p :: f2) ->
  lo <= s -> s + sz <= hi -> 0 < size <= sz ->
  (break_right calloc m p s size = Some None /\ calloc m = None) \/
  exists m' l2' f2', break_right calloc m p s size = Some (Some m') /\
    heap_rep m0 m' h (l1 ++ (p, Ext s size true false) :: l2') (f1 ++ p :: f2') /\
    (l2' = l2 /\ sz = size \/ exists n, l2' = (n, Ext (s + size) (sz - size) true false) :: l2 /\ size < sz).
Proof.
  intros R W1 W2 Hs. unfold int_range in *.
  destruct (rep_block _ _ _ _ _ R p _ ltac:(apply elem_of_mid; by left)) as (b & Hb & _ & Eb).
  assert (mb_size b = sz) as Es by (injection Eb; auto).
  unfold break_right. rewrite Hb. obind. rewrite Es. destruct (Z.ltb_spec size sz) as [Hlt|Hge].
  - rewrite !i32_int by (unfold int_range; lia).
    pose proof (split_after_ok calloc calloc_fresh _ _ _ _ _ _ _ _ _ (s + size) (sz - size) R) as H.
    destruct (calloc m) as [n|]; [|left; by rewrite H]. right. destruct H as (m1 & -> & R1). obind.
    destruct (rep_set_size _ _ _ _ _ _ _ _ size R1) as (m2 & -> & R2). obind. eauto 10.
  - right. assert (sz = size) as -> by lia. eauto 10.
Qed.

(** What allocation leaves: the same blocks in use, and one more unless it failed. *)
Definition alloc_post (l l' : list (Z * ext)) (r s size : Z) : Prop :=
  if r =? NULL then forall x, used l' x <-> used l x
  else (forall x, used l' x <-> x = (r, Ext s size false false) \/ used l x) /\
       (forall e, ~ used l (r, e)) /\ (coalesced false l -> coalesced false l').

(** The free block at [p] cut at both ends of [s], [size]. *)
Lemma slice_wf l1 p ofs sz l2 s size l1' r f l2' :
  exts_wf lo hi (l1 ++ (p, Ext ofs sz true false) :: l2) -> ofs <= s -> 0 < size -> s + size <= ofs + sz ->
  (l1' = l1 /\ s = ofs \/ l1' = l1 ++ [(p, Ext ofs (s - ofs) true false)] /\ ofs < s) ->
  (l2' = l2 /\ ofs + sz - s = size \/
   exists n, l2' = (n, Ext (s + size) (ofs + sz - s - size) true false) :: l2 /\ size < ofs + sz - s) ->
  exts_wf lo hi (l1' ++ (r, Ext s size f false) :: l2').
Proof.
  intros Hw H1 H2 H3 Hl Hr. apply exts_wf_mid in Hw as (W1 & W2 & _ & W3). cbn in W1, W2, W3.
  apply exts_wf_mid. cbn. split; [|split; [done|split; [done|]]].
  - destruct Hl as [[-> ->]|[-> Hl]]; [done|]. apply exts_wf_mid. cbn. split; [done|]. split; [lia|]. split; [done|lia].
  - destruct Hr as [[-> Hr]|(n & -> & Hr)]; [by replace (s + size) with (ofs + sz) by lia|]. cbn.
    split; [done|]. split; [lia|]. split; [done|].
    by replace (s + size + (ofs + sz - s - size)) with (ofs + sz) by lia.
Qed.

Lemma slice_post l1 p ofs sz l2 s size l1' r l2' :
  (l1' = l1 /\ s = ofs \/ l1' = l1 ++ [(p, Ext ofs (s - ofs) true false)] /\ ofs < s) ->
  (l2' = l2 /\ ofs + sz - s = size \/
   exists n, l2' = (n, Ext (s + size) (ofs + sz - s - size) true false) :: l2 /\ size < ofs + sz - s) ->
  r <> NULL -> (forall e, ~ used (l1 ++ (p, Ext ofs sz true false) :: l2) (r, e)) ->
  alloc_post (l1 ++ (p, Ext ofs sz true false) :: l2) (l1' ++ (r, Ext s size false false) :: l2') r s size.
Proof.
  intros Hl Hr Hr0 Hnu. unfold alloc_post. rewrite (proj2 (Z.eqb_neq _ _)) by done. split; [|split; [done|]].
  - intros x. rewrite !used_app, !used_cons. cbn [snd e_free].
    assert (used l1' x <-> used l1 x) as ->.
    { destruct Hl as [[-> _]|[-> _]]; [done|]. rewrite used_app, used_cons, used_nil. cbn. intuition congruence. }
    assert (used l2' x <-> used l2 x) as ->; [|intuition congruence].
    destruct Hr as [[-> _]|(n & -> & _)]; [done|]. rewrite used_cons. cbn. intuition congruence.
  - rewrite !coalesced_mid. cbn [e_free]. rewrite andb_true_r. intros (C1 & C2 & C3). split; [|split].
    + destruct Hl as [[-> _]|[-> _]]; [done|]. rewrite coalesced_mid. cbn. by rewrite C2.
    + by rewrite andb_false_r.
    + destruct Hr as [[-> _]|(n & -> & _)]; [by apply coalesced_false in C3|]. cbn. done.
Qed.

Lemma SliceBlock_ok m l1 p ofs sz l2 fs s size :
  heap_rep m0 m h (l1 ++ (p, Ext ofs sz true false) :: l2) fs ->
  exts_wf lo hi (l1 ++ (p, Ext ofs sz true false) :: l2) -> ofs <= s -> 0 < size -> s + size <= ofs + sz ->
  exists r m' l' fs', SliceBlock calloc m p s size false = Some (r, m') /\ heap_rep m0 m' h l' fs' /\
    exts_wf lo hi l' /\ alloc_post (l1 ++ (p, Ext ofs sz true false) :: l2) l' r s size /\
    (r = NULL -> exists m, calloc m = None).
Proof.
  intros R Hw H1 H2 H3. pose proof (rep_nodup _ _ _ _ _ R) as Hn.
  assert (p ∈ fs) as (f1 & f2 & ->)%list_elem_of_split.
  { apply (rep_free _ _ _ _ _ R). eexists. split; [apply elem_of_mid; by left|done]. }
  destruct (exts_wf_range _ _ _ p _ Hw ltac:(apply elem_of_mid; by left)) as (B1 & _ & B2 & _). cbn in B1, B2.
  unfold SliceBlock.
  destruct (break_left_ok _ _ _ _ _ _ _ _ s R Hw) as [[-> Hc]|(r & m1 & l1' & f1' & -> & R1 & Hr & Hl)]; [lia|..]; obind.
  { exists NULL, m. do 2 eexists. split; [done|]. split; [exact R|]. split; [done|]. split; [|by eauto]. done. }
  assert (r <> NULL) as Hr0.
  { eapply rep_new; [exact R1|]. right. rewrite fst_mid. apply elem_of_mid. by left. }
  assert (forall e, ~ used (l1 ++ (p, Ext ofs sz true false) :: l2) (r, e)) as Hnu.
  { intros e [Hu Hf]. destruct Hr as [->|Hr].
    - apply (mid_unique _ _ _ _ _ _ Hn) in Hu as [[_ ->]|[? _]]; done.
    - apply (rep_block _ _ _ _ _ R) in Hu as (b & ? & _). congruence. }
  destruct (break_right_ok m1 _ _ _ _ _ _ _ size R1) as [[-> Hc]|(m2 & l2' & f2' & -> & R2 & Hr')]; [lia..| |]; obind.
  - exists NULL, m1. do 2 eexists. split; [done|]. split; [exact R1|]. split; [|split; [|by eauto]].
    + eapply slice_wf; [exact Hw|lia..|exact Hl|by left].
    + unfold alloc_post. cbn [Z.eqb NULL]. intros x. rewrite !used_app, !used_cons. cbn [snd e_free].
      destruct Hl as [[-> _]|[-> _]]; [intuition congruence|]. rewrite used_app, used_cons, used_nil. cbn. intuition congruence.
  - destruct (take_block_ok _ _ _ _ _ _ _ _ _ false R2) as (m3 & -> & R3). obind. cbn in R3.
    exists r, m3. do 2 eexists. split; [done|]. split; [exact R3|]. split; [by eapply slice_wf|].
    split; [by apply slice_post|done].
Qed.

(** ** The search *)

Lemma find_fit_ok m l f1 f2 fuel size k start :
  heap_rep m0 m h l (f1 ++ f2) -> exts_wf lo hi l -> 0 <= k < 31 -> 0 < size ->
  int_range start -> int_range (start + size) -> int_range (hi + 2 ^ k + size) -> (length f2 < fuel)%nat ->
  find_fit fuel m h (hd h f2) size (Z.ones k) start = Some None \/
  exists a ofs sz s, find_fit fuel m h (hd h f2) size (Z.ones k) start = Some (Some (a, s)) /\
    (a, Ext ofs sz true false) ∈ l /\ ofs <= s /\ start <= s /\ (s = start \/ s mod 2 ^ k = 0) /\ s + size <= ofs + sz.
Proof.
  intros R Hw Hk Hs S1 S2 S3. revert f1 fuel R. induction f2 as [|a f2 IH]; intros f1 fuel R Hf;
    (destruct fuel as [|fuel]; [cbn in Hf; lia|]); cbn [find_fit hd].
  - rewrite Z.eqb_refl. by left.
  - pose proof (rep_fl _ _ _ _ _ R) as Rf. destruct (ring_neighbours _ _ _ _ _ _ Rf) as (Vn & _).
    rewrite (proj2 (Z.eqb_neq _ _)).
    2:{ destruct Rf as [_ Hn]. apply NoDup_cons in Hn as [Hn _]. intros ->. apply Hn, elem_of_mid. by left. }
    destruct (proj1 (rep_free _ _ _ _ _ R a)) as (e & He & Ef); [apply elem_of_mid; by left|].
    destruct (rep_block _ _ _ _ _ R a e He) as (b & Hb & _ & Eb). rewrite Hb. obind.
    destruct (exts_wf_range _ _ _ _ _ Hw He) as (B1 & B2 & B3 & B4). destruct e as [ofs sz fr rs]. cbn in *.
    assert (mb_ofs b = ofs /\ mb_size b = sz /\ mb_free b = fr) as (Eo & Es & Efr) by (injection Eb; auto).
    rewrite Efr, Ef. cbn [negb]. assert (0 < 2 ^ k) by (apply Z.pow_pos_nonneg; lia). unfold int_range in *.
    destruct (start_offset_ok b k start) as (O1 & O2 & O3 & O4); [done|unfold int_range; lia..|].
    rewrite (i32_int (_ + size)), Eo, Es, (i32_int (ofs + sz)) by (unfold int_range; lia).
    destruct (Z.leb_spec (start_offset b (Z.ones k) start + size) (ofs + sz)) as [Hle|Hgt].
    + right. exists a, ofs, sz, (start_offset b (Z.ones k) start). subst fr rs. rewrite Eo in O1. auto 10.
    + apply view_Some in Vn as (b' & Hb' & En). cbn in En. assert (b' = b) as -> by congruence. rewrite En.
      apply (IH (f1 ++ [a])); [by rewrite <- app_assoc|lia].
Qed.

Lemma u_mmAllocMem_ok m l fs size k start :
  heap_rep m0 m h l fs -> exts_wf lo hi l -> 0 <= k < 31 -> 0 <= size ->
  int_range start -> int_range (start + size) -> int_range (hi + 2 ^ k + size) ->
  exists r m' l' fs' s, u_mmAllocMem calloc m h size k start = Some (r, m') /\ heap_rep m0 m' h l' fs' /\
    exts_wf lo hi l' /\ alloc_post l l' r s size /\ start <= s /\ (s = start \/ s mod 2 ^ k = 0) /\
    (r = NULL -> l' = l \/ exists m, calloc m = None).
Proof.
  intros R Hw Hk Hs S1 S2 S3. unfold u_mmAllocMem. rewrite alloc_mask by done.
  replace ((0 <=? size) && (0 <=? k) && (k <? 32)) with true by (symmetry; rewrite !andb_true_iff; lia). cbn [negb].
  assert (h <> NULL) as Hh by (eapply rep_new; [exact R|by left]). rewrite (proj2 (Z.eqb_neq h NULL)) by done.
  rewrite (proj2 (Z.ltb_ge k 0)) by lia. cbn [orb].
  destruct (Z.leb_spec size 0) as [H0|H0].
  { exists NULL, m, l, fs, start. do 3 (split; [done|]). split; [by unfold alloc_post|]. split; [lia|]. auto. }
  pose proof (rep_fl _ _ _ _ _ R) as [Hc _]. apply chain_next in Hc as (hb & Hb & Eh)%view_Some. rewrite Hb. obind.
  cbn in Eh. rewrite Eh. pose proof (rep_fs_length _ _ _ _ _ R) as Hlen.
  destruct (find_fit_ok m l [] fs (S (base.size m)) size k start) as [->|(a & ofs & sz & s & -> & Ha & F1 & F2 & F3 & F4)];
    [done..|lia| |]; obind.
  { exists NULL, m, l, fs, start. do 3 (split; [done|]). split; [by unfold alloc_post|]. split; [lia|]. auto. }
  apply list_elem_of_split in Ha as (l1 & l2 & ->).
  destruct (SliceBlock_ok m l1 a ofs sz l2 fs s size) as (r & m' & l' & fs' & -> & R' & Hw' & Hp & Hn); [done..|].
  exists r, m', l', fs', s. auto 10.
Qed.

End Heap.

(** ** Freeing *)

Section Free.

Context (m0 : mm_store) (h lo hi : Z).
Context (Hlo : int_range lo) (Hhi : int_range hi) (Hsz : hi - lo < 2 ^ 31).

(** The block with the one after it, if both are free. *)
Definition joined (e : ext) (l2 : list (Z * ext)) (e' : ext) (l2' : list (Z * ext)) : Prop :=
  e_free e' = e_free e /\
  (e' = e /\ l2' = l2 /\
     (e_free e = false \/ match l2 with [] => True | (_, e') :: _ => e_free e' = false end) \/
   e_free e = true /\ exists q eq, l2 = (q, eq) :: l2' /\ e_free eq = true).

Lemma joined_used l1 p e l2 e' l2' x :
  joined e l2 e' l2' -> used (l1 ++ (p, e') :: l2') x <-> used (l1 ++ (p, e) :: l2) x.
Proof.
  intros (Ef & [(-> & -> & _)|(Ee & q & eq & -> & Eq)]); [done|]. rewrite !used_app, !used_cons. cbn [snd].
  rewrite Ef, Ee, Eq. intuition congruence.
Qed.

(** After a join the blocks from [p] on are coalesced if they were after [p]. *)
Lemma joined_coalesced e l2 e' l2' : joined e l2 e' l2' -> coalesced false l2 -> coalesced (e_free e') l2'.
Proof.
  intros (Ef & [(-> & -> & Hc)|(Ee & q & eq & -> & Eq)]) C.
  - destruct l2 as [|[q eq] l2]; [done|]. cbn in *. split; [|apply C]. destruct Hc as [->| ->]; [done|apply andb_false_r].
  - rewrite Ef, Ee. cbn in C. rewrite Eq in C. apply C.
Qed.

Lemma Join2Blocks_ok m l1 p e l2 fs :
  heap_rep m0 m h (l1 ++ (p, e) :: l2) fs -> exts_wf lo hi (l1 ++ (p, e) :: l2) ->
  exists r m' e' l2' fs', Join2Blocks m p = Some (r, m') /\ heap_rep m0 m' h (l1 ++ (p, e') :: l2') fs' /\
    exts_wf lo hi (l1 ++ (p, e') :: l2') /\ joined e l2 e' l2'.
Proof.
  unfold joined. intros R Hw. destruct (e_free e) eqn:Ee.
  2:{ exists 0, m, e, l2, fs. rewrite (Join2Blocks_keep _ _ _ _ _ _ _ _ R) by (by left). auto 10. }
  destruct l2 as [|[q eq] l2].
  { exists 0, m, e, [], fs. rewrite (Join2Blocks_keep _ _ _ _ _ _ _ _ R) by (by right). auto 10. }
  destruct (e_free eq) eqn:Eq.
  2:{ exists 0, m, e, ((q, eq) :: l2), fs. rewrite (Join2Blocks_keep _ _ _ _ _ _ _ _ R) by (by right). auto 10. }
  pose proof Hw as (W1 & W2 & W3 & W4)%exts_wf_mid. cbn in W4. destruct W4 as (W4 & W5 & W6 & W7).
  apply exts_wf_le in W1 as B1. apply exts_wf_le in W7 as B2. unfold int_range in *.
  destruct (Join2Blocks_merge _ _ _ _ _ _ _ _ _ _ R Ee Eq) as (m' & fs' & Hj & R').
  { rewrite i32_int; [done|unfold int_range; lia]. }
  rewrite i32_int in R' by (unfold int_range; lia). rewrite W3 in R'.
  exists 1, m'. do 3 eexists. split; [done|]. split; [exact R'|]. split; [|split; [done|right; eauto 10]].
  apply exts_wf_mid. cbn. split; [done|]. split; [lia|]. split; [done|].
  by replace (e_ofs e + (e_size e + e_size eq)) with (e_ofs e + e_size e + e_size eq) by lia.
Qed.

Lemma u_mmFreeMem_ok m l1 p e l2 fs :
  heap_rep m0 m h (l1 ++ (p, e) :: l2) fs -> exts_wf lo hi (l1 ++ (p, e) :: l2) -> e_free e = false ->
  exists m' l' fs', u_mmFreeMem m p = Some (0, m') /\ heap_rep m0 m' h l' fs' /\ exts_wf lo hi l' /\
    (forall x, used l' x <-> used (l1 ++ l2) x) /\ (coalesced false (l1 ++ (p, e) :: l2) -> coalesced false l').
Proof.
  intros R Hw He. destruct (rep_block _ _ _ _ _ R p e) as (b & Hb & Eh & Eb); [apply elem_of_mid; by left|].
  pose proof Hw as (W1 & W2 & W3 & W4)%exts_wf_mid.
  assert (mb_free b = false /\ mb_reserved b = false) as [Ef Er] by (subst e; auto).
  assert (p <> NULL) as Hp0. { eapply rep_new; [exact R|]. right. rewrite fst_mid. apply elem_of_mid. by left. }
  destruct (give_block_ok _ _ _ _ _ _ _ _ R He) as (m1 & m2 & U1 & P2 & R2).
  set (e1 := Ext (e_ofs e) (e_size e) true (e_reserved e)) in R2.
  assert (exts_wf lo hi (l1 ++ (p, e1) :: l2)) as Hw2 by (apply exts_wf_mid; auto).
  destruct (Join2Blocks_ok m2 l1 p e1 l2 _ R2 Hw2) as (r3 & m3 & e3 & l3 & fs3 & J3 & R3 & Hw3 & Hj3).
  destruct (rep_block _ _ _ _ _ R3 p e3) as (b3 & Hb3 & Eh3 & _); [apply elem_of_mid; by left|].
  assert (mb_prev b3 = List.last l1.*1 h) as Epv.
  { pose proof (rep_all _ _ _ _ _ R3) as Ra. rewrite fst_mid in Ra.
    destruct (ring_neighbours _ _ _ _ _ _ Ra) as (_ & (b' & Hb' & H)%view_Some & _). cbn in H. congruence. }
  assert (forall x, used (l1 ++ (p, e3) :: l3) x <-> used (l1 ++ l2) x) as Hu3.
  { intros x. rewrite (joined_used _ _ _ _ _ _ _ Hj3), !used_app, used_cons. cbn. intuition congruence. }
  unfold u_mmFreeMem. rewrite (proj2 (Z.eqb_neq _ _)), Hb by done. obind. rewrite Ef, Er, U1. obind. rewrite Eh, P2. obind.
  rewrite J3. obind. rewrite Hb3. obind. rewrite Eh3, Epv. destruct l1 as [|[a ea] l1 _] using rev_ind.
  - cbn [app fmap list_fmap List.last] in *. rewrite Z.eqb_refl. exists m3. do 2 eexists. split; [done|]. split; [exact R3|].
    split; [done|]. split; [done|]. intros [_ C]. rewrite He in C. cbn. split; [done|]. by eapply joined_coalesced.
  - rewrite fmap_app. cbn [fmap list_fmap fst]. rewrite last_last, (proj2 (Z.eqb_neq a h)).
    2:{ intros ->. apply (rep_head_notin _ _ _ _ _ R3). rewrite fst_mid, fmap_app. cbn. set_solver. }
    rewrite <- app_assoc in R3, Hw3, Hu3. cbn [app negb] in *.
    destruct (Join2Blocks_ok m3 l1 a ea ((p, e3) :: l3) _ R3 Hw3) as (r4 & m4 & e4 & l4 & fs4 & J4 & R4 & Hw4 & Hj4).
    rewrite J4. obind. exists m4. do 2 eexists. split; [done|]. split; [exact R4|]. split; [done|]. split.
    + intros x. by rewrite (joined_used _ _ _ _ _ _ _ Hj4), Hu3.
    + rewrite <- app_assoc. cbn [app]. rewrite !coalesced_mid. cbn [coalesced]. rewrite He. intros (C1 & C2 & _ & C3).
      split; [done|]. split; [by rewrite (proj1 Hj4)|]. apply (joined_coalesced _ _ _ _ Hj4).
      cbn. split; [done|]. by eapply joined_coalesced.
Qed.

End Free.
