(* ===== verification/MemManagerTheorems.v ===== *)
(** * Properties of the memory manager

    A client that allocates and frees blocks of one heap, in any order.  What it holds
    is what it asked for and does not overlap; freeing everything gives
    the heap back in one piece, and destroying the heap gives the store back. *)
From stdpp Require Import gmap.
From S2P Require Import Prelude MemManager MemManagerRings MemManagerRep MemManagerAlloc.

(** ** Making a heap *)

Section Init.

Context (calloc : mm_store -> option Z).
Context (calloc_fresh : forall m a, calloc m = Some a -> a <> NULL /\ m !! a = None).

(** A heap with one free block. *)
Definition single_block (m : mm_store) (h ofs size : Z) : Prop :=
  exists a hb, m !! h = Some hb /\ m !! a = Some (MemBlock h h h h h ofs size true false) /\
    mb_next hb = a /\ mb_prev hb = a /\ mb_next_free hb = a /\ mb_prev_free hb = a.

Lemma u_mmInit_ok m0 ofs size h m :
  u_mmInit calloc m0 ofs size = Some (h, m) -> h <> NULL ->
  0 < size /\ exists a, heap_rep m0 m h [(a, Ext ofs size true false)] [a].
Proof.
  unfold u_mmInit, calloc_block. destruct (Z.leb_spec size 0) as [|Hs]; [congruence|].
  destruct (calloc m0) as [hp|] eqn:C1; [|congruence]. apply calloc_fresh in C1 as [Hh0 Hh].
  destruct (calloc (<[hp := new_block]> m0)) as [a|] eqn:C2; [|congruence]. apply calloc_fresh in C2 as [Ha0 Ha].
  assert (a <> hp) as Hah. { intros ->. by rewrite lookup_insert_eq in Ha. }
  rewrite lookup_insert_ne in Ha by done. unfold upd.
  repeat (rewrite ?(lookup_insert_ne _ a hp), ?(lookup_insert_ne _ hp a), ?lookup_insert_eq by done; obind).
  intros [= <- <-] _. split; [done|]. exists a.
  constructor; cbn [fmap list_fmap fst].
  - split; [|apply NoDup_cons; split; [set_solver|apply NoDup_singleton]]. cbn [chain].
    unfold view. rewrite ?(lookup_insert_ne _ a hp), ?(lookup_insert_ne _ hp a), ?lookup_insert_eq by done. done.
  - split; [|apply NoDup_cons; split; [set_solver|apply NoDup_singleton]]. cbn [chain].
    unfold view. rewrite ?(lookup_insert_ne _ a hp), ?(lookup_insert_ne _ hp a), ?lookup_insert_eq by done. done.
  - unfold view. rewrite ?(lookup_insert_ne _ a hp), ?lookup_insert_eq by done. done.
  - intros x e [= -> ->]%list_elem_of_singleton. unfold view. rewrite lookup_insert_eq. done.
  - intros x. rewrite list_elem_of_singleton. split; [intros ->; eexists; split; [by left|done]|].
    by intros (e & [= -> _]%list_elem_of_singleton & _).
  - intros x Hx. rewrite !lookup_insert_ne by set_solver. done.
  - intros x. rewrite elem_of_cons, list_elem_of_singleton. intros [->| ->]; done.
Qed.

End Init.

(** ** Looking a block up and destroying the heap *)

Lemma find_block_ok m0 m h lo hi l1 l2 fs fuel p e :
  heap_rep m0 m h (l1 ++ l2) fs -> exts_wf lo hi (l1 ++ l2) -> (p, e) ∈ l2 -> (length l2 < fuel)%nat ->
  find_block fuel m h (hd h l2.*1) (e_ofs e) = Some p.
Proof.
  revert l1 fuel. induction l2 as [|[a ea] l2 IH]; intros l1 fuel R Hw Hp Hf; [by apply elem_of_nil in Hp|].
  destruct fuel as [|fuel]; [cbn in Hf; lia|]. cbn [find_block hd fmap list_fmap fst].
  pose proof (rep_all _ _ _ _ _ R) as Ra. rewrite fst_mid in Ra. destruct (ring_neighbours _ _ _ _ _ _ Ra) as (Vn & _).
  rewrite (proj2 (Z.eqb_neq a h)).
  2:{ intros ->. apply (rep_head_notin _ _ _ _ _ R). rewrite fst_mid. apply elem_of_mid. by left. }
  destruct (rep_block _ _ _ _ _ R a ea) as (b & Hb & _ & Eb); [apply elem_of_mid; by left|]. rewrite Hb. obind.
  assert (mb_ofs b = e_ofs ea) as -> by (by subst ea).
  destruct (Z.eqb_spec (e_ofs ea) (e_ofs e)) as [Eo|Eo].
  - destruct (decide (a = p)) as [->|Hap]; [done|]. exfalso.
    assert ((a, ea) ∈ l1 ++ (a, ea) :: l2) as Ia by (apply elem_of_mid; by left).
    assert ((p, e) ∈ l1 ++ (a, ea) :: l2) as Ip by (apply elem_of_app; by right).
    destruct (exts_wf_range _ _ _ _ _ Hw Ia) as (_ & ? & _). destruct (exts_wf_range _ _ _ _ _ Hw Ip) as (_ & ? & _).
    destruct (exts_wf_disjoint _ _ _ _ _ _ _ Hw Ia Ip Hap); lia.
  - apply view_Some in Vn as (b' & Hb' & En). cbn in En. assert (b' = b) as -> by congruence. rewrite En.
    apply elem_of_cons in Hp as [[= -> ->]|Hp]; [done|].
    apply (IH (l1 ++ [(a, ea)])); [by rewrite <- app_assoc..|done|cbn in Hf; lia].
Qed.

Lemma u_mmFindBlock_ok m0 m h lo hi l fs p e :
  heap_rep m0 m h l fs -> exts_wf lo hi l -> (p, e) ∈ l -> u_mmFindBlock m h (e_ofs e) = Some p.
Proof.
  intros R Hw Hp. unfold u_mmFindBlock. pose proof (rep_all _ _ _ _ _ R) as [Hc _].
  apply chain_next in Hc as (hb & Hb & Eh)%view_Some. rewrite Hb. obind. cbn in Eh. rewrite Eh.
  apply (find_block_ok m0 _ _ lo hi [] _ fs); [done..|]. pose proof (rep_l_length _ _ _ _ _ R). lia.
Qed.

Lemma destroy_blocks_ok m h l fuel :
  match l with [] => True | z :: l => chain all_links m z l h end -> NoDup (h :: l) -> (length l < fuel)%nat ->
  exists m', destroy_blocks fuel m h (hd h l) = Some m' /\
    forall x, m' !! x = if decide (x ∈ l) then None else m !! x.
Proof.
  revert m fuel. induction l as [|z l IH]; intros m fuel Hc Hn Hf; (destruct fuel as [|fuel]; [cbn in Hf; lia|]);
    cbn [destroy_blocks hd].
  { rewrite Z.eqb_refl. exists m. split; [done|]. intros x. by rewrite decide_False by apply not_elem_of_nil. }
  apply NoDup_cons in Hn as [Hh Hn]. apply not_elem_of_cons in Hh as [Hhz Hh]. apply NoDup_cons in Hn as [Hz Hn].
  rewrite (proj2 (Z.eqb_neq z h)) by done. pose proof (chain_next _ _ _ _ _ Hc) as (b & Hb & En)%view_Some.
  rewrite Hb. obind. cbn in En. rewrite En.
  destruct (IH (delete z m) fuel) as (m' & Hm & Hx); [|by apply NoDup_cons|cbn in Hf; lia|].
  { destruct l as [|w l]; [done|]. destruct Hc as (_ & _ & Hc).
    apply (chain_frame all_links m); [..|exact Hc]; intros y Hy; unfold view; rewrite lookup_delete_ne; try done.
    - by intros ->.
    - intros ->. apply elem_of_app in Hy as [Hy|Hy%list_elem_of_singleton]; [|done]. apply Hz. by right. }
  exists m'. split; [done|]. intros x. rewrite Hx. destruct (decide (x = z)) as [->|Hxz].
  - rewrite (decide_True (P := z ∈ z :: l)) by (by left). rewrite lookup_delete_eq. by case_decide.
  - rewrite lookup_delete_ne by done. repeat case_decide; try done; set_solver.
Qed.

Lemma u_mmDestroy_ok m0 m h l fs : heap_rep m0 m h l fs -> u_mmDestroy m h = Some m0.
Proof.
  intros R. unfold u_mmDestroy. rewrite (proj2 (Z.eqb_neq h NULL)) by (eapply rep_new; [exact R|by left]).
  pose proof (rep_all _ _ _ _ _ R) as [Hc Hn]. pose proof (chain_next _ _ _ _ _ Hc) as (hb & Hb & Eh)%view_Some.
  rewrite Hb. obind. cbn in Eh. rewrite Eh.
  destruct (destroy_blocks_ok m h l.*1 (S (base.size m))) as (m' & -> & Hx); [|done| |].
  { destruct l.*1 as [|z k]; [done|]. apply Hc. }
  { rewrite length_fmap. pose proof (rep_l_length _ _ _ _ _ R). lia. }
  obind. f_equal. apply map_eq. intros x. destruct (decide (x ∈ h :: l.*1)) as [Hi|Hi].
  - rewrite (proj1 (rep_new _ _ _ _ _ R x Hi)). apply elem_of_cons in Hi as [->|Hi]; [apply lookup_delete_eq|].
    destruct (decide (x = h)) as [->|Hxh]; [apply lookup_delete_eq|]. rewrite lookup_delete_ne, Hx by done.
    by rewrite decide_True.
  - rewrite <- (rep_other _ _ _ _ _ R x Hi). apply not_elem_of_cons in Hi as [Hxh Hi].
    rewrite lookup_delete_ne, Hx by done. by rewrite decide_False.
Qed.

(** ** Clients *)

(** A block a client holds, with the request it answered. *)
Record grant := Grant { g_block : Z; g_size : Z; g_align2 : Z; g_start : Z }.

(** A request, or freeing the [k]-th block that the client holds. *)
Inductive mm_op := OpAlloc (size align2 startSearch : Z) | OpFree (k : nat).

Definition mm_step (calloc : mm_store -> option Z) (h : Z) (st : mm_store * list grant) (op : mm_op) :
  option (mm_store * list grant) :=
  let '(m, live) := st in
  match op with
  | OpAlloc size align2 start =>
    '(p, m) ← u_mmAllocMem calloc m h size align2 start;
    Some (m, if p =? NULL then live else Grant p size align2 start :: live)
  | OpFree k =>
    match live !! k with
    | None => Some (m, live)
    | Some g => '(_, m) ← u_mmFreeMem m (g_block g); Some (m, delete k live)
    end
  end.

(** The calls from the [n]-th on; the [n]-th call allocates with [callocs n]. *)
Fixpoint mm_run (callocs : nat -> mm_store -> option Z) (n : nat) (h : Z) (st : mm_store * list grant)
    (ops : list mm_op) : option (mm_store * list grant) :=
  match ops with
  | [] => Some st
  | op :: ops => st ← mm_step (callocs n) h st op; mm_run callocs (S n) h st ops
  end.

(** Requests that stay in the range of [int] in a heap that ends at [hi]. *)
Definition op_ok (hi : Z) (op : mm_op) : Prop :=
  match op with
  | OpAlloc size k start =>
    0 <= size /\ 0 <= k < 31 /\ int_range start /\ int_range (start + size) /\ int_range (hi + 2 ^ k + size)
  | OpFree _ => True
  end.

(** The block answers the request, lies in the heap and is found by its offset. *)
Definition granted (m : mm_store) (h lo hi : Z) (g : grant) : Prop :=
  exists b, m !! g_block g = Some b /\ mb_free b = false /\ mb_size b = g_size g /\
    lo <= mb_ofs b /\ mb_ofs b + mb_size b <= hi /\ g_start g <= mb_ofs b /\
    (mb_ofs b = g_start g \/ mb_ofs b mod 2 ^ g_align2 g = 0) /\ u_mmFindBlock m h (mb_ofs b) = Some (g_block g).

(** Two blocks do not overlap. *)
Definition apart (m : mm_store) (p q : Z) : Prop :=
  forall b b', m !! p = Some b -> m !! q = Some b' ->
  mb_ofs b + mb_size b <= mb_ofs b' \/ mb_ofs b' + mb_size b' <= mb_ofs b.

Section Run.

Context (callocs : nat -> mm_store -> option Z).
Context (calloc_fresh : forall n m a, callocs n m = Some a -> a <> NULL /\ m !! a = None).
Context (m0 : mm_store) (h lo hi : Z).
Context (Hlo : int_range lo) (Hhi : int_range hi) (Hsz : hi - lo < 2 ^ 31).

(** The request that a block in use answers. *)
Definition answers (l : list (Z * ext)) (g : grant) : Prop :=
  exists e, used l (g_block g, e) /\ e_size e = g_size g /\ g_start g <= e_ofs e /\
    (e_ofs e = g_start g \/ e_ofs e mod 2 ^ g_align2 g = 0).

(** What the client holds is what the heap has in use. *)
Record client_inv (st : mm_store * list grant) (l : list (Z * ext)) (fs : list Z) : Prop := {
  ci_rep : heap_rep m0 st.1 h l fs;
  ci_wf : exts_wf lo hi l;
  ci_nodup : NoDup (g_block <$> st.2);
  ci_used : forall a e, used l (a, e) -> a ∈ g_block <$> st.2;
  ci_live : forall g, g ∈ st.2 -> answers l g;
  ci_coalesced : (forall n m, callocs n m <> None) -> coalesced false l }.

Lemma answers_mono l l' g : (forall x, used l x -> used l' x) -> answers l g -> answers l' g.
Proof. intros H (e & Hu & He). exists e. auto. Qed.

Lemma mm_alloc_inv n m live l fs size k start :
  client_inv (m, live) l fs -> op_ok hi (OpAlloc size k start) ->
  exists st' l' fs', mm_step (callocs n) h (m, live) (OpAlloc size k start) = Some st' /\ client_inv st' l' fs'.
Proof.
  intros [R Hw Hn Hu Hl Hc] (O1 & O2 & O3 & O4 & O5). cbn [fst snd] in *. cbn [mm_step].
  destruct (u_mmAllocMem_ok (callocs n) (calloc_fresh n) m0 h lo hi Hlo Hhi Hsz m l fs size k start) as
    (r & m' & l' & fs' & s & -> & R' & Hw' & Hp & S1 & S2 & Hr); [done..|]. obind.
  eexists _, l', fs'. split; [done|]. unfold alloc_post in Hp. destruct (Z.eqb_spec r NULL) as [E|E].
  - constructor; cbn [fst snd]; [done|done|done| | |].
    + intros a e Ha. by apply (Hu a e), Hp.
    + intros g Hg. eapply answers_mono; [|by apply Hl]. intros x. apply Hp.
    + intros Ht. destruct (Hr E) as [->|[m1 H1]]; [by apply Hc|]. by destruct (Ht n m1).
  - destruct Hp as (P1 & P2 & P3). constructor; cbn [fst snd fmap list_fmap]; [done|done| | | |by auto].
    + apply NoDup_cons. split; [|done]. intros (g & Eg & Hg)%list_elem_of_fmap. destruct (Hl g Hg) as (e & He & _).
      cbn [g_block] in Eg. rewrite <- Eg in He. by apply (P2 e).
    + intros a e [[= -> ->]|Ha]%P1; [by left|]. right. by apply (Hu a e).
    + intros g [->|Hg]%elem_of_cons.
      * exists (Ext s size false false). split; [apply P1; by left|done].
      * eapply answers_mono; [|by apply Hl]. intros x Hx. apply P1. by right.
Qed.

Lemma mm_free_inv n m live l fs i :
  client_inv (m, live) l fs ->
  exists st' l' fs', mm_step (callocs n) h (m, live) (OpFree i) = Some st' /\ client_inv st' l' fs'.
Proof.
  intros Hi. cbn [mm_step]. destruct (live !! i) as [g|] eqn:Eg; [|eauto].
  destruct Hi as [R Hw Hn Hu Hl Hc]. cbn [fst snd] in *.
  pose proof (delete_Permutation _ _ _ Eg) as Hperm. rewrite Hperm in Hn. cbn in Hn. apply NoDup_cons in Hn as [Hgn Hn].
  destruct (Hl g) as (e & [Hin Hf] & _); [by eapply list_elem_of_lookup_2|].
  apply list_elem_of_split in Hin as (l1 & l2 & ->). cbn [snd] in Hf.
  destruct (u_mmFreeMem_ok m0 h lo hi Hlo Hhi Hsz m l1 (g_block g) e l2 fs) as (m' & l' & fs' & -> & R' & Hw' & P1 & P2);
    [done..|]. obind.
  pose proof (rep_nodup _ _ _ _ _ R) as Hnl.
  eexists _, l', fs'. split; [done|]. constructor; cbn [fst snd]; [done|done|done| | |by auto].
  - intros a e1 [H1 F1]%P1. cbn [snd] in F1.
    assert (a ∈ g_block <$> live) as Ha by (apply (Hu a e1); split; [apply elem_of_mid; by right|done]).
    rewrite Hperm in Ha. cbn in Ha. apply elem_of_cons in Ha as [->|Ha]; [|done].
    by destruct (mid_other _ _ _ _ _ _ Hnl H1).
  - intros g' Hg'. destruct (Hl g') as (e1 & [H1 F1] & He1); [rewrite Hperm; by right|]. exists e1. split; [|done].
    apply P1. split; [|done]. apply (mid_unique _ _ _ _ _ _ Hnl) in H1 as [[E _]|[_ H1]]; [|done].
    exfalso. apply Hgn. rewrite <- E. apply list_elem_of_fmap. eauto.
Qed.

Lemma mm_run_inv ops n st l fs :
  client_inv st l fs -> Forall (op_ok hi) ops ->
  exists st' l' fs', mm_run callocs n h st ops = Some st' /\ client_inv st' l' fs'.
Proof.
  revert n st l fs. induction ops as [|op ops IH]; intros n [m live] l fs Hi Ho; cbn [mm_run]; [eauto|].
  apply Forall_cons in Ho as [Ho Hos].
  assert (exists st' l' fs', mm_step (callocs n) h (m, live) op = Some st' /\ client_inv st' l' fs') as
    (st1 & l1 & fs1 & -> & H1).
  { destruct op; [by eapply mm_alloc_inv|by eapply mm_free_inv]. }
  obind. by eapply IH.
Qed.

Lemma client_granted m live l fs g : client_inv (m, live) l fs -> g ∈ live -> granted m h lo hi g.
Proof.
  intros [R Hw _ _ Hl _] Hg. cbn [fst snd] in *. destruct (Hl g Hg) as (e & [Hin Hf] & H1 & H2 & H3). cbn in Hf.
  destruct (rep_block _ _ _ _ _ R _ _ Hin) as (b & Hb & _ & Eb). destruct (exts_wf_range _ _ _ _ _ Hw Hin) as (B1 & B2 & B3 & _).
  exists b. rewrite <- Eb in *. cbn in *. do 7 (split; [done|]).
  rewrite Eb in Hin. pose proof (u_mmFindBlock_ok _ _ _ _ _ _ _ _ _ R Hw Hin) as H. by rewrite <- Eb in H.
Qed.

Lemma client_apart m live l fs i j g g' :
  client_inv (m, live) l fs -> live !! i = Some g -> live !! j = Some g' -> i <> j -> apart m (g_block g) (g_block g').
Proof.
  intros [R Hw Hn _ Hl _] Hi Hj Hij. cbn [fst snd] in *.
  destruct (Hl g) as (e & [Hin _] & _); [by eapply list_elem_of_lookup_2|].
  destruct (Hl g') as (e' & [Hin' _] & _); [by eapply list_elem_of_lookup_2|].
  assert (g_block g <> g_block g') as Hne.
  { intros E. apply Hij. apply (NoDup_lookup _ _ _ (g_block g) Hn); rewrite list_lookup_fmap; [by rewrite Hi|].
    rewrite Hj, E. done. }
  destruct (rep_block _ _ _ _ _ R _ _ Hin) as (b & Hb & _ & Eb). destruct (rep_block _ _ _ _ _ R _ _ Hin') as (b' & Hb' & _ & Eb').
  intros c c' Hc Hc'. assert (c = b) as -> by congruence. assert (c' = b') as -> by congruence.
  pose proof (exts_wf_disjoint _ _ _ _ _ _ _ Hw Hin Hin' Hne) as H. by rewrite <- Eb, <- Eb' in H.
Qed.

End Run.

(** A coalesced heap without a block in use is one free block. *)
Lemma all_free_single lo hi l :
  exts_wf lo hi l -> lo < hi -> coalesced false l -> (forall x, ~ used l x) ->
  exists a, l = [(a, Ext lo (hi - lo) true false)].
Proof.
  intros Hw Hlt Hc Hu. assert (forall a e, (a, e) ∈ l -> e_free e = true) as Hf.
  { intros a e H. destruct (e_free e) eqn:E; [done|]. by destruct (Hu (a, e)). }
  destruct l as [|[a e] [|[b e'] l]]; cbn in Hw, Hc.
  - lia.
  - exists a. destruct Hw as (W1 & _ & W3 & W4). destruct e as [o s f r]. cbn in *.
    rewrite <- (Hf a (Ext o s f r)) by (by left). cbn. subst. do 3 f_equal. lia.
  - exfalso. destruct Hc as (_ & C & _). rewrite (Hf a e), (Hf b e') in C; [done|right; by left|by left].
Qed.

Lemma rep_single m0 m h a ofs size fs : heap_rep m0 m h [(a, Ext ofs size true false)] fs -> single_block m h ofs size.
Proof.
  intros R. destruct (rep_all _ _ _ _ _ R) as [Hc _]. destruct (rep_block _ _ _ _ _ R a _ ltac:(by left)) as (b & Hb & Eh & Eb).
  assert (fs = [a]) as ->.
  { pose proof (rep_fs_nodup _ _ _ _ _ R) as Hn.
    assert (forall x, x ∈ fs -> x = a) as Hx. { intros x (e & [= -> _]%list_elem_of_singleton & _)%(rep_free _ _ _ _ _ R). done. }
    assert (a ∈ fs) as Ha by (apply (rep_free _ _ _ _ _ R); eexists; split; [by left|done]).
    destruct fs as [|x [|y fs]]; [by apply elem_of_nil in Ha|by rewrite (Hx x) by (by left)|].
    apply NoDup_cons in Hn as [Hn _]. exfalso. apply Hn. rewrite (Hx x), (Hx y); [by left|right; by left|by left]. }
  destruct (rep_fl _ _ _ _ _ R) as [Hf _]. cbn in Hc, Hf. unfold view in Hc, Hf. rewrite Hb in Hc, Hf.
  destruct (m !! h) as [hb|] eqn:Hh; [|cbn in Hc; naive_solver]. cbn in Hc, Hf.
  destruct Hc as ([= C1] & [= C2] & [= C3] & [= C4]). destruct Hf as ([= F1] & [= F2] & [= F3] & [= F4]).
  exists a, hb. split; [done|]. split; [|auto]. destruct b. cbn in *. injection Eb as -> -> -> ->. rewrite Hb. congruence.
Qed.

(** ** Claims *)

Section Claims.

Context (callocs : nat -> mm_store -> option Z).
Context (calloc_fresh : forall n m a, callocs n m = Some a -> a <> NULL /\ m !! a = None).

Lemma client_init m0 ofs size h m :
  u_mmInit (callocs 0%nat) m0 ofs size = Some (h, m) -> h <> NULL ->
  0 < size /\ exists l fs, client_inv callocs m0 h ofs (ofs + size) (m, []) l fs.
Proof.
  intros Hi Hh. destruct (u_mmInit_ok (callocs 0%nat) (calloc_fresh 0%nat) _ _ _ _ _ Hi Hh) as (Hs & a & R). split; [done|].
  exists [(a, Ext ofs size true false)], [a]. constructor; cbn [fst snd fmap list_fmap]; [done|cbn; auto|constructor| | |done].
  - intros x e [[= -> ->]%list_elem_of_singleton [=]].
  - intros g []%elem_of_nil.
Qed.

(** C39: whatever a client of a heap allocates and frees, also when memory for the nodes runs out in some
    calls, every call returns, and each block that the client holds has the size that was asked for, starts not
    before [startSearch], and there, aligned or not, or at a multiple of the alignment, lies in the heap, is found by
    its offset, and overlaps no other block that the client holds.  [u_mmDestroy] then gives exactly the store
    from before [u_mmInit]: every node of the heap is freed, and no other node was changed.  Only if memory for
    the nodes never ran out and the client has freed all it held, the heap is one free block of the size it
    started with.  Each call has its own allocator, which gives unused addresses or fails; requests stay
    in the range of [int]. *)
Theorem mm_client_run m0 ofs size h m ops :
  int_range ofs -> int_range (ofs + size) -> size < 2 ^ 31 ->
  u_mmInit (callocs 0%nat) m0 ofs size = Some (h, m) -> h <> NULL -> Forall (op_ok (ofs + size)) ops ->
  exists m' live, mm_run callocs 1 h (m, []) ops = Some (m', live) /\
    Forall (granted m' h ofs (ofs + size)) live /\
    (forall i j g g', live !! i = Some g -> live !! j = Some g' -> i <> j -> apart m' (g_block g) (g_block g')) /\
    u_mmDestroy m' h = Some m0 /\
    ((forall n m, callocs n m <> None) -> live = [] -> single_block m' h ofs size).
Proof.
  intros H1 H2 H3 Hi Hh Ho. destruct (client_init _ _ _ _ _ Hi Hh) as (Hs & l & fs & I0).
  destruct (mm_run_inv callocs calloc_fresh m0 h ofs (ofs + size) H1 H2 ltac:(lia) ops 1%nat _ _ _ I0 Ho) as
    ([m' live] & l' & fs' & Hr & I1).
  exists m', live. split; [done|]. split; [apply Forall_forall; intros g Hg; by eapply client_granted|].
  split; [by eauto using client_apart|]. destruct I1 as [R Hw _ Hu _ Hc]. split; [by eapply u_mmDestroy_ok|].
  cbn [fst snd] in *. intros Ht ->.
  destruct (all_free_single ofs (ofs + size) l' Hw) as [a ->]; [lia|by apply Hc| |].
  - intros [x e] Hx%Hu. by apply elem_of_nil in Hx.
  - replace (ofs + size - ofs) with size in R by lia. by eapply rep_single.
Qed.

End Claims.

(** ** Witnesses *)

(** The address after the largest in use. *)
Definition bump (m : mm_store) : option Z := Some (1 + map_fold (fun k _ acc => Z.max k acc) 0 m).

Lemma bump_fresh m a : bump m = Some a -> a <> NULL /\ m !! a = None.
Proof.
  intros [= <-]. set (r := map_fold _ _ _).
  assert (0 <= r /\ forall k, is_Some (m !! k) -> k <= r) as [H0 H1].
  { unfold r. apply (map_fold_weak_ind (fun (r : Z) (m : mm_store) => 0 <= r /\ forall k, is_Some (m !! k) -> k <= r)).
    - split; [lia|]. intros k. rewrite lookup_empty. by intros [? ?].
    - intros i x m1 r1 _ [I1 I2]. split; [lia|]. intros k Hk. destruct (decide (k = i)) as [->|Hki]; [lia|].
      rewrite lookup_insert_ne in Hk by done. specialize (I2 k Hk). lia. }
  split; [unfold NULL; lia|]. destruct (m !! (1 + r)) eqn:E; [|done]. specialize (H1 (1 + r) ltac:(eauto)). lia.
Qed.

(** A heap of 256 bytes. *)
Definition demo_heap : Z * mm_store := default (NULL, ∅) (u_mmInit bump ∅ 0 256).

Definition demo_ops : list mm_op :=
  [OpAlloc 64 0 0; OpAlloc 32 5 100; OpAlloc 500 0 0; OpFree 1; OpAlloc 16 4 0; OpFree 7].

Lemma mm_client_run_witness :
  exists m' live, mm_run (fun _ => bump) 1 (fst demo_heap) (snd demo_heap, []) demo_ops = Some (m', live) /\
    Forall (granted m' (fst demo_heap) 0 256) live /\
    (forall i j g g', live !! i = Some g -> live !! j = Some g' -> i <> j -> apart m' (g_block g) (g_block g')) /\
    u_mmDestroy m' (fst demo_heap) = Some ∅ /\
    ((forall (n : nat) m, bump m <> None) -> live = [] -> single_block m' (fst demo_heap) 0 256).
Proof.
  apply (mm_client_run (fun _ => bump) (fun _ => bump_fresh) ∅ 0 256); [unfold int_range; lia..|lia|vm_compute; reflexivity|vm_compute; discriminate|].
  repeat constructor; unfold int_range; vm_compute; congruence.
Defined.

(** Freeing the two blocks that are left makes the heap whole again. *)
Example demo_all_freed :
  (snd <$> mm_run (fun _ => bump) 1 (fst demo_heap) (snd demo_heap, []) (demo_ops ++ [OpFree 0; OpFree 0])) = Some [].
Proof. vm_compute. reflexivity. Qed.

(** A request that is answered at [startSearch] is not aligned. *)
Example start_search_unaligned :
  (r ← u_mmAllocMem bump (snd demo_heap) (fst demo_heap) 32 5 100; mb_ofs <$> snd r !! fst r) = Some 100.
Proof. vm_compute. reflexivity. Qed.

(** [startSearch] is an offset as the blocks have it, not one from the start of the heap. *)
Example start_search_absolute :
  ('(h, m) ← u_mmInit bump ∅ 1000 256; '(p, m) ← u_mmAllocMem bump m h 32 0 100; mb_ofs <$> m !! p) = Some 1000.
Proof. vm_compute. reflexivity. Qed.

(** Memory that runs out between the two halves of a split leaves two free blocks next to each other: the left part is
    broken off, the allocation fails, and nothing joins them again. *)
Definition bump_once (m : mm_store) : option Z := if Z.of_nat (base.size m) <? 3 then bump m else None.

Example failed_split_not_joined :
  ('(p, m) ← u_mmAllocMem bump_once (snd demo_heap) (fst demo_heap) 32 0 64;
   hb ← m !! fst demo_heap; b ← m !! mb_next hb; Some (p, mb_free b, mb_size b)) = Some (NULL, true, 64).
Proof. vm_compute. reflexivity. Qed.
